(* ===== verification/_CoqProject ===== *)
-Q . S2P
Prelude.v
Bytes.v
Disk.v
PyFloat.v
Identity.v
ClusterModels.v
Roles.v
RolesFacts.v
RolesSpec.v
LeaseSpec.v
Failover.v
Operations.v
OperationsSpec.v
Sharing.v
ConnectionState.v
NodeRegistry.v
PyJson.v
Wire.v
Caches.v
Envelope.v
EnvelopeSpec.v
CanonicalSpec.v
Session.v
SessionSpec.v
SurfaceWire.v
WireOps.v
WireOpsSpec.v
StateCodec.v
Pairing.v
PairingSpec.v
IdempotencyStore.v
Surfaces.v
SurfacesSpec.v
CloneTree.v
TransportGeneration.v
TransportGenerationSpec.v
RemoteModels.v
Service.v
ServiceFacts.v
ServiceSpec.v
Documents.v
Stores.v
TrustCodec.v
TrustCodecSpec.v
Candidates.v
Discovery.v
IdentityStore.v
DeviceIdentity.v
IdentitySpec.v
Invites.v
Observability.v
Transport.v
TransportSpec.v
Requests.v
RequestsSpec.v
Listener.v
DiscoverySpec.v
AdvertisementSpec.v
CandidatesSpec.v
Connections.v
PairingFlow.v
PairingFlowSpec.v
ListenerSpec.v
ConnectionsSpec.v
Runtime.v
RuntimeDiscovery.v
RuntimePairing.v
RuntimeLifecycle.v
RuntimeLifecycleSpec.v
RoleDispatch.v
RuntimeFacts.v
RuntimeLoad.v
Diagnostics.v
FailoverRuntimeSpec.v
RuntimeDiscoverySpec.v
RuntimeSpec.v
RevocationSpec.v
InboundPairingSpec.v
PairingAgreementSpec.v
RuntimeServiceSpec.v
