(* ===== verification/Prelude.v ===== *)
(** * Expra Connect: a verified model of the peer-connectivity core

    Expra Connect ([src/src/expra_connect/]) lets peers discover one another, pair, hold
    authenticated sessions and form a cluster under one Coordinator.  This library models
    its decision core and proves what makes it correct: who may act, that stale or replayed
    authority is refused, that failures leave the state they found, and that what is stored
    or signed is what is read.  It is a shallow embedding: each Python function is a Rocq
    function on the same data, with the source's names; all of them evaluate.

    ** How code becomes definitions

    - An exception is a value [exn] of a class of the source with its message; a fallible
      expression is a [result]; a mutating method is an [M S A], state to state and result,
      and the state after a raise is the state Python would leave.
    - A [float] is IEEE binary64 ([PyFloat], on the kernel's [SpecFloat]): every comparison,
      sum and overflow of a clock, lease or expiry is the one the program computes.
    - Clock readings and values drawn from [secrets] or [uuid] are arguments, one per call,
      so the theorems hold for every clock, also one that jumps back.
    - A [dict] whose order is observable is an association list in insertion order, other
      maps are [gmap], sets are [gset]; text is [string] (code points below 256).
    - JSON documents are the inductive [json] ([PyJson]), with [json.dumps] defined.
    - Code outside the repository is a parameter: SHA-256, HMAC-SHA256, base64, Ed25519, the
      text of a float, the operating system's address and text decoders, and the JSON, YAML
      and MessagePack libraries ([Codecs]).  Where a component saves through a store it is
      handed, the store's two documented facts (a save that returns is durable, one that
      raises changed nothing readable) are the laws of [StateStore]; in [UncertainStore] a save
      that raises may have been done.
    - Files are kept in the directory of [Disk]: a system call may succeed, fail, or be the
      last before the process is killed or the machine loses power.
    - A lock makes a method one step; a method that releases it is split at that point.

    ** The parts

    Each part is a file with the definitions, which ends with its theorems or has them in a
    file [...Spec] beside it; files [...Facts] hold lemmas and concrete inputs that several
    files share.

    Cluster.  [ClusterModels] (cluster/models.py) has the value objects with their
    constructor checks; [Roles] (cluster/roles.py) the immutable topology [RoleState], its
    operations, leases and promotion; [Failover] (cluster/failover.py) the durable
    coordinator that persists before it publishes; [Operations] (cluster/operations.py,
    invites.py) the persisted [ClusterState] and the mutable [Cluster] with invites and
    joins; [StateCodec] (cluster/state.py, operations.py) the persisted documents.
    Theorems: only the active Coordinator changes the topology ([RolesSpec]); [allows] is
    exact; leases exclude promotion and promotion transfers control once ([LeaseSpec]);
    every sequence of failover operations and restarts keeps epochs monotone, over a store that
    may have done a save it reports failed; over one that has not, the published state is the
    stored one and a failed operation changes nothing ([Failover]); an invite
    admits once and a cluster stays well formed through any history ([OperationsSpec]); a
    saved cluster reads back ([StateCodec]); an invite travels as text ([Invites]).

    Pairing.  [Pairing] (pairing/manager.py): directional trust and grants.  [PairingSpec]:
    trust and grants come only from live transactions of that peer, revocation is complete,
    a pinned transport changes only under the root's signature for a newer generation.
    [PairingFlow] (pairing/flow.py, models.py, the pairing messages of remote/provider.py):
    the caller's side of the exchange, over arbitrary answers.  [PairingFlowSpec]: a failed
    attempt keeps the trust there was, a successful one stores what was discovered.
    [NodeRegistry] (nodes/registry.py): the projection of trust, membership and connection;
    a revocation is a tombstone.  [Identity] (identity/, data/permissions.py): node ids,
    the permission vocabulary, transport proofs.  [TransportGeneration]
    (identity/transport_generation.py): signed transport keys and their rotation;
    [TransportGenerationSpec]: the stored document always loads as the manager, a rotation
    overlaps, an interrupted one blocks.

    Wire protocol (remote/wire_protocol.py).  [Wire]: messages and their checks; [WireOps]:
    the operation tables and the parameters of every operation; [Envelope]: canonical text,
    signing, verification; [Caches] and [IdempotencyStore]: replay and idempotency.
    [EnvelopeSpec]: what is accepted was signed by the key holder, is fresh and new, and what
    is signed verifies; [CanonicalSpec]: the signed text determines the document;
    [Caches]: replays are refused within the window, one caller executes a request id;
    [WireOpsSpec]: what the parameter checks let through and raise.  [SurfaceWire]
    (surfaces/protocol.py): the JSON-safety walk, proved in [SurfaceWire] to decide its
    recursive definition on every object graph.

    Files and identity.  [Disk] (persistence.py): directory, inodes, what a power loss may take
    back, and [_atomic_write_stream]: whatever happens during a write, the file holds all of
    the new content or what it held.  [Stores] (persistence.py): the document stores over it;
    a save survives a crash, a document reads back.  [IdentityStore] (identity/__init__.py,
    profile_state.py): [NodeIdentity], its two files and its older forms; [DeviceIdentity]
    (device_identity.py, device_hardware.py): the network root and its evidence of the
    hardware.  [IdentitySpec]: a profile that holds an identity keeps it through any number of
    starts, of the pair and its device files too, that fail, are killed or lose power, and both
    identities of a profile have one id; a first start that is killed between its two files,
    and a device update, need not leave a profile that loads.

    Sessions (remote/session.py).  [Session], [SessionSpec]: a retired generation never
    returns, expiry is absolute, a live session is never displaced, everything is bounded.

    Service.  [Service] (remote/service.py): access lists, fence, authorization, operations
    and [handle], over a host whose handlers are arbitrary methods of the world.
    [ServiceSpec]: what changes anything was admitted (authentic, unexpired, within the fence,
    permitted, in a live session), and what is answered with success still was after its
    operation; repeated requests are not executed; the fence never goes back within a cluster.  [Surfaces] (surfaces/registry.py, provider.py)
    and [Sharing] (sharing/capabilities.py): what a request can reach, who was granted it.
    [RemoteModels] (remote/models.py): the host's documents.

    Discovery and connections.  [Candidates] (discovery/models.py, candidates.py): candidates,
    route ranks, the table.  [ConnectionState] (connections/state.py): failure classes,
    backoff.  [Connections] (connections/manager.py): providers, routes and generations;
    [ConnectionsSpec]: an opened connection is authentic, a superseded one stays stale, and
    through any calls the pinned transports change only as their roots sign.
    [Discovery] (discovery/network.py, backend.py): adverts, their parsing, the peers and
    services seen, expiry and withdrawal.  [DiscoverySpec]: the table refines the
    list of records seen; [AdvertisementSpec]: what a peer advertises is what is discovered.

    Transport and client.  [Bytes]: frame lengths and UTF-8.  [Transport]
    (transport/socket_transport.py): frames, the pinned TLS client, retries, over a network
    that delivers what and when it likes; [TransportSpec]: nothing is sent or accepted
    without the pinned certificate, a request settles, a frame is bounded.  [Requests]
    (remote/requests.py, provider.py, role_operations.py): the client's signed calls and the
    builders of role requests; [RequestsSpec]: an accepted answer is authentic, a call is one
    message, what a builder makes validates.  [Listener] (transport/server.py): what a
    connection's document is answered with, admission and binding; [ListenerSpec]: pairing
    messages arrive as the requests they were made of, a listener never runs more handlers
    than its limit.

    Runtime (runtime/core.py, runtime/persistence.py).  [TrustCodec] and [Documents]: the
    trust document and schema migrations; [CloneTree] (persistence.py): the copy of a
    document, which always returns and is isomorphic to it.  [Runtime]: the composed state,
    its two files, approval and revocation; [RuntimePairing] (pairing/target.py, core.py):
    inbound pairing and elevation; [RoleDispatch] (remote/role_operations.py): the role
    operations a peer may ask for, failover entry points and joining, and the service the
    runtime builds over itself.  [RuntimeSpec]: role operations are saved, undone, or (the use
    of an invite) undone in part; [RevocationSpec]: a revoked peer is out everywhere; [InboundPairingSpec]: asking obtains
    nothing, a confirmation is exact; [PairingAgreementSpec] joins the caller's flow, the
    listener and these handlers: who succeeds in pairing shares a secret with the target,
    which has saved it.  [RuntimeLifecycle] (core.py, identity/profile_state.py): start,
    shutdown and rotation with the profile lock and all error paths;
    [RuntimeLifecycleSpec]: the status tells what runs, as long as saving, tearing down and
    starting threads do not raise.  [RuntimeServiceSpec]: whatever arrives at the service,
    a peer changes the cluster only with authority over it.  [RuntimeDiscovery] (core.py,
    network.py): what the runtime does with a discovered peer; [RuntimeDiscoverySpec]: no
    advertisement replaces a trusted key, key generation or grant.  [FailoverRuntimeSpec]:
    a local cluster operation writes the Coordinator's state over the file.  [RuntimeLoad]
    (core.py, cluster/persistence.py): loading the two files; a restart restores what was saved,
    of trust whose permissions are texts.

    Observation.  [Observability] (observability.py): the metrics of a process, which agree with
    one another within their bounds, and [observation_scope], which changes nothing of what it
    observes: that is why the other files leave their scopes out.  [Diagnostics]
    (runtime/diagnostics.py): the two reports of a node, which hide every secret.

    ** How the parts meet

    A world [World] holds the service's state and, outside it, the [Runtime.t] with the
    pairing manager, registry, cluster, shares, surfaces, connection manager and files.  The
    service verifies an envelope, [Session] decides whether its connection may speak for the
    session, and [RoleDispatch.runtime_host] answers role operations with
    [RoleDispatch.dispatch_role_request], whose guards are [RoleState]'s, and revocations with
    [Runtime.revoke_peer]; both write the files and refresh the service's access lists.
    [Connections] and [PairingFlow] reach the pairing manager, registry and candidates through
    the class [HasNetwork], which the runtime's world and the sample worlds implement; a
    collaborator (a socket, a handler, a callback) is any method of the world, restricted
    where a theorem needs it by [Keeps R m]: every run of [m] is related by [R], a class whose
    instances compose along the code ([keeps]).  [Failover] is proved against [StateStore];
    and [UncertainStore]; in the runtime the store of the failover coordinator is
    [RoleDispatch.persist], which writes two files one after the other.

    ** Bounds and fuel

    Two loops are not structural: the JSON-safety walk, where [json_safe_decides] proves that
    some number of iterations is enough for every input, and the copy of a document, where
    [clone_always_returns] proves that one nested call for each container is.  The
    interpreter's own recursion limit is not modelled.  The bytes a socket delivers are a
    finite list of events, consumed one by one, after which it is at its end.  [exn_isa] follows at most four base
    classes, the depth of the source's hierarchy.  Whether a write succeeds is an oracle on
    the number of writes made so far (for files, of system calls), and the clock one on the
    number of readings.  A temporary file's name is tried 10000 times, the bound of the
    standard library.

    ** What is not modelled

    The sockets and threads of the standard library (transport/server.py, api.py), making
    certificates and TLS contexts (transport/tls_material.py), the multicast backend over the
    zeroconf package (discovery/network.py), reading the hardware itself
    (device_hardware.py), the re-exports and the command line are input and output around the
    modelled decisions, and so are the scripts and tools beside the package, which measure or
    drive it.  Of files: the buffers of file
    objects, newline translation, YAML values JSON does not have, more than one directory, and
    the one-time move of old profiles (profile_migration.py); of the device identity, its
    signatures.  Threads appear as interleavings of whole locked sections.  Of the listeners,
    PeerServer; of the client, request_quit, force_quit and request_elevation, which only
    build arguments.  The lifecycle treats loading, saving and key material as steps that may
    do and fail anything; closing a socket that a handler is done with is taken not to raise;
    an interrupt of the interpreter is not an exception of the model. *)

From Stdlib Require Ascii.
From Stdlib Require Export ZArith Lia.
From stdpp Require Export base option fin_maps gmap strings list.

#[global] Set Default Goal Selector "!".

(** ** Exceptions and results

    An exception is a class name of the source (or a builtin) with its message;
    a fallible Python expression is a [result]. *)

Inductive exn_class :=
  | ValueError | TypeError | KeyError | PermissionError | RuntimeError
  | OverflowError | OSError | ConnectionError | AttributeError
  | RoleAuthorizationError | FencingError | ClusterDataError
  | StateDataError | ProfileInUseError | TransportStateError | RotationConflict
  | PairingConflict | PairingBusy | RepairRequired | RepairNotRequired
  | IdentityConflict | CapabilityHandlerError | SurfaceHandlerError
  | RemoteProtocolError | RemoteAuthError | RemoteAuthorizationError
  | RemoteExecutionError | RemoteTransportError | IdempotencyCollisionError
  | RemoteUnavailableError | PersistenceError | IndexError | NonJsonTreeError
  | TimeoutError | SSLCertVerificationError | UnicodeEncodeError | UnicodeDecodeError
  | StructError | YAMLError | UnpackException | DeviceIdentityError | RecursionError | OtherError.

#[export] Instance exn_class_eq_dec : EqDecision exn_class.
Proof. solve_decision. Defined.

Record exn := Exn { exn_cls : exn_class; exn_msg : string }.

#[export] Instance exn_eq_dec : EqDecision exn.
Proof. solve_decision. Defined.

(** The direct base class of each exception class the source declares or catches; of
    [ssl.SSLCertVerificationError], which has two, the one the source relies on. *)
Definition exn_base (c : exn_class) : option exn_class :=
  match c with
  | RoleAuthorizationError | FencingError | ClusterDataError | StateDataError
  | TransportStateError | RotationConflict | PairingConflict
  | RemoteProtocolError => Some ValueError
  | PairingBusy | RepairRequired | RepairNotRequired | IdentityConflict =>
      Some PairingConflict
  | RemoteAuthError | RemoteAuthorizationError => Some RemoteProtocolError
  | IdempotencyCollisionError => Some RemoteAuthError
  | CapabilityHandlerError | SurfaceHandlerError | RemoteExecutionError
  | RemoteTransportError | PersistenceError => Some RuntimeError
  | ProfileInUseError | DeviceIdentityError => Some StateDataError
  | RecursionError => Some RuntimeError
  | RemoteUnavailableError => Some RemoteExecutionError
  | PermissionError | ConnectionError | TimeoutError | SSLCertVerificationError => Some OSError
  | UnicodeEncodeError | UnicodeDecodeError => Some ValueError
  | _ => None
  end.

(** [isinstance(error, cls)]: the class chain has length at most four. *)
Fixpoint exn_isa_fuel (n : nat) (c d : exn_class) : bool :=
  bool_decide (c = d) ||
  match n, exn_base c with
  | S n', Some b => exn_isa_fuel n' b d
  | _, _ => false
  end.

Definition exn_isa (e : exn) (d : exn_class) : bool := exn_isa_fuel 4 (exn_cls e) d.

Inductive result (A : Type) :=
  | Ok (a : A)
  | Err (e : exn).
Arguments Ok {_} _.
Arguments Err {_} _.

#[export] Instance result_ret : MRet result := λ A a, Ok a.
#[export] Instance result_bind : MBind result := λ A B f m,
  match m with Ok a => f a | Err e => Err e end.
#[export] Instance result_fmap : FMap result := λ A B f m,
  match m with Ok a => Ok (f a) | Err e => Err e end.

Definition raise {A} (c : exn_class) (msg : string) : result A := Err (Exn c msg).

(** [if b: raise c(msg)] *)
Definition raise_if (b : bool) (c : exn_class) (msg : string) : result () :=
  if b then raise c msg else Ok ().

Definition is_ok {A} (r : result A) : bool :=
  match r with Ok _ => true | Err _ => false end.

Definition of_option {A} (o : option A) (c : exn_class) (msg : string) : result A :=
  match o with Some a => Ok a | None => raise c msg end.

(** ** Methods that mutate an object and may raise

    A method of an object with state [S] is [S → S * result A]: the state after
    the call is kept when the method raises, as Python keeps the mutations done
    before the [raise]. *)
Definition M (S A : Type) : Type := S → S * result A.

#[export] Instance M_ret {S} : MRet (M S) := λ A a s, (s, Ok a).
#[export] Instance M_bind {S} : MBind (M S) := λ A B f m s,
  match m s with
  | (s', Ok a) => f a s'
  | (s', Err e) => (s', Err e)
  end.

Definition get {S} : M S S := λ s, (s, Ok s).
Definition put {S} (s : S) : M S () := λ _, (s, Ok ()).
Definition modify {S} (f : S → S) : M S () := λ s, (f s, Ok ()).
Definition lift {S A} (r : result A) : M S A := λ s, (s, r).
Definition throw {S A} (c : exn_class) (msg : string) : M S A := λ s, (s, raise c msg).
Definition throw_if {S} (b : bool) (c : exn_class) (msg : string) : M S () :=
  λ s, (s, raise_if b c msg).

(** [try: m except e: h e] *)
Definition attempt {S A} (m : M S A) (h : exn → M S A) : M S A := λ s,
  match m s with (s', Ok a) => (s', Ok a) | (s', Err e) => h e s' end.

(** [try: a = m except e: h e else: k a] *)
Definition try_else {S A B} (m : M S A) (k : A → M S B) (h : exn → M S B) : M S B := λ s,
  match m s with (s', Ok a) => k a s' | (s', Err e) => h e s' end.

(** [try: m], its outcome as a value. *)
Definition outcome {S A} (m : M S A) : M S (result A) := λ s, let '(s', r) := m s in (s', Ok r).

(** ** Reasoning about results *)

Lemma bind_Ok {A B} (m : result A) (f : A → result B) b :
  (m ≫= f) = Ok b ↔ ∃ a, m = Ok a ∧ f a = Ok b.
Proof. destruct m; simpl; naive_solver. Qed.

Lemma raise_if_Ok b c msg u : raise_if b c msg = Ok u ↔ b = false.
Proof. destruct b, u; simpl; naive_solver. Qed.

Lemma of_option_Ok {A} (o : option A) c msg a : of_option o c msg = Ok a ↔ o = Some a.
Proof. destruct o; simpl; naive_solver. Qed.

(** [res_step] takes one step of symbolic execution of a call known to have
    returned; [py_run] iterates it, [py_case] also splits the guards left. *)
Ltac res_step :=
  match goal with
  | H : Ok _ = Ok _ |- _ => injection H as H
  | H : Err _ = Ok _ |- _ => discriminate H
  | H : raise _ _ = Ok _ |- _ => discriminate H
  | H : Ok _ = Err _ |- _ => discriminate H
  | H : Ok _ = raise _ _ |- _ => discriminate H
  | H : raise_if _ _ _ = Ok _ |- _ => apply raise_if_Ok in H
  | H : of_option _ _ _ = Ok _ |- _ => apply of_option_Ok in H
  | H : mbind _ _ = Ok _ |- _ =>
      let res := fresh "res" in let Hres := fresh "Hres" in
      apply bind_Ok in H as (res & Hres & H)
  | H : mret _ = Ok _ |- _ => unfold mret, result_ret in H
  end.
Ltac py_run := simpl in *; repeat (res_step; simpl in *); simplify_eq.
Ltac py_case := repeat (py_run; try case_match); simplify_eq/=.

(** Boolean guards as propositions. *)
Ltac to_prop :=
  repeat match goal with
  | H : orb _ _ = false |- _ => apply orb_false_iff in H as [? ?]
  | H : andb _ _ = true |- _ => apply andb_true_iff in H as [? ?]
  | H : negb _ = true |- _ => apply negb_true_iff in H
  | H : negb _ = false |- _ => apply negb_false_iff in H
  | H : bool_decide _ = true |- _ => apply bool_decide_eq_true in H
  | H : bool_decide _ = false |- _ => apply bool_decide_eq_false in H
  end.

Lemma M_bind_run {S A B} (m : M S A) (f : A → M S B) s :
  (m ≫= f) s = match m s with (s', Ok a) => f a s' | (s', Err e) => (s', Err e) end.
Proof. done. Qed.

Lemma M_bind_Ok {S A B} (m : M S A) (f : A → M S B) s s' b :
  (m ≫= f) s = (s', Ok b) ↔ ∃ s1 a, m s = (s1, Ok a) ∧ f a s1 = (s', Ok b).
Proof. rewrite M_bind_run. destruct (m s) as [s1 [a|e]]; naive_solver. Qed.

Lemma throw_if_Ok {S} b c msg (s s' : S) u : throw_if b c msg s = (s', Ok u) ↔ s' = s ∧ b = false.
Proof. unfold throw_if. destruct b, u; simpl; naive_solver. Qed.

Lemma lift_Ok {S A} (r : result A) (s s' : S) a : lift r s = (s', Ok a) ↔ s' = s ∧ r = Ok a.
Proof. unfold lift. naive_solver. Qed.

Lemma mret_run {S A} (a b : A) (s s' : S) : (mret a : M S A) s = (s', Ok b) ↔ s' = s ∧ a = b.
Proof. unfold mret, M_ret. naive_solver. Qed.

Lemma outcome_Ok {S A} (m : M S A) s s' r : outcome m s = (s', Ok r) → m s = (s', r).
Proof. unfold outcome. destruct (m s). naive_solver. Qed.

(** [m_step] takes one step of a method known to have returned. *)
Ltac m_step :=
  match goal with
  | H : mbind _ _ _ = (_, Ok _) |- _ =>
      let s := fresh "w" in let a := fresh "res" in let Hm := fresh "Hm" in
      apply M_bind_Ok in H as (s & a & Hm & H)
  | H : throw_if _ _ _ _ = (_, Ok _) |- _ => apply throw_if_Ok in H as [-> H]
  | H : lift _ _ = (_, Ok _) |- _ => apply lift_Ok in H as [-> H]
  | H : mret _ _ = (_, Ok _) |- _ => apply mret_run in H as [-> H]; try (injection H as H); simplify_eq
  | H : throw _ _ _ = (_, Ok _) |- _ => discriminate H
  | H : outcome _ _ = (_, Ok _) |- _ => apply outcome_Ok in H
  end.

(** ** What a method keeps

    [Keeps R m]: each run of [m], also one that raises, relates the state before to the
    state after by [R].  A component states here what its methods leave alone; for a
    reflexive and transitive [R] the [keeps] tactic composes them. *)
Class Keeps {S A} (R : relation S) (m : M S A) : Prop := keeps_fst : ∀ s, R s (m s).1.

Lemma keeps_run {S A} (R : relation S) (m : M S A) `{!Keeps R m} s s' r : m s = (s', r) → R s s'.
Proof. intros Hm. pose proof (keeps_fst (m := m) s) as Hr. by rewrite Hm in Hr. Qed.

Section keeps.
Context {S : Type} (R : relation S) `{!Reflexive R, !Transitive R}.

#[export] Instance keeps_bind {A B} (m : M S A) (f : A → M S B) :
  Keeps R m → (∀ a, Keeps R (f a)) → Keeps R (m ≫= f).
Proof.
  intros Hm Hf s. rewrite M_bind_run. pose proof (Hm s) as Hs.
  destruct (m s) as [s1 [a|e]]; [|done]. simpl in Hs. etrans; [done|]. apply Hf.
Qed.
#[export] Instance keeps_ret {A} (a : A) : Keeps R (mret a).
Proof. by intros s. Qed.
#[export] Instance keeps_lift {A} (r : result A) : Keeps R (lift r).
Proof. by intros s. Qed.
Lemma keeps_lift_bind {A B} (r : result A) (f : A → M S B) :
  (∀ a, r = Ok a → Keeps R (f a)) → Keeps R (lift r ≫= f).
Proof. intros Hf s. rewrite M_bind_run. unfold lift. destruct r; [by apply Hf|done]. Qed.
#[export] Instance keeps_throw_if c e msg : Keeps R (throw_if c e msg).
Proof. by intros s. Qed.
#[export] Instance keeps_throw {A} c msg : Keeps R (throw c msg : M S A).
Proof. by intros s. Qed.
#[export] Instance keeps_attempt {A} (m : M S A) h :
  Keeps R m → (∀ e, Keeps R (h e)) → Keeps R (attempt m h).
Proof.
  intros Hm Hh s. unfold attempt. pose proof (Hm s) as Hs.
  destruct (m s) as [s1 [a|e]]; [done|]. simpl in Hs. etrans; [done|]. apply Hh.
Qed.
#[export] Instance keeps_outcome {A} (m : M S A) : Keeps R m → Keeps R (outcome m).
Proof. intros Hm s. unfold outcome. pose proof (Hm s). by destruct (m s). Qed.
End keeps.

(** A continuation is met only after its method returned. *)
Lemma keeps_bind_ok {S A B} (R : relation S) `{!Transitive R} (m : M S A) (f : A → M S B) :
  Keeps R m → (∀ a s s', m s = (s', Ok a) → Keeps R (f a)) → Keeps R (m ≫= f).
Proof.
  intros Hm Hf s. rewrite M_bind_run. pose proof (Hm s) as Hs.
  destruct (m s) as [s1 [a|e]] eqn:E; [|done]. simpl in Hs. etrans; [done|]. by eapply Hf.
Qed.

Lemma keeps_weaken {S A} (R R' : relation S) (m : M S A) :
  (∀ s s', R s s' → R' s s') → Keeps R m → Keeps R' m.
Proof. intros H Hm s. apply H, Hm. Qed.

(** ** What a method raises

    [Raises I E m]: run from a state where the invariant [I] holds, [m] keeps it, and if it
    raises the error satisfies [E].  The [raises] tactic composes along the code. *)
Class Raises {S A} (I : S → Prop) (E : exn → Prop) (m : M S A) : Prop :=
  raises_run : ∀ s, I s → I (m s).1 ∧ ∀ e, (m s).2 = Err e → E e.

Section raises.
Context {S : Type} (I : S → Prop) (E : exn → Prop).

#[export] Instance raises_bind {A B} (m : M S A) (f : A → M S B) :
  Raises I E m → (∀ a, Raises I E (f a)) → Raises I E (m ≫= f).
Proof.
  intros Hm Hf s Hs. rewrite M_bind_run. destruct (Hm s Hs) as [H1 H2].
  destruct (m s) as [s1 [a|e]]; [by apply Hf|]. simpl in *. split; [done|]. intros ? [= <-]. by apply H2.
Qed.
Lemma raises_bind_ok {A B} (m : M S A) (f : A → M S B) :
  Raises I E m → (∀ a s s', m s = (s', Ok a) → Raises I E (f a)) → Raises I E (m ≫= f).
Proof.
  intros Hm Hf s Hs. rewrite M_bind_run. destruct (Hm s Hs) as [H1 H2].
  destruct (m s) as [s1 [a|e]] eqn:Em; [by eapply Hf|]. simpl in *. split; [done|].
  intros ? [= <-]. by apply H2.
Qed.
#[export] Instance raises_ret {A} (a : A) : Raises I E (mret a).
Proof. by intros s Hs. Qed.
Lemma raises_lift {A} (r : result A) : (∀ e, r = Err e → E e) → Raises I E (lift r).
Proof. by intros H s Hs. Qed.
Lemma raises_throw {A} c msg : E (Exn c msg) → Raises I E (throw c msg : M S A).
Proof. intros H s Hs. split; [done|]. by intros e [= <-]. Qed.
Lemma raises_throw_if b c msg : E (Exn c msg) → Raises I E (throw_if b c msg).
Proof. intros H s Hs. split; [done|]. intros e. destruct b; [|done]. by intros [= <-]. Qed.
Lemma raises_modify f : (∀ s, I s → I (f s)) → Raises I E (modify f).
Proof. intros H s Hs. split; [by apply H|done]. Qed.
Lemma raises_attempt {A} (E' : exn → Prop) (m : M S A) h :
  Raises I E' m → (∀ e, E' e → Raises I E (h e)) → Raises I E (attempt m h).
Proof.
  intros Hm Hh s Hs. unfold attempt. destruct (Hm s Hs) as [H1 H2].
  destruct (m s) as [s1 [a|e]]; [done|]. exact (Hh e (H2 e eq_refl) s1 H1).
Qed.
End raises.

Ltac raises := repeat first
  [apply _|apply raises_bind; [|intros]|case_match].

Ltac keeps := repeat first
  [apply keeps_bind; [apply _..| |intros]|apply keeps_attempt; [apply _..| |intros]|apply _|case_match].

(** ** Lists *)

Lemma find_Some_spec {A} (f : A → bool) l x :
  List.find f l = Some x → x ∈ l ∧ f x = true.
Proof. intros H. apply find_some in H as [H ?]. by rewrite list_elem_of_In. Qed.

Lemma find_None_spec {A} (f : A → bool) l x :
  List.find f l = None → x ∈ l → f x = false.
Proof. intros H Hx. eapply find_none; [done|]. by rewrite <- list_elem_of_In. Qed.

Lemma existsb_false_iff {A} (f : A → bool) l :
  existsb f l = false ↔ ∀ x, x ∈ l → f x = false.
Proof.
  induction l as [|a l IH]; simpl.
  - split; [|done]. intros _ x Hx. by apply not_elem_of_nil in Hx.
  - rewrite orb_false_iff, IH. split.
    + intros [Ha Hl] x [->|Hx]%elem_of_cons; auto.
    + intros H. split; intros; apply H; set_solver.
Qed.

Lemma elem_of_lfilter {A} (f : A → bool) l x :
  x ∈ List.filter f l ↔ f x = true ∧ x ∈ l.
Proof. rewrite !list_elem_of_In, filter_In. tauto. Qed.

Lemma size_list_to_set_NoDup `{Countable A} (l : list A) :
  size (list_to_set l : gset A) = length l ↔ NoDup l.
Proof.
  induction l as [|a l IH]; simpl.
  - split; [intros; constructor|done].
  - destruct (decide (a ∈ l)) as [Hin|Hnin].
    + replace ({[a]} ∪ list_to_set l : gset A) with (list_to_set l : gset A) by set_solver.
      assert (size (list_to_set l : gset A) ≤ length l).
      { clear. induction l as [|b l IH]; simpl; [done|].
        pose proof (size_union_alt ({[b]} : gset A) (list_to_set l)) as ->.
        rewrite size_singleton.
        assert (size (list_to_set l ∖ {[b]} : gset A) ≤ size (list_to_set l : gset A))
          by (apply subseteq_size; set_solver). lia. }
      split; [lia|]. by inversion 1.
    + rewrite size_union, size_singleton by set_solver.
      rewrite NoDup_cons. split; [intros; split; [done|apply IH; lia]|].
      intros [_ ?%IH]. lia.
Qed.

(** ** Insertion-ordered dictionaries

    A Python [dict] iterates in insertion order; assigning to a present key keeps
    its place.  Where the order is observable the model keeps it. *)

Section odict.
Context {K V : Type} `{EqDecision K}.
Implicit Types (d : list (K * V)) (k : K) (v : V).

Fixpoint od_get k d : option V :=
  match d with
  | [] => None
  | (k', v) :: d' => if decide (k = k') then Some v else od_get k d'
  end.

Fixpoint od_set k v d : list (K * V) :=
  match d with
  | [] => [(k, v)]
  | (k', v') :: d' =>
      if decide (k = k') then (k', v) :: d' else (k', v') :: od_set k v d'
  end.

Definition od_pop k d : list (K * V) := List.filter (λ kv, negb (bool_decide (kv.1 = k))) d.

Definition od_mem k d : bool := match od_get k d with Some _ => true | None => false end.

(** [{k: v for k, v in l}]: a later binding of a key wins. *)
Definition od_of_list (l : list (K * V)) : list (K * V) :=
  foldl (λ d kv, od_set kv.1 kv.2 d) [] l.

Definition od_update d (l : list (K * V)) : list (K * V) :=
  foldl (λ d kv, od_set kv.1 kv.2 d) d l.

Lemma od_get_set_eq k v d : od_get k (od_set k v d) = Some v.
Proof.
  induction d as [|[k' v'] d IH]; simpl; [by rewrite decide_True|].
  destruct (decide (k = k')); simpl; [by rewrite decide_True|by rewrite decide_False].
Qed.

Lemma od_get_set_ne k k' v d : k ≠ k' → od_get k' (od_set k v d) = od_get k' d.
Proof.
  intros. induction d as [|[j w] d IH]; simpl; [by rewrite decide_False|].
  destruct (decide (k = j)); simpl; [|by rewrite IH].
  subst. by rewrite !decide_False by done.
Qed.

Lemma od_get_set k k' v d :
  od_get k' (od_set k v d) = if decide (k = k') then Some v else od_get k' d.
Proof. destruct (decide (k = k')) as [->|]; [apply od_get_set_eq|by apply od_get_set_ne]. Qed.

Lemma od_get_pop k k' d :
  od_get k' (od_pop k d) = if decide (k = k') then None else od_get k' d.
Proof.
  induction d as [|[j w] d IH]; simpl; [by case_decide|].
  case_bool_decide; simpl; repeat case_decide; simplify_eq; try done; congruence.
Qed.

Lemma od_get_pop_eq k d : od_get k (od_pop k d) = None.
Proof. rewrite od_get_pop. by case_decide. Qed.

Lemma od_get_pop_ne k k' d : k ≠ k' → od_get k' (od_pop k d) = od_get k' d.
Proof. intros. rewrite od_get_pop. by case_decide. Qed.

Lemma od_get_elem k v d : od_get k d = Some v → (k, v) ∈ d.
Proof.
  induction d as [|[j w] d IH]; simpl; [done|]. case_decide; intros; simplify_eq; set_solver.
Qed.

Lemma od_get_None k d : od_get k d = None ↔ k ∉ d.*1.
Proof.
  induction d as [|[j w] d IH]; simpl; [set_solver|]. case_decide; [set_solver|].
  rewrite IH. set_solver.
Qed.

Lemma od_elem_get k v d : NoDup d.*1 → (k, v) ∈ d → od_get k d = Some v.
Proof.
  induction d as [|[j w] d IH]; simpl; [set_solver|].
  rewrite NoDup_cons. intros [Hj Hd] [Heq|Hin]%elem_of_cons; simplify_eq.
  - by rewrite decide_True.
  - rewrite decide_False; [auto|]. intros ->. apply Hj.
    apply list_elem_of_fmap. by exists (j, v).
Qed.

Lemma od_set_keys k v d : (od_set k v d).*1 = if decide (k ∈ d.*1) then d.*1 else d.*1 ++ [k].
Proof.
  induction d as [|[j w] d IH]; [done|]. cbn [od_set fmap list_fmap fst].
  destruct (decide (k = j)) as [->|].
  - rewrite decide_True; [done|set_solver].
  - cbn [fmap list_fmap fst]. rewrite IH.
    destruct (decide (k ∈ d.*1)); [rewrite decide_True|rewrite decide_False];
      try done; set_solver.
Qed.

Lemma od_set_NoDup k v d : NoDup d.*1 → NoDup (od_set k v d).*1.
Proof.
  intros. rewrite od_set_keys. case_decide; [done|].
  apply NoDup_app. split_and!; [done|set_solver|apply NoDup_singleton].
Qed.

Lemma od_pop_elem k kv d : kv ∈ od_pop k d ↔ kv ∈ d ∧ kv.1 ≠ k.
Proof.
  unfold od_pop. rewrite elem_of_lfilter, negb_true_iff, bool_decide_eq_false. tauto.
Qed.

Lemma od_pop_NoDup k d : NoDup d.*1 → NoDup (od_pop k d).*1.
Proof.
  induction d as [|[j w] d IH]; simpl; [done|]. rewrite NoDup_cons. intros [Hj Hd].
  case_bool_decide; simpl; [auto|]. apply NoDup_cons. split; [|auto].
  intros ([j' w'] & ? & Hin)%list_elem_of_fmap. simplify_eq/=.
  apply od_pop_elem in Hin as [Hin _]. apply Hj, list_elem_of_fmap. by exists (j', w').
Qed.

Lemma od_set_elem kv k v d : kv ∈ od_set k v d → kv = (k, v) ∨ kv ∈ d.
Proof.
  induction d as [|[j w] d IH]; simpl; [set_solver|]. case_decide; subst; set_solver.
Qed.

Lemma od_of_list_snoc l k v : od_of_list (l ++ [(k, v)]) = od_set k v (od_of_list l).
Proof. unfold od_of_list. by rewrite foldl_app. Qed.

Lemma od_of_list_NoDup l : NoDup (od_of_list l).*1.
Proof.
  induction l as [|[k v] l IH] using rev_ind; [constructor|].
  rewrite od_of_list_snoc. by apply od_set_NoDup.
Qed.

Lemma od_set_fresh k v d : k ∉ d.*1 → od_set k v d = d ++ [(k, v)].
Proof.
  induction d as [|[j w] d IH]; simpl; [done|]. intros.
  rewrite decide_False by set_solver. by rewrite IH by set_solver.
Qed.

Lemma od_of_list_id l : NoDup l.*1 → od_of_list l = l.
Proof.
  induction l as [|[k v] l IH] using rev_ind; [done|].
  rewrite fmap_app, NoDup_app. intros (Hl & Hk & _).
  rewrite od_of_list_snoc, IH by done. apply od_set_fresh. intros ?. eapply Hk; set_solver.
Qed.

Lemma od_pop_absent k d : od_get k d = None → od_pop k d = d.
Proof.
  rewrite od_get_None. induction d as [|[j w] d IH]; simpl; [done|]. intros.
  rewrite bool_decide_eq_false_2 by set_solver. simpl. rewrite IH; set_solver.
Qed.

Lemma od_pop_set_fresh k v d : od_get k d = None → od_pop k (od_set k v d) = d.
Proof.
  intros Hd. rewrite od_set_fresh by (by apply od_get_None). unfold od_pop. rewrite List.filter_app.
  simpl. rewrite bool_decide_eq_true_2 by done. simpl. rewrite app_nil_r. by apply od_pop_absent.
Qed.

Lemma od_get_filter_keep f k v d : od_get k d = Some v → f (k, v) = true →
  od_get k (List.filter f d) = Some v.
Proof.
  intros Hd Hf. induction d as [|[j w] d IH]; simpl in *; [done|].
  destruct (decide (k = j)) as [->|].
  - simplify_eq. rewrite Hf. simpl. by rewrite decide_True.
  - destruct (f (j, w)); simpl; [rewrite decide_False by done|]; auto.
Qed.

Lemma od_filter_NoDup f d : NoDup d.*1 → NoDup (List.filter f d).*1.
Proof.
  induction d as [|[j w] d IH]; simpl; [done|]. rewrite NoDup_cons. intros [Hj Hd].
  destruct (f (j, w)); simpl; [|auto]. apply NoDup_cons. split; [|auto].
  intros ([j' w'] & ? & Hin)%list_elem_of_fmap. simplify_eq/=.
  apply elem_of_lfilter in Hin as [_ Hin]. apply Hj, list_elem_of_fmap. by exists (j', w').
Qed.

Lemma od_get_of_list l k :
  od_get k (od_of_list l) = (List.find (λ kv, bool_decide (kv.1 = k)) (reverse l)) ≫= λ kv, Some kv.2.
Proof.
  induction l as [|[j w] l IH] using rev_ind; [done|].
  rewrite od_of_list_snoc, od_get_set, reverse_app. simpl.
  case_bool_decide; case_decide; try done; congruence.
Qed.
End odict.

Create HintDb odict.
#[export] Hint Resolve od_set_NoDup od_pop_NoDup od_of_list_NoDup : odict.
Create Rewrite HintDb odict.
#[export] Hint Rewrite @od_get_set_eq @od_get_pop_eq : odict.

(** ** [mapM] for results *)

Lemma mapM_Ok {A B} (f : A → result B) (g : A → B) l :
  (∀ x, x ∈ l → f x = Ok (g x)) → mapM f l = Ok (g <$> l).
Proof.
  induction l as [|a l IH]; intros H; [done|]. simpl.
  rewrite H by set_solver. simpl. rewrite IH by set_solver. done.
Qed.

Lemma mapM_Ok_inv {A B} (f : A → result B) l k :
  mapM f l = Ok k → Forall2 (λ x y, f x = Ok y) l k.
Proof.
  revert k. induction l as [|a l IH]; simpl; intros k H; repeat res_step; subst; [constructor|].
  constructor; auto.
Qed.

(** [hmac.compare_digest] on text: only ASCII text can be compared. *)
Definition is_ascii (s : string) : bool :=
  forallb (λ c, Nat.ltb (Ascii.nat_of_ascii c) 128) (String.list_ascii_of_string s).

Definition compare_digest (a b : string) : result bool :=
  if is_ascii a && is_ascii b then Ok (bool_decide (a = b))
  else raise TypeError "comparing strings with non-ASCII characters is not supported".

(** [try: m except cls: handler] *)
Definition catch {A} (cls : exn_class) (m handler : result A) : result A :=
  match m with
  | Err e => if exn_isa e cls then handler else m
  | Ok _ => m
  end.

(** ** Durable stores

    What a component that persists before it publishes relies on: a save that
    returns is durable, a save that raises leaves the stored document readable. *)
Class StateStore (D S : Type) := {
  store_save : D → S → D * result ();
  store_load : D → option S;
  store_save_Ok : ∀ d s d' u, store_save d s = (d', Ok u) → store_load d' = Some s;
  store_save_Err : ∀ d s d' e, store_save d s = (d', Err e) → store_load d' = store_load d }.
