(* ===== verification/Bytes.v ===== *)
(** * Bytes on the wire

    What the transport uses of the standard library: [struct.pack(">I", n)] and its reading,
    and the strict UTF-8 codec.  A text is the list of its code points. *)

From S2P Require Import Prelude.
From Stdlib Require Import Strings.Byte.

Abbreviation byte := Byte.byte (only parsing).
Abbreviation bytes := (list Byte.byte) (only parsing).

#[export] Instance byte_eq_dec : EqDecision Byte.byte := Byte.byte_eq_dec.

Definition byte_val (b : byte) : Z := Z.of_N (Byte.to_N b).
Definition to_byte (z : Z) : byte := default x00 (Byte.of_N (Z.to_N (z mod 256))).

Lemma byte_val_range b : (0 <= byte_val b < 256)%Z.
Proof. unfold byte_val. pose proof (Byte.to_N_bounded b). lia. Qed.

Lemma byte_val_to_byte z : byte_val (to_byte z) = (z mod 256)%Z.
Proof.
  unfold byte_val, to_byte.
  pose proof (Z.mod_pos_bound z 256 ltac:(lia)) as Hz.
  destruct (Byte.of_N (Z.to_N (z mod 256))) eqn:E; simpl.
  - apply Byte.to_of_N in E. rewrite E. lia.
  - apply Byte.of_N_None_iff in E. lia.
Qed.

Lemma to_byte_val b : to_byte (byte_val b) = b.
Proof.
  unfold to_byte. rewrite Z.mod_small by apply byte_val_range.
  unfold byte_val. by rewrite N2Z.id, Byte.of_to_N.
Qed.

(** ** [struct.pack(">I", n)], [struct.unpack(">I", header)[0]] *)

Definition pack_u32 (n : Z) : result bytes :=
  if (0 <=? n)%Z && (n <? 2 ^ 32)%Z
  then Ok [to_byte (n / 2 ^ 24); to_byte (n / 2 ^ 16); to_byte (n / 2 ^ 8); to_byte n]
  else raise StructError "'I' format requires 0 <= number <= 4294967295".

Definition unpack_u32 (header : bytes) : result Z :=
  match header with
  | [a; b; c; d] =>
      Ok (byte_val a * 2 ^ 24 + byte_val b * 2 ^ 16 + byte_val c * 2 ^ 8 + byte_val d)%Z
  | _ => raise StructError "unpack requires a buffer of 4 bytes"
  end.

Lemma unpack_pack_u32 n header : pack_u32 n = Ok header → unpack_u32 header = Ok n.
Proof.
  unfold pack_u32. case_match eqn:E; intros H; simplify_eq/=.
  apply andb_true_iff in E as [H1%Z.leb_le H2%Z.ltb_lt].
  unfold unpack_u32. f_equal. rewrite !byte_val_to_byte.
  change (2 ^ 32)%Z with 4294967296%Z in *. change (2 ^ 24)%Z with 16777216%Z.
  change (2 ^ 16)%Z with 65536%Z. change (2 ^ 8)%Z with 256%Z.
  Z.to_euclidean_division_equations. lia.
Qed.

Lemma pack_u32_length n header : pack_u32 n = Ok header → length header = 4.
Proof. unfold pack_u32. case_match; intros; by simplify_eq/=. Qed.

Lemma pack_u32_small n : (0 <= n < 2 ^ 32)%Z → ∃ header, pack_u32 n = Ok header.
Proof.
  intros [H1 H2]. unfold pack_u32.
  rewrite (proj2 (Z.leb_le _ _) H1), (proj2 (Z.ltb_lt _ _) H2). eauto.
Qed.

Lemma unpack_u32_range header n : unpack_u32 header = Ok n → (0 <= n < 2 ^ 32)%Z.
Proof.
  destruct header as [|a [|b [|c [|d [|]]]]]; simpl; intros; simplify_eq.
  pose proof (byte_val_range a). pose proof (byte_val_range b).
  pose proof (byte_val_range c). pose proof (byte_val_range d). lia.
Qed.

Lemma pack_unpack_u32 header n : unpack_u32 header = Ok n → pack_u32 n = Ok header.
Proof.
  intros H. pose proof (unpack_u32_range _ _ H) as [H1 H2]. unfold pack_u32.
  rewrite (proj2 (Z.leb_le _ _) H1), (proj2 (Z.ltb_lt _ _) H2). cbn [andb].
  destruct header as [|a [|b [|c [|d [|]]]]]; simplify_eq/=.
  pose proof (byte_val_range a). pose proof (byte_val_range b).
  pose proof (byte_val_range c). pose proof (byte_val_range d).
  assert (∀ x y, (x mod 256 = byte_val y)%Z → to_byte x = y) as Hb.
  { intros x y E. rewrite <- (to_byte_val y), <- E. unfold to_byte. by rewrite Zmod_mod. }
  change (2 ^ 24)%Z with 16777216%Z in *. change (2 ^ 16)%Z with 65536%Z in *. change (2 ^ 8)%Z with 256%Z in *.
  apply (f_equal Ok).
  repeat (apply f_equal2; [apply Hb; Z.to_euclidean_division_equations; lia|]). done.
Qed.

(** ** UTF-8 *)

Abbreviation text := (list Z) (only parsing).

Definition is_surrogate (c : Z) : bool := (55296 <=? c)%Z && (c <=? 57343)%Z.

(** A text of Python holds code points up to U+10FFFF, surrogates included. *)
Definition is_text (t : text) : Prop := Forall (λ c, 0 <= c < 1114112)%Z t.

Definition encode_point (c : Z) : list Z :=
  (if c <? 128 then [c]
   else if c <? 2048 then [192 + c / 64; 128 + c mod 64]
   else if c <? 65536 then [224 + c / 4096; 128 + c / 64 mod 64; 128 + c mod 64]
   else [240 + c / 262144; 128 + c / 4096 mod 64; 128 + c / 64 mod 64; 128 + c mod 64])%Z.

(** [t.encode("utf-8")] *)
Fixpoint utf8_encode (t : text) : result bytes :=
  match t with
  | [] => Ok []
  | c :: t =>
      if is_surrogate c
      then raise UnicodeEncodeError "'utf-8' codec can't encode character: surrogates not allowed"
      else rest ← utf8_encode t; Ok ((to_byte <$> encode_point c) ++ rest)
  end.

Definition is_continuation (b : Z) : bool := (128 <=? b)%Z && (b <? 192)%Z.

(** The code point of a lead byte and its continuation bytes, when they are well formed:
    no overlong form, no surrogate, nothing past U+10FFFF. *)
Definition point2 (a b : Z) : option Z :=
  (if (194 <=? a) && (a <? 224) && is_continuation b
   then Some ((a - 192) * 64 + (b - 128)) else None)%Z.
Definition point3 (a b c : Z) : option Z :=
  (let p := (a - 224) * 4096 + (b - 128) * 64 + (c - 128) in
   if (224 <=? a) && (a <? 240) && is_continuation b && is_continuation c && (2048 <=? p) && negb (is_surrogate p)
   then Some p else None)%Z.
Definition point4 (a b c d : Z) : option Z :=
  (let p := (a - 240) * 262144 + (b - 128) * 4096 + (c - 128) * 64 + (d - 128) in
   if (240 <=? a) && (a <? 245) && is_continuation b && is_continuation c && is_continuation d
      && (65536 <=? p) && (p <? 1114112)
   then Some p else None)%Z.

Definition bad_utf8 {A} : result A := raise UnicodeDecodeError "'utf-8' codec can't decode bytes".

(** [bs.decode("utf-8")], on the values of the bytes. *)
Fixpoint decode_vals (l : list Z) : result text :=
  match l with
  | [] => Ok []
  | a :: l1 =>
      if (a <? 128)%Z then cons a <$> decode_vals l1 else
      match l1 with
      | b :: l2 =>
          match point2 a b with
          | Some p => cons p <$> decode_vals l2
          | None =>
              match l2 with
              | c :: l3 =>
                  match point3 a b c with
                  | Some p => cons p <$> decode_vals l3
                  | None =>
                      match l3 with
                      | d :: l4 => match point4 a b c d with
                                   | Some p => cons p <$> decode_vals l4
                                   | None => bad_utf8
                                   end
                      | [] => bad_utf8
                      end
                  end
              | [] => bad_utf8
              end
          end
      | [] => bad_utf8
      end
  end.

Definition utf8_decode (bs : bytes) : result text := decode_vals (byte_val <$> bs).

Lemma encode_point_bytes c : (0 <= c < 1114112)%Z → Forall (λ b, 0 <= b < 256)%Z (encode_point c).
Proof.
  intros Hc. unfold encode_point. repeat case_match; to_prop;
    repeat constructor; rewrite ?Z.ltb_ge, ?Z.ltb_lt in *; Z.to_euclidean_division_equations; lia.
Qed.

(** [z_true] proves a conjunction of comparisons of integers, evaluated to [true]. *)
Ltac z_true :=
  repeat (apply andb_true_intro; split);
  (apply Z.leb_le || apply Z.ltb_lt); Z.to_euclidean_division_equations; lia.

Lemma continuation c : is_continuation (128 + c mod 64) = true.
Proof. unfold is_continuation. z_true. Qed.

Lemma point2_encode c : (128 <= c < 2048)%Z → point2 (192 + c / 64) (128 + c mod 64) = Some c.
Proof.
  intros Hc. unfold point2. rewrite continuation.
  replace ((194 <=? 192 + c / 64) && (192 + c / 64 <? 224))%Z with true by (symmetry; z_true).
  simpl. f_equal. Z.to_euclidean_division_equations. lia.
Qed.

Lemma point2_none a b : (224 <= a)%Z → point2 a b = None.
Proof. intros Ha. unfold point2. by rewrite (proj2 (Z.ltb_ge a 224) Ha), andb_false_r. Qed.

Lemma point3_none a b c : (240 <= a)%Z → point3 a b c = None.
Proof. intros Ha. unfold point3. by rewrite (proj2 (Z.ltb_ge a 240) Ha), andb_false_r. Qed.

Lemma point3_encode c : (2048 <= c < 65536)%Z → is_surrogate c = false →
  point3 (224 + c / 4096) (128 + c / 64 mod 64) (128 + c mod 64) = Some c.
Proof.
  intros Hc Hs. unfold point3. rewrite !continuation.
  replace ((224 + c / 4096 - 224) * 4096 + (128 + c / 64 mod 64 - 128) * 64 + (128 + c mod 64 - 128))%Z
    with c by (Z.to_euclidean_division_equations; lia).
  replace ((224 <=? 224 + c / 4096) && (224 + c / 4096 <? 240))%Z with true by (symmetry; z_true).
  rewrite Hs. by rewrite (proj2 (Z.leb_le 2048 c)) by lia.
Qed.

Lemma point4_encode c : (65536 <= c < 1114112)%Z →
  point4 (240 + c / 262144) (128 + c / 4096 mod 64) (128 + c / 64 mod 64) (128 + c mod 64) = Some c.
Proof.
  intros Hc. unfold point4. rewrite !continuation.
  replace ((240 + c / 262144 - 240) * 262144 + (128 + c / 4096 mod 64 - 128) * 4096
           + (128 + c / 64 mod 64 - 128) * 64 + (128 + c mod 64 - 128))%Z
    with c by (Z.to_euclidean_division_equations; lia).
  replace ((240 <=? 240 + c / 262144) && (240 + c / 262144 <? 245))%Z with true by (symmetry; z_true).
  rewrite (proj2 (Z.leb_le 65536 c)) by lia. by rewrite (proj2 (Z.ltb_lt c 1114112)) by lia.
Qed.

(** A code point reads back, whatever follows it. *)
Lemma decode_point c rest : (0 <= c < 1114112)%Z → is_surrogate c = false →
  decode_vals (encode_point c ++ rest) = cons c <$> decode_vals rest.
Proof.
  intros Hc Hs. unfold encode_point.
  destruct (Z.ltb_spec c 128) as [H1|H1]; [|destruct (Z.ltb_spec c 2048) as [H2|H2];
    [|destruct (Z.ltb_spec c 65536) as [H3|H3]]]; cbn [app decode_vals].
  - by rewrite (proj2 (Z.ltb_lt c 128) H1).
  - rewrite (proj2 (Z.ltb_ge (192 + c / 64) 128)) by (Z.to_euclidean_division_equations; lia).
    by rewrite point2_encode by (done || lia).
  - rewrite (proj2 (Z.ltb_ge (224 + c / 4096) 128)) by (Z.to_euclidean_division_equations; lia).
    rewrite point2_none by (Z.to_euclidean_division_equations; lia).
    by rewrite point3_encode by (done || lia).
  - rewrite (proj2 (Z.ltb_ge (240 + c / 262144) 128)) by (Z.to_euclidean_division_equations; lia).
    rewrite point2_none by (Z.to_euclidean_division_equations; lia).
    rewrite point3_none by (Z.to_euclidean_division_equations; lia).
    by rewrite point4_encode by (done || lia).
Qed.

Lemma byte_vals l : Forall (λ b, 0 <= b < 256)%Z l → byte_val <$> (to_byte <$> l) = l.
Proof.
  induction 1 as [|b l Hb Hl IH]; [done|]. rewrite !fmap_cons, IH, byte_val_to_byte.
  by rewrite Z.mod_small.
Qed.

(** What is encoded decodes. *)
Lemma utf8_round_trip t bs : is_text t → utf8_encode t = Ok bs → utf8_decode bs = Ok t.
Proof.
  intros Ht. revert bs. unfold utf8_decode. induction Ht as [|c t Hc Ht IH]; intros bs H; simpl in H.
  { by simplify_eq. }
  destruct (is_surrogate c) eqn:Hs; [done|]. apply bind_Ok in H as (rest & Hr & [= <-]).
  rewrite fmap_app, byte_vals by by apply encode_point_bytes.
  rewrite decode_point by done. by rewrite (IH _ Hr).
Qed.

Lemma decode_error bs e : utf8_decode bs = Err e → exn_isa e UnicodeDecodeError = true.
Proof.
  unfold utf8_decode. generalize (byte_val <$> bs). intros l.
  assert (∀ n l, length l ≤ n → decode_vals l = Err e → exn_isa e UnicodeDecodeError = true) as H;
    [|by apply (H (length l))].
  clear. induction n as [|n IH]; intros [|a l] Hl; simpl in *; try done; [lia|].
  assert (∀ p k, length k ≤ n → cons p <$> decode_vals k = Err e → exn_isa e UnicodeDecodeError = true) as Hk.
  { intros p k Hle. destruct (decode_vals k) eqn:E; [done|]. intros [= ->]. by apply (IH k). }
  repeat (case_match; simpl in *); subst; first [by intros [= <-] | apply Hk; simpl in *; lia].
Qed.

Example utf8_euro : utf8_encode [8364; 233; 65]%Z = Ok [xe2; x82; xac; xc3; xa9; x41]
  ∧ utf8_decode [xc0; x80] = bad_utf8 ∧ is_ok (utf8_encode [55296]%Z) = false.
Proof. split_and!; reflexivity. Qed.
