(* ===== verification/Disk.v ===== *)
(** * The profile directory and its atomic writes ([persistence.py])

    The files of a profile live in one directory.  A name leads to an inode; a change of the
    directory is visible at once, and a power loss may take back any change made since the
    directory was last synchronised, name by name, and leave any content in a file that was not
    flushed.  Each system call may succeed, fail, or be the one at which the process is killed:
    which, is an oracle.  [_atomic_write_stream] is the whole method over these calls. *)

From S2P Require Import Prelude Bytes.

(** ** The directory *)

Record inode := mkInode { content : bytes; synced : bool; mode : Z }.

Module Disk.
(** [history] is what the directory was at each change since it was last synchronised;
    [calls] counts the system calls. *)
Record t := mk {
  names : gmap string nat;
  inodes : gmap nat inode;
  history : list (gmap string nat);
  calls : nat }.
End Disk.
Import Disk(names, inodes, history, calls).

Definition file (s : Disk.t) (name : string) : option bytes :=
  i ← names s !! name; content <$> inodes s !! i.

(** [path.exists()] *)
Definition exists_ (s : Disk.t) (name : string) : bool := bool_decide (is_Some (names s !! name)).

Definition set_names (d : gmap string nat) (s : Disk.t) : Disk.t :=
  Disk.mk d (inodes s) (names s :: history s) (calls s).
Definition set_inode (i : nat) (f : inode) (s : Disk.t) : Disk.t :=
  Disk.mk (names s) (<[i := f]> (inodes s)) (history s) (calls s).
Definition on_inode (i : nat) (g : inode → inode) (s : Disk.t) : Disk.t :=
  match inodes s !! i with Some f => set_inode i (g f) s | None => s end.
Definition tick (s : Disk.t) : Disk.t := Disk.mk (names s) (inodes s) (history s) (S (calls s)).
Definition sync_names (s : Disk.t) : Disk.t := Disk.mk (names s) (inodes s) [] (calls s).

(** What a power loss may leave. *)
Record power_loss (s s' : Disk.t) : Prop := {
  loss_names n : ∃ d, d ∈ names s :: history s ∧ names s' !! n = d !! n;
  loss_inodes i f : inodes s !! i = Some f →
    ∃ f', inodes s' !! i = Some f' ∧ synced f' = true ∧ mode f' = mode f ∧ (synced f = true → content f' = content f);
  loss_history : history s' = [] }.

(** ** Programs that can be killed *)

(** [None]: the process is gone, and nothing of it runs any more. *)
Definition IO (A : Type) : Type := Disk.t → Disk.t * option (result A).

#[export] Instance IO_ret : MRet IO := λ A a s, (s, Some (Ok a)).
#[export] Instance IO_bind : MBind IO := λ A B f m s,
  match m s with
  | (s', Some (Ok a)) => f a s'
  | (s', Some (Err e)) => (s', Some (Err e))
  | (s', None) => (s', None)
  end.

Definition io_lift {A} (r : result A) : IO A := λ s, (s, Some r).
Definition io_get {A} (f : Disk.t → A) : IO A := λ s, (s, Some (Ok (f s))).

(** [try: m except e: h e] *)
Definition io_except {A} (m : IO A) (h : exn → IO A) : IO A := λ s,
  match m s with
  | (s', Some (Err e)) => h e s'
  | other => other
  end.

(** [try: m finally: f] *)
Definition io_finally {A} (m : IO A) (f : IO ()) : IO A := λ s,
  match m s with
  | (s', None) => (s', None)
  | (s', Some r) =>
      match f s' with
      | (s'', Some (Ok _)) => (s'', Some r)
      | (s'', Some (Err e)) => (s'', Some (Err e))
      | (s'', None) => (s'', None)
      end
  end.

(** ** System calls *)

Inductive syscall :=
  | Mkdir | Mkstemp | Fdopen | Write | Flush | Fsync | Close | Chmod | Replace
  | OpenDir | FsyncDir | CloseDir | Unlink | Read.

#[export] Instance syscall_eq_dec : EqDecision syscall.
Proof. solve_decision. Defined.

(** A call that fails raises [OSError]; [part] is how many bytes a write that does not succeed
    has written. *)
Inductive event := Fine | Fails (part : nat) (msg : string) | Dies (part : nat).

Definition TMP_MAX : Z := 10000.
#[global] Opaque TMP_MAX.

(** The operating system under one process: how the [n]th system call ends, the names [mkstemp]
    draws at it, and [hasattr(os, "O_DIRECTORY")]. *)
Class System := {
  os : nat → syscall → event;
  drawn : nat → nat → string;
  has_O_DIRECTORY : bool }.

Section syscalls.
Context `{sys : System}.

Definition call {A} (c : syscall) (effect : Disk.t → Disk.t * result A) (partial : nat → Disk.t → Disk.t) : IO A := λ s,
  match os (calls s) c with
  | Fine => let '(s', r) := effect (tick s) in (s', Some r)
  | Fails k msg => (partial k (tick s), Some (raise OSError msg))
  | Dies k => (partial k (tick s), None)
  end.

(** A call that does everything or nothing. *)
Definition atomic (c : syscall) (effect : Disk.t → Disk.t) : IO () :=
  call c (λ s, (effect s, Ok ())) (λ _ s, s).

(** The first name drawn that is not in the directory. *)
Fixpoint first_free (tries : nat) (s : Disk.t) (prefix : string) (draw : nat → string) : option string :=
  match tries with
  | O => None
  | S tries =>
      let name := prefix +:+ draw tries in
      if exists_ s name then first_free tries s prefix draw else Some name
  end.

(** [tempfile.mkstemp(prefix=prefix, dir=directory)]: an empty private file under a new name. *)
Definition mkstemp (prefix : string) : IO (nat * string) := λ s,
  call Mkstemp
    (λ s', match first_free (Z.to_nat TMP_MAX) s' prefix (drawn (calls s)) with
           | Some name =>
               let fd := fresh (dom (inodes s')) in
               (set_names (<[name := fd]> (names s')) (set_inode fd (mkInode [] false 384) s'), Ok (fd, name))
           | None => (s', raise OSError "No usable temporary file name found")
           end)
    (λ _ s', s') s.

Definition append (fd : nat) (data : bytes) : Disk.t → Disk.t :=
  on_inode fd (λ f, mkInode (content f ++ data) false (mode f)).

(** The buffers of the file object are not modelled: only [Flush] may still fail. *)
Definition write (fd : nat) (data : bytes) : IO () :=
  call Write (λ s, (append fd data s, Ok ())) (λ k s, append fd (take k data) s).
Definition fsync (fd : nat) : IO () := atomic Fsync (on_inode fd (λ f, mkInode (content f) true (mode f))).
Definition chmod (name : string) (m : Z) : IO () :=
  atomic Chmod (λ s, match names s !! name with
                     | Some i => on_inode i (λ f, mkInode (content f) (synced f) m) s
                     | None => s
                     end).
(** [os.replace(source, target)] *)
Definition replace (source target : string) : IO () :=
  atomic Replace (λ s, match names s !! source with
                       | Some i => set_names (<[target := i]> (delete source (names s))) s
                       | None => s
                       end).
Definition unlink (name : string) : IO () := atomic Unlink (λ s, set_names (delete name (names s)) s).

(** [path.read_bytes()] *)
Definition read_bytes (name : string) : IO bytes :=
  call Read (λ s, (s, of_option (file s name) OSError "No such file or directory")) (λ _ s, s).

(** ** Writing a document *)

(** What the writer hands to the file in turn, and how it ends. *)
Definition writer : Type := list bytes * result ().

Fixpoint write_all (fd : nat) (chunks : list bytes) : IO () :=
  match chunks with
  | [] => mret ()
  | data :: chunks => write fd data;; write_all fd chunks
  end.
Definition run_writer (fd : nat) (w : writer) : IO () := write_all fd w.1;; io_lift w.2.

Definition sync_parent : IO () :=
  opened ← io_except (atomic OpenDir id;; mret true)
             (λ e, if exn_isa e OSError then mret false else io_lift (Err e));
  if opened : bool
  then io_finally
         (io_except (atomic FsyncDir sync_names)
            (λ e, if exn_isa e OSError then mret () else io_lift (Err e)))
         (atomic CloseDir id)
  else mret ().

Definition _atomic_write_stream (path : string) (w : writer) (m : Z) (sync_directory : bool) : IO () :=
  atomic Mkdir id;;
  '(fd, temporary) ← mkstemp ("." +:+ path +:+ ".");
  io_finally
    (io_except (atomic Fdopen id)
       (λ e, if exn_isa e OSError then atomic Close id;; io_lift (Err e) else io_lift (Err e));;
     io_finally (run_writer fd w;; atomic Flush id;; fsync fd) (atomic Close id);;
     chmod temporary m;;
     replace temporary path;;
     if sync_directory && has_O_DIRECTORY then sync_parent else mret ())
    (left ← io_get (λ s, exists_ s temporary);
     if left : bool then unlink temporary else mret ()).

Definition _atomic_write (path : string) (w : writer) (sync_directory : bool) : IO () :=
  _atomic_write_stream path w 384 sync_directory.
Definition _atomic_write_bytes (path : string) (payload : bytes) : IO () :=
  _atomic_write_stream path ([payload], Ok ()) 384 true.
End syscalls.

(** ** What can be read after a crash *)

(** The files of the profile; the names of temporary files start with a dot. *)
Definition visible (n : string) : bool :=
  match n with String c _ => negb (bool_decide (c = Ascii.ascii_of_nat 46)) | EmptyString => true end.

Notation dirs s := (names s :: history s).

(** What a power loss may leave under a name. *)
Definition possible (s : Disk.t) (n : string) (c : option bytes) : Prop :=
  ∃ d, d ∈ dirs s ∧ c = (i ← d !! n; content <$> inodes s !! i).

(** Every file a power loss may bring back was flushed. *)
Definition stable (s : Disk.t) : Prop :=
  ∀ d n i, d ∈ dirs s → visible n = true → d !! n = Some i → ∃ f, inodes s !! i = Some f ∧ synced f = true.

(** The process is gone, or the machine lost its power. *)
Inductive crash (s : Disk.t) : Disk.t → Prop :=
  | crash_process : crash s s
  | crash_machine s' : power_loss s s' → crash s s'.

(** The directory after a call: as before, or with one file replaced. *)
Record kept (s s' : Disk.t) : Prop := {
  kept_stable : stable s';
  kept_file n : visible n = true → file s' n = file s n;
  kept_possible n c : visible n = true → possible s' n c → possible s n c }.
Record written (path : string) (payload : bytes) (s s' : Disk.t) : Prop := {
  written_stable : stable s';
  written_file : file s' path = Some payload;
  written_possible c : possible s' path c → possible s path c ∨ c = Some payload;
  written_other n : visible n = true → n ≠ path → file s' n = file s n;
  written_other_possible n c : visible n = true → n ≠ path → possible s' n c → possible s n c }.

(** Nothing is left for a power loss to take back. *)
Definition flushed (s : Disk.t) : Prop := ∀ n c, visible n = true → possible s n c → c = file s n.

(** * A document is replaced whole or not at all, whatever fails and whenever the process dies *)

Import Disk(names, inodes, history, calls).

(** ** Weakest preconditions of programs that can be killed *)

Definition iwp {A} (m : IO A) (Q : option (result A) → Disk.t → Prop) (s : Disk.t) : Prop := Q (m s).2 (m s).1.

Section iwp.
Implicit Types s : Disk.t.

Lemma iwp_mono {A} (m : IO A) (Q Q' : option (result A) → Disk.t → Prop) s :
  iwp m Q s → (∀ o s', Q o s' → Q' o s') → iwp m Q' s.
Proof. unfold iwp. auto. Qed.
Lemma iwp_run {A} (m : IO A) Q s s' o : iwp m Q s → m s = (s', o) → Q o s'.
Proof. unfold iwp. intros H E. by rewrite E in H. Qed.
Lemma iwp_bind {A B} (m : IO A) (f : A → IO B) Q s :
  iwp m (λ o s', match o with
                 | Some (Ok a) => iwp (f a) Q s'
                 | Some (Err e) => Q (Some (Err e)) s'
                 | None => Q None s'
                 end) s → iwp (m ≫= f) Q s.
Proof. unfold iwp, mbind, IO_bind. by destruct (m s) as [s' [[a|e]|]]. Qed.
Lemma iwp_ret {A} (a : A) (Q : option (result A) → Disk.t → Prop) s : Q (Some (Ok a)) s → iwp (mret a) Q s.
Proof. done. Qed.
Lemma iwp_lift {A} (r : result A) (Q : option (result A) → Disk.t → Prop) s : Q (Some r) s → iwp (io_lift r) Q s.
Proof. done. Qed.
Lemma iwp_get {A} (f : Disk.t → A) (Q : option (result A) → Disk.t → Prop) s :
  Q (Some (Ok (f s))) s → iwp (io_get f) Q s.
Proof. done. Qed.
Lemma iwp_except {A} (m : IO A) h Q s :
  iwp m (λ o s', match o with
                 | Some (Err e) => iwp (h e) Q s'
                 | _ => Q o s'
                 end) s → iwp (io_except m h) Q s.
Proof. unfold iwp, io_except. by destruct (m s) as [s' [[a|e]|]]. Qed.
Lemma iwp_finally {A} (m : IO A) f Q s :
  iwp m (λ o s', match o with
                 | Some r => iwp f (λ u s'', match u with
                                             | Some (Ok _) => Q (Some r) s''
                                             | Some (Err e) => Q (Some (Err e)) s''
                                             | None => Q None s''
                                             end) s'
                 | None => Q None s'
                 end) s → iwp (io_finally m f) Q s.
Proof.
  unfold iwp, io_finally. destruct (m s) as [s' [r|]]; [|done]. cbn. by destruct (f s') as [s'' [[]|]].
Qed.
End iwp.

Section spec.
Context `{sys : System}.

(** [raise] is made visible to the rules. *)
Ltac io_cbv := cbv beta iota delta [raise].

(** The system never fails at a call. *)
Definition never_fails (c : syscall) : Prop := ∀ n k msg, os n c ≠ Fails k msg.

Lemma iwp_call {A} c effect partial (Q : option (result A) → Disk.t → Prop) s :
  (Q (Some (effect (tick s)).2) (effect (tick s)).1) →
  (∀ k msg, os (calls s) c = Fails k msg → Q (Some (raise OSError msg)) (partial k (tick s))) →
  (∀ k, Q None (partial k (tick s))) →
  iwp (call c effect partial) Q s.
Proof. intros H1 H2 H3. unfold iwp, call. destruct (os (calls s) c) eqn:E; [by destruct (effect (tick s))|eauto..]. Qed.
Lemma iwp_atomic c effect (Q : option (result ()) → Disk.t → Prop) s :
  Q (Some (Ok ())) (effect (tick s)) →
  (∀ k msg, os (calls s) c = Fails k msg → Q (Some (raise OSError msg)) (tick s)) →
  Q None (tick s) → iwp (atomic c effect) Q s.
Proof. intros. by apply iwp_call. Qed.

(** ** The phases of a write *)

Section write.
Context (s0 : Disk.t) (path : string) (w : writer) (m : Z).

(** The temporary file is there, with inode [f]. *)
Record staged (fd : nat) (temporary : string) (f : inode) (s : Disk.t) : Prop := {
  staged_fd : inodes s0 !! fd = None;
  staged_fresh : names s0 !! temporary = None;
  staged_names : names s = <[temporary := fd]> (names s0);
  staged_inodes : inodes s = <[fd := f]> (inodes s0);
  staged_history : history s = dirs s0;
  staged_hidden : visible temporary = false;
  staged_private : mode f = 384%Z ∨ mode f = m }.

(** It was removed again. *)
Record removed (s : Disk.t) : Prop := {
  removed_names : names s = names s0;
  removed_inodes : ∃ fd f, inodes s0 !! fd = None ∧ inodes s = <[fd := f]> (inodes s0) ∧ (mode f = 384%Z ∨ mode f = m);
  removed_history : ∃ fd t, visible t = false ∧ history s = <[t := fd]> (names s0) :: dirs s0 }.

(** It took the place of the document. *)
Record replaced (s : Disk.t) : Prop := {
  replaced_names : ∃ fd f, inodes s0 !! fd = None ∧ names s = <[path := fd]> (names s0) ∧
    inodes s = <[fd := f]> (inodes s0) ∧ f = mkInode (concat w.1) true m;
  replaced_history : history s = [] ∨ ∃ fd t, visible t = false ∧ history s = <[t := fd]> (names s0) :: dirs s0 }.

Record same (s : Disk.t) : Prop := {
  same_names : names s = names s0; same_inodes : inodes s = inodes s0; same_history : history s = history s0 }.

Lemma staged_tick fd t f s : staged fd t f s → staged fd t f (tick s).
Proof. by destruct 1. Qed.
Lemma staged_on_inode fd t f s g : staged fd t f s → mode (g f) = 384%Z ∨ mode (g f) = m →
  staged fd t (g f) (on_inode fd g s).
Proof.
  intros [] ?. unfold on_inode. replace (inodes s !! fd) with (Some f) by (rewrite staged_inodes0; by simplify_map_eq).
  split; try done. cbn. by rewrite staged_inodes0, insert_insert_eq.
Qed.

Lemma same_tick s : same s → same (tick s).
Proof. by destruct 1. Qed.
Lemma replaced_tick s : replaced s → replaced (tick s).
Proof. by destruct 1. Qed.

Lemma staged_removed fd t f s : staged fd t f s → removed (set_names (delete t (names s)) s).
Proof.
  intros []. split; cbn.
  - by rewrite staged_names0, delete_insert_id.
  - eauto 10.
  - rewrite staged_names0, staged_history0. eauto.
Qed.
Lemma staged_replaced fd t f s : staged fd t f s → f = mkInode (concat w.1) true m →
  replaced (set_names (<[path := fd]> (delete t (names s))) s).
Proof.
  intros [] ?. split; cbn.
  - exists fd, f. rewrite staged_names0, delete_insert_id by done. eauto.
  - right. rewrite staged_names0, staged_history0. eauto.
Qed.

Lemma first_free_spec n s prefix draw name : first_free n s prefix draw = Some name →
  names s !! name = None ∧ ∃ x, name = prefix +:+ x.
Proof.
  induction n as [|n IH]; cbn; [done|]. unfold exists_. case_bool_decide as Hb; [done|].
  intros [= <-]. split; [by apply eq_None_not_Some|eauto].
Qed.

(** ** The calls *)

Lemma wp_mkstemp (Q : option (result (nat * string)) → Disk.t → Prop) s : same s →
  (∀ fd t s', staged fd t (mkInode [] false 384) s' → Q (Some (Ok (fd, t))) s') →
  (∀ e s', same s' → Q (Some (Err e)) s') → (∀ s', same s' → Q None s') →
  iwp (mkstemp ("." +:+ path +:+ ".")) Q s.
Proof.
  intros [] Hok He Hn. unfold mkstemp. apply iwp_call; [|intros; by apply He|intros; by apply Hn].
  destruct (first_free _ _ _ _) as [t|] eqn:Ht; cbn; [|by apply He].
  apply first_free_spec in Ht as [Hfree [x ->]]. cbn in Hfree. rewrite same_names0 in Hfree. apply Hok.
  split; cbn; try done.
  - rewrite same_inodes0. apply not_elem_of_dom, is_fresh.
  - by rewrite same_names0.
  - by rewrite same_inodes0.
  - by rewrite same_names0, same_history0.
  - by left.
Qed.

Lemma staged_append fd t f s b : staged fd t f s →
  staged fd t (mkInode (content f ++ b) false (mode f)) (append fd b (tick s)).
Proof.
  intros Hs. apply (staged_on_inode _ _ _ _ (λ f, mkInode (content f ++ b) false (mode f))).
  - by apply staged_tick.
  - exact (staged_private _ _ _ _ Hs).
Qed.

Lemma wp_write_all fd t f chunks (Q : option (result ()) → Disk.t → Prop) s :
  staged fd t f s →
  (∀ g s', staged fd t g s' → content g = content f ++ concat chunks → mode g = mode f → Q (Some (Ok ())) s') →
  (∀ e g s', staged fd t g s' → Q (Some (Err e)) s') → (∀ g s', staged fd t g s' → Q None s') →
  iwp (write_all fd chunks) Q s.
Proof.
  revert f s. induction chunks as [|b chunks IH]; intros f s Hs Hok He Hn.
  { cbn. apply iwp_ret. eapply Hok; [done| |done]. by rewrite app_nil_r. }
  cbn [write_all]. apply iwp_bind, iwp_call; cbn.
  - eapply IH; [by apply staged_append| |done..].
    intros g s' Hg Hc Hm. eapply Hok; [done| |done]. rewrite Hc. cbn. by rewrite <- app_assoc.
  - intros k e _. eapply He. by apply staged_append.
  - intros k. eapply Hn. by apply staged_append.
Qed.

Lemma wp_sync_parent (Q : option (result ()) → Disk.t → Prop) s : replaced s →
  (∀ s', replaced s' → (never_fails OpenDir → never_fails FsyncDir → history s' = []) → Q (Some (Ok ())) s') →
  (∀ e s', replaced s' → ¬ never_fails CloseDir → Q (Some (Err e)) s') →
  (∀ s', replaced s' → Q None s') → iwp (sync_parent) Q s.
Proof.
  intros Hs Hok He Hn. apply iwp_bind, iwp_except, iwp_bind.
  apply iwp_atomic; [apply iwp_ret| |cbn; by apply Hn, replaced_tick].
  2: { intros k e E. io_cbv. change (exn_isa (Exn OSError e) OSError) with true. apply iwp_ret, iwp_ret, Hok; [by apply replaced_tick|]. intros Ho. by destruct (Ho _ _ _ E). }
  assert (Hclose : ∀ s', replaced s' → (never_fails FsyncDir → history s' = []) →
    iwp (atomic CloseDir id) (λ u s'', match u with
       | Some (Ok _) => Q (Some (Ok ())) s'' | Some (Err e) => Q (Some (Err e)) s'' | None => Q None s'' end) s').
  { intros s' Hs' Hh. apply iwp_atomic; cbn.
    - apply Hok; [by apply replaced_tick|]. intros _. apply Hh.
    - intros k e E. apply He; [by apply replaced_tick|]. intros Hc. by destruct (Hc _ _ _ E).
    - by apply Hn, replaced_tick. }
  apply iwp_finally, iwp_except, iwp_atomic.
  - cbn. apply Hclose; [|done]. destruct Hs as [Hs _]. by split; [|left].
  - intros k e E. io_cbv. change (exn_isa (Exn OSError e) OSError) with true. apply iwp_ret, Hclose.
    + by apply replaced_tick, replaced_tick.
    + intros H. by destruct (H _ _ _ E).
  - cbn. by apply Hn, replaced_tick, replaced_tick.
Qed.

(** The body of [with file]. *)
Lemma wp_with_file fd t f (Q : option (result ()) → Disk.t → Prop) s : staged fd t f s → content f = [] →
  mode f = 384%Z →
  (∀ s', staged fd t (mkInode (concat w.1) true 384) s' → w.2 = Ok () → Q (Some (Ok ())) s') →
  (∀ e g s', staged fd t g s' → Q (Some (Err e)) s') → (∀ g s', staged fd t g s' → Q None s') →
  iwp (io_finally (run_writer fd w;; atomic Flush id;; fsync fd) (atomic Close id)) Q s.
Proof.
  intros Hs Hc Hm Hok He Hn. apply iwp_finally, iwp_bind.
  assert (Hclose : ∀ s' g (r : result ()), staged fd t g s' →
    (r = Ok () → w.2 = Ok () ∧ g = mkInode (concat w.1) true 384) →
    iwp (atomic Close id) (λ u s'', match u with
       | Some (Ok _) => Q (Some r) s'' | Some (Err e) => Q (Some (Err e)) s'' | None => Q None s'' end) s').
  { intros s' g r Hg Hr. apply iwp_atomic; cbn; [destruct r as [[]|e]| |].
    - destruct Hr as [? ->]; [done|]. apply Hok; [by apply staged_tick|done].
    - eapply He. by apply staged_tick.
    - intros. eapply He. by apply staged_tick.
    - eapply Hn. by apply staged_tick. }
  apply iwp_bind. eapply wp_write_all; [done| | |done].
  2: { intros e g s' Hg. by eapply Hclose. }
  intros g s1 Hg Hcg Hmg. apply iwp_lift. destruct w.2 as [[]|e] eqn:Hw; [|by eapply Hclose].
  apply iwp_bind, iwp_atomic; cbn.
  - apply iwp_atomic; cbn.
    + eapply Hclose; [apply (staged_on_inode fd t g _ (λ x, mkInode (content x) true (mode x)))|].
      * by apply staged_tick, staged_tick.
      * exact (staged_private _ _ _ _ Hg).
      * intros _. split; [done|]. cbn. by rewrite Hcg, Hc, Hmg, Hm.
    + intros k e _. eapply Hclose; [by apply staged_tick, staged_tick|done].
    + eapply Hn. by apply staged_tick, staged_tick.
  - intros k e _. eapply Hclose; [by apply staged_tick|done].
  - eapply Hn. by apply staged_tick.
Qed.

Lemma staged_chmod fd t f s : staged fd t f s →
  staged fd t (mkInode (content f) (synced f) m)
    match names s !! t with Some i => on_inode i (λ f, mkInode (content f) (synced f) m) s | None => s end.
Proof.
  intros Hs. replace (names s !! t) with (Some fd) by (destruct Hs as [_ _ -> _ _ _ _]; by simplify_map_eq).
  by apply (staged_on_inode fd t f s (λ f, mkInode (content f) (synced f) m)); [|right].
Qed.
Lemma staged_replace fd t f s : staged fd t f s → f = mkInode (concat w.1) true m →
  replaced match names s !! t with Some i => set_names (<[path := i]> (delete t (names s))) s | None => s end.
Proof.
  intros Hs Hf. replace (names s !! t) with (Some fd) by (destruct Hs as [_ _ -> _ _ _ _]; by simplify_map_eq).
  by eapply staged_replaced.
Qed.

(** How the whole method ends. *)
Definition ended (sync_directory : bool) (o : option (result ())) (s : Disk.t) : Prop :=
  match o with
  | Some (Ok _) => w.2 = Ok () ∧ replaced s ∧
      (sync_directory && has_O_DIRECTORY = true → never_fails OpenDir → never_fails FsyncDir → history s = [])
  | Some (Err _) => same s ∨ removed s ∨ (∃ fd t f, staged fd t f s ∧ ¬ never_fails Unlink)
      ∨ (w.2 = Ok () ∧ replaced s ∧ ¬ never_fails CloseDir)
  | None => same s ∨ removed s ∨ (∃ fd t f, staged fd t f s) ∨ (w.2 = Ok () ∧ replaced s)
  end.

Hypothesis Hpath : visible path = true.

(** The clean-up, when the body did not get to replace the file. *)
Lemma wp_cleanup fd t f (e : exn) sync s : staged fd t f s →
  iwp (left ← io_get (λ s, exists_ s t); if left : bool then unlink t else mret ())
    (λ u s'', match u with
              | Some (Ok _) => ended sync (Some (Err e)) s''
              | Some (Err e') => ended sync (Some (Err e')) s''
              | None => ended sync None s''
              end) s.
Proof.
  intros Hs. apply iwp_bind, iwp_get.
  replace (exists_ s t) with true by (unfold exists_; destruct Hs as [_ _ -> _ _ _ _]; by simplify_map_eq).
  apply iwp_atomic.
  - right. left. eapply (staged_removed _ _ _ (tick s)). by apply staged_tick.
  - intros k msg E. right. right. left. exists fd, t, f. split; [by apply staged_tick|].
    intros H. by destruct (H _ _ _ E).
  - right. right. left. exists fd, t, f. by apply staged_tick.
Qed.

(** And when it did. *)
Lemma wp_cleanup_replaced t (r : result ()) sync s : replaced s → visible t = false → names s0 !! t = None →
  ended sync (Some r) s →
  iwp (left ← io_get (λ s, exists_ s t); if left : bool then unlink t else mret ())
    (λ u s'', match u with
              | Some (Ok _) => ended sync (Some r) s''
              | Some (Err e') => ended sync (Some (Err e')) s''
              | None => ended sync None s''
              end) s.
Proof.
  intros [(fd & f & _ & Hn & _) _] Ht Hf He. apply iwp_bind, iwp_get.
  replace (exists_ s t) with false; [by apply iwp_ret|]. symmetry. apply bool_decide_eq_false, eq_None_not_Some.
  rewrite Hn, lookup_insert_ne; [done|]. intros ->. by rewrite Ht in Hpath.
Qed.

Lemma wp_atomic_write sync s : same s → iwp (_atomic_write_stream path w m sync) (ended sync) s.
Proof.
  intros Hs. apply iwp_bind, iwp_atomic; [|intros; left; by apply same_tick|left; by apply same_tick].
  apply iwp_bind, wp_mkstemp; [by apply same_tick| |intros; by left|intros; by left].
  intros fd t s1 H1. cbv beta iota. pose proof (staged_hidden _ _ _ _ H1) as Ht.
  pose proof (staged_fresh _ _ _ _ H1) as Hf. apply iwp_finally.
  assert (Hkill : ∀ f s', staged fd t f s' → ended sync None s') by (cbn; eauto 10).
  apply iwp_bind, iwp_except, iwp_atomic.
  2: { intros k e _. io_cbv. change (exn_isa (Exn OSError e) OSError) with true. apply iwp_bind, iwp_atomic.
       - apply iwp_lift. eapply wp_cleanup. by apply staged_tick, staged_tick.
       - intros. eapply wp_cleanup. by apply staged_tick, staged_tick.
       - eapply Hkill. by apply staged_tick, staged_tick. }
  2: { eapply Hkill. by apply staged_tick. }
  cbv beta iota. apply iwp_bind. eapply wp_with_file; [by apply staged_tick|done|done| | |done].
  2: { intros. by eapply wp_cleanup. }
  intros s2 H2 Hw. apply iwp_bind, iwp_atomic.
  2: { intros. eapply wp_cleanup. by apply staged_tick. }
  2: { eapply Hkill. by apply staged_tick. }
  eassert (H3 : staged fd t _ _) by (apply staged_chmod, staged_tick, H2).
  apply iwp_bind, iwp_atomic.
  2: { intros. eapply wp_cleanup. by apply staged_tick. }
  2: { eapply Hkill. by apply staged_tick. }
  assert (H4 := staged_replace _ _ _ _ (staged_tick _ _ _ _ H3) eq_refl).
  destruct (sync && has_O_DIRECTORY) eqn:Hsync; cbv iota.
  - apply wp_sync_parent; [exact H4| | |].
    + intros s' Hs' Hh. apply wp_cleanup_replaced; [done..|]. by split_and!.
    + intros e s' Hs' Hc. apply wp_cleanup_replaced; [done..|]. cbn. eauto 10.
    + cbn. eauto 10.
  - apply iwp_ret. apply wp_cleanup_replaced; [done..|]. split_and!; [done..|]. by rewrite Hsync.
Qed.
End write.

(** ** From the phases to what can be read *)

Section views.
Context (s0 s : Disk.t) (Hstable : stable s0) (Hsub : inodes s0 ⊆ inodes s).

(** The directory [d] shows under [n] what [d0] shows. *)
Definition shows (d d0 : gmap string nat) (n : string) : Prop := d !! n = d0 !! n.

Lemma shows_content d d0 n : d0 ∈ dirs s0 → visible n = true → shows d d0 n →
  (i ← d !! n; content <$> inodes s !! i) = (i ← d0 !! n; content <$> inodes s0 !! i).
Proof.
  unfold shows. intros Hd Hn ->. destruct (d0 !! n) as [i|] eqn:E; [|done]. cbn.
  destruct (Hstable d0 n i Hd Hn E) as (f & Hf & _). rewrite Hf. by rewrite (lookup_weaken _ _ _ _ Hf Hsub).
Qed.
Lemma shows_stable d d0 n i : d0 ∈ dirs s0 → visible n = true → shows d d0 n → d !! n = Some i →
  ∃ f, inodes s !! i = Some f ∧ synced f = true.
Proof.
  unfold shows. intros Hd Hn -> E. destruct (Hstable d0 n i Hd Hn E) as (f & Hf & ?).
  exists f. split; [|done]. by eapply lookup_weaken.
Qed.

Context (Hhist : ∀ d, d ∈ history s → ∃ d0, d0 ∈ dirs s0 ∧ ∀ n, visible n = true → shows d d0 n).

Lemma kept_intro : (∀ n, visible n = true → shows (names s) (names s0) n) → kept s0 s.
Proof.
  intros Hn. assert (Hall : ∀ d, d ∈ dirs s → ∃ d0, d0 ∈ dirs s0 ∧ ∀ n, visible n = true → shows d d0 n).
  { intros d [->|Hd]%elem_of_cons; [|by apply Hhist]. exists (names s0). split; [left|done]. }
  split.
  - intros d n i Hd Hv E. destruct (Hall d Hd) as (d0 & Hd0 & Hs). eapply shows_stable; eauto.
  - intros n Hv. apply (shows_content _ (names s0)); auto; left.
  - intros n c Hv (d & Hd & ->). destruct (Hall d Hd) as (d0 & Hd0 & Hs). exists d0. split; [done|].
    eapply shows_content; eauto.
Qed.

Lemma written_intro path fd f : inodes s !! fd = Some f → synced f = true → names s !! path = Some fd →
  visible path = true →
  (∀ n, visible n = true → n ≠ path → shows (names s) (names s0) n) → written path (content f) s0 s.
Proof.
  intros Hf Hsync Hp Hv Hn.
  assert (Hall : ∀ d n, d ∈ dirs s → visible n = true →
    (n = path ∧ d !! n = Some fd) ∨ ∃ d0, d0 ∈ dirs s0 ∧ shows d d0 n).
  { intros d n [->|Hd]%elem_of_cons Hvn.
    - destruct (decide (n = path)) as [->|]; [by left|]. right. exists (names s0). split; [left|auto].
    - right. destruct (Hhist d Hd) as (d0 & ? & ?). eauto. }
  split.
  - intros d n i Hd Hvn E. destruct (Hall d n Hd Hvn) as [[-> E']|(d0 & Hd0 & Hs)]; [|by eapply shows_stable].
    rewrite E in E'. injection E' as ->. eauto.
  - unfold file. rewrite Hp. cbn. by rewrite Hf.
  - intros c (d & Hd & ->). destruct (Hall d path Hd Hv) as [[_ E]|(d0 & Hd0 & Hs)].
    + right. rewrite E. cbn. by rewrite Hf.
    + left. exists d0. split; [done|]. by apply shows_content.
  - intros n Hvn Hne. apply (shows_content _ (names s0)); auto; left.
  - intros n c Hvn Hne (d & Hd & ->). destruct (Hall d n Hd Hvn) as [[? _]|(d0 & Hd0 & Hs)]; [done|].
    exists d0. split; [done|]. by apply shows_content.
Qed.
End views.

Lemma flushed_intro s : history s = [] → flushed s.
Proof. intros Hh n c _ (d & Hd & ->). rewrite Hh in Hd. by apply list_elem_of_singleton in Hd as ->. Qed.

Lemma insert_inode_sub (s0 : Disk.t) fd f : inodes s0 !! fd = None → inodes s0 ⊆ <[fd := f]> (inodes s0).
Proof. apply insert_subseteq. Qed.

Lemma same_kept s0 s : stable s0 → same s0 s → kept s0 s.
Proof.
  intros Hs []. apply kept_intro; [done|by rewrite same_inodes0| |by intros n _; rewrite same_names0].
  intros d Hd. rewrite same_history0 in Hd. exists d. split; [by right|done].
Qed.
Lemma temp_shows (s0 : Disk.t) t fd d : visible t = false → d ∈ <[t := fd]> (names s0) :: dirs s0 →
  ∃ d0, d0 ∈ dirs s0 ∧ ∀ n, visible n = true → shows d d0 n.
Proof.
  intros Ht [->|Hd]%elem_of_cons; [|by exists d].
  exists (names s0). split; [left|]. intros n Hn. unfold shows. rewrite lookup_insert_ne; [done|congruence].
Qed.
Lemma staged_kept s0 m fd t f s : stable s0 → staged s0 m fd t f s → kept s0 s.
Proof.
  intros Hs []. apply kept_intro; [done|rewrite staged_inodes0; by apply insert_inode_sub| |].
  - intros d Hd. rewrite staged_history0 in Hd. apply (temp_shows _ t fd); [done|by right].
  - intros n Hn. unfold shows. rewrite staged_names0, lookup_insert_ne; [done|congruence].
Qed.
Lemma removed_kept s0 m s : stable s0 → removed s0 m s → kept s0 s.
Proof.
  intros Hs [Hn (fd & f & Hfd & Hi & _) (fd' & t & Ht & Hh)].
  apply kept_intro; [done|rewrite Hi; by apply insert_inode_sub| |intros n _; unfold shows; by rewrite Hn].
  intros d Hd. rewrite Hh in Hd. by eapply temp_shows.
Qed.
Lemma replaced_written s0 path w m s : stable s0 → visible path = true → replaced s0 path w m s →
  written path (concat w.1) s0 s.
Proof.
  intros Hs Hp [(fd & f & Hfd & Hn & Hi & ->) Hh].
  apply (written_intro s0 s Hs ltac:(rewrite Hi; by apply insert_inode_sub)) with
    (fd := fd) (f := mkInode (concat w.1) true m); try done.
  - intros d Hd. destruct Hh as [Hh|(fd' & t & Ht & Hh)]; rewrite Hh in Hd; [by apply not_elem_of_nil in Hd|].
    by apply (temp_shows _ t fd').
  - rewrite Hi. by simplify_map_eq.
  - rewrite Hn. by simplify_map_eq.
  - intros n _ Hne. unfold shows. rewrite Hn. by simplify_map_eq.
Qed.

Lemma ended_inodes s0 path w m sync o s i f : ended s0 path w m sync o s → inodes s !! i = Some f →
  inodes s0 !! i = Some f ∨ mode f = 384%Z ∨ mode f = m.
Proof.
  intros He Hf.
  assert (Hnew : ∀ fd g, inodes s = <[fd := g]> (inodes s0) → mode g = 384%Z ∨ mode g = m →
    inodes s0 !! i = Some f ∨ mode f = 384%Z ∨ mode f = m).
  { intros fd g Hi Hg. rewrite Hi in Hf. apply lookup_insert_Some in Hf as [[_ <-]|[_ ?]]; auto. }
  assert (Hr : replaced s0 path w m s → inodes s0 !! i = Some f ∨ mode f = 384%Z ∨ mode f = m).
  { intros [(fd & g & _ & _ & Hi & ->) _]. eapply Hnew; [done|by right]. }
  assert (Hm : removed s0 m s → inodes s0 !! i = Some f ∨ mode f = 384%Z ∨ mode f = m).
  { intros [_ (fd & g & _ & Hi & ?) _]. by eapply Hnew. }
  assert (Hg : ∀ fd t g, staged s0 m fd t g s → inodes s0 !! i = Some f ∨ mode f = 384%Z ∨ mode f = m).
  { intros fd t g []. by eapply Hnew. }
  assert (Hsm : same s0 s → inodes s0 !! i = Some f) by (by intros [_ <- _]).
  destruct o as [[[]|e]|]; cbn in He; naive_solver.
Qed.

Lemma ended_names s0 path w m sync o s n : ended s0 path w m sync o s → o ≠ None → never_fails Unlink →
  n ≠ path → names s !! n = names s0 !! n.
Proof.
  intros He Ho Hu Hn.
  assert (Hr : replaced s0 path w m s → names s !! n = names s0 !! n).
  { intros [(fd & g & _ & -> & _) _]. by apply lookup_insert_ne. }
  destruct o as [[[]|e]|]; cbn in He; [naive_solver| |done].
  destruct He as [[-> _ _]|[[-> _ _]|[(?&?&?&_&?)|(_&?&_)]]]; auto. done.
Qed.

(** ** After a crash *)

Lemma crash_stable s s' : stable s → crash s s' → stable s'.
Proof.
  intros Hs [|? [Hn Hi Hh]]; [done|]. intros d n i Hd Hv E. rewrite Hh in Hd.
  apply list_elem_of_singleton in Hd as ->. destruct (Hn n) as (d & Hd & E'). rewrite E in E'. symmetry in E'.
  destruct (Hs d n i Hd Hv E') as (f & Hf & _). destruct (Hi i f Hf) as (f' & ? & ? & _). eauto.
Qed.
Lemma crash_file s s' n : stable s → crash s s' → visible n = true → possible s n (file s' n).
Proof.
  intros Hs [|? [Hn Hi Hh]] Hv; [exists (names s); split; [left|done]|]. destruct (Hn n) as (d & Hd & E).
  exists d. split; [done|]. unfold file. rewrite E. destruct (d !! n) as [i|] eqn:E'; [|done]. cbn.
  destruct (Hs d n i Hd Hv E') as (f & Hf & Hsync). destruct (Hi i f Hf) as (f' & Hf' & _ & _ & Hc).
  rewrite Hf, Hf'. cbn. by rewrite Hc.
Qed.
Lemma crash_possible s s' n c : stable s → crash s s' → visible n = true → possible s' n c → possible s n c.
Proof.
  intros Hs Hc Hv. destruct Hc as [|? Hl]; [done|]. intros (d & Hd & ->). rewrite (loss_history _ _ Hl) in Hd.
  apply list_elem_of_singleton in Hd as ->. apply crash_file; [done|by constructor|done].
Qed.
Lemma file_possible s n : possible s n (file s n).
Proof. exists (names s). split; [left|done]. Qed.

(** What a crash leaves of a directory that was flushed before the call. *)
Lemma kept_crash s s' s'' n : flushed s → kept s s' → crash s' s'' → visible n = true → file s'' n = file s n.
Proof.
  intros Hf [Hst _ Hpos] Hc Hv. apply Hf; [done|]. apply Hpos; [done|]. by apply (crash_file s').
Qed.
Lemma written_crash path payload s s' s'' : flushed s → visible path = true → written path payload s s' → crash s' s'' →
  (file s'' path = file s path ∨ file s'' path = Some payload) ∧
  (flushed s' → file s'' path = Some payload) ∧
  (∀ n, visible n = true → n ≠ path → file s'' n = file s n).
Proof.
  intros Hf Hp [Hst Hfile Hpath _ Hother] Hc. split_and!.
  - destruct (Hpath _ (crash_file s' s'' path Hst Hc Hp)) as [H|H]; [left; by apply Hf|by right].
  - intros Hf'. rewrite <- Hfile. apply Hf'; [done|]. by apply crash_file.
  - intros n Hv Hn. apply Hf; [done|]. apply Hother; [done..|]. by apply crash_file.
Qed.

(** How a write ends, seen from outside. *)
Definition outcome_of (path : string) (w : writer) (sync : bool) (s : Disk.t) (o : option (result ())) (s' : Disk.t) : Prop :=
  match o with
  | Some (Ok _) => w.2 = Ok () ∧ written path (concat w.1) s s' ∧
      (sync && has_O_DIRECTORY = true → never_fails OpenDir → never_fails FsyncDir → flushed s')
  | Some (Err _) => kept s s' ∨ (w.2 = Ok () ∧ written path (concat w.1) s s' ∧ ¬ never_fails CloseDir)
  | None => kept s s' ∨ (w.2 = Ok () ∧ written path (concat w.1) s s')
  end.

Lemma ended_views s path w m sync o s' : stable s → visible path = true → ended s path w m sync o s' →
  outcome_of path w sync s o s'.
Proof.
  intros Hs Hp He. destruct o as [[[]|e]|]; cbn in *.
  - destruct He as (? & ? & Hset). split_and!; [done|by eapply replaced_written|]. eauto using flushed_intro.
  - destruct He as [|[|[(?&?&?&?&_)|(?&?&?)]]]; eauto 7 using same_kept, removed_kept, staged_kept, replaced_written.
  - destruct He as [|[|[(?&?&?&?)|(?&?)]]]; eauto 7 using same_kept, removed_kept, staged_kept, replaced_written.
Qed.

Lemma wp_write path w m sync (Q : option (result ()) → Disk.t → Prop) s : stable s → visible path = true →
  (∀ o s', outcome_of path w sync s o s' → Q o s') → iwp (_atomic_write_stream path w m sync) Q s.
Proof.
  intros Hs Hp HQ. eapply iwp_mono; [by apply wp_atomic_write|]. intros o s' He. eapply HQ, ended_views; done.
Qed.

(** C6. A document is replaced whole or not at all.  Whatever system calls fail, and wherever the
    process is killed: a write that returns has put the new document under its name, and no power
    loss takes it back when the directory could be synchronised; a write that raises has left the
    old one (unless only the directory could not be closed); and a crash at any point, of the
    process or of the machine, leaves under every name a document that was there, the old or the
    new one, never a part of one.  No file is ever readable by others, and no temporary file stays
    unless the process was killed or it could not be removed. *)
Theorem write_is_all_or_nothing path w m sync s : stable s → visible path = true →
  let '(s', o) := _atomic_write_stream path w m sync s in
  outcome_of path w sync s o s' ∧
  (∀ s'' n, crash s' s'' → visible n = true →
     possible s n (file s'' n) ∨ (n = path ∧ w.2 = Ok () ∧ file s'' n = Some (concat w.1))) ∧
  (∀ i f, inodes s' !! i = Some f → inodes s !! i = Some f ∨ mode f = 384%Z ∨ mode f = m) ∧
  (o ≠ None → never_fails Unlink → ∀ n, n ≠ path → names s' !! n = names s !! n).
Proof.
  intros Hs Hp. destruct (_atomic_write_stream path w m sync s) as [s' o] eqn:E.
  pose proof (iwp_run _ _ _ _ _ (wp_atomic_write s path w m Hp sync s ltac:(done)) E) as He. clear E.
  pose proof (ended_views _ _ _ _ _ _ _ Hs Hp He) as Hend.
  split_and!; [done| |by intros; eapply ended_inodes|by intros; eapply ended_names].
  intros s'' n Hc Hv.
  assert (Hk : kept s s' → possible s n (file s'' n)).
  { intros [Hst _ Hpos]. apply Hpos; [done|]. by apply (crash_file s'). }
  assert (Hw : w.2 = Ok () ∧ written path (concat w.1) s s' →
    possible s n (file s'' n) ∨ n = path ∧ w.2 = Ok () ∧ file s'' n = Some (concat w.1)).
  { intros [Hok [Hst _ Hpath _ Hother]]. pose proof (crash_file s' s'' n Hst Hc Hv) as Hf.
    destruct (decide (n = path)) as [->|]; [destruct (Hpath _ Hf); auto|left; by apply Hother]. }
  destruct o as [[[]|e]|]; cbn in Hend; naive_solver.
Qed.
End spec.

(** A profile with one flushed document, and a process killed while it replaces it. *)
Definition sample_disk : Disk.t :=
  Disk.mk {["trust.yaml" := 0]} {[0 := mkInode [Byte.x61] true 384]} [] 0.
Definition killed_at (c : syscall) : System :=
  {| os := λ _ c', if decide (c = c') then Dies 0 else Fine; drawn := λ _ _, "x"; has_O_DIRECTORY := true |}.

Lemma sample_stable : stable sample_disk.
Proof.
  intros d n i Hd _ E. apply list_elem_of_singleton in Hd as ->. cbn in E.
  apply lookup_singleton_Some in E as [_ <-]. by exists (mkInode [Byte.x61] true 384).
Qed.

(** The new document is there, and a power loss may still take it back. *)
Lemma write_is_all_or_nothing_witness :
  let '(s', o) := _atomic_write_stream (sys := killed_at FsyncDir) "trust.yaml" ([[Byte.x62]], Ok ()) 384 true sample_disk in
  o = None ∧ file s' "trust.yaml" = Some [Byte.x62] ∧
  ∀ s'', crash s' s'' → file s'' "trust.yaml" = Some [Byte.x61] ∨ file s'' "trust.yaml" = Some [Byte.x62].
Proof.
  pose proof (write_is_all_or_nothing (sys := killed_at FsyncDir) "trust.yaml" ([[Byte.x62]], Ok ()) 384 true
    sample_disk sample_stable eq_refl) as H.
  set (r := _atomic_write_stream _ _ _ _ _) in *.
  assert (Ho : snd r = None ∧ file (fst r) "trust.yaml" = Some [Byte.x62]) by by vm_compute.
  destruct r as [s' o]. cbn in Ho. split_and!; [apply Ho|apply Ho|]. intros s'' Hc. destruct H as (_ & H & _).
  destruct (H s'' "trust.yaml" Hc eq_refl) as [(d & Hd & Hf)|(_ & _ & Hf)]; [left|by right].
  apply list_elem_of_singleton in Hd as ->. exact Hf.
Defined.
