(* ===== verification/PyFloat.v ===== *)
(** * IEEE binary64 numbers

    Python's [float] is IEEE 754 binary64.  The kernel's [SpecFloat] library gives
    the format and its rounded operations as plain functions, so every clock value,
    lease and expiry of the model is the very number the program computes with. *)

From S2P Require Import Prelude.
From Corelib Require Export SpecFloat.

Abbreviation float := spec_float.

Definition fadd : float → float → float := SFadd 53 1024.
Definition fsub : float → float → float := SFsub 53 1024.
Definition fmul : float → float → float := SFmul 53 1024.
Definition fneg : float → float := SFopp.
Definition fltb : float → float → bool := SFltb.
Definition fleb : float → float → bool := SFleb.
Definition feqb : float → float → bool := SFeqb.

(** [math.isfinite] *)
Definition isfinite (f : float) : bool :=
  match f with S754_zero _ | S754_finite _ _ _ => true | _ => false end.

Definition is_nan (f : float) : bool :=
  match f with S754_nan => true | _ => false end.

(** [float(z)] for a Python integer: round to nearest even, [OverflowError] past
    the largest finite number. *)
Definition float_of_Z (z : Z) : result float :=
  let f := binary_normalize 53 1024 z 0 false in
  if isfinite f then Ok f
  else raise OverflowError "int too large to convert to float".

(** A literal of the source with an integer value, such as [120.0]. *)
Definition flit (z : Z) : float := binary_normalize 53 1024 z 0 false.

(** Python's [max(a, b)] and [min(a, b)]: the first argument wins a tie. *)
Definition fmax (a b : float) : float := if fltb a b then b else a.
Definition fmin (a b : float) : float := if fltb b a then b else a.

(** ** The order as a lexicographic order on integers *)

Definition k1 (f : float) : Z :=
  match f with
  | S754_zero _ => 0 | S754_nan => 0
  | S754_infinity s => if s then -2 else 2
  | S754_finite s _ _ => if s then -1 else 1
  end.

Definition k2 (f : float) : Z :=
  match f with S754_finite s _ e => if s then (- e)%Z else e | _ => 0 end.

Definition k3 (f : float) : Z :=
  match f with S754_finite s m _ => if s then Z.neg m else Z.pos m | _ => 0 end.

Definition klt (a b : float) : Prop :=
  (k1 a < k1 b ∨ (k1 a = k1 b ∧ (k2 a < k2 b ∨ (k2 a = k2 b ∧ k3 a < k3 b))))%Z.
Definition keq (a b : float) : Prop := k1 a = k1 b ∧ k2 a = k2 b ∧ k3 a = k3 b.

Lemma SFcompare_keys a b :
  match SFcompare a b with
  | None => is_nan a = true ∨ is_nan b = true
  | Some Lt => is_nan a = false ∧ is_nan b = false ∧ klt a b
  | Some Eq => is_nan a = false ∧ is_nan b = false ∧ keq a b
  | Some Gt => is_nan a = false ∧ is_nan b = false ∧ klt b a
  end.
Proof.
  unfold klt, keq.
  destruct a as [[]|[]| |[] m e], b as [[]|[]| |[] m' e']; simpl;
    try (split_and?; lia); auto;
    destruct (Z.compare_spec e e') as [->| |]; simpl; try (split_and?; lia);
    change (Pos.compare_cont Eq m m') with (Pos.compare m m');
    destruct (Pos.compare_spec m m') as [->| |]; simpl; split_and?; lia.
Qed.

Lemma fltb_iff a b :
  fltb a b = true ↔ is_nan a = false ∧ is_nan b = false ∧ klt a b.
Proof.
  unfold fltb, SFltb. pose proof (SFcompare_keys a b) as H.
  destruct (SFcompare a b) as [[]|]; unfold klt, keq in *; split; try done;
    intros; destruct_and?; try lia; destruct H; congruence.
Qed.

Lemma fleb_iff a b :
  fleb a b = true ↔ is_nan a = false ∧ is_nan b = false ∧ ¬ klt b a.
Proof.
  unfold fleb, SFleb. pose proof (SFcompare_keys a b) as H.
  destruct (SFcompare a b) as [[]|]; unfold klt, keq in *; split; try done;
    intros; destruct_and?; split_and?; try lia; try done; destruct H; congruence.
Qed.

Lemma feqb_iff a b :
  feqb a b = true ↔ is_nan a = false ∧ is_nan b = false ∧ keq a b.
Proof.
  unfold feqb, SFeqb. pose proof (SFcompare_keys a b) as H.
  destruct (SFcompare a b) as [[]|]; unfold klt, keq in *; split; try done;
    intros; destruct_and?; split_and?; try lia; try done; destruct H; congruence.
Qed.

Lemma fltb_false_iff a b :
  fltb a b = false ↔ is_nan a = true ∨ is_nan b = true ∨ ¬ klt a b.
Proof.
  rewrite <- not_true_iff_false, fltb_iff. unfold klt.
  destruct (is_nan a), (is_nan b); intuition (congruence || lia).
Qed.

Lemma fleb_false_iff a b :
  fleb a b = false ↔ is_nan a = true ∨ is_nan b = true ∨ klt b a.
Proof.
  rewrite <- not_true_iff_false, fleb_iff. unfold klt.
  destruct (is_nan a), (is_nan b); intuition (congruence || lia).
Qed.

Lemma isfinite_not_nan f : isfinite f = true → is_nan f = false.
Proof. by destruct f. Qed.

(** [float_order] decides goals about comparisons of floats by turning every
    comparison into one of integer keys. *)
Ltac float_order :=
  intros;
  unfold fmax, fmin in *;
  repeat match goal with
  | |- context [if fltb ?a ?b then _ else _] => destruct (fltb a b) eqn:?
  | H : context [if fltb ?a ?b then _ else _] |- _ => destruct (fltb a b) eqn:?
  end;
  repeat match goal with
  | H : isfinite ?f = true |- _ => apply isfinite_not_nan in H
  end;
  repeat match goal with
  | H : fltb _ _ = true |- _ => apply fltb_iff in H
  | H : fleb _ _ = true |- _ => apply fleb_iff in H
  | H : feqb _ _ = true |- _ => apply feqb_iff in H
  | H : fltb _ _ = false |- _ => apply fltb_false_iff in H
  | H : fleb _ _ = false |- _ => apply fleb_false_iff in H
  | |- fltb _ _ = true => apply fltb_iff
  | |- fleb _ _ = true => apply fleb_iff
  | |- feqb _ _ = true => apply feqb_iff
  | |- fltb _ _ = false => apply fltb_false_iff
  | |- fleb _ _ = false => apply fleb_false_iff
  end;
  unfold klt, keq in *; intuition (try congruence; try lia).

Lemma fleb_refl a : is_nan a = false → fleb a a = true.
Proof. float_order. Qed.

Lemma fleb_trans a b c : fleb a b = true → fleb b c = true → fleb a c = true.
Proof. float_order. Qed.

Lemma fltb_irrefl a : fltb a a = false.
Proof. float_order. Qed.

Lemma fleb_fltb_false a b : fleb a b = true → fltb b a = false.
Proof. float_order. Qed.

Lemma fltb_fleb a b : fltb a b = true → fleb a b = true.
Proof. float_order. Qed.

Lemma fleb_false_fltb a b :
  is_nan a = false → is_nan b = false → fleb a b = false → fltb b a = true.
Proof. float_order. Qed.

Lemma fleb_fmax_l a b : is_nan a = false → fleb a (fmax a b) = true.
Proof. intros. float_order. Qed.

Lemma fmin_le_l a b : is_nan a = false → fleb (fmin a b) a = true.
Proof. intros. float_order. Qed.

Lemma isfinite_fmax a b :
  isfinite a = true → isfinite b = true → isfinite (fmax a b) = true.
Proof. unfold fmax. by case_match. Qed.

(** ** Rounding never gives a NaN *)

Lemma iter_pos_inv {A} (P : A → Prop) (f : A → A) n x :
  (∀ x, P x → P (f x)) → P x → P (iter_pos f n x).
Proof. intros Hf. revert x. induction n; simpl; auto. Qed.

Lemma shr_fexp_pos m e l : (0 ≤ m)%Z → (0 ≤ shr_m (shr_fexp 53 1024 m e l).1)%Z.
Proof.
  intros Hm. unfold shr_fexp, shr.
  assert (H0 : (0 ≤ shr_m (shr_record_of_loc m l))%Z) by (by destruct l as [|[]]).
  destruct (fexp _ _ _ - e)%Z as [|p|p]; simpl; [done| |done].
  apply iter_pos_inv; [|done]. intros [[|[]|[]] r s] H; simpl in *; lia.
Qed.

Lemma normalize_number z e s : is_nan (binary_normalize 53 1024 z e s) = false.
Proof.
  assert (Haux : ∀ s m e l, is_nan (binary_round_aux 53 1024 s (Zpos m) e l) = false).
  { clear. intros s m e l. unfold binary_round_aux.
    pose proof (shr_fexp_pos (Zpos m) e l ltac:(lia)) as H1.
    destruct (shr_fexp _ _ (Zpos m) e l) as [r1 e1]. simpl in H1.
    pose proof (shr_fexp_pos (round_nearest_even (shr_m r1) (loc_of_shr_record r1)) e1 loc_Exact) as H2.
    destruct (shr_fexp _ _ _ e1 loc_Exact) as [r2 e2]. simpl in H2.
    assert (0 ≤ shr_m r2)%Z.
    { apply H2. unfold round_nearest_even. destruct (loc_of_shr_record r1) as [|[]]; try lia.
      destruct (Z.even _); lia. }
    destruct (shr_m r2); [done| |lia]. by destruct (_ <=? _)%Z. }
  unfold binary_normalize, binary_round. destruct z; [done|..];
    destruct (shl_align _ _ _); apply Haux.
Qed.

(** The sum of two finite numbers is a number, though possibly infinite. *)
Lemma fadd_number a b : isfinite a = true → isfinite b = true → is_nan (fadd a b) = false.
Proof.
  unfold fadd, SFadd. destruct a as [[]|[]| |[] m e], b as [[]|[]| |[] m' e']; try done;
    intros _ _; apply normalize_number.
Qed.

#[export] Instance float_eq_dec : EqDecision float.
Proof. solve_decision. Defined.

Create HintDb pyfloat.
#[export] Hint Resolve fleb_refl fltb_fleb isfinite_not_nan : pyfloat.
