(* ===== verification/Identity.v ===== *)
(** * Node identity and the permission vocabulary

    [identity/__init__.py] (the [NodeId] value, the identity fingerprint and the
    transport proof) and [data/permissions.py].  The signature primitive of the
    [cryptography] package and the digests are parameters. *)

From S2P Require Import Prelude.
From stdpp Require Import pretty.

(** ** [NodeId] *)

Record NodeId := mkNodeId { value : string }.

#[export] Instance NodeId_eq_dec : EqDecision NodeId.
Proof. solve_decision. Defined.
#[export] Instance NodeId_countable : Countable NodeId.
Proof. by refine (inj_countable' value mkNodeId _); intros []. Defined.

Definition py_len (s : string) : Z := Z.of_nat (String.length s).

Module NodeId.
(** [NodeId.__post_init__]; [NodeId(value)] is [__post_init__ value]. *)
Definition __post_init__ (value : string) : result NodeId :=
  if bool_decide (value = "") || bool_decide (value = "local") || (128 <? py_len value)%Z
  then raise ValueError "invalid node id"
  else Ok (mkNodeId value).

Definition valid (n : NodeId) : Prop := __post_init__ (Identity.value n) = Ok n.

Lemma node_id_Ok s n : __post_init__ s = Ok n → n = mkNodeId s ∧ valid n.
Proof.
  intros H. pose proof H as H'. unfold __post_init__ in H.
  destruct (_ || _); [discriminate|]. by simplify_eq/=.
Qed.
End NodeId.

(** ** [data/permissions.py] *)

Inductive NodeCapability := READ_STATE_CAP | REMOTE_MANAGEMENT_CAP.

Inductive NodePermission :=
  | READ_STATE | REMOTE_MANAGEMENT | PROCESS_TERMINATION
  | PROCESS_FORCE_TERMINATION | CLEANUP.

#[export] Instance NodeCapability_eq_dec : EqDecision NodeCapability.
Proof. solve_decision. Defined.
#[export] Instance NodePermission_eq_dec : EqDecision NodePermission.
Proof. solve_decision. Defined.

Module NodePermission.
Definition value (p : NodePermission) : string :=
  match p with
  | READ_STATE => "read_state"
  | REMOTE_MANAGEMENT => "remote_management"
  | PROCESS_TERMINATION => "process_termination"
  | PROCESS_FORCE_TERMINATION => "process_force_termination"
  | CLEANUP => "cleanup"
  end.
Definition all : list NodePermission :=
  [READ_STATE; REMOTE_MANAGEMENT; PROCESS_TERMINATION; PROCESS_FORCE_TERMINATION; CLEANUP].
(** [NodePermission(text)] *)
Definition of_value (s : string) : result NodePermission :=
  match List.find (λ p, bool_decide (value p = s)) all with
  | Some p => Ok p
  | None => raise ValueError ("'" +:+ s +:+ "' is not a valid NodePermission")
  end.
Lemma permission_of_value p : of_value (value p) = Ok p.
Proof. by destruct p. Qed.
Lemma of_value_Ok s p : of_value s = Ok p → value p = s.
Proof.
  unfold of_value. case_match; intros; simplify_eq.
  by apply find_Some_spec in H as [_ ?%bool_decide_eq_true].
Qed.
End NodePermission.

#[export] Instance NodePermission_value_inj : Inj (=) (=) NodePermission.value.
Proof. by intros [] []. Qed.
#[export] Instance NodePermission_countable : Countable NodePermission.
Proof.
  refine (inj_countable NodePermission.value
    (λ s, match NodePermission.of_value s with Ok p => Some p | Err _ => None end) _).
  intros p. by rewrite NodePermission.permission_of_value.
Defined.

(** An element of a set of permissions: a text, or the member of the enumeration.  The two are
    equal when their values are, but [str] of a member is its name. *)
Module Permission.
Inductive t := Text (s : string) | Member (p : NodePermission).

Definition value (p : t) : string := match p with Text s => s | Member p => NodePermission.value p end.
Definition str (p : t) : string :=
  match p with
  | Text s => s
  | Member p => "NodePermission." +:+
      match p with
      | READ_STATE => "READ_STATE"
      | REMOTE_MANAGEMENT => "REMOTE_MANAGEMENT"
      | PROCESS_TERMINATION => "PROCESS_TERMINATION"
      | PROCESS_FORCE_TERMINATION => "PROCESS_FORCE_TERMINATION"
      | CLEANUP => "CLEANUP"
      end
  end.

#[global] Instance eq_dec : EqDecision t.
Proof. solve_decision. Defined.
#[global] Instance countable : Countable t.
Proof.
  refine (inj_countable' (λ p, match p with Text s => inl s | Member p => inr p end)
            (λ x, match x with inl s => Text s | inr p => Member p end) _).
  by intros [].
Defined.

(** Sets of texts, of members, and the values of a set. *)
Definition texts (X : gset string) : gset t := set_map Text X.
Definition members (X : gset NodePermission) : gset t := set_map Member X.
Definition values (X : gset t) : gset string := set_map value X.

Lemma values_texts X : values (texts X) = X.
Proof.
  apply set_eq. intros s. unfold values, texts. rewrite elem_of_map. split.
  - intros (p & -> & (t & -> & Ht)%elem_of_map). done.
  - intros Hs. exists (Text s). split; [done|]. apply elem_of_map. eauto.
Qed.
End Permission.

Module NodeCapability.
Definition value (c : NodeCapability) : string :=
  match c with
  | READ_STATE_CAP => "read_state"
  | REMOTE_MANAGEMENT_CAP => "remote_management"
  end.
(** [NodeCapability(text)] *)
Definition of_value (s : string) : result NodeCapability :=
  match List.find (λ c, bool_decide (value c = s)) [READ_STATE_CAP; REMOTE_MANAGEMENT_CAP] with
  | Some c => Ok c
  | None => raise ValueError ("'" +:+ s +:+ "' is not a valid NodeCapability")
  end.
Lemma capability_of_value c : of_value (value c) = Ok c.
Proof. by destruct c. Qed.
End NodeCapability.

#[export] Instance NodeCapability_countable : Countable NodeCapability.
Proof.
  refine (inj_countable NodeCapability.value
    (λ s, match NodeCapability.of_value s with Ok c => Some c | Err _ => None end) _).
  intros c. by rewrite NodeCapability.capability_of_value.
Defined.

Definition READ_CAPABILITIES : gset NodeCapability := {[READ_STATE_CAP]}.
Definition READ_PERMISSIONS : gset NodePermission := {[READ_STATE]}.

(** ** Transport proofs *)

Section proofs.
Variable sha256_hex : string → string.
(** [base64.b64decode(s, validate=True)] and Ed25519 verification of a raw public
    key over a payload (the [cryptography] package). *)
Variable b64decode : string → option string.
Variable ed25519_verify : string → string → string → bool.

Definition NUL : string := String (Ascii.ascii_of_nat 0) EmptyString.

Definition _proof_payload (node_id : NodeId) (generation : Z) (fingerprint : string) : string :=
  "expra-connect/transport/v1" +:+ NUL +:+ value node_id +:+ NUL
    +:+ pretty generation +:+ NUL +:+ fingerprint.

Definition verify_transport_proof (node_id : NodeId) (root_public_key : string)
    (generation : Z) (fingerprint proof : string) : bool :=
  if (generation <? 1)%Z || bool_decide (fingerprint = "") then false
  else match b64decode root_public_key, b64decode proof with
       | Some public_bytes, Some signature =>
           ed25519_verify public_bytes signature
             (_proof_payload node_id generation fingerprint)
       | _, _ => false
       end.

(** [":".join(digest[i:i+4] for i in range(0, 64, 4))] *)
Definition node_identity_fingerprint (v : string) : string :=
  let digest := sha256_hex ("system-analyzer-node:" +:+ v) in
  String.concat ":" ((λ i, String.substring (4 * i) 4 digest) <$> seq 0 16).
End proofs.
