(* ===== verification/ClusterModels.v ===== *)
(** * Immutable cluster values ([cluster/models.py])

    Each frozen dataclass is a record; its [__post_init__] is the only constructor
    the operations use, so [dataclasses.replace] revalidates as the source does. *)

From S2P Require Import Prelude PyFloat Identity.

Inductive ClusterRole := WORKER | COORDINATOR | SUBCOORDINATOR.

#[export] Instance ClusterRole_eq_dec : EqDecision ClusterRole.
Proof. solve_decision. Defined.

Module ClusterRole.
Definition value (r : ClusterRole) : string :=
  match r with
  | WORKER => "worker"
  | COORDINATOR => "coordinator"
  | SUBCOORDINATOR => "subcoordinator"
  end.
(** [ClusterRole(text)] *)
Definition of_value (s : string) : result ClusterRole :=
  match List.find (λ r, bool_decide (value r = s)) [WORKER; COORDINATOR; SUBCOORDINATOR] with
  | Some r => Ok r
  | None => raise ValueError ("'" +:+ s +:+ "' is not a valid ClusterRole")
  end.
Lemma cluster_role_of_value r : of_value (value r) = Ok r.
Proof. by destruct r. Qed.
End ClusterRole.

#[export] Instance ClusterRole_countable : Countable ClusterRole.
Proof.
  refine (inj_countable ClusterRole.value
    (λ s, match ClusterRole.of_value s with Ok r => Some r | Err _ => None end) _).
  intros r. by rewrite ClusterRole.cluster_role_of_value.
Defined.

(** ** [RoleAssignment] *)

Module RoleAssignment.
Record t := mk {
  roles : gset ClusterRole;
  node_id : option NodeId;
  paused : bool;
  revoked : bool;
  has_active_job : bool }.

#[global] Instance eq_dec : EqDecision t.
Proof. solve_decision. Defined.

Definition __post_init__ (roles : gset ClusterRole) (node_id : option NodeId)
    (paused revoked has_active_job : bool) : result t :=
  let roles := if decide (COORDINATOR ∈ roles) then roles ∪ {[WORKER]} else roles in
  let roles := if decide (roles = ∅) then {[WORKER]} else roles in
  raise_if (bool_decide (COORDINATOR ∈ roles) && bool_decide (SUBCOORDINATOR ∈ roles))
    ValueError "a node cannot be both Coordinator and Subcoordinator";;
  raise_if (revoked && paused) ValueError "a revoked node cannot also be paused";;
  Ok (mk roles node_id paused revoked has_active_job).

(** [RoleAssignment(roles, node_id)] with the dataclass defaults. *)
Definition new (roles : gset ClusterRole) (node_id : NodeId) : result t :=
  __post_init__ roles (Some node_id) false false false.

(** [replace(a, roles=roles)] *)
Definition replace_roles (a : t) (r : gset ClusterRole) : result t :=
  __post_init__ r (node_id a) (paused a) (revoked a) (has_active_job a).
(** [replace(a, paused=p)] *)
Definition replace_paused (a : t) (p : bool) : result t :=
  __post_init__ (roles a) (node_id a) p (revoked a) (has_active_job a).
(** [replace(a, has_active_job=j)] *)
Definition replace_job (a : t) (j : bool) : result t :=
  __post_init__ (roles a) (node_id a) (paused a) (revoked a) j.

Definition has (r : ClusterRole) (a : t) : bool := bool_decide (r ∈ roles a).

(** What construction guarantees. *)
Record valid (a : t) : Prop := {
  valid_nonempty : roles a ≠ ∅;
  valid_coord : COORDINATOR ∈ roles a → WORKER ∈ roles a;
  valid_exclusive : ¬ (COORDINATOR ∈ roles a ∧ SUBCOORDINATOR ∈ roles a);
  valid_flags : revoked a && paused a = false }.

Lemma __post_init__valid r n p v j a : __post_init__ r n p v j = Ok a → valid a.
Proof.
  unfold __post_init__. intros H. repeat res_step. simplify_eq.
  to_prop. split; simpl; try set_solver.
  - repeat case_decide; set_solver.
  - repeat case_decide; set_solver.
  - intros [? ?].
    match goal with H : bool_decide _ && bool_decide _ = false |- _ =>
      apply andb_false_iff in H as [?%bool_decide_eq_false|?%bool_decide_eq_false] end; auto.
Qed.

Lemma __post_init__id a : valid a →
  __post_init__ (roles a) (node_id a) (paused a) (revoked a) (has_active_job a) = Ok a.
Proof.
  intros [Hne Hc Hx Hf]. unfold __post_init__.
  assert (Hr : (if decide (COORDINATOR ∈ roles a) then roles a ∪ {[WORKER]} else roles a) = roles a)
    by (case_decide; [set_solver|done]).
  rewrite Hr, decide_False by done. rewrite Hf.
  replace (_ && _) with false; [by destruct a|].
  symmetry. apply andb_false_iff. rewrite !bool_decide_eq_false.
  destruct (decide (COORDINATOR ∈ roles a)); [right|left]; tauto.
Qed.

(** Rebuilding with valid roles only checks the flags. *)
Lemma __post_init__roles a n p v j : valid a → v && p = false →
  __post_init__ (roles a) n p v j = Ok (mk (roles a) n p v j).
Proof.
  intros [? ? ? ?] ?. apply (__post_init__id (mk (roles a) n p v j)). by split.
Qed.

Lemma __post_init__worker n p v j : v && p = false →
  __post_init__ {[WORKER]} n p v j = Ok (mk {[WORKER]} n p v j).
Proof.
  intros Hf.
  assert (Hv : valid (mk {[WORKER]} n p v j)) by (split; simpl; try done; set_solver).
  exact (__post_init__id _ Hv).
Qed.
End RoleAssignment.

Abbreviation RoleAssignment := RoleAssignment.t (only parsing).

(** ** [CoordinatorEpoch] and [CapabilityGrant] *)

Module CoordinatorEpoch.
Record t := mk {
  epoch : Z;
  coordinator_id : NodeId;
  fencing_token : string;
  issued_at : float;
  lease_expires_at : float }.

#[global] Instance eq_dec : EqDecision t.
Proof. solve_decision. Defined.

Definition __post_init__ (epoch : Z) (coordinator_id : NodeId) (fencing_token : string)
    (issued_at lease_expires_at : float) : result t :=
  if (epoch <? 0)%Z || bool_decide (fencing_token = "") || negb (isfinite issued_at)
     || negb (isfinite lease_expires_at) || fltb lease_expires_at issued_at
  then raise ValueError "invalid coordinator epoch"
  else Ok (mk epoch coordinator_id fencing_token issued_at lease_expires_at).

Definition valid (e : t) : Prop :=
  __post_init__ (epoch e) (coordinator_id e) (fencing_token e) (issued_at e)
    (lease_expires_at e) = Ok e.

Lemma epoch_Ok n c f i x e : __post_init__ n c f i x = Ok e →
  e = mk n c f i x ∧ valid e.
Proof.
  intros H. pose proof H as H'. unfold __post_init__ in H.
  destruct (_ || _); [discriminate|]. by simplify_eq/=.
Qed.

Lemma valid_facts e : valid e → (0 ≤ epoch e)%Z ∧ isfinite (issued_at e) = true ∧
  isfinite (lease_expires_at e) = true ∧ fltb (lease_expires_at e) (issued_at e) = false.
Proof.
  unfold valid, __post_init__. destruct (_ || _) eqn:E; [discriminate|].
  intros _. to_prop. split_and!; try done. lia.
Qed.
End CoordinatorEpoch.

Module CapabilityGrant.
Record t := mk {
  subject : NodeId;
  target : NodeId;
  permissions : gset NodePermission;
  issued_at : float;
  expires_at : float }.

#[global] Instance eq_dec : EqDecision t.
Proof. solve_decision. Defined.

Definition __post_init__ (subject target : NodeId) (permissions : gset NodePermission)
    (issued_at expires_at : float) : result t :=
  raise_if (bool_decide (permissions = ∅) || negb (isfinite issued_at)
            || negb (isfinite expires_at)) ValueError "invalid capability grant";;
  raise_if (fleb expires_at issued_at) ValueError "capability grant must expire after issuance";;
  Ok (mk subject target permissions issued_at expires_at).

Definition valid (g : t) : Prop :=
  __post_init__ (subject g) (target g) (permissions g) (issued_at g) (expires_at g) = Ok g.

Lemma grant_Ok s u p i x g : __post_init__ s u p i x = Ok g →
  g = mk s u p i x ∧ valid g.
Proof.
  intros H. pose proof H as H'. unfold __post_init__ in H. by py_run.
Qed.

Definition key (g : t) : NodeId * NodeId := (subject g, target g).
End CapabilityGrant.

(** ** [RoleChange], [PromotionDecision] and [InviteRecord] *)

Module RoleChange.
Record t := mk {
  node_id : NodeId;
  assignment : RoleAssignment;
  changed_at : float;
  actor_id : NodeId }.

Definition __post_init__ (node_id : NodeId) (assignment : RoleAssignment)
    (changed_at : float) (actor_id : NodeId) : result t :=
  raise_if (negb (isfinite changed_at)) ValueError "invalid role change time";;
  Ok (mk node_id assignment changed_at actor_id).
End RoleChange.

Module PromotionDecision.
Record t := mk {
  role_assignment : RoleAssignment;
  epoch : CoordinatorEpoch.t;
  assignments : list RoleAssignment;
  capability_grants : list CapabilityGrant.t }.

Definition role (_ : t) : ClusterRole := COORDINATOR.
End PromotionDecision.

Module InviteRecord.
Record t := mk {
  token_hash : string;
  target_node_id : string;
  expires_at : float;
  token : string;
  cluster_id : string;
  coordinator_id : string;
  epoch : Z;
  fencing_token : string }.

#[global] Instance eq_dec : EqDecision t.
Proof. solve_decision. Defined.

Definition __post_init__ (token_hash target_node_id : string) (expires_at : float)
    (token cluster_id coordinator_id : string) (epoch : Z) (fencing_token : string) : result t :=
  raise_if (bool_decide (token_hash = "") || negb (isfinite expires_at))
    ValueError "invalid invite";;
  Ok (mk token_hash target_node_id expires_at token cluster_id coordinator_id epoch fencing_token).

(** The [target_id] property: the node id is validated at each access. *)
Definition target_id (i : t) : result NodeId := NodeId.__post_init__ (target_node_id i).

(** Dataclass equality compares the expiry as a number, so [0.0 == -0.0]. *)
Definition eqb (a b : t) : bool :=
  bool_decide (token_hash a = token_hash b) && bool_decide (target_node_id a = target_node_id b)
  && feqb (expires_at a) (expires_at b) && bool_decide (token a = token b)
  && bool_decide (cluster_id a = cluster_id b)
  && bool_decide (coordinator_id a = coordinator_id b)
  && bool_decide (epoch a = epoch b) && bool_decide (fencing_token a = fencing_token b).

Definition valid (i : t) : Prop := token_hash i ≠ "" ∧ isfinite (expires_at i) = true.

Lemma invite_Ok h n x t c d e f i : __post_init__ h n x t c d e f = Ok i →
  i = mk h n x t c d e f ∧ valid i.
Proof. unfold __post_init__. intros. py_run. to_prop. done. Qed.

Lemma eqb_refl i : valid i → eqb i i = true.
Proof.
  intros [_ Hf]. unfold eqb. rewrite !bool_decide_eq_true_2 by done. simpl.
  replace (feqb _ _) with true; [done|]. symmetry. float_order.
Qed.
End InviteRecord.
