(* ===== verification/Roles.v ===== *)
(** * Role, capability, lease and promotion decisions ([cluster/roles.py])

    [RoleState] is the immutable topology: assignments, the coordinator epoch, the
    epochs already promoted from and the capability grants.  The two cached indices
    of the source are the dict comprehensions they memoise. *)

From S2P Require Import Prelude PyFloat Identity ClusterModels.

Definition HEARTBEAT_TIMEOUT_SECONDS : float := flit 120.

(** [_finite] on a float. *)
Definition _finite (value : float) : bool := isfinite value.

Definition not_active_coordinator {A} : result A :=
  raise RoleAuthorizationError "only an active Coordinator may control peers".
Definition cannot_target_itself : string := "the active Coordinator cannot target itself".

(** Whether [a] is an active holder of [r]. *)
Definition active (r : ClusterRole) (a : RoleAssignment) : bool :=
  negb (RoleAssignment.revoked a) && RoleAssignment.has r a.

Definition is_bound (a : RoleAssignment) : bool :=
  match RoleAssignment.node_id a with Some _ => true | None => false end.

(** [{a.node_id: a for a in assignments if a.node_id is not None}] *)
Definition by_id (l : list RoleAssignment) : list (NodeId * RoleAssignment) :=
  od_of_list (omap (λ a, (λ n, (n, a)) <$> RoleAssignment.node_id a) l).

Definition _prune_capability_grants (assignments : list RoleAssignment)
    (grants : list CapabilityGrant.t) : list CapabilityGrant.t :=
  let index := by_id assignments in
  List.filter (λ grant,
    match od_get (CapabilityGrant.subject grant) index,
          od_get (CapabilityGrant.target grant) index with
    | Some subject, Some target =>
        negb (RoleAssignment.revoked subject) && RoleAssignment.has SUBCOORDINATOR subject
        && negb (RoleAssignment.revoked target) && RoleAssignment.has WORKER target
    | _, _ => false
    end) grants.

Module RoleState.
Record t := mk {
  assignments : list RoleAssignment;
  epoch : option CoordinatorEpoch.t;
  promotion_epochs : gset Z;
  capability_grants : list CapabilityGrant.t }.

Definition __post_init__ (assignments : list RoleAssignment)
    (epoch : option CoordinatorEpoch.t) (promotion_epochs : gset Z)
    (capability_grants : list CapabilityGrant.t) : result t :=
  let bound := List.filter is_bound assignments in
  let ids := omap RoleAssignment.node_id bound in
  raise_if (negb (bool_decide (size (list_to_set ids : gset NodeId) = length ids)))
    ValueError "invalid or duplicate role assignment";;
  raise_if (Nat.ltb 1 (length (List.filter (active COORDINATOR) bound)))
    ValueError "only one active Coordinator is allowed";;
  raise_if (Nat.ltb 1 (length (List.filter (active SUBCOORDINATOR) bound)))
    ValueError "only one active Subcoordinator is allowed";;
  let keys := CapabilityGrant.key <$> capability_grants in
  raise_if (negb (bool_decide (length keys = size (list_to_set keys : gset (NodeId * NodeId)))))
    ValueError "duplicate capability grant";;
  raise_if (existsb (λ item, (item <? 0)%Z) (elements promotion_epochs))
    ValueError "invalid promotion epoch marker";;
  Ok (mk assignments epoch promotion_epochs capability_grants).

Definition _assignment_index_for (s : t) : list (NodeId * RoleAssignment) :=
  by_id (assignments s).

Definition _grant_index_for (s : t) : list ((NodeId * NodeId) * CapabilityGrant.t) :=
  od_of_list ((λ item, (CapabilityGrant.key item, item)) <$> capability_grants s).

Definition assignment_for (s : t) (node_id : NodeId) : option RoleAssignment :=
  od_get node_id (_assignment_index_for s).

Definition active_coordinator (s : t) : option RoleAssignment :=
  List.find (λ a, is_bound a && active COORDINATOR a) (assignments s).

Definition capability_grant (s : t) (subject target : NodeId) (now : option float)
    : option CapabilityGrant.t :=
  match od_get (subject, target) (_grant_index_for s), now with
  | None, _ => None
  | Some grant, None => Some grant
  | Some grant, Some now =>
      if negb (_finite now) then None
      else if fleb (CapabilityGrant.expires_at grant) now then None else Some grant
  end.

Definition _control (s : t) (actor : RoleAssignment) : result NodeId :=
  match RoleAssignment.node_id actor with
  | None => not_active_coordinator
  | Some actor_id =>
      match assignment_for s actor_id with
      | None => not_active_coordinator
      | Some canonical =>
          if RoleAssignment.revoked canonical || RoleAssignment.paused canonical
             || negb (RoleAssignment.has COORDINATOR canonical)
             || match epoch s with
                | Some e => negb (bool_decide (CoordinatorEpoch.coordinator_id e = actor_id))
                | None => false
                end
          then not_active_coordinator
          else Ok actor_id
      end
  end.

(** [assignment if a.node_id == n else a for a in l] *)
Definition put_assignment (n : option NodeId) (assignment : RoleAssignment)
    (l : list RoleAssignment) : list RoleAssignment :=
  (λ a, if decide (RoleAssignment.node_id a = n) then assignment else a) <$> l.

Definition _replace (s : t) (assignment : RoleAssignment) : result t :=
  __post_init__ (put_assignment (RoleAssignment.node_id assignment) assignment (assignments s))
    (epoch s) (promotion_epochs s) (capability_grants s).

Definition replace_grants (s : t) (grants : list CapabilityGrant.t) : result t :=
  __post_init__ (assignments s) (epoch s) (promotion_epochs s) grants.

Definition assign (s : t) (actor : RoleAssignment) (target : NodeId)
    (roles : gset ClusterRole) (now : float) : result (t * RoleChange.t) :=
  actor_id ← _control s actor;
  raise_if (bool_decide (target = actor_id)) RoleAuthorizationError cannot_target_itself;;
  raise_if (bool_decide (COORDINATOR ∈ roles)) RoleAuthorizationError
    "Coordinator ownership cannot be delegated";;
  let current := assignment_for s target in
  raise_if (match current with Some c => RoleAssignment.revoked c | None => false end)
    RoleAuthorizationError "revoked node requires a new pairing invite";;
  raise_if (bool_decide (SUBCOORDINATOR ∈ roles)
            && existsb (λ a, negb (bool_decide (RoleAssignment.node_id a = Some target))
                             && active SUBCOORDINATOR a) (assignments s))
    RoleAuthorizationError "only one active Subcoordinator is allowed";;
  assignment ← RoleAssignment.__post_init__ roles (Some target)
    (match current with Some c => RoleAssignment.paused c | None => false end) false
    (match current with Some c => RoleAssignment.has_active_job c | None => false end);
  assignment ← (if negb (RoleAssignment.has WORKER assignment)
                then RoleAssignment.replace_job assignment false else Ok assignment);
  let assignments' := put_assignment (Some target) assignment (assignments s) in
  let assignments' :=
    match current with None => assignments' ++ [assignment] | Some _ => assignments' end in
  s' ← __post_init__ assignments' (epoch s) (promotion_epochs s)
         (_prune_capability_grants assignments' (capability_grants s));
  change ← RoleChange.__post_init__ target assignment now actor_id;
  Ok (s', change).

(** [current is None or current.revoked] *)
Definition known (s : t) (target : NodeId) : result RoleAssignment :=
  match assignment_for s target with
  | Some current =>
      if RoleAssignment.revoked current
      then raise RoleAuthorizationError "unknown or revoked node" else Ok current
  | None => raise RoleAuthorizationError "unknown or revoked node"
  end.

Definition pause (s : t) (actor : RoleAssignment) (target : NodeId) : result t :=
  actor_id ← _control s actor;
  raise_if (bool_decide (target = actor_id)) RoleAuthorizationError cannot_target_itself;;
  current ← known s target;
  a ← RoleAssignment.replace_paused current true;
  _replace s a.

Definition resume (s : t) (actor : RoleAssignment) (target : NodeId) : result t :=
  _ ← _control s actor;
  current ← known s target;
  a ← RoleAssignment.replace_paused current false;
  _replace s a.

Definition revoke (s : t) (actor : RoleAssignment) (target : NodeId) : result t :=
  actor_id ← _control s actor;
  raise_if (bool_decide (target = actor_id)) RoleAuthorizationError cannot_target_itself;;
  current ← known s target;
  a ← RoleAssignment.__post_init__ (RoleAssignment.roles current)
        (RoleAssignment.node_id current) false true false;
  updated ← _replace s a;
  replace_grants updated
    (List.filter (λ g, negb (bool_decide (target = CapabilityGrant.subject g)
                             || bool_decide (target = CapabilityGrant.target g)))
       (capability_grants updated)).

Definition clear_revocation (s : t) (target : NodeId) : result t :=
  match assignment_for s target with
  | Some current =>
      if negb (RoleAssignment.revoked current) then Ok s
      else __post_init__
             (List.filter (λ a, negb (bool_decide (RoleAssignment.node_id a = Some target)))
                (assignments s))
             (epoch s) (promotion_epochs s) (capability_grants s)
  | None => Ok s
  end.

Definition _job (s : t) (actor : RoleAssignment) (target : NodeId) (job : bool) : result t :=
  _ ← _control s actor;
  match assignment_for s target with
  | None => raise RoleAuthorizationError "target has no active worker role"
  | Some current =>
      raise_if (RoleAssignment.revoked current || negb (RoleAssignment.has WORKER current)
                || (job && RoleAssignment.paused current))
        RoleAuthorizationError "target has no active worker role";;
      a ← RoleAssignment.replace_job current job;
      _replace s a
  end.

Definition assign_job (s : t) (actor : RoleAssignment) (target : NodeId) : result t :=
  _job s actor target true.
Definition remove_job (s : t) (actor : RoleAssignment) (target : NodeId) : result t :=
  _job s actor target false.

(** The grants whose key is not [(subject, target)]. *)
Definition other_grants (subject target : NodeId) (l : list CapabilityGrant.t) :=
  List.filter (λ g, negb (bool_decide (CapabilityGrant.key g = (subject, target)))) l.

(** [a is None or a.revoked or a.paused or role not in a.roles], negated *)
Definition usable (r : ClusterRole) (a : option RoleAssignment) : bool :=
  match a with
  | Some a => negb (RoleAssignment.revoked a) && negb (RoleAssignment.paused a)
              && RoleAssignment.has r a
  | None => false
  end.

Definition grant_capabilities (s : t) (actor : RoleAssignment) (subject target : NodeId)
    (permissions : gset NodePermission) (now expires_at : float) : result t :=
  _ ← _control s actor;
  raise_if (negb (usable SUBCOORDINATOR (assignment_for s subject))) RoleAuthorizationError
    "capability subject is not an active Subcoordinator";;
  raise_if (negb (usable WORKER (assignment_for s target)) || bool_decide (subject = target))
    RoleAuthorizationError "capability target is not an active Worker";;
  grant ← CapabilityGrant.__post_init__ subject target permissions now expires_at;
  replace_grants s (other_grants subject target (capability_grants s) ++ [grant]).

Definition revoke_capabilities (s : t) (actor : RoleAssignment) (subject target : NodeId)
    : result t :=
  _ ← _control s actor;
  replace_grants s (other_grants subject target (capability_grants s)).

Definition allows (s : t) (subject target : NodeId) (permission : NodePermission)
    (now : float) : bool :=
  if negb (_finite now) then false
  else match assignment_for s subject, assignment_for s target with
       | Some source, Some destination =>
           if RoleAssignment.revoked source || RoleAssignment.paused source
              || RoleAssignment.revoked destination || RoleAssignment.paused destination
           then false
           else if decide (subject = target) then true
           else if RoleAssignment.has COORDINATOR source
           then RoleAssignment.has WORKER destination
           else RoleAssignment.has SUBCOORDINATOR source
                && RoleAssignment.has WORKER destination
                && match capability_grant s subject target (Some now) with
                   | Some grant => bool_decide (permission ∈ CapabilityGrant.permissions grant)
                   | None => false
                   end
       | _, _ => false
       end.
End RoleState.

(** ** Leases and promotion *)

(** [_valid_time] *)
Definition _valid_time (value : float) (field : string) : result float :=
  raise_if (negb (_finite value)) FencingError (field +:+ " is invalid");;
  Ok value.

Definition renew_lease (epoch : CoordinatorEpoch.t) (coordinator_id : NodeId)
    (fencing_token : string) (now lease_seconds : float) : result CoordinatorEpoch.t :=
  raise_if (negb (bool_decide (CoordinatorEpoch.coordinator_id epoch = coordinator_id)))
    FencingError "heartbeat fencing token is stale";;
  same ← compare_digest (CoordinatorEpoch.fencing_token epoch) fencing_token;
  raise_if (negb same) FencingError "heartbeat fencing token is stale";;
  current ← _valid_time now "heartbeat time";
  duration ← _valid_time lease_seconds "lease duration";
  raise_if (fleb duration (flit 0)) FencingError "lease duration is invalid";;
  raise_if (fleb (CoordinatorEpoch.lease_expires_at epoch) current)
    FencingError "coordinator lease has expired";;
  CoordinatorEpoch.__post_init__ (CoordinatorEpoch.epoch epoch)
    (CoordinatorEpoch.coordinator_id epoch) (CoordinatorEpoch.fencing_token epoch)
    (fmax (CoordinatorEpoch.issued_at epoch) current)
    (fmax (CoordinatorEpoch.lease_expires_at epoch) (fadd current duration)).

Definition can_promote (state : RoleState.t) (subcoordinator_id : NodeId) (now : float)
    (authenticated : bool) : bool :=
  authenticated &&
  match RoleState.epoch state with
  | None => false
  | Some e =>
      _finite now && fleb (CoordinatorEpoch.lease_expires_at e) now
      && RoleState.usable SUBCOORDINATOR (RoleState.assignment_for state subcoordinator_id)
      && negb (bool_decide (CoordinatorEpoch.epoch e ∈ RoleState.promotion_epochs state))
  end.

(** The first usable Subcoordinator, with its node id. *)
Definition next_subcoordinator (l : list RoleAssignment) : option (RoleAssignment * NodeId) :=
  a ← List.find (λ a, is_bound a && RoleState.usable SUBCOORDINATOR (Some a)) l;
  n ← RoleAssignment.node_id a;
  Some (a, n).

(** [new_fencing_token()] is the argument [token]. *)
Definition promote_subcoordinator (state : RoleState.t) (now : float) (authenticated : bool)
    (token : string) : result PromotionDecision.t :=
  match RoleState.epoch state with
  | None => raise FencingError "no coordinator epoch exists"
  | Some e =>
      current ← _valid_time now "promotion time";
      match next_subcoordinator (RoleState.assignments state) with
      | None => raise FencingError "subcoordinator cannot promote"
      | Some (sub, sub_id) =>
          raise_if (negb (can_promote state sub_id current authenticated))
            FencingError "subcoordinator cannot promote";;
          epoch ← CoordinatorEpoch.__post_init__ (CoordinatorEpoch.epoch e + 1) sub_id token
                    current (fadd current HEARTBEAT_TIMEOUT_SECONDS);
          promoted ← RoleAssignment.new {[COORDINATOR; WORKER]} sub_id;
          assignments ← mapM (λ a,
              if decide (RoleAssignment.node_id a = Some sub_id) then Ok promoted
              else RoleAssignment.replace_roles a {[WORKER]}) (RoleState.assignments state);
          Ok (PromotionDecision.mk promoted epoch assignments
                (_prune_capability_grants assignments (RoleState.capability_grants state)))
      end
  end.

Definition rejoin_as_worker (state : RoleState.t) (node_id : NodeId) (current_epoch : Z)
    : result RoleState.t :=
  raise_if (current_epoch <? 0)%Z FencingError "returning node presented an invalid epoch";;
  raise_if (match RoleState.epoch state with
            | Some e => negb (current_epoch =? CoordinatorEpoch.epoch e)%Z
            | None => false
            end) FencingError "returning node presented a stale or unknown epoch";;
  match RoleState.assignment_for state node_id with
  | None => Ok state
  | Some a =>
      if negb (RoleAssignment.has COORDINATOR a) then Ok state
      else a' ← RoleAssignment.__post_init__ {[WORKER]} (RoleAssignment.node_id a) false
                  (RoleAssignment.revoked a) false;
           RoleState._replace state a'
  end.

(** [hash_invite]; the digest is a parameter. *)
Definition hash_invite (sha256_hex : string → string) (token : string) : string :=
  sha256_hex token.
