(* ===== verification/RolesFacts.v ===== *)
(** * The role topology is well formed and every operation keeps it so

    [shape] is what [RoleState.__post_init__] checks, [wf] adds the validity of the
    parts.  The operations of a well-formed state never hit the constructor's own
    checks: they fail only with the authorization errors of their guards. *)

From S2P Require Import Prelude PyFloat Identity ClusterModels Roles.

Implicit Types (a b : RoleAssignment) (l : list RoleAssignment) (n : NodeId).

Definition ids (l : list RoleAssignment) : list NodeId := omap RoleAssignment.node_id l.

(** At most one bound node is an active holder of [r]. *)
Definition uniq (r : ClusterRole) (l : list RoleAssignment) : Prop :=
  ∀ a b n m, a ∈ l → b ∈ l → RoleAssignment.node_id a = Some n →
    RoleAssignment.node_id b = Some m → active r a = true → active r b = true → n = m.

Record shape (l : list RoleAssignment) (p : gset Z) (g : list CapabilityGrant.t) : Prop := {
  shape_ids : NoDup (ids l);
  shape_coordinator : uniq COORDINATOR l;
  shape_subcoordinator : uniq SUBCOORDINATOR l;
  shape_keys : NoDup (CapabilityGrant.key <$> g);
  shape_promotions : ∀ e, e ∈ p → (0 ≤ e)%Z }.

Record wf (s : RoleState.t) : Prop := {
  wf_shape : shape (RoleState.assignments s) (RoleState.promotion_epochs s)
               (RoleState.capability_grants s);
  wf_assignments : Forall RoleAssignment.valid (RoleState.assignments s);
  wf_epoch : ∀ e, RoleState.epoch s = Some e → CoordinatorEpoch.valid e;
  wf_grants : Forall CapabilityGrant.valid (RoleState.capability_grants s) }.

(** ** The constructor's checks *)

Lemma ids_cons a l : ids (a :: l) =
  match RoleAssignment.node_id a with Some n => n :: ids l | None => ids l end.
Proof. done. Qed.

Lemma ids_bound l : ids (List.filter is_bound l) = ids l.
Proof.
  induction l as [|a l IH]; [done|]. rewrite ids_cons, <- IH. cbn [List.filter].
  unfold is_bound at 1. destruct (RoleAssignment.node_id a) eqn:E; [|done].
  by rewrite ids_cons, E.
Qed.

Lemma elem_of_ids n l : n ∈ ids l ↔ ∃ a, a ∈ l ∧ RoleAssignment.node_id a = Some n.
Proof. unfold ids. by rewrite list_elem_of_omap. Qed.

Lemma count_uniq r l : NoDup (ids l) →
  length (List.filter (active r) (List.filter is_bound l)) ≤ 1 ↔ uniq r l.
Proof.
  induction l as [|a l IH]; intros Hnd.
  { split; [intros _ ?; set_solver|simpl; lia]. }
  assert (Hl : NoDup (ids l) ∧ ∀ n, RoleAssignment.node_id a = Some n → n ∉ ids l).
  { rewrite ids_cons in Hnd. destruct (RoleAssignment.node_id a).
    - apply NoDup_cons in Hnd as [? ?]. split; [done|]. intros; by simplify_eq.
    - done. }
  destruct Hl as [Hl Ha]. specialize (IH Hl). simpl.
  destruct (is_bound a) eqn:Eb; unfold is_bound in Eb; simpl;
    destruct (RoleAssignment.node_id a) as [n|] eqn:En; try done.
  - destruct (active r a) eqn:Er; simpl.
    + split.
      * intros Hlen x y nx ny Hx Hy Hnx Hny Hrx Hry.
        assert (Hnone : ∀ z m, z ∈ l → RoleAssignment.node_id z = Some m → active r z = true → False).
        { intros z m Hz Hm Hrz.
          assert (z ∈ List.filter (active r) (List.filter is_bound l)).
          { rewrite !elem_of_lfilter. unfold is_bound. by rewrite Hm. }
          destruct (List.filter _ (List.filter _ l)); [set_solver|simpl in Hlen; lia]. }
        apply elem_of_cons in Hx as [->|Hx]; apply elem_of_cons in Hy as [->|Hy];
          try congruence; exfalso; eauto.
      * intros Hu. destruct (List.filter (active r) (List.filter is_bound l)) as [|z k] eqn:Ek;
          [simpl; lia|].
        assert (Hz : z ∈ List.filter (active r) (List.filter is_bound l)) by (rewrite Ek; set_solver).
        rewrite !elem_of_lfilter in Hz. destruct Hz as (Hrz & Hbz & Hz).
        unfold is_bound in Hbz. destruct (RoleAssignment.node_id z) as [m|] eqn:Em; [|done].
        exfalso. apply (Ha n); [done|]. apply elem_of_ids. exists z.
        rewrite (Hu a z n m) in *; try done; set_solver.
    + rewrite IH. split; intros Hu x y nx ny Hx Hy Hnx Hny Hrx Hry.
      * apply elem_of_cons in Hx as [->|Hx]; apply elem_of_cons in Hy as [->|Hy];
          try congruence; eauto.
      * eapply (Hu x y); try done; set_solver.
  - rewrite IH. split; intros Hu x y nx ny Hx Hy Hnx Hny Hrx Hry.
    + apply elem_of_cons in Hx as [->|Hx]; apply elem_of_cons in Hy as [->|Hy];
        try congruence; eauto.
    + eapply (Hu x y); try done; set_solver.
Qed.

Lemma post_init_Ok l e p g s :
  RoleState.__post_init__ l e p g = Ok s ↔ s = RoleState.mk l e p g ∧ shape l p g.
Proof.
  unfold RoleState.__post_init__. change (omap RoleAssignment.node_id ?k) with (ids k).
  rewrite ids_bound. split.
  - intros H. py_run. to_prop.
    match goal with H : size (list_to_set (ids l)) = _ |- _ =>
      apply size_list_to_set_NoDup in H end.
    match goal with H : length _ = size _ |- _ =>
      symmetry in H; apply size_list_to_set_NoDup in H end.
    split; [done|]. split; try done.
    1-2: apply count_uniq; [done|]; by apply Nat.ltb_ge.
    intros z Hz%elem_of_elements. match goal with H : existsb _ _ = false |- _ =>
      rewrite existsb_false_iff in H; specialize (H z Hz) end. lia.
  - intros [-> [Hi Hc Hs Hk Hp]].
    rewrite (proj2 (size_list_to_set_NoDup (ids l))) by done.
    rewrite (proj2 (size_list_to_set_NoDup (CapabilityGrant.key <$> g))) by done.
    rewrite !bool_decide_eq_true_2 by done.
    rewrite !(proj2 (Nat.ltb_ge _ _)) by (by apply count_uniq).
    rewrite (proj2 (existsb_false_iff _ _)); [done|].
    intros z. rewrite elem_of_elements. intros ?%Hp. lia.
Qed.

Lemma post_init_shape l e p g : shape l p g →
  RoleState.__post_init__ l e p g = Ok (RoleState.mk l e p g).
Proof. intros. by apply post_init_Ok. Qed.

(** ** Looking nodes up *)

Lemma by_id_keys l : (omap (λ a, (λ n, (n, a)) <$> RoleAssignment.node_id a) l).*1 = ids l.
Proof.
  induction l as [|a l IH]; [done|]. rewrite ids_cons, <- IH.
  cbn. by destruct (RoleAssignment.node_id a).
Qed.

Lemma by_id_get l n a : NoDup (ids l) →
  od_get n (by_id l) = Some a ↔ a ∈ l ∧ RoleAssignment.node_id a = Some n.
Proof.
  intros Hnd. unfold by_id. rewrite od_of_list_id by (by rewrite by_id_keys). split.
  - intros H%od_get_elem. apply list_elem_of_omap in H as (b & Hb & Hab).
    destruct (RoleAssignment.node_id b) eqn:E; simplify_eq/=. done.
  - intros [Ha Hn]. apply od_elem_get; [by rewrite by_id_keys|].
    apply list_elem_of_omap. exists a. by rewrite Hn.
Qed.

Lemma by_id_None l n : NoDup (ids l) → od_get n (by_id l) = None ↔ n ∉ ids l.
Proof.
  intros Hnd. unfold by_id. rewrite od_of_list_id by (by rewrite by_id_keys).
  by rewrite od_get_None, by_id_keys.
Qed.

Lemma assignment_for_Some s n a : NoDup (ids (RoleState.assignments s)) →
  RoleState.assignment_for s n = Some a ↔
  a ∈ RoleState.assignments s ∧ RoleAssignment.node_id a = Some n.
Proof. apply by_id_get. Qed.

(** ** Replacing one assignment *)

Lemma ids_put n a' l : RoleAssignment.node_id a' = Some n →
  ids (RoleState.put_assignment (Some n) a' l) = ids l.
Proof.
  intros Hn. induction l as [|a l IH]; [done|].
  unfold RoleState.put_assignment in *. rewrite fmap_cons, !ids_cons, IH.
  case_decide as E; [|done]. by rewrite Hn, E.
Qed.

Lemma elem_of_put (n : option NodeId) a' l x : x ∈ RoleState.put_assignment n a' l ↔
  (x = a' ∧ ∃ y, y ∈ l ∧ RoleAssignment.node_id y = n)
  ∨ (x ∈ l ∧ RoleAssignment.node_id x ≠ n).
Proof.
  unfold RoleState.put_assignment. rewrite list_elem_of_fmap. split.
  - intros (y & -> & Hy). case_decide; naive_solver.
  - intros [(-> & y & Hy & Hn)|[Hx Hn]].
    + exists y. by rewrite decide_True.
    + exists x. by rewrite decide_False.
Qed.

Lemma put_absent n a' l : n ∉ ids l → RoleState.put_assignment (Some n) a' l = l.
Proof.
  intros Hn. unfold RoleState.put_assignment. rewrite <- (list_fmap_id l) at 2.
  apply list_fmap_ext. intros i a Ha. case_decide; [|done]. exfalso.
  apply Hn, elem_of_ids. eauto using list_elem_of_lookup_2.
Qed.

(** The assignment of [m] after [n]'s was replaced by [a']. *)
Lemma by_id_put n a' l m : NoDup (ids l) → RoleAssignment.node_id a' = Some n → n ∈ ids l →
  od_get m (by_id (RoleState.put_assignment (Some n) a' l))
  = if decide (m = n) then Some a' else od_get m (by_id l).
Proof.
  intros Hnd Hn Hin. case_decide as Hm; subst.
  - apply by_id_get; [by rewrite ids_put|]. split; [|done].
    apply elem_of_ids in Hin as (y & ? & ?). rewrite elem_of_put. eauto.
  - apply option_eq. intros x. rewrite !by_id_get by (by rewrite ?ids_put).
    rewrite elem_of_put. naive_solver.
Qed.

Lemma by_id_snoc l a' n m : NoDup (ids l) → n ∉ ids l → RoleAssignment.node_id a' = Some n →
  od_get m (by_id (l ++ [a'])) = if decide (m = n) then Some a' else od_get m (by_id l).
Proof.
  intros Hnd Hn Ha. apply option_eq. intros x.
  assert (NoDup (ids (l ++ [a']))).
  { unfold ids in *. rewrite omap_app. simpl. rewrite Ha. apply NoDup_app.
    split_and!; [done|set_solver|apply NoDup_singleton]. }
  rewrite by_id_get by done. rewrite elem_of_app, list_elem_of_singleton.
  case_decide; subst.
  - split; [intros [[Hx| ->] Hxn]|intros; simplify_eq; eauto]; [|done].
    exfalso. apply Hn, elem_of_ids. eauto.
  - rewrite by_id_get by done. naive_solver.
Qed.

(** A new assignment may take a role only if no other bound node holds it. *)
Definition may_take (r : ClusterRole) (n : NodeId) (a' : RoleAssignment) (l : list RoleAssignment) : Prop :=
  active r a' = true → ∀ b m, b ∈ l → RoleAssignment.node_id b = Some m →
    active r b = true → m = n.

Lemma uniq_put r n a' l : uniq r l → RoleAssignment.node_id a' = Some n →
  may_take r n a' l → uniq r (RoleState.put_assignment (Some n) a' l).
Proof.
  intros Hu Hn Hm x y nx ny Hx Hy Hnx Hny Hrx Hry.
  apply elem_of_put in Hx as [(-> & _)|[Hx _]]; apply elem_of_put in Hy as [(-> & _)|[Hy _]];
    try congruence; simplify_eq; try (symmetry; by eapply Hm); try (by eapply Hm); by eapply (Hu x y).
Qed.

Lemma uniq_snoc r n a' l : uniq r l → RoleAssignment.node_id a' = Some n →
  may_take r n a' l → uniq r (l ++ [a']).
Proof.
  intros Hu Hn Hm x y nx ny Hx Hy Hnx Hny Hrx Hry.
  apply elem_of_app in Hx as [Hx|Hx%list_elem_of_singleton];
    apply elem_of_app in Hy as [Hy|Hy%list_elem_of_singleton]; subst;
    try congruence; simplify_eq; try (symmetry; by eapply Hm); try (by eapply Hm); by eapply (Hu x y).
Qed.

Lemma shape_put n a' l p g g' : shape l p g → RoleAssignment.node_id a' = Some n →
  may_take COORDINATOR n a' l → may_take SUBCOORDINATOR n a' l →
  NoDup (CapabilityGrant.key <$> g') →
  shape (RoleState.put_assignment (Some n) a' l) p g'.
Proof.
  intros [Hi Hc Hs _ Hp] Hn HC HS Hk. split; auto using uniq_put. by rewrite ids_put.
Qed.

Lemma shape_snoc n a' l p g g' : shape l p g → RoleAssignment.node_id a' = Some n →
  n ∉ ids l → may_take COORDINATOR n a' l → may_take SUBCOORDINATOR n a' l →
  NoDup (CapabilityGrant.key <$> g') →
  shape (l ++ [a']) p g'.
Proof.
  intros [Hi Hc Hs _ Hp] Hn Hnin HC HS Hk. split; eauto using uniq_snoc.
  unfold ids in *. rewrite omap_app. simpl. rewrite Hn. apply NoDup_app.
  split_and!; [done|set_solver|apply NoDup_singleton].
Qed.

(** The same node keeping or dropping what it held may do so. *)
Lemma may_take_same r n a a' l : uniq r l → a ∈ l → RoleAssignment.node_id a = Some n →
  (active r a' = true → active r a = true) → may_take r n a' l.
Proof. intros Hu Ha Hn Himp Hr b m Hb Hm Hrb. symmetry. eapply (Hu a b); eauto. Qed.

Lemma Forall_put (n : option NodeId) a' l : Forall RoleAssignment.valid l → RoleAssignment.valid a' →
  Forall RoleAssignment.valid (RoleState.put_assignment n a' l).
Proof.
  rewrite !Forall_forall. intros Hl Ha x [[-> _]|[? _]]%elem_of_put; auto.
Qed.

(** ** Filtering grants *)

Lemma NoDup_fmap_lfilter {A B} (f : A → B) (P : A → bool) (l : list A) :
  NoDup (f <$> l) → NoDup (f <$> List.filter P l).
Proof.
  induction l as [|x l IH]; simpl; [done|]. rewrite NoDup_cons. intros [Hx Hl].
  destruct (P x); simpl; [|auto]. apply NoDup_cons. split; [|auto].
  rewrite list_elem_of_fmap in *. intros (y & ? & [_ Hy]%elem_of_lfilter). eauto.
Qed.

Lemma Forall_lfilter {A} (P : A → Prop) (f : A → bool) (l : list A) :
  Forall P l → Forall P (List.filter f l).
Proof. rewrite !Forall_forall. intros H x [_ Hx]%elem_of_lfilter. auto. Qed.

#[export] Hint Resolve NoDup_fmap_lfilter Forall_lfilter Forall_put : core.

(** * A concrete cluster

    Three members, a lease and a grant: the inputs at which the theorems about the
    topology are instantiated. *)

Definition node_c : NodeId := mkNodeId "c".
Definition node_s : NodeId := mkNodeId "s".
Definition node_w : NodeId := mkNodeId "w".

Definition as_coordinator : RoleAssignment :=
  RoleAssignment.mk {[COORDINATOR; WORKER]} (Some node_c) false false false.
Definition as_subcoordinator : RoleAssignment :=
  RoleAssignment.mk {[SUBCOORDINATOR]} (Some node_s) false false false.
Definition as_worker : RoleAssignment :=
  RoleAssignment.mk {[WORKER]} (Some node_w) false false true.

(** Epoch 1, leased to [c] until 220. *)
Definition sample_epoch : CoordinatorEpoch.t :=
  CoordinatorEpoch.mk 1 node_c "token" (flit 100) (flit 220).
Definition sample_grant : CapabilityGrant.t :=
  CapabilityGrant.mk node_s node_w {[READ_STATE]} (flit 100) (flit 300).
Definition sample_state : RoleState.t :=
  RoleState.mk [as_coordinator; as_subcoordinator; as_worker] (Some sample_epoch) ∅ [sample_grant].

Lemma sample_epoch_valid : CoordinatorEpoch.valid sample_epoch.
Proof. by vm_compute. Defined.

Lemma built_valid a :
  RoleAssignment.__post_init__ (RoleAssignment.roles a) (RoleAssignment.node_id a)
    (RoleAssignment.paused a) (RoleAssignment.revoked a) (RoleAssignment.has_active_job a) = Ok a →
  RoleAssignment.valid a.
Proof. apply RoleAssignment.__post_init__valid. Qed.

Lemma sample_wf : wf sample_state.
Proof.
  split.
  - apply (post_init_Ok _ (RoleState.epoch sample_state) _ _ sample_state). reflexivity.
  - repeat constructor; apply built_valid; reflexivity.
  - intros e ?. simplify_eq/=. apply sample_epoch_valid.
  - repeat constructor.
Qed.

(** A call that returns, by evaluation. *)
Lemma ok_run {A} (r : result A) : is_ok r = true → ∃ x, r = Ok x.
Proof. destruct r; [eauto|done]. Qed.

(** A fact about the value a call returns, by evaluation. *)
Lemma ok_fact {A} (P : A → bool) (r : result A) (x : A) :
  r = Ok x → match r with Ok y => P y | Err _ => false end = true → P x = true.
Proof. by intros ->. Qed.

(** [run r as [s E]]: evaluate [r], name its value and the equation. *)
Tactic Notation "run" constr(r) "as" simple_intropattern(p) :=
  destruct (ok_run r) as p; [vm_compute; reflexivity|].

(** A store in memory, that refuses every write when [broken]. *)
Definition disk (S : Type) : Type := bool * option S.

#[export] Instance disk_store S : StateStore (disk S) S.
Proof.
  refine {| store_save := λ (d : disk S) (s : S), if d.1 then (d, raise OSError "disk full")
                                  else ((false, Some s), Ok ());
            store_load := λ d : disk S, d.2 |}.
  - by intros [[] o] s d' u ?; simplify_eq/=.
  - by intros [[] o] s d' u ?; simplify_eq/=.
Defined.
