(* ===== verification/RolesSpec.v ===== *)
(** * What the role operations do, on every branch

    Theorems on [RoleState]: assignment, revocation, grants and authorization. *)

From S2P Require Import Prelude PyFloat Identity ClusterModels Roles RolesFacts.

(** ** Authority *)

(** [id] names the unpaused, unrevoked Coordinator that owns the epoch. *)
Definition controls (s : RoleState.t) (id : NodeId) : Prop :=
  ∃ c, RoleState.assignment_for s id = Some c ∧ RoleAssignment.revoked c = false ∧
    RoleAssignment.paused c = false ∧ COORDINATOR ∈ RoleAssignment.roles c ∧
    ∀ e, RoleState.epoch s = Some e → CoordinatorEpoch.coordinator_id e = id.

Lemma control_Ok s actor id : RoleState._control s actor = Ok id ↔
  RoleAssignment.node_id actor = Some id ∧ controls s id.
Proof.
  unfold RoleState._control, controls, not_active_coordinator, RoleAssignment.has. split.
  - intros H. repeat case_match; py_run; to_prop; split; try done; eexists; split_and!; try done;
      intros; by simplify_eq.
  - intros (-> & c & -> & -> & -> & Hc & He). rewrite bool_decide_eq_true_2 by done. simpl.
    destruct (RoleState.epoch s) as [e|]; [|done]. by rewrite bool_decide_eq_true_2 by auto.
Qed.

Lemma control_Err s actor e : RoleState._control s actor = Err e →
  exn_cls e = RoleAuthorizationError.
Proof.
  unfold RoleState._control, not_active_coordinator, raise. intros.
  repeat case_match; by simplify_eq/=.
Qed.

Lemma known_Ok s n c : RoleState.known s n = Ok c ↔
  RoleState.assignment_for s n = Some c ∧ RoleAssignment.revoked c = false.
Proof.
  unfold RoleState.known. split; [intros H|intros [-> ->]; done].
  repeat case_match; py_run; done.
Qed.

Lemma known_Err s n e : RoleState.known s n = Err e →
  exn_cls e = RoleAuthorizationError ∧
  ∀ c, RoleState.assignment_for s n = Some c → RoleAssignment.revoked c = true.
Proof. unfold RoleState.known, raise. intros. repeat case_match; simplify_eq/=; split; congruence. Qed.

(** ** Replacing an assignment of a well-formed state *)

Lemma wf_assignment_valid s n a : wf s → RoleState.assignment_for s n = Some a →
  a ∈ RoleState.assignments s ∧ RoleAssignment.node_id a = Some n ∧ RoleAssignment.valid a.
Proof.
  intros [Hs Ha _ _] H. rewrite assignment_for_Some in H by apply Hs.
  destruct H as [Hin Hn]. rewrite Forall_forall in Ha. auto.
Qed.

(** [s] with [n]'s assignment [a'] and grants [g]. *)
Definition updated (s : RoleState.t) (n : NodeId) (a' : RoleAssignment)
    (g : list CapabilityGrant.t) : RoleState.t :=
  RoleState.mk (RoleState.put_assignment (Some n) a' (RoleState.assignments s))
    (RoleState.epoch s) (RoleState.promotion_epochs s) g.

Lemma updated_shape s n c a' g : wf s → RoleState.assignment_for s n = Some c →
  RoleAssignment.node_id a' = Some n →
  (∀ r, active r a' = true → active r c = true) →
  NoDup (CapabilityGrant.key <$> g) →
  shape (RoleState.assignments (updated s n a' g)) (RoleState.promotion_epochs s) g.
Proof.
  intros Hwf Hc Hn Hr Hk. destruct (wf_assignment_valid _ _ _ Hwf Hc) as (Hin & Hcn & _).
  destruct Hwf as [Hs _ _ _]. eapply shape_put; eauto; eapply may_take_same; eauto; apply Hs.
Qed.

Lemma updated_wf s n c a' g : wf s → RoleState.assignment_for s n = Some c →
  RoleAssignment.node_id a' = Some n → RoleAssignment.valid a' →
  (∀ r, active r a' = true → active r c = true) →
  NoDup (CapabilityGrant.key <$> g) → Forall CapabilityGrant.valid g →
  wf (updated s n a' g).
Proof.
  intros Hwf Hc Hn Hv Hr Hk Hg. split; simpl; auto.
  - by eapply updated_shape.
  - apply Forall_put; [apply Hwf|done].
  - apply Hwf.
Qed.

Lemma replace_updated s n c a' : wf s → RoleState.assignment_for s n = Some c →
  RoleAssignment.node_id a' = Some n → (∀ r, active r a' = true → active r c = true) →
  RoleState._replace s a' = Ok (updated s n a' (RoleState.capability_grants s)).
Proof.
  intros Hwf Hc Hn Hr. unfold RoleState._replace. rewrite Hn. apply post_init_shape.
  eapply updated_shape; eauto. apply Hwf.
Qed.

Lemma assignment_for_updated s n c a' g m : wf s → RoleState.assignment_for s n = Some c →
  RoleAssignment.node_id a' = Some n →
  RoleState.assignment_for (updated s n a' g) m
  = if decide (m = n) then Some a' else RoleState.assignment_for s m.
Proof.
  intros Hwf Hc Hn. unfold RoleState.assignment_for, RoleState._assignment_index_for. simpl.
  apply by_id_put; [apply Hwf|done|]. apply wf_assignment_valid in Hc as (? & ? & _); [|done].
  apply elem_of_ids. eauto.
Qed.

Lemma replace_grants_Ok s g : wf s → NoDup (CapabilityGrant.key <$> g) →
  RoleState.replace_grants s g =
    Ok (RoleState.mk (RoleState.assignments s) (RoleState.epoch s) (RoleState.promotion_epochs s) g).
Proof. intros [[] _ _ _] Hk. by apply post_init_shape. Qed.

(** ** Pruned grants *)

Lemma elem_of_prune l gs g : NoDup (ids l) → g ∈ _prune_capability_grants l gs ↔
  g ∈ gs ∧
  (∃ a, a ∈ l ∧ RoleAssignment.node_id a = Some (CapabilityGrant.subject g) ∧
     active SUBCOORDINATOR a = true) ∧
  (∃ a, a ∈ l ∧ RoleAssignment.node_id a = Some (CapabilityGrant.target g) ∧
     active WORKER a = true).
Proof.
  intros Hnd. unfold _prune_capability_grants. rewrite elem_of_lfilter. split.
  - intros [H Hg]. repeat case_match; try done. to_prop.
    repeat match goal with H : od_get _ (by_id _) = Some _ |- _ =>
      apply (by_id_get _ _ _ Hnd) in H as [? ?] end.
    split; [done|].
    split; match goal with H : RoleAssignment.node_id ?a = ?x
             |- ∃ _, _ ∧ RoleAssignment.node_id _ = ?x ∧ _ => exists a end;
      split_and!; try done; unfold active; apply andb_true_iff; by rewrite negb_true_iff.
  - intros (Hg & (a & Ha & Hna & Hra) & (b & Hb & Hnb & Hrb)). split; [|done].
    rewrite (proj2 (by_id_get _ _ a Hnd)) by done. rewrite (proj2 (by_id_get _ _ b Hnd)) by done.
    unfold active in *. apply andb_true_iff in Hra as [-> ->].
    by apply andb_true_iff in Hrb as [-> ->].
Qed.

(** ** Assignment *)

(** The assignment [assign] gives [target]. *)
Definition assigned (s : RoleState.t) (target : NodeId) (roles : gset ClusterRole) : RoleAssignment :=
  let roles := if decide (roles = ∅) then {[WORKER]} else roles in
  let cur := RoleState.assignment_for s target in
  RoleAssignment.mk roles (Some target)
    (match cur with Some c => RoleAssignment.paused c | None => false end) false
    (bool_decide (WORKER ∈ roles) &&
     match cur with Some c => RoleAssignment.has_active_job c | None => false end).

(** Why [assign] refuses. *)
Definition assign_refused (s : RoleState.t) (actor : RoleAssignment) (target : NodeId)
    (roles : gset ClusterRole) : Prop :=
  (∀ id, ¬ RoleState._control s actor = Ok id)
  ∨ RoleAssignment.node_id actor = Some target
  ∨ COORDINATOR ∈ roles
  ∨ (∃ c, RoleState.assignment_for s target = Some c ∧ RoleAssignment.revoked c = true)
  ∨ (SUBCOORDINATOR ∈ roles ∧ ∃ a, a ∈ RoleState.assignments s ∧
       RoleAssignment.node_id a ≠ Some target ∧ active SUBCOORDINATOR a = true).

Lemma assigned_valid s target roles : COORDINATOR ∉ roles →
  RoleAssignment.valid (assigned s target roles).
Proof.
  intros HC. unfold assigned. split; simpl; try done; case_decide; set_solver.
Qed.

(** The two-step construction of the source builds [assigned]. *)
Lemma assigned_built s target roles : COORDINATOR ∉ roles →
  (a ← RoleAssignment.__post_init__ roles (Some target)
     (match RoleState.assignment_for s target with Some c => RoleAssignment.paused c | None => false end)
     false
     (match RoleState.assignment_for s target with
      | Some c => RoleAssignment.has_active_job c | None => false end);
   if negb (RoleAssignment.has WORKER a) then RoleAssignment.replace_job a false else Ok a)
  = Ok (assigned s target roles).
Proof.
  intros HC. set (p := match _ with Some _ => _ | None => false end).
  set (j := match _ with Some c => RoleAssignment.has_active_job c | None => false end).
  set (r := if decide (roles = ∅) then ({[WORKER]} : gset ClusterRole) else roles).
  assert (Hr : ∀ j', RoleAssignment.valid (RoleAssignment.mk r (Some target) p false j')).
  { intros j'. split; simpl; try done; subst r; case_decide; set_solver. }
  assert (Hb : RoleAssignment.__post_init__ roles (Some target) p false j
          = Ok (RoleAssignment.mk r (Some target) p false j)).
  { pose proof (RoleAssignment.__post_init__id _ (Hr j)) as H. simpl in H. rewrite <- H.
    unfold RoleAssignment.__post_init__. rewrite !(decide_False (P := COORDINATOR ∈ _)).
    - subst r. repeat case_decide; done.
    - subst r. case_decide; set_solver.
    - done. }
  rewrite Hb. cbn [mbind result_bind]. unfold RoleAssignment.has. simpl.
  unfold assigned. fold p j r. case_bool_decide; simpl; [done|].
  unfold RoleAssignment.replace_job. simpl. exact (RoleAssignment.__post_init__id _ (Hr false)).
Qed.

(** The state [assign] publishes. *)
Definition assign_result (s : RoleState.t) (target : NodeId) (roles : gset ClusterRole) : RoleState.t :=
  let a := assigned s target roles in
  let l := RoleState.put_assignment (Some target) a (RoleState.assignments s) in
  let l := match RoleState.assignment_for s target with None => l ++ [a] | Some _ => l end in
  RoleState.mk l (RoleState.epoch s) (RoleState.promotion_epochs s)
    (_prune_capability_grants l (RoleState.capability_grants s)).

Lemma assign_may_take s target roles : wf s → COORDINATOR ∉ roles →
  (SUBCOORDINATOR ∈ roles → ∀ a, a ∈ RoleState.assignments s →
     RoleAssignment.node_id a ≠ Some target → active SUBCOORDINATOR a = false) →
  may_take COORDINATOR target (assigned s target roles) (RoleState.assignments s) ∧
  may_take SUBCOORDINATOR target (assigned s target roles) (RoleState.assignments s).
Proof.
  intros Hwf HC HS. split; intros Hr b m Hb Hm Hrb;
    unfold active, RoleAssignment.has, assigned in Hr; simpl in Hr; apply bool_decide_eq_true in Hr.
  - exfalso. case_decide; set_solver.
  - destruct (decide (m = target)); [done|]. exfalso.
    rewrite HS in Hrb; [done| |done|congruence]. case_decide; set_solver.
Qed.

Lemma assign_result_shape s target roles : wf s → COORDINATOR ∉ roles →
  (SUBCOORDINATOR ∈ roles → ∀ a, a ∈ RoleState.assignments s →
     RoleAssignment.node_id a ≠ Some target → active SUBCOORDINATOR a = false) →
  wf (assign_result s target roles) ∧
  ∀ m, RoleState.assignment_for (assign_result s target roles) m
       = if decide (m = target) then Some (assigned s target roles)
         else RoleState.assignment_for s m.
Proof.
  intros Hwf HC HS. destruct (assign_may_take _ _ _ Hwf HC HS) as [HtC HtS].
  pose proof (assigned_valid s target roles HC) as Hv.
  pose proof Hwf as [Hs Ha He Hg].
  assert (Hn : RoleAssignment.node_id (assigned s target roles) = Some target) by done.
  unfold RoleState.assignment_for at 1, RoleState._assignment_index_for, assign_result. simpl.
  destruct (RoleState.assignment_for s target) as [c|] eqn:Ec.
  - pose proof (wf_assignment_valid _ _ _ Hwf Ec) as (Hin & Hcn & _).
    split; [split; simpl; auto|].
    + eapply shape_put; eauto. apply NoDup_fmap_lfilter, Hs.
    + by apply Forall_lfilter.
    + intros m. apply by_id_put; [apply Hs|done|]. apply elem_of_ids. eauto.
  - unfold RoleState.assignment_for, RoleState._assignment_index_for in Ec.
    rewrite by_id_None in Ec by apply Hs. rewrite put_absent by done.
    split; [split; simpl; auto|].
    + eapply shape_snoc; eauto. apply NoDup_fmap_lfilter, Hs.
    + apply Forall_app. split; [done|]. by apply Forall_singleton.
    + by apply Forall_lfilter.
    + intros m. apply by_id_snoc; [apply Hs|done|done].
Qed.

Lemma assign_run s actor id target roles now : wf s → isfinite now = true →
  RoleState._control s actor = Ok id → target ≠ id → COORDINATOR ∉ roles →
  (∀ c, RoleState.assignment_for s target = Some c → RoleAssignment.revoked c = false) →
  (SUBCOORDINATOR ∈ roles → ∀ a, a ∈ RoleState.assignments s →
     RoleAssignment.node_id a ≠ Some target → active SUBCOORDINATOR a = false) →
  RoleState.assign s actor target roles now
  = Ok (assign_result s target roles, RoleChange.mk target (assigned s target roles) now id).
Proof.
  intros Hwf Hnow Hctl Hne HC Hrev HS. unfold RoleState.assign. rewrite Hctl. cbn [mbind result_bind].
  rewrite (bool_decide_eq_false_2 (target = id)) by done.
  rewrite (bool_decide_eq_false_2 (COORDINATOR ∈ roles)) by done. cbn [raise_if mbind result_bind].
  replace (match RoleState.assignment_for s target with
           | Some c => RoleAssignment.revoked c | None => false end) with false
    by (symmetry; destruct (RoleState.assignment_for s target); auto).
  replace (bool_decide (SUBCOORDINATOR ∈ roles) && _) with false.
  2:{ symmetry. apply andb_false_iff. case_bool_decide; [right|by left].
      apply existsb_false_iff. intros a Ha. apply andb_false_iff.
      case_bool_decide; [by left|right; by apply HS]. }
  cbn [raise_if mbind result_bind].
  pose proof (assigned_built s target roles HC) as Hb.
  apply bind_Ok in Hb as (a0 & Ha0 & Hb). rewrite Ha0. cbn [mbind result_bind]. rewrite Hb.
  cbn [mbind result_bind].
  destruct (assign_result_shape _ _ _ Hwf HC HS) as [Hwf' _].
  assert (Hp : RoleState.__post_init__ (RoleState.assignments (assign_result s target roles))
     (RoleState.epoch s) (RoleState.promotion_epochs s)
     (RoleState.capability_grants (assign_result s target roles)) = Ok (assign_result s target roles)).
  { apply post_init_shape. apply Hwf'. }
  unfold assign_result in Hp at 1 2. simpl in Hp. rewrite Hp. simpl.
  unfold RoleChange.__post_init__. by rewrite Hnow.
Qed.

(** [assign] either refuses for a reason of [assign_refused] or gives [assign_result]. *)
Lemma assign_cases s actor target roles now : wf s → isfinite now = true →
  (∃ e, RoleState.assign s actor target roles now = Err e ∧
     exn_cls e = RoleAuthorizationError ∧ assign_refused s actor target roles) ∨
  (∃ id, RoleState.assign s actor target roles now
       = Ok (assign_result s target roles, RoleChange.mk target (assigned s target roles) now id) ∧
     ¬ assign_refused s actor target roles ∧ wf (assign_result s target roles) ∧
     ∀ m, RoleState.assignment_for (assign_result s target roles) m
          = if decide (m = target) then Some (assigned s target roles)
            else RoleState.assignment_for s m).
Proof.
  intros Hwf Hnow. unfold assign_refused.
  destruct (RoleState._control s actor) as [id|e] eqn:Ectl.
  2:{ unfold RoleState.assign. rewrite Ectl. simpl. left; eexists; split_and!; [done|by eapply control_Err|left; naive_solver]. }
  pose proof (proj1 (control_Ok _ _ _) Ectl) as [Hid _].
  destruct (decide (target = id)) as [->|Hne].
  { unfold RoleState.assign. rewrite Ectl. simpl. rewrite (bool_decide_eq_true_2 (id = id)) by done. simpl. left. eexists. split_and!; [done..|by right; left]. }
  destruct (decide (COORDINATOR ∈ roles)) as [HC|HC].
  { unfold RoleState.assign. rewrite Ectl. simpl.
    rewrite (bool_decide_eq_false_2 (target = id)), (bool_decide_eq_true_2 (COORDINATOR ∈ roles)) by done.
    simpl. left. eexists. split_and!; [done..|by right; right; left]. }
  destruct (match RoleState.assignment_for s target with
            | Some c => RoleAssignment.revoked c | None => false end) eqn:Er.
  { unfold RoleState.assign. rewrite Ectl. simpl.
    rewrite (bool_decide_eq_false_2 (target = id)), (bool_decide_eq_false_2 (COORDINATOR ∈ roles)) by done.
    simpl. rewrite Er. simpl. left. eexists. split_and!; [done..|].
    destruct (RoleState.assignment_for s target); [|done]. right; right; right; left. eauto. }
  destruct (decide (SUBCOORDINATOR ∈ roles ∧ existsb (λ a,
      negb (bool_decide (RoleAssignment.node_id a = Some target)) && active SUBCOORDINATOR a)
      (RoleState.assignments s) = true)) as [[HS Hex]|HS].
  { unfold RoleState.assign. rewrite Ectl. simpl.
    rewrite (bool_decide_eq_false_2 (target = id)), (bool_decide_eq_false_2 (COORDINATOR ∈ roles)) by done.
    simpl. rewrite Er. simpl. rewrite bool_decide_eq_true_2, Hex by done. simpl.
    left. eexists. split_and!; [done..|].
    apply existsb_exists in Hex as (a & Ha%list_elem_of_In & Hb). to_prop.
    do 4 right. eauto. }
  assert (HS' : SUBCOORDINATOR ∈ roles → ∀ a, a ∈ RoleState.assignments s →
     RoleAssignment.node_id a ≠ Some target → active SUBCOORDINATOR a = false).
  { intros Hin a Ha Hna. destruct (existsb _ (RoleState.assignments s)) eqn:Hex; [tauto|].
    rewrite existsb_false_iff in Hex. specialize (Hex a Ha).
    by rewrite bool_decide_eq_false_2 in Hex. }
  assert (Hrev : ∀ c, RoleState.assignment_for s target = Some c → RoleAssignment.revoked c = false).
  { intros c Hc. by rewrite Hc in Er. }
  destruct (assign_result_shape _ _ _ Hwf HC HS') as [Hwf' Hlk].
  right. exists id. split_and!; try done; [by apply assign_run|]. intros [H|[H|[H|[(c & Hc & Hcr)|(H & a & Ha & Hna & Hra)]]]].
  - by apply (H id).
  - congruence.
  - done.
  - specialize (Hrev c Hc). congruence.
  - rewrite HS' in Hra; done.
Qed.

Lemma assign_finite s actor target roles now r :
  RoleState.assign s actor target roles now = Ok r → isfinite now = true.
Proof.
  unfold RoleState.assign, RoleChange.__post_init__. intros H. repeat res_step.
  by apply negb_false_iff.
Qed.

(** [RoleState.assign] on every branch: it is refused, with an authorization
    error, exactly when a guard fails (forged or inactive actor, self target,
    Coordinator ownership, revoked target, a second Subcoordinator); otherwise it
    returns a well-formed state in which only the target changed, the target keeps
    its pause flag, keeps its job only as a Worker, and the grants are pruned to
    the new topology. *)
Theorem assign_correct s actor target roles now :
  wf s → isfinite now = true →
  match RoleState.assign s actor target roles now with
  | Ok (s', change) =>
      ¬ assign_refused s actor target roles ∧ wf s' ∧ s' = assign_result s target roles ∧
      RoleChange.assignment change = assigned s target roles ∧
      ∀ m, RoleState.assignment_for s' m
           = if decide (m = target) then Some (assigned s target roles)
             else RoleState.assignment_for s m
  | Err e => exn_cls e = RoleAuthorizationError ∧ assign_refused s actor target roles
  end.
Proof.
  intros Hwf Hnow.
  destruct (assign_cases s actor target roles now Hwf Hnow) as [(e & -> & ? & ?)|(id & -> & ?)].
  - done.
  - naive_solver.
Qed.

Lemma assign_correct_witness :
  ∃ s' change, RoleState.assign sample_state as_coordinator node_w ∅ (flit 150) = Ok (s', change) ∧
    wf s' ∧ RoleState.assignment_for s' node_w = Some as_worker.
Proof.
  pose proof (assign_correct sample_state as_coordinator node_w ∅ (flit 150) sample_wf eq_refl) as H.
  run (RoleState.assign sample_state as_coordinator node_w ∅ (flit 150)) as [[s' change] E].
  rewrite E in H. exists s', change. destruct H as (_ & Hwf & _ & _ & Hm). split; [done|]. split; [done|].
  rewrite Hm. reflexivity.
Defined.

(** ** Pause, resume, revoke and jobs *)

(** [c] with new flags. *)
Definition flagged (c : RoleAssignment) (n : NodeId) (p v j : bool) : RoleAssignment :=
  RoleAssignment.mk (RoleAssignment.roles c) (Some n) p v j.

Lemma flagged_wf s n c p v j g : wf s → RoleState.assignment_for s n = Some c →
  (RoleAssignment.revoked c = true → v = true) → v && p = false →
  NoDup (CapabilityGrant.key <$> g) → Forall CapabilityGrant.valid g →
  wf (updated s n (flagged c n p v j) g).
Proof.
  intros Hwf Hc Hr Hvp Hk Hg.
  pose proof (wf_assignment_valid _ _ _ Hwf Hc) as (_ & _ & []).
  eapply updated_wf; eauto; [by split|]. intros r. unfold active, flagged; simpl.
  destruct (RoleAssignment.revoked c), v; simpl; naive_solver.
Qed.

Lemma replace_flags s n c p v j : wf s → RoleState.assignment_for s n = Some c →
  (RoleAssignment.revoked c = true → v = true) → v && p = false →
  (a ← RoleAssignment.__post_init__ (RoleAssignment.roles c) (RoleAssignment.node_id c) p v j;
   RoleState._replace s a)
  = Ok (updated s n (flagged c n p v j) (RoleState.capability_grants s)).
Proof.
  intros Hwf Hc Hr Hvp.
  pose proof (wf_assignment_valid _ _ _ Hwf Hc) as (_ & Hn & Hv).
  rewrite RoleAssignment.__post_init__roles, Hn by done. simpl.
  apply (replace_updated s n c); try done. intros r. unfold active, flagged; simpl.
  destruct (RoleAssignment.revoked c), v; simpl; naive_solver.
Qed.

Lemma pause_run s actor target : wf s → RoleState.pause s actor target =
  (id ← RoleState._control s actor;
   raise_if (bool_decide (target = id)) RoleAuthorizationError cannot_target_itself;;
   c ← RoleState.known s target;
   Ok (updated s target (flagged c target true false (RoleAssignment.has_active_job c))
         (RoleState.capability_grants s))).
Proof.
  intros Hwf. unfold RoleState.pause. destruct (RoleState._control s actor) as [id|]; [simpl|done].
  destruct (raise_if _ _ _) as [[]|]; [simpl|done].
  destruct (RoleState.known s target) as [c|] eqn:Hk; [simpl|done].
  apply known_Ok in Hk as [Hc Hr]. unfold RoleAssignment.replace_paused.
  rewrite (replace_flags s target c); rewrite ?Hr; done.
Qed.

Lemma resume_run s actor target : wf s → RoleState.resume s actor target =
  (_ ← RoleState._control s actor;
   c ← RoleState.known s target;
   Ok (updated s target (flagged c target false false (RoleAssignment.has_active_job c))
         (RoleState.capability_grants s))).
Proof.
  intros Hwf. unfold RoleState.resume. destruct (RoleState._control s actor) as [id|]; [simpl|done].
  destruct (RoleState.known s target) as [c|] eqn:Hk; [simpl|done].
  apply known_Ok in Hk as [Hc Hr]. unfold RoleAssignment.replace_paused.
  rewrite (replace_flags s target c); rewrite ?Hr; done.
Qed.

(** The grants that do not mention [target]. *)
Definition without_grants_of (target : NodeId) (g : list CapabilityGrant.t) : list CapabilityGrant.t :=
  List.filter (λ g, negb (bool_decide (target = CapabilityGrant.subject g)
                          || bool_decide (target = CapabilityGrant.target g))) g.

Definition revoke_result (s : RoleState.t) (target : NodeId) (c : RoleAssignment) : RoleState.t :=
  updated s target (flagged c target false true false)
    (without_grants_of target (RoleState.capability_grants s)).

Lemma revoke_result_wf s target c : wf s → RoleState.assignment_for s target = Some c →
  wf (revoke_result s target c).
Proof.
  intros Hwf Hc. apply flagged_wf; try done; apply NoDup_fmap_lfilter || apply Forall_lfilter;
    apply Hwf.
Qed.

Lemma revoke_run s actor target : wf s → RoleState.revoke s actor target =
  (id ← RoleState._control s actor;
   raise_if (bool_decide (target = id)) RoleAuthorizationError cannot_target_itself;;
   c ← RoleState.known s target;
   Ok (revoke_result s target c)).
Proof.
  intros Hwf. unfold RoleState.revoke. destruct (RoleState._control s actor) as [id|]; [simpl|done].
  destruct (raise_if _ _ _) as [[]|]; [simpl|done].
  destruct (RoleState.known s target) as [c|] eqn:Hk; [simpl|done].
  apply known_Ok in Hk as [Hc Hr].
  pose proof (replace_flags s target c false true false Hwf Hc (λ _, eq_refl) eq_refl) as Hrun.
  apply bind_Ok in Hrun as (a & -> & Hrun). simpl. rewrite Hrun. simpl.
  apply (replace_grants_Ok (updated _ _ _ _)).
  - eapply flagged_wf; try done; apply Hwf.
  - apply NoDup_fmap_lfilter, Hwf.
Qed.

Lemma job_run s actor target job : wf s → RoleState._job s actor target job =
  (_ ← RoleState._control s actor;
   match RoleState.assignment_for s target with
   | None => raise RoleAuthorizationError "target has no active worker role"
   | Some c =>
       raise_if (RoleAssignment.revoked c || negb (RoleAssignment.has WORKER c)
                 || (job && RoleAssignment.paused c))
         RoleAuthorizationError "target has no active worker role";;
       Ok (updated s target (flagged c target (RoleAssignment.paused c) false job)
             (RoleState.capability_grants s))
   end).
Proof.
  intros Hwf. unfold RoleState._job. destruct (RoleState._control s actor) as [id|]; [simpl|done].
  destruct (RoleState.assignment_for s target) as [c|] eqn:Hc; [|done].
  destruct (_ || _ || _) eqn:Hg; [done|]. simpl. to_prop. unfold RoleAssignment.replace_job.
  rewrite (replace_flags s target c); match goal with H : RoleAssignment.revoked c = _ |- _ =>
    rewrite ?H end; done.
Qed.

(** A revoked member keeps nothing: after [revoke] the state is well formed,
    no grant names the target, nothing involving it is allowed at any time and it
    cannot control peers, while every other node keeps its assignment and the
    grants between other nodes survive. *)
Theorem revoke_removes_all_authority s actor target s' :
  wf s → RoleState.revoke s actor target = Ok s' →
  wf s' ∧
  (∀ g, g ∈ RoleState.capability_grants s' ↔ g ∈ RoleState.capability_grants s ∧
     CapabilityGrant.subject g ≠ target ∧ CapabilityGrant.target g ≠ target) ∧
  (∀ other permission now, RoleState.allows s' target other permission now = false ∧
     RoleState.allows s' other target permission now = false) ∧
  (∀ a id, RoleAssignment.node_id a = Some target → RoleState._control s' a ≠ Ok id) ∧
  (∀ m, m ≠ target → RoleState.assignment_for s' m = RoleState.assignment_for s m).
Proof.
  intros Hwf H. rewrite revoke_run in H by done. repeat res_step. subst s'.
  match goal with H : RoleState.known _ _ = Ok ?c |- _ =>
    apply known_Ok in H as [Hc Hr]; rename c into cur end.
  assert (Hat : ∀ m, RoleState.assignment_for (revoke_result s target cur) m =
    if decide (m = target) then Some (flagged cur target false true false)
    else RoleState.assignment_for s m) by (intros; by eapply assignment_for_updated).
  split_and!.
  - by apply revoke_result_wf.
  - intros g. simpl. unfold without_grants_of. rewrite elem_of_lfilter, negb_true_iff, orb_false_iff,
      !bool_decide_eq_false. naive_solver.
  - intros other permission now. unfold RoleState.allows. rewrite !Hat, decide_True by done.
    destruct (negb (_finite now)); [done|]. split; [by destruct (if decide _ then _ else _)|].
    destruct (if decide _ then _ else _) as [o|]; [|done]. simpl. by rewrite orb_true_r.
  - intros act id0 Hact [Hn (c0 & Hl & Hrev & _)]%control_Ok. simplify_eq.
    rewrite Hat, decide_True in Hl by congruence. by simplify_eq/=.
  - intros m Hm. by rewrite Hat, decide_False.
Qed.

Lemma revoke_removes_all_authority_witness :
  ∃ s', RoleState.revoke sample_state as_coordinator node_w = Ok s' ∧
    (∀ g, g ∈ RoleState.capability_grants s' → CapabilityGrant.target g ≠ node_w) ∧
    RoleState.allows s' node_s node_w READ_STATE (flit 150) = false.
Proof.
  run (RoleState.revoke sample_state as_coordinator node_w) as [s' E].
  pose proof (revoke_removes_all_authority sample_state as_coordinator node_w s' sample_wf E)
    as (_ & Hg & H & _).
  exists s'. split; [exact E|]. split; [|apply H]. intros g Hin. by apply Hg in Hin as (_ & _ & Hin).
Defined.

(** ** Grants *)

Lemma other_grants_shape sub tgt g gs : CapabilityGrant.key g = (sub, tgt) →
  NoDup (CapabilityGrant.key <$> gs) →
  NoDup (CapabilityGrant.key <$> (RoleState.other_grants sub tgt gs ++ [g])).
Proof.
  intros Hg Hk. rewrite fmap_app. apply NoDup_app. split_and!.
  - by apply NoDup_fmap_lfilter.
  - intros k (x & -> & Hx)%list_elem_of_fmap. apply elem_of_lfilter in Hx as [Hx _].
    rewrite list_elem_of_fmap. intros (y & Hk' & Hy%list_elem_of_singleton). subst.
    apply negb_true_iff, bool_decide_eq_false in Hx. congruence.
  - apply NoDup_singleton.
Qed.

Definition with_grants (s : RoleState.t) (g : list CapabilityGrant.t) : RoleState.t :=
  RoleState.mk (RoleState.assignments s) (RoleState.epoch s) (RoleState.promotion_epochs s) g.

Lemma with_grants_wf s g : wf s → NoDup (CapabilityGrant.key <$> g) →
  Forall CapabilityGrant.valid g → wf (with_grants s g).
Proof. intros [[] ? ? ?] ? ?. by split; [split|..]. Qed.

Lemma grant_run s actor sub tgt perms now exp : wf s →
  RoleState.grant_capabilities s actor sub tgt perms now exp =
  (_ ← RoleState._control s actor;
   raise_if (negb (RoleState.usable SUBCOORDINATOR (RoleState.assignment_for s sub)))
     RoleAuthorizationError "capability subject is not an active Subcoordinator";;
   raise_if (negb (RoleState.usable WORKER (RoleState.assignment_for s tgt)) || bool_decide (sub = tgt))
     RoleAuthorizationError "capability target is not an active Worker";;
   g ← CapabilityGrant.__post_init__ sub tgt perms now exp;
   Ok (with_grants s (RoleState.other_grants sub tgt (RoleState.capability_grants s) ++ [g]))).
Proof.
  intros Hwf. unfold RoleState.grant_capabilities.
  destruct (RoleState._control s actor) as [id|]; [simpl|done].
  destruct (raise_if _ _ _) as [[]|]; [simpl|done].
  destruct (raise_if _ _ _) as [[]|]; [simpl|done].
  destruct (CapabilityGrant.__post_init__ _ _ _ _ _) as [g|] eqn:Hg; [simpl|done].
  apply CapabilityGrant.grant_Ok in Hg as [-> Hv].
  apply replace_grants_Ok; [done|]. apply other_grants_shape; [done|apply Hwf].
Qed.

Lemma revoke_capabilities_run s actor sub tgt : wf s →
  RoleState.revoke_capabilities s actor sub tgt =
  (_ ← RoleState._control s actor;
   Ok (with_grants s (RoleState.other_grants sub tgt (RoleState.capability_grants s)))).
Proof.
  intros Hwf. unfold RoleState.revoke_capabilities.
  destruct (RoleState._control s actor) as [id|]; [simpl|done].
  apply replace_grants_Ok; [done|]. apply NoDup_fmap_lfilter, Hwf.
Qed.

(** ** The operations of a Coordinator *)

Inductive role_op :=
  | OpAssign (target : NodeId) (roles : gset ClusterRole) (now : float)
  | OpPause (target : NodeId)
  | OpResume (target : NodeId)
  | OpRevoke (target : NodeId)
  | OpAssignJob (target : NodeId)
  | OpRemoveJob (target : NodeId)
  | OpGrant (subject target : NodeId) (permissions : gset NodePermission) (now expires_at : float)
  | OpRevokeGrant (subject target : NodeId).

Definition run_op (s : RoleState.t) (actor : RoleAssignment) (o : role_op) : result RoleState.t :=
  match o with
  | OpAssign target roles now => fst <$> RoleState.assign s actor target roles now
  | OpPause target => RoleState.pause s actor target
  | OpResume target => RoleState.resume s actor target
  | OpRevoke target => RoleState.revoke s actor target
  | OpAssignJob target => RoleState.assign_job s actor target
  | OpRemoveJob target => RoleState.remove_job s actor target
  | OpGrant sub tgt perms now exp => RoleState.grant_capabilities s actor sub tgt perms now exp
  | OpRevokeGrant sub tgt => RoleState.revoke_capabilities s actor sub tgt
  end.

Lemma run_op_uncontrolled s actor o e : RoleState._control s actor = Err e →
  run_op s actor o = Err e.
Proof.
  intros H. destruct o; simpl; unfold RoleState.assign, RoleState.pause, RoleState.resume,
    RoleState.revoke, RoleState.assign_job, RoleState.remove_job, RoleState._job,
    RoleState.grant_capabilities, RoleState.revoke_capabilities; by rewrite H.
Qed.

Lemma run_op_wf s actor o s' : wf s → run_op s actor o = Ok s' → wf s'.
Proof.
  intros Hwf H. destruct o as [tg r now|tg|tg|tg|tg|tg|sub tg p now exp|sub tg]; simpl in H.
  - destruct (RoleState.assign s actor tg r now) as [[s1 ch]|] eqn:E; simplify_eq/=.
    apply assign_finite in E as Hnow.
    destruct (assign_cases s actor tg r now Hwf Hnow) as [(e & Ha & _)|(id & Ha & _ & ? & _)];
      rewrite Ha in E; by simplify_eq.
  - rewrite pause_run in H by done. repeat res_step. subst.
    match goal with H : RoleState.known _ _ = _ |- _ => apply known_Ok in H as [Hc Hr] end.
    apply flagged_wf; try done; rewrite ?Hr; try done; apply Hwf.
  - rewrite resume_run in H by done. repeat res_step. subst.
    match goal with H : RoleState.known _ _ = _ |- _ => apply known_Ok in H as [Hc Hr] end.
    apply flagged_wf; try done; rewrite ?Hr; try done; apply Hwf.
  - rewrite revoke_run in H by done. repeat res_step. subst.
    match goal with H : RoleState.known _ _ = _ |- _ => apply known_Ok in H as [Hc Hr] end.
    by apply revoke_result_wf.
  - unfold RoleState.assign_job in H. rewrite job_run in H by done. repeat res_step.
    destruct (RoleState.assignment_for s tg) as [c|] eqn:Hc; repeat res_step. to_prop. subst.
    apply flagged_wf; try done; try congruence; apply Hwf.
  - unfold RoleState.remove_job in H. rewrite job_run in H by done. repeat res_step.
    destruct (RoleState.assignment_for s tg) as [c|] eqn:Hc; repeat res_step. to_prop. subst.
    apply flagged_wf; try done; try congruence; apply Hwf.
  - rewrite grant_run in H by done. repeat res_step. subst.
    match goal with H : CapabilityGrant.__post_init__ _ _ _ _ _ = _ |- _ =>
      apply CapabilityGrant.grant_Ok in H as [-> Hv] end.
    apply with_grants_wf; [done|apply other_grants_shape; [done|apply Hwf]|].
    apply Forall_app. split; [apply Forall_lfilter, Hwf|by apply Forall_singleton].
  - rewrite revoke_capabilities_run in H by done. repeat res_step. subst.
    apply with_grants_wf; [done|apply NoDup_fmap_lfilter, Hwf|apply Forall_lfilter, Hwf].
Qed.

(** C1. No operation succeeds on the word of a caller-supplied assignment: whatever
    flags and roles the actor object claims, an operation that returns was issued
    in the name of the node this state knows as its active, unpaused Coordinator
    owning the epoch, and it leaves the topology well formed; any other actor gets
    an authorization error. *)
Theorem role_operations_need_authority s actor o :
  wf s →
  match run_op s actor o with
  | Ok s' => wf s' ∧ ∃ id, RoleAssignment.node_id actor = Some id ∧ controls s id
  | Err e => (∃ id, RoleAssignment.node_id actor = Some id ∧ controls s id) ∨
             exn_cls e = RoleAuthorizationError
  end.
Proof.
  intros Hwf. destruct (RoleState._control s actor) as [id|e] eqn:Hctl.
  - pose proof (proj1 (control_Ok _ _ _) Hctl) as [? ?].
    destruct (run_op s actor o) as [s'|e] eqn:Hrun; [|eauto].
    split; [by eapply run_op_wf|eauto].
  - rewrite (run_op_uncontrolled _ _ _ e) by done. right. by eapply control_Err.
Qed.

Lemma role_operations_need_authority_witness :
  ∃ s', run_op sample_state as_coordinator (OpPause node_w) = Ok s' ∧ wf s'.
Proof.
  pose proof (role_operations_need_authority sample_state as_coordinator (OpPause node_w) sample_wf) as H.
  run (run_op sample_state as_coordinator (OpPause node_w)) as [s' E].
  rewrite E in H. exists s'. split; [exact E|apply H].
Defined.

(** ** Authorization *)

Lemma grant_index_get s k g : NoDup (CapabilityGrant.key <$> RoleState.capability_grants s) →
  od_get k (RoleState._grant_index_for s) = Some g ↔
  g ∈ RoleState.capability_grants s ∧ CapabilityGrant.key g = k.
Proof.
  intros Hnd. unfold RoleState._grant_index_for.
  assert (Hk : ((λ item, (CapabilityGrant.key item, item)) <$> RoleState.capability_grants s).*1
    = CapabilityGrant.key <$> RoleState.capability_grants s).
  { rewrite <- list_fmap_compose. by apply list_fmap_ext. }
  rewrite od_of_list_id by (by rewrite Hk). split.
  - intros H%od_get_elem. apply list_elem_of_fmap in H as (x & ? & ?). by simplify_eq.
  - intros [Hg <-]. apply od_elem_get; [by rewrite Hk|]. apply list_elem_of_fmap. eauto.
Qed.

Definition at_work (s : RoleState.t) (n : NodeId) (r : ClusterRole) : Prop :=
  ∃ a, RoleState.assignment_for s n = Some a ∧ RoleAssignment.revoked a = false ∧
    RoleAssignment.paused a = false ∧ r ∈ RoleAssignment.roles a.

Lemma at_work_iff s n a r : RoleState.assignment_for s n = Some a →
  RoleAssignment.revoked a = false → RoleAssignment.paused a = false →
  at_work s n r ↔ r ∈ RoleAssignment.roles a.
Proof.
  intros Ha Hr Hp. unfold at_work. split; [|by eauto].
  intros (x & Hx & _ & _ & ?). by simplify_eq.
Qed.

(** An unexpired grant naming the permission. *)
Lemma grant_permits s subject target permission now : wf s → isfinite now = true →
  (match RoleState.capability_grant s subject target (Some now) with
   | Some g => bool_decide (permission ∈ CapabilityGrant.permissions g)
   | None => false
   end = true)
  ↔ ∃ g, g ∈ RoleState.capability_grants s ∧ CapabilityGrant.key g = (subject, target) ∧
      permission ∈ CapabilityGrant.permissions g ∧
      fltb now (CapabilityGrant.expires_at g) = true.
Proof.
  intros Hwf Hnow. unfold RoleState.capability_grant, _finite. rewrite Hnow. simpl. split.
  - destruct (od_get _ _) as [g|] eqn:Hg; [|done].
    destruct (fleb _ _) eqn:Hle; [done|]. rewrite bool_decide_eq_true. intros Hp.
    apply grant_index_get in Hg as [Hin Hkey]; [|apply Hwf]. exists g. split_and!; try done.
    pose proof (wf_grants _ Hwf) as HF. rewrite Forall_forall in HF. specialize (HF g Hin).
    unfold CapabilityGrant.valid, CapabilityGrant.__post_init__ in HF. repeat res_step. to_prop.
    float_order.
  - intros (g & Hin & Hkey & Hp & Hlt).
    rewrite (proj2 (grant_index_get s (subject, target) g (shape_keys _ _ _ (wf_shape _ Hwf)))) by done.
    replace (fleb _ _) with false by (symmetry; float_order).
    by rewrite bool_decide_eq_true.
Qed.

(** C2. [RoleState.allows] decides authority exactly: a finite clock and two live,
    unpaused members, and then either the subject is the target, or it is a
    Coordinator acting on a Worker, or it is a non-Coordinator Subcoordinator holding
    a grant on that Worker that names the permission and has not expired. *)
Theorem allows_exact s subject target permission now :
  wf s →
  RoleState.allows s subject target permission now = true ↔
  isfinite now = true ∧
  (∃ r, at_work s subject r) ∧ (∃ r, at_work s target r) ∧
  (subject = target
   ∨ at_work s subject COORDINATOR ∧ at_work s target WORKER
   ∨ ¬ at_work s subject COORDINATOR ∧ at_work s subject SUBCOORDINATOR
     ∧ at_work s target WORKER ∧
     ∃ g, g ∈ RoleState.capability_grants s ∧ CapabilityGrant.key g = (subject, target) ∧
       permission ∈ CapabilityGrant.permissions g ∧
       fltb now (CapabilityGrant.expires_at g) = true).
Proof.
  intros Hwf. unfold RoleState.allows, _finite.
  destruct (isfinite now) eqn:Hnow; simpl; [|split; [done|intros [? _]; done]].
  destruct (RoleState.assignment_for s subject) as [a|] eqn:Ha.
  2:{ split; [done|]. intros (_ & (r & x & Hx & _) & _). congruence. }
  destruct (RoleState.assignment_for s target) as [b|] eqn:Hb.
  2:{ split; [done|]. intros (_ & _ & (r & x & Hx & _) & _). congruence. }
  destruct (RoleAssignment.revoked a || RoleAssignment.paused a || RoleAssignment.revoked b
            || RoleAssignment.paused b) eqn:Hlive.
  { split; [done|]. intros (_ & (ra & x & Hx & Hx1 & Hx2 & _) & (rb & y & Hy & Hy1 & Hy2 & _) & _).
    simplify_eq. by rewrite Hx1, Hx2, Hy1, Hy2 in Hlive. }
  to_prop.
  assert (HA : ∀ r, at_work s subject r ↔ r ∈ RoleAssignment.roles a) by (intros; by apply at_work_iff).
  assert (HB : ∀ r, at_work s target r ↔ r ∈ RoleAssignment.roles b) by (intros; by apply at_work_iff).
  pose proof (wf_assignment_valid _ _ _ Hwf Ha) as (_ & _ & Hva).
  pose proof (wf_assignment_valid _ _ _ Hwf Hb) as (_ & _ & Hvb).
  destruct (set_choose_L _ (RoleAssignment.valid_nonempty _ Hva)) as [ra Hra%HA].
  destruct (set_choose_L _ (RoleAssignment.valid_nonempty _ Hvb)) as [rb Hrb%HB].
  unfold RoleAssignment.has.
  destruct (decide (subject = target)) as [->|Hne]; [split; eauto 10|].
  destruct (decide (COORDINATOR ∈ RoleAssignment.roles a)) as [HC|HC].
  - rewrite (bool_decide_eq_true_2 (COORDINATOR ∈ _)), bool_decide_eq_true by done.
    rewrite !HA, !HB. split; [eauto 10|]. intros (_ & _ & _ & [?|[[_ ?]|[? _]]]); done.
  - rewrite (bool_decide_eq_false_2 (COORDINATOR ∈ _)), !andb_true_iff, !bool_decide_eq_true by done.
    rewrite !HA, !HB, (grant_permits s subject target permission now) by done.
    split; [intros [[? ?] ?]; split_and!; eauto 10|].
    intros (_ & _ & _ & [?|[[? _]|(_ & ? & ? & ?)]]); done.
Qed.

Lemma allows_exact_witness :
  RoleState.allows sample_state node_s node_w READ_STATE (flit 150) = true ∧
  RoleState.allows sample_state node_s node_w READ_STATE (flit 300) = false ∧
  at_work sample_state node_w WORKER.
Proof.
  assert (H : RoleState.allows sample_state node_s node_w READ_STATE (flit 150) = true) by reflexivity.
  split; [exact H|]. split; [reflexivity|].
  apply (allows_exact sample_state node_s node_w READ_STATE (flit 150) sample_wf) in H
    as (_ & _ & _ & [Heq|[(_ & Hw)|(_ & _ & Hw & _)]]); [discriminate Heq|exact Hw..].
Defined.
