(* ===== verification/LeaseSpec.v ===== *)
(** * Leases, fencing and promotion

    Theorems on [renew_lease], [promote_subcoordinator] and [rejoin_as_worker]. *)

From S2P Require Import Prelude PyFloat Identity ClusterModels Roles RolesFacts RolesSpec.

(** ** Renewal *)

(** A renewal that returns, with its guards; the dates are compared as numbers. *)
Lemma renew_Ok e coordinator_id token now duration e' :
  renew_lease e coordinator_id token now duration = Ok e' →
  coordinator_id = CoordinatorEpoch.coordinator_id e ∧
  token = CoordinatorEpoch.fencing_token e ∧
  isfinite now = true ∧
  fleb (CoordinatorEpoch.lease_expires_at e) now = false ∧
  e' = CoordinatorEpoch.mk (CoordinatorEpoch.epoch e) coordinator_id token
         (fmax (CoordinatorEpoch.issued_at e) now)
         (fmax (CoordinatorEpoch.lease_expires_at e) (fadd now duration)) ∧
  CoordinatorEpoch.valid e'.
Proof.
  intros H. unfold renew_lease, _valid_time, _finite, compare_digest in H. repeat res_step.
  destruct (is_ascii _ && is_ascii _); repeat res_step. to_prop. subst. to_prop. subst.
  apply CoordinatorEpoch.epoch_Ok in H as [-> Hv']. done.
Qed.

(** A heartbeat renews a lease only before its expiry and only for the current
    coordinator and fencing token; renewal keeps the epoch, its owner and its
    token, never moves the issue time or the expiry backwards, sets the expiry to the
    later of the old one and now plus the duration, and gives a valid epoch again. *)
Theorem renew_lease_sound e coordinator_id token now duration e' :
  CoordinatorEpoch.valid e →
  renew_lease e coordinator_id token now duration = Ok e' →
  coordinator_id = CoordinatorEpoch.coordinator_id e ∧
  token = CoordinatorEpoch.fencing_token e ∧
  fltb now (CoordinatorEpoch.lease_expires_at e) = true ∧
  CoordinatorEpoch.epoch e' = CoordinatorEpoch.epoch e ∧
  CoordinatorEpoch.coordinator_id e' = coordinator_id ∧
  CoordinatorEpoch.fencing_token e' = token ∧
  fleb (CoordinatorEpoch.issued_at e) (CoordinatorEpoch.issued_at e') = true ∧
  fleb (CoordinatorEpoch.lease_expires_at e) (CoordinatorEpoch.lease_expires_at e') = true ∧
  CoordinatorEpoch.lease_expires_at e'
    = fmax (CoordinatorEpoch.lease_expires_at e) (fadd now duration) ∧
  CoordinatorEpoch.valid e'.
Proof.
  intros Hv H. destruct (renew_Ok _ _ _ _ _ _ H) as (Hid & Htok & Hfin & Hnow & -> & Hv').
  pose proof (CoordinatorEpoch.valid_facts _ Hv) as (_ & Hi & Hl & _).
  pose proof (CoordinatorEpoch.valid_facts _ Hv') as (_ & Hi' & Hl' & _). simpl in *.
  split_and!; try done.
  - apply fleb_false_fltb; auto with pyfloat.
  - apply fleb_fmax_l. by apply isfinite_not_nan.
  - apply fleb_fmax_l. by apply isfinite_not_nan.
Qed.

Lemma renew_lease_sound_witness :
  ∃ e', renew_lease sample_epoch node_c "token" (flit 150) (flit 120) = Ok e' ∧
    CoordinatorEpoch.valid e' ∧ CoordinatorEpoch.lease_expires_at e' = flit 270.
Proof.
  run (renew_lease sample_epoch node_c "token" (flit 150) (flit 120)) as [e' E].
  exists e'. destruct (renew_lease_sound _ _ _ _ _ _ sample_epoch_valid E)
    as (_ & _ & _ & _ & _ & _ & _ & _ & Hx & Hv).
  split; [exact E|]. split; [exact Hv|]. rewrite Hx. reflexivity.
Defined.

(** Renewal and promotion never overlap: at an instant at which the coordinator
    can renew its lease, no promotion succeeds, so the boundary of the lease belongs
    to promotion alone. *)
Theorem lease_and_promotion_exclude s e coordinator_id token now duration e' auth fresh :
  RoleState.epoch s = Some e →
  renew_lease e coordinator_id token now duration = Ok e' →
  ∃ err, promote_subcoordinator s now auth fresh = Err err ∧ exn_cls err = FencingError.
Proof.
  intros He H. unfold renew_lease, _valid_time in H. repeat res_step. to_prop. subst.
  unfold promote_subcoordinator, _valid_time. rewrite He.
  match goal with H : _finite _ = true |- _ => rewrite H end. simpl.
  destruct (next_subcoordinator _) as [[sub n]|]; [|by eexists].
  destruct (can_promote _ _ _ _) eqn:Hc; [exfalso|by eexists].
  unfold can_promote in Hc. rewrite He in Hc. to_prop. congruence.
Qed.

Lemma lease_and_promotion_exclude_witness :
  ∃ err, promote_subcoordinator sample_state (flit 150) true "fresh" = Err err ∧
    exn_cls err = FencingError.
Proof.
  run (renew_lease sample_epoch node_c "token" (flit 150) (flit 120)) as [e' E].
  apply (lease_and_promotion_exclude sample_state sample_epoch node_c "token" (flit 150) (flit 120) e');
    [reflexivity|exact E].
Defined.

(** ** Promotion *)

(** Every other node after a promotion. *)
Definition demoted (a : RoleAssignment) : RoleAssignment :=
  RoleAssignment.mk {[WORKER]} (RoleAssignment.node_id a) (RoleAssignment.paused a)
    (RoleAssignment.revoked a) (RoleAssignment.has_active_job a).

Definition promoted_assignment (n : NodeId) : RoleAssignment :=
  RoleAssignment.mk {[COORDINATOR; WORKER]} (Some n) false false false.

Definition after_promotion (n : NodeId) (l : list RoleAssignment) : list RoleAssignment :=
  (λ a, if decide (RoleAssignment.node_id a = Some n) then promoted_assignment n else demoted a)
  <$> l.

(** The state built from a decision ([FailoverCoordinator.promote_if_due]). *)
Definition promoted_state (s : RoleState.t) (d : PromotionDecision.t) : RoleState.t :=
  RoleState.mk (PromotionDecision.assignments d) (Some (PromotionDecision.epoch d))
    (RoleState.promotion_epochs s ∪ {[(CoordinatorEpoch.epoch (PromotionDecision.epoch d) - 1)%Z]})
    (PromotionDecision.capability_grants d).

Lemma ids_fmap (f : RoleAssignment → RoleAssignment) l :
  (∀ a, a ∈ l → RoleAssignment.node_id (f a) = RoleAssignment.node_id a) →
  ids (f <$> l) = ids l.
Proof.
  induction l as [|a l IH]; intros H; [done|].
  rewrite fmap_cons, !ids_cons, H, IH by set_solver. done.
Qed.

Lemma demoted_valid a : RoleAssignment.valid a → RoleAssignment.valid (demoted a).
Proof. intros []. split; simpl; try done; set_solver. Qed.

Lemma idle_worker_valid n v : RoleAssignment.valid (RoleAssignment.mk {[WORKER]} n false v false).
Proof. split; simpl; [set_solver..|apply andb_false_r]. Qed.

Lemma promoted_valid n : RoleAssignment.valid (promoted_assignment n).
Proof. split; simpl; try done; set_solver. Qed.

Lemma after_promotion_ids n l : ids (after_promotion n l) = ids l.
Proof. apply ids_fmap. intros a _. case_decide; simpl; congruence. Qed.

Lemma elem_of_after_promotion n l x : x ∈ after_promotion n l ↔
  ∃ a, a ∈ l ∧ x = if decide (RoleAssignment.node_id a = Some n)
                    then promoted_assignment n else demoted a.
Proof. unfold after_promotion. rewrite list_elem_of_fmap. naive_solver. Qed.

Lemma active_demoted r a : r ≠ WORKER → active r (demoted a) = false.
Proof.
  intros. unfold active, RoleAssignment.has. simpl. rewrite bool_decide_eq_false_2 by set_solver.
  apply andb_false_r.
Qed.

Lemma active_after_promotion r n l x : r ≠ WORKER → x ∈ after_promotion n l →
  active r x = true → x = promoted_assignment n ∧ r = COORDINATOR.
Proof.
  intros Hr (a & _ & ->)%elem_of_after_promotion Hx. case_decide.
  - split; [done|]. unfold active, RoleAssignment.has in Hx. simpl in Hx.
    apply bool_decide_eq_true in Hx. set_solver.
  - by rewrite active_demoted in Hx.
Qed.

(** Without a Subcoordinator no grant has an authority to lend. *)
Lemma prune_after_promotion n l gs : NoDup (ids l) →
  _prune_capability_grants (after_promotion n l) gs = [].
Proof.
  intros Hnd. destruct (_prune_capability_grants _ gs) as [|g gs'] eqn:E; [done|]. exfalso.
  assert (Hg : g ∈ _prune_capability_grants (after_promotion n l) gs) by (rewrite E; set_solver).
  rewrite elem_of_prune in Hg by (by rewrite after_promotion_ids).
  destruct Hg as (_ & (a & Ha & _ & Hact) & _).
  by apply (active_after_promotion _ n l) in Hact as [_ ?].
Qed.

Lemma demote_map n l : Forall RoleAssignment.valid l →
  mapM (λ a, if decide (RoleAssignment.node_id a = Some n) then Ok (promoted_assignment n)
             else RoleAssignment.replace_roles a {[WORKER]}) l = Ok (after_promotion n l).
Proof.
  intros Hv. apply mapM_Ok. intros a Ha. case_decide; [done|].
  unfold RoleAssignment.replace_roles. rewrite Forall_forall in Hv.
  apply RoleAssignment.__post_init__worker. by apply Hv.
Qed.

Lemma new_promoted n : RoleAssignment.new {[COORDINATOR; WORKER]} n = Ok (promoted_assignment n).
Proof. exact (RoleAssignment.__post_init__id _ (promoted_valid n)). Qed.

Lemma after_promotion_shape n l p gs : NoDup (ids l) → (∀ e, e ∈ p → (0 ≤ e)%Z) →
  shape (after_promotion n l) p (_prune_capability_grants (after_promotion n l) gs).
Proof.
  intros Hnd Hp. rewrite prune_after_promotion by done. split; simpl.
  - by rewrite after_promotion_ids.
  - intros a b m m' Ha Hb Hm Hm' HA HB.
    apply (active_after_promotion _ n l) in HA as [-> _]; [|done..].
    apply (active_after_promotion _ n l) in HB as [-> _]; [|done..]. by simplify_eq/=.
  - intros a b m m' Ha Hb Hm Hm' HA HB. by apply (active_after_promotion _ n l) in HA as [_ ?].
  - constructor.
  - done.
Qed.

Lemma next_subcoordinator_Some l a n : next_subcoordinator l = Some (a, n) →
  a ∈ l ∧ RoleAssignment.node_id a = Some n ∧ RoleState.usable SUBCOORDINATOR (Some a) = true.
Proof.
  unfold next_subcoordinator. intros H. simplify_option_eq.
  match goal with H : List.find _ _ = _ |- _ => apply find_Some_spec in H as [? [? ?]%andb_true_iff] end.
  done.
Qed.

Lemma promote_Ok s now auth fresh d : wf s → promote_subcoordinator s now auth fresh = Ok d →
  ∃ e sub n, RoleState.epoch s = Some e ∧
    next_subcoordinator (RoleState.assignments s) = Some (sub, n) ∧
    can_promote s n now auth = true ∧
    d = PromotionDecision.mk (promoted_assignment n)
          (CoordinatorEpoch.mk (CoordinatorEpoch.epoch e + 1) n fresh now
             (fadd now HEARTBEAT_TIMEOUT_SECONDS))
          (after_promotion n (RoleState.assignments s)) [] ∧
    CoordinatorEpoch.valid (PromotionDecision.epoch d) ∧
    wf (promoted_state s d).
Proof.
  intros Hwf H. unfold promote_subcoordinator in H.
  destruct (RoleState.epoch s) as [e|] eqn:He; [|done]. unfold _valid_time in H. repeat res_step. subst.
  destruct (next_subcoordinator _) as [[sub n]|] eqn:Hn; [|done]. repeat res_step. to_prop.
  rewrite new_promoted in *. repeat res_step. subst.
  match goal with H : mapM _ _ = _ |- _ => rewrite demote_map in H by apply Hwf end.
  repeat res_step. subst.
  match goal with H : CoordinatorEpoch.__post_init__ _ _ _ _ _ = _ |- _ =>
    apply CoordinatorEpoch.epoch_Ok in H as [-> Hv] end.
  assert (Hnd : NoDup (ids (RoleState.assignments s))) by apply Hwf.
  exists e, sub, n. split_and!; try done.
  - by rewrite prune_after_promotion.
  - split; simpl.
    + apply after_promotion_shape; [done|]. intros z. rewrite elem_of_union, elem_of_singleton.
      intros [?| ->]; [by eapply shape_promotions; [apply Hwf|]|].
      pose proof (CoordinatorEpoch.valid_facts e (wf_epoch _ Hwf _ He)). lia.
    + apply Forall_forall. intros x (a & Ha & ->)%elem_of_after_promotion.
      pose proof (wf_assignments _ Hwf) as HF. rewrite Forall_forall in HF.
      case_decide; [apply promoted_valid|by apply demoted_valid, HF].
    + intros e' ?. by simplify_eq.
    + rewrite prune_after_promotion by done. constructor.
Qed.

(** The promoted node alone controls the cluster. *)
Lemma promoted_controls s sub n ep : NoDup (ids (RoleState.assignments s)) →
  sub ∈ RoleState.assignments s → RoleAssignment.node_id sub = Some n →
  CoordinatorEpoch.coordinator_id ep = n →
  ∀ m, controls (promoted_state s (PromotionDecision.mk (promoted_assignment n) ep
         (after_promotion n (RoleState.assignments s)) [])) m ↔ m = n.
Proof.
  intros Hnd Hsub Hsn Hep m. split.
  - intros (c & Hl & Hr & _ & HC & Hm). rewrite <- Hep. symmetry. by apply Hm.
  - intros ->. exists (promoted_assignment n). split_and!; try done.
    + apply assignment_for_Some; [simpl; by rewrite after_promotion_ids|]. split; [|done].
      apply elem_of_after_promotion. exists sub. by rewrite decide_True.
    + intros e' ?. by simplify_eq/=.
Qed.

(** The guards under which a promotion goes through. *)
Lemma promote_run s e n now fresh : wf s → RoleState.epoch s = Some e → isfinite now = true →
  fleb (CoordinatorEpoch.lease_expires_at e) now = true → at_work s n SUBCOORDINATOR →
  CoordinatorEpoch.epoch e ∉ RoleState.promotion_epochs s →
  let ep := CoordinatorEpoch.mk (CoordinatorEpoch.epoch e + 1) n fresh now
              (fadd now HEARTBEAT_TIMEOUT_SECONDS) in
  CoordinatorEpoch.valid ep →
  promote_subcoordinator s now true fresh =
    Ok (PromotionDecision.mk (promoted_assignment n) ep (after_promotion n (RoleState.assignments s)) [])
  ∧ ∃ sub, sub ∈ RoleState.assignments s ∧ RoleAssignment.node_id sub = Some n.
Proof.
  intros Hwf He Hnow Hdue (a & Ha & Har & Hap & HaS) Hp ep Hv.
  assert (Hnd : NoDup (ids (RoleState.assignments s))) by apply Hwf.
  assert (Hua : RoleState.usable SUBCOORDINATOR (Some a) = true).
  { unfold RoleState.usable, RoleAssignment.has. by rewrite Har, Hap, bool_decide_eq_true_2. }
  pose proof (wf_assignment_valid _ _ _ Hwf Ha) as (Hin & Han & _).
  assert (Hnext : ∃ sub, next_subcoordinator (RoleState.assignments s) = Some (sub, n)).
  { unfold next_subcoordinator. destruct (List.find _ _) as [b|] eqn:Hf.
    - apply find_Some_spec in Hf as [Hb [Hbb Hub]%andb_true_iff]. simpl.
      unfold is_bound in Hbb. destruct (RoleAssignment.node_id b) as [m|] eqn:Hbm; [|done].
      exists b. simpl. do 2 f_equal.
      eapply (shape_subcoordinator _ _ _ (wf_shape _ Hwf) b a); try done;
        unfold RoleState.usable, active in *; by to_prop; apply andb_true_iff;
        rewrite negb_true_iff.
    - apply (find_None_spec _ _ a) in Hf; [|done]. unfold is_bound in Hf. by rewrite Han, Hua in Hf. }
  destruct Hnext as [sub Hnext]. split.
  2:{ apply next_subcoordinator_Some in Hnext as (? & ? & _). eauto. }
  unfold promote_subcoordinator, _valid_time, can_promote, _finite.
  rewrite He, Hnow, Hnext. cbn [negb raise_if mbind result_bind]. rewrite Hnow, Hdue, Ha, Hua.
  rewrite bool_decide_eq_false_2 by done. cbn [negb andb raise_if mbind result_bind].
  unfold CoordinatorEpoch.valid in Hv. simpl in Hv. rewrite Hv. cbn [mbind result_bind].
  rewrite new_promoted. cbn [mbind result_bind]. rewrite demote_map by apply Hwf.
  cbn [mbind result_bind]. by rewrite prune_after_promotion.
Qed.

(** Promotion moves ownership exactly once and completely: it needs an expired
    lease, an authenticated request and an epoch not promoted from before; it takes
    the next epoch under the fresh fencing token, makes the Subcoordinator the only
    node that controls the cluster (every other node becomes a plain Worker), drops
    every capability grant, keeps the membership, and yields a well-formed state
    from which the same promotion is refused. *)
Theorem promotion_transfers_control s now auth fresh d :
  wf s → promote_subcoordinator s now auth fresh = Ok d →
  let s' := promoted_state s d in
  ∃ e n, RoleState.epoch s = Some e ∧ auth = true ∧
    fleb (CoordinatorEpoch.lease_expires_at e) now = true ∧
    (CoordinatorEpoch.epoch e ∉ RoleState.promotion_epochs s) ∧
    CoordinatorEpoch.epoch (PromotionDecision.epoch d) = (CoordinatorEpoch.epoch e + 1)%Z ∧
    CoordinatorEpoch.fencing_token (PromotionDecision.epoch d) = fresh ∧
    wf s' ∧
    CoordinatorEpoch.coordinator_id (PromotionDecision.epoch d) = n ∧
    (∀ m, controls s' m ↔ m = n) ∧
    ids (RoleState.assignments s') = ids (RoleState.assignments s) ∧
    RoleState.capability_grants s' = [] ∧
    (∀ m, can_promote s' m now auth = false).
Proof.
  intros Hwf H. destruct (promote_Ok _ _ _ _ _ Hwf H) as (e & sub & n & He & Hn & Hc & -> & Hv & Hwf').
  pose proof (next_subcoordinator_Some _ _ _ Hn) as (Hsub & Hsn & _).
  unfold can_promote in Hc. rewrite He in Hc. to_prop. exists e, n.
  assert (Hids : ids (after_promotion n (RoleState.assignments s)) = ids (RoleState.assignments s))
    by apply after_promotion_ids.
  assert (Hnone : ∀ m, can_promote (promoted_state s (PromotionDecision.mk (promoted_assignment n)
          (CoordinatorEpoch.mk (CoordinatorEpoch.epoch e + 1) n fresh now
             (fadd now HEARTBEAT_TIMEOUT_SECONDS))
          (after_promotion n (RoleState.assignments s)) [])) m now auth = false).
  { intros m. apply not_true_is_false. intros Hcp. unfold can_promote in Hcp. simpl in Hcp. to_prop.
    match goal with H : RoleState.usable _ _ = true |- _ => rename H into Hu end. unfold RoleState.usable in Hu. destruct (RoleState.assignment_for _ m) as [x|] eqn:Hx; [|done].
    to_prop. apply assignment_for_Some in Hx as [Hx _]; [|simpl; rewrite Hids; apply Hwf].
    simpl in Hx. destruct (active_after_promotion SUBCOORDINATOR n (RoleState.assignments s) x) as [_ ?]; try done.
    unfold active. apply andb_true_iff. by rewrite negb_true_iff. }
  split_and!; try done.
  apply (promoted_controls s sub); try done. apply Hwf.
Qed.

Lemma promotion_transfers_control_witness :
  ∃ d, promote_subcoordinator sample_state (flit 220) true "fresh" = Ok d ∧
    controls (promoted_state sample_state d) node_s ∧ ¬ controls (promoted_state sample_state d) node_c.
Proof.
  run (promote_subcoordinator sample_state (flit 220) true "fresh") as [d E].
  destruct (promotion_transfers_control _ _ _ _ _ sample_wf E)
    as (e & n & _ & _ & _ & _ & _ & _ & _ & <- & Hc & _).
  exists d. split; [exact E|].
  assert (Hn : controls (promoted_state sample_state d) node_s).
  { apply Hc. eapply bool_decide_eq_true_1. apply (ok_fact (λ d, bool_decide (node_s = CoordinatorEpoch.coordinator_id
      (PromotionDecision.epoch d))) _ _ E).
    vm_compute. reflexivity. }
  split; [done|]. rewrite Hc. apply Hc in Hn as <-. discriminate.
Defined.

(** ** Rejoining *)

(** What [rejoin_as_worker] returns: the state itself, or the Coordinator's
    assignment replaced by an idle Worker. *)
Lemma rejoin_Ok s node current s' : wf s → rejoin_as_worker s node current = Ok s' →
  (∀ e, RoleState.epoch s = Some e → current = CoordinatorEpoch.epoch e) ∧
  ((s' = s ∧ ∀ a, RoleState.assignment_for s node = Some a → COORDINATOR ∉ RoleAssignment.roles a) ∨
   ∃ a, RoleState.assignment_for s node = Some a ∧ COORDINATOR ∈ RoleAssignment.roles a ∧
     let a' := RoleAssignment.mk {[WORKER]} (Some node) false (RoleAssignment.revoked a) false in
     (∀ r, active r a' = true → active r a = true) ∧
     s' = updated s node a' (RoleState.capability_grants s)).
Proof.
  intros Hwf H. unfold rejoin_as_worker in H. repeat res_step. split.
  { intros e He. rewrite He in *. to_prop. lia. }
  destruct (RoleState.assignment_for s node) as [a|] eqn:Ha; [|left; by simplify_eq].
  unfold RoleAssignment.has in H. case_bool_decide as HC; simpl in H.
  2:{ left. simplify_eq. split; [done|]. intros; by simplify_eq. }
  right. exists a. split; [done|]. split; [done|].
  rewrite RoleAssignment.__post_init__worker in H by apply andb_false_r. simpl in H.
  pose proof (wf_assignment_valid _ _ _ Hwf Ha) as (_ & Hn & Hv). rewrite Hn in H.
  intros a'.
  assert (Hact : ∀ r, active r a' = true → active r a = true).
  { intros r. unfold active, RoleAssignment.has, a'. simpl.
    rewrite !andb_true_iff, !bool_decide_eq_true. intros [? ->%elem_of_singleton].
    split; [done|]. by apply RoleAssignment.valid_coord. }
  split; [done|]. change (RoleState._replace s a' = Ok s') in H.
  rewrite (replace_updated s node a a' Hwf Ha eq_refl Hact) in H. by simplify_eq.
Qed.

Lemma rejoin_wf s node current s' : wf s → rejoin_as_worker s node current = Ok s' → wf s'.
Proof.
  intros Hwf H. destruct (rejoin_Ok _ _ _ _ Hwf H) as [_ [[-> _]|(a & Ha & HC & Hact & ->)]]; [done|].
  eapply updated_wf; try done; try apply Hwf. apply idle_worker_valid.
Qed.

(** A returning Coordinator is readmitted only under the current epoch, and then
    only as an idle Worker: it no longer controls the cluster, everything else is
    unchanged, and a stale or future epoch is refused. *)
Theorem rejoin_demotes s node current s' :
  wf s → rejoin_as_worker s node current = Ok s' →
  (∀ e, RoleState.epoch s = Some e → current = CoordinatorEpoch.epoch e) ∧
  wf s' ∧ ¬ controls s' node ∧
  RoleState.epoch s' = RoleState.epoch s ∧
  RoleState.capability_grants s' = RoleState.capability_grants s ∧
  (∀ m, m ≠ node → RoleState.assignment_for s' m = RoleState.assignment_for s m).
Proof.
  intros Hwf H. destruct (rejoin_Ok _ _ _ _ Hwf H) as [Hcur [[-> Hnot]|(a & Ha & HC & Hact & ->)]].
  { split_and!; try done. intros (c & Hc & _ & _ & ? & _). by apply Hnot in Hc. }
  split_and!; try done.
  - by eapply rejoin_wf.
  - intros (c & Hc & _ & _ & HCc & _).
    erewrite assignment_for_updated, decide_True in Hc by done. simplify_eq/=. set_solver.
  - intros m Hm. by erewrite assignment_for_updated, decide_False.
Qed.

Lemma rejoin_demotes_witness :
  ∃ s', rejoin_as_worker sample_state node_c 1 = Ok s' ∧ wf s' ∧ ¬ controls s' node_c.
Proof.
  run (rejoin_as_worker sample_state node_c 1) as [s' E].
  exists s'. destruct (rejoin_demotes _ _ _ _ sample_wf E) as (_ & Hwf & Hc & _).
  split; [exact E|]. split; [exact Hwf|exact Hc].
Defined.
