(* ===== verification/Failover.v ===== *)
(** * Durable failover ([cluster/failover.py])

    [FailoverCoordinator] wraps the pure decisions of [Roles]: every method computes
    a candidate state, persists it and only then publishes it.  The persistence
    callback is an argument; the world it writes to is the field [durable]. *)

From S2P Require Import Prelude PyFloat Identity ClusterModels Roles RolesFacts RolesSpec LeaseSpec.
From stdpp Require Import relations.

Module FailoverCoordinator.
Section methods.
Context {D : Type} (_persist : option (D → RoleState.t → D * result ())).

Record t := mk { state : RoleState.t; durable : D }.

Definition _commit (candidate : RoleState.t) : M t () := λ c,
  match _persist with
  | Some persist =>
      match persist (durable c) candidate with
      | (d', Ok _) => (mk candidate d', Ok ())
      | (d', Err e) => (mk (state c) d', Err e)
      end
  | None => (mk candidate (durable c), Ok ())
  end.

(** [replace(state, epoch=epoch)] *)
Definition replace_epoch (s : RoleState.t) (epoch : CoordinatorEpoch.t) : result RoleState.t :=
  RoleState.__post_init__ (RoleState.assignments s) (Some epoch) (RoleState.promotion_epochs s)
    (RoleState.capability_grants s).

(** A [FencingError] of [m] becomes [return False]; a candidate is committed. *)
Definition commit_or_false (m : result RoleState.t) : M t bool := λ c,
  match m with
  | Ok candidate => (_commit candidate;; mret true) c
  | Err e => if exn_isa e FencingError then (c, Ok false) else (c, Err e)
  end.

Definition heartbeat (coordinator_id : NodeId) (fencing_token : string) (now : float)
    : M t bool := λ c,
  match RoleState.epoch (state c) with
  | None => (c, Ok false)
  | Some epoch =>
      commit_or_false
        (epoch' ← renew_lease epoch coordinator_id fencing_token now HEARTBEAT_TIMEOUT_SECONDS;
         replace_epoch (state c) epoch') c
  end.

(** The state [promote_if_due] builds from a decision. *)
Definition promotion_candidate (s : RoleState.t) (decision : PromotionDecision.t)
    : result RoleState.t :=
  let epoch := PromotionDecision.epoch decision in
  RoleState.__post_init__ (PromotionDecision.assignments decision) (Some epoch)
    (RoleState.promotion_epochs s ∪ {[(CoordinatorEpoch.epoch epoch - 1)%Z]})
    (PromotionDecision.capability_grants decision).

Definition promote_if_due (now : float) (fresh : string) : M t bool := λ c,
  match promote_subcoordinator (state c) now true fresh with
  | Err e => if exn_isa e FencingError then (c, Ok false) else (c, Err e)
  | Ok decision =>
      match promotion_candidate (state c) decision with
      | Err e => (c, Err e)
      | Ok candidate => (_commit candidate;; mret true) c
      end
  end.

Definition rejoin_as_worker (node_id : NodeId) (current_epoch : Z) : M t () := λ c,
  match rejoin_as_worker (state c) node_id current_epoch with
  | Err e => (c, Err e)
  | Ok candidate => _commit candidate c
  end.

Definition assign_role (actor : RoleAssignment) (target : NodeId) (roles : gset ClusterRole)
    (now : float) : M t RoleChange.t := λ c,
  match RoleState.assign (state c) actor target roles now with
  | Err e => (c, Err e)
  | Ok (candidate, change) => (_commit candidate;; mret change) c
  end.

Definition revoke_member (actor : RoleAssignment) (target : NodeId) : M t () := λ c,
  match RoleState.revoke (state c) actor target with
  | Err e => (c, Err e)
  | Ok candidate => _commit candidate c
  end.
End methods.
Arguments t : clear implicits.
Arguments mk {_} _ _.
Arguments state {_} _.
Arguments durable {_} _.
End FailoverCoordinator.

(** * Failover is atomic, fenced and durable

    The methods of [FailoverCoordinator] as a step relation over any persistence callback, then
    over a store whose failed save may have been done, with restarts, and over one with the laws
    of [StateStore]: epochs only grow and an epoch number has one owner. *)

Import FailoverCoordinator.

(** The public methods; the result value is forgotten. *)
Inductive failover_op :=
  | FHeartbeat (coordinator_id : NodeId) (token : string) (now : float)
  | FPromote (now : float) (fresh : string)
  | FRejoin (node : NodeId) (current_epoch : Z)
  | FAssign (actor : RoleAssignment) (target : NodeId) (roles : gset ClusterRole) (now : float)
  | FRevoke (actor : RoleAssignment) (target : NodeId).

(** The candidate a method computes, [None] when it returns without one. *)
Definition candidate (o : failover_op) (s : RoleState.t) : option (result RoleState.t) :=
  match o with
  | FHeartbeat id token now =>
      e ← RoleState.epoch s;
      Some (e' ← renew_lease e id token now HEARTBEAT_TIMEOUT_SECONDS; replace_epoch s e')
  | FPromote now fresh => Some (d ← promote_subcoordinator s now true fresh; promotion_candidate s d)
  | FRejoin n e => Some (Roles.rejoin_as_worker s n e)
  | FAssign actor target roles now => Some (fst <$> RoleState.assign s actor target roles now)
  | FRevoke actor target => Some (RoleState.revoke s actor target)
  end.

Section steps.
Context {D : Type} (save : D → RoleState.t → D * result ()).
Notation obj := (FailoverCoordinator.t D).
Notation persist := (Some save).

Definition perform (o : failover_op) : M obj () :=
  match o with
  | FHeartbeat id token now => _ ← heartbeat persist id token now; mret ()
  | FPromote now fresh => _ ← promote_if_due persist now fresh; mret ()
  | FRejoin n e => rejoin_as_worker persist n e
  | FAssign actor target roles now => _ ← assign_role persist actor target roles now; mret ()
  | FRevoke actor target => revoke_member persist actor target
  end.

(** ** One candidate per method *)

(** Nothing was saved, or the save of [m] was refused. *)
Definition refused (m : result RoleState.t) (c c' : obj) : Prop :=
  durable c' = durable c ∨ ∃ s' e, m = Ok s' ∧ save (durable c) s' = (durable c', Err e).

Lemma commit_cases (s' : RoleState.t) (c c' : obj) r : _commit persist s' c = (c', r) →
  (r = Ok () ∧ state c' = s' ∧ save (durable c) s' = (durable c', Ok ())) ∨
  (is_ok r = false ∧ state c' = state c ∧ refused (Ok s') c c').
Proof.
  unfold _commit, refused. destruct (save (durable c) s') as [d' [[]|e]] eqn:Hs; intros; simplify_eq/=.
  - by left.
  - right. split; [done|]. split; [done|]. right. by exists s', e.
Qed.

Lemma commit_then_cases {A} (a : A) s' (c c' : obj) r :
  (_commit persist s';; mret a) c = (c', r) →
  (r = Ok a ∧ state c' = s' ∧ save (durable c) s' = (durable c', Ok ())) ∨
  (is_ok r = false ∧ state c' = state c ∧ refused (Ok s') c c').
Proof.
  unfold mbind, M_bind, mret, M_ret. destruct (_commit _ _ _) as [c1 r1] eqn:Hc.
  apply commit_cases in Hc as [(-> & ? & ?)|(Hr & ? & ?)]; intros.
  - simplify_eq/=. auto.
  - destruct r1; [done|]. simplify_eq/=. auto.
Qed.

Lemma commit_or_false_cases m (c c' : obj) r : commit_or_false persist m c = (c', r) →
  (r = Ok true ∧ m = Ok (state c') ∧ save (durable c) (state c') = (durable c', Ok ())) ∨
  (state c' = state c ∧ refused m c c' ∧ (is_ok r = true → ∀ s', m ≠ Ok s')).
Proof.
  unfold commit_or_false. destruct m as [s'|e].
  - intros Hc. apply commit_then_cases in Hc as [(-> & <- & ?)|(Hr & ? & ?)]; [by left|right].
    split_and!; try done. intros. congruence.
  - intros. right. case_match; simplify_eq/=; (split_and!; [done|by left|done]).
Qed.

Lemma discard_run {S A} (m : M S A) s s' r : (_ ← m; mret ()) s = (s', r) →
  ∃ r0, m s = (s', r0) ∧ match r0 with Ok _ => r = Ok () | Err e => r = Err e end.
Proof.
  unfold mbind, M_bind, mret, M_ret. destruct (m s) as [s1 r1]. intros H.
  exists r1. destruct r1; by simplify_eq.
Qed.

(** Every method either publishes a saved candidate or publishes nothing. *)
Lemma perform_cases o c c' r : perform o c = (c', r) →
  (r = Ok () ∧ candidate o (state c) = Some (Ok (state c')) ∧ save (durable c) (state c') = (durable c', Ok ())) ∨
  (state c' = state c ∧
     (durable c' = durable c ∨ ∃ m, candidate o (state c) = Some m ∧ refused m c c') ∧
     (r = Ok () → ∀ s', candidate o (state c) ≠ Some (Ok s'))).
Proof.
  intros H. destruct o as [id token now|now fresh|n e|actor tg roles now|actor tg]; simpl in H;
    [apply discard_run in H as (r0 & H & Hr).. | | apply discard_run in H as (r0 & H & Hr)|].
  - unfold heartbeat in H. simpl. destruct (RoleState.epoch (state c)) as [e|]; simpl.
    + apply commit_or_false_cases in H as [(-> & -> & ?)|(-> & Hf & Hn)]; [by left|].
      right. split; [done|]. split; [by right; eexists|]. intros -> s' Hs. destruct r0; [|done]. simplify_eq. by eapply Hn.
    + right. simplify_eq/=. split; [done|]. split; [by left|done].
  - unfold promote_if_due in H. simpl. destruct (promote_subcoordinator _ _ _ _) as [d|err]; simpl.
    + destruct (promotion_candidate _ _) as [s'|err].
      * apply commit_then_cases in H as [(-> & -> & ?)|(Hf & -> & Hd)]; [by left|].
        right. split; [done|]. split; [by right; eexists|]. intros ->. by destruct r0.
      * right. simplify_eq/=. split; [done|]. split; [by left|done].
    + right. destruct (exn_isa err FencingError); simplify_eq/=; (split; [done|]; split; [by left|done]).
  - unfold rejoin_as_worker in H. simpl. destruct (Roles.rejoin_as_worker _ _ _) as [s'|err].
    + apply commit_cases in H as [(-> & -> & ?)|(Hf & -> & Hd)]; [by left|].
      right. split; [done|]. split; [by right; eexists|]. by intros ->.
    + right. simplify_eq/=. split; [done|]. split; [by left|done].
  - unfold assign_role in H. simpl. destruct (RoleState.assign _ _ _ _ _) as [[s' ch]|err]; simpl.
    + apply commit_then_cases in H as [(-> & -> & ?)|(Hf & -> & Hd)]; [by left|].
      right. split; [done|]. split; [by right; eexists|]. intros ->. by destruct r0.
    + right. simplify_eq/=. split; [done|]. split; [by left|done].
  - unfold revoke_member in H. simpl. destruct (RoleState.revoke _ _ _) as [s'|err].
    + apply commit_cases in H as [(-> & -> & ?)|(Hf & -> & Hd)]; [by left|].
      right. split; [done|]. split; [by right; eexists|]. by intros ->.
    + right. simplify_eq/=. split; [done|]. split; [by left|done].
Qed.
End steps.

(** ** Progress of the epoch *)

(** Epochs already promoted from lie in the past. *)
Definition past (s : RoleState.t) : Prop :=
  ∀ e p, RoleState.epoch s = Some e → p ∈ RoleState.promotion_epochs s →
    (p < CoordinatorEpoch.epoch e)%Z.

(** [s'] follows [s]: the epoch number never decreases, every epoch left behind was
    handed over by a promotion, and within an epoch the owner and its token are
    fixed while the lease is only extended. *)
Definition follows (s s' : RoleState.t) : Prop :=
  RoleState.promotion_epochs s ⊆ RoleState.promotion_epochs s' ∧
  match RoleState.epoch s, RoleState.epoch s' with
  | None, None => True
  | Some e, Some e' =>
      (CoordinatorEpoch.epoch e ≤ CoordinatorEpoch.epoch e')%Z ∧
      (∀ k, (CoordinatorEpoch.epoch e ≤ k < CoordinatorEpoch.epoch e')%Z →
         k ∈ RoleState.promotion_epochs s') ∧
      (CoordinatorEpoch.epoch e = CoordinatorEpoch.epoch e' →
         CoordinatorEpoch.coordinator_id e' = CoordinatorEpoch.coordinator_id e ∧
         CoordinatorEpoch.fencing_token e' = CoordinatorEpoch.fencing_token e ∧
         fleb (CoordinatorEpoch.lease_expires_at e) (CoordinatorEpoch.lease_expires_at e') = true)
  | _, _ => False
  end.

Lemma follows_same_epoch s s' : wf s → RoleState.epoch s' = RoleState.epoch s →
  RoleState.promotion_epochs s' = RoleState.promotion_epochs s → follows s s'.
Proof.
  intros Hwf He Hp. split; [by rewrite Hp|]. rewrite He.
  destruct (RoleState.epoch s) as [e|] eqn:E; [|done].
  pose proof (CoordinatorEpoch.valid_facts e (wf_epoch _ Hwf _ E)) as (_ & _ & Hl & _).
  split_and!; [done|lia|]. intros _. split_and!; auto with pyfloat.
Qed.

Lemma follows_trans s1 s2 s3 : follows s1 s2 → follows s2 s3 → follows s1 s3.
Proof.
  intros [Hp H12] [Hp' H23]. split; [set_solver|].
  destruct (RoleState.epoch s1) as [e1|], (RoleState.epoch s2) as [e2|],
    (RoleState.epoch s3) as [e3|]; try done.
  destruct H12 as (Hle & Hk & Heq), H23 as (Hle' & Hk' & Heq'). split_and!.
  - lia.
  - intros k ?. destruct (decide (k < CoordinatorEpoch.epoch e2)%Z).
    + apply Hp', Hk. lia.
    + apply Hk'. lia.
  - intros. destruct Heq as (? & ? & ?); [lia|]. destruct Heq' as (? & ? & ?); [lia|].
    split_and!; [congruence..|]. by eapply fleb_trans.
Qed.

Lemma past_same s s' : past s → RoleState.epoch s' = RoleState.epoch s →
  RoleState.promotion_epochs s' = RoleState.promotion_epochs s → past s'.
Proof. intros H He Hp e p. rewrite He, Hp. apply H. Qed.

(** What a candidate preserves. *)
Definition good (s s' : RoleState.t) : Prop := wf s' ∧ past s' ∧ follows s s'.

Lemma good_same s s' : wf s → past s → wf s' → RoleState.epoch s' = RoleState.epoch s →
  RoleState.promotion_epochs s' = RoleState.promotion_epochs s → good s s'.
Proof.
  intros. split; [done|]. split; [by eapply past_same|by apply follows_same_epoch].
Qed.

Lemma heartbeat_good s e e' id token now s' : wf s → past s → RoleState.epoch s = Some e →
  renew_lease e id token now HEARTBEAT_TIMEOUT_SECONDS = Ok e' → replace_epoch s e' = Ok s' →
  good s s'.
Proof.
  intros Hwf Hpast He Hr H. unfold replace_epoch in H. apply post_init_Ok in H as [-> Hs].
  destruct (renew_Ok _ _ _ _ _ _ Hr) as (-> & -> & _ & _ & -> & Hv).
  pose proof (CoordinatorEpoch.valid_facts e (wf_epoch _ Hwf _ He)) as (_ & _ & Hl & _).
  split_and!.
  - split; simpl; [done|apply Hwf|by intros; simplify_eq|apply Hwf].
  - intros x p ?. simplify_eq/=. by apply Hpast.
  - split; [done|]. rewrite He. simpl. split_and!; [lia|lia|]. intros _. split_and!; [done..|].
    apply fleb_fmax_l. auto with pyfloat.
Qed.

Lemma promotion_candidate_eq s now fresh d : wf s → promote_subcoordinator s now true fresh = Ok d →
  promotion_candidate s d = Ok (promoted_state s d).
Proof.
  intros Hwf H. apply post_init_Ok. split; [done|].
  destruct (promote_Ok _ _ _ _ _ Hwf H) as (e & sub & n & _ & _ & _ & _ & _ & Hwf').
  apply Hwf'.
Qed.

Lemma promote_good s now fresh d s' : wf s → past s →
  promote_subcoordinator s now true fresh = Ok d → promotion_candidate s d = Ok s' → good s s'.
Proof.
  intros Hwf Hpast H Hs'. rewrite (promotion_candidate_eq s now fresh) in Hs' by done. simplify_eq.
  destruct (promote_Ok _ _ _ _ _ Hwf H) as (e & sub & n & He & _ & _ & -> & _ & Hwf').
  split_and!; [done|..].
  - intros x p ?. simplify_eq/=. rewrite elem_of_union, elem_of_singleton.
    intros [Hp| ->]; [|lia]. specialize (Hpast e p He Hp). lia.
  - split; simpl; [set_solver|]. rewrite He. simpl. split_and!; [lia| |lia].
    intros k ?. assert (k = CoordinatorEpoch.epoch e + 1 - 1)%Z as -> by lia. set_solver.
Qed.

Lemma candidate_good o s s' : wf s → past s → candidate o s = Some (Ok s') → good s s'.
Proof.
  intros Hwf Hpast H. destruct o as [id token now|now fresh|n e|actor tg roles now|actor tg]; simpl in H.
  - destruct (RoleState.epoch s) as [e|] eqn:He; [|done]. simpl in H. simplify_eq. repeat res_step.
    by eapply heartbeat_good.
  - simplify_eq. repeat res_step. by eapply promote_good.
  - simplify_eq. pose proof (rejoin_wf _ _ _ _ Hwf H).
    destruct (rejoin_Ok _ _ _ _ Hwf H) as [_ [[-> _]|(a & _ & _ & _ & ->)]]; by apply good_same.
  - simplify_eq. assert (Hr : run_op s actor (OpAssign tg roles now) = Ok s') by done.
    apply run_op_wf in Hr as Hwf'; [|done]. destruct (RoleState.assign _ _ _ _ _) as [[s1 ch]|] eqn:E; [|done].
    simplify_eq/=. unfold RoleState.assign in E. repeat res_step.
    match goal with H : RoleState.__post_init__ _ _ _ _ = Ok _ |- _ =>
      apply post_init_Ok in H as [-> _] end. simplify_eq. by apply good_same.
  - simplify_eq. assert (Hr : run_op s actor (OpRevoke tg) = Ok s') by done.
    apply run_op_wf in Hr as Hwf'; [|done]. rewrite revoke_run in H by done. repeat res_step. subst.
    by apply good_same.
Qed.

(** ** A store whose failed save may have been done *)

(** A save that returns is durable; one that raises left the old document or the new one.  Such
    is the callback of the runtime, which writes the trust file too: the cluster file may be
    written when it raises. *)
Class UncertainStore (D S : Type) := {
  unsure_save : D → S → D * result ();
  unsure_load : D → option S;
  unsure_save_Ok : ∀ d s d' u, unsure_save d s = (d', Ok u) → unsure_load d' = Some s;
  unsure_save_Err : ∀ d s d' e, unsure_save d s = (d', Err e) →
    unsure_load d' = unsure_load d ∨ unsure_load d' = Some s }.

#[export] Instance certain_store {D X} `{!StateStore D X} : UncertainStore D X.
Proof.
  refine {| unsure_save := store_save; unsure_load := store_load |}.
  - intros d s d' u. apply store_save_Ok.
  - intros d s d' e Hs. left. by eapply store_save_Err.
Defined.

Section uncertain.
Context {D : Type} `{!UncertainStore D RoleState.t}.
Notation obj := (FailoverCoordinator.t D).

(** A method, whether it returns or raises; or a restart, which publishes what is stored. *)
Inductive failover_step (c c' : obj) : Prop :=
  | failover_call o r : perform unsure_save o c = (c', r) → failover_step c c'
  | failover_restart s : unsure_load (durable c) = Some s → c' = FailoverCoordinator.mk s (durable c) →
      failover_step c c'.

(** What is stored is published, or was about to be when its save failed. *)
Record shaken_inv (c : obj) : Prop := {
  shaken_wf : wf (state c);
  shaken_past : past (state c);
  shaken_stored : ∃ s, unsure_load (durable c) = Some s ∧
    (s = state c ∨ ∃ o, candidate o (state c) = Some (Ok s)) }.

Lemma perform_shaken o c c' r : perform unsure_save o c = (c', r) → shaken_inv c →
  shaken_inv c' ∧ follows (state c) (state c') ∧
  (state c' ≠ state c → r = Ok () ∧ unsure_load (durable c') = Some (state c')).
Proof.
  intros H [Hwf Hpast (st & Hst & Hc)].
  destruct (perform_cases _ _ _ _ _ H) as [(-> & Hk & Hs)|(Hs & Hd & _)].
  - destruct (candidate_good _ _ _ Hwf Hpast Hk) as (? & ? & ?). apply unsure_save_Ok in Hs.
    split; [|done]. split; [done|done|]. exists (state c'). auto.
  - rewrite Hs. split; [|split; [by apply follows_same_epoch|done]]. split; rewrite ?Hs; try done.
    destruct Hd as [->|(m & Hm & [->|(s' & e & -> & He)])]; [by exists st..|].
    apply unsure_save_Err in He as [->| ->]; [by exists st|]. exists s'. split; [done|]. right. by exists o.
Qed.

(** C16. Whatever sequence of heartbeats, promotions, rejoins, assignments and revocations runs,
    in any order, with any of them failing before or after its save was done, and with the
    process restarted in between: the published topology stays well formed, epochs only move
    forward, each epoch left behind was handed over by a promotion, and an epoch number never
    changes its owner or its fencing token.  What is stored is always the published topology
    or a successor of it, which a failed call was about to publish; and a call changes what is
    published only if it returns, and then the same is stored. *)
Theorem failover_safe c c' : rtc failover_step c c' → shaken_inv c →
  shaken_inv c' ∧ follows (state c) (state c') ∧
  (∃ s, unsure_load (durable c') = Some s ∧ wf s ∧ follows (state c') s) ∧
  (∀ o c'' r, perform unsure_save o c' = (c'', r) → state c'' ≠ state c' →
     r = Ok () ∧ unsure_load (durable c'') = Some (state c'')).
Proof.
  intros Hr Hinv. assert (shaken_inv c' ∧ follows (state c) (state c')) as [Hinv' Hf].
  { induction Hr as [c|c c1 c2 Hs _ IH]; [split; [done|]; by apply follows_same_epoch; [apply Hinv|..]|].
    assert (shaken_inv c1 ∧ follows (state c) (state c1)) as [Hinv1 Hf].
    { destruct Hs as [o r Hs|s Hs ->]; [by destruct (perform_shaken _ _ _ _ Hs Hinv) as (? & ? & _)|].
      destruct Hinv as [Hwf Hpast (st & Hst & Hc)]. assert (st = s) as -> by congruence.
      assert (good (state c) s) as (? & ? & ?).
      { destruct Hc as [->|[o Ho]]; [by apply good_same|by eapply candidate_good]. }
      split; [|done]. split; try done. exists s. auto. }
    destruct (IH Hinv1) as [? ?]. split; [done|]. by eapply follows_trans. }
  split; [done|]. split; [done|]. split.
  - destruct Hinv' as [Hwf Hpast (st & Hst & Hc)]. exists st. split; [done|].
    destruct Hc as [->|[o Ho]]; [split; [done|]; by apply follows_same_epoch|].
    by destruct (candidate_good _ _ _ Hwf Hpast Ho) as (? & _ & ?).
  - intros o c'' r H. by destruct (perform_shaken _ _ _ _ H Hinv') as (_ & _ & ?).
Qed.
End uncertain.

(** ** A store that keeps its document when a save fails *)

Section certain.
Context {D : Type} `{!StateStore D RoleState.t}.
Notation obj := (FailoverCoordinator.t D).
Notation persist := (Some store_save).
Notation perform := (perform store_save).

Record failover_inv (c : obj) : Prop := {
  inv_wf : wf (state c);
  inv_past : past (state c);
  inv_stored : store_load (durable c) = Some (state c) }.

(** A method is all or nothing: when it returns, what it published is what a
    restart would load; when it raises, neither the published state nor the stored
    one has changed. *)
Theorem failover_atomic o c c' r :
  failover_inv c → perform o c = (c', r) →
  match r with
  | Ok _ => store_load (durable c') = Some (state c')
  | Err _ => state c' = state c ∧ store_load (durable c') = Some (state c)
  end.
Proof.
  intros [_ _ Hst] H.
  destruct (perform_cases _ _ _ _ _ H) as [(-> & _ & ?)|(Hs & Hd & _)]; [by eapply store_save_Ok|].
  assert (store_load (durable c') = Some (state c)) as Hl.
  { rewrite <- Hst. destruct Hd as [->|(m & _ & [->|(s' & e & _ & He)])]; [done..|]. by eapply store_save_Err. }
  destruct r; [by rewrite Hs|done].
Qed.

(** C40. Failover is available: once the lease has run out, a live Subcoordinator is
    promoted at the next check as long as the store accepts the write and the new
    lease is a valid epoch, whatever happened before; it is then the one node that
    controls the cluster. *)
Theorem promotion_when_due c e n now fresh :
  failover_inv c → RoleState.epoch (state c) = Some e → isfinite now = true →
  fleb (CoordinatorEpoch.lease_expires_at e) now = true → at_work (state c) n SUBCOORDINATOR →
  CoordinatorEpoch.valid (CoordinatorEpoch.mk (CoordinatorEpoch.epoch e + 1) n fresh now
    (fadd now HEARTBEAT_TIMEOUT_SECONDS)) →
  (∀ s, (store_save (durable c) s).2 = Ok ()) →
  ∃ c', promote_if_due persist now fresh c = (c', Ok true) ∧
    store_load (durable c') = Some (state c') ∧ ∀ m, controls (state c') m ↔ m = n.
Proof.
  intros [Hwf Hpast Hst] He Hnow Hdue Hsub Hv Hsave.
  destruct (promote_run (state c) e n now fresh) as [Hd (sub & ? & ?)]; try done.
  { intros Hp. specialize (Hpast e _ He Hp). lia. }
  unfold promote_if_due. rewrite Hd, (promotion_candidate_eq _ now fresh) by done.
  destruct ((_commit persist _;; mret true) c) as [c' r] eqn:Hc.
  pose proof Hc as Hc'. apply commit_then_cases in Hc as [(-> & Hs & ?)|(Hr & _)].
  - exists c'. rewrite Hs in *. split_and!; [done|by eapply store_save_Ok|].
    apply (promoted_controls _ sub); try done. apply Hwf.
  - exfalso. unfold mbind, M_bind, mret, M_ret, _commit in Hc'.
    destruct (store_save _ _) as [d' r'] eqn:Hsv.
    assert (r' = Ok ()) as -> by (etrans; [|apply Hsave]; by rewrite Hsv). by simplify_eq.
Qed.
End certain.

(** ** At a concrete cluster *)

Definition sample_failover : FailoverCoordinator.t (disk RoleState.t) :=
  FailoverCoordinator.mk sample_state (false, Some sample_state).

Lemma sample_inv b : failover_inv (FailoverCoordinator.mk sample_state (b, Some sample_state)).
Proof. split; [apply sample_wf| |reflexivity]. intros e p _ Hp. set_solver. Qed.

(** A store that saves, and then raises when it is [torn], as when a second file fails. *)
#[local] Instance torn_store : UncertainStore (disk RoleState.t) RoleState.t.
Proof.
  refine {| unsure_save := λ (d : disk RoleState.t) (s : RoleState.t),
              ((d.1, Some s), if d.1 then raise OSError "disk full" else Ok ());
            unsure_load := λ d : disk RoleState.t, d.2 |}.
  - by intros [[] o] s d' u ?; simplify_eq/=.
  - intros [[] o] s d' u ?; simplify_eq/=. by right.
Defined.

(** A promotion is saved but raises; the restart publishes it. *)
Definition torn_sample : FailoverCoordinator.t (disk RoleState.t) :=
  FailoverCoordinator.mk sample_state (true, Some sample_state).
Definition torn_promotion : FailoverCoordinator.t (disk RoleState.t) :=
  (perform unsure_save (FPromote (flit 220) "fresh") torn_sample).1.
Definition torn_restart : FailoverCoordinator.t (disk RoleState.t) :=
  FailoverCoordinator.mk (default sample_state (unsure_load (durable torn_promotion))) (durable torn_promotion).

Lemma failover_safe_witness :
  state torn_promotion = sample_state ∧ state torn_restart ≠ sample_state ∧
  shaken_inv torn_restart ∧ follows sample_state (state torn_restart).
Proof.
  split; [vm_compute; reflexivity|]. split.
  { intros E. apply (f_equal (λ s, bool_decide (RoleState.promotion_epochs s = ∅))) in E.
    vm_compute in E. discriminate E. }
  assert (Hr : rtc failover_step torn_sample torn_restart).
  { apply (rtc_l _ _ torn_promotion).
    - apply (failover_call _ _ (FPromote (flit 220) "fresh") (perform unsure_save (FPromote (flit 220) "fresh") torn_sample).2).
      apply surjective_pairing.
    - apply rtc_once.
      apply (failover_restart _ _ (default sample_state (unsure_load (durable torn_promotion)))); [|reflexivity].
      vm_compute. reflexivity. }
  destruct (failover_safe _ _ Hr) as (Hi & Hf & _).
  - split; [apply sample_wf| |exists sample_state; split; [reflexivity|by left]]. intros e p _ Hp. set_solver.
  - split; [exact Hi|exact Hf].
Defined.

Lemma failover_atomic_witness :
  let broken := FailoverCoordinator.mk sample_state (true, Some sample_state) in
  FailoverCoordinator.state (perform store_save (FPromote (flit 220) "fresh") broken).1 = sample_state.
Proof.
  intros broken. destruct (perform store_save (FPromote (flit 220) "fresh") broken) as [c' r] eqn:E.
  pose proof (failover_atomic _ _ _ _ (sample_inv _) E) as H. destruct r as [|e]; [|apply H].
  exfalso. apply (f_equal (λ x, is_ok x.2)) in E. vm_compute in E. discriminate E.
Defined.

Lemma promotion_when_due_witness :
  ∃ c', FailoverCoordinator.promote_if_due (Some store_save) (flit 220) "fresh" sample_failover
          = (c', Ok true) ∧ controls (FailoverCoordinator.state c') node_s.
Proof.
  destruct (promotion_when_due sample_failover sample_epoch node_s (flit 220) "fresh")
    as (c' & Hc & _ & Hm); [apply sample_inv|reflexivity|reflexivity|reflexivity| | | |].
  - exists as_subcoordinator. split; [reflexivity|]. split; [reflexivity|]. split; [reflexivity|].
    set_solver.
  - reflexivity.
  - reflexivity.
  - exists c'. split; [exact Hc|]. by apply Hm.
Defined.
