(* ===== verification/Operations.v ===== *)
(** * The cluster facade ([cluster/operations.py], [cluster/invites.py])

    [ClusterState] is the persisted aggregate, [Cluster] the mutable object the
    runtime drives.  Clock readings and the values drawn from [secrets] are
    arguments; SHA-256 is a parameter. *)

From S2P Require Import Prelude PyFloat Identity ClusterModels Roles.

(** [{a.node_id: a for a in assignments if a.node_id is not None}] is [by_id]. *)

Section operations.
Context (sha256_hex : string → string).

(** ** [cluster/invites.py] *)

Definition create_invite (cluster_id target_node_id : string) (epoch : CoordinatorEpoch.t)
    (now ttl_seconds : float) (token : string) : result InviteRecord.t :=
  raise_if (negb (isfinite ttl_seconds) || fleb ttl_seconds (flit 0))
    ValueError "invite TTL must be positive";;
  InviteRecord.__post_init__ (hash_invite sha256_hex token) target_node_id
    (fadd now ttl_seconds) token cluster_id (value (CoordinatorEpoch.coordinator_id epoch))
    (CoordinatorEpoch.epoch epoch) (CoordinatorEpoch.fencing_token epoch).
End operations.

Definition DEFAULT_INVITE_TTL : float := flit 300.

Module ClusterState.
Record t := mk {
  local_node_id : string;
  cluster_id : string;
  role_assignments : list RoleAssignment;
  coordinator_epoch : option CoordinatorEpoch.t;
  active_invites : list InviteRecord.t;
  join_admissions : list InviteRecord.t;
  used_invites : gset string;
  promotion_epochs : gset Z;
  capability_grants : list CapabilityGrant.t }.

(** [create_local]; [cluster_id] and [token] are the values drawn from [secrets],
    [node] is the id given or drawn. *)
Definition create_local (node : string) (now : float) (cluster_id token : string) : result t :=
  n ← NodeId.__post_init__ node;
  assignment ← RoleAssignment.new {[COORDINATOR; WORKER]} n;
  n' ← NodeId.__post_init__ node;
  epoch ← CoordinatorEpoch.__post_init__ 1 n' token now (fadd now (flit 120));
  Ok (mk node cluster_id [assignment] (Some epoch) [] [] ∅ ∅ []).

(** The default of [next] is built whether or not it is used. *)
Definition local_assignment (s : t) : result RoleAssignment :=
  n ← NodeId.__post_init__ (local_node_id s);
  default ← RoleAssignment.new {[WORKER]} n;
  Ok match List.find (λ a, match RoleAssignment.node_id a with
                           | Some m => bool_decide (value m = local_node_id s)
                           | None => false
                           end) (role_assignments s) with
     | Some a => a
     | None => default
     end.

(** The epoch when the local node is the active, unpaused Coordinator owning it. *)
Definition owned_epoch (s : t) (local : RoleAssignment) : option CoordinatorEpoch.t :=
  match coordinator_epoch s with
  | Some e =>
      if RoleAssignment.revoked local || RoleAssignment.paused local
         || negb (RoleAssignment.has COORDINATOR local)
         || negb (bool_decide (value (CoordinatorEpoch.coordinator_id e) = local_node_id s))
      then None else Some e
  | None => None
  end.

Definition is_active_coordinator (s : t) : result bool :=
  match coordinator_epoch s with
  | None => Ok false
  | Some e =>
      if negb (bool_decide (value (CoordinatorEpoch.coordinator_id e) = local_node_id s))
      then Ok false
      else local ← local_assignment s;
           Ok (negb (RoleAssignment.paused local) && negb (RoleAssignment.revoked local)
               && RoleAssignment.has COORDINATOR local)
  end.

Definition set_invites (s : t) (active : list InviteRecord.t) (used : gset string) : t :=
  mk (local_node_id s) (cluster_id s) (role_assignments s) (coordinator_epoch s) active
    (join_admissions s) used (promotion_epochs s) (capability_grants s).

Section invites.
Context (sha256_hex : string → string).

Definition create_invite (target_node_id : string) (now ttl_seconds : float) (token : string)
    : M t InviteRecord.t := λ s,
  match local_assignment s with
  | Err e => (s, Err e)
  | Ok local =>
      match owned_epoch s local with
      | None => (s, raise PermissionError "only an active local Coordinator may create invites")
      | Some epoch =>
          match create_invite sha256_hex (cluster_id s) target_node_id epoch now ttl_seconds token with
          | Err e => (s, Err e)
          | Ok invite => (set_invites s (active_invites s ++ [invite]) (used_invites s), Ok invite)
          end
      end
  end.

Definition consume_invite (token : string) (now : float) : M t InviteRecord.t := λ s,
  match local_assignment s with
  | Err e => (s, Err e)
  | Ok local =>
      match owned_epoch s local with
      | None => (s, raise PermissionError "only an active local Coordinator may consume invites")
      | Some _ =>
          let digest := hash_invite sha256_hex token in
          match List.find (λ i, bool_decide (InviteRecord.token_hash i = digest))
                  (active_invites s) with
          | Some invite =>
              (set_invites s (List.filter (λ i, negb (InviteRecord.eqb i invite)) (active_invites s))
                 (used_invites s ∪ {[digest]}),
               if fleb (InviteRecord.expires_at invite) now
               then raise ValueError "pairing invite has expired" else Ok invite)
          | None =>
              (s, if bool_decide (digest ∈ used_invites s)
                  then raise ValueError "pairing invite is expired or already consumed"
                  else raise ValueError "pairing invite is unknown or expired")
          end
      end
  end.
End invites.
End ClusterState.

(** ** [Cluster] *)

Module Cluster.
Record t := mk {
  local_id : NodeId;
  cluster_id : string;
  epoch : CoordinatorEpoch.t;
  assignments : list (NodeId * RoleAssignment);
  _online : gmap NodeId bool;
  _invites : list (string * InviteRecord.t);
  _join_admissions : list (string * InviteRecord.t);
  _used_invites : gset string;
  promotion_epochs : gset Z;
  capability_grants : list CapabilityGrant.t }.

(** [__init__]; [cluster_id] and [token] are drawn from [secrets], [now] is the clock. *)
Definition __init__ (local_id : NodeId) (now : float) (cluster_id token : string) : result t :=
  state ← ClusterState.create_local (value local_id) now cluster_id token;
  match ClusterState.coordinator_epoch state with
  | None => raise ValueError "local cluster has no coordinator epoch"
  | Some epoch =>
      local ← ClusterState.local_assignment state;
      Ok (mk local_id (ClusterState.cluster_id state) epoch [(local_id, local)]
            {[local_id := true]} [] [] (ClusterState.used_invites state)
            (ClusterState.promotion_epochs state) (ClusterState.capability_grants state))
  end.

Definition coordinator_id (c : t) : NodeId := CoordinatorEpoch.coordinator_id (epoch c).

Definition is_active_coordinator (c : t) : bool :=
  match od_get (local_id c) (assignments c) with
  | Some a => negb (RoleAssignment.paused a) && negb (RoleAssignment.revoked a)
              && RoleAssignment.has COORDINATOR a
              && bool_decide (CoordinatorEpoch.coordinator_id (epoch c) = local_id c)
  | None => false
  end.

Definition local_role (c : t) : result ClusterRole :=
  match od_get (local_id c) (assignments c) with
  | Some a =>
      if RoleAssignment.revoked a then raise ValueError "local node has no active role"
      else Ok (if RoleAssignment.has COORDINATOR a then COORDINATOR else WORKER)
  | None => raise ValueError "local node has no active role"
  end.

(** The default of [get] is built whether or not it is used. *)
Definition local_assignment (c : t) : result RoleAssignment :=
  default ← RoleAssignment.new {[WORKER]} (local_id c);
  Ok match od_get (local_id c) (assignments c) with Some a => a | None => default end.

Definition _role_state (c : t) : result RoleState.t :=
  RoleState.__post_init__ (assignments c).*2 (Some (epoch c)) (promotion_epochs c)
    (capability_grants c).

Definition _apply_role_state (c : t) (state : RoleState.t) : t :=
  mk (local_id c) (cluster_id c) (epoch c) (by_id (RoleState.assignments state)) (_online c)
    (_invites c) (_join_admissions c) (_used_invites c) (promotion_epochs c)
    (RoleState.capability_grants state).

Definition set_invites (c : t) (invites : list (string * InviteRecord.t)) : t :=
  mk (local_id c) (cluster_id c) (epoch c) (assignments c) (_online c) invites
    (_join_admissions c) (_used_invites c) (promotion_epochs c) (capability_grants c).

Definition set_online (c : t) (node_id : NodeId) (online : bool) : t :=
  mk (local_id c) (cluster_id c) (epoch c) (assignments c) (<[node_id := online]> (_online c))
    (_invites c) (_join_admissions c) (_used_invites c) (promotion_epochs c) (capability_grants c).

(** [self._online.setdefault(node_id, True)] *)
Definition setdefault_online (c : t) (node_id : NodeId) : t :=
  match _online c !! node_id with Some _ => c | None => set_online c node_id true end.

Definition online (c : t) (node_id : NodeId) : bool := default false (_online c !! node_id).

Definition is_member (c : t) (node_id : NodeId) : bool :=
  match od_get node_id (assignments c) with
  | Some a => negb (RoleAssignment.revoked a)
  | None => false
  end.

(** [now] is the clock read for the role change. *)
Definition assign (node_id : NodeId) (role : ClusterRole) (now : float) : M t () := λ c,
  if negb (is_active_coordinator c)
  then (c, raise PermissionError "only an active local Coordinator may assign roles")
  else match (state ← _role_state c; actor ← local_assignment c;
              RoleState.assign state actor node_id {[role]} now) with
       | Err e => (c, Err e)
       | Ok (updated, _) => (setdefault_online (_apply_role_state c updated) node_id, Ok ())
       end.

Definition revoke (node_id : NodeId) : M t () := λ c,
  if negb (is_active_coordinator c)
  then (c, raise PermissionError "only an active local Coordinator may revoke roles")
  else match od_get node_id (assignments c) with
       | None => (c, Ok ())
       | Some current =>
           if RoleAssignment.revoked current then (c, Ok ())
           else match (state ← _role_state c; actor ← local_assignment c;
                       RoleState.revoke state actor node_id) with
                | Err e => (c, Err e)
                | Ok updated => (_apply_role_state c updated, Ok ())
                end
       end.

Definition authorize (c : t) (cluster : string) (ep : Z) (fencing_token : string) : result () :=
  if negb (bool_decide (cluster = cluster_id c)) then raise PermissionError "stale coordinator authority"
  else if negb (bool_decide (ep = CoordinatorEpoch.epoch (epoch c)))
  then raise PermissionError "stale coordinator authority"
  else same ← compare_digest fencing_token (CoordinatorEpoch.fencing_token (epoch c));
       raise_if (negb same) PermissionError "stale coordinator authority".

Section invites.
Context (sha256_hex : string → string).

Definition create_invite (target_id : NodeId) (now : float) (token : string)
    : M t InviteRecord.t := λ c,
  if negb (is_active_coordinator c)
  then (c, raise PermissionError "only an active local Coordinator may create invites")
  else match create_invite sha256_hex (cluster_id c) (value target_id) (epoch c) now
               DEFAULT_INVITE_TTL token with
       | Err e => (c, Err e)
       | Ok invite => (set_invites c (od_set (InviteRecord.token invite) invite (_invites c)), Ok invite)
       end.

Definition _restore_invites (c : t) (invites : list InviteRecord.t) : t :=
  set_invites c (od_update (_invites c) ((λ i, (InviteRecord.token_hash i, i)) <$> invites)).

(** The invite found under the token or under its digest. *)
Definition find_invite (c : t) (token digest : string) : option InviteRecord.t :=
  match od_get token (_invites c) with
  | Some i => Some i
  | None => od_get digest (_invites c)
  end.

(** The bookkeeping of an accepted invite, before the role is assigned. *)
Definition burn (c : t) (token digest : string) : t :=
  mk (local_id c) (cluster_id c) (epoch c) (assignments c) (_online c)
    (od_pop digest (od_pop token (_invites c))) (_join_admissions c)
    (_used_invites c ∪ {[digest]}) (promotion_epochs c) (capability_grants c).

Definition record_admission (c : t) (digest : string) (admission : InviteRecord.t) : t :=
  mk (local_id c) (cluster_id c) (epoch c) (assignments c) (_online c) (_invites c)
    (od_set digest admission (_join_admissions c)) (_used_invites c) (promotion_epochs c)
    (capability_grants c).

(** [replace(invite, token="")] *)
Definition without_token (i : InviteRecord.t) : result InviteRecord.t :=
  InviteRecord.__post_init__ (InviteRecord.token_hash i) (InviteRecord.target_node_id i)
    (InviteRecord.expires_at i) "" (InviteRecord.cluster_id i) (InviteRecord.coordinator_id i)
    (InviteRecord.epoch i) (InviteRecord.fencing_token i).

(** [current] is the argument [now] or the clock; [clock] is read again by [assign]. *)
Definition consume_invite (token : string) (target_id : NodeId) (current clock : float)
    (allow_retry : bool) : M t InviteRecord.t := λ c,
  if negb (is_active_coordinator c)
  then (c, raise PermissionError "only an active local Coordinator may consume invites")
  else
    let digest := hash_invite sha256_hex token in
    let invite := find_invite c token digest in
    match od_get digest (_join_admissions c) with
    | Some admission =>
        (c, if allow_retry
            then id ← InviteRecord.target_id admission;
                 if decide (id = target_id) then Ok admission
                 else raise ValueError "invite target mismatch"
            else raise ValueError "invite is expired or already consumed")
    | None =>
        match invite with
        | None => (c, raise ValueError "invite is expired or already consumed")
        | Some invite =>
            if bool_decide (digest ∈ _used_invites c) || fleb (InviteRecord.expires_at invite) current
            then (c, raise ValueError "invite is expired or already consumed")
            else match InviteRecord.target_id invite with
                 | Err e => (c, Err e)
                 | Ok id =>
                     if negb (bool_decide (id = target_id))
                        || negb (bool_decide (InviteRecord.cluster_id invite = cluster_id c))
                        || negb (bool_decide (InviteRecord.epoch invite = CoordinatorEpoch.epoch (epoch c)))
                     then (c, raise ValueError "invite target or cluster mismatch")
                     else (assign target_id WORKER clock;;
                           admission ← lift (without_token invite);
                           modify (λ c, record_admission c digest admission);;
                           mret invite) (burn c token digest)
                 end
        end
    end.

(** [self.join(invite, coordinator, pairing=...)] over both objects.  [admitted] is
    the verdict of the pairing callable, or the exception it raises.  Joining
    oneself raises before anything is changed. *)
Definition join (invite : InviteRecord.t) (admitted : result bool) (now clock : float)
    : M (t * t) () := λ '(self, coordinator),
  match admitted with
  | Err e => ((self, coordinator), Err e)
  | Ok ok =>
      if negb ok then ((self, coordinator), raise PermissionError "cluster Join requires an authenticated Pair")
      else match local_assignment self with
      | Err e => ((self, coordinator), Err e)
      | Ok local =>
          if RoleAssignment.revoked local || RoleAssignment.paused local
          then ((self, coordinator), raise PermissionError "paused or revoked local membership cannot join")
          else if bool_decide (cluster_id self = cluster_id coordinator) && is_member self (local_id self)
          then ((self, coordinator), raise ValueError "local node has already joined this cluster")
          else
            let '(coordinator', r) :=
              consume_invite (InviteRecord.token invite) (local_id self) now clock true coordinator in
            match r with
            | Err e => ((self, coordinator'), Err e)
            | Ok _ =>
                let joined := mk (local_id self) (cluster_id coordinator') (epoch coordinator')
                  (assignments self) (_online self) (_invites self) (_join_admissions self)
                  (_used_invites self) (promotion_epochs self) (capability_grants self) in
                match (w ← RoleAssignment.new {[WORKER]} (local_id self);
                       k ← RoleAssignment.new {[COORDINATOR; WORKER]} (local_id coordinator');
                       Ok (od_of_list [(local_id self, w); (local_id coordinator', k)])) with
                | Err e => ((joined, coordinator'), Err e)
                | Ok members =>
                    ((mk (local_id self) (cluster_id joined) (epoch joined) members
                        (<[local_id coordinator' := true]> (_online self)) (_invites self)
                        (_join_admissions self) (_used_invites self) (promotion_epochs self)
                        (capability_grants self), coordinator'), Ok ())
                end
            end
      end
  end.

(** The aggregate [to_dict] and [save] write. *)
Definition to_state (c : t) : ClusterState.t :=
  ClusterState.mk (value (local_id c)) (cluster_id c) (assignments c).*2 (Some (epoch c))
    (_invites c).*2 (_join_admissions c).*2 (_used_invites c) (promotion_epochs c)
    (capability_grants c).

(** [from_state]; [now], [fresh_id] and [fresh_token] feed the throwaway [__init__]. *)
Definition from_state (local_id : NodeId) (state : ClusterState.t) (now : float)
    (fresh_id fresh_token : string) : result t :=
  raise_if (negb (bool_decide (ClusterState.local_node_id state = value local_id))
            || negb (existsb (λ a, bool_decide (RoleAssignment.node_id a = Some local_id))
                      (ClusterState.role_assignments state)))
    ValueError "persisted cluster belongs to another local node";;
  match ClusterState.coordinator_epoch state with
  | None => raise ValueError "persisted cluster has no coordinator epoch"
  | Some e =>
      c ← __init__ local_id now fresh_id fresh_token;
      let c := mk local_id (ClusterState.cluster_id state) e
                 (by_id (ClusterState.role_assignments state)) (_online c) (_invites c)
                 (_join_admissions c) (ClusterState.used_invites state)
                 (ClusterState.promotion_epochs state) (ClusterState.capability_grants state) in
      let c := _restore_invites c (ClusterState.active_invites state) in
      Ok (mk local_id (cluster_id c) (epoch c) (assignments c) (_online c) (_invites c)
            (od_of_list ((λ i, (InviteRecord.token_hash i, i)) <$> ClusterState.join_admissions state))
            (_used_invites c) (promotion_epochs c) (capability_grants c))
  end.
End invites.
End Cluster.
