(* ===== verification/OperationsSpec.v ===== *)
(** * The cluster facade keeps a well-formed topology and one-time invites

    [Cluster] holds the topology as a dictionary; [topology] is the [RoleState] it
    stands for, and its operations are the operations of that state. *)

From S2P Require Import Prelude PyFloat Identity ClusterModels Roles RolesFacts RolesSpec LeaseSpec Operations.
From stdpp Require Import relations.

(** ** The topology of a cluster *)

Definition topology (c : Cluster.t) : RoleState.t :=
  RoleState.mk (Cluster.assignments c).*2 (Some (Cluster.epoch c)) (Cluster.promotion_epochs c)
    (Cluster.capability_grants c).

Record cluster_wf (c : Cluster.t) : Prop := {
  cluster_keyed : ∀ n a, (n, a) ∈ Cluster.assignments c → RoleAssignment.node_id a = Some n;
  cluster_topology : wf (topology c);
  cluster_invites : ∀ k i, (k, i) ∈ Cluster._invites c → InviteRecord.valid i;
  cluster_admissions : ∀ k i, od_get k (Cluster._join_admissions c) = Some i →
    k ∈ Cluster._used_invites c }.

Lemma keyed_ids (d : list (NodeId * RoleAssignment)) :
  (∀ n a, (n, a) ∈ d → RoleAssignment.node_id a = Some n) → ids d.*2 = d.*1.
Proof.
  induction d as [|[n a] d IH]; intros Hk; [done|]. rewrite fmap_cons, ids_cons. simpl.
  rewrite (Hk n a) by set_solver. f_equal. apply IH. set_solver.
Qed.

Lemma bound_by_id l : NoDup (ids l) → (∀ a, a ∈ l → is_bound a = true) →
  (by_id l).*2 = l ∧ ∀ n a, (n, a) ∈ by_id l → RoleAssignment.node_id a = Some n.
Proof.
  intros Hnd Hb. unfold by_id. rewrite od_of_list_id by (by rewrite by_id_keys). clear Hnd.
  induction l as [|a l IH]; [split; [done|set_solver]|].
  assert (Ha : is_bound a = true) by (apply Hb; set_solver).
  destruct IH as [IH1 IH2]; [intros; apply Hb; set_solver|].
  unfold is_bound in Ha. simpl. destruct (RoleAssignment.node_id a) as [n|] eqn:Hn; [|done].
  simpl. split; [by f_equal|]. intros m b [?|?]%elem_of_cons; [by simplify_eq|auto].
Qed.

Lemma keyed_by_id d : NoDup d.*1 →
  (∀ n a, (n, a) ∈ d → RoleAssignment.node_id a = Some n) → by_id d.*2 = d.
Proof.
  intros Hnd Hk. unfold by_id. rewrite od_of_list_id by (by rewrite by_id_keys, keyed_ids).
  clear Hnd. induction d as [|[n a] d IH]; [done|]. simpl.
  rewrite (Hk n a) by set_solver. simpl. f_equal. apply IH. set_solver.
Qed.

Lemma cluster_get c n : cluster_wf c →
  od_get n (Cluster.assignments c) = RoleState.assignment_for (topology c) n.
Proof.
  intros [Hk [Hs _ _ _] _ _]. unfold RoleState.assignment_for, RoleState._assignment_index_for.
  simpl. rewrite keyed_by_id; [done| |done]. rewrite <- keyed_ids by done. apply Hs.
Qed.

Lemma role_state_topology c : cluster_wf c → Cluster._role_state c = Ok (topology c).
Proof. intros [_ [Hs _ _ _] _ _]. by apply post_init_shape. Qed.

Lemma active_controls c : cluster_wf c →
  Cluster.is_active_coordinator c = true ↔ controls (topology c) (Cluster.local_id c).
Proof.
  intros Hwf. unfold Cluster.is_active_coordinator, controls. rewrite cluster_get by done.
  destruct (RoleState.assignment_for _ _) as [a|]; [|naive_solver].
  unfold RoleAssignment.has. rewrite !andb_true_iff, !negb_true_iff, !bool_decide_eq_true. split.
  - intros [[[? ?] ?] ?]. exists a. split_and!; try done. intros e ?. by simplify_eq/=.
  - intros (x & ? & ? & ? & ? & He). simplify_eq. by split_and!; [| | |apply He].
Qed.

(** The actor an active Coordinator presents. *)
Lemma local_assignment_run c : Cluster.local_assignment c =
  Ok (match od_get (Cluster.local_id c) (Cluster.assignments c) with
      | Some a => a
      | None => RoleAssignment.mk {[WORKER]} (Some (Cluster.local_id c)) false false false
      end).
Proof.
  unfold Cluster.local_assignment, RoleAssignment.new.
  by rewrite RoleAssignment.__post_init__worker.
Qed.

Lemma local_control c : cluster_wf c → Cluster.is_active_coordinator c = true →
  ∃ a, Cluster.local_assignment c = Ok a ∧
    RoleState._control (topology c) a = Ok (Cluster.local_id c).
Proof.
  intros Hwf Hact. rewrite local_assignment_run.
  apply active_controls in Hact; [|done]. pose proof Hact as (a & Ha & _).
  rewrite cluster_get, Ha by done. eexists. split; [done|]. apply control_Ok. split; [|done].
  by apply (wf_assignment_valid _ _ _ (cluster_topology _ Hwf)) in Ha as (_ & ? & _).
Qed.

(** ** Publishing a new topology *)

Lemma apply_topology c s : cluster_wf c → wf s →
  (∀ a, a ∈ RoleState.assignments s → is_bound a = true) →
  RoleState.epoch s = Some (Cluster.epoch c) →
  RoleState.promotion_epochs s = Cluster.promotion_epochs c →
  topology (Cluster._apply_role_state c s) = s ∧ cluster_wf (Cluster._apply_role_state c s).
Proof.
  intros Hwf Hs Hb He Hp. destruct s as [l e p g]. simpl in *. subst.
  destruct (bound_by_id l) as [Heq Hkeyed]; [apply Hs|done|].
  assert (Ht : topology (Cluster._apply_role_state c (RoleState.mk l (Some (Cluster.epoch c))
    (Cluster.promotion_epochs c) g)) = RoleState.mk l (Some (Cluster.epoch c))
    (Cluster.promotion_epochs c) g).
  { unfold topology. simpl. by rewrite Heq. }
  split; [done|]. split; [done|by rewrite Ht|apply Hwf|apply Hwf].
Qed.

Lemma topology_bound c a : cluster_wf c → a ∈ RoleState.assignments (topology c) →
  is_bound a = true.
Proof.
  intros Hwf ([n b] & -> & Hin)%list_elem_of_fmap. simpl.
  apply (cluster_keyed _ Hwf) in Hin. unfold is_bound. by rewrite Hin.
Qed.

(** Changes that leave the topology alone. *)
Lemma cluster_wf_same c c' : cluster_wf c →
  Cluster.assignments c' = Cluster.assignments c → topology c' = topology c →
  (∀ k i, (k, i) ∈ Cluster._invites c' → InviteRecord.valid i) →
  (∀ k i, od_get k (Cluster._join_admissions c') = Some i → k ∈ Cluster._used_invites c') →
  cluster_wf c'.
Proof. intros [Hk Ht _ _] Ha Htop ? ?. split; [by rewrite Ha|by rewrite Htop|done..]. Qed.

Lemma setdefault_wf c n : cluster_wf c → cluster_wf (Cluster.setdefault_online c n).
Proof.
  intros Hwf. unfold Cluster.setdefault_online. case_match; [done|].
  apply (cluster_wf_same c); try done; apply Hwf.
Qed.

Lemma setdefault_topology c n : topology (Cluster.setdefault_online c n) = topology c.
Proof. unfold Cluster.setdefault_online. by case_match. Qed.

(** ** Assigning and revoking through the facade *)

(** [c] and [c'] differ at most in the topology and in who is online. *)
Definition same_invites (c c' : Cluster.t) : Prop :=
  Cluster.local_id c' = Cluster.local_id c ∧ Cluster.cluster_id c' = Cluster.cluster_id c ∧
  Cluster.epoch c' = Cluster.epoch c ∧ Cluster._invites c' = Cluster._invites c ∧
  Cluster._join_admissions c' = Cluster._join_admissions c ∧
  Cluster._used_invites c' = Cluster._used_invites c.

Lemma same_invites_refl c : same_invites c c.
Proof. by split_and!. Qed.

#[export] Hint Resolve same_invites_refl : core.

Lemma setdefault_same c n : same_invites c (Cluster.setdefault_online c n).
Proof. unfold Cluster.setdefault_online. case_match; by split_and!. Qed.

Lemma assign_result_bound s n roles a : (∀ a, a ∈ RoleState.assignments s → is_bound a = true) →
  a ∈ RoleState.assignments (assign_result s n roles) → is_bound a = true.
Proof.
  intros Hb Hin. unfold assign_result in Hin. simpl in Hin.
  assert (H : a = assigned s n roles ∨ a ∈ RoleState.assignments s).
  { destruct (RoleState.assignment_for s n).
    - apply elem_of_put in Hin. naive_solver.
    - apply elem_of_app in Hin as [Hin%elem_of_put|Hin%list_elem_of_singleton]; naive_solver. }
  destruct H as [->|?]; [done|auto].
Qed.

(** Why an active Coordinator cannot make [n] a Worker. *)
Definition worker_refused (c : Cluster.t) (n : NodeId) : Prop :=
  n = Cluster.local_id c ∨
  ∃ a, RoleState.assignment_for (topology c) n = Some a ∧ RoleAssignment.revoked a = true.

Lemma cluster_assign_cases n r now c c' res : cluster_wf c → Cluster.assign n r now c = (c', res) →
  cluster_wf c' ∧ same_invites c c' ∧
  match res with
  | Ok _ => controls (topology c) (Cluster.local_id c) ∧ isfinite now = true ∧
            topology c' = assign_result (topology c) n {[r]}
  | Err _ => c' = c ∧ (controls (topology c) (Cluster.local_id c) → isfinite now = true →
               r = WORKER → worker_refused c n)
  end.
Proof.
  intros Hwf H. unfold Cluster.assign in H.
  destruct (Cluster.is_active_coordinator c) eqn:Hact; simpl in H.
  2:{ simplify_eq. split; [done|]. split; [done|]. split; [done|]. intros Hc. apply active_controls in Hc; [congruence|done]. }
  destruct (local_control _ Hwf Hact) as (a & Ha & Hctl).
  rewrite role_state_topology, Ha in H by done. simpl in H.
  destruct (RoleState.assign (topology c) a n {[r]} now) as [[s' ch]|e] eqn:E.
  2:{ simplify_eq. split; [done|]. split; [done|]. split; [done|]. intros _ Hnow ->.
      destruct (assign_cases _ a n {[WORKER]} now (cluster_topology _ Hwf) Hnow)
        as [(e' & _ & _ & Href)|(id & Hok & _)]; [|by rewrite Hok in E].
      apply control_Ok in Hctl as Hid. destruct Hid as [Hid _].
      destruct Href as [Hx|[Hx|[Hx|[Hx|[Hx _]]]]]; [by destruct (Hx _ Hctl)| |set_solver| |set_solver].
      - left. congruence.
      - by right. }
  apply assign_finite in E as Hnow.
  destruct (assign_cases _ a n {[r]} now (cluster_topology _ Hwf) Hnow)
    as [(e & Ha' & _)|(id & Ha' & _ & Hwf' & _)]; rewrite Ha' in E; [done|]. simplify_eq.
  destruct (apply_topology c (assign_result (topology c) n {[r]})) as [Ht Hcwf]; try done.
  { intros x. apply assign_result_bound. intros y. by apply topology_bound. }
  split; [by apply setdefault_wf|]. split; [exact (setdefault_same (Cluster._apply_role_state c _) n)|].
  rewrite setdefault_topology, Ht. split_and!; try done. by apply active_controls.
Qed.

Lemma cluster_revoke_cases n c c' res : cluster_wf c → Cluster.revoke n c = (c', res) →
  cluster_wf c' ∧ same_invites c c' ∧
  match res with
  | Ok _ => c' = c ∨ ∃ a, RoleState.assignment_for (topology c) n = Some a ∧
              topology c' = revoke_result (topology c) n a
  | Err _ => c' = c
  end.
Proof.
  intros Hwf H. unfold Cluster.revoke in H.
  destruct (Cluster.is_active_coordinator c) eqn:Hact; simpl in H; [|by simplify_eq].
  rewrite cluster_get in H by done.
  destruct (RoleState.assignment_for (topology c) n) as [cur|] eqn:Hcur; [|simplify_eq; auto].
  destruct (RoleAssignment.revoked cur) eqn:Hrev; [simplify_eq; auto|].
  destruct (local_control _ Hwf Hact) as (a & Ha & Hctl).
  rewrite role_state_topology, Ha in H by done. simpl in H.
  rewrite revoke_run, Hctl in H by apply Hwf. simpl in H.
  destruct (raise_if _ _ _) as [[]|e] eqn:Hself; simpl in H; [|by simplify_eq].
  rewrite (proj2 (known_Ok _ _ cur)) in H by done. simpl in H. simplify_eq.
  destruct (apply_topology c (revoke_result (topology c) n cur)) as [Ht Hcwf]; try done.
  { apply revoke_result_wf; [apply Hwf|done]. }
  { simpl. intros x [(-> & _)|[Hx _]]%elem_of_put; [done|]. by eapply topology_bound. }
  split_and!; try done. right. eauto.
Qed.

(** ** Invites *)

Section invites.
Context (sha256_hex : string → string).
Notation digest_of token := (hash_invite sha256_hex token).

(** What [consume_invite] checks of a first use. *)
Record accepted (c : Cluster.t) (token : string) (target : NodeId) (current : float)
    (i : InviteRecord.t) : Prop := {
  accepted_active : controls (topology c) (Cluster.local_id c);
  accepted_new : od_get (digest_of token) (Cluster._join_admissions c) = None;
  accepted_found : Cluster.find_invite c token (digest_of token) = Some i;
  accepted_unused : digest_of token ∉ Cluster._used_invites c;
  accepted_live : fleb (InviteRecord.expires_at i) current = false;
  accepted_target : InviteRecord.target_id i = Ok target;
  accepted_cluster : InviteRecord.cluster_id i = Cluster.cluster_id c;
  accepted_epoch : InviteRecord.epoch i = CoordinatorEpoch.epoch (Cluster.epoch c) }.

(** The record kept of an admission. *)
Definition admission_of (i : InviteRecord.t) : InviteRecord.t :=
  InviteRecord.mk (InviteRecord.token_hash i) (InviteRecord.target_node_id i)
    (InviteRecord.expires_at i) "" (InviteRecord.cluster_id i) (InviteRecord.coordinator_id i)
    (InviteRecord.epoch i) (InviteRecord.fencing_token i).

Lemma without_token_run i : InviteRecord.valid i → Cluster.without_token i = Ok (admission_of i).
Proof.
  intros [Hh Hf]. unfold Cluster.without_token, InviteRecord.__post_init__.
  by rewrite bool_decide_eq_false_2, Hf.
Qed.

Lemma find_invite_valid c token d i : cluster_wf c → Cluster.find_invite c token d = Some i →
  InviteRecord.valid i.
Proof.
  intros Hwf. unfold Cluster.find_invite.
  destruct (od_get token (Cluster._invites c)) eqn:E; intros; simplify_eq;
    eapply (cluster_invites _ Hwf), od_get_elem; eassumption.
Qed.

Lemma burn_wf c token d : cluster_wf c → cluster_wf (Cluster.burn c token d).
Proof.
  intros Hwf. apply (cluster_wf_same c); try done; simpl.
  - intros k i [[? _]%od_pop_elem _]%od_pop_elem. by eapply cluster_invites.
  - intros k i ?%(cluster_admissions _ Hwf). set_solver.
Qed.

(** The state after a first use, given the topology with the new Worker. *)
Definition after_consume (c cw : Cluster.t) (token : string) (i : InviteRecord.t) : Prop :=
  Cluster.local_id cw = Cluster.local_id c ∧ Cluster.cluster_id cw = Cluster.cluster_id c ∧
  Cluster.epoch cw = Cluster.epoch c ∧
  Cluster._invites cw = od_pop (digest_of token) (od_pop token (Cluster._invites c)) ∧
  Cluster._used_invites cw = Cluster._used_invites c ∪ {[digest_of token]} ∧
  Cluster._join_admissions cw
    = od_set (digest_of token) (admission_of i) (Cluster._join_admissions c).

Lemma consume_cases token target current clock retry c c' res :
  cluster_wf c →
  Cluster.consume_invite sha256_hex token target current clock retry c = (c', res) →
  cluster_wf c' ∧
  ( (* nothing changes *)
   (c' = c ∧ (∀ i, ¬ accepted c token target current i) ∧ ∀ i, res = Ok i → retry = true ∧
      od_get (digest_of token) (Cluster._join_admissions c) = Some i ∧
      InviteRecord.target_id i = Ok target) ∨
   (* accepted, but the role assignment is refused *)
   (∃ i e, res = Err e ∧ accepted c token target current i ∧
      c' = Cluster.burn c token (digest_of token) ∧
      (isfinite clock = true → worker_refused c target)) ∨
   (* accepted *)
   (∃ i, res = Ok i ∧ accepted c token target current i ∧ isfinite clock = true ∧
      topology c' = assign_result (topology c) target {[WORKER]} ∧ after_consume c c' token i)).
Proof.
  intros Hwf H. unfold Cluster.consume_invite in H.
  destruct (Cluster.is_active_coordinator c) eqn:Hact; simpl in H.
  2:{ simplify_eq. split; [done|]. left. split_and!; try done.
      intros i [Ha _ _ _ _ _ _ _]. apply active_controls in Ha; [congruence|done]. }
  destruct (od_get (digest_of token) (Cluster._join_admissions c)) as [adm|] eqn:Hadm.
  { simplify_eq. split; [done|]. left. split_and!; [done|intros i []; congruence|].
    intros i Hr. destruct retry; [|done]. repeat res_step.
    case_decide; [|done]. by simplify_eq. }
  destruct (Cluster.find_invite c token (digest_of token)) as [i|] eqn:Hfind.
  2:{ simplify_eq. split; [done|]. left. split_and!; try done. intros i []. congruence. }
  destruct (bool_decide (digest_of token ∈ Cluster._used_invites c)
            || fleb (InviteRecord.expires_at i) current) eqn:Hdead.
  { simplify_eq. split; [done|]. left. split_and!; try done. intros j []. simplify_eq.
    apply orb_true_iff in Hdead as [?%bool_decide_eq_true|?]; congruence. }
  destruct (InviteRecord.target_id i) as [id|e] eqn:Hid.
  2:{ simplify_eq. split; [done|]. left. split_and!; try done. intros j []. congruence. }
  destruct (_ || _ || _) eqn:Hmis in H.
  { simplify_eq. split; [done|]. left. split_and!; try done. intros j []. simplify_eq.
    apply orb_true_iff in Hmis as [[Hm|Hm]%orb_true_iff|Hm];
      apply negb_true_iff, bool_decide_eq_false in Hm; congruence. }
  to_prop. subst id. apply active_controls in Hact; [|done].
  assert (Hacc : accepted c token target current i) by by split.
  pose proof (find_invite_valid _ _ _ _ Hwf Hfind) as Hiv.
  pose proof (burn_wf c token (digest_of token) Hwf) as Hbw.
  unfold mbind, M_bind, mret, M_ret in H. cbn beta in H.
  destruct (Cluster.assign target WORKER clock _) as [c1 r1] eqn:Has.
  destruct (cluster_assign_cases _ _ _ _ _ _ Hbw Has) as (Hwf1 & (Hl & Hc & He & Hi & Hj & Hu) & Hr).
  destruct r1 as [[]|e].
  2:{ destruct Hr as [-> Hwhy]. simplify_eq. split; [done|]. right. left. exists i, e.
      split_and!; try done. intros ?. by apply Hwhy. }
  destruct Hr as (_ & Hclk & Htop). unfold lift, modify in H.
  rewrite without_token_run in H by done. simplify_eq.
  assert (Hadmit : cluster_wf (Cluster.record_admission c1 (digest_of token) (admission_of i))).
  { apply (cluster_wf_same c1); try done; simpl; [apply Hwf1|].
    intros k j. rewrite od_get_set. case_decide; [subst; rewrite Hu; simpl; set_solver|].
    apply (cluster_admissions _ Hwf1). }
  split; [done|]. right; right. exists i. split_and!; try done.
  unfold after_consume. simpl. rewrite Hl, Hc, He, Hi, Hj, Hu. by split_and!.
Qed.

(** ** Joining *)

(** The members a joining node knows. *)
Definition joined_members (self coordinator : NodeId) : list (NodeId * RoleAssignment) :=
  od_of_list [(self, RoleAssignment.mk {[WORKER]} (Some self) false false false);
              (coordinator, promoted_assignment coordinator)].

Lemma joined_members_elem self k n a : (n, a) ∈ joined_members self k →
  RoleAssignment.node_id a = Some n ∧ RoleAssignment.valid a ∧
  (a = promoted_assignment k ∨ RoleAssignment.roles a = {[WORKER]}).
Proof.
  unfold joined_members, od_of_list. simpl. case_decide.
  - subst. intros ?%list_elem_of_singleton. simplify_eq.
    split_and!; [done|apply promoted_valid|by left].
  - intros [?|?%list_elem_of_singleton]%elem_of_cons; simplify_eq; split_and!; try done;
      [apply idle_worker_valid|by right|apply promoted_valid|by left].
Qed.

Lemma joined_wf self k e p g : CoordinatorEpoch.valid e → (∀ x, x ∈ p → (0 ≤ x)%Z) →
  NoDup (CapabilityGrant.key <$> g) → Forall CapabilityGrant.valid g →
  wf (RoleState.mk (joined_members self k).*2 (Some e) p g).
Proof.
  intros He Hp Hk Hg.
  assert (Hin : ∀ a, a ∈ (joined_members self k).*2 → ∃ n, (n, a) ∈ joined_members self k).
  { intros a ([n b] & -> & ?)%list_elem_of_fmap. by exists n. }
  assert (Hact : ∀ a n r, (n, a) ∈ joined_members self k → r ≠ WORKER → active r a = true →
            a = promoted_assignment k).
  { intros a n r Ha Hr Hact. destruct (joined_members_elem _ _ _ _ Ha) as (_ & _ & [?|Hw]); [done|].
    unfold active, RoleAssignment.has in Hact. rewrite Hw in Hact. to_prop. set_solver. }
  assert (Hu : ∀ r, r ≠ WORKER → uniq r (joined_members self k).*2).
  { intros r Hr a b n m [? Ha]%Hin [? Hb]%Hin Hn Hm Hra Hrb.
    apply (Hact _ _ r) in Ha as ->; [|done..]. apply (Hact _ _ r) in Hb as ->; [|done..].
    by simplify_eq/=. }
  split; simpl; [split|..]; auto.
  - rewrite keyed_ids; [apply od_of_list_NoDup|].
    intros n a Ha. by apply joined_members_elem in Ha as (? & _).
  - apply Forall_forall. intros a [n Ha]%Hin. by apply joined_members_elem in Ha as (_ & ? & _).
  - intros e' ?. by simplify_eq.
Qed.

Lemma joined_members_run self k : 
  (w ← RoleAssignment.new {[WORKER]} self;
   a ← RoleAssignment.new {[COORDINATOR; WORKER]} k;
   Ok (od_of_list [(self, w); (k, a)])) = Ok (joined_members self k).
Proof.
  rewrite new_promoted. unfold RoleAssignment.new. by rewrite RoleAssignment.__post_init__worker.
Qed.

(** A join that raises leaves the joining node as it was; one that returns makes it
    a Worker of the coordinator's cluster. *)
Lemma join_cases invite admitted now clock self coord self' coord' r :
  cluster_wf self → cluster_wf coord →
  Cluster.join sha256_hex invite admitted now clock (self, coord) = ((self', coord'), r) →
  cluster_wf self' ∧ cluster_wf coord' ∧
  match r with
  | Err _ => self' = self
  | Ok _ =>
      admitted = Ok true ∧
      (∃ a, Cluster.local_assignment self = Ok a ∧ RoleAssignment.revoked a = false ∧
         RoleAssignment.paused a = false) ∧
      (∃ i, Cluster.consume_invite sha256_hex (InviteRecord.token invite) (Cluster.local_id self)
              now clock true coord = (coord', Ok i)) ∧
      Cluster.assignments self' = joined_members (Cluster.local_id self) (Cluster.local_id coord) ∧
      Cluster.cluster_id self' = Cluster.cluster_id coord ∧
      Cluster.epoch self' = Cluster.epoch coord ∧
      Cluster.local_id self' = Cluster.local_id self ∧
      Cluster._used_invites self' = Cluster._used_invites self ∧
      Cluster._join_admissions self' = Cluster._join_admissions self
  end.
Proof.
  intros Hs Hc H. unfold Cluster.join in H. rewrite local_assignment_run in H.
  destruct admitted as [[]|]; simpl in H; [|by simplify_eq..].
  set (a := match od_get _ _ with Some _ => _ | None => _ end) in H.
  destruct (RoleAssignment.revoked a || RoleAssignment.paused a) eqn:Hra; [by simplify_eq|].
  destruct (bool_decide _ && _) in H; [by simplify_eq|].
  destruct (Cluster.consume_invite _ _ _ _ _ _ _) as [c1 [i|e]] eqn:Hcons.
  2:{ simplify_eq. by destruct (consume_cases _ _ _ _ _ _ _ _ Hc Hcons) as [? _]. }
  rewrite joined_members_run in H. simplify_eq.
  pose proof (consume_cases _ _ _ _ _ _ _ _ Hc Hcons) as [Hc' Hcase].
  assert (Hsame : Cluster.local_id coord' = Cluster.local_id coord ∧
            Cluster.cluster_id coord' = Cluster.cluster_id coord ∧
            Cluster.epoch coord' = Cluster.epoch coord).
  { destruct Hcase as [(-> & _)|[(? & ? & _ & _ & -> & _)|(? & _ & _ & _ & _ & ? & ? & ? & _)]]; done. }
  destruct Hsame as (Hl & Hcl & He). split; [|split; [done|]].
  - split; simpl.
    + rewrite Hl. intros n b ?%joined_members_elem. tauto.
    + destruct (cluster_topology _ Hs) as [[_ _ _ ? ?] _ _ ?].
      apply joined_wf; try done. by apply (wf_epoch _ (cluster_topology _ Hc')).
    + apply Hs.
    + apply Hs.
  - simpl. rewrite Hl, Hcl, He. to_prop. split_and!; try done; [|by eauto].
    exists a. by split_and!.
Qed.

(** ** Every history of a cluster *)

Inductive cluster_step (c : Cluster.t) : Cluster.t → Prop :=
  | step_create target now token c' r :
      Cluster.create_invite sha256_hex target now token c = (c', r) → cluster_step c c'
  | step_assign n role now c' r : Cluster.assign n role now c = (c', r) → cluster_step c c'
  | step_revoke n c' r : Cluster.revoke n c = (c', r) → cluster_step c c'
  | step_consume token target current clock retry c' r :
      Cluster.consume_invite sha256_hex token target current clock retry c = (c', r) →
      cluster_step c c'
  | step_online n b : cluster_step c (Cluster.set_online c n b)
  | step_join invite admitted now clock coord c' coord' r : cluster_wf coord →
      Cluster.join sha256_hex invite admitted now clock (c, coord) = ((c', coord'), r) →
      cluster_step c c'.

Lemma create_cases target now token c c' r : cluster_wf c →
  Cluster.create_invite sha256_hex target now token c = (c', r) →
  cluster_wf c' ∧ Cluster._used_invites c' = Cluster._used_invites c ∧
  Cluster._join_admissions c' = Cluster._join_admissions c.
Proof.
  intros Hwf H. unfold Cluster.create_invite in H.
  destruct (Cluster.is_active_coordinator c); simpl in H; [|by simplify_eq].
  destruct (create_invite _ _ _ _ _ _ _) as [i|e] eqn:Hi; [|by simplify_eq].
  simplify_eq. split; [|done]. apply (cluster_wf_same c); try done; simpl.
  - intros k j [?|?]%od_set_elem; [|by eapply cluster_invites].
    simplify_eq. unfold create_invite in Hi. repeat res_step.
    by apply InviteRecord.invite_Ok in Hi as [-> ?].
  - apply Hwf.
Qed.

(** Used digests stay used, and the admission of a used digest never changes. *)
Definition remembers (c c' : Cluster.t) : Prop :=
  ∀ d, d ∈ Cluster._used_invites c → d ∈ Cluster._used_invites c' ∧
    od_get d (Cluster._join_admissions c') = od_get d (Cluster._join_admissions c).

Lemma remembers_same c c' : Cluster._used_invites c' = Cluster._used_invites c →
  Cluster._join_admissions c' = Cluster._join_admissions c → remembers c c'.
Proof. intros Hu Ha d. by rewrite Hu, Ha. Qed.

Lemma consume_remembers token target current clock retry c c' r : cluster_wf c →
  Cluster.consume_invite sha256_hex token target current clock retry c = (c', r) →
  remembers c c'.
Proof.
  intros Hwf H. destruct (consume_cases _ _ _ _ _ _ _ _ Hwf H)
    as [_ [(-> & _)|[(i & e & _ & Ha & -> & _)|(i & _ & Ha & _ & _ & _ & _ & _ & _ & Hu & Hj)]]].
  - done.
  - intros d Hd. simpl. split; [set_solver|done].
  - intros d Hd. rewrite Hu, Hj. split; [set_solver|]. apply od_get_set_ne. intros <-.
    by apply (accepted_unused _ _ _ _ _ Ha).
Qed.

Lemma step_preserves c c' : cluster_step c c' → cluster_wf c → cluster_wf c' ∧ remembers c c'.
Proof.
  intros H Hwf. destruct H as [target now token c' r H|n role now c' r H|n c' r H
    |token target current clock retry c' r H|n b|invite adm now clock coord c' coord' r Hc H].
  - destruct (create_cases _ _ _ _ _ _ Hwf H) as (? & ? & ?). auto using remembers_same.
  - destruct (cluster_assign_cases _ _ _ _ _ _ Hwf H) as (? & (_ & _ & _ & _ & ? & ?) & _).
    auto using remembers_same.
  - destruct (cluster_revoke_cases _ _ _ _ Hwf H) as (? & (_ & _ & _ & _ & ? & ?) & _).
    auto using remembers_same.
  - destruct (consume_cases _ _ _ _ _ _ _ _ Hwf H) as [? _]. split; [done|].
    by eapply consume_remembers.
  - split; [|done]. apply (cluster_wf_same c); try done; apply Hwf.
  - destruct (join_cases _ _ _ _ _ _ _ _ _ Hwf Hc H) as (? & _ & Hr). split; [done|].
    destruct r; [|by subst]. destruct Hr as (_ & _ & _ & _ & _ & _ & _ & ? & ?).
    by apply remembers_same.
Qed.

Lemma steps_preserve c c' : rtc cluster_step c c' → cluster_wf c → cluster_wf c' ∧ remembers c c'.
Proof.
  induction 1 as [c|c c1 c2 Hs _ IH]; intros Hwf; [done|].
  destruct (step_preserves _ _ Hs Hwf) as [Hwf1 Hr]. destruct (IH Hwf1) as [? Hr'].
  split; [done|]. intros d Hd. destruct (Hr d Hd) as [Hd1 He]. destruct (Hr' d Hd1) as [? He'].
  split; [done|]. congruence.
Qed.

Lemma init_wf id now cid token c : Cluster.__init__ id now cid token = Ok c → cluster_wf c.
Proof.
  intros H. unfold Cluster.__init__, ClusterState.create_local in H. repeat res_step.
  repeat match goal with H : NodeId.__post_init__ _ = Ok _ |- _ =>
    apply NodeId.node_id_Ok in H as [-> _] end.
  destruct id as [id]. simpl in *. rewrite new_promoted in *. repeat res_step.
  match goal with H : CoordinatorEpoch.__post_init__ _ _ _ _ _ = Ok _ |- _ =>
    apply CoordinatorEpoch.epoch_Ok in H as [-> He] end. subst. simpl in *.
  repeat res_step. simplify_eq. unfold ClusterState.local_assignment in *. repeat res_step.
  simpl in *. rewrite bool_decide_eq_true_2 in * by done. subst.
  split; simpl.
  - intros n a ?%list_elem_of_singleton. by simplify_eq.
  - assert (Hj : joined_members (mkNodeId id) (mkNodeId id)
              = [(mkNodeId id, promoted_assignment (mkNodeId id))]).
    { unfold joined_members, od_of_list. simpl. by rewrite decide_True. }
    pose proof (joined_wf (mkNodeId id) (mkNodeId id)) as Hjw. rewrite Hj in Hjw.
    apply Hjw; try done; constructor.
  - intros k i ?. set_solver.
  - done.
Qed.

(** ** Theorems *)

(** Whatever a cluster goes through after its creation (invites, joins on either
    side, assignments, revocations, presence changes, each possibly failing), it
    keeps a well-formed topology: one entry per member under its own id, at most one
    active Coordinator and one active Subcoordinator, valid grants and epoch, and
    every recorded admission belongs to a spent invite. *)
Theorem cluster_always_wf id now cid token c c' :
  Cluster.__init__ id now cid token = Ok c → rtc cluster_step c c' → cluster_wf c'.
Proof. intros Hi Hs. apply (steps_preserve _ _ Hs). by eapply init_wf. Qed.

(** [consume_invite] on every branch.  It returns an invite either as the retry of
    an admission of the same target, changing nothing, or on a first use: the local
    node controls the cluster, the invite is known, unspent, unexpired and made for
    this target, cluster and epoch; then the target becomes a Worker of the topology,
    the invite is removed under both its keys and its digest is spent.  A call that
    raises changes nothing, except that an accepted invite whose role assignment is
    refused is spent all the same. *)
Theorem consume_invite_exact token target current clock retry c :
  cluster_wf c →
  let digest := digest_of token in
  match Cluster.consume_invite sha256_hex token target current clock retry c with
  | (c', Ok i) =>
      (retry = true ∧ c' = c ∧ od_get digest (Cluster._join_admissions c) = Some i ∧
         InviteRecord.target_id i = Ok target) ∨
      (accepted c token target current i ∧
         topology c' = assign_result (topology c) target {[WORKER]} ∧
         od_get token (Cluster._invites c') = None ∧ od_get digest (Cluster._invites c') = None ∧
         digest ∈ Cluster._used_invites c' ∧
         od_get digest (Cluster._join_admissions c') = Some (admission_of i))
  | (c', Err _) =>
      (c' = c ∧ ∀ i, ¬ accepted c token target current i) ∨
      (∃ i, accepted c token target current i ∧ c' = Cluster.burn c token digest ∧
         (isfinite clock = true → worker_refused c target))
  end.
Proof.
  intros Hwf digest. destruct (Cluster.consume_invite _ _ _ _ _ _ _) as [c' r] eqn:H.
  destruct (consume_cases _ _ _ _ _ _ _ _ Hwf H) as
    [_ [(-> & Hna & Hi)|[(i & e & -> & Ha & -> & Hwhy)|(i & -> & Ha & _ & Ht & _ & _ & _ & Hinv & Hu & Hj)]]].
  - destruct r as [i|e]; [left|by left]. destruct (Hi i eq_refl) as (-> & ? & ?). done.
  - right. by exists i.
  - right. rewrite Hinv, Hu, Hj. split_and!; try done.
    + rewrite od_get_pop. case_decide; [done|]. apply od_get_pop_eq.
    + apply od_get_pop_eq.
    + set_solver.
    + apply od_get_set_eq.
Qed.

(** C23. An invite admits one node once: after a token was accepted for a target, and
    whatever happens to the cluster afterwards, presenting the token again never
    changes anything and is refused, except for a retry by that same target. *)
Theorem invite_admits_once token target current clock retry c c1 i :
  cluster_wf c →
  Cluster.consume_invite sha256_hex token target current clock retry c = (c1, Ok i) →
  ∀ c2 target' current' clock' retry' c3 r,
    rtc cluster_step c1 c2 →
    Cluster.consume_invite sha256_hex token target' current' clock' retry' c2 = (c3, r) →
    c3 = c2 ∧ ∀ j, r = Ok j → retry' = true ∧ target' = target.
Proof.
  intros Hwf H c2 target' current' clock' retry' c3 r Hs H'.
  destruct (consume_cases _ _ _ _ _ _ _ _ Hwf H) as [Hwf1 Hcase].
  assert (Hspent : digest_of token ∈ Cluster._used_invites c1 ∧
     ∃ adm, od_get (digest_of token) (Cluster._join_admissions c1) = Some adm ∧
       InviteRecord.target_id adm = Ok target).
  { destruct Hcase as [(-> & _ & Hi)|[(? & ? & ? & _)|(j & Hj & Ha & _ & _ & _ & _ & _ & _ & Hu & Had)]];
      simplify_eq.
    - destruct (Hi i eq_refl) as (_ & Hadm & ?). split; [by eapply cluster_admissions|eauto].
    - rewrite Hu, Had. split; [set_solver|]. rewrite od_get_set_eq. eexists. split; [done|].
      apply Ha. }
  destruct Hspent as (Hused & adm & Hadm & Htgt).
  destruct (steps_preserve _ _ Hs Hwf1) as [Hwf2 Hrem]. destruct (Hrem _ Hused) as [Hused2 Hadm2].
  destruct (consume_cases _ _ _ _ _ _ _ _ Hwf2 H') as
    [_ [(-> & _ & Hj)|[(? & ? & _ & [] & _)|(? & _ & [] & _)]]]; [|done..].
  split; [done|]. intros j Hr. destruct (Hj j Hr) as (-> & ? & ?). split; [done|]. congruence.
Qed.

Lemma joined_get self k n : self ≠ k → od_get n (joined_members self k) =
  if decide (n = self) then Some (RoleAssignment.mk {[WORKER]} (Some self) false false false)
  else if decide (n = k) then Some (promoted_assignment k) else None.
Proof. intros. unfold joined_members, od_of_list. simpl. by rewrite decide_False. Qed.

(** Joining admits the local node only through an authenticated pair and an invite
    the coordinator accepts; it then knows exactly the coordinator and itself, as a
    Worker, under the coordinator's cluster id and epoch, and controls nothing.  A
    join that raises leaves the joining node unchanged, and both clusters stay well
    formed. *)
Theorem join_makes_a_worker invite admitted now clock self coord :
  cluster_wf self → cluster_wf coord → Cluster.local_id self ≠ Cluster.local_id coord →
  match Cluster.join sha256_hex invite admitted now clock (self, coord) with
  | ((self', coord'), Ok _) =>
      cluster_wf self' ∧ cluster_wf coord' ∧ admitted = Ok true ∧
      (∃ i, Cluster.consume_invite sha256_hex (InviteRecord.token invite) (Cluster.local_id self)
              now clock true coord = (coord', Ok i)) ∧
      Cluster.cluster_id self' = Cluster.cluster_id coord ∧
      Cluster.epoch self' = Cluster.epoch coord ∧
      (∀ n, Cluster.is_member self' n = true ↔
         n = Cluster.local_id self ∨ n = Cluster.local_id coord) ∧
      Cluster.local_role self' = Ok WORKER ∧ Cluster.is_active_coordinator self' = false
  | ((self', coord'), Err _) => self' = self ∧ cluster_wf coord'
  end.
Proof.
  intros Hs Hc Hne. destruct (Cluster.join _ _ _ _ _ _) as [[self' coord'] r] eqn:H.
  destruct (join_cases _ _ _ _ _ _ _ _ _ Hs Hc H) as (Hs' & Hc' & Hr). destruct r as [u|e]; [|done].
  destruct Hr as (-> & _ & ? & Hm & ? & ? & Hl & _). split_and!; try done.
  - intros n. unfold Cluster.is_member. rewrite Hm, joined_get by done.
    case_decide; [tauto|]. case_decide; [tauto|]. split; [done|tauto].
  - unfold Cluster.local_role. rewrite Hm, Hl, joined_get, decide_True by done. reflexivity.
  - unfold Cluster.is_active_coordinator.
    rewrite Hm, Hl, joined_get, decide_True by done. reflexivity.
Qed.

(** A restored invite can be spent with its digest in place of its token:
    [_restore_invites] files it under the digest, and [consume_invite] looks the
    presented string up before hashing it.  Whoever reads the stored digest can join,
    although only the digest is stored so that this should not be possible. *)
Theorem restored_digest_is_accepted c0 i target current clock :
  cluster_wf c0 → InviteRecord.valid i →
  let c := Cluster._restore_invites c0 [i] in
  let stolen := InviteRecord.token_hash i in
  controls (topology c0) (Cluster.local_id c0) →
  digest_of stolen ∉ Cluster._used_invites c0 →
  fleb (InviteRecord.expires_at i) current = false → isfinite clock = true →
  InviteRecord.target_id i = Ok target → target ≠ Cluster.local_id c0 →
  InviteRecord.cluster_id i = Cluster.cluster_id c0 →
  InviteRecord.epoch i = CoordinatorEpoch.epoch (Cluster.epoch c0) →
  (∀ a, RoleState.assignment_for (topology c0) target = Some a → RoleAssignment.revoked a = false) →
  ∃ c', Cluster.consume_invite sha256_hex stolen target current clock false c = (c', Ok i) ∧
    topology c' = assign_result (topology c0) target {[WORKER]}.
Proof.
  intros Hwf Hi c stolen Hctl Hun Hlive Hclk Htgt Hne Hcid Hep Hrev.
  assert (Hwfc : cluster_wf c).
  { apply (cluster_wf_same c0); try done; [|apply Hwf]. simpl. intros k j [?|?]%od_set_elem;
      [by simplify_eq/=|by eapply cluster_invites]. }
  assert (Hacc : accepted c stolen target current i).
  { split; try done.
    - simpl. destruct (od_get _ _) eqn:E; [|done]. by apply (cluster_admissions _ Hwf) in E.
    - unfold Cluster.find_invite. simpl. by rewrite od_get_set_eq. }
  destruct (Cluster.consume_invite sha256_hex stolen target current clock false c) as [c' r] eqn:H.
  destruct (consume_cases _ _ _ _ _ _ _ _ Hwfc H) as
    [_ [(_ & Hna & _)|[(j & e & Hr & Ha & _ & Hwhy)|(j & Hj & Ha & _ & Ht & _)]]].
  - by apply Hna in Hacc.
  - exfalso. destruct (Hwhy Hclk) as [?|(a & Ha' & Hra)]; [done|].
    change (topology c) with (topology c0) in Ha'. rewrite (Hrev a) in Hra; done.
  - exists c'. subst r. destruct Ha as [_ _ Hf _ _ _ _ _], Hacc as [_ _ Hf' _ _ _ _ _].
    split; [congruence|done].
Qed.
End invites.

(** ** At a concrete cluster *)

Definition sample_hash (s : string) : string := "#" +:+ s.
Definition node_n : NodeId := mkNodeId "n".

(** An unexpired invite for [n]. *)
Definition sample_invite : InviteRecord.t :=
  InviteRecord.mk "#tok" "n" (flit 500) "tok" "cl" "c" 1 "token".

Definition sample_cluster (invites : list (string * InviteRecord.t)) : Cluster.t :=
  Cluster.mk node_c "cl" sample_epoch
    [(node_c, as_coordinator); (node_s, as_subcoordinator); (node_w, as_worker)]
    ∅ invites [] ∅ ∅ [sample_grant].

Lemma sample_invite_valid : InviteRecord.valid sample_invite.
Proof. split; [discriminate|reflexivity]. Qed.

Lemma sample_cluster_wf b :
  cluster_wf (sample_cluster (if b : bool then [("tok", sample_invite)] else [])).
Proof.
  split; simpl.
  - intros n a [?|[?|?%list_elem_of_singleton]%elem_of_cons]%elem_of_cons; by simplify_eq.
  - exact sample_wf.
  - destruct b; [|set_solver]. intros k i ?%list_elem_of_singleton. simplify_eq.
    apply sample_invite_valid.
  - done.
Qed.

Lemma cluster_always_wf_witness :
  ∃ c, Cluster.__init__ node_c (flit 0) "cl" "tok" = Ok c ∧
    cluster_wf (Cluster.set_online c node_w true).
Proof.
  run (Cluster.__init__ node_c (flit 0) "cl" "tok") as [c E]. exists c. split; [exact E|].
  apply (cluster_always_wf sample_hash _ _ _ _ _ _ E). apply rtc_once, step_online.
Defined.

(** The outcome of consuming [token] for [n] at time 100. *)
Definition sample_consume (token : string) (c : Cluster.t) : Cluster.t * result InviteRecord.t :=
  Cluster.consume_invite sample_hash token node_n (flit 100) (flit 100) false c.

Lemma sample_consumed : ∃ c1 i, sample_consume "tok" (sample_cluster [("tok", sample_invite)])
  = (c1, Ok i).
Proof.
  destruct (sample_consume _ _) as [c1 [i|e]] eqn:E; [by eauto|]. exfalso.
  apply (f_equal (λ x, is_ok x.2)) in E. vm_compute in E. discriminate E.
Qed.

Lemma consume_invite_exact_witness :
  ∃ c1 i, sample_consume "tok" (sample_cluster [("tok", sample_invite)]) = (c1, Ok i) ∧
    hash_invite sample_hash "tok" ∈ Cluster._used_invites c1.
Proof.
  destruct sample_consumed as (c1 & i & E). exists c1, i. split; [exact E|].
  pose proof (consume_invite_exact sample_hash "tok" node_n (flit 100) (flit 100) false _
    (sample_cluster_wf true)) as H.
  unfold sample_consume in E. cbn beta iota zeta in H. rewrite E in H.
  destruct H as [[H _]|(_ & _ & _ & _ & H & _)]; [discriminate H|exact H].
Defined.

Lemma invite_admits_once_witness :
  ∃ c1 i, sample_consume "tok" (sample_cluster [("tok", sample_invite)]) = (c1, Ok i) ∧
    (sample_consume "tok" c1).1 = c1 ∧ is_ok (sample_consume "tok" c1).2 = false.
Proof.
  destruct sample_consumed as (c1 & i & E). exists c1, i. split; [exact E|].
  destruct (sample_consume "tok" c1) as [c3 r] eqn:E'.
  destruct (invite_admits_once sample_hash _ _ _ _ _ _ _ _ (sample_cluster_wf true) E
    c1 node_n (flit 100) (flit 100) false c3 r (rtc_refl _ _) E') as [-> Hj].
  split; [reflexivity|]. destruct r as [j|e]; [|reflexivity]. by destruct (Hj j eq_refl).
Defined.

Lemma join_makes_a_worker_witness :
  ∃ self r, Cluster.__init__ node_n (flit 0) "other" "tok2" = Ok self ∧
    Cluster.join sample_hash sample_invite (Ok true) (flit 100) (flit 100)
      (self, sample_cluster [("tok", sample_invite)]) = r ∧
    is_ok r.2 = true ∧ Cluster.local_role r.1.1 = Ok WORKER.
Proof.
  run (Cluster.__init__ node_n (flit 0) "other" "tok2") as [self E].
  assert (Hid : Cluster.local_id self = node_n).
  { eapply bool_decide_eq_true_1.
    apply (ok_fact (λ c, bool_decide (Cluster.local_id c = node_n)) _ _ E). vm_compute. reflexivity. }
  pose proof (join_makes_a_worker sample_hash sample_invite (Ok true) (flit 100) (flit 100) self _
    (init_wf _ _ _ _ _ E) (sample_cluster_wf true)) as H.
  rewrite Hid in H. specialize (H ltac:(discriminate)).
  destruct (Cluster.join _ _ _ _ _ _) as [[self' coord'] r] eqn:Er. exists self, ((self', coord'), r).
  split; [exact E|]. split; [exact Er|].
  assert (Hok : is_ok r = true).
  { change r with (((self', coord'), r).2). rewrite <- Er.
    apply (ok_fact (λ s, is_ok (Cluster.join sample_hash sample_invite (Ok true) (flit 100)
      (flit 100) (s, sample_cluster [("tok", sample_invite)])).2) _ _ E).
    vm_compute. reflexivity. }
  split; [exact Hok|]. destruct r as [u|e]; [|discriminate Hok].
  apply H.
Defined.

Lemma restored_digest_is_accepted_witness :
  ∃ c', Cluster.consume_invite sample_hash "#tok" node_n (flit 100) (flit 100) false
    (Cluster._restore_invites (sample_cluster []) [sample_invite]) = (c', Ok sample_invite).
Proof.
  destruct (restored_digest_is_accepted sample_hash (sample_cluster []) sample_invite node_n
    (flit 100) (flit 100) (sample_cluster_wf false) sample_invite_valid) as (c' & H & _).
  - apply (active_controls _ (sample_cluster_wf false)). reflexivity.
  - set_solver.
  - reflexivity.
  - reflexivity.
  - reflexivity.
  - discriminate.
  - reflexivity.
  - reflexivity.
  - intros a Ha. vm_compute in Ha. discriminate Ha.
  - exists c'. exact H.
Defined.
