(* ===== verification/Sharing.v ===== *)
(** * Target-owned capability sharing ([sharing/capabilities.py])

    [CapabilityShare] owns the handlers a host registers and the grants it gives to
    peers.  A handler is known by its identity; while it runs no lock is held, so
    the share it returns to may have changed in any way. *)

From S2P Require Import Prelude Identity.

Definition MAX_CAPABILITY_ID_LENGTH : Z := 128.

(** [str.isspace] on one character (code points below 256). *)
Definition is_space (c : Ascii.ascii) : bool :=
  let n := Ascii.nat_of_ascii c in
  (Nat.leb 9 n && Nat.leb n 13) || (Nat.leb 28 n && Nat.leb n 32) || Nat.eqb n 133 || Nat.eqb n 160.

(** [not s.strip()] *)
Definition is_blank (s : string) : bool := forallb is_space (String.list_ascii_of_string s).

Definition validate_capability_id (capability : string) : result () :=
  raise_if (is_blank capability || (MAX_CAPABILITY_ID_LENGTH <? py_len capability)%Z)
    ValueError "invalid capability".

Definition _is_valid_capability_id (capability : string) : bool :=
  is_ok (validate_capability_id capability).

Module CapabilityShare.
Section share.
(** The handlers, compared with [is], the parameters and the results. *)
Context {H : Type} `{EqDecision H} {P R : Type}.

Record t := mk {
  _handlers : gmap string H;
  _allowed : gmap NodeId (gset string);
  _grant_generations : gmap (NodeId * string) Z;
  _next_generation : Z }.

Definition __init__ : t := mk ∅ ∅ ∅ 0.

Definition register (capability : string) (handler : H) : M t () := λ s,
  match validate_capability_id capability with
  | Err e => (s, Err e)
  | Ok _ =>
      match _handlers s !! capability with
      | Some _ => (s, raise ValueError "invalid or duplicate capability")
      | None => (mk (<[capability := handler]> (_handlers s)) (_allowed s) (_grant_generations s)
                   (_next_generation s), Ok ())
      end
  end.

Definition allow (peer_id : NodeId) (capability : string) : M t () := λ s,
  match validate_capability_id capability with
  | Err e => (s, Err e)
  | Ok _ =>
      match _handlers s !! capability with
      | None => (s, raise ValueError "unknown capability")
      | Some _ =>
          let allowed := default ∅ (_allowed s !! peer_id) in
          if decide (capability ∈ allowed) then (s, Ok ())
          else (mk (_handlers s) (<[peer_id := allowed ∪ {[capability]}]> (_allowed s))
                  (<[(peer_id, capability) := (_next_generation s + 1)%Z]> (_grant_generations s))
                  (_next_generation s + 1), Ok ())
      end
  end.

Definition revoke (peer_id : NodeId) (capability : string) : M t () := λ s,
  match validate_capability_id capability with
  | Err e => (s, Err e)
  | Ok _ =>
      match _allowed s !! peer_id with
      | None => (s, Ok ())
      | Some allowed =>
          let rest := allowed ∖ {[capability]} in
          (mk (_handlers s)
             (if decide (rest = ∅) then delete peer_id (_allowed s)
              else <[peer_id := rest]> (_allowed s))
             (delete (peer_id, capability) (_grant_generations s)) (_next_generation s), Ok ())
      end
  end.

Definition revoke_peer (peer_id : NodeId) : M t () := λ s,
  match _allowed s !! peer_id with
  | None => (s, Ok ())
  | Some allowed =>
      (mk (_handlers s) (delete peer_id (_allowed s))
         (foldr (λ capability g, delete (peer_id, capability) g) (_grant_generations s)
            (elements allowed))
         (_next_generation s), Ok ())
  end.

Definition clear_grants : M t () := λ s, (mk (_handlers s) ∅ ∅ (_next_generation s), Ok ()).

(** The handler and the generation under which a request is authorized. *)
Definition authorized (s : t) (peer_id : NodeId) (capability : string) : option (H * Z) :=
  handler ← _handlers s !! capability;
  allowed ← _allowed s !! peer_id;
  generation ← _grant_generations s !! (peer_id, capability);
  if decide (capability ∈ (allowed : gset string)) then Some (handler, generation) else None.

(** [run] calls the handler: it gives the result and the share as it then is. *)
Definition request (run : H → NodeId → P → M t R) (peer_id : NodeId) (capability : string)
    (params : P) : M t R := λ s,
  match validate_capability_id capability with
  | Err e => (s, Err e)
  | Ok _ =>
      match authorized s peer_id capability with
      | None => (s, raise PermissionError "capability is not authorized")
      | Some (handler, generation) =>
          match run handler peer_id params s with
          | (s', Err _) => (s', raise CapabilityHandlerError "capability handler failed")
          | (s', Ok value) =>
              (s', if decide (authorized s' peer_id capability = Some (handler, generation))
                   then Ok value
                   else raise PermissionError "capability authorization changed during request")
          end
      end
  end.
End share.
Arguments t : clear implicits.
End CapabilityShare.

(** * Sharing: grants are explicit, isolated and revocable even during a request *)

Import CapabilityShare.

Section spec.
Context {H : Type} `{EqDecision H} {P R : Type}.
Notation share := (CapabilityShare.t H).
Implicit Types (s : share) (p : NodeId) (c : string).

(** The operations of the target. *)
Inductive share_op :=
  | SRegister (c : string) (h : H)
  | SAllow (p : NodeId) (c : string)
  | SRevoke (p : NodeId) (c : string)
  | SRevokePeer (p : NodeId)
  | SClear.

Definition share_run (o : share_op) (s : share) : share :=
  (match o with
   | SRegister c h => register c h
   | SAllow p c => allow p c
   | SRevoke p c => revoke p c
   | SRevokePeer p => revoke_peer p
   | SClear => clear_grants
   end s).1.

Definition share_exec (ops : list share_op) (s : share) : share := foldl (flip share_run) s ops.

(** [o] withdraws [c] from [p]. *)
Definition withdraws (o : share_op) (p : NodeId) (c : string) : bool :=
  match o with
  | SRevoke p' c' => bool_decide (p' = p ∧ c' = c ∧ is_ok (validate_capability_id c) = true)
  | SRevokePeer p' => bool_decide (p' = p)
  | SClear => true
  | _ => false
  end.

Definition holds (s : share) (p : NodeId) (c : string) : Prop :=
  ∃ allowed, _allowed s !! p = Some allowed ∧ c ∈ allowed.

(** A grant is a pair with a generation drawn from the counter, for a registered
    capability; a peer without grants has no entry. *)
Record share_inv (s : share) : Prop := {
  inv_generation : ∀ p c, holds s p c ↔ ∃ g, _grant_generations s !! (p, c) = Some g;
  inv_counter : ∀ k g, _grant_generations s !! k = Some g → (g ≤ _next_generation s)%Z;
  inv_registered : ∀ p c, holds s p c → ∃ h, _handlers s !! c = Some h;
  inv_nonempty : ∀ p allowed, _allowed s !! p = Some allowed → allowed ≠ ∅ }.

Lemma delete_all_lookup (g : gmap (NodeId * string) Z) p p' c' l :
  foldr (λ c g, delete (p, c) g) g l !! (p', c')
  = if decide (p' = p ∧ c' ∈ l) then None else g !! (p', c').
Proof.
  induction l as [|c l IH]; simpl.
  - rewrite decide_False; [done|]. set_solver.
  - destruct (decide ((p, c) = (p', c'))) as [Heq|Hne].
    + simplify_eq. rewrite lookup_delete_eq, decide_True; [done|]. set_solver.
    + rewrite lookup_delete_ne, IH by done. repeat case_decide; try done; set_solver.
Qed.

Lemma init_inv : share_inv CapabilityShare.__init__.
Proof. split; unfold holds; simpl; intros; simplify_map_eq; naive_solver. Qed.

(** ** What each operation does to one pair *)

(** [allow] gives a new grant. *)
Definition grants_anew (o : share_op) (s : share) (p : NodeId) (c : string) : Prop :=
  o = SAllow p c ∧ is_ok (validate_capability_id c) = true ∧ is_Some (_handlers s !! c) ∧
  ¬ holds s p c.

Lemma holds_default s p c : holds s p c ↔ c ∈ default ∅ (_allowed s !! p).
Proof.
  unfold holds. destruct (_allowed s !! p) as [al|]; simpl; [|set_solver].
  split; [intros (x & ? & ?); by simplify_eq|eauto].
Qed.

#[export] Instance holds_dec s p c : Decision (holds s p c).
Proof. refine (cast_if (decide (c ∈ default ∅ (_allowed s !! p)))); by rewrite holds_default. Defined.

Ltac plain := split; [by auto|by intros [[? _]|(? & _)]].
Ltac not_this := by intros (? & ? & _).

Lemma run_allowed o s p c : share_inv s →
  c ∈ default ∅ (_allowed (share_run o s) !! p) ↔
  (c ∈ default ∅ (_allowed s !! p) ∧ withdraws o p c = false) ∨ grants_anew o s p c.
Proof.
  intros Hi. unfold grants_anew, share_run. rewrite holds_default.
  destruct o as [c' h|p' c'|p' c'|p'|]; simpl.
  - unfold register. repeat case_match; simpl; plain.
  - unfold allow. destruct (validate_capability_id c') as [u|e] eqn:Hv; simpl.
    2:{ split; [auto|]. intros [[? _]|(? & Hok & _)]; [done|]. simplify_eq. by rewrite Hv in Hok. }
    destruct (_handlers s !! c') as [h|] eqn:Hh; simpl.
    2:{ split; [auto|]. intros [[? _]|(? & _ & [? Hs] & _)]; [done|]. simplify_eq. }
    case_decide as Hin; simpl.
    { split; [auto|]. intros [[? _]|(? & _ & _ & Hn)]; [done|]. by simplify_eq. }
    destruct (decide (p = p')) as [->|Hp].
    + rewrite lookup_insert_eq. simpl. rewrite elem_of_union, elem_of_singleton. split.
      * intros [?| ->]; [auto|]. right. rewrite Hv. by eauto.
      * intros [[? _]|(? & _)]; [auto|]. simplify_eq. auto.
    + rewrite lookup_insert_ne by done. split; [auto|]. intros [[? _]|(? & _)]; [done|]. simplify_eq.
  - unfold revoke. destruct (validate_capability_id c') as [u|e] eqn:Hv; simpl.
    2:{ rewrite bool_decide_eq_false_2; [plain|]. intros (_ & <- & Hok). by rewrite Hv in Hok. }
    destruct (_allowed s !! p') as [al|] eqn:Ha; simpl.
    + destruct (decide (p = p')) as [->|Hp].
      * rewrite Ha. simpl. destruct (decide (c = c')) as [->|Hc].
        { rewrite bool_decide_eq_true_2 by (by rewrite Hv).
          case_decide; rewrite ?lookup_delete_eq, ?lookup_insert_eq; simpl; set_solver. }
        rewrite bool_decide_eq_false_2 by not_this.
        case_decide; rewrite ?lookup_delete_eq, ?lookup_insert_eq; simpl; set_solver.
      * rewrite bool_decide_eq_false_2 by not_this.
        case_decide; rewrite ?lookup_delete_ne, ?lookup_insert_ne by done; plain.
    + case_bool_decide as Hw; [|plain]. destruct Hw as (-> & -> & _).
      rewrite Ha. simpl. set_solver.
  - unfold revoke_peer. destruct (_allowed s !! p') as [al|] eqn:Ha; simpl.
    + destruct (decide (p = p')) as [->|Hp].
      * rewrite lookup_delete_eq, bool_decide_eq_true_2 by done. simpl. set_solver.
      * rewrite lookup_delete_ne, bool_decide_eq_false_2 by done. plain.
    + case_bool_decide; subst; [|plain]. rewrite Ha. simpl. set_solver.
  - rewrite lookup_empty. simpl. set_solver.
Qed.

Lemma run_counter o s : (_next_generation s ≤ _next_generation (share_run o s))%Z.
Proof.
  unfold share_run. destruct o; simpl;
    unfold register, allow, revoke, revoke_peer; repeat (case_match; simpl); lia.
Qed.

(** The generation of a pair is dropped, drawn anew, or kept. *)
Lemma run_generation o s p c : share_inv s →
  let g' := _grant_generations (share_run o s) !! (p, c) in
  (withdraws o p c = true ∧ g' = None) ∨
  (withdraws o p c = false ∧ grants_anew o s p c ∧ g' = Some (_next_generation s + 1)%Z ∧
     _next_generation (share_run o s) = (_next_generation s + 1)%Z) ∨
  (withdraws o p c = false ∧ ¬ grants_anew o s p c ∧ g' = _grant_generations s !! (p, c)).
Proof.
  intros Hi. unfold grants_anew, share_run.
  destruct o as [c' h|p' c'|p' c'|p'|]; simpl.
  - right; right. unfold register. repeat case_match; simpl; by split_and!; [| intros (? & _) |].
  - right. unfold allow. destruct (validate_capability_id c') as [u|e] eqn:Hv; simpl.
    2:{ right. split_and!; try done. intros (? & Hok & _). simplify_eq. by rewrite Hv in Hok. }
    destruct (_handlers s !! c') as [h|] eqn:Hh; simpl.
    2:{ right. split_and!; try done. intros (? & _ & [? Hs] & _). simplify_eq. }
    case_decide as Hin; simpl.
    { right. split_and!; try done. intros (? & _ & _ & Hn). simplify_eq. by rewrite holds_default in Hn. }
    destruct (decide ((p', c') = (p, c))) as [Heq|Hne].
    + left. simplify_eq. rewrite lookup_insert_eq, Hv, holds_default. split_and!; eauto.
    + right. rewrite lookup_insert_ne by done. split_and!; try done. intros (? & _). simplify_eq.
  - unfold revoke. destruct (validate_capability_id c') as [u|e] eqn:Hv; simpl.
    2:{ right; right. rewrite bool_decide_eq_false_2; [by split_and!; [| intros (? & _) |]|].
        intros (_ & <- & Hok). by rewrite Hv in Hok. }
    destruct (decide ((p', c') = (p, c))) as [Heq|Hne].
    + left. simplify_eq. rewrite bool_decide_eq_true_2 by (by rewrite Hv). split; [done|].
      destruct (_allowed s !! p) as [al|] eqn:Ha; simpl; [apply lookup_delete_eq|].
      destruct (_grant_generations s !! (p, c)) as [g|] eqn:Hg; [|done]. exfalso.
      destruct (proj2 (inv_generation _ Hi p c)) as (x & ? & _); [eauto|congruence].
    + right; right. rewrite bool_decide_eq_false_2 by naive_solver. split_and!; try done.
      * by intros (? & _).
      * destruct (_allowed s !! p') as [al|]; simpl; [by apply lookup_delete_ne|done].
  - unfold revoke_peer. case_bool_decide as Hp.
    + left. split; [done|]. subst.
      destruct (_grant_generations s !! (p, c)) as [g|] eqn:Hg.
      * destruct (proj2 (inv_generation _ Hi p c)) as (al & -> & ?); [eauto|].
        simpl. rewrite delete_all_lookup, decide_True; [done|]. by rewrite elem_of_elements.
      * destruct (_allowed s !! p) as [al|]; simpl; [|done]. rewrite delete_all_lookup. by case_decide.
    + right; right. split_and!; try done; [by intros (? & _)|].
      destruct (_allowed s !! p') as [al|]; simpl; [|done].
      rewrite delete_all_lookup, decide_False; [done|]. intros [? _]. congruence.
  - left. split; [done|]. apply lookup_empty.
Qed.

Lemma run_handlers o s c h : _handlers s !! c = Some h → _handlers (share_run o s) !! c = Some h.
Proof.
  unfold share_run. destruct o as [c' h'|p' c'|p' c'|p'|]; simpl;
    unfold register, allow, revoke, revoke_peer; repeat (case_match; simpl); try done.
  destruct (decide (c' = c)) as [->|]; [congruence|]. by rewrite lookup_insert_ne.
Qed.

Lemma run_nonempty o s p al : share_inv s → _allowed (share_run o s) !! p = Some al → al ≠ ∅.
Proof.
  intros Hi. pose proof (inv_nonempty _ Hi p al) as Hne.
  unfold share_run. destruct o as [c' h'|p' c'|p' c'|p'|]; simpl;
    unfold register, allow, revoke, revoke_peer; repeat (case_match; simpl); try done.
  - destruct (decide (p' = p)) as [->|].
    + rewrite lookup_insert_eq. intros. simplify_eq. set_solver.
    + by rewrite lookup_insert_ne.
  - destruct (decide (p' = p)) as [->|].
    + by rewrite lookup_delete_eq.
    + by rewrite lookup_delete_ne.
  - destruct (decide (p' = p)) as [->|].
    + rewrite lookup_insert_eq. intros. by simplify_eq.
    + by rewrite lookup_insert_ne.
  - destruct (decide (p' = p)) as [->|].
    + by rewrite lookup_delete_eq.
    + by rewrite lookup_delete_ne.
Qed.

Lemma run_inv o s : share_inv s → share_inv (share_run o s).
Proof.
  intros Hi. split.
  - intros p c. rewrite holds_default, run_allowed, <- holds_default by done.
    destruct (run_generation o s p c Hi) as [[Hw ->]|[(Hw & Ha & -> & _)|(Hw & Hn & ->)]]; rewrite Hw.
    + split; [|by intros [? ?]]. intros [[_ ?]|(-> & _)]; [done|]. done.
    + split; [eauto|]. by right.
    + rewrite (inv_generation _ Hi). split; [by intros [[? _]|?]|auto].
  - intros [p c] g Hg. pose proof (run_counter o s).
    destruct (run_generation o s p c Hi) as [[_ Hn]|[(_ & _ & He & ->)|(_ & _ & He)]];
      [congruence| |].
    + assert (g = _next_generation s + 1)%Z by congruence. lia.
    + rewrite He in Hg. apply (inv_counter _ Hi) in Hg. lia.
  - intros p c. rewrite holds_default, run_allowed, <- holds_default by done.
    intros [[Hh _]|(_ & _ & [h Hh] & _)].
    + destruct (inv_registered _ Hi _ _ Hh) as [h ?]. eauto using run_handlers.
    + eauto using run_handlers.
  - intros p al. by apply run_nonempty.
Qed.

(** ** Histories *)

Lemma exec_cons o ops s : share_exec (o :: ops) s = share_exec ops (share_run o s).
Proof. done. Qed.

Lemma exec_inv ops s : share_inv s → share_inv (share_exec ops s).
Proof. revert s. induction ops as [|o ops IH]; intros s Hi; [done|]. by apply IH, run_inv. Qed.

(** A generation that was issued and is gone never comes back. *)
Lemma exec_gone ops s p c g : share_inv s → (g ≤ _next_generation s)%Z →
  _grant_generations s !! (p, c) ≠ Some g →
  _grant_generations (share_exec ops s) !! (p, c) ≠ Some g.
Proof.
  revert s. induction ops as [|o ops IH]; intros s Hi Hle Hg; [done|]. rewrite exec_cons.
  apply IH; [by apply run_inv|pose proof (run_counter o s); lia|].
  destruct (run_generation o s p c Hi) as [[_ ->]|[(_ & _ & -> & _)|(_ & _ & ->)]]; [done| |done].
  intros ?. simplify_eq. lia.
Qed.

Lemma exec_kept ops s p c g : share_inv s → _grant_generations s !! (p, c) = Some g →
  _grant_generations (share_exec ops s) !! (p, c) = Some g ↔
  Forall (λ o, withdraws o p c = false) ops.
Proof.
  revert s. induction ops as [|o ops IH]; intros s Hi Hg; [split; [constructor|done]|].
  rewrite exec_cons, Forall_cons.
  destruct (run_generation o s p c Hi) as [[Hw Hn]|[(Hw & Ha & _)|(Hw & _ & He)]].
  - split; [|by intros [? _]; congruence]. intros H'. exfalso. revert H'.
    apply exec_gone; [by apply run_inv| |congruence].
    apply (inv_counter _ Hi) in Hg. pose proof (run_counter o s). lia.
  - exfalso. destruct Ha as (_ & _ & _ & Hn). apply Hn, (inv_generation _ Hi). eauto.
  - rewrite (IH (share_run o s)); [tauto|by apply run_inv|congruence].
Qed.

Lemma exec_handlers ops s c h : _handlers s !! c = Some h →
  _handlers (share_exec ops s) !! c = Some h.
Proof.
  revert s. induction ops as [|o ops IH]; intros s Hh; [done|]. rewrite exec_cons.
  by apply IH, run_handlers.
Qed.

Lemma authorized_Some s p c h g : share_inv s →
  authorized s p c = Some (h, g) ↔
  _handlers s !! c = Some h ∧ _grant_generations s !! (p, c) = Some g.
Proof.
  intros Hi. unfold authorized. split.
  - intros Ha. by simplify_option_eq.
  - intros [Hh Hg]. destruct (proj2 (inv_generation _ Hi p c)) as (al & Hal & Hin); [eauto|].
    rewrite Hh, Hal, Hg. cbn [mbind option_bind]. by rewrite decide_True.
Qed.

(** ** Theorems *)

(** Grants are explicit and isolated: starting from an empty share a peer holds a
    capability only if it was allowed by name, and a grant survives every history
    that does not withdraw that very pair. *)
Theorem grants_explicit_and_isolated ops p c :
  let s := share_exec ops CapabilityShare.__init__ in
  (holds s p c → SAllow p c ∈ ops) ∧
  (∀ ops', holds s p c → Forall (λ o, withdraws o p c = false) ops' → holds (share_exec ops' s) p c).
Proof.
  intros s. assert (Hi : share_inv s) by apply exec_inv, init_inv. split.
  - assert (Hgen : ∀ ops s0, share_inv s0 → holds (share_exec ops s0) p c →
              holds s0 p c ∨ SAllow p c ∈ ops).
    { clear. induction ops as [|o ops IH]; intros s0 Hi Hh; [by left|]. rewrite exec_cons in Hh.
      destruct (IH _ (run_inv o s0 Hi) Hh) as [Hh'|?]; [|right; set_solver].
      rewrite holds_default, run_allowed, <- holds_default in Hh' by done.
      destruct Hh' as [[? _]|(-> & _)]; [by left|right; set_solver]. }
    intros Hh. destruct (Hgen ops _ init_inv Hh) as [(al & Hal & _)|?]; [|done].
    simpl in Hal. by apply lookup_empty_Some in Hal.
  - intros ops' Hh Hf. apply (inv_generation _ Hi) in Hh as [g Hg].
    apply (inv_generation _ (exec_inv ops' s Hi)). exists g. by apply exec_kept.
Qed.

(** A request is served exactly when the peer holds the capability at the start,
    the handler returns, and nothing that happened while the handler ran withdrew
    the grant: a grant withdrawn and given again in the meantime is a different
    grant, and the result is discarded. *)
Theorem request_served_iff_never_withdrawn (run : H → NodeId → P → M share R) p c params s s' ops v :
  share_inv s →
  (∀ h, _handlers s !! c = Some h → (run h p params s).1 = share_exec ops s) →
  request run p c params s = (s', Ok v) ↔
  is_ok (validate_capability_id c) = true ∧ holds s p c ∧
  (∃ h, _handlers s !! c = Some h ∧ run h p params s = (s', Ok v)) ∧
  Forall (λ o, withdraws o p c = false) ops.
Proof.
  intros Hi Hrun. unfold request. destruct (validate_capability_id c) as [u|e]; simpl.
  2:{ split; [intros; simplify_eq|by intros [? _]]. }
  destruct (authorized s p c) as [[h g]|] eqn:Ha.
  - apply authorized_Some in Ha as [Hh Hg]; [|done]. specialize (Hrun h Hh).
    destruct (run h p params s) as [s1 r] eqn:Hr. simpl in Hrun. subst s1.
    assert (Hback : authorized (share_exec ops s) p c = Some (h, g) ↔
              Forall (λ o, withdraws o p c = false) ops).
    { rewrite authorized_Some by (by apply exec_inv). rewrite (exec_kept ops s) by done.
      split; [tauto|]. split; [by apply exec_handlers|done]. }
    assert (Hholds : holds s p c) by (apply (inv_generation _ Hi); eauto). split.
    + intros Hreq. destruct r as [w|e]; [|simplify_eq]. case_decide as Hd; simplify_eq.
      split_and!; try done; [by exists h|by apply Hback].
    + intros (_ & _ & (h' & Hh' & Hr') & Hf). assert (h' = h) as -> by congruence.
      rewrite Hr in Hr'. simplify_eq. rewrite decide_True; [done|]. by apply Hback.
  - split; [intros; simplify_eq|]. intros (_ & Hh & (h & Hh' & _) & _). exfalso.
    apply (inv_generation _ Hi) in Hh as [g Hg].
    rewrite (proj2 (authorized_Some s p c h g Hi)) in Ha; done.
Qed.
End spec.

(** ** At a concrete share *)

Definition sample_peer : NodeId := mkNodeId "p".
Definition sample_share : CapabilityShare.t nat :=
  share_exec [SRegister "read" 0; SAllow sample_peer "read"] CapabilityShare.__init__.

Lemma sample_share_inv : share_inv sample_share.
Proof. apply exec_inv, init_inv. Qed.

(** A handler that withdraws and restores the grant it runs under is refused. *)
Lemma request_served_iff_never_withdrawn_witness :
  let ops := [SRevoke sample_peer "read"; SAllow sample_peer "read"] in
  let run := λ (_ : nat) (_ : NodeId) (_ : unit) s, (share_exec ops s, Ok true) in
  match (request run sample_peer "read" tt sample_share).2 with Ok b => b | Err _ => false end = false.
Proof.
  intros ops run. apply not_true_iff_false. intros H.
  destruct (request run sample_peer "read" tt sample_share) as [s' [[]|e]] eqn:E; try discriminate H.
  apply (request_served_iff_never_withdrawn run sample_peer "read" tt sample_share s' ops true
    sample_share_inv (λ _ _, eq_refl)) in E as (_ & _ & _ & Hf).
  apply Forall_cons in Hf as [Hf _]. vm_compute in Hf. discriminate Hf.
Defined.
