(* ===== verification/ConnectionState.v ===== *)
(** * The connection axis and its retry policy ([connections/state.py])

    Error messages are text of code points below 256; the only part of [str.lower]
    the classification depends on is the lowering of ASCII letters. *)

From S2P Require Import Prelude PyFloat.

Module ConnectionStatus.
Inductive t :=
  | UNKNOWN | CONNECTING | ONLINE | MIGRATING | RESUMING | OFFLINE
  | AUTHENTICATION_FAILED | IDENTITY_CHANGED.
#[global] Instance eq_dec : EqDecision t.
Proof. solve_decision. Defined.
End ConnectionStatus.

Module PeerFailure.
Inductive t :=
  | TIMEOUT | CONNECTION_REFUSED | ROUTE_FAILURE | DISAPPEARED
  | AUTHENTICATION_FAILED | IDENTITY_CHANGED.
#[global] Instance eq_dec : EqDecision t.
Proof. solve_decision. Defined.
End PeerFailure.

(** [message.lower()] on ASCII letters. *)
Definition lower (s : string) : string :=
  String.string_of_list_ascii
    ((λ c, let n := Ascii.nat_of_ascii c in
           if Nat.leb 65 n && Nat.leb n 90 then Ascii.ascii_of_nat (n + 32) else c)
     <$> String.list_ascii_of_string s).

(** [needle in haystack] *)
Fixpoint contains (needle haystack : string) : bool :=
  String.prefix needle haystack ||
  match haystack with
  | EmptyString => false
  | String _ rest => contains needle rest
  end.

(** [name] is the class name of the error, empty for a plain message. *)
Definition classify_peer_failure (name text : string) : PeerFailure.t :=
  let message := lower text in
  if bool_decide (name ∈ ["RemoteAuthError"; "RemoteProtocolError"])
     || existsb (λ marker, contains marker message)
          ["auth"; "identity"; "fingerprint"; "certificate"]
  then PeerFailure.AUTHENTICATION_FAILED
  else if contains "timeout" message || contains "timed out" message then PeerFailure.TIMEOUT
  else if contains "refused" message then PeerFailure.CONNECTION_REFUSED
  else if contains "route" message || contains "network is unreachable" message
  then PeerFailure.ROUTE_FAILURE
  else PeerFailure.DISAPPEARED.

Module ConnectionState.
Record t := mk {
  status : ConnectionStatus.t;
  reason : option string;
  changed_at : option float }.

Definition unknown (now : option float) : t := mk ConnectionStatus.UNKNOWN None now.
Definition connecting (now : option float) : t := mk ConnectionStatus.CONNECTING None now.
Definition online (now : option float) : t := mk ConnectionStatus.ONLINE None now.
Definition offline (reason : option string) (now : option float) : t :=
  mk ConnectionStatus.OFFLINE reason now.
End ConnectionState.

Module RetryState.
Record t := mk {
  attempt : Z;
  next_attempt_at : option float;
  automatic_retry : bool;
  last_failure : option PeerFailure.t }.

Definition new : t := mk 0 None true None.

(** [failure in {AUTHENTICATION_FAILED, IDENTITY_CHANGED}] *)
Definition is_fatal (failure : PeerFailure.t) : bool :=
  match failure with
  | PeerFailure.AUTHENTICATION_FAILED | PeerFailure.IDENTITY_CHANGED => true
  | _ => false
  end.

(** [base * 2 ** k]: the power is an integer, converted when multiplied. *)
Definition scaled (base : float) (k : Z) : result float :=
  p ← float_of_Z (2 ^ k);
  Ok (fmul base p).

Definition record_failure (failure : PeerFailure.t) (now : float)
    (jitter : option (Z → result float)) (base_seconds max_seconds : float)
    (max_backoff_exponent : Z) : M t () := λ s,
  if negb (isfinite base_seconds) || fltb base_seconds (flit 0)
     || negb (isfinite max_seconds) || fltb max_seconds (flit 0)
     || (max_backoff_exponent <? 0)%Z
  then (s, raise ValueError "invalid retry backoff configuration")
  else
    let n := (attempt s + 1)%Z in
    if is_fatal failure then (mk n None false (Some failure), Ok ())
    else
      let s := mk n (next_attempt_at s) (automatic_retry s) (Some failure) in
      match (exponential ← scaled base_seconds (Z.min (n - 1) max_backoff_exponent);
             extra ← match jitter with
                     | None => Ok (flit 0)
                     | Some f => j ← f n; Ok (fmax (flit 0) j)
                     end;
             raise_if (negb (isfinite extra)) ValueError "retry jitter must be finite";;
             Ok (fadd (fadd now (fmin max_seconds exponential)) extra)) with
      | Err e => (s, Err e)
      | Ok next => (mk n (Some next) true (Some failure), Ok ())
      end.

(** The defaults of the keyword arguments. *)
Definition record_failure_default (failure : PeerFailure.t) (now : float) : M t () :=
  record_failure failure now None (flit 1) (flit 300) 8.

Definition reset : M t () := λ _, (new, Ok ()).
End RetryState.

(** ** Theorems *)

(** The default retry schedule, at every attempt: a recoverable failure never
    raises, counts one attempt and schedules the next one exactly [min 300 (2^n)]
    seconds later, the exponent stopping at 8; a failed authentication or a changed
    identity stops automatic retries until [reset]. *)
Theorem default_backoff_exact s failure now :
  (0 ≤ RetryState.attempt s)%Z →
  RetryState.record_failure_default failure now s =
    let n := RetryState.attempt s in
    (if RetryState.is_fatal failure
     then RetryState.mk (n + 1) None false (Some failure)
     else RetryState.mk (n + 1) (Some (fadd (fadd now (flit (2 ^ Z.min n 8))) (flit 0)))
            true (Some failure),
     Ok ()).
Proof.
  intros Hn. unfold RetryState.record_failure_default, RetryState.record_failure.
  destruct (RetryState.is_fatal failure) eqn:Hf; [reflexivity|]. simpl.
  replace (RetryState.attempt s + 1 - 1)%Z with (RetryState.attempt s) by lia.
  set (k := Z.min (RetryState.attempt s) 8).
  assert (Hk : (k = 0 ∨ k = 1 ∨ k = 2 ∨ k = 3 ∨ k = 4 ∨ k = 5 ∨ k = 6 ∨ k = 7 ∨ k = 8)%Z) by lia.
  repeat (destruct Hk as [->|Hk]; [reflexivity|]). rewrite Hk. reflexivity.
Qed.

Lemma default_backoff_exact_witness :
  RetryState.next_attempt_at
    (RetryState.record_failure_default PeerFailure.TIMEOUT (flit 1000)
       (RetryState.mk 11 None true None)).1 = Some (flit 1256).
Proof.
  rewrite default_backoff_exact; [vm_compute; reflexivity|simpl; lia].
Defined.

(** Under any configuration and any jitter: a call that returns counted one
    attempt and added to the clock a delay of at most [max_seconds] and a finite,
    non-negative jitter; a call that raises never makes a retry due. *)
Theorem backoff_bounded failure now jitter base max_s expo s s' r :
  RetryState.record_failure failure now jitter base max_s expo s = (s', r) →
  match r with
  | Err _ => RetryState.next_attempt_at s' = RetryState.next_attempt_at s ∧
             RetryState.automatic_retry s' = RetryState.automatic_retry s
  | Ok _ =>
      RetryState.attempt s' = (RetryState.attempt s + 1)%Z ∧
      RetryState.last_failure s' = Some failure ∧
      if RetryState.is_fatal failure
      then RetryState.next_attempt_at s' = None ∧ RetryState.automatic_retry s' = false
      else RetryState.automatic_retry s' = true ∧
           ∃ delay extra, RetryState.next_attempt_at s' = Some (fadd (fadd now delay) extra) ∧
             fleb delay max_s = true ∧ isfinite extra = true ∧ fleb (flit 0) extra = true
  end.
Proof.
  unfold RetryState.record_failure. intros H.
  destruct (_ || _ || _ || _ || _) eqn:Hcfg in H; [by simplify_eq|]. to_prop.
  destruct (RetryState.is_fatal failure) eqn:Hf; [by simplify_eq/=|].
  destruct (_ ≫= _) as [next|e] eqn:Hn in H; simplify_eq/=; [|done].
  repeat res_step. subst. split_and!; try done. eexists _, _. split_and!; try done.
  - apply fmin_le_l. by apply isfinite_not_nan.
  - by apply negb_false_iff.
  - destruct jitter as [f|]; repeat res_step; subst; [|reflexivity].
    apply fleb_fmax_l. reflexivity.
Qed.

Lemma backoff_bounded_witness :
  ∃ s', RetryState.record_failure PeerFailure.TIMEOUT (flit 5) (Some (λ _, Ok (flit 2)))
          (flit 1) (flit 4) 8 RetryState.new = (s', Ok ()) ∧
    ∃ delay extra, RetryState.next_attempt_at s' = Some (fadd (fadd (flit 5) delay) extra) ∧
      fleb delay (flit 4) = true.
Proof.
  destruct (RetryState.record_failure PeerFailure.TIMEOUT (flit 5) (Some (λ _, Ok (flit 2)))
    (flit 1) (flit 4) 8 RetryState.new) as [s' r] eqn:E.
  pose proof (backoff_bounded _ _ _ _ _ _ _ _ _ E) as H.
  assert (Hr : r = Ok ()) by (vm_compute in E; by injection E).
  subst r. destruct H as (_ & _ & _ & d & x & ? & ? & _). exists s'. split; [done|]. by exists d, x.
Defined.
