(* ===== verification/NodeRegistry.v ===== *)
(** * The node registry ([nodes/registry.py])

    Trust, membership and connection of each known node, as three independent axes
    of one record. *)

From S2P Require Import Prelude PyFloat Identity ClusterModels ConnectionState.

Module TrustState.
Inductive t := DISCOVERED | TRUSTED | AUTHORIZED | REVOKED.
#[global] Instance eq_dec : EqDecision t.
Proof. solve_decision. Defined.
End TrustState.

Module MembershipState.
Inductive t := NOT_JOINED | MEMBER_WORKER | MEMBER_COORDINATOR | MEMBER_SUBCOORDINATOR.
#[global] Instance eq_dec : EqDecision t.
Proof. solve_decision. Defined.

Definition value (m : t) : string :=
  match m with
  | NOT_JOINED => "not_joined"
  | MEMBER_WORKER => "worker"
  | MEMBER_COORDINATOR => "coordinator"
  | MEMBER_SUBCOORDINATOR => "subcoordinator"
  end.

(** [MembershipState(text)] *)
Definition of_value (s : string) : result t :=
  match List.find (λ m, bool_decide (value m = s))
          [NOT_JOINED; MEMBER_WORKER; MEMBER_COORDINATOR; MEMBER_SUBCOORDINATOR] with
  | Some m => Ok m
  | None => raise ValueError ("'" +:+ s +:+ "' is not a valid MembershipState")
  end.
End MembershipState.

Module NodeRecord.
Record t := mk {
  node_id : NodeId;
  trust : TrustState.t;
  membership : MembershipState.t;
  connection : ConnectionState.t;
  capabilities : gset NodeCapability;
  coordinator_id : option NodeId }.

(** [NodeRecord(node_id)] *)
Definition new (n : NodeId) : t :=
  mk n TrustState.DISCOVERED MembershipState.NOT_JOINED (ConnectionState.unknown None) ∅ None.

Definition with_trust (r : t) (x : TrustState.t) : t :=
  mk (node_id r) x (membership r) (connection r) (capabilities r) (coordinator_id r).
Definition with_capabilities (r : t) (x : gset NodeCapability) : t :=
  mk (node_id r) (trust r) (membership r) (connection r) x (coordinator_id r).
Definition with_connection (r : t) (x : ConnectionState.t) : t :=
  mk (node_id r) (trust r) (membership r) x (capabilities r) (coordinator_id r).
Definition with_membership (r : t) (x : MembershipState.t) (c : NodeId) : t :=
  mk (node_id r) (trust r) x (connection r) (capabilities r) (Some c).
End NodeRecord.

Module NodeRegistry.
Record t := mk {
  local_node_id : NodeId;
  _records : list (NodeId * NodeRecord.t) }.

Definition __init__ (local : NodeId) (cluster_enabled : bool) : t :=
  mk local [(local, NodeRecord.mk local TrustState.AUTHORIZED
    (if cluster_enabled then MembershipState.MEMBER_COORDINATOR else MembershipState.NOT_JOINED)
    (ConnectionState.unknown None) ∅ None)].

Definition record (s : t) (n : NodeId) : option NodeRecord.t := od_get n (_records s).
Definition records (s : t) : list NodeRecord.t := (_records s).*2.

Definition set_record (n : NodeId) (r : NodeRecord.t) : M t NodeRecord.t := λ s,
  (mk (local_node_id s) (od_set n r (_records s)), Ok r).

Definition _require (n : NodeId) : M t NodeRecord.t := λ s,
  (s, of_option (record s n) KeyError (value n)).

Definition observe (n : NodeId) (capabilities : gset NodeCapability) : M t NodeRecord.t := λ s,
  if decide (n = local_node_id s) then _require n s
  else let current := match record s n with Some r => r | None => NodeRecord.new n end in
       set_record n (NodeRecord.with_capabilities current capabilities) s.

Definition promote (n : NodeId) (permissions : gset NodeCapability) : M t NodeRecord.t :=
  current ← _require n;
  throw_if (bool_decide (NodeRecord.trust current = TrustState.REVOKED))
    PermissionError "revoked node requires a fresh pairing";;
  set_record n (NodeRecord.with_capabilities
    (NodeRecord.with_trust current TrustState.AUTHORIZED) permissions).

Definition revoke (n : NodeId) : M t NodeRecord.t :=
  current ← _require n;
  set_record n (NodeRecord.with_trust current TrustState.REVOKED).

Definition set_connection (n : NodeId) (state : ConnectionState.t) : M t NodeRecord.t :=
  current ← _require n;
  set_record n (NodeRecord.with_connection current state).

Definition join (n : NodeId) (role : ClusterRole) (coordinator_id : NodeId) : M t NodeRecord.t :=
  current ← _require n;
  throw_if (negb (bool_decide (NodeRecord.trust current = TrustState.TRUSTED)
                  || bool_decide (NodeRecord.trust current = TrustState.AUTHORIZED)))
    PermissionError "untrusted node cannot join the cluster";;
  membership ← lift (MembershipState.of_value (ClusterRole.value role));
  set_record n (NodeRecord.with_membership current membership coordinator_id).

Definition hydrate_membership (n : NodeId) (role : ClusterRole) (coordinator_id : NodeId)
    : M t NodeRecord.t :=
  current ← _require n;
  membership ← lift (MembershipState.of_value (ClusterRole.value role));
  set_record n (NodeRecord.with_membership current membership coordinator_id).

Definition hydrate_trust (n : NodeId) : M t NodeRecord.t :=
  current ← _require n;
  set_record n (NodeRecord.with_trust current TrustState.AUTHORIZED).
End NodeRegistry.

(** ** Histories *)

Import NodeRegistry.

Inductive registry_op :=
  | RObserve (n : NodeId) (capabilities : gset NodeCapability)
  | RPromote (n : NodeId) (permissions : gset NodeCapability)
  | RRevoke (n : NodeId)
  | RConnection (n : NodeId) (state : ConnectionState.t)
  | RJoin (n : NodeId) (role : ClusterRole) (coordinator : NodeId)
  | RHydrateMembership (n : NodeId) (role : ClusterRole) (coordinator : NodeId)
  | RHydrateTrust (n : NodeId).

Definition registry_call (o : registry_op) : M NodeRegistry.t NodeRecord.t :=
  match o with
  | RObserve n c => observe n c
  | RPromote n p => promote n p
  | RRevoke n => revoke n
  | RConnection n st => set_connection n st
  | RJoin n r c => join n r c
  | RHydrateMembership n r c => hydrate_membership n r c
  | RHydrateTrust n => hydrate_trust n
  end.

Definition op_node (o : registry_op) : NodeId :=
  match o with
  | RObserve n _ | RPromote n _ | RRevoke n | RConnection n _ | RJoin n _ _
  | RHydrateMembership n _ _ | RHydrateTrust n => n
  end.

Definition registry_exec (ops : list registry_op) (s : NodeRegistry.t) : NodeRegistry.t :=
  foldl (λ s o, (registry_call o s).1) s ops.

(** What an operation makes of the record of its node, given that it returns. *)
Definition next_record (o : registry_op) (r : NodeRecord.t) : NodeRecord.t :=
  match o with
  | RObserve _ c => NodeRecord.with_capabilities r c
  | RPromote _ p => NodeRecord.with_capabilities (NodeRecord.with_trust r TrustState.AUTHORIZED) p
  | RRevoke _ => NodeRecord.with_trust r TrustState.REVOKED
  | RConnection _ st => NodeRecord.with_connection r st
  | RJoin _ role c | RHydrateMembership _ role c =>
      NodeRecord.with_membership r
        (match role with
         | WORKER => MembershipState.MEMBER_WORKER
         | COORDINATOR => MembershipState.MEMBER_COORDINATOR
         | SUBCOORDINATOR => MembershipState.MEMBER_SUBCOORDINATOR
         end) c
  | RHydrateTrust _ => NodeRecord.with_trust r TrustState.AUTHORIZED
  end.

(** Why a call on a known node raises. *)
Definition registry_refused (o : registry_op) (r : NodeRecord.t) : bool :=
  match o with
  | RPromote _ _ => bool_decide (NodeRecord.trust r = TrustState.REVOKED)
  | RJoin _ _ _ => negb (bool_decide (NodeRecord.trust r = TrustState.TRUSTED)
                         || bool_decide (NodeRecord.trust r = TrustState.AUTHORIZED))
  | _ => false
  end.

Lemma require_run {A} n (f : NodeRecord.t → M NodeRegistry.t A) s : (_require n ≫= f) s =
  match record s n with Some r => f r s | None => (s, raise KeyError (value n)) end.
Proof. unfold mbind, M_bind, _require. by destruct (record s n). Qed.

Lemma membership_run role : MembershipState.of_value (ClusterRole.value role) =
  Ok (match role with
      | WORKER => MembershipState.MEMBER_WORKER
      | COORDINATOR => MembershipState.MEMBER_COORDINATOR
      | SUBCOORDINATOR => MembershipState.MEMBER_SUBCOORDINATOR
      end).
Proof. by destruct role. Qed.

Lemma call_known o s r : record s (op_node o) = Some r →
  registry_call o s =
    if registry_refused o r
    then (s, raise PermissionError
            (match o with RPromote _ _ => "revoked node requires a fresh pairing"
             | _ => "untrusted node cannot join the cluster" end))
    else match o with
         | RObserve n _ => if decide (n = local_node_id s) then (s, Ok r)
                           else set_record n (next_record o r) s
         | _ => set_record (op_node o) (next_record o r) s
         end.
Proof.
  intros Hr. destruct o; simpl in *; unfold promote, revoke, set_connection, join,
    hydrate_membership, hydrate_trust; rewrite ?require_run, ?Hr; try done.
  - unfold observe, _require. by rewrite Hr.
  - unfold throw_if, mbind, M_bind. by case_bool_decide.
  - unfold throw_if, mbind, M_bind, lift. rewrite membership_run.
    by destruct (negb _).
  - unfold mbind, M_bind, lift. by rewrite membership_run.
Qed.

Lemma call_unknown o s : record s (op_node o) = None →
  registry_call o s =
    match o with
    | RObserve n c =>
        if decide (n = local_node_id s) then (s, raise KeyError (value n))
        else set_record n (NodeRecord.with_capabilities (NodeRecord.new n) c) s
    | _ => (s, raise KeyError (value (op_node o)))
    end.
Proof.
  intros Hr. destruct o; simpl in *; unfold promote, revoke, set_connection, join,
    hydrate_membership, hydrate_trust; rewrite ?require_run, ?Hr; try done.
  unfold observe, _require. by rewrite Hr.
Qed.

Lemma record_set n r s m : record (set_record n r s).1 m = if decide (n = m) then Some r else record s m.
Proof. unfold record. simpl. apply od_get_set. Qed.

(** A revocation is a tombstone: no history without [hydrate_trust] for the node,
    however its connection, capabilities and membership projection move and whatever
    happens to other nodes, clears it, and at its end the node is neither promoted
    nor admitted to the cluster: both calls raise and change nothing. *)
Theorem revocation_is_a_tombstone s n r ops :
  record s n = Some r → NodeRecord.trust r = TrustState.REVOKED →
  Forall (λ o, o ≠ RHydrateTrust n) ops →
  ∃ r', record (registry_exec ops s) n = Some r' ∧ NodeRecord.trust r' = TrustState.REVOKED ∧
    ∀ perms role coord,
      registry_call (RPromote n perms) (registry_exec ops s)
        = (registry_exec ops s, raise PermissionError "revoked node requires a fresh pairing") ∧
      registry_call (RJoin n role coord) (registry_exec ops s)
        = (registry_exec ops s, raise PermissionError "untrusted node cannot join the cluster").
Proof.
  intros Hr Ht Hops. assert (Hend : ∃ r', record (registry_exec ops s) n = Some r' ∧
    NodeRecord.trust r' = TrustState.REVOKED).
  { revert s r Hr Ht. induction Hops as [|o ops Ho _ IH]; intros s r Hr Ht; [by exists r|].
    simpl. change (foldl _ (registry_call o s).1 ops) with (registry_exec ops (registry_call o s).1).
    destruct (decide (op_node o = n)) as [Hn|Hn].
    - rewrite (call_known o s r) by congruence.
      destruct (registry_refused o r) eqn:Href; [by eapply IH|].
      assert (Hset : NodeRecord.trust (next_record o r) = TrustState.REVOKED).
      { destruct o; simpl in *; try done.
        - by rewrite bool_decide_eq_true_2 in Href.
        - congruence. }
      subst n. destruct o; simpl; try (eapply IH; [apply od_get_set_eq|done]).
      case_decide; [by eapply IH|]. eapply IH; [apply od_get_set_eq|done].
    - assert (Hsame : record (registry_call o s).1 n = record s n).
      { destruct (record s (op_node o)) as [r0|] eqn:Hr0.
        - rewrite (call_known o s r0) by done. destruct (registry_refused o r0); [done|].
          destruct o; simpl in *; try (apply od_get_set_ne; congruence).
          case_decide; [done|]. apply od_get_set_ne; congruence.
        - rewrite call_unknown by done. destruct o; simpl in *; try done.
          case_decide; [done|]. apply od_get_set_ne; congruence. }
      eapply IH; [by rewrite Hsame|done]. }
  destruct Hend as (r' & Hr' & Ht'). exists r'. split_and!; try done. intros perms role coord. split.
  - rewrite (call_known _ _ r') by done. simpl. by rewrite bool_decide_eq_true_2.
  - rewrite (call_known _ _ r') by done. simpl. by rewrite Ht'.
Qed.

Lemma revocation_is_a_tombstone_witness :
  let n := mkNodeId "p" in
  let s := registry_exec [RObserve n ∅; RRevoke n] (NodeRegistry.__init__ (mkNodeId "l") true) in
  ∃ r', record (registry_exec [RConnection n (ConnectionState.online None);
                              RHydrateMembership n WORKER (mkNodeId "l")] s) n = Some r' ∧
    NodeRecord.trust r' = TrustState.REVOKED.
Proof.
  intros n s.
  destruct (revocation_is_a_tombstone s n
    (NodeRecord.with_trust (NodeRecord.new n) TrustState.REVOKED)
    [RConnection n (ConnectionState.online None); RHydrateMembership n WORKER (mkNodeId "l")])
    as (r' & ? & ? & _); [reflexivity|reflexivity|by repeat constructor|by exists r'].
Defined.
