(* ===== verification/PyJson.v ===== *)
(** * JSON documents and their canonical text

    The values the program exchanges and stores: Python's [None], [bool], [int],
    [float], [str], [list] and [dict] with text keys.  Object members keep their
    insertion order; [json.dumps] is defined here, with the text of a float (the
    shortest decimal that reads back) as a parameter. *)

From S2P Require Import Prelude PyFloat Identity.
From stdpp Require Import pretty.

Inductive json :=
  | JNull
  | JBool (b : bool)
  | JInt (z : Z)
  | JFloat (f : float)
  | JStr (s : string)
  | JList (l : list json)
  | JObj (d : list (string * json)).

(** Induction with the hypothesis for every element. *)
Section json_rect.
Variable P : json → Prop.
Hypothesis Hnull : P JNull.
Hypothesis Hbool : ∀ b, P (JBool b).
Hypothesis Hint : ∀ z, P (JInt z).
Hypothesis Hfloat : ∀ f, P (JFloat f).
Hypothesis Hstr : ∀ s, P (JStr s).
Hypothesis Hlist : ∀ l, Forall P l → P (JList l).
Hypothesis Hobj : ∀ d, Forall (λ kv, P kv.2) d → P (JObj d).

Fixpoint json_ind' (v : json) : P v :=
  match v with
  | JNull => Hnull
  | JBool b => Hbool b
  | JInt z => Hint z
  | JFloat f => Hfloat f
  | JStr s => Hstr s
  | JList l => Hlist l ((fix go l : Forall P l := match l with
                          | [] => Forall_nil_2 P
                          | x :: l => Forall_cons_2 P x l (json_ind' x) (go l)
                          end) l)
  | JObj d => Hobj d ((fix go d : Forall (λ kv, P kv.2) d := match d with
                        | [] => Forall_nil_2 (λ kv : string * json, P kv.2)
                        | kv :: d => Forall_cons_2 (λ kv : string * json, P kv.2) kv d
                                       (json_ind' kv.2) (go d)
                        end) d)
  end.
End json_rect.

(** ** Reading a document *)

(** [v.get(key)] of an object. *)
Definition member (key : string) (v : json) : option json :=
  match v with JObj d => od_get key d | _ => None end.

(** [d.get(key)], [None] when absent. *)
Definition jget (key : string) (d : list (string * json)) : json := default JNull (od_get key d).
Definition jget_or (key : string) (dflt : json) (d : list (string * json)) : json :=
  default dflt (od_get key d).

Definition is_str (v : json) : option string := match v with JStr s => Some s | _ => None end.
Definition is_list (v : json) : option (list json) := match v with JList l => Some l | _ => None end.
Definition is_obj (v : json) : option (list (string * json)) :=
  match v with JObj d => Some d | _ => None end.
Definition is_bool (v : json) : option bool := match v with JBool b => Some b | _ => None end.
(** [type(v) is int] *)
Definition is_int (v : json) : option Z := match v with JInt z => Some z | _ => None end.
Definition is_null (v : json) : bool := match v with JNull => true | _ => false end.

(** [isinstance(v, (int, float)) and not isinstance(v, bool)] *)
Definition is_number (v : json) : bool :=
  match v with JInt _ | JFloat _ => true | _ => false end.

(** [float(v)] of a number: a large integer overflows. *)
Definition to_float (v : json) : result float :=
  match v with
  | JInt z => float_of_Z z
  | JFloat f => Ok f
  | JBool b => Ok (if b then flit 1 else flit 0)
  | JStr _ => raise ValueError "could not convert string to float"
  | _ => raise TypeError "float() argument must be a string or a real number"
  end.

(** The texts of a list of texts. *)
Definition all_str (l : list json) : option (list string) := mapM is_str l.

(** [set(d) <= fields], [set(d) == fields] *)
Definition keys_within (d : list (string * json)) (fields : list string) : bool :=
  forallb (λ k, bool_decide (k ∈ fields)) d.*1.
Definition has_keys (d : list (string * json)) (fields : list string) : bool :=
  forallb (λ k, bool_decide (k ∈ d.*1)) fields.
Definition keys_exactly (d : list (string * json)) (fields : list string) : bool :=
  keys_within d fields && has_keys d fields.

(** ** [json.dumps] *)

Definition hex_digit (n : nat) : Ascii.ascii :=
  Ascii.ascii_of_nat (if Nat.ltb n 10 then 48 + n else 87 + n).

Definition char (n : nat) : string := String (Ascii.ascii_of_nat n) EmptyString.

(** One character of an ASCII-only string literal (code points below 256). *)
Definition escape (c : Ascii.ascii) : string :=
  let n := Ascii.nat_of_ascii c in
  if Nat.eqb n 34 then char 92 +:+ char 34
  else if Nat.eqb n 92 then char 92 +:+ char 92
  else if Nat.eqb n 10 then char 92 +:+ "n"
  else if Nat.eqb n 13 then char 92 +:+ "r"
  else if Nat.eqb n 9 then char 92 +:+ "t"
  else if Nat.eqb n 8 then char 92 +:+ "b"
  else if Nat.eqb n 12 then char 92 +:+ "f"
  else if Nat.ltb n 32 || Nat.leb 127 n
  then char 92 +:+ "u00" +:+ String (hex_digit (n / 16)) (String (hex_digit (n mod 16)) EmptyString)
  else String c EmptyString.

Fixpoint escape_all (s : string) : string :=
  match s with
  | EmptyString => EmptyString
  | String c rest => escape c +:+ escape_all rest
  end.

Definition quote (s : string) : string := char 34 +:+ escape_all s +:+ char 34.

(** Text order by code points, as [sorted] uses it. *)
Definition str_leb (a b : string) : bool :=
  match String.compare a b with Gt => false | _ => true end.

Fixpoint insert_key {A} (kv : string * A) (l : list (string * A)) : list (string * A) :=
  match l with
  | [] => [kv]
  | kv' :: l' => if str_leb kv.1 kv'.1 then kv :: l else kv' :: insert_key kv l'
  end.
Definition sort_keys {A} (l : list (string * A)) : list (string * A) := foldr insert_key [] l.

(** [int.__repr__] refuses integers of more than 4300 digits. *)
Definition int_text_ok (z : Z) : bool := Nat.leb (String.length (pretty (Z.abs z))) 4300.

(** The texts of the elements of a list and of the members of an object. *)
Definition dump_items (dump : json → result string) : list json → result (list string) :=
  fix go l := match l with [] => Ok [] | x :: l => t ← dump x; ts ← go l; Ok (t :: ts) end.
Definition dump_members (dump : json → result string) :
    list (string * json) → result (list (string * string)) :=
  fix go d := match d with [] => Ok [] | kv :: d => t ← dump kv.2; ts ← go d; Ok ((kv.1, t) :: ts) end.

Section dumps.
(** [float.__repr__] of a finite float. *)
Context (float_repr : float → string).

(** [json.dumps(v, sort_keys=sort, separators=(",", ":"), allow_nan=False)] *)
Fixpoint dumps (sort : bool) (v : json) : result string :=
  match v with
  | JNull => Ok "null"
  | JBool b => Ok (if b then "true" else "false")
  | JInt z =>
      if int_text_ok z then Ok (pretty z)
      else raise ValueError "Exceeds the limit (4300 digits) for integer string conversion"
  | JFloat f =>
      if isfinite f then Ok (float_repr f)
      else raise ValueError "Out of range float values are not JSON compliant"
  | JStr s => Ok (quote s)
  | JList l =>
      texts ← dump_items (dumps sort) l;
      Ok ("[" +:+ String.concat "," texts +:+ "]")
  | JObj d =>
      texts ← dump_members (dumps sort) d;
      Ok ("{" +:+ String.concat ","
            ((λ kv, quote kv.1 +:+ ":" +:+ kv.2) <$> (if sort then sort_keys texts else texts)) +:+ "}")
  end.

(** The only error is [ValueError]. *)
Lemma dumps_ValueError sort v e : dumps sort v = Err e → exn_isa e ValueError = true.
Proof.
  induction v as [| | | | |l IH|d IH] using json_ind'; simpl; try done.
  - destruct (int_text_ok z); [done|]. by intros [= <-].
  - destruct (isfinite f); [done|]. by intros [= <-].
  - intros H. assert (Hl : dump_items (dumps sort) l = Err e) by (destruct (dump_items _ l); [done|by injection H as ->]).
    clear H. induction IH as [|x l Hx _ IHl]; [done|]. simpl in Hl.
    destruct (dumps sort x); simpl in Hl; [|injection Hl as ->; auto]. destruct (dump_items _ l); simpl in Hl; [done|auto].
  - intros H. assert (Hd : dump_members (dumps sort) d = Err e) by (destruct (dump_members _ d); [done|by injection H as ->]).
    clear H. induction IH as [|x d Hx _ IHd]; [done|]. simpl in Hd.
    destruct (dumps sort x.2); simpl in Hd; [|injection Hd as ->; auto]. destruct (dump_members _ d); simpl in Hd; [done|auto].
Qed.
End dumps.

(** * Conversions of JSON values

    [str], [int], [float], [bool] and iteration applied to a value of any JSON type, as
    the readers of stored and received documents use them.  The text of a float and of a
    container, and the reading of a number from text, are parameters. *)

Section convert.
Context (float_repr : float → string) (container_repr : json → string).
Context (parse_int : string → result Z) (parse_float : string → result float).

(** [str(v)] *)
Definition py_str (v : json) : result string :=
  match v with
  | JNull => Ok "None"
  | JBool b => Ok (if b then "True" else "False")
  | JInt z => if int_text_ok z then Ok (pretty z)
              else raise ValueError "Exceeds the limit (4300 digits) for integer string conversion"
  | JFloat f => Ok (float_repr f)
  | JStr s => Ok s
  | _ => Ok (container_repr v)
  end.

(** The integer part of a finite float. *)
Definition trunc (f : float) : Z :=
  match f with
  | S754_finite s m e =>
      let n := (if (0 <=? e)%Z then Z.pos m * 2 ^ e else Z.pos m / 2 ^ (- e))%Z in
      if s then (- n)%Z else n
  | _ => 0%Z
  end.

(** [int(v)] *)
Definition py_int (v : json) : result Z :=
  match v with
  | JInt z => Ok z
  | JBool b => Ok (if b then 1 else 0)%Z
  | JFloat f =>
      if is_nan f then raise ValueError "cannot convert float NaN to integer"
      else if isfinite f then Ok (trunc f)
      else raise OverflowError "cannot convert float infinity to integer"
  | JStr s => parse_int s
  | _ => raise TypeError "int() argument must be a string, a bytes-like object or a real number"
  end.

(** [float(v)] *)
Definition py_float (v : json) : result float :=
  match v with JStr s => parse_float s | _ => to_float v end.

(** [bool(v)] *)
Definition py_bool (v : json) : bool :=
  match v with
  | JNull => false
  | JBool b => b
  | JInt z => negb (z =? 0)%Z
  | JFloat f => match f with S754_zero _ => false | _ => true end
  | JStr s => negb (bool_decide (s = ""))
  | JList l => match l with [] => false | _ => true end
  | JObj d => match d with [] => false | _ => true end
  end.

(** [tuple(v)] *)
Definition py_iter (v : json) : result (list json) :=
  match v with
  | JList l => Ok l
  | JObj d => Ok ((λ kv, JStr kv.1) <$> d)
  | JStr s => Ok ((λ c, JStr (String c EmptyString)) <$> String.list_ascii_of_string s)
  | _ => raise TypeError "object is not iterable"
  end.
End convert.

(** [v == z] for an integer [z]: numbers of the three types compare by value. *)
Definition equals_int (v : json) (z : Z) : bool :=
  match v with
  | JInt n => (n =? z)%Z
  | JBool b => ((if b then 1 else 0) =? z)%Z
  | JFloat (S754_zero _) => (z =? 0)%Z
  | JFloat (S754_finite s m e) =>
      let m := (if s then Z.neg m else Z.pos m) in
      if (0 <=? e)%Z then (m * 2 ^ e =? z)%Z else (m =? z * 2 ^ (- e))%Z
  | _ => false
  end.

(** [d[key]] *)
Definition index (key : string) (d : list (string * json)) : result json :=
  of_option (od_get key d) KeyError key.

(** [None if v is None else str(v)] *)
Definition optional {A} (f : json → result A) (v : json) : result (option A) :=
  match v with JNull => Ok None | _ => Some <$> f v end.

Lemma fmap_Ok {A B} (f : A → B) (m : result A) b : f <$> m = Ok b ↔ ∃ a, m = Ok a ∧ f a = b.
Proof. destruct m; simpl; naive_solver. Qed.

Lemma trunc_integer : trunc (flit 7) = 7%Z ∧ trunc (fadd (flit 2) (S754_finite true 1 (-1))) = 1%Z.
Proof. split; reflexivity. Qed.
