(* ===== verification/Wire.v ===== *)
(** * The authenticated wire protocol ([remote/wire_protocol.py]): envelopes

    Requests and responses are JSON objects signed with HMAC-SHA256 over their
    canonical text.  HMAC and the text of a float are parameters; the clock is an
    argument. *)

From S2P Require Import Prelude PyFloat Identity PyJson.

Definition REMOTE_PROTOCOL_VERSION : string := "1".
Definition MAX_ENVELOPE_BYTES : Z := 8 * 1024 * 1024.
Definition MAX_IDENTIFIER_LENGTH : Z := 128.
Definition DEFAULT_FRESHNESS_SECONDS : float := flit 60.
Definition DEFAULT_REPLAY_TTL_SECONDS : float := flit 300.
Definition DEFAULT_REPLAY_MAX_ENTRIES : Z := 4096.

(** ** Identifiers and secrets *)

(** [str.isalnum] on one character (code points below 256). *)
Definition is_alnum (c : Ascii.ascii) : bool :=
  let n := Ascii.nat_of_ascii c in
  let within a b := Nat.leb a n && Nat.leb n b in
  within 48 57 || within 65 90 || within 97 122 || bool_decide (n ∈ [170; 178; 179; 181; 185; 186])
  || within 188 190 || within 192 214 || within 216 246 || within 248 255.

Definition is_identifier_char (c : Ascii.ascii) : bool :=
  is_alnum c || bool_decide (Ascii.nat_of_ascii c ∈ [46; 95; 58; 45]).

Definition _valid_identifier (v : json) : bool :=
  match v with
  | JStr s => (1 <=? py_len s)%Z && (py_len s <=? MAX_IDENTIFIER_LENGTH)%Z
              && forallb is_identifier_char (String.list_ascii_of_string s)
  | _ => false
  end.

Definition is_hex (c : Ascii.ascii) : bool :=
  let n := Ascii.nat_of_ascii c in
  (Nat.leb 48 n && Nat.leb n 57) || (Nat.leb 65 n && Nat.leb n 70) || (Nat.leb 97 n && Nat.leb n 102).
Definition is_ascii_space (c : Ascii.ascii) : bool :=
  let n := Ascii.nat_of_ascii c in (Nat.leb 9 n && Nat.leb n 13) || Nat.eqb n 32.

(** [bytes.fromhex] reads pairs of digits and skips blanks between them. *)
Fixpoint fromhex_ok (l : list Ascii.ascii) : bool :=
  match l with
  | [] => true
  | c :: r =>
      if is_ascii_space c then fromhex_ok r
      else is_hex c && match r with d :: r' => is_hex d && fromhex_ok r' | [] => false end
  end.

Definition _validate_secret (secret : string) : result () :=
  raise_if (negb (py_len secret =? 64)%Z) ValueError "peer credentials must be 256-bit hex text";;
  raise_if (negb (fromhex_ok (String.list_ascii_of_string secret)))
    ValueError "peer credentials must be hexadecimal".

(** ** Requests *)

Module PeerGrant.
Record t := mk {
  caller_node_id : NodeId;
  secret : string;
  permissions : gset NodePermission;
  expires_at : option float }.
End PeerGrant.

Module PairingRequest.
Record t := mk {
  caller_node_id : NodeId;
  identity_fingerprint : string;
  transport_fingerprint : string;
  proposed_secret : string;
  permissions : gset NodePermission;
  root_public_key : option string;
  transport_generation : option Z;
  transport_proof : option string;
  intent : string }.

(** The checks of [__post_init__] on the fields given to the constructor. *)
Definition __post_init__ (r : t) : result t :=
  raise_if (negb (bool_decide (intent r ∈ ["pair"; "repair"])))
    RemoteProtocolError "pairing intent is invalid";;
  raise_if (bool_decide (value (caller_node_id r) = "") || bool_decide (identity_fingerprint r = ""))
    RemoteAuthError "pairing identity is missing";;
  raise_if (bool_decide (transport_fingerprint r = ""))
    RemoteAuthError "pairing transport fingerprint is missing";;
  _validate_secret (proposed_secret r);;
  raise_if (negb (bool_decide (permissions r ⊆ READ_PERMISSIONS)))
    RemoteAuthorizationError "pairing is read-only";;
  Ok r.
End PairingRequest.

Module CapabilityElevationRequest.
Record t := mk {
  caller_node_id : NodeId;
  identity_fingerprint : string;
  transport_fingerprint : string;
  current_secret : string;
  proposed_secret : string;
  permissions : gset NodePermission }.

Definition __post_init__ (r : t) : result t :=
  raise_if (bool_decide (value (caller_node_id r) = "") || bool_decide (identity_fingerprint r = ""))
    RemoteAuthError "elevation identity is missing";;
  raise_if (bool_decide (transport_fingerprint r = ""))
    RemoteAuthError "elevation transport fingerprint is missing";;
  _validate_secret (current_secret r);;
  _validate_secret (proposed_secret r);;
  raise_if (bool_decide (permissions r = ∅))
    RemoteAuthorizationError "elevation requires a permission";;
  Ok r.
End CapabilityElevationRequest.

Module PairingControlRequest.
Record t := mk {
  operation : string;
  transaction_id : string;
  caller_node_id : NodeId;
  identity_fingerprint : string;
  transport_fingerprint : string;
  secret : string;
  permissions : gset NodePermission;
  expires_at : float }.
End PairingControlRequest.

(** A member that is a non-empty text. *)
Definition text_field (d : list (string * json)) (field msg : string) : result string :=
  match jget field d with
  | JStr s => if bool_decide (s = "") then raise RemoteProtocolError msg else Ok s
  | _ => raise RemoteProtocolError msg
  end.

Definition parse_permissions (l : list string) : result (gset NodePermission) :=
  ps ← mapM NodePermission.of_value l;
  Ok (list_to_set ps).

Definition control_fields : list string :=
  ["op"; "transaction_id"; "caller_node_id"; "identity_fingerprint"; "transport_fingerprint";
   "secret"; "permissions"; "expires_at"].

(** [now] is the clock. *)
Definition validate_pairing_control_request (raw : json) (now : float)
    : result PairingControlRequest.t :=
  match raw with
  | JObj d =>
      op ← match jget "op" d with
           | JStr op => if bool_decide (op ∈ ["pair_confirm"; "pair_abort"]) then Ok op
                        else raise RemoteProtocolError "pairing control operation is invalid"
           | _ => raise RemoteProtocolError "pairing control operation is invalid"
           end;
      raise_if (negb (keys_exactly d control_fields)) RemoteProtocolError
        "pairing control fields are invalid";;
      transaction_id ← text_field d "transaction_id" "pairing control transaction_id is invalid";
      identity ← text_field d "identity_fingerprint" "pairing control identity_fingerprint is invalid";
      transport ← text_field d "transport_fingerprint" "pairing control transport_fingerprint is invalid";
      caller ← text_field d "caller_node_id" "pairing control caller identity is invalid";
      secret ← match jget "secret" d with
               | JStr s => catch ValueError (_validate_secret s;; Ok s)
                             (raise RemoteProtocolError "pairing control secret is invalid")
               | _ => raise RemoteProtocolError "pairing control secret is invalid"
               end;
      texts ← match is_list (jget "permissions" d) with
              | Some l => of_option (all_str l) RemoteProtocolError "pairing control permissions are invalid"
              | None => raise RemoteProtocolError "pairing control permissions are invalid"
              end;
      permissions ← catch ValueError (parse_permissions texts)
                      (raise RemoteProtocolError "pairing control permissions are invalid");
      raise_if (negb (bool_decide (permissions ⊆ READ_PERMISSIONS)))
        RemoteAuthorizationError "pairing control is read-only";;
      let expires_at := jget "expires_at" d in
      raise_if (negb (is_number expires_at)) RemoteProtocolError "pairing control expiry is invalid";;
      expiry ← to_float expires_at;
      raise_if (negb (isfinite expiry) || fleb expiry now)
        RemoteProtocolError "pairing control expiry is invalid";;
      caller ← NodeId.__post_init__ caller;
      Ok (PairingControlRequest.mk op transaction_id caller identity transport secret permissions expiry)
  | _ => raise RemoteProtocolError "pairing control operation is invalid"
  end.

Module RemoteRequest.
Record t := mk {
  node_id : NodeId;
  caller_node_id : option NodeId;
  op : string;
  params : list (string * json);
  request_id : string;
  nonce : string;
  timestamp : float;
  session_id : option string;
  resume : bool;
  connection_generation : option string }.
End RemoteRequest.

Module RemoteResponse.
Record t := mk {
  node_id : NodeId;
  request_id : string;
  status : string;
  payload : option (list (string * json));
  error : option string;
  timestamp : float;
  session_id : option string;
  connection_generation : option string }.
End RemoteResponse.
