(* ===== verification/Caches.v ===== *)
(** * Replay and idempotency caches ([remote/wire_protocol.py])

    [heapq] is used through [heappush], [heappop] and its head only; a heap is the
    list of its entries in the order they would be popped. *)

From S2P Require Import Prelude PyFloat Identity PyJson Wire.

(** ** Priority queues of (time, key) *)

Section heap.
Context {K : Type} (key_leb : K → K → bool).

(** Tuple comparison: the time first, then the key. *)
Definition entry_leb (a b : float * K) : bool :=
  if feqb a.1 b.1 then key_leb a.2 b.2 else fltb a.1 b.1.

Fixpoint heappush (x : float * K) (h : list (float * K)) : list (float * K) :=
  match h with
  | [] => [x]
  | y :: h' => if entry_leb x y then x :: h else y :: heappush x h'
  end.

Definition heapify (l : list (float * K)) : list (float * K) := foldr heappush [] l.

Lemma heappush_perm x h : heappush x h ≡ₚ x :: h.
Proof.
  induction h as [|y h IH]; simpl; [done|]. case_match; [done|]. rewrite IH. apply Permutation_swap.
Qed.

Lemma heapify_perm l : heapify l ≡ₚ l.
Proof. induction l as [|x l IH]; simpl; [done|]. by rewrite heappush_perm, IH. Qed.
End heap.

Definition pair_leb (a b : string * string) : bool :=
  if bool_decide (a.1 = b.1) then str_leb a.2 b.2 else str_leb a.1 b.1.
Definition triple_leb (a b : string * string * string) : bool :=
  if bool_decide (a.1 = b.1) then str_leb a.2 b.2 else pair_leb a.1 b.1.

(** ** [ReplayCache] *)

Module ReplayCache.
Record t := mk {
  _ttl : float;
  _max_entries : Z;
  _seen : gmap (string * string * string) float;
  _request_ids : gmap (string * string) float;
  _seen_expirations : list (float * (string * string * string));
  _request_id_expirations : list (float * (string * string)) }.

Definition __init__ (ttl_seconds : float) (max_entries : Z) : t :=
  mk ttl_seconds max_entries ∅ ∅ [] [].

(** [while heap and now - heap[0][0] > ttl: del entries[heappop(heap)[1]]] *)
Fixpoint prune_loop {K} `{Countable K} (ttl now : float) (heap : list (float * K))
    (entries : gmap K float) : (list (float * K) * gmap K float) * result () :=
  match heap with
  | [] => (([], entries), Ok ())
  | (at_, key) :: heap' =>
      if fltb ttl (fsub now at_)
      then match entries !! key with
           | Some _ => prune_loop ttl now heap' (delete key entries)
           | None => ((heap', entries), raise KeyError "expired entry")
           end
      else ((heap, entries), Ok ())
  end.

Definition _prune (now : float) : M t () := λ s,
  let '((h1, e1), r1) := prune_loop (_ttl s) now (_seen_expirations s) (_seen s) in
  let s1 := mk (_ttl s) (_max_entries s) e1 (_request_ids s) h1 (_request_id_expirations s) in
  match r1 with
  | Err e => (s1, Err e)
  | Ok _ =>
      let '((h2, e2), r2) := prune_loop (_ttl s) now (_request_id_expirations s) (_request_ids s) in
      (mk (_ttl s) (_max_entries s) e1 e2 h1 h2, r2)
  end.

(** The rest of [check_and_record], after pruning. *)
Definition record_seen (key : string * string * string) (seen_at : float) : M t bool := λ s,
  match _seen s !! key with
  | Some _ => (s, Ok false)
  | None =>
      if (_max_entries s <=? Z.of_nat (size (_seen s)))%Z then (s, Ok false)
      else (mk (_ttl s) (_max_entries s) (<[key := seen_at]> (_seen s)) (_request_ids s)
              (heappush triple_leb (seen_at, key) (_seen_expirations s))
              (_request_id_expirations s), Ok true)
  end.

Definition check_and_record (node_id request_id nonce : string) (seen_at : float) : M t bool :=
  _prune seen_at;; record_seen (node_id, request_id, nonce) seen_at.

Definition record_request_id (key : string * string) (seen_at : float) : M t bool := λ s,
  match _request_ids s !! key with
  | Some _ => (s, Ok false)
  | None =>
      if (_max_entries s <=? Z.of_nat (size (_request_ids s)))%Z then (s, Ok false)
      else (mk (_ttl s) (_max_entries s) (_seen s) (<[key := seen_at]> (_request_ids s))
              (_seen_expirations s)
              (heappush pair_leb (seen_at, key) (_request_id_expirations s)), Ok true)
  end.

Definition check_and_record_request_id (node_id request_id : string) (seen_at : float)
    : M t bool :=
  _prune seen_at;; record_request_id (node_id, request_id) seen_at.

Definition __len__ (s : t) : Z := Z.of_nat (size (_seen s)).
End ReplayCache.

(** ** [IdempotencyCache]

    [run] is split where it releases its lock: [start] decides who executes, [finish]
    publishes what the executor got, and [joined] is what a caller that waited for
    the event returns. *)

Module IdempotencyCache.
Record entry := mkEntry {
  fingerprint : string;
  expires_at : float;
  event : bool;
  result_ : option json;
  error : option exn;
  complete : bool }.

Record t := mk {
  _ttl : float;
  _max_entries : Z;
  _entries : list ((string * string) * entry) }.

Definition __init__ (ttl_seconds : float) (max_entries : Z) : result t :=
  raise_if (fleb ttl_seconds (flit 0) || (max_entries <? 1)%Z)
    ValueError "invalid idempotency cache bounds";;
  Ok (mk ttl_seconds max_entries []).

Definition _prune (s : t) (now : float) : t :=
  mk (_ttl s) (_max_entries s)
    (List.filter (λ ke, negb (complete ke.2 && fleb (expires_at ke.2) now)) (_entries s)).

(** Whether the caller executes the operation or waits for its entry. *)
Inductive role := Owner | Waiter.

Definition start (key : string * string) (fp : string) (now : float) : M t role := λ s,
  let s := _prune s now in
  match od_get key (_entries s) with
  | None =>
      if (_max_entries s <=? Z.of_nat (length (_entries s)))%Z
      then (s, raise RemoteAuthError "idempotency cache is full")
      else (mk (_ttl s) (_max_entries s)
              (od_set key (mkEntry fp (fadd now (_ttl s)) false None None false) (_entries s)),
            Ok Owner)
  | Some e =>
      if decide (fingerprint e = fp) then (s, Ok Waiter)
      else (s, raise IdempotencyCollisionError "request ID was reused")
  end.

(** The executor's entry when [operation] returned or raised; [save] is the outcome of
    [_save_state]. *)
Definition finished (e : entry) (outcome : result json) (save : result ()) : entry :=
  match outcome with
  | Err err => mkEntry (fingerprint e) (expires_at e) true (result_ e) (Some err) true
  | Ok v => mkEntry (fingerprint e) (expires_at e) true (Some v)
              (match save with Ok _ => error e | Err err => Some err end) true
  end.

Definition finish (key : string * string) (outcome : result json) (save : result ()) : M t json := λ s,
  (match od_get key (_entries s) with
   | Some e => mk (_ttl s) (_max_entries s) (od_set key (finished e outcome save) (_entries s))
   | None => s
   end,
   v ← outcome; _ ← save; Ok v).

(** [entry.event.wait()] has returned. *)
Definition joined (e : entry) : result json :=
  match error e with
  | Some err => Err err
  | None => of_option (result_ e) RemoteExecutionError "idempotency result is unavailable"
  end.

Definition __len__ (s : t) (now : float) : Z := Z.of_nat (length (_entries (_prune s now))).
End IdempotencyCache.

(** * Replays are refused within the window, and one caller executes a request *)

(** ** A heap and the dictionary it expires *)

Section queue.
Context {K : Type} `{Countable K}.
Implicit Types (h : list (float * K)) (e : gmap K float).

(** The heap holds every entry of the dictionary once. *)
Definition agree h e : Prop :=
  NoDup h.*2 ∧ ∀ k v, e !! k = Some v ↔ (v, k) ∈ h.

Lemma agree_perm h h' e : h ≡ₚ h' → agree h e → agree h' e.
Proof.
  intros Hp [Hnd He]. split.
  - by rewrite <- Hp.
  - intros k v. by rewrite He, Hp.
Qed.

Lemma agree_empty : agree [] ∅.
Proof. split; [constructor|]. intros k v. rewrite lookup_empty. set_solver. Qed.

Lemma agree_insert k v h e : e !! k = None → agree h e → agree ((v, k) :: h) (<[k := v]> e).
Proof.
  intros Hk [Hnd He]. split.
  - apply NoDup_cons. split; [|done]. intros ([v' k'] & ? & Hin)%list_elem_of_fmap. simplify_eq/=.
    apply He in Hin. congruence.
  - intros k' v'. rewrite elem_of_cons. destruct (decide (k' = k)) as [->|Hne].
    + rewrite lookup_insert_eq. split; [intros; simplify_eq; auto|].
      intros [?|Hin%He]; [by simplify_eq|congruence].
    + rewrite lookup_insert_ne by done. rewrite He. split; [auto|].
      intros [?|?]; [by simplify_eq|done].
Qed.

Lemma agree_tail k v h e : agree ((v, k) :: h) e → e !! k = Some v ∧ agree h (delete k e).
Proof.
  intros [Hnd He]. apply NoDup_cons in Hnd as [Hk Hnd]. split; [apply He; set_solver|].
  split; [done|]. intros k' v'. destruct (decide (k' = k)) as [->|Hne].
  - rewrite lookup_delete_eq. split; [done|]. intros Hin. exfalso. apply Hk.
    apply list_elem_of_fmap. by exists (v', k).
  - rewrite lookup_delete_ne, He, elem_of_cons by done.
    split; [intros [?|?]; [by simplify_eq|done]|auto].
Qed.

(** Expiry removes only what is too old, and never misses its entry. *)
Lemma prune_loop_run ttl now h e : agree h e →
  ∃ h' e', ReplayCache.prune_loop ttl now h e = ((h', e'), Ok ()) ∧ agree h' e' ∧ e' ⊆ e ∧
    ∀ k v, e !! k = Some v → fltb ttl (fsub now v) = false → e' !! k = Some v.
Proof.
  revert e. induction h as [|[v k] h IH]; intros e Hag; simpl.
  { exists [], e. split_and!; try done. }
  destruct (fltb ttl (fsub now v)) eqn:Hexp; [|by exists ((v, k) :: h), e].
  apply agree_tail in Hag as [Hk Hag]. rewrite Hk. destruct (IH _ Hag) as (h' & e' & -> & ? & Hsub & Hlive).
  exists h', e'. split_and!; try done.
  - etrans; [done|]. apply delete_subseteq.
  - intros k' v' Hk' Hn. apply Hlive; [|done]. rewrite lookup_delete_ne; [done|]. intros ->.
    congruence.
Qed.
End queue.

(** ** [ReplayCache] *)

Import ReplayCache.

Inductive replay_op :=
  | RSeen (node_id request_id nonce : string) (now : float)
  | RRequest (node_id request_id : string) (now : float).

Definition replay_call (o : replay_op) : M ReplayCache.t bool :=
  match o with
  | RSeen n r x now => check_and_record n r x now
  | RRequest n r now => check_and_record_request_id n r now
  end.

Definition replay_time (o : replay_op) : float :=
  match o with RSeen _ _ _ now | RRequest _ _ now => now end.

Definition replay_exec (ops : list replay_op) (s : ReplayCache.t) : ReplayCache.t :=
  foldl (λ s o, (replay_call o s).1) s ops.

Record replay_inv (s : ReplayCache.t) : Prop := {
  replay_seen : agree (_seen_expirations s) (_seen s);
  replay_ids : agree (_request_id_expirations s) (_request_ids s);
  replay_seen_bound : (Z.of_nat (size (_seen s)) ≤ _max_entries s)%Z;
  replay_ids_bound : (Z.of_nat (size (_request_ids s)) ≤ _max_entries s)%Z }.

(** [s'] kept every entry of [s] that was recorded at a time [live]. *)
Definition keeps (live : float → bool) (s s' : ReplayCache.t) : Prop :=
  _ttl s' = _ttl s ∧ _max_entries s' = _max_entries s ∧
  (∀ k v, _seen s !! k = Some v → live v = true → _seen s' !! k = Some v) ∧
  (∀ k v, _request_ids s !! k = Some v → live v = true → _request_ids s' !! k = Some v).

Lemma prune_run now s : replay_inv s → ∃ s', _prune now s = (s', Ok ()) ∧ replay_inv s' ∧
  keeps (λ v, negb (fltb (_ttl s) (fsub now v))) s s'.
Proof.
  intros [Hs Hi Hsb Hib]. unfold _prune.
  destruct (prune_loop_run (_ttl s) now _ _ Hs) as (h1 & e1 & -> & Ha1 & Hsub1 & Hl1).
  destruct (prune_loop_run (_ttl s) now _ _ Hi) as (h2 & e2 & -> & Ha2 & Hsub2 & Hl2).
  eexists. split; [done|]. apply map_subseteq_size in Hsub1 as Hz1. apply map_subseteq_size in Hsub2 as Hz2.
  split; [split; simpl; try done; lia|]. split_and!; simpl; try done.
  - intros k v Hk Hn. apply Hl1; [done|]. by apply negb_true_iff.
  - intros k v Hk Hn. apply Hl2; [done|]. by apply negb_true_iff.
Qed.

Lemma record_seen_run k now s : replay_inv s →
  ∃ s' b, record_seen k now s = (s', Ok b) ∧ replay_inv s' ∧ keeps (λ _, true) s s' ∧
    (b = true → _seen s' !! k = Some now) ∧
    b = bool_decide (_seen s !! k = None ∧ (Z.of_nat (size (_seen s)) < _max_entries s)%Z).
Proof.
  intros [Hs Hi Hsb Hib]. unfold record_seen. destruct (_seen s !! k) as [v|] eqn:Hk.
  { exists s, false. by split_and!. }
  destruct (_max_entries s <=? Z.of_nat (size (_seen s)))%Z eqn:Hfull.
  { exists s, false. split_and!; try done. symmetry. apply bool_decide_eq_false_2. lia. }
  eexists _, true. split; [done|]. rewrite bool_decide_eq_true_2 by (split; [done|lia]).
  split_and!; try done; simpl.
  - split; simpl; try done.
    + eapply agree_perm; [symmetry; apply heappush_perm|]. by apply agree_insert.
    + rewrite map_size_insert_None by done. lia.
  - split_and!; try done; simpl. intros k' v Hk' _. rewrite lookup_insert_ne; [done|].
    intros ->. congruence.
  - intros _. apply lookup_insert_eq.
Qed.

Lemma record_request_run k now s : replay_inv s →
  ∃ s' b, record_request_id k now s = (s', Ok b) ∧ replay_inv s' ∧ keeps (λ _, true) s s' ∧
    (b = true → _request_ids s' !! k = Some now) ∧
    b = bool_decide (_request_ids s !! k = None ∧ (Z.of_nat (size (_request_ids s)) < _max_entries s)%Z).
Proof.
  intros [Hs Hi Hsb Hib]. unfold record_request_id. destruct (_request_ids s !! k) as [v|] eqn:Hk.
  { exists s, false. by split_and!. }
  destruct (_max_entries s <=? Z.of_nat (size (_request_ids s)))%Z eqn:Hfull.
  { exists s, false. split_and!; try done. symmetry. apply bool_decide_eq_false_2. lia. }
  eexists _, true. split; [done|]. rewrite bool_decide_eq_true_2 by (split; [done|lia]).
  split_and!; try done; simpl.
  - split; simpl; try done.
    + eapply agree_perm; [symmetry; apply heappush_perm|]. by apply agree_insert.
    + rewrite map_size_insert_None by done. lia.
  - split_and!; try done; simpl. intros k' v Hk' _. rewrite lookup_insert_ne; [done|].
    intros ->. congruence.
  - intros _. apply lookup_insert_eq.
Qed.

Lemma init_replay_inv ttl max_entries : (0 ≤ max_entries)%Z →
  replay_inv (ReplayCache.__init__ ttl max_entries).
Proof. intros. split; simpl; try apply agree_empty; rewrite map_size_empty; lia. Qed.

(** Whether the key of a call is recorded, and since when. *)
Definition recorded (o : replay_op) (s : ReplayCache.t) : option float :=
  match o with
  | RSeen n r x _ => _seen s !! (n, r, x)
  | RRequest n r _ => _request_ids s !! (n, r)
  end.

Lemma call_run o s : replay_inv s →
  ∃ s' b, replay_call o s = (s', Ok b) ∧ replay_inv s' ∧
    keeps (λ v, negb (fltb (_ttl s) (fsub (replay_time o) v))) s s' ∧
    (b = true → recorded o s' = Some (replay_time o)) ∧
    (∀ v, recorded o s = Some v → fltb (_ttl s) (fsub (replay_time o) v) = false → b = false).
Proof.
  intros Hi. assert (Hcompose : ∀ s1 s2, keeps (λ v, negb (fltb (_ttl s) (fsub (replay_time o) v))) s s1 →
      keeps (λ _, true) s1 s2 → keeps (λ v, negb (fltb (_ttl s) (fsub (replay_time o) v))) s s2).
  { intros s1 s2 (Ht & Hm & Hs & Hr) (Ht' & Hm' & Hs' & Hr'). split_and!; [congruence..| |]; eauto. }
  destruct o as [n r x now|n r now]; simpl in *;
    unfold check_and_record, check_and_record_request_id, mbind, M_bind;
    destruct (prune_run now s Hi) as (s1 & -> & Hi1 & Hk1).
  - destruct (record_seen_run (n, r, x) now s1 Hi1) as (s2 & b & -> & Hi2 & Hk2 & Hb & Hbd).
    exists s2, b. split; [done|]. split; [done|]. split; [by eapply Hcompose|]. split; [done|].
    intros v Hv Hl. rewrite Hbd. apply bool_decide_eq_false_2.
    intros [Hn _]. destruct Hk1 as (_ & _ & Hk1 & _). rewrite (Hk1 _ v) in Hn; [done|done|].
    by rewrite Hl.
  - destruct (record_request_run (n, r) now s1 Hi1) as (s2 & b & -> & Hi2 & Hk2 & Hb & Hbd).
    exists s2, b. split; [done|]. split; [done|]. split; [by eapply Hcompose|]. split; [done|].
    intros v Hv Hl. rewrite Hbd. apply bool_decide_eq_false_2.
    intros [Hn _]. destruct Hk1 as (_ & _ & _ & Hk1). rewrite (Hk1 _ v) in Hn; [done|done|].
    by rewrite Hl.
Qed.

(** An entry recorded at [at_] survives calls made at times not past its expiry. *)
Lemma exec_recorded o ops s at_ : replay_inv s → recorded o s = Some at_ →
  Forall (λ p, fltb (_ttl s) (fsub (replay_time p) at_) = false) ops →
  replay_inv (replay_exec ops s) ∧ _ttl (replay_exec ops s) = _ttl s ∧
  recorded o (replay_exec ops s) = Some at_.
Proof.
  revert s. induction ops as [|p ops IH]; intros s Hi Hr Hf; [done|].
  apply Forall_cons in Hf as [Hp Hf]. simpl.
  change (foldl _ (replay_call p s).1 ops) with (replay_exec ops (replay_call p s).1).
  destruct (call_run p s Hi) as (s' & b & -> & Hi' & (Ht & _ & Hks & Hkr) & _). simpl.
  rewrite <- Ht in Hf |- *. apply IH; [done| |done].
  destruct o as [n r x now|n r now]; simpl in *.
  - apply Hks; [done|]. by rewrite Hp.
  - apply Hkr; [done|]. by rewrite Hp.
Qed.

(** The replay cache never fails and stays bounded: from an empty cache, whatever
    the calls and clock readings, every call returns a verdict (expiry always finds
    the entry it removes) and neither index exceeds [max_entries]. *)
Theorem replay_cache_total_and_bounded ttl max_entries ops o :
  (0 ≤ max_entries)%Z →
  let s := replay_exec ops (ReplayCache.__init__ ttl max_entries) in
  (∃ b, (replay_call o s).2 = Ok b) ∧
  (Z.of_nat (size (_seen s)) ≤ max_entries)%Z ∧
  (Z.of_nat (size (_request_ids s)) ≤ max_entries)%Z.
Proof.
  intros Hmax s.
  assert (Hinv : ∀ ops s0, replay_inv s0 → _max_entries s0 = max_entries →
            replay_inv (replay_exec ops s0) ∧ _max_entries (replay_exec ops s0) = max_entries).
  { clear. induction ops as [|p ops IH]; intros s0 Hi Hm; [done|]. simpl.
    change (foldl _ (replay_call p s0).1 ops) with (replay_exec ops (replay_call p s0).1).
    destruct (call_run p s0 Hi) as (s' & b & -> & Hi' & (_ & Hm' & _) & _). apply IH; [done|].
    simpl. congruence. }
  destruct (Hinv ops (ReplayCache.__init__ ttl max_entries)) as [Hi Hm]; [|done|].
  { by apply init_replay_inv. }
  destruct (call_run o s Hi) as (s' & b & Hr & _). split; [exists b; by rewrite Hr|].
  destruct Hi as [_ _ H1 H2]. rewrite Hm in H1, H2. done.
Qed.

Lemma replay_cache_total_and_bounded_witness :
  ∃ b, (replay_call (RRequest "n" "r" (flit 9))
    (replay_exec [RSeen "n" "r" "x" (flit 1)] (ReplayCache.__init__ (flit 300) 4096))).2 = Ok b.
Proof.
  apply (replay_cache_total_and_bounded (flit 300) 4096 [RSeen "n" "r" "x" (flit 1)]
    (RRequest "n" "r" (flit 9))). lia.
Defined.

(** No replay within the window: once a request (or a destructive request id) was
    recorded, presenting it again is refused, whatever other requests arrived in
    between, as long as no clock reading is past its expiry. *)
Theorem replay_refused_within_ttl o o' ops s s1 at_ :
  replay_inv s → replay_call o s = (s1, Ok true) → at_ = replay_time o →
  (∀ s, recorded o' s = recorded o s) →
  Forall (λ p, fltb (_ttl s) (fsub (replay_time p) at_) = false) (ops ++ [o']) →
  (replay_call o' (replay_exec ops s1)).2 = Ok false.
Proof.
  intros Hi Hc -> Hsame [Hf Ho]%Forall_app. apply Forall_cons in Ho as [Ho _].
  destruct (call_run o s Hi) as (s' & b & Hc' & Hi1 & (Ht & _) & Hb & _). rewrite Hc in Hc'.
  simplify_eq. specialize (Hb eq_refl). rewrite <- Ht in Hf, Ho.
  destruct (exec_recorded o ops s' _ Hi1 Hb Hf) as (Hi2 & Ht2 & Hr2).
  destruct (call_run o' _ Hi2) as (s3 & b & -> & _ & _ & _ & Hn). simpl. f_equal.
  eapply Hn; [rewrite Hsame; exact Hr2|]. by rewrite Ht2.
Qed.

Lemma replay_refused_within_ttl_witness :
  (replay_call (RSeen "n" "r" "x" (flit 60))
    (replay_exec [RSeen "n" "q" "y" (flit 30)]
      (replay_call (RSeen "n" "r" "x" (flit 1)) (ReplayCache.__init__ (flit 300) 2)).1)).2
  = Ok false.
Proof.
  apply (replay_refused_within_ttl (RSeen "n" "r" "x" (flit 1)) (RSeen "n" "r" "x" (flit 60))
    [RSeen "n" "q" "y" (flit 30)] (ReplayCache.__init__ (flit 300) 2)
    (replay_call (RSeen "n" "r" "x" (flit 1)) (ReplayCache.__init__ (flit 300) 2)).1 (flit 1)).
  - apply init_replay_inv. lia.
  - apply injective_projections; [reflexivity|vm_compute; reflexivity].
  - reflexivity.
  - reflexivity.
  - simpl. repeat (apply Forall_cons_2; [vm_compute; reflexivity|]). apply Forall_nil_2.
Defined.

(** ** [IdempotencyCache] *)

Module IC := IdempotencyCache.

Inductive idem_op :=
  | IStart (key : string * string) (fp : string) (now : float)
  | IFinish (key : string * string) (outcome : result json) (save : result ()).

Definition idem_run (o : idem_op) (s : IC.t) : IC.t :=
  match o with
  | IStart key fp now => (IC.start key fp now s).1
  | IFinish key outcome save => (IC.finish key outcome save s).1
  end.
Definition idem_exec (ops : list idem_op) (s : IC.t) : IC.t := foldl (flip idem_run) s ops.

(** No clock reading of [o] has reached [expiry]. *)
Definition before (expiry : float) (o : idem_op) : Prop :=
  match o with IStart _ _ now => fleb expiry now = false | IFinish _ _ _ => True end.

Definition finishes (key : string * string) (o : idem_op) : bool :=
  match o with IFinish key' _ _ => bool_decide (key' = key) | IStart _ _ _ => false end.

Lemma prune_get s key e now : od_get key (IC._entries s) = Some e →
  fleb (IC.expires_at e) now = false → od_get key (IC._entries (IC._prune s now)) = Some e.
Proof.
  unfold IC._prune. simpl. intros He Hl. induction (IC._entries s) as [|[k x] d IH]; [done|].
  simpl in *. case_decide; simplify_eq.
  - by rewrite Hl, andb_false_r; simpl; rewrite decide_True.
  - destruct (negb _); simpl; [rewrite decide_False by done|]; auto.
Qed.

Lemma idem_run_get key e o s : od_get key (IC._entries s) = Some e → before (IC.expires_at e) o →
  od_get key (IC._entries (idem_run o s)) =
    Some (match o with
          | IFinish key' outcome save =>
              if decide (key' = key) then IC.finished e outcome save else e
          | IStart _ _ _ => e
          end).
Proof.
  intros He Hb. destruct o as [key' fp now|key' outcome save]; simpl in *.
  - apply (prune_get _ _ _ now) in He; [|done]. unfold IC.start.
    destruct (od_get key' _) as [e'|] eqn:He'.
    + by destruct (decide _).
    + destruct (_ <=? _)%Z; [done|]. simpl. rewrite od_get_set_ne; [done|]. intros ->. congruence.
  - destruct (decide (key' = key)) as [->|Hne].
    + unfold IC.finish. rewrite He. simpl. apply od_get_set_eq.
    + unfold IC.finish. simpl. destruct (od_get key' _); [|done]. simpl. by rewrite od_get_set_ne.
Qed.

Lemma idem_exec_get key e ops s : od_get key (IC._entries s) = Some e →
  Forall (before (IC.expires_at e)) ops → Forall (λ o, finishes key o = false) ops →
  od_get key (IC._entries (idem_exec ops s)) = Some e.
Proof.
  revert s. induction ops as [|o ops IH]; intros s He Hb Hn; [done|].
  apply Forall_cons in Hb as [Hb Hbs]. apply Forall_cons in Hn as [Hn Hns]. simpl.
  change (foldl _ (idem_run o s) ops) with (idem_exec ops (idem_run o s)). apply IH; try done.
  rewrite (idem_run_get key e) by done. destruct o; [done|]. simpl in Hn.
  apply bool_decide_eq_false in Hn. by rewrite decide_False.
Qed.

(** One executor per request id: once a caller was told to execute a request, and
    until the entry expires, every other caller with that id waits if its request is
    the same and gets a collision error if not, whatever else goes through the cache;
    and when the executor has published its outcome, that outcome is what the
    callers that waited return, be it a value or an exception. *)
Theorem one_executor_per_request key fp now s s1 ops1 outcome save ops2 fp' t :
  IC.start key fp now s = (s1, Ok IC.Owner) →
  let expiry := fadd now (IC._ttl s) in
  Forall (before expiry) (ops1 ++ ops2 ++ [IStart key fp' t]) →
  Forall (λ o, finishes key o = false) (ops1 ++ ops2) →
  let answer := if decide (fp' = fp) then Ok IC.Waiter
                else raise IdempotencyCollisionError "request ID was reused" in
  (IC.start key fp' t (idem_exec ops1 s1)).2 = answer ∧
  let s2 := idem_exec ops2 (idem_run (IFinish key outcome save) (idem_exec ops1 s1)) in
  (IC.start key fp' t s2).2 = answer ∧
  (IC.joined <$> od_get key (IC._entries s2)) = Some (v ← outcome; _ ← save; Ok v).
Proof.
  intros Hst expiry Hb Hn answer. unfold IC.start in Hst.
  destruct (od_get key (IC._entries (IC._prune s now))) as [x|]; [by destruct (decide _)|].
  destruct (_ <=? _)%Z; [done|]. simplify_eq.
  set (e := IC.mkEntry fp expiry false None None false). set (s1 := IC.mk _ _ _).
  assert (He : od_get key (IC._entries s1) = Some e) by apply od_get_set_eq.
  apply Forall_app in Hb as [Hb1 [Hb2 Hbt]%Forall_app]. apply Forall_app in Hn as [Hn1 Hn2].
  apply Forall_cons in Hbt as [Hbt _]. simpl in Hbt.
  pose proof (idem_exec_get key e ops1 s1 He Hb1 Hn1) as He1.
  assert (Hask : ∀ s' e', od_get key (IC._entries s') = Some e' → IC.fingerprint e' = fp →
            IC.expires_at e' = expiry → (IC.start key fp' t s').2 = answer).
  { intros s' e' He' Hfp Hex. apply (prune_get _ _ _ t) in He'; [|by rewrite Hex].
    unfold IC.start. rewrite He', Hfp. subst answer.
    destruct (decide (fp = fp')), (decide (fp' = fp)); by congruence || done. }
  split; [by eapply Hask|]. intros s2.
  assert (He2 : od_get key (IC._entries s2) = Some (IC.finished e outcome save)).
  { apply idem_exec_get; [|by destruct outcome|done].
    rewrite (idem_run_get key e) by done. by rewrite decide_True. }
  split; [eapply Hask; [exact He2|by destruct outcome..]|]. rewrite He2. simpl. f_equal.
  by destruct outcome, save as [[]|].
Qed.

Lemma one_executor_per_request_witness :
  let s0 := IC.mk (flit 300) 10 [] in
  let key := ("caller", "r1") in
  (IC.start key "fp" (flit 5) (IC.start key "fp" (flit 1) s0).1).2 = Ok IC.Waiter.
Proof.
  intros s0 key.
  destruct (one_executor_per_request key "fp" (flit 1) s0 (IC.start key "fp" (flit 1) s0).1 []
    (Ok JNull) (Ok ()) [] "fp" (flit 5)) as [H _].
  - reflexivity.
  - simpl. apply Forall_cons_2; [vm_compute; reflexivity|apply Forall_nil_2].
  - apply Forall_nil_2.
  - exact H.
Defined.
