(* ===== verification/Envelope.v ===== *)
(** * Signing and verifying envelopes ([remote/wire_protocol.py])

    HMAC-SHA256 (of the standard library's C code) and the text of a float are
    parameters; the clock is an argument. *)

From S2P Require Import Prelude PyFloat Identity PyJson Wire Caches.

Section envelopes.
(** [hmac.new(secret, text, sha256).hexdigest()] *)
Context (hmac_sha256_hex : string → string → string).
Context (float_repr : float → string).

Definition _canonical (fields : list (string * json)) : result string :=
  dumps float_repr true (JObj fields).

Definition _signature (secret : string) (fields : list (string * json)) : result string :=
  text ← _canonical fields;
  Ok (hmac_sha256_hex secret text).

Definition _verify_signature (signature secret : string) (fields : list (string * json))
    (kind : string) : result () :=
  expected ← catch ValueError (_signature secret fields)
               (raise RemoteProtocolError (kind +:+ " contains invalid JSON values"));
  same ← compare_digest signature expected;
  raise_if (negb same) RemoteAuthError (kind +:+ " signature is invalid").

(** [if value is not None: fields[key] = value] *)
Definition set_some (key : string) (v : option json) (d : list (string * json)) :=
  match v with Some v => od_set key v d | None => d end.

Definition request_fields (node_id op : string) (params : list (string * json))
    (request_id nonce : string) (timestamp : float) (caller_node_id session_id : option string)
    (resume : bool) (connection_generation : option string) : list (string * json) :=
  let fields := [("v", JStr REMOTE_PROTOCOL_VERSION); ("node_id", JStr node_id); ("op", JStr op);
    ("params", JObj params); ("request_id", JStr request_id); ("nonce", JStr nonce);
    ("ts", JFloat timestamp)] in
  let fields := set_some "caller_node_id" (JStr <$> caller_node_id) fields in
  let fields := match session_id with
                | Some s => od_set "resume" (JBool resume) (od_set "session_id" (JStr s) fields)
                | None => fields
                end in
  set_some "connection_generation" (JStr <$> connection_generation) fields.

Definition sign_request (node_id op : string) (params : list (string * json))
    (request_id nonce : string) (timestamp : float) (secret : string)
    (caller_node_id session_id : option string) (resume : bool)
    (connection_generation : option string) : result (list (string * json)) :=
  let fields := request_fields node_id op params request_id nonce timestamp caller_node_id
                  session_id resume connection_generation in
  sig ← _signature secret fields;
  Ok (od_set "sig" (JStr sig) fields).

Definition opt_json {A} (f : A → json) (v : option A) : json :=
  match v with Some x => f x | None => JNull end.

Definition sign_response (node_id request_id status secret : string) (timestamp : float)
    (payload : option (list (string * json))) (error session_id connection_generation : option string)
    : result (list (string * json)) :=
  let fields := [("v", JStr REMOTE_PROTOCOL_VERSION); ("node_id", JStr node_id);
    ("request_id", JStr request_id); ("status", JStr status); ("payload", opt_json JObj payload);
    ("error", opt_json JStr error); ("ts", JFloat timestamp)] in
  let fields := set_some "session_id" (JStr <$> session_id) fields in
  let fields := set_some "connection_generation" (JStr <$> connection_generation) fields in
  sig ← _signature secret fields;
  Ok (od_set "sig" (JStr sig) fields).

(** ** Verification *)

(** A text that must not be empty. *)
Definition nonempty (v : json) (c : exn_class) (msg : string) : result string :=
  match v with
  | JStr s => if bool_decide (s = "") then raise c msg else Ok s
  | _ => raise c msg
  end.

(** An identifier, or [None] when the member is null or absent. *)
Definition opt_identifier (v : json) (msg : string) : result (option string) :=
  match v with
  | JNull => Ok None
  | JStr s => if _valid_identifier v then Ok (Some s) else raise RemoteAuthError msg
  | _ => raise RemoteAuthError msg
  end.

Definition identifier (v : json) (msg : string) : result string :=
  match v with
  | JStr s => if _valid_identifier v then Ok s else raise RemoteAuthError msg
  | _ => raise RemoteAuthError msg
  end.

(** The version, the field names and the signature; gives the fields. *)
Definition open_envelope (envelope : json) (allowed : list string) (secret kind : string)
    : result (list (string * json)) :=
  match envelope with
  | JObj d =>
      raise_if (negb (match jget "v" d with
                      | JStr v => bool_decide (v = REMOTE_PROTOCOL_VERSION)
                      | _ => false
                      end)) RemoteProtocolError "unsupported remote protocol version";;
      raise_if (negb (keys_within d allowed) || negb (od_mem "sig" d))
        RemoteProtocolError (kind +:+ " envelope fields are invalid");;
      signature ← of_option (is_str (jget "sig" d)) RemoteAuthError
                    (kind +:+ " is missing its signature");
      _verify_signature signature secret (od_pop "sig" d) kind;;
      Ok d
  | _ => raise RemoteProtocolError (kind +:+ " envelope must be an object")
  end.

(** A finite timestamp within [freshness] of [now]. *)
Definition fresh_timestamp (v : json) (now freshness : float) (kind : string) : result float :=
  raise_if (negb (is_number v)) RemoteAuthError (kind +:+ " timestamp is invalid");;
  timestamp ← to_float v;
  raise_if (negb (isfinite timestamp)) RemoteAuthError (kind +:+ " timestamp is invalid");;
  let age := fsub now timestamp in
  raise_if (fltb freshness age || fltb age (fneg freshness)) RemoteAuthError
    (kind +:+ " timestamp is outside the freshness window");;
  Ok timestamp.

Definition request_allowed : list string :=
  ["v"; "node_id"; "caller_node_id"; "op"; "params"; "request_id"; "nonce"; "ts"; "sig";
   "session_id"; "resume"; "connection_generation"].

(** Everything [verify_request] checks before the replay cache. *)
Definition parse_request (envelope : json) (secret : string) (now freshness : float)
    : result RemoteRequest.t :=
  d ← open_envelope envelope request_allowed secret "request";
  node_id ← nonempty (jget "node_id" d) RemoteAuthError "request node_id is invalid";
  caller ← match jget "caller_node_id" d with
           | JNull => Ok None
           | v => Some <$> nonempty v RemoteAuthError "request caller_node_id is invalid"
           end;
  op ← of_option (is_str (jget "op" d)) RemoteProtocolError "request op must be a string";
  params ← of_option (is_obj (jget "params" d)) RemoteProtocolError "request params must be an object";
  request_id ← identifier (jget "request_id" d) "request_id is invalid";
  nonce ← identifier (jget "nonce" d) "request nonce is invalid";
  session_id ← opt_identifier (jget "session_id" d) "session_id is invalid";
  resume ← of_option (is_bool (jget_or "resume" (JBool false) d)) RemoteAuthError
             "request resume is invalid";
  raise_if (resume && match session_id with Some _ => false | None => true end)
    RemoteAuthError "request resume is invalid";;
  generation ← opt_identifier (jget "connection_generation" d) "connection generation is invalid";
  timestamp ← fresh_timestamp (jget "ts" d) now freshness "request";
  ids ← catch ValueError
          (n ← NodeId.__post_init__ node_id;
           c ← match caller with
               | Some c => Some <$> NodeId.__post_init__ c
               | None => Ok None
               end;
           Ok (n, c))
          (raise RemoteAuthError "request identity is invalid");
  Ok (RemoteRequest.mk ids.1 ids.2 op params request_id nonce timestamp session_id resume generation).

Definition verify_request (envelope : json) (secret : string) (now freshness : float)
    : M ReplayCache.t RemoteRequest.t := λ cache,
  match parse_request envelope secret now freshness with
  | Err e => (cache, Err e)
  | Ok r =>
      (fresh ← ReplayCache.check_and_record (value (RemoteRequest.node_id r))
                 (RemoteRequest.request_id r) (RemoteRequest.nonce r) now;
       throw_if (negb fresh) RemoteAuthError "request has been replayed";;
       mret r) cache
  end.

Definition response_allowed : list string :=
  ["v"; "node_id"; "request_id"; "status"; "payload"; "error"; "ts"; "sig"; "session_id";
   "connection_generation"].

Definition verify_response (envelope : json) (secret : string) (now freshness : float)
    : result RemoteResponse.t :=
  d ← open_envelope envelope response_allowed secret "response";
  node_id ← nonempty (jget "node_id" d) RemoteAuthError "response identity fields are invalid";
  request_id ← nonempty (jget "request_id" d) RemoteAuthError "response identity fields are invalid";
  status ← match jget "status" d with
           | JStr s => if bool_decide (s ∈ ["ok"; "error"]) then Ok s
                       else raise RemoteProtocolError "response status is invalid"
           | _ => raise RemoteProtocolError "response status is invalid"
           end;
  payload ← match jget "payload" d with
            | JNull => Ok None
            | JObj p => Ok (Some p)
            | _ => raise RemoteProtocolError "response payload must be an object or null"
            end;
  error ← match jget "error" d with
          | JNull => Ok None
          | JStr e => Ok (Some e)
          | _ => raise RemoteProtocolError "response error must be a string or null"
          end;
  session_id ← opt_identifier (jget "session_id" d) "response session_id is invalid";
  generation ← opt_identifier (jget "connection_generation" d) "response connection generation is invalid";
  timestamp ← fresh_timestamp (jget "ts" d) now freshness "response";
  node ← catch ValueError (NodeId.__post_init__ node_id)
           (raise RemoteAuthError "response identity is invalid");
  Ok (RemoteResponse.mk node request_id status payload error timestamp session_id generation).
End envelopes.
