(* ===== verification/EnvelopeSpec.v ===== *)
(** * Envelopes: what is verified is what was signed *)

From S2P Require Import Prelude PyFloat Identity ClusterModels Roles RolesFacts PyJson Wire Caches Envelope.

Section spec.
Context (hmac_sha256_hex : string → string → string) (float_repr : float → string).
Notation verify := (verify_request hmac_sha256_hex float_repr).
Notation parse := (parse_request hmac_sha256_hex float_repr).
Notation canonical := (_canonical float_repr).

(** ** Opening an envelope *)

(** The envelope carries the MAC of its other members. *)
Definition authentic (secret : string) (d : list (string * json)) : Prop :=
  ∃ text, canonical (od_pop "sig" d) = Ok text ∧
    od_get "sig" d = Some (JStr (hmac_sha256_hex secret text)).

Lemma catch_Ok {A} c (m h : result A) a : catch c m h = Ok a → m = Ok a ∨ h = Ok a.
Proof. unfold catch. destruct m; [by left|]. case_match; [by right|done]. Qed.

Lemma open_Ok envelope allowed secret kind d :
  open_envelope hmac_sha256_hex float_repr envelope allowed secret kind = Ok d →
  envelope = JObj d ∧ od_get "v" d = Some (JStr REMOTE_PROTOCOL_VERSION) ∧
  keys_within d allowed = true ∧ authentic secret d.
Proof.
  unfold open_envelope. destruct envelope as [| | | | | |d0]; try done. intros H.
  repeat res_step. subst d0. split; [done|]. apply negb_false_iff in Hres. split.
  { unfold jget in Hres. destruct (od_get "v" d) as [v|]; simpl in Hres; [|done].
    destruct v; try done. apply bool_decide_eq_true in Hres. by subst. }
  apply orb_false_iff in Hres0 as [Hk Hs]. apply negb_false_iff in Hk, Hs. split; [done|].
  unfold od_mem in Hs. unfold jget in Hres1.
  destruct (od_get "sig" d) as [v|] eqn:Hsig; [|done]. simpl in Hres1.
  destruct v; simpl in Hres1; try done. injection Hres1 as ->.
  unfold _verify_signature in Hres2. repeat res_step.
  match goal with H : catch _ _ _ = Ok _ |- _ => apply catch_Ok in H as [Hc|Hc]; [|done] end.
  unfold _signature in Hc. repeat res_step. subst.
  eexists. split; [done|]. rewrite Hsig. do 2 f_equal.
  match goal with H : compare_digest _ _ = Ok _ |- _ => unfold compare_digest in H;
    destruct (_ && _) in H; [injection H as <-|done] end.
  match goal with H : negb (bool_decide _) = false |- _ =>
    by apply negb_false_iff, bool_decide_eq_true in H end.
Qed.

Lemma jget_Some k d v : jget k d = v → v ≠ JNull → od_get k d = Some v.
Proof. unfold jget. destruct (od_get k d); simpl; congruence. Qed.

Lemma nonempty_Ok v c msg s : nonempty v c msg = Ok s → v = JStr s.
Proof. destruct v; simpl; try done. case_bool_decide; [done|]. congruence. Qed.

Lemma identifier_Ok v msg s : identifier v msg = Ok s →
  v = JStr s ∧ _valid_identifier (JStr s) = true.
Proof.
  destruct v as [| | | |s'| |]; simpl; try done. intros H.
  destruct (_ && _) eqn:E in H; [|done]. by injection H as <-.
Qed.

Lemma opt_identifier_Ok v msg o : opt_identifier v msg = Ok o → v = opt_json JStr o.
Proof.
  destruct v as [| | | |s'| |]; simpl; try done; [intros H; by injection H as <-|]. intros H.
  destruct (_ && _) eqn:E in H; [|done]. by injection H as <-.
Qed.

Lemma fresh_Ok v now freshness kind ts : fresh_timestamp v now freshness kind = Ok ts →
  to_float v = Ok ts ∧ isfinite ts = true ∧ fltb freshness (fsub now ts) = false ∧
  fltb (fsub now ts) (fneg freshness) = false.
Proof. unfold fresh_timestamp. intros H. repeat res_step. to_prop. by subst. Qed.

(** What the verified request says of the envelope. *)
Record describes (d : list (string * json)) (r : RemoteRequest.t) : Prop := {
  describes_node : od_get "node_id" d = Some (JStr (value (RemoteRequest.node_id r)));
  describes_caller : jget "caller_node_id" d
    = opt_json (λ n, JStr (value n)) (RemoteRequest.caller_node_id r);
  describes_op : od_get "op" d = Some (JStr (RemoteRequest.op r));
  describes_params : od_get "params" d = Some (JObj (RemoteRequest.params r));
  describes_request : od_get "request_id" d = Some (JStr (RemoteRequest.request_id r));
  describes_nonce : od_get "nonce" d = Some (JStr (RemoteRequest.nonce r));
  describes_session : jget "session_id" d = opt_json JStr (RemoteRequest.session_id r);
  describes_resume : jget_or "resume" (JBool false) d = JBool (RemoteRequest.resume r);
  describes_generation : jget "connection_generation" d
    = opt_json JStr (RemoteRequest.connection_generation r);
  describes_time : to_float (jget "ts" d) = Ok (RemoteRequest.timestamp r) }.

Lemma parse_Ok envelope secret now freshness r : parse envelope secret now freshness = Ok r →
  ∃ d, envelope = JObj d ∧ authentic secret d ∧ describes d r ∧
    NodeId.valid (RemoteRequest.node_id r) ∧
    (RemoteRequest.resume r = true → is_Some (RemoteRequest.session_id r)) ∧
    isfinite (RemoteRequest.timestamp r) = true ∧
    fltb freshness (fsub now (RemoteRequest.timestamp r)) = false ∧
    fltb (fsub now (RemoteRequest.timestamp r)) (fneg freshness) = false.
Proof.
  unfold parse_request. intros H.
  apply bind_Ok in H as (d & Hopen & H). apply open_Ok in Hopen as (-> & _ & _ & Hauth).
  exists d. split; [done|]. split; [done|].
  apply bind_Ok in H as (node & Hnode%nonempty_Ok & H).
  apply bind_Ok in H as (caller & Hcaller & H).
  apply bind_Ok in H as (op & Hop%of_option_Ok & H).
  apply bind_Ok in H as (params & Hparams%of_option_Ok & H).
  apply bind_Ok in H as (rid & [Hrid _]%identifier_Ok & H).
  apply bind_Ok in H as (nonce & [Hnonce _]%identifier_Ok & H).
  apply bind_Ok in H as (session & Hsession%opt_identifier_Ok & H).
  apply bind_Ok in H as (resume & Hresume%of_option_Ok & H).
  apply bind_Ok in H as (u & Hrs%raise_if_Ok & H).
  apply bind_Ok in H as (gen & Hgen%opt_identifier_Ok & H).
  apply bind_Ok in H as (ts & (Hts & Hfin & Hf1 & Hf2)%fresh_Ok & H).
  apply bind_Ok in H as ([n c] & [Hids|Hids]%catch_Ok & H); [|done]. injection H as <-.
  apply bind_Ok in Hids as (n' & [-> Hv]%NodeId.node_id_Ok & Hids).
  apply bind_Ok in Hids as (c' & Hc & Hids). simplify_eq/=.
  assert (Hcall : jget "caller_node_id" d = opt_json (λ n, JStr (value n)) c).
  { destruct (jget "caller_node_id" d) as [| | | |s| |] eqn:Ecall; simpl in Hcaller; simplify_eq/=; try done.
    case_bool_decide; simplify_eq/=. simplify_eq/=.
    destruct (NodeId.__post_init__ s) as [m|] eqn:Em; simplify_eq/=.
    by apply NodeId.node_id_Ok in Em as [-> _]. }
  destruct (jget "op" d) eqn:Eop; simplify_eq/=. destruct (jget "params" d) eqn:Eparams; simplify_eq/=.
  destruct (jget_or _ _ d) eqn:Eresume; simplify_eq/=.
  split_and!; try done.
  - split; simpl; try done; by apply jget_Some.
  - intros Hr. rewrite Hr in Hrs. simpl in Hrs. by destruct session.
Qed.

(** C9. A request that is accepted was authenticated and is fresh: the envelope carries
    the MAC, under the caller's secret, of the canonical text of all its other
    members; every field of the request is a member of that envelope; its timestamp
    is within the freshness window; its key was not recorded within the replay
    window and is now, so that the same envelope is not accepted again. *)
Theorem accepted_request_is_authentic envelope secret now freshness cache cache' r :
  replay_inv cache → verify envelope secret now freshness cache = (cache', Ok r) →
  let key := (value (RemoteRequest.node_id r), RemoteRequest.request_id r, RemoteRequest.nonce r) in
  ∃ d, envelope = JObj d ∧ authentic secret d ∧ describes d r ∧
    NodeId.valid (RemoteRequest.node_id r) ∧
    fltb freshness (fsub now (RemoteRequest.timestamp r)) = false ∧
    fltb (fsub now (RemoteRequest.timestamp r)) (fneg freshness) = false ∧
    (∀ at_, ReplayCache._seen cache !! key = Some at_ →
       fltb (ReplayCache._ttl cache) (fsub now at_) = true) ∧
    ReplayCache._seen cache' !! key = Some now ∧ replay_inv cache'.
Proof.
  intros Hi H key. unfold verify_request in H.
  destruct (parse envelope secret now freshness) as [r0|e] eqn:Hp; [|done].
  pose proof (parse_Ok _ _ _ _ _ Hp) as (d & -> & Ha & Hd & Hv & _ & _ & Hf1 & Hf2).
  destruct (call_run (RSeen (value (RemoteRequest.node_id r0)) (RemoteRequest.request_id r0)
    (RemoteRequest.nonce r0) now) cache Hi) as (c1 & b & Hc & Hi1 & _ & Hb & Hn).
  simpl in Hc. unfold mbind, M_bind, throw_if, mret, M_ret in H. rewrite Hc in H.
  destruct b; simplify_eq/=. exists d. split_and!; try done.
  - intros at_ Hat. destruct (fltb (ReplayCache._ttl cache) _) eqn:Hl; [done|]. by specialize (Hn at_ Hat Hl).
  - by apply Hb.
Qed.

(** ** Signing and verifying *)

Lemma request_sig node op params rid nonce ts caller session resume gen :
  od_get "sig" (request_fields node op params rid nonce ts caller session resume gen) = None.
Proof. by destruct caller, session, gen. Qed.

Lemma request_members node op params rid nonce ts caller session resume gen :
  let f := request_fields node op params rid nonce ts caller session resume gen in
  jget "node_id" f = JStr node ∧ jget "caller_node_id" f = opt_json JStr caller ∧
  jget "op" f = JStr op ∧ jget "params" f = JObj params ∧ jget "request_id" f = JStr rid ∧
  jget "nonce" f = JStr nonce ∧ jget "session_id" f = opt_json JStr session ∧
  jget_or "resume" (JBool false) f
    = JBool (match session with Some _ => resume | None => false end) ∧
  jget "connection_generation" f = opt_json JStr gen ∧ jget "ts" f = JFloat ts.
Proof. destruct caller, session, gen; by split_and!. Qed.

Lemma nonempty_run s c msg : s ≠ "" → nonempty (JStr s) c msg = Ok s.
Proof. intros. simpl. by rewrite bool_decide_eq_false_2. Qed.

Lemma identifier_run s msg : _valid_identifier (JStr s) = true → identifier (JStr s) msg = Ok s.
Proof. intros Hv. unfold identifier. by rewrite Hv. Qed.

Lemma opt_identifier_run o msg : Forall (λ s, _valid_identifier (JStr s) = true) (option_list o) →
  opt_identifier (opt_json JStr o) msg = Ok o.
Proof.
  destruct o as [s|]; simpl; [|done]. intros [Hv _]%Forall_cons. simpl in Hv. by rewrite Hv.
Qed.

Lemma fresh_run ts now freshness kind : isfinite ts = true → fltb freshness (fsub now ts) = false →
  fltb (fsub now ts) (fneg freshness) = false →
  fresh_timestamp (JFloat ts) now freshness kind = Ok ts.
Proof. intros Hf H1 H2. unfold fresh_timestamp. simpl. by rewrite Hf, H1, H2. Qed.

Lemma request_version node op params rid nonce ts caller session resume gen :
  od_get "v" (request_fields node op params rid nonce ts caller session resume gen)
  = Some (JStr REMOTE_PROTOCOL_VERSION).
Proof. by destruct caller, session, gen. Qed.

Lemma request_keys node op params rid nonce ts caller session resume gen v :
  keys_within (od_set "sig" v (request_fields node op params rid nonce ts caller session resume gen))
    request_allowed = true.
Proof. by destruct caller, session, gen. Qed.

(** A signed request is opened under the same secret. *)
Lemma sealed_opens node op params rid nonce ts caller session resume gen secret sig :
  (∀ k t, is_ascii (hmac_sha256_hex k t) = true) →
  let fields := request_fields node op params rid nonce ts caller session resume gen in
  _signature hmac_sha256_hex float_repr secret fields = Ok sig →
  open_envelope hmac_sha256_hex float_repr (JObj (od_set "sig" (JStr sig) fields)) request_allowed secret
    "request" = Ok (od_set "sig" (JStr sig) fields).
Proof.
  intros Hascii fields Hsign. assert (Hsig : od_get "sig" fields = None) by apply request_sig.
  assert (Hv : od_get "v" fields = Some (JStr REMOTE_PROTOCOL_VERSION)) by apply request_version.
  assert (Hk : ∀ v, keys_within (od_set "sig" v fields) request_allowed = true) by (intros; apply request_keys).
  clearbody fields. unfold _signature in Hsign. repeat res_step. subst.
  unfold open_envelope, jget, od_mem. rewrite (od_get_set_ne "sig" "v"), !od_get_set_eq, Hv by done.
  cbn [default from_option id]. rewrite bool_decide_eq_true_2 by done. cbn [negb raise_if mbind result_bind].
  rewrite Hk. cbn. rewrite od_pop_set_fresh by done. unfold _verify_signature, _signature.
  match goal with H : canonical fields = Ok _ |- _ => rewrite H end. cbn.
  unfold compare_digest. rewrite !Hascii. cbn [andb]. by rewrite bool_decide_eq_true_2.
Qed.

(** What is signed is accepted as it was signed: a request signed with a secret, for
    valid ids and identifiers and a finite timestamp within the freshness window, is
    verified under the same secret to the very same request. *)
Theorem signed_request_verifies (node : NodeId) op params rid nonce ts secret
    (caller : option NodeId) session resume gen now freshness env :
  (∀ k t, is_ascii (hmac_sha256_hex k t) = true) →
  sign_request hmac_sha256_hex float_repr (value node) op params rid nonce ts secret
    (value <$> caller) session resume gen = Ok env →
  NodeId.valid node → (∀ c, caller = Some c → NodeId.valid c) →
  Forall (λ s, _valid_identifier (JStr s) = true) ([rid; nonce] ++ option_list session ++ option_list gen) →
  isfinite ts = true → fltb freshness (fsub now ts) = false →
  fltb (fsub now ts) (fneg freshness) = false →
  parse (JObj env) secret now freshness =
    Ok (RemoteRequest.mk node caller op params rid nonce ts session
          (match session with Some _ => resume | None => false end) gen).
Proof.
  intros Hascii Hsign Hn Hc [Hrid [Hnonce Hopt]%Forall_cons]%Forall_cons Hfin Hf1 Hf2.
  apply Forall_app in Hopt as [Hses Hgen].
  unfold sign_request in Hsign. repeat res_step. subst env.
  set (fields := request_fields _ _ _ _ _ _ _ _ _ _) in *.
  assert (Hopen : open_envelope hmac_sha256_hex float_repr (JObj (od_set "sig" (JStr res) fields))
            request_allowed secret "request" = Ok (od_set "sig" (JStr res) fields))
    by (by apply sealed_opens).
  unfold _signature in Hres. repeat res_step. subst.
  match goal with H : canonical fields = Ok ?t |- _ => set (mac := hmac_sha256_hex secret t) in * end.
  assert (Hne : ∀ n : NodeId, NodeId.valid n → value n ≠ "").
  { intros n Hv He. unfold NodeId.valid, NodeId.__post_init__ in Hv. by rewrite He in Hv. }
  assert (Hget : ∀ k, k ≠ "sig" → jget k (od_set "sig" (JStr mac) fields) = jget k fields).
  { intros k Hk. unfold jget. by rewrite od_get_set_ne by done. }
  assert (Hor : jget_or "resume" (JBool false) (od_set "sig" (JStr mac) fields)
    = jget_or "resume" (JBool false) fields) by (unfold jget_or; by rewrite od_get_set_ne).
  destruct (request_members (value node) op params rid nonce ts (value <$> caller) session resume gen)
    as (G1 & G2 & G3 & G4 & G5 & G6 & G7 & G8 & G9 & G10).
  unfold parse_request. rewrite Hopen. cbn [mbind result_bind].
  rewrite (Hget "node_id"), (Hget "caller_node_id"), (Hget "op"), (Hget "params"), (Hget "request_id"),
    (Hget "nonce"), (Hget "session_id"), (Hget "connection_generation"), (Hget "ts"), Hor by done.
  unfold fields. rewrite G1, G2, G3, G4, G5, G6, G7, G8, G9, G10.
  rewrite nonempty_run by auto. cbn [mbind result_bind].
  rewrite !identifier_run, !opt_identifier_run, fresh_run by done.
  assert (Hcaller : match opt_json JStr (value <$> caller) with
     | JNull => Ok None
     | v => Some <$> nonempty v RemoteAuthError "request caller_node_id is invalid"
     end = Ok (value <$> caller)).
  { destruct caller as [c|]; [|done]. cbn [fmap option_fmap option_map opt_json].
    by rewrite nonempty_run by auto. }
  rewrite Hcaller. cbn.
  replace (match session with Some _ => resume | None => false end
           && match session with Some _ => false | None => true end) with false
    by (destruct session; [by rewrite andb_false_r|done]).
  cbn. assert (Hids : (n ← NodeId.__post_init__ (value node);
       c ← match value <$> caller with Some c => Some <$> NodeId.__post_init__ c | None => Ok None end;
       Ok (n, c)) = Ok (node, caller)).
  { unfold NodeId.valid in Hn. rewrite Hn. cbn. destruct caller as [c|]; [|done]. cbn.
    specialize (Hc c eq_refl). unfold NodeId.valid in Hc. by rewrite Hc. }
  cbn in Hids. rewrite Hids. reflexivity.
Qed.
End spec.

(** ** A concrete exchange *)

(** A stand-in for the MAC with ASCII values, and one for the text of a float. *)
Definition sample_mac (k t : string) : string := if is_ascii (k +:+ t) then k +:+ t else "".
Definition sample_text (_ : float) : string := "1.0".

Definition sample_envelope : list (string * json) :=
  match sign_request sample_mac sample_text "server" "status" [("verbose", JBool true)] "r1" "n1"
          (flit 100) "secret" (Some "laptop") (Some "s1") true None with
  | Ok env => env
  | Err _ => []
  end.

Lemma accepted_request_is_authentic_witness :
  ∃ cache' r, verify_request sample_mac sample_text (JObj sample_envelope) "secret" (flit 110) (flit 60)
                (ReplayCache.__init__ (flit 300) 4) = (cache', Ok r) ∧
    ∃ d, JObj sample_envelope = JObj d ∧ authentic sample_mac sample_text "secret" d ∧ describes d r.
Proof.
  set (run := verify_request sample_mac sample_text (JObj sample_envelope) "secret" (flit 110) (flit 60)
                (ReplayCache.__init__ (flit 300) 4)).
  destruct (ok_run run.2) as [r Hr]; [vm_compute; reflexivity|].
  exists run.1, r. assert (Hrun : run = (run.1, Ok r)) by (by apply injective_projections).
  split; [exact Hrun|].
  destruct (accepted_request_is_authentic sample_mac sample_text (JObj sample_envelope) "secret" (flit 110)
    (flit 60) (ReplayCache.__init__ (flit 300) 4) run.1 r) as (d & He & Ha & Hd & _).
  - apply init_replay_inv. lia.
  - exact Hrun.
  - exists d. split; [exact He|]. split; [exact Ha|exact Hd].
Defined.

Lemma signed_request_verifies_witness :
  parse_request sample_mac sample_text (JObj sample_envelope) "secret" (flit 110) (flit 60) =
    Ok (RemoteRequest.mk (mkNodeId "server") (Some (mkNodeId "laptop")) "status" [("verbose", JBool true)]
          "r1" "n1" (flit 100) (Some "s1") true None).
Proof.
  apply (signed_request_verifies sample_mac sample_text (mkNodeId "server") "status"
    [("verbose", JBool true)] "r1" "n1" (flit 100) "secret" (Some (mkNodeId "laptop")) (Some "s1") true None
    (flit 110) (flit 60) sample_envelope).
  - intros k t. unfold sample_mac. destruct (is_ascii (k +:+ t)) eqn:E; [exact E|reflexivity].
  - vm_compute. reflexivity.
  - vm_compute. reflexivity.
  - intros c Hc. injection Hc as <-. vm_compute. reflexivity.
  - repeat (apply Forall_cons_2; [vm_compute; reflexivity|]). apply Forall_nil_2.
  - vm_compute. reflexivity.
  - vm_compute. reflexivity.
  - vm_compute. reflexivity.
Defined.
