(* ===== verification/CanonicalSpec.v ===== *)
(** * The canonical text determines the document

    [json.dumps] with sorted keys maps two documents to the same text only when they
    are equal up to the order of object members: a MAC over the text binds every
    member.  The text of a number must consist of the characters of numbers, tell
    floats apart and never read as an integer, as [float.__repr__] does. *)

From S2P Require Import Prelude PyFloat Identity PyJson.
From Stdlib Require Import Ascii.
From stdpp Require Import pretty.

(** Digits and the minus sign: the characters of integers. *)
Definition int_char (c : Ascii.ascii) : bool :=
  let n := Ascii.nat_of_ascii c in (Nat.leb 48 n && Nat.leb n 57) || Nat.eqb n 45.

Definition num_char (c : Ascii.ascii) : bool :=
  int_char c || bool_decide (Ascii.nat_of_ascii c ∈ [46; 43; 101]).

Fixpoint all_chars (P : Ascii.ascii → bool) (s : string) : bool :=
  match s with EmptyString => true | String c r => P c && all_chars P r end.
Notation all_num := (all_chars num_char).

(** A float as Python represents it. *)
Definition is_float (f : float) : bool := valid_binary 53 1024 f.

Class FloatText (float_repr : float → string) : Prop := {
  repr_number : ∀ f, isfinite f = true → all_num (float_repr f) = true ∧ float_repr f ≠ "";
  repr_inj : ∀ f g, is_float f = true → is_float g = true → isfinite f = true → isfinite g = true →
    float_repr f = float_repr g → f = g;
  repr_not_int : ∀ f (z : Z), isfinite f = true → float_repr f ≠ pretty z }.

(** ** Strings *)

Lemma sapp_assoc (a b c : string) : (a +:+ b) +:+ c = a +:+ (b +:+ c).
Proof.
  induction a as [|x a IH]; [done|].
  change (String x ((a +:+ b) +:+ c) = String x (a +:+ b +:+ c)). by rewrite IH.
Qed.

Lemma scons x a b : String x a +:+ b = String x (a +:+ b).
Proof. done. Qed.

(** Text that does not continue with a character of [P]. *)
Definition stops (P : Ascii.ascii → bool) (s : string) : Prop :=
  match s with EmptyString => True | String c _ => P c = false end.

(** Text that ends a value: nothing, or the next separator. *)
Notation delimited := (stops num_char).

Lemma all_split P a b r1 r2 : all_chars P a = true → all_chars P b = true → stops P r1 → stops P r2 →
  a +:+ r1 = b +:+ r2 → a = b ∧ r1 = r2.
Proof.
  revert b. induction a as [|x a IH]; intros [|y b] Ha Hb Hr1 Hr2 H.
  - done.
  - change (r1 = String y (b +:+ r2)) in H. simpl in Hb. apply andb_true_iff in Hb as [Hy _].
    subst r1. simpl in Hr1. congruence.
  - change (String x (a +:+ r1) = r2) in H. simpl in Ha. apply andb_true_iff in Ha as [Hx _].
    subst r2. simpl in Hr2. congruence.
  - rewrite !scons in H. injection H as <- H. simpl in Ha, Hb.
    apply andb_true_iff in Ha as [_ Ha], Hb as [_ Hb].
    destruct (IH b Ha Hb Hr1 Hr2 H) as [-> ->]. done.
Qed.

Lemma all_chars_weaken (P Q : Ascii.ascii → bool) s : (∀ c, P c = true → Q c = true) →
  all_chars P s = true → all_chars Q s = true.
Proof.
  intros HPQ. induction s as [|c s IH]; simpl; [done|]. intros [Hc Hs]%andb_true_iff.
  by rewrite (HPQ c Hc), IH.
Qed.

Lemma pretty_N_go_int x s : all_chars int_char s = true → all_chars int_char (pretty_N_go x s) = true.
Proof.
  revert s. induction (N.lt_wf_0 x) as [x _ IH]; intros s Hs.
  destruct (decide (x = 0)%N) as [->|]; [by rewrite pretty_N_go_0|].
  rewrite pretty_N_go_step by lia. apply IH; [apply N.div_lt; lia|]. simpl. rewrite Hs, andb_true_r.
  unfold pretty_N_char. by repeat case_match.
Qed.

Lemma pretty_N_int x : all_chars int_char (pretty (x : N)) = true.
Proof. unfold pretty, pretty_N. case_decide; [done|]. by apply pretty_N_go_int. Qed.

Lemma pretty_Z_int (z : Z) : all_chars int_char (pretty z) = true.
Proof. destruct z as [|p|p]; [done|apply (pretty_N_int (Npos p))|apply (pretty_N_int (Npos p))]. Qed.

Lemma pretty_Z_num (z : Z) : all_num (pretty z) = true.
Proof.
  apply (all_chars_weaken int_char); [|apply pretty_Z_int]. intros c Hc. unfold num_char. by rewrite Hc.
Qed.

Lemma pretty_Z_nonempty (z : Z) : pretty z ≠ "".
Proof.
  assert (HN : ∀ x s, s ≠ "" → pretty_N_go x s ≠ "").
  { intros x. induction (N.lt_wf_0 x) as [x _ IH]; intros s Hs.
    destruct (decide (x = 0)%N) as [->|]; [by rewrite pretty_N_go_0|].
    rewrite pretty_N_go_step by lia. apply IH; [apply N.div_lt; lia|done]. }
  assert (HP : ∀ p, pretty (Npos p) ≠ "").
  { intros p. unfold pretty, pretty_N. case_decide; [done|].
    rewrite pretty_N_go_step by lia. by apply HN. }
  destruct z as [|p|p]; [done|apply HP|done].
Qed.

(** ** String literals *)

(** [a] starts with [b]. *)
Fixpoint starts (b a : string) : bool :=
  match b, a with
  | EmptyString, _ => true
  | String x b, String y a => bool_decide (x = y) && starts b a
  | String _ _, EmptyString => false
  end.

Definition all_ascii : list Ascii.ascii := Ascii.ascii_of_nat <$> seq 0 256.

Lemma all_ascii_elem c : c ∈ all_ascii.
Proof.
  apply list_elem_of_fmap. exists (Ascii.nat_of_ascii c). split.
  - by rewrite Ascii.ascii_nat_embedding.
  - apply elem_of_seq. pose proof (Ascii.nat_ascii_bounded c). lia.
Qed.

(** No escape is the beginning of another, and none begins with the closing quote. *)
Lemma escape_prefix_free : forallb (λ a, negb (starts (char 34) (escape a)) &&
  forallb (λ b, bool_decide (a = b) || negb (starts (escape a) (escape b))) all_ascii) all_ascii = true.
Proof. vm_compute. reflexivity. Qed.

Lemma starts_app a b r s : a +:+ r = b +:+ s → starts a b = true ∨ starts b a = true.
Proof.
  revert b. induction a as [|x a IH]; intros [|y b] H; simpl; auto.
  rewrite !scons in H. injection H as <- H. rewrite bool_decide_eq_true_2 by done. by apply IH.
Qed.

Lemma escape_split a b r s : escape a +:+ r = escape b +:+ s → a = b ∧ r = s.
Proof.
  intros H. destruct (decide (a = b)) as [->|Hne].
  { split; [done|]. by apply (inj _) in H. }
  exfalso. pose proof escape_prefix_free as Hall. rewrite forallb_forall in Hall.
  assert (Hno : ∀ a b, a ≠ b → starts (escape a) (escape b) = false).
  { intros x y Hxy. specialize (Hall x). rewrite <- list_elem_of_In in Hall.
    specialize (Hall (all_ascii_elem x)). apply andb_true_iff in Hall as [_ Hy].
    rewrite forallb_forall in Hy. specialize (Hy y). rewrite <- list_elem_of_In in Hy.
    specialize (Hy (all_ascii_elem y)). rewrite bool_decide_eq_false_2 in Hy by done.
    by apply negb_true_iff in Hy. }
  destruct (starts_app _ _ _ _ H) as [Hs|Hs]; rewrite Hno in Hs; congruence.
Qed.

Lemma escape_not_quote c r s : escape c +:+ r ≠ char 34 +:+ s.
Proof.
  intros H. pose proof escape_prefix_free as Hall. rewrite forallb_forall in Hall.
  specialize (Hall c). rewrite <- list_elem_of_In in Hall. specialize (Hall (all_ascii_elem c)).
  apply andb_true_iff in Hall as [Hq _]. apply negb_true_iff in Hq.
  destruct (starts_app _ _ _ _ H) as [Hs|Hs]; [|congruence].
  destruct (escape c) as [|x e] eqn:E; [|].
  - assert (Hlen : forallb (λ c, negb (bool_decide (escape c = ""))) all_ascii = true)
      by (vm_compute; reflexivity).
    rewrite forallb_forall in Hlen. specialize (Hlen c). rewrite <- list_elem_of_In in Hlen.
    specialize (Hlen (all_ascii_elem c)). by rewrite E in Hlen.
  - simpl in Hs, Hq. apply andb_true_iff in Hs as [Hx%bool_decide_eq_true _]. subst x.
    rewrite bool_decide_eq_true_2 in Hq by done. by destruct e.
Qed.

Lemma quote_split a b r s : quote a +:+ r = quote b +:+ s → a = b ∧ r = s.
Proof.
  unfold quote. rewrite !sapp_assoc. intros H. apply (inj _) in H.
  revert b H. induction a as [|x a IH]; intros [|y b] H; simpl in H.
  - by apply (inj (String.append (char 34))) in H.
  - exfalso. symmetry in H. rewrite sapp_assoc in H. by apply escape_not_quote in H.
  - exfalso. rewrite sapp_assoc in H. by apply escape_not_quote in H.
  - rewrite !sapp_assoc in H. apply escape_split in H as [-> H]. by apply IH in H as [-> ->].
Qed.

(** ** Documents up to the order of members *)

Fixpoint norm (v : json) : json :=
  match v with
  | JList l => JList (map norm l)
  | JObj d => JObj (sort_keys (map (λ kv, (kv.1, norm kv.2)) d))
  | _ => v
  end.

(** Every scalar of the document satisfies [P]. *)
Fixpoint leaves (P : json → bool) (v : json) : bool :=
  match v with
  | JList l => forallb (leaves P) l
  | JObj d => forallb (λ kv, leaves P kv.2) d
  | _ => P v
  end.

(** Python can represent the number. *)
Definition represented (v : json) : bool := match v with JFloat f => is_float f | _ => true end.
(** The number has a text. *)
Definition printable (v : json) : bool :=
  match v with JFloat f => isfinite f | JInt z => int_text_ok z | _ => true end.

Lemma insert_key_perm {A} (kv : string * A) l : insert_key kv l ≡ₚ kv :: l.
Proof.
  induction l as [|kv' l IH]; simpl; [done|]. destruct (str_leb _ _); [done|].
  rewrite IH. apply Permutation_swap.
Qed.

Lemma sort_keys_perm {A} (l : list (string * A)) : sort_keys l ≡ₚ l.
Proof. induction l as [|kv l IH]; simpl; [done|]. by rewrite insert_key_perm, IH. Qed.

Lemma insert_key_map {A B} (g : A → B) kv l :
  insert_key (kv.1, g kv.2) (map (λ kv, (kv.1, g kv.2)) l)
  = map (λ kv, (kv.1, g kv.2)) (insert_key kv l).
Proof.
  induction l as [|kv' l IH]; simpl; [done|]. destruct (str_leb _ _); simpl; [done|]. by rewrite IH.
Qed.

Lemma sort_keys_map {A B} (g : A → B) l :
  sort_keys (map (λ kv, (kv.1, g kv.2)) l) = map (λ kv, (kv.1, g kv.2)) (sort_keys l).
Proof.
  induction l as [|kv l IH]; [done|].
  change (insert_key (kv.1, g kv.2) (sort_keys (map (λ kv, (kv.1, g kv.2)) l))
    = map (λ kv, (kv.1, g kv.2)) (insert_key kv (sort_keys l))).
  by rewrite <- insert_key_map, IH.
Qed.

Lemma forallb_perm {A} (P : A → bool) l l' : l ≡ₚ l' → forallb P l = forallb P l'.
Proof. induction 1; simpl; try congruence. by rewrite !andb_assoc, (andb_comm (P y)). Qed.

Lemma forallb_map {A B} (P : B → bool) (g : A → B) l : forallb P (map g l) = forallb (P ∘ g) l.
Proof. induction l as [|x l IH]; simpl; [done|]. by rewrite IH. Qed.

Lemma forallb_Forall_ext {A} (P Q : A → bool) l : Forall (λ x, P x = Q x) l → forallb P l = forallb Q l.
Proof. induction 1 as [|x l E _ IH]; simpl; congruence. Qed.

Lemma norm_leaves P v : leaves P (norm v) = leaves P v.
Proof.
  induction v as [| | | | |l IH|d IH] using json_ind'; simpl; try done.
  - rewrite forallb_map. by apply forallb_Forall_ext.
  - rewrite (forallb_perm _ _ _ (sort_keys_perm _)), forallb_map. by apply forallb_Forall_ext.
Qed.

Lemma leaves_and P Q v : leaves (λ f, P f && Q f) v = leaves P v && leaves Q v.
Proof.
  assert (Hl : ∀ {A} (p q : A → bool) l, forallb (λ x, p x && q x) l = forallb p l && forallb q l).
  { intros A p q l. induction l as [|x l IH]; simpl; [done|]. rewrite IH.
    by destruct (p x), (q x), (forallb p l). }
  induction v as [| | | | |l IH|d IH] using json_ind'; simpl; try done;
    rewrite <- Hl; by apply forallb_Forall_ext.
Qed.

(** ** The text of a normal document *)

Section emit.
Context (float_repr : float → string).

Fixpoint emit (v : json) : string :=
  match v with
  | JNull => "null"
  | JBool b => if b then "true" else "false"
  | JInt z => pretty z
  | JFloat f => float_repr f
  | JStr s => quote s
  | JList l => "[" +:+ String.concat "," (map emit l) +:+ "]"
  | JObj d => "{" +:+ String.concat "," (map (λ kv, quote kv.1 +:+ ":" +:+ emit kv.2) d) +:+ "}"
  end.

(** [dumps] succeeds exactly on finite documents, with the text of the sorted one. *)
Lemma dumps_emit v : match dumps float_repr true v with
  | Ok t => leaves printable v = true ∧ t = emit (norm v)
  | Err _ => leaves printable v = false
  end.
Proof.
  induction v as [| | | | |l IH|d IH] using json_ind'; simpl; try done.
  - by destruct (int_text_ok z).
  - by destruct (isfinite f).
  - assert (H : match dump_items (dumps float_repr true) l with
      | Ok ts => forallb (leaves printable) l = true ∧ ts = map emit (map norm l)
      | Err _ => forallb (leaves printable) l = false end).
    { induction IH as [|x l Hx _ IHl]; simpl; [done|].
      destruct (dumps float_repr true x); simpl; [|by rewrite Hx].
      destruct Hx as [Hx ->]. destruct (dump_items _ l); simpl; [|by rewrite IHl, andb_false_r].
      destruct IHl as [Hl ->]. by rewrite Hx, Hl. }
    destruct (dump_items _ l); simpl; [|done]. by destruct H as [? ->].
  - assert (H : match dump_members (dumps float_repr true) d with
      | Ok ts => forallb (λ kv, leaves printable kv.2) d = true ∧ ts = map (λ kv, (kv.1, emit (norm kv.2))) d
      | Err _ => forallb (λ kv, leaves printable kv.2) d = false end).
    { induction IH as [|x d Hx _ IHd]; simpl; [done|].
      destruct (dumps float_repr true x.2); simpl; [|by rewrite Hx].
      destruct Hx as [Hx ->]. destruct (dump_members _ d); simpl; [|by rewrite IHd, andb_false_r].
      destruct IHd as [Hd ->]. by rewrite Hx, Hd. }
    destruct (dump_members _ d); simpl; [|done]. destruct H as [? ->]. split; [done|].
    rewrite (sort_keys_map norm d), (sort_keys_map (λ v, emit (norm v)) d).
    change (@fmap list _ ?A ?B ?f ?l) with (map f l). rewrite !map_map. reflexivity.
Qed.

(** ** Reading the text back *)

Context `{!FloatText float_repr}.
Definition good (v : json) : bool := leaves (λ v, represented v && printable v) v.

(** The class of a text's first character: all numbers are one class. *)
Definition head_class (s : string) : nat :=
  match s with
  | EmptyString => 1
  | String c _ => if num_char c then 0 else Ascii.nat_of_ascii c
  end.
Definition kind (v : json) : nat :=
  match v with
  | JNull => 110 | JBool b => if b then 116 else 102 | JInt _ | JFloat _ => 0
  | JStr _ => 34 | JList _ => 91 | JObj _ => 123
  end.

Lemma head_num s r : all_num s = true → s ≠ "" → head_class (s +:+ r) = 0.
Proof. destruct s as [|c s]; simpl; [done|]. intros [-> _]%andb_true_iff _. done. Qed.

Lemma repr_num f : isfinite f = true → all_num (float_repr f) = true.
Proof. intros Hf. by destruct (repr_number f Hf). Qed.

Lemma emit_head v r : good v = true → head_class (emit v +:+ r) = kind v.
Proof.
  destruct v as [|[]|z|f|s|l|d]; intros Hg; try reflexivity.
  - apply head_num; [apply pretty_Z_num|apply pretty_Z_nonempty].
  - unfold good in Hg. simpl in Hg. apply andb_true_iff in Hg as [_ Hf].
    destruct (repr_number f Hf). by apply head_num.
Qed.

(** The rest of a list of items: separators, the items and the closing character. *)
Fixpoint more {A} (f : A → string) (close : Ascii.ascii) (l : list A) (r : string) : string :=
  match l with [] => String close r | x :: l => String ","%char (f x +:+ more f close l r) end.
Definition items {A} (f : A → string) close (l : list A) (r : string) : string :=
  match l with [] => String close r | x :: l => f x +:+ more f close l r end.

Lemma concat_items {A} (f : A → string) close l r :
  (String.concat "," (map f l) +:+ String close "") +:+ r = items f close l r.
Proof.
  destruct l as [|x l]; [done|]. simpl. revert x.
  induction l as [|y l IH]; intros x; simpl; rewrite sapp_assoc; [done|].
  rewrite sapp_assoc. f_equal. change ("," +:+ ?s) with (String ","%char s). rewrite scons. f_equal.
  rewrite <- IH. by rewrite sapp_assoc.
Qed.

(** [x] can be read off the front of any delimited text. *)
Definition readable {A} (P : A → bool) (f : A → string) (x : A) : Prop :=
  P x = true → ∀ y r1 r2, P y = true → delimited r1 → delimited r2 →
    f x +:+ r1 = f y +:+ r2 → x = y ∧ r1 = r2.

Lemma more_delimited {A} (f : A → string) close l r :
  num_char close = false → delimited (more f close l r).
Proof. by destruct l. Qed.

Lemma more_inj {A} P (f : A → string) close l l' r1 r2 :
  num_char close = false → close ≠ ","%char → Forall (readable P f) l →
  forallb P l = true → forallb P l' = true →
  more f close l r1 = more f close l' r2 → l = l' ∧ r1 = r2.
Proof.
  intros Hc Hcomma Hl. revert l'.
  induction Hl as [|x l Hx _ IH]; intros [|y l'] HP HP' H; simpl in H.
  - by injection H as ->.
  - injection H as E _. congruence.
  - injection H as E _. congruence.
  - injection H as H. simpl in HP, HP'.
    apply andb_true_iff in HP as [HPx HP], HP' as [HPy HP'].
    apply Hx in H as [-> H]; try done; try by apply more_delimited.
    by apply IH in H as [-> ->].
Qed.

Lemma items_inj {A} P (f : A → string) close l l' r1 r2 :
  num_char close = false → close ≠ ","%char → Forall (readable P f) l →
  (∀ x r, P x = true → head_class (f x +:+ r) ≠ Ascii.nat_of_ascii close) →
  forallb P l = true → forallb P l' = true →
  items f close l r1 = items f close l' r2 → l = l' ∧ r1 = r2.
Proof.
  intros Hc Hcomma Hl Hhead HP HP' H.
  assert (Hno : ∀ x r s, P x = true → String close s ≠ f x +:+ r).
  { intros x r s Hx E. apply (Hhead x r Hx). rewrite <- E. simpl. by rewrite Hc. }
  destruct l as [|x l], l' as [|y l']; simpl in H, HP, HP'.
  - by injection H as ->.
  - apply andb_true_iff in HP' as [HPy _]. by apply Hno in H.
  - apply andb_true_iff in HP as [HPx _]. symmetry in H. by apply Hno in H.
  - apply andb_true_iff in HP as [HPx HP], HP' as [HPy HP'].
    apply Forall_cons in Hl as [Hx Hl].
    apply Hx in H as [-> H]; try done; try by apply more_delimited.
    by apply (more_inj P) in H as [-> ->].
Qed.

Lemma emit_readable v : readable good emit v.
Proof.
  induction v as [|b|z|f|s|l IH|d IH] using json_ind'; intros Hv w r1 r2 Hw Hd1 Hd2 H;
    pose proof (f_equal head_class H) as Hk; rewrite !emit_head in Hk by done;
    destruct w as [|b'|z'|f'|s'|l'|d']; try (simpl in Hk; by repeat case_match).
  - split; [done|]. by apply (inj (String.append "null")) in H.
  - assert (b = b') as <- by (by destruct b, b'). split; [done|].
    by apply (inj (String.append (if b then "true" else "false"))) in H.
  - apply (all_split num_char) in H as [E ->]; try done; try apply pretty_Z_num.
    simpl in E. by apply (inj (pretty : Z → string)) in E as ->.
  - exfalso. unfold good in Hw. simpl in Hw. apply andb_true_iff in Hw as [_ Hw].
    apply (all_split num_char) in H as [E _]; try done; [|apply pretty_Z_num|by apply repr_num].
    by apply (repr_not_int f' z Hw).
  - exfalso. unfold good in Hv. simpl in Hv. apply andb_true_iff in Hv as [_ Hv].
    apply (all_split num_char) in H as [E _]; try done; [|by apply repr_num|apply pretty_Z_num].
    by apply (repr_not_int f z' Hv).
  - unfold good in Hv, Hw. simpl in Hv, Hw. apply andb_true_iff in Hv as [Hv Hv'], Hw as [Hw Hw'].
    apply (all_split num_char) in H as [E ->]; try done; try by apply repr_num.
    by rewrite (repr_inj f f' Hv Hw Hv' Hw' E).
  - by apply quote_split in H as [-> ->].
  - change (String "["%char ((String.concat "," (map emit l) +:+ "]") +:+ r1) =
            String "["%char ((String.concat "," (map emit l') +:+ "]") +:+ r2)) in H.
    rewrite !concat_items in H. injection H as H.
    apply (items_inj good) in H as [-> ->]; try done.
    intros x r Hx. rewrite emit_head by done. destruct x as [|[]| | | | |]; simpl; by vm_compute.
  - set (f := λ kv : string * json, quote kv.1 +:+ ":" +:+ emit kv.2).
    change (String "{"%char ((String.concat "," (map f d) +:+ "}") +:+ r1) =
            String "{"%char ((String.concat "," (map f d') +:+ "}") +:+ r2)) in H.
    rewrite !concat_items in H. injection H as H.
    apply (items_inj (λ kv, good kv.2) f) in H as [-> ->]; try done.
    eapply Forall_impl; [exact IH|]. intros [k v] Hrd Hg [k' v'] s1 s2 Hg' Hs1 Hs2 E.
    unfold f in E. simpl in *. rewrite !sapp_assoc in E. apply quote_split in E as [-> E].
    apply (inj (String.append ":")) in E. by apply Hrd in E as [-> ->].
Qed.


Lemma emit_inj v w : good v = true → good w = true → emit v = emit w → v = w.
Proof.
  intros Hv Hw E. apply (emit_readable v Hv w "" "" Hw I I). by rewrite E.
Qed.

(** C34. The canonical text determines the document: for documents made of numbers Python can
    represent, the text exists exactly when every float is finite and every integer has at most 4300
    digits, and another such
    document has the same text exactly when the two are equal up to the order of
    object members, at every depth. *)
Theorem canonical_text_determines_document v w t :
  leaves represented v = true → leaves represented w = true →
  (is_Some (match dumps float_repr true v with Ok s => Some s | Err _ => None end)
     ↔ leaves printable v = true) ∧
  (dumps float_repr true v = Ok t → dumps float_repr true w = Ok t ↔ norm v = norm w).
Proof.
  intros Hv Hw. pose proof (dumps_emit v) as Dv. pose proof (dumps_emit w) as Dw. split.
  { destruct (dumps float_repr true v); split; [by destruct Dv|eauto|by intros [? ?]|congruence]. }
  intros Ev. rewrite Ev in Dv. destruct Dv as [Fv ->]. split.
  - intros Ew. rewrite Ew in Dw. destruct Dw as [Fw E]. apply emit_inj; [..|done];
      unfold good; rewrite norm_leaves, leaves_and; by apply andb_true_iff.
  - intros E. destruct (dumps float_repr true w).
    + destruct Dw as [_ ->]. by rewrite E.
    + rewrite <- norm_leaves, <- E, norm_leaves in Dw. congruence.
Qed.
End emit.

(** ** A float text *)

(** Sign, digits, an [e] and the exponent: [+5e-1]. *)
Definition sample_repr (f : float) : string :=
  let text (s : bool) (m e : Z) := (if s then "-" else "+") +:+ pretty m +:+ "e" +:+ pretty e in
  match f with
  | SpecFloat.S754_zero s => text s 0%Z 0%Z
  | SpecFloat.S754_finite s m e => text s (Zpos m) e
  | _ => "nan"
  end.

#[global] Instance sample_repr_text : FloatText sample_repr.
Proof.
  assert (Hnum : ∀ a b, all_num a = true → all_num b = true → all_num (a +:+ b) = true).
  { intros a b Ha Hb. induction a as [|c a IH]; [done|]. simpl in Ha |- *.
    apply andb_true_iff in Ha as [-> Ha]. by apply IH. }
  assert (Hsplit : ∀ (s s' : bool) (m m' e e' : Z),
    (if s then "-" else "+") +:+ pretty m +:+ "e" +:+ pretty e
    = (if s' then "-" else "+") +:+ pretty m' +:+ "e" +:+ pretty e' → s = s' ∧ m = m' ∧ e = e').
  { intros s s' m m' e e' H. assert (Hs : s = s') by (by destruct s, s'). subst s'.
    apply (inj (String.append _)) in H.
    apply (all_split int_char) in H as [Hm He]; try apply pretty_Z_int; try done.
    apply (inj (String.append "e")) in He. by apply (inj (pretty : Z → string)) in Hm, He. }
  assert (Hint : ∀ (s : bool) (m e z : Z),
    (if s then "-" else "+") +:+ pretty m +:+ "e" +:+ pretty e ≠ pretty z).
  { intros s m e z H. pose proof (f_equal (all_chars int_char) H) as Ha. rewrite pretty_Z_int in Ha.
    assert (Hall : ∀ a b, all_chars int_char (a +:+ String "e" b) = false).
    { intros a b. induction a as [|c a IH]; [done|]. simpl. rewrite IH. apply andb_false_r. }
    change ("e" +:+ pretty e) with (String "e" (pretty e)) in Ha. rewrite <- sapp_assoc in Ha.
    by rewrite Hall in Ha. }
  split.
  - intros [s|s| |s m e] Hf; try done; split; try (by destruct s);
      unfold sample_repr; repeat apply Hnum; try apply pretty_Z_num; by destruct s.
  - intros [s|s| |s m e] [s'|s'| |s' m' e'] _ _ Hf Hg H; try done;
      apply Hsplit in H as (-> & Hm & He); by simplify_eq.
  - intros [s|s| |s m e] z Hf; try done; apply Hint.
Qed.

Lemma canonical_text_determines_document_witness :
  let v := JObj [("b", JList [JFloat (flit 1); JNull]); ("a", JInt 3)] in
  let w := JObj [("a", JInt 3); ("b", JList [JFloat (flit 1); JNull])] in
  ∃ t, dumps sample_repr true v = Ok t ∧ (dumps sample_repr true w = Ok t ↔ norm v = norm w).
Proof.
  intros v w. eexists. split; [reflexivity|].
  eapply (canonical_text_determines_document sample_repr v w); reflexivity.
Defined.
