(* ===== verification/Session.v ===== *)
(** * Logical sessions ([remote/session.py])

    [LogicalSessionRegistry]: sessions with an absolute expiry, the generation that may
    publish for each and the generations that never may again.  A clock reading and the
    constructor's arguments are values of any type ([json]), as the code checks them; the
    ids the factory would produce are the argument [draw], one per attempt. *)

From S2P Require Import Prelude PyFloat Identity PyJson Wire Caches.

Definition DEFAULT_SESSION_TTL_SECONDS : float := flit 600.
Definition DEFAULT_MAX_SESSIONS : Z := 1024.
Definition DEFAULT_MAX_GENERATIONS_PER_SESSION : Z := 64.

Module LogicalSession.
Record t := mk {
  owner : string;
  active_generation : option string;
  expires_at : float;
  retired : gset (option string) }.
End LogicalSession.
Import LogicalSession(owner, active_generation, expires_at, retired).

Definition _finite_positive (v : json) (name : string) : result float :=
  raise_if (negb (is_number v)) TypeError (name +:+ " must be a finite positive number");;
  x ← to_float v;
  raise_if (negb (isfinite x) || fleb x (flit 0)) ValueError
    (name +:+ " must be a finite positive number");;
  Ok x.

Definition _positive_int (v : json) (name : string) : result Z :=
  z ← of_option (is_int v) TypeError (name +:+ " must be a positive integer");
  raise_if (z <? 1)%Z ValueError (name +:+ " must be a positive integer");;
  Ok z.

Definition _valid_token (v : json) : bool :=
  match v with
  | JStr s => (1 <=? py_len s)%Z && (py_len s <=? MAX_IDENTIFIER_LENGTH)%Z
  | _ => false
  end.

Module LogicalSessionRegistry.
Record t := mk {
  _ttl : float;
  _max_sessions : Z;
  _max_generations : Z;
  _sessions : gmap string LogicalSession.t;
  _expirations : list (float * string) }.

Definition __init__ (ttl_seconds max_sessions max_generations_per_session : json) : result t :=
  ttl ← _finite_positive ttl_seconds "session ttl";
  sessions ← _positive_int max_sessions "max sessions";
  generations ← _positive_int max_generations_per_session "max generations per session";
  Ok (mk ttl sessions generations ∅ []).

Definition set_sessions (s : t) (m : gmap string LogicalSession.t) : t :=
  mk (_ttl s) (_max_sessions s) (_max_generations s) m (_expirations s).

(** [self._sessions.pop(session_id, None)] *)
Definition pop (session_id : string) (s : t) : t := set_sessions s (delete session_id (_sessions s)).

Definition _validated_clock (reading : json) : result float :=
  raise_if (negb (is_number reading)) RemoteAuthError "logical session clock is invalid";;
  x ← to_float reading;
  raise_if (negb (isfinite x)) RemoteAuthError "logical session clock is invalid";;
  Ok x.

Definition _validate_generation (generation : option string) : result (option string) :=
  match generation with
  | None => Ok None
  | Some g => raise_if (negb (_valid_token (JStr g))) RemoteAuthError "connection generation is invalid";;
              Ok (Some g)
  end.

Fixpoint prune_loop (now : float) (heap : list (float * string))
    (sessions : gmap string LogicalSession.t) :=
  match heap with
  | [] => ([], sessions)
  | (at_, session_id) :: heap' =>
      if fleb at_ now
      then prune_loop now heap'
             match sessions !! session_id with
             | Some x => if feqb (expires_at x) at_ then delete session_id sessions else sessions
             | None => sessions
             end
      else (heap, sessions)
  end.

Definition _prune_locked (now : float) (s : t) : t :=
  let '(heap, sessions) := prune_loop now (_expirations s) (_sessions s) in
  mk (_ttl s) (_max_sessions s) (_max_generations s) sessions heap.

(** The attempts left, from the [i]th draw on. *)
Fixpoint allocate (s : t) (draw : nat → json) (i attempts : nat) : result string :=
  match attempts with
  | O => raise RemoteAuthError "could not allocate a logical session"
  | S attempts =>
      match draw i with
      | JStr candidate =>
          raise_if (negb (_valid_token (JStr candidate))) RemoteAuthError "logical session id is invalid";;
          match _sessions s !! candidate with
          | None => Ok candidate
          | Some _ => allocate s draw (S i) attempts
          end
      | _ => raise RemoteAuthError "logical session id is invalid"
      end
  end.

Definition _allocate_id_locked (s : t) (draw : nat → json) : result string := allocate s draw 0 100.

Definition _create (owner : string) (generation : option string) (now : float) (draw : nat → json)
    : M t string := λ s,
  let s := _prune_locked now s in
  if (_max_sessions s <=? Z.of_nat (size (_sessions s)))%Z
  then (s, raise RemoteAuthError "logical session limit reached")
  else match _allocate_id_locked s draw with
       | Err e => (s, Err e)
       | Ok session_id =>
           let session := LogicalSession.mk owner generation (fadd now (_ttl s)) ∅ in
           let sessions := <[session_id := session]> (_sessions s) in
           let heap := heappush str_leb (expires_at session, session_id) (_expirations s) in
           let heap := if (2 * _max_sessions s <? Z.of_nat (length heap))%Z
                       then heapify str_leb ((λ kx, (expires_at kx.2, kx.1)) <$> map_to_list sessions)
                       else heap in
           (mk (_ttl s) (_max_sessions s) (_max_generations s) sessions heap, Ok session_id)
       end.

(** The session of an id, unless it is unknown or expired: then it is dropped. *)
Definition live (session_id : string) (now : float) : M t LogicalSession.t := λ s,
  match _sessions s !! session_id with
  | Some x => if fleb (expires_at x) now
              then (pop session_id s, raise RemoteAuthError "logical session is expired")
              else (s, Ok x)
  | None => (pop session_id s, raise RemoteAuthError "logical session is expired")
  end.

(** The owner a request authenticates. *)
Definition request_owner (request : RemoteRequest.t) : string :=
  match RemoteRequest.caller_node_id request with
  | Some caller => value caller
  | None => value (RemoteRequest.node_id request)
  end.

(** The active generation is retired and replaced; at the limit the session is dropped. *)
Definition supersede (session_id : string) (generation : option string) (x : LogicalSession.t)
    : M t string := λ s,
  if (_max_generations s <=? Z.of_nat (size (retired x)))%Z
  then (pop session_id s, raise RemoteAuthError "logical session retired-generation limit exceeded")
  else (set_sessions s (<[session_id :=
          LogicalSession.mk (owner x) generation (expires_at x)
            ({[active_generation x]} ∪ retired x)]> (_sessions s)), Ok session_id).

Definition authenticate (request : RemoteRequest.t) (connection_generation : option string)
    (clock : json) (draw : nat → json) : M t string :=
  generation ← lift (_validate_generation connection_generation);
  let owner' := request_owner request in
  now ← lift (_validated_clock clock);
  match RemoteRequest.session_id request with
  | None => _create owner' generation now draw
  | Some session_id =>
      throw_if (negb (_valid_token (JStr session_id))) RemoteAuthError "logical session id is invalid";;
      x ← live session_id now;
      throw_if (negb (bool_decide (owner x = owner'))) RemoteAuthError
        "logical session belongs to another identity";;
      throw_if (bool_decide (generation ∈ retired x)) RemoteAuthError "connection generation is retired";;
      if decide (generation = active_generation x) then mret session_id
      else
        throw_if (negb (RemoteRequest.resume request)) RemoteAuthError "connection generation is stale";;
        supersede session_id generation x
  end.

Definition assert_current (session_id : string) (generation : option string) (clock : json) : M t () :=
  token ← lift (_validate_generation generation);
  throw_if (negb (_valid_token (JStr session_id))) RemoteAuthError "logical session id is invalid";;
  now ← lift (_validated_clock clock);
  x ← live session_id now;
  throw_if (negb (bool_decide (active_generation x = token))) RemoteAuthError
    "connection generation is stale".
End LogicalSessionRegistry.
