(* ===== verification/SessionSpec.v ===== *)
(** * Logical sessions: no reuse of a retired generation, absolute expiry, bounds *)

From S2P Require Import Prelude PyFloat Identity ClusterModels Roles RolesFacts PyJson Wire Caches Session.
From Stdlib Require Import Sorted.
Import LogicalSessionRegistry LogicalSession(owner, active_generation, expires_at, retired).

(** ** The heap of expirations *)

(** In the order of their times. *)
Definition in_order {K} : list (float * K) → Prop := StronglySorted (λ a b, fltb b.1 a.1 = false).
Definition timed {K} (h : list (float * K)) : Prop := Forall (λ a, is_nan a.1 = false) h.

Lemma heappush_in_order {K} (leb : K → K → bool) x h :
  is_nan x.1 = false → timed h → in_order h → in_order (heappush leb x h).
Proof.
  intros Hx Ht Hs. induction Hs as [|y h Hs IH Hy]; simpl.
  { repeat constructor. }
  apply Forall_cons in Ht as [Hny Ht]. unfold entry_leb.
  destruct (feqb x.1 y.1) eqn:He; [destruct (leb x.2 y.2)|destruct (fltb x.1 y.1) eqn:Hl].
  1,3: constructor; [by constructor|]; apply Forall_cons_2; [float_order|];
    apply Forall_forall; intros z Hz; unfold timed in Ht; rewrite Forall_forall in Ht, Hy;
    specialize (Ht z Hz); specialize (Hy z Hz); float_order.
  all: constructor; [by apply IH|]; rewrite heappush_perm; apply Forall_cons_2; [simpl; float_order|done].
Qed.

Lemma timed_perm {K} (h h' : list (float * K)) : h ≡ₚ h' → timed h → timed h'.
Proof. intros Hp Ht. unfold timed. by rewrite <- Hp. Qed.

Lemma heapify_in_order {K} (leb : K → K → bool) l : timed l → in_order (heapify leb l).
Proof.
  induction l as [|x l IH]; intros Ht; [constructor|]. apply Forall_cons in Ht as [Hx Ht].
  apply heappush_in_order; [done| |by apply IH]. eapply timed_perm; [symmetry; apply heapify_perm|done].
Qed.

(** Pruning removes the expired sessions and no other. *)
Lemma prune_loop_exact now h m : in_order h → timed h → is_nan now = false →
  (∀ i x, m !! i = Some x → (expires_at x, i) ∈ h) →
  let '(h', m') := prune_loop now h m in
  (∃ k, h = k ++ h') ∧ (∀ i x, m' !! i = Some x → (expires_at x, i) ∈ h') ∧
  ∀ i x, m' !! i = Some x ↔ m !! i = Some x ∧ fleb (expires_at x) now = false.
Proof.
  intros Hs. revert m. induction Hs as [|[at_ j] h Hs IH Hh]; intros m Ht Hn Hm; simpl.
  { split_and!; [by exists []|done|]. intros i x. split; [|tauto]. intros Hi.
    by apply Hm, not_elem_of_nil in Hi. }
  apply Forall_cons in Ht as [Hat Ht]. simpl in Hat.
  destruct (fleb at_ now) eqn:Hexp.
  - set (m1 := match m !! j with Some x => _ | None => m end).
    assert (Hm1 : ∀ i x, m1 !! i = Some x ↔
      m !! i = Some x ∧ ¬ (i = j ∧ feqb (expires_at x) at_ = true)).
    { intros i x. unfold m1. destruct (m !! j) as [y|] eqn:Hj; [|naive_solver].
      destruct (feqb (expires_at y) at_) eqn:He; [|naive_solver congruence].
      rewrite lookup_delete_Some. naive_solver congruence. }
    specialize (IH m1 Ht Hn). destruct (prune_loop now h m1) as [h' m'].
    destruct IH as ([k ->] & Hin & Hkeep).
    { intros i x [Hi Hne]%Hm1. apply Hm in Hi as Hin. apply elem_of_cons in Hin as [E|Hin]; [|done].
      exfalso. apply Hne. injection E as <- ->. split; [done|]. float_order. }
    split_and!; [by exists ((at_, j) :: k)|done|]. intros i x. rewrite Hkeep, Hm1. split; [tauto|].
    intros [Hi Hl]. split; [|done]. split; [done|]. intros [_ He]. float_order.
  - split_and!; [by exists []|done|]. intros i x. split; [|tauto]. intros Hi. split; [done|].
    apply Hm in Hi. apply elem_of_cons in Hi as [E|Hi]; [by injection E as -> _|].
    rewrite Forall_forall in Hh, Ht. specialize (Hh _ Hi). specialize (Ht _ Hi). simpl in *. float_order.
Qed.

(** ** The invariant *)

Record session_inv (s : t) : Prop := {
  inv_ttl : isfinite (_ttl s) = true ∧ fltb (flit 0) (_ttl s) = true;
  inv_limits : (1 ≤ _max_sessions s ∧ 1 ≤ _max_generations s)%Z;
  inv_listed : ∀ i x, _sessions s !! i = Some x → (expires_at x, i) ∈ _expirations s;
  inv_order : in_order (_expirations s);
  inv_timed : timed (_expirations s);
  inv_size : (Z.of_nat (size (_sessions s)) ≤ _max_sessions s)%Z;
  inv_heap : (Z.of_nat (length (_expirations s)) ≤ 2 * _max_sessions s)%Z;
  inv_retired : ∀ i x, _sessions s !! i = Some x →
    (Z.of_nat (size (retired x)) ≤ _max_generations s)%Z ∧ active_generation x ∉ retired x }.

(** [s'] has the configuration of [s]. *)
Definition same_limits (s s' : t) : Prop :=
  _ttl s' = _ttl s ∧ _max_sessions s' = _max_sessions s ∧ _max_generations s' = _max_generations s.

Lemma registry_init_inv a b c s : __init__ a b c = Ok s → session_inv s.
Proof.
  unfold __init__, _finite_positive, _positive_int. intros H. repeat res_step. subst. to_prop.
  split; simpl; try done.
  - split; [done|]. apply fleb_false_fltb; [by apply isfinite_not_nan|done|done].
  - lia.
  - constructor.
  - constructor.
  - rewrite map_size_empty. lia.
  - lia.
Qed.

(** Dropping sessions keeps everything. *)
Lemma sub_inv s m : session_inv s → m ⊆ _sessions s → session_inv (set_sessions s m).
Proof.
  intros [Ht Hl Hi Ho Htm Hs Hh Hr] Hsub. split; simpl; try done.
  - intros i x Hx. by apply Hi, (lookup_weaken _ _ _ _ Hx).
  - apply map_subseteq_size in Hsub. lia.
  - intros i x Hx. by apply (Hr i), (lookup_weaken _ _ _ _ Hx).
Qed.

Lemma pop_inv i s : session_inv s → session_inv (pop i s).
Proof. intros. apply sub_inv; [done|]. apply delete_subseteq. Qed.

Lemma prune_exact now s : session_inv s → is_nan now = false →
  session_inv (_prune_locked now s) ∧ same_limits s (_prune_locked now s) ∧
  ∀ i x, _sessions (_prune_locked now s) !! i = Some x ↔
    _sessions s !! i = Some x ∧ fleb (expires_at x) now = false.
Proof.
  intros [Ht Hl Hi Ho Htm Hs Hh Hr] Hn. unfold _prune_locked.
  pose proof (prune_loop_exact now _ _ Ho Htm Hn Hi) as Hp.
  destruct (prune_loop now _ _) as [h' m']. destruct Hp as ([k E] & Hin & Hk).
  assert (Hsub : m' ⊆ _sessions s) by (apply map_subseteq_spec; intros i x Hx; apply Hk in Hx; tauto).
  split; [|by split_and!]. rewrite E in Ho, Htm, Hh. split; simpl; try done.
  - clear - Ho. induction k as [|a k IH]; [done|]. apply IH. by inversion Ho.
  - by apply Forall_app in Htm as [_ ?].
  - apply map_subseteq_size in Hsub. lia.
  - rewrite length_app in Hh. lia.
  - intros i x Hx. apply Hk in Hx as [Hx _]. by apply (Hr i).
Qed.

Lemma allocate_fresh s draw i n id : allocate s draw i n = Ok id →
  _sessions s !! id = None ∧ _valid_token (JStr id) = true ∧ ∃ j, draw j = JStr id.
Proof.
  revert i. induction n as [|n IH]; intros i H; simpl in H; [done|].
  destruct (draw i) as [| | | |c| |] eqn:E; try done. repeat res_step. to_prop.
  destruct (_sessions s !! c) eqn:Hc; [by eapply IH|]. injection H as <-.
  split_and!; [done|by apply andb_true_iff|by exists i].
Qed.


(** ** Creating a session *)

(** A session that has not expired at [now]. *)
Definition alive (now : float) (s : t) (id : string) (x : LogicalSession.t) : Prop :=
  _sessions s !! id = Some x ∧ fleb (expires_at x) now = false.

Lemma create_run owner' gen now draw s : session_inv s → isfinite now = true →
  let '(s', r) := _create owner' gen now draw s in
  session_inv s' ∧ same_limits s s' ∧
  match r with
  | Ok id => _valid_token (JStr id) = true ∧ (∃ j, draw j = JStr id) ∧
      (∀ x, ¬ alive now s id x) ∧ (Z.of_nat (size (_sessions s')) ≤ _max_sessions s)%Z ∧
      _sessions s' !! id = Some (LogicalSession.mk owner' gen (fadd now (_ttl s)) ∅) ∧
      ∀ i x, i ≠ id → _sessions s' !! i = Some x ↔ alive now s i x
  | Err e => (∀ i x, _sessions s' !! i = Some x ↔ alive now s i x) ∧
      (size (_sessions s') = Z.to_nat (_max_sessions s) ∨
       Z.of_nat (size (_sessions s')) < _max_sessions s ∧ _allocate_id_locked s' draw = Err e)%Z
  end.
Proof.
  intros Hi Hn. unfold _create.
  destruct (prune_exact now s Hi (isfinite_not_nan _ Hn)) as (Hi1 & (Ht & Hm & Hg) & Hk).
  set (s1 := _prune_locked now s) in *. clearbody s1.
  destruct (_ <=? _)%Z eqn:Hfull.
  { unfold raise. split_and!; try done; try exact Hk. left. destruct Hi1 as [_ _ _ _ _ Hs _ _]. lia. }
  destruct (_allocate_id_locked s1 draw) as [id|e] eqn:Ha; [|split_and!; try done; try exact Hk; right; split; [lia|done]].
  apply allocate_fresh in Ha as (Hfresh & Hv & Hd).
  destruct Hi1 as [[Htf Htp] Hl Hin Ho Htm Hs Hh Hr].
  set (x := LogicalSession.mk owner' gen (fadd now (_ttl s1)) ∅).
  set (heap := heappush str_leb (expires_at x, id) (_expirations s1)).
  assert (Hxn : is_nan (expires_at x) = false) by (by apply fadd_number).
  assert (Htimed : timed heap).
  { eapply timed_perm; [symmetry; apply heappush_perm|]. by constructor. }
  assert (Hlist : ∀ i y, <[id := x]> (_sessions s1) !! i = Some y → (expires_at y, i) ∈ heap).
  { intros i y Hy. unfold heap. rewrite heappush_perm. apply elem_of_cons.
    apply lookup_insert_Some in Hy as [[-> ->]|[_ Hy]]; [by left|right; by apply Hin]. }
  set (live := (λ kx : string * LogicalSession.t, (expires_at kx.2, kx.1)) <$>
                 map_to_list (<[id := x]> (_sessions s1))).
  assert (Hlive : ∀ i y, <[id := x]> (_sessions s1) !! i = Some y → (expires_at y, i) ∈ live).
  { intros i y Hy. apply list_elem_of_fmap. exists (i, y). split; [done|]. by apply elem_of_map_to_list. }
  assert (Hsize : size (<[id := x]> (_sessions s1)) = S (size (_sessions s1)))
    by (by apply map_size_insert_None).
  assert (Hlive_timed : timed live).
  { apply Forall_forall. intros [t i] Hti. apply list_elem_of_fmap in Hti as ([j y] & E & Hj).
    injection E as -> ->. apply elem_of_map_to_list in Hj. apply Hlist in Hj.
    unfold timed in Htimed. rewrite Forall_forall in Htimed. by apply (Htimed _ Hj). }
  split_and!; try done.
  - split; simpl; try done.
    + intros i y Hy. destruct (_ <? _)%Z; [|by apply Hlist]. rewrite heapify_perm. by apply Hlive.
    + destruct (_ <? _)%Z; [by apply heapify_in_order|by apply heappush_in_order].
    + destruct (_ <? _)%Z; [|done]. eapply timed_perm; [symmetry; apply heapify_perm|done].
    + rewrite Hsize. lia.
    + destruct (2 * _ <? _)%Z eqn:Hbig; [|lia]. rewrite (Permutation_length (heapify_perm _ _)).
      unfold live. rewrite length_fmap, length_map_to_list, Hsize. lia.
    + intros i y [[-> <-]|[_ Hy]]%lookup_insert_Some; [|by apply (Hr i)].
      unfold x. cbn [retired active_generation]. rewrite size_empty. split; [lia|set_solver].
  - intros y Hy. apply Hk in Hy. congruence.
  - simpl. rewrite Hsize. lia.
  - simpl. rewrite <- Ht. apply lookup_insert_eq.
  - simpl. intros i y Hne. rewrite lookup_insert_ne by done. apply Hk.
Qed.

(** ** Using a session *)

Lemma live_run id now s :
  (∃ x, alive now s id x ∧ live id now s = (s, Ok x)) ∨
  ((∀ x, ¬ alive now s id x) ∧ ∃ e, live id now s = (pop id s, Err e)).
Proof.
  unfold live, alive. destruct (_sessions s !! id) as [x|].
  - destruct (fleb (expires_at x) now) eqn:He; [right|left; eauto].
    split; [naive_solver congruence|eauto].
  - right. split; [naive_solver|eauto].
Qed.

(** Everything that makes a request the rightful user of the session [x] of [id]. *)
Record admits (s : t) (r : RemoteRequest.t) (g : option string) (clock : json) (id : string)
    (x : LogicalSession.t) : Prop := {
  admits_generation : _validate_generation g = Ok g;
  admits_token : _valid_token (JStr id) = true;
  admits_alive : ∃ now, _validated_clock clock = Ok now ∧ alive now s id x;
  admits_owner : owner x = request_owner r;
  admits_current : g ∉ retired x;
  admits_resume : g = active_generation x ∨
    (RemoteRequest.resume r = true ∧ Z.of_nat (size (retired x)) < _max_generations s)%Z }.

(** [x] after [g] took over. *)
Definition taken_over (g : option string) (x : LogicalSession.t) : LogicalSession.t :=
  if decide (g = active_generation x) then x
  else LogicalSession.mk (owner x) g (expires_at x) ({[active_generation x]} ∪ retired x).

Lemma validate_generation_id g g' : _validate_generation g = Ok g' → g' = g.
Proof. destruct g; simpl; intros H; by repeat res_step. Qed.

Lemma set_same s id x : _sessions s !! id = Some x → set_sessions s (<[id := x]> (_sessions s)) = s.
Proof. intros Hx. unfold set_sessions. rewrite insert_id by done. by destruct s. Qed.

(** The outcomes of a call that names a session. *)
Lemma named_session_run r g clock draw s id : RemoteRequest.session_id r = Some id →
  (∃ x, admits s r g clock id x ∧
     authenticate r g clock draw s =
       (set_sessions s (<[id := taken_over g x]> (_sessions s)), Ok id)) ∨
  ((∀ x, ¬ admits s r g clock id x) ∧ ∃ s' e, authenticate r g clock draw s = (s', Err e) ∧
     (s' = s ∨ s' = pop id s ∧ ∀ x now, _validated_clock clock = Ok now → alive now s id x →
        owner x = request_owner r ∧ g ∉ retired x ∧ g ≠ active_generation x ∧
        RemoteRequest.resume r = true ∧ _max_generations s ≤ Z.of_nat (size (retired x)))%Z).
Proof.
  intros Hid. unfold authenticate, lift, throw_if, mret, M_ret. rewrite Hid, M_bind_run.
  destruct (_validate_generation g) as [g'|e] eqn:Hg; [apply validate_generation_id in Hg as E; subst g'|].
  2: { right. split; [by intros x []; congruence|]. eauto 6. }
  rewrite M_bind_run. destruct (_validated_clock clock) as [now|e] eqn:Hclock.
  2: { right. split; [intros x [_ _ (now & ? & _) _ _ _]; congruence|]. eauto 6. }
  rewrite M_bind_run. destruct (_valid_token (JStr id)) eqn:Hv; cbn [negb raise_if].
  2: { right. split; [by intros x []; congruence|]. eauto 6. }
  rewrite M_bind_run. destruct (live_run id now s) as [(x & Hx & ->)|(Hno & e & ->)].
  2: { right. split; [intros x [_ _ (now' & ? & Ha) _ _ _]; assert (now' = now) as -> by congruence; by apply (Hno x)|].
       eexists _, e. split; [done|]. right. split; [done|]. intros x now' ? Ha.
       assert (now' = now) as -> by congruence. by apply Hno in Ha. }
  assert (Honly : ∀ y, admits s r g clock id y → y = x).
  { intros y [_ _ (now' & ? & Ha) _ _ _]. assert (now' = now) as -> by congruence.
    destruct Ha, Hx. congruence. }
  assert (Hrefuse : ¬ admits s r g clock id x → ∀ y, ¬ admits s r g clock id y)
    by (intros Hn y Hy; pose proof (Honly y Hy); by subst).
  rewrite M_bind_run. case_bool_decide as Ho; cbn [negb raise_if].
  2: { right. split; [apply Hrefuse; by intros []|]. eauto 6. }
  rewrite M_bind_run. case_bool_decide as Hr; cbn [raise_if].
  { right. split; [apply Hrefuse; by intros []|]. unfold raise. eauto 6. }
  assert (Hadm : g = active_generation x ∨
      (RemoteRequest.resume r = true ∧ Z.of_nat (size (retired x)) < _max_generations s)%Z →
      admits s r g clock id x) by (intros; split; eauto).
  destruct (decide (g = active_generation x)) as [Hact|Hact].
  { left. exists x. split; [by apply Hadm; left|]. unfold taken_over. rewrite decide_True by done.
    destruct Hx as [Hx _]. by rewrite set_same. }
  rewrite M_bind_run. destruct (RemoteRequest.resume r) eqn:Hres; cbn [negb raise_if].
  2: { right. split; [apply Hrefuse; intros [_ _ _ _ _ [?|[? _]]]; congruence|]. eauto 6. }
  unfold supersede. destruct (_ <=? _)%Z eqn:Hfull.
  - right. split; [apply Hrefuse; intros [_ _ _ _ _ [?|[_ ?]]]; [congruence|lia]|].
    eexists _, _. split; [done|]. right. split; [done|]. intros y now' ? Ha. assert (now' = now) as -> by congruence.
    assert (y = x) as -> by (destruct Ha, Hx; congruence). split_and!; try done. lia.
  - left. exists x. split; [apply Hadm; right; split; [done|lia]|]. unfold taken_over.
    by rewrite decide_False by done.
Qed.

(** Using a session, on every branch: a call that names a session succeeds exactly when
    the session is known and unexpired, belongs to the authenticated identity, and the
    generation is the active one or takes over with [resume] within the limit; then only
    the active generation changes, the old one is retired and owner and expiry stay. A
    refused call leaves the registry unchanged, unless it drops that one session: because
    it expired, or because its owner exceeded the limit of retired generations. *)
Theorem resume_exact r g clock draw s id : RemoteRequest.session_id r = Some id →
  let '(s', res) := authenticate r g clock draw s in
  (res = Ok id ↔ ∃ x, admits s r g clock id x) ∧ (∀ id', res = Ok id' → id' = id) ∧
  (∀ x, admits s r g clock id x → s' = set_sessions s (<[id := taken_over g x]> (_sessions s))) ∧
  ((∀ x, ¬ admits s r g clock id x) → s' = s ∨
     s' = pop id s ∧ ∀ x now, _validated_clock clock = Ok now → alive now s id x →
       owner x = request_owner r ∧ g ∉ retired x ∧ g ≠ active_generation x ∧
       RemoteRequest.resume r = true ∧ (_max_generations s ≤ Z.of_nat (size (retired x)))%Z).
Proof.
  intros Hid. destruct (named_session_run r g clock draw s id Hid) as [(x & Hx & ->)|(Hno & s' & e & -> & Hs)].
  - split; [split; [eauto|done]|]. split; [by intros ? [=]|]. split.
    + intros y Hy. destruct Hx as [_ _ (now & ? & Hx & _) _ _ _], Hy as [_ _ (now' & ? & Hy & _) _ _ _].
      assert (y = x) as -> by congruence. done.
    + intros Hno. by destruct (Hno x).
  - split; [split; [done|intros [x Hx]; by destruct (Hno x)]|]. split; [done|]. split; [|auto].
    intros x Hx. by destruct (Hno x).
Qed.

(** ** Histories *)

Inductive session_op :=
  | OAuth (r : RemoteRequest.t) (g : option string) (clock : json) (draw : nat → json)
  | OCurrent (id : string) (g : option string) (clock : json).

Definition session_run (s : t) (o : session_op) : t :=
  match o with
  | OAuth r g clock draw => (authenticate r g clock draw s).1
  | OCurrent id g clock => (assert_current id g clock s).1
  end.
Definition session_exec (ops : list session_op) (s : t) : t := foldl session_run s ops.

(** The factory offers [id] during the call. *)
Definition offers (o : session_op) (id : string) : Prop :=
  match o with OAuth _ _ _ draw => ∃ j, draw j = JStr id | OCurrent _ _ _ => False end.

(** [x'] is [x] later: what identifies it is the same, what was active is active or retired. *)
Definition later (x x' : LogicalSession.t) : Prop :=
  owner x' = owner x ∧ expires_at x' = expires_at x ∧ retired x ⊆ retired x' ∧
  (active_generation x' = active_generation x ∨ active_generation x ∈ retired x').

Lemma later_refl x : later x x.
Proof. by split_and!; auto. Qed.

Lemma later_trans x y z : later x y → later y z → later x z.
Proof.
  intros (? & ? & ? & Hxy) (? & ? & ? & Hyz). split_and!; [congruence..|set_solver|].
  destruct Hxy as [E|Hin]; [rewrite <- E|right; set_solver].
  by destruct Hyz as [->|?]; [left|right].
Qed.

Lemma taken_over_later g x : later x (taken_over g x).
Proof.
  unfold taken_over. case_decide; [apply later_refl|]. split_and!; simpl; try done; set_solver.
Qed.

Lemma admit_inv s r g clock id x : session_inv s → admits s r g clock id x →
  session_inv (set_sessions s (<[id := taken_over g x]> (_sessions s))).
Proof.
  intros [Ht Hl Hin Ho Htm Hs Hh Hr] [_ _ (now & _ & Hx & _) _ Hg Hroom].
  destruct (Hr _ _ Hx) as [Hrx Hax]. split; simpl; try done.
  - intros i y [[-> <-]|[_ Hy]]%lookup_insert_Some; [|by apply Hin].
    destruct (taken_over_later g x) as (_ & -> & _). by apply Hin.
  - by rewrite map_size_insert_Some by (by eexists).
  - intros i y [[-> <-]|[_ Hy]]%lookup_insert_Some; [|by apply (Hr i)].
    unfold taken_over. case_decide as Hact; [done|]. destruct Hroom as [?|[_ Hroom]]; [done|]. simpl.
    rewrite size_union, size_singleton by set_solver. split; [lia|]. set_solver.
Qed.

(** One call: the invariant, the limits, and where a session present after it comes from. *)
Lemma session_step s o : session_inv s →
  session_inv (session_run s o) ∧ same_limits s (session_run s o) ∧
  ∀ id x', _sessions (session_run s o) !! id = Some x' →
    (∃ x, _sessions s !! id = Some x ∧ later x x') ∨ offers o id.
Proof.
  intros Hi.
  assert (Hsame : session_inv s ∧ same_limits s s ∧ ∀ id x', _sessions s !! id = Some x' →
    (∃ x, _sessions s !! id = Some x ∧ later x x') ∨ offers o id).
  { split_and!; try done. intros id x Hx. left. eauto using later_refl. }
  assert (Hpop : ∀ i, session_inv (pop i s) ∧ same_limits s (pop i s) ∧
    ∀ id x', _sessions (pop i s) !! id = Some x' →
    (∃ x, _sessions s !! id = Some x ∧ later x x') ∨ offers o id).
  { intros i. split; [by apply pop_inv|]. split; [done|]. intros id x Hx. left. simpl in Hx.
    apply lookup_delete_Some in Hx as [_ Hx]. eauto using later_refl. }
  destruct o as [r g clock draw|id g clock]; simpl.
  - destruct (RemoteRequest.session_id r) as [id|] eqn:Hid.
    + destruct (named_session_run r g clock draw s id Hid) as [(x & Hx & ->)|(_ & s' & e & -> & [->|[-> _]])];
        [|exact Hsame|exact (Hpop id)].
      split; [by eapply admit_inv|]. split; [done|]. simpl.
      intros i y [[-> <-]|[_ Hy]]%lookup_insert_Some; left; [|eauto using later_refl].
      destruct Hx as [_ _ (now & _ & Hx & _) _ _ _]. eauto using taken_over_later.
    + unfold authenticate, lift. rewrite M_bind_run.
      destruct (_validate_generation g) as [g'|e]; [|done].
      rewrite M_bind_run, Hid. destruct (_validated_clock clock) as [now|e] eqn:Hclock; [|done].
      assert (Hn : isfinite now = true).
      { unfold _validated_clock in Hclock. repeat res_step. subst. by apply negb_false_iff. }
      pose proof (create_run (request_owner r) g' now draw s Hi Hn) as Hc.
      destruct (_create _ _ _ _ _) as [s' [id|e]]; destruct Hc as (Hi' & Hl & Hc); simpl.
      * split; [done|]. split; [done|]. destruct Hc as (_ & Hd & _ & _ & _ & Hk). intros i x Hx.
        destruct (decide (i = id)) as [->|Hne]; [by right|left].
        apply Hk in Hx as [Hx _]; [|done]. eauto using later_refl.
      * split; [done|]. split; [done|]. destruct Hc as [Hk _]. intros i x [Hx _]%Hk. left.
        eauto using later_refl.
  - unfold assert_current, lift, throw_if. rewrite M_bind_run.
    destruct (_validate_generation g); [|done]. rewrite M_bind_run.
    destruct (negb _); [done|]. cbn [raise_if]. rewrite M_bind_run.
    destruct (_validated_clock clock) as [now|]; [|done]. rewrite M_bind_run.
    destruct (live_run id now s) as [(x & Hx & ->)|(Hno & e & ->)]; [|by apply Hpop].
    by destruct (negb _).
Qed.

Lemma session_history s ops : session_inv s →
  session_inv (session_exec ops s) ∧ same_limits s (session_exec ops s) ∧
  ∀ id x', Forall (λ o, ¬ offers o id) ops → _sessions (session_exec ops s) !! id = Some x' →
    ∃ x, _sessions s !! id = Some x ∧ later x x'.
Proof.
  revert s. induction ops as [|o ops IH]; intros s Hi.
  { split_and!; try done. intros. eauto using later_refl. }
  destruct (session_step s o Hi) as (Hi1 & (H1 & H2 & H3) & Hk).
  destruct (IH _ Hi1) as (Hi2 & (G1 & G2 & G3) & Hk2).
  split; [done|]. split; [split_and!; simpl; congruence|].
  intros id x' Hf Hx. apply Forall_cons in Hf as [Hf Hfs].
  destruct (Hk2 id x' Hfs Hx) as (y & Hy & Hl).
  destruct (Hk _ _ Hy) as [(x & ? & ?)|?]; [|done]. eauto using later_trans.
Qed.

(** C27. No reuse of a retired generation: after a request replaced the active generation [old]
    of a session, no history lets [old] back as long as no new session is given the same
    id. Presenting it is refused, by [authenticate] even with [resume] and by
    [assert_current], and the refusal changes nothing while the session lives; and the
    session keeps its owner and its absolute expiry. *)
Theorem retired_generation_stays_fenced s r g clock draw s1 id x ops :
  session_inv s → RemoteRequest.session_id r = Some id →
  authenticate r g clock draw s = (s1, Ok id) →
  _sessions s !! id = Some x → g ≠ active_generation x →
  Forall (λ o, ¬ offers o id) ops →
  let s2 := session_exec ops s1 in let old := active_generation x in
  (∀ r' clock' draw', RemoteRequest.session_id r' = Some id →
     ∃ s3 e, authenticate r' old clock' draw' s2 = (s3, Err e) ∧
       ((∃ x' now, _validated_clock clock' = Ok now ∧ alive now s2 id x') → s3 = s2)) ∧
  (∀ clock', ∃ s3 e, assert_current id old clock' s2 = (s3, Err e)) ∧
  (∀ x', _sessions s2 !! id = Some x' → owner x' = owner x ∧ expires_at x' = expires_at x).
Proof.
  intros Hi Hid Hauth Hx Hg Hf s2 old.
  pose proof (session_step s (OAuth r g clock draw) Hi) as (Hi1 & _). simpl in Hi1.
  rewrite Hauth in Hi1. simpl in Hi1.
  destruct (named_session_run r g clock draw s id Hid) as [(y & Hy & E)|(_ & s' & e & E & _)];
    rewrite Hauth in E; [|done]. injection E as E.
  assert (y = x) as -> by (destruct Hy as [_ _ (now & _ & Hy & _) _ _ _]; congruence).
  destruct (session_history s1 ops Hi1) as (Hi2 & _ & Hk).
  assert (Hold : ∀ x', _sessions s2 !! id = Some x' →
    old ∈ retired x' ∧ owner x' = owner x ∧ expires_at x' = expires_at x).
  { intros x' Hx'. destruct (Hk id x' Hf Hx') as (z & Hz & Ho & He & Hr & _).
    rewrite E in Hz. simpl in Hz. rewrite lookup_insert_eq in Hz. injection Hz as <-.
    unfold taken_over in Ho, He, Hr. rewrite decide_False in Ho, He, Hr by done. simpl in *.
    split_and!; [set_solver|done|done]. }
  split_and!.
  - intros r' clock' draw' Hid'.
    destruct (named_session_run r' old clock' draw' s2 id Hid') as [(z & [_ _ (now & _ & Hz & _) _ Hn _] & _)|
      (_ & s3 & e & -> & Hs)].
    { exfalso. apply Hn. by apply (Hold z). }
    exists s3, e. split; [done|]. intros (z & now & Hc & Ha). destruct Hs as [->|[-> Hlim]]; [done|].
    exfalso. destruct (Hlim z now Hc Ha) as (_ & Hn & _). apply Hn. destruct Ha as [Ha _].
    by apply (Hold z).
  - intros clock'. unfold assert_current, lift, throw_if. rewrite M_bind_run.
    destruct (_validate_generation old) as [g'|] eqn:Hv; [apply validate_generation_id in Hv as ->|eauto].
    rewrite M_bind_run. destruct (negb _); [unfold raise_if, raise; eauto|]. cbn [raise_if].
    rewrite M_bind_run. destruct (_validated_clock clock') as [now|]; [|eauto]. rewrite M_bind_run.
    destruct (live_run id now s2) as [(z & [Hz Hl] & ->)|(Hno & e & ->)]; [|eauto].
    rewrite bool_decide_eq_false_2; [unfold raise_if, raise; simpl; eauto|].
    intros Heq. destruct Hi2 as [_ _ _ _ _ _ _ Hr]. apply (Hr id z Hz).
    rewrite Heq. by apply (Hold z).
  - intros x' Hx'. by apply Hold.
Qed.

(** A new session never displaces a live one: a request without a session id gets an id
    that no unexpired session has, with the generation active, nothing retired and the
    expiry [now + ttl]; all unexpired sessions are kept and all expired ones dropped. It
    is refused only when [max_sessions] unexpired sessions exist or no id was found. *)
Theorem new_session_exact s r g clock draw now :
  session_inv s → RemoteRequest.session_id r = None →
  _validate_generation g = Ok g → _validated_clock clock = Ok now →
  let '(s', res) := authenticate r g clock draw s in
  match res with
  | Ok id => (∀ x, ¬ alive now s id x) ∧
      _sessions s' !! id = Some (LogicalSession.mk (request_owner r) g (fadd now (_ttl s)) ∅) ∧
      ∀ i x, i ≠ id → _sessions s' !! i = Some x ↔ alive now s i x
  | Err e => (∀ i x, _sessions s' !! i = Some x ↔ alive now s i x) ∧
      (size (_sessions s') = Z.to_nat (_max_sessions s) ∨ _allocate_id_locked s' draw = Err e)
  end.
Proof.
  intros Hi Hid Hg Hc. unfold authenticate, lift. rewrite M_bind_run, Hg, M_bind_run, Hc, Hid.
  assert (Hn : isfinite now = true).
  { unfold _validated_clock in Hc. repeat res_step. subst. by apply negb_false_iff. }
  pose proof (create_run (request_owner r) g now draw s Hi Hn) as H.
  destruct (_create _ _ _ _ _) as [s' [id|e]]; destruct H as (_ & _ & H); [by destruct_and? H|].
  destruct H as [Hk Hr]. split; [done|]. destruct Hr as [?|[_ ?]]; auto.
Qed.

(** Bounds: whatever the history of a registry, it holds at most [max_sessions] sessions,
    at most twice as many expirations, and at most [max_generations_per_session] retired
    generations for each session, whose active generation is never one of them. *)
Theorem sessions_bounded a b c s0 ops : __init__ a b c = Ok s0 →
  let s := session_exec ops s0 in
  (Z.of_nat (size (_sessions s)) ≤ _max_sessions s0)%Z ∧
  (Z.of_nat (length (_expirations s)) ≤ 2 * _max_sessions s0)%Z ∧
  ∀ id x, _sessions s !! id = Some x →
    (Z.of_nat (size (retired x)) ≤ _max_generations s0)%Z ∧ active_generation x ∉ retired x.
Proof.
  intros H s. apply registry_init_inv in H.
  destruct (session_history s0 ops H) as ([_ _ _ _ _ Hs Hh Hr] & (_ & E1 & E2) & _).
  rewrite <- E1, <- E2. done.
Qed.

(** ** A concrete registry *)

Definition sample_registry : t := mk (flit 600) 2 2 ∅ [].

Definition sample_request (session : option string) (resume : bool) : RemoteRequest.t :=
  RemoteRequest.mk (mkNodeId "server") (Some (mkNodeId "laptop")) "status" [] "r" "n" (flit 0)
    session resume None.

Definition sample_draw (_ : nat) : json := JStr "id1".

(** One session of generation [A]. *)
Definition sample_session : t :=
  (authenticate (sample_request None false) (Some "A") (JInt 10) sample_draw sample_registry).1.

Lemma sample_registry_inv : session_inv sample_registry.
Proof. by apply (registry_init_inv (JInt 600) (JInt 2) (JInt 2)). Qed.

Lemma sample_session_inv : session_inv sample_session.
Proof.
  apply (session_step _ (OAuth (sample_request None false) (Some "A") (JInt 10) sample_draw)).
  apply sample_registry_inv.
Qed.

Lemma resume_exact_witness :
  (authenticate (sample_request (Some "id1") false) (Some "B") (JInt 20) sample_draw sample_session).1
    = sample_session ∨
  (authenticate (sample_request (Some "id1") false) (Some "B") (JInt 20) sample_draw sample_session).1
    = pop "id1" sample_session.
Proof.
  pose proof (resume_exact (sample_request (Some "id1") false) (Some "B") (JInt 20) sample_draw
    sample_session "id1" eq_refl) as H.
  destruct (authenticate _ _ _ _ _) as [s' res]. destruct H as (_ & _ & _ & Hno). simpl.
  destruct Hno as [H|[H _]]; [|by left|by right].
  intros x [_ _ (now & _ & Hx & _) _ _ [Ha|[Hr _]]]; [|discriminate Hr].
  assert (Hact : (λ x, bool_decide (active_generation x = Some "A")) <$> (_sessions sample_session !! "id1")
    = Some true) by (vm_compute; reflexivity).
  rewrite Hx in Hact. injection Hact as Hact. apply bool_decide_eq_true in Hact. congruence.
Defined.

Lemma retired_generation_stays_fenced_witness :
  let s1 := (authenticate (sample_request (Some "id1") true) (Some "B") (JInt 20) sample_draw
               sample_session).1 in
  ∃ s3 e, assert_current "id1" (Some "A") (JInt 30) s1 = (s3, Err e).
Proof.
  intros s1.
  assert (Hx : ∃ x, _sessions sample_session !! "id1" = Some x ∧ active_generation x = Some "A").
  { assert (Hact : (λ x, bool_decide (active_generation x = Some "A"))
      <$> (_sessions sample_session !! "id1") = Some true) by (vm_compute; reflexivity).
    destruct (_sessions sample_session !! "id1") as [x|]; [|discriminate Hact].
    exists x. split; [reflexivity|]. injection Hact as Hact. by apply bool_decide_eq_true in Hact. }
  destruct Hx as (x & Hx & Ha).
  destruct (retired_generation_stays_fenced sample_session (sample_request (Some "id1") true) (Some "B")
    (JInt 20) sample_draw s1 "id1" x []) as (_ & H & _).
  - apply sample_session_inv.
  - reflexivity.
  - apply injective_projections; [reflexivity|vm_compute; reflexivity].
  - exact Hx.
  - rewrite Ha. discriminate.
  - apply Forall_nil_2.
  - rewrite Ha in H. exact (H (JInt 30)).
Defined.

Lemma new_session_exact_witness :
  is_ok (authenticate (sample_request None false) (Some "A") (JInt 10) sample_draw sample_registry).2 = true ∧
  bool_decide (_sessions sample_registry !! "id1" = None) = true.
Proof.
  pose proof (new_session_exact sample_registry (sample_request None false) (Some "A") (JInt 10) sample_draw
    (flit 10) sample_registry_inv eq_refl eq_refl eq_refl) as H.
  destruct (authenticate _ _ _ _ _) as [s' [id|e]] eqn:E.
  - split; reflexivity.
  - exfalso. assert (Hok : is_ok (authenticate (sample_request None false) (Some "A") (JInt 10) sample_draw
      sample_registry).2 = true) by (vm_compute; reflexivity).
    rewrite E in Hok. discriminate Hok.
Defined.

Lemma sessions_bounded_witness :
  (Z.of_nat (size (_sessions (session_exec
    [OAuth (sample_request None false) None (JInt 1) sample_draw] sample_registry)))
    ≤ _max_sessions sample_registry)%Z.
Proof.
  destruct (sessions_bounded (JInt 600) (JInt 2) (JInt 2) sample_registry
    [OAuth (sample_request None false) None (JInt 1) sample_draw]) as [H _]; [reflexivity|exact H].
Defined.
