(* ===== verification/SurfaceWire.v ===== *)
(** * Parameters of surface operations ([surfaces/protocol.py])

    The check that parameters are JSON-safe walks Python objects, which may be shared or
    cyclic: containers have an identity, a heap gives their contents, and the explicit
    stack of the source is the state of a machine.  On the documents that arrive by wire
    it is the recursion [safe_tree]. *)

From S2P Require Import Prelude PyFloat Identity Sharing PyJson.

Definition SURFACE_READ : string := "surface_read".
Definition SURFACE_REVIEW : string := "surface_review".
Definition SURFACE_ACTION : string := "surface_action".
Definition SURFACE_OPERATIONS : list string := [SURFACE_READ; SURFACE_REVIEW; SURFACE_ACTION].
Definition MAX_SURFACE_ID_LENGTH : Z := 128.
Definition MAX_SURFACE_PARAM_DEPTH : nat := 32.
Definition SURFACE_REQUIRED_CAPABILITY : list (string * NodeCapability) :=
  [(SURFACE_READ, READ_STATE_CAP); (SURFACE_REVIEW, READ_STATE_CAP);
   (SURFACE_ACTION, REMOTE_MANAGEMENT_CAP)].
Definition SURFACE_ACCESS_BY_OPERATION : list (string * string) :=
  [(SURFACE_READ, "read"); (SURFACE_REVIEW, "review"); (SURFACE_ACTION, "action")].
Definition SURFACE_OPERATION_SAFETY : list (string * string) :=
  [(SURFACE_READ, "read"); (SURFACE_REVIEW, "read"); (SURFACE_ACTION, "unsafe")].

(** ** Python objects *)

Inductive pyval :=
  | PNone
  | PBool (b : bool)
  | PInt (z : Z)
  | PFloat (f : float)
  | PStr (s : string)
  | PRef (id : nat)
  | POther.

Inductive container :=
  | PList (items : list pyval)
  | PDict (items : list (pyval * pyval)).

Definition heap := nat → container.

Definition values (c : container) : list pyval :=
  match c with PList l => l | PDict d => d.*2 end.

(** Every key is text. *)
Definition text_keys (c : container) : bool :=
  match c with
  | PList _ => true
  | PDict d => forallb (λ kv, match kv.1 with PStr _ => true | _ => false end) d
  end.

(** ** The stack machine *)

Record frame := mkFrame { current : pyval; depth : nat; exiting : bool }.

Inductive step_result :=
  | Return (b : bool)
  | Raise (e : exn)
  | Continue (stack : list frame) (active : gset nat).

(** One iteration of the loop, with the frame popped. *)
Definition step (h : heap) (f : frame) (stack : list frame) (active : gset nat) : step_result :=
  if exiting f then
    match current f with
    | PRef id => if bool_decide (id ∈ active) then Continue stack (active ∖ {[id]})
                 else Raise (Exn KeyError "active container")
    | _ => Raise (Exn KeyError "active container")
    end
  else if Nat.ltb MAX_SURFACE_PARAM_DEPTH (depth f) then Return false
  else match current f with
  | PNone | PStr _ | PBool _ | PInt _ => Continue stack active
  | PFloat x => if isfinite x then Continue stack active else Return false
  | POther => Return false
  | PRef id =>
      if bool_decide (id ∈ active) then Return false
      else if text_keys (h id)
      then Continue (((λ v, mkFrame v (S (depth f)) false) <$> values (h id))
                       ++ mkFrame (PRef id) (depth f) true :: stack)
                    ({[id]} ∪ active)
      else Return false
  end.

(** [fuel] bounds the iterations; [None] when it runs out. *)
Fixpoint loop (h : heap) (fuel : nat) (stack : list frame) (active : gset nat) : option (result bool) :=
  match stack with
  | [] => Some (Ok true)
  | f :: stack =>
      match fuel with
      | O => None
      | S fuel =>
          match step h f stack active with
          | Return b => Some (Ok b)
          | Raise e => Some (Err e)
          | Continue stack active => loop h fuel stack active
          end
      end
  end.

Definition _json_safe (h : heap) (fuel : nat) (v : pyval) : option (result bool) :=
  loop h fuel [mkFrame v 0 false] ∅.

(** ** What it decides *)

(** The document a value stands for, if it is one of at most [n] levels. *)
Fixpoint unfold_value (h : heap) (n : nat) (v : pyval) : option json :=
  match n with
  | O => None
  | S n =>
      match v with
      | PNone => Some JNull
      | PBool b => Some (JBool b)
      | PInt z => Some (JInt z)
      | PFloat f => if isfinite f then Some (JFloat f) else None
      | PStr s => Some (JStr s)
      | POther => None
      | PRef id =>
          match h id with
          | PList l => JList <$> mapM (unfold_value h n) l
          | PDict d => JObj <$> mapM (λ kv, match kv.1 with
                         | PStr k => pair k <$> unfold_value h n kv.2
                         | _ => None
                         end) d
          end
      end
  end.

(** A document of at most [n] levels with finite floats. *)
Fixpoint safe_tree (n : nat) (v : json) : bool :=
  match n with
  | O => false
  | S n =>
      match v with
      | JFloat f => isfinite f
      | JList l => forallb (safe_tree n) l
      | JObj d => forallb (λ kv, safe_tree n kv.2) d
      | _ => true
      end
  end.

(** ** [validate_surface_operation_params] *)

Section validate.
Context (float_repr : float → string).

Definition surface_field (op : string) (params : list (string * json)) (error_type : exn_class)
    (field : string) : result () :=
  match od_get field params with
  | None => Ok ()
  | Some v =>
      raise_if (match v with
                | JStr s => is_blank s || (MAX_SURFACE_ID_LENGTH <? py_len s)%Z
                | _ => true
                end) error_type (op +:+ " " +:+ field +:+ " is invalid")
  end.

Definition validate_surface_operation_params (op : string) (params : json) (error_type : exn_class)
    : result () :=
  raise_if (negb (bool_decide (op ∈ SURFACE_OPERATIONS))) error_type
    ("unknown surface operation: " +:+ op);;
  match params with
  | JObj d =>
      let required := "surface_id" :: (if bool_decide (op = SURFACE_ACTION) then ["action"] else []) in
      raise_if (negb (keys_within d (required ++ ["params"])) || negb (has_keys d required))
        error_type (op +:+ " has unexpected or missing parameters");;
      surface_field op d error_type "surface_id";;
      surface_field op d error_type "action";;
      let section_params := jget_or "params" (JObj []) d in
      raise_if (negb (match section_params with
                      | JObj _ => safe_tree (S MAX_SURFACE_PARAM_DEPTH) section_params
                      | _ => false
                      end)) error_type (op +:+ " params must be JSON-safe");;
      match dumps float_repr false section_params with
      | Ok _ => Ok ()
      | Err e => if exn_isa e TypeError || exn_isa e ValueError
                 then raise error_type (op +:+ " params must be JSON-safe") else Err e
      end
  | _ => raise error_type "surface operation parameters must be an object"
  end.
End validate.

(** * The stack walk of [_json_safe] decides the recursive definition *)

Section walk.
Context (h : heap).

(** ** Reachability *)

Definition child (u v : pyval) : Prop := ∃ id, u = PRef id ∧ v ∈ values (h id).

Notation unfold := (unfold_value h).

Lemma unfold_child n u v : is_Some (unfold (S n) u) → child u v → is_Some (unfold n v).
Proof.
  intros [j Hj] (id & -> & Hv). simpl in Hj. destruct (h id) as [l|d]; simpl in Hv.
  - apply fmap_Some in Hj as (js & Hjs & _). apply mapM_Some in Hjs.
    apply list_elem_of_lookup in Hv as [i Hi]. eapply Forall2_lookup_l in Hjs as (y & _ & Hy); [|done].
    by eexists.
  - apply fmap_Some in Hj as (js & Hjs & _). apply mapM_Some in Hjs.
    apply list_elem_of_fmap in Hv as (kv & -> & Hv).
    apply list_elem_of_lookup in Hv as [i Hi]. eapply Forall2_lookup_l in Hjs as (y & _ & Hy); [|done].
    destruct kv.1; try done. apply fmap_Some in Hy as (z & Hz & _). by eexists.
Qed.

Lemma unfold_reach u v : tc child u v → ∀ n, is_Some (unfold n u) → ∃ m, m < n ∧ is_Some (unfold m v).
Proof.
  induction 1 as [u v Huv|u v w Huv _ IH]; intros [|n] Hn; try (by destruct Hn).
  - exists n. split; [lia|]. by eapply unfold_child.
  - destruct (IH n) as (m & ? & ?); [by eapply unfold_child|]. exists m. split; [lia|done].
Qed.

(** A cyclic value has no finite unfolding. *)
Lemma cyclic_unfold u n : tc child u u → ¬ is_Some (unfold n u).
Proof.
  intros Hc. induction (Nat.lt_wf_0 n) as [n _ IH]. intros Hn.
  destruct (unfold_reach u u Hc n Hn) as (m & Hm & Hs). by apply (IH m).
Qed.

(** ** The walk *)

(** The active containers are ancestors of the value. *)
Definition ancestors (active : gset nat) (v : pyval) : Prop := ∀ id, id ∈ active → tc child (PRef id) v.

(** From some fuel on the machine goes on with the rest of the stack, or answers [false]. *)
Definition passes (front : list frame) (active : gset nat) : Prop :=
  ∀ stack, ∃ k, ∀ fuel, loop h (k + fuel) (front ++ stack) active = loop h fuel stack active.
Definition fails (front : list frame) (active : gset nat) : Prop :=
  ∀ stack, ∃ k, ∀ fuel, loop h (k + fuel) (front ++ stack) active = Some (Ok false).

Definition verdict (ok : bool) : list frame → gset nat → Prop := if ok then passes else fails.

Lemma passes_app f1 f2 active ok : passes f1 active → verdict ok f2 active → verdict ok (f1 ++ f2) active.
Proof.
  intros H1 H2. destruct ok; intros stack; destruct (H1 (f2 ++ stack)) as [k1 E1];
    destruct (H2 stack) as [k2 E2]; exists (k1 + k2); intros fuel;
    by rewrite <- (assoc_L (++)), <- Nat.add_assoc, E1, E2.
Qed.

Lemma fails_app f1 f2 active : fails f1 active → fails (f1 ++ f2) active.
Proof. intros H stack. destruct (H (f2 ++ stack)) as [k E]. exists k. intros. by rewrite <- (assoc_L (++)). Qed.

(** One iteration. *)
Lemma step_continue f stack active stack' active' fuel : step h f stack active = Continue stack' active' →
  loop h (S fuel) (f :: stack) active = loop h fuel stack' active'.
Proof. intros E. simpl. by rewrite E. Qed.
Lemma step_return f stack active fuel b : step h f stack active = Return b →
  loop h (S fuel) (f :: stack) active = Some (Ok b).
Proof. intros E. simpl. by rewrite E. Qed.

Notation is_tree n v := (bool_decide (is_Some (unfold n v))).

Definition walks (n : nat) : Prop := ∀ v d active, d + n = S MAX_SURFACE_PARAM_DEPTH → ancestors active v →
  verdict (is_tree n v) [mkFrame v d false] active.

(** The items of a container, one after the other. *)
Lemma walk_items n d active l : walks n → d + n = S MAX_SURFACE_PARAM_DEPTH →
  Forall (ancestors active) l →
  verdict (forallb (λ v, is_tree n v) l) ((λ v, mkFrame v d false) <$> l) active.
Proof.
  intros Hw Hd Hl. induction Hl as [|v l Hv _ IH]; [by exists 0|]. simpl.
  specialize (Hw v d active Hd Hv). destruct (is_tree n v); simpl.
  - by apply (passes_app [_]).
  - by apply (fails_app [_]).
Qed.

Lemma mapM_all_Some {A B} (f : A → option B) l :
  is_Some (mapM f l) ↔ forallb (λ x, bool_decide (is_Some (f x))) l = true.
Proof.
  rewrite mapM_is_Some. induction l as [|x l IH]; simpl; [split; [done|constructor]|].
  by rewrite Forall_cons, andb_true_iff, <- IH, bool_decide_eq_true.
Qed.

(** The unfolding of a container exists when its keys are text and its items unfold. *)
Lemma unfold_ref n id : is_tree (S n) (PRef id)
  = text_keys (h id) && forallb (λ v, is_tree n v) (values (h id)).
Proof.
  apply eq_bool_prop_intro. rewrite bool_decide_spec. simpl.
  destruct (h id) as [l|d]; simpl; rewrite fmap_is_Some, mapM_all_Some.
  { by destruct (forallb _ _). }
  assert (E : forallb (λ kv : pyval * pyval, bool_decide (is_Some match kv.1 with
      | PStr k => pair k <$> unfold n kv.2 | _ => None end)) d
    = forallb (λ kv, match kv.1 with PStr _ => true | _ => false end) d && forallb (λ v, is_tree n v) d.*2).
  { induction d as [|[k v] d IH]; simpl; [done|]. rewrite IH.
    destruct k; simpl; try done; [|by rewrite andb_false_r..].
    destruct (unfold n v); simpl; [done|]. by rewrite andb_false_r. }
  rewrite E. by destruct (_ && _).
Qed.

Lemma walks_all n : walks n.
Proof.
  induction n as [|n IH]; intros v d active Hd Ha.
  { simpl. intros stack. exists 1. intros fuel. apply step_return. unfold step. simpl.
    replace (Nat.ltb MAX_SURFACE_PARAM_DEPTH d) with true by (symmetry; apply Nat.ltb_lt; lia). done. }
  assert (Hdepth : Nat.ltb MAX_SURFACE_PARAM_DEPTH d = false) by (apply Nat.ltb_ge; lia).
  assert (Hscalar : ∀ stack, match v with PRef _ => True | _ =>
    step h (mkFrame v d false) stack active = if is_tree (S n) v then Continue stack active else Return false end).
  { intros stack. unfold step. simpl. rewrite Hdepth. destruct v; try done. simpl.
    by destruct (isfinite f). }
  destruct v as [| | |f| |id|]; try (
    destruct (bool_decide _); intros stack; exists 1; intros fuel; specialize (Hscalar stack);
    [by apply step_continue|by apply step_return]).
  clear Hscalar. destruct (decide (id ∈ active)) as [Hin|Hin].
  { rewrite bool_decide_eq_false_2 by (by apply cyclic_unfold, Ha).
    intros stack. exists 1. intros fuel. apply step_return. unfold step. simpl. rewrite Hdepth.
    by rewrite bool_decide_eq_true_2. }
  rewrite unfold_ref. destruct (text_keys (h id)) eqn:Hkeys; simpl.
  2: { intros stack. exists 1. intros fuel. apply step_return. unfold step. simpl. rewrite Hdepth.
       rewrite bool_decide_eq_false_2 by done. by rewrite Hkeys. }
  set (items := (λ v, mkFrame v (S d) false) <$> values (h id)).
  assert (Hstep : ∀ stack, step h (mkFrame (PRef id) d false) stack active
    = Continue (items ++ mkFrame (PRef id) d true :: stack) ({[id]} ∪ active)).
  { intros stack. unfold step. simpl. rewrite Hdepth, bool_decide_eq_false_2, Hkeys by done. done. }
  assert (Hw : verdict (forallb (λ v, is_tree n v) (values (h id))) items ({[id]} ∪ active)).
  { apply walk_items; [done|lia|]. apply Forall_forall. intros v Hv j Hj.
    assert (Hc : child (PRef id) v) by (by exists id).
    apply elem_of_union in Hj as [->%elem_of_singleton|Hj]; [by apply tc_once|].
    eapply tc_r; [by apply Ha|done]. }
  destruct (forallb _ _); intros stack; destruct (Hw (mkFrame (PRef id) d true :: stack)) as [k E].
  - exists (S (k + 1)). intros fuel. simpl app.
    change (S (k + 1) + fuel) with (S (k + 1 + fuel)). erewrite step_continue by apply Hstep.
    rewrite <- Nat.add_assoc, E. apply step_continue. unfold step. simpl.
    rewrite bool_decide_eq_true_2 by set_solver. f_equal. set_solver.
  - exists (S k). intros fuel. simpl app. change (S k + fuel) with (S (k + fuel)).
    erewrite step_continue by apply Hstep. apply E.
Qed.

(** ** Documents *)

(** [v] is the document [j] in memory. *)
Fixpoint represents (v : pyval) (j : json) : Prop :=
  match j with
  | JNull => v = PNone
  | JBool b => v = PBool b
  | JInt z => v = PInt z
  | JFloat f => v = PFloat f
  | JStr s => v = PStr s
  | JList l => ∃ id items, v = PRef id ∧ h id = PList items ∧
      (fix go (items : list pyval) (l : list json) {struct l} : Prop := match items, l with
       | [], [] => True
       | x :: items, y :: l => represents x y ∧ go items l
       | _, _ => False
       end) items l
  | JObj d => ∃ id items, v = PRef id ∧ h id = PDict items ∧
      (fix go (items : list (pyval * pyval)) (d : list (string * json)) {struct d} : Prop := match items, d with
       | [], [] => True
       | x :: items, kv :: d => x.1 = PStr kv.1 ∧ represents x.2 kv.2 ∧ go items d
       | _, _ => False
       end) items d
  end.

Lemma represents_safe v j n : represents v j → is_tree n v = safe_tree n j.
Proof.
  revert v n. induction j as [| | | | |l IH|d IH] using json_ind'; intros v [|n] H; try done; simpl in H.
  - by subst.
  - by subst.
  - by subst.
  - subst. simpl. by destruct (isfinite f).
  - by subst.
  - destruct H as (id & items & -> & Hid & H). rewrite unfold_ref, Hid. simpl. clear Hid.
    revert items H. induction IH as [|y l Hy _ IHl]; intros [|x items] H; try done. simpl.
    destruct H as [Hx H]. by rewrite (Hy x n Hx), (IHl items H).
  - destruct H as (id & items & -> & Hid & H). rewrite unfold_ref, Hid. simpl. clear Hid.
    revert items H. induction IH as [|[k y] d Hy _ IHd]; intros [|[k' x] items] H; try done. simpl.
    destruct H as (Hk & Hx & H). simpl in *. subst k'. rewrite (Hy x n Hx).
    specialize (IHd items H). destruct (forallb _ items) eqn:E; simpl in *; rewrite <- IHd; [done|].
    by rewrite !andb_false_r.
Qed.
End walk.

(** C39. The JSON-safety check terminates and is right on every object graph, shared or cyclic:
    from some number of iterations on it answers, without raising, whether the value
    unfolds to a document of at most [MAX_SURFACE_PARAM_DEPTH + 1] levels with text keys
    and finite floats; on a document from the wire that is the recursive check. *)
Theorem json_safe_decides h v :
  (∃ enough, ∀ fuel, enough ≤ fuel →
    _json_safe h fuel v
    = Some (Ok (bool_decide (is_Some (unfold_value h (S MAX_SURFACE_PARAM_DEPTH) v))))) ∧
  ∀ j, represents h v j →
    bool_decide (is_Some (unfold_value h (S MAX_SURFACE_PARAM_DEPTH) v))
    = safe_tree (S MAX_SURFACE_PARAM_DEPTH) j.
Proof.
  split; [|intros j; apply represents_safe].
  pose proof (walks_all h (S MAX_SURFACE_PARAM_DEPTH) v 0 ∅ eq_refl) as Hw.
  assert (Ha : ancestors h ∅ v) by (intros id Hid; by apply not_elem_of_empty in Hid).
  specialize (Hw Ha). unfold _json_safe.
  destruct (bool_decide _); destruct (Hw []) as [k E]; exists k; intros fuel Hf;
    replace fuel with (k + (fuel - k)) by lia; rewrite app_nil_r in E; rewrite E; [|done].
  by destruct (fuel - k).
Qed.

(** A shared list and a list that contains itself. *)
Definition sample_heap (id : nat) : container :=
  if Nat.eqb id 0 then PList [PRef 1; PRef 1] else if Nat.eqb id 1 then PList [PNone] else PList [PRef id].

Lemma json_safe_decides_witness :
  (∃ enough, ∀ fuel, enough ≤ fuel → _json_safe sample_heap fuel (PRef 0) = Some (Ok true)) ∧
  (∃ enough, ∀ fuel, enough ≤ fuel → _json_safe sample_heap fuel (PRef 2) = Some (Ok false)).
Proof.
  split.
  - destruct (json_safe_decides sample_heap (PRef 0)) as [[k H] Hrep]. exists k. intros fuel Hf.
    rewrite (H fuel Hf), (Hrep (JList [JList [JNull]; JList [JNull]])).
    + reflexivity.
    + exists 0, [PRef 1; PRef 1]. split; [reflexivity|]. split; [reflexivity|].
      split; [|split; [|exact I]]; exists 1, [PNone]; (split; [reflexivity|split; [reflexivity|split; [reflexivity|exact I]]]).
  - destruct (json_safe_decides sample_heap (PRef 2)) as [[k H] _]. exists k. intros fuel Hf.
    rewrite (H fuel Hf). vm_compute. reflexivity.
Defined.
