(* ===== verification/WireOps.v ===== *)
(** * Operations of the wire protocol ([remote/wire_protocol.py])

    The table of operations with what each requires, the checks of a [hello] payload and
    of every operation's parameters.  Parameters are JSON documents. *)

From S2P Require Import Prelude PyFloat Identity Sharing PyJson Wire SurfaceWire.

Definition OP_REQUIRED_CAPABILITY : list (string * NodeCapability) :=
  [("hello", READ_STATE_CAP); ("ping", READ_STATE_CAP); ("echo", READ_STATE_CAP);
   ("demo.read_state", READ_STATE_CAP); ("dashboard_snapshot", READ_STATE_CAP);
   ("component_summary", READ_STATE_CAP); ("process_candidates", READ_STATE_CAP);
   ("storage_candidates", READ_STATE_CAP); ("process_request_quit", REMOTE_MANAGEMENT_CAP);
   ("process_force_quit", REMOTE_MANAGEMENT_CAP); ("revoke_self", READ_STATE_CAP);
   ("consume_invite", REMOTE_MANAGEMENT_CAP); ("assign_role", REMOTE_MANAGEMENT_CAP);
   ("renew_coordinator_lease", REMOTE_MANAGEMENT_CAP); ("revoke_member", REMOTE_MANAGEMENT_CAP);
   ("pause_worker", REMOTE_MANAGEMENT_CAP); ("resume_worker", REMOTE_MANAGEMENT_CAP);
   ("revoke_worker", REMOTE_MANAGEMENT_CAP); ("remove_job", REMOTE_MANAGEMENT_CAP);
   ("remove_connection", REMOTE_MANAGEMENT_CAP); ("grant_capabilities", REMOTE_MANAGEMENT_CAP);
   ("revoke_capabilities", REMOTE_MANAGEMENT_CAP); ("sync_capability_grant", REMOTE_MANAGEMENT_CAP);
   ("worker_snapshot", REMOTE_MANAGEMENT_CAP); ("standby_batch", REMOTE_MANAGEMENT_CAP);
   ("capability_request", READ_STATE_CAP)] ++ SURFACE_REQUIRED_CAPABILITY.

(** [NodePermission(capability.value)] *)
Definition permission_of (c : NodeCapability) : result NodePermission :=
  NodePermission.of_value (NodeCapability.value c).

Definition OP_REQUIRED_PERMISSION : list (string * NodePermission) :=
  match mapM (λ oc, p ← permission_of oc.2; Ok (oc.1, p)) OP_REQUIRED_CAPABILITY with
  | Ok l => l
  | Err _ => []
  end.

Definition ROLE_OPERATIONS : list string :=
  ["consume_invite"; "assign_role"; "renew_coordinator_lease"; "revoke_member"; "pause_worker";
   "resume_worker"; "revoke_worker"; "remove_job"; "remove_connection"; "grant_capabilities";
   "revoke_capabilities"; "sync_capability_grant"; "worker_snapshot"; "standby_batch"].

Definition NO_PARAM_OPERATIONS : list string :=
  ["hello"; "ping"; "echo"; "demo.read_state"; "dashboard_snapshot"; "process_candidates";
   "storage_candidates"; "revoke_self"].

Definition _KNOWN_PERMISSION_VALUES : list string := NodePermission.value <$> NodePermission.all.

(** All reads, then the overrides in order. *)
Definition OPERATION_SAFETY : list (string * string) :=
  let all := (λ oc, (oc.1, "read")) <$> OP_REQUIRED_CAPABILITY in
  let all := od_update all SURFACE_OPERATION_SAFETY in
  let all := od_update all ((λ op, (op, "retry_safe"))
               <$> (ROLE_OPERATIONS ++ ["process_request_quit"; "revoke_self"])) in
  od_set "process_force_quit" "unsafe" all.

(** ** [hello] *)

Definition parse_hello_capabilities (payload : json) : result (gset NodeCapability) :=
  match payload with
  | JObj d =>
      match jget_or "capabilities" (JList []) d with
      | JList raw =>
          texts ← of_option (all_str raw) RemoteProtocolError "hello capability must be a string";
          Ok (list_to_set (omap (λ s, match NodeCapability.of_value s with
                                      | Ok c => Some c
                                      | Err _ => None
                                      end) texts))
      | _ => raise RemoteProtocolError "hello capabilities must be a list"
      end
  | _ => raise RemoteProtocolError "hello payload must be an object"
  end.

Definition validate_hello_payload (payload : json) (expected_node_id : option NodeId)
    : result (gset NodeCapability) :=
  match payload with
  | JObj d =>
      raise_if (negb match jget "ok" d with JBool b => b | _ => false end)
        RemoteProtocolError "hello response is invalid";;
      raise_if (negb match jget_or "protocol_version" (JStr REMOTE_PROTOCOL_VERSION) d with
                     | JStr v => bool_decide (v = REMOTE_PROTOCOL_VERSION)
                     | _ => false
                     end) RemoteProtocolError "unsupported remote protocol version";;
      node_id ← match jget "node_id" d with
                | JStr n => if bool_decide (n = "") then raise RemoteAuthError "hello node identity is invalid"
                            else Ok n
                | _ => raise RemoteAuthError "hello node identity is invalid"
                end;
      raise_if match expected_node_id with
               | Some e => negb (bool_decide (node_id = value e))
               | None => false
               end RemoteAuthError "hello came from the wrong node";;
      raise_if match jget "identity_fingerprint" d with
               | JStr f => bool_decide (f = "")
               | _ => true
               end RemoteAuthError "hello identity fingerprint is missing";;
      parse_hello_capabilities payload
  | _ => raise RemoteProtocolError "hello response is invalid"
  end.

(** ** Parameters *)

Section validate.
Context (float_repr : float → string).

Definition protocol_error_if (b : bool) (msg : string) : result () := raise_if b RemoteProtocolError msg.

Definition is_text (v : json) : bool := match v with JStr _ => true | _ => false end.
Definition is_nonempty_text (v : json) : bool :=
  match v with JStr s => negb (bool_decide (s = "")) | _ => false end.
(** A non-negative integer that is not a boolean. *)
Definition is_natural (v : json) : bool := match v with JInt z => (0 <=? z)%Z | _ => false end.

(** [not math.isfinite(float(v))] of a number, which may overflow; [True] of the rest. *)
Definition not_finite (v : json) : result bool :=
  if is_number v then x ← to_float v; Ok (negb (isfinite x)) else Ok true.

Definition validate_process (item : json) : result () :=
  match item with
  | JObj d =>
      protocol_error_if (negb (is_natural (jget "pid" d))) "process reference pid is invalid";;
      let create_time := jget "create_time" d in
      bad ← not_finite create_time;
      protocol_error_if bad "process reference create_time is required";;
      x ← to_float create_time;
      protocol_error_if (fltb x (flit 0)) "process reference create_time is required"
  | _ => raise RemoteProtocolError "process reference must be an object"
  end.

Definition validate_process_action (op : string) (d : list (string * json)) : result () :=
  processes ← match jget "processes" d with
              | JList (p :: l) => Ok (p :: l)
              | _ => raise RemoteProtocolError (op +:+ " requires process references")
              end;
  mapM validate_process processes;;
  let expected := if bool_decide (op = "process_request_quit") then "request_quit" else "force_quit" in
  protocol_error_if (negb match jget "action" d with
                          | JStr a => bool_decide (a = expected)
                          | _ => false
                          end) "process action is not allowlisted";;
  protocol_error_if (negb (keys_exactly d ["processes"; "action"])) (op +:+ " has unexpected parameters").

Definition validate_capability_request (d : list (string * json)) : result () :=
  protocol_error_if (negb match jget "capability" d with
                          | JStr c => _is_valid_capability_id c
                          | _ => false
                          end) "capability_request requires a capability";;
  protocol_error_if (match jget_or "params" (JObj []) d with JObj _ => false | _ => true end)
    "capability_request params must be an object";;
  protocol_error_if (negb (keys_exactly d ["capability"; "params"]))
    "capability_request has unexpected parameters".

Definition fencing_fields : list string := ["cluster_id"; "epoch"; "fencing_token"].

Definition validate_grant (op : string) (d : list (string * json)) : result () :=
  let revoking := bool_decide (op = "revoke_capabilities") in
  let granting := bool_decide (op = "grant_capabilities") in
  let expected := fencing_fields ++ ["subject_node_id"; "target_node_id"]
                    ++ (if revoking then [] else ["permissions"; "expires_at"]) in
  protocol_error_if (negb (keys_exactly d expected)) (op +:+ " has unexpected parameters");;
  protocol_error_if (negb (is_nonempty_text (jget "subject_node_id" d))
                     || negb (is_nonempty_text (jget "target_node_id" d)))
    (op +:+ " target identity is invalid");;
  if revoking then Ok () else
  protocol_error_if
    match jget "permissions" d with
    | JList l => (granting && match l with [] => true | _ => false end)
                 || existsb (λ v, match v with
                                  | JStr s => negb (bool_decide (s ∈ _KNOWN_PERMISSION_VALUES))
                                  | _ => true
                                  end) l
    | _ => true
    end (if granting then "capability grant permissions are invalid"
         else op +:+ " permissions are invalid");;
  bad ← not_finite (jget "expires_at" d);
  protocol_error_if bad (op +:+ " expiry is invalid").

Definition validate_snapshot (d : list (string * json)) : result () :=
  match jget "payload" d with
  | JObj p =>
      text ← match dumps float_repr false (JObj p) with
             | Ok t => Ok t
             | Err e => if exn_isa e OverflowError || exn_isa e TypeError || exn_isa e ValueError
                        then raise RemoteProtocolError "snapshot payload is not JSON-safe" else Err e
             end;
      protocol_error_if (MAX_ENVELOPE_BYTES / 2 <? py_len text)%Z "snapshot payload is too large"
  | _ => raise RemoteProtocolError "snapshot payload is invalid"
  end.

(** What each role operation requires beside the fence. *)
Definition validate_role_params (op : string) (d : list (string * json)) : result () :=
  if bool_decide (op ∈ ["renew_coordinator_lease"; "consume_invite"])
  then protocol_error_if (bool_decide (op = "consume_invite") && negb (is_text (jget "token" d)))
         "invite token is invalid"
  else if bool_decide (op = "assign_role")
  then
    protocol_error_if (negb (is_text (jget "target_node_id" d))) "role target is invalid";;
    protocol_error_if match jget "roles" d with
                      | JList (r :: l) => existsb (λ v, negb (is_text v)) (r :: l)
                      | _ => true
                      end "role list is invalid"
  else if bool_decide (op ∈ ["pause_worker"; "resume_worker"; "revoke_worker"; "revoke_member";
                             "remove_connection"; "remove_job"])
  then
    let target := jget "target_node_id" d in
    protocol_error_if (negb (is_text target)
        || bool_decide (op ∈ ["remove_connection"; "remove_job"]) && negb (is_nonempty_text target))
      "role target is invalid"
  else if bool_decide (op ∈ ["grant_capabilities"; "revoke_capabilities"; "sync_capability_grant"])
  then validate_grant op d
  else validate_snapshot d.

Definition validate_role_operation (op : string) (d : list (string * json)) : result () :=
  protocol_error_if (negb (has_keys d fencing_fields)) (op +:+ " requires cluster fencing fields");;
  protocol_error_if (negb (is_nonempty_text (jget "cluster_id" d))) "cluster_id is invalid";;
  protocol_error_if (negb (is_natural (jget "epoch" d))) "cluster epoch is invalid";;
  protocol_error_if (negb (is_nonempty_text (jget "fencing_token" d))) "fencing token is invalid";;
  validate_role_params op d.

Definition validate_operation_params (op : string) (params : json) : result () :=
  protocol_error_if (negb (od_mem op OP_REQUIRED_CAPABILITY)) ("unknown operation: " +:+ op);;
  match params with
  | JObj d =>
      let none := protocol_error_if (match d with [] => false | _ => true end)
                    (op +:+ " accepts no parameters") in
      if bool_decide (op ∈ NO_PARAM_OPERATIONS) then none
      else if bool_decide (op = "capability_request") then validate_capability_request d
      else if bool_decide (op ∈ SURFACE_OPERATIONS)
      then validate_surface_operation_params float_repr op params RemoteProtocolError
      else if bool_decide (op = "component_summary")
      then protocol_error_if (negb (is_nonempty_text (jget "key" d))) "component_summary requires a key"
      else if bool_decide (op ∈ ["process_request_quit"; "process_force_quit"])
      then validate_process_action op d
      else if bool_decide (op ∈ ROLE_OPERATIONS) then validate_role_operation op d
      else none
  | _ => raise RemoteProtocolError "operation parameters must be an object"
  end.
End validate.
