(* ===== verification/WireOpsSpec.v ===== *)
(** * What the parameter checks let through, and what they raise *)

From S2P Require Import Prelude PyFloat Identity Sharing PyJson Wire SurfaceWire WireOps.

(** ** The table *)

(** The table of operations: each one has a permission and a safety class; every operation
    on the cluster, the process actions and the surface actions need remote management,
    and what is classed as a read needs only [read_state] unless it is not repeatable
    freely: only [process_force_quit] and [surface_action] are unsafe to repeat. *)
Theorem operation_table_sound :
  OP_REQUIRED_PERMISSION.*1 = OP_REQUIRED_CAPABILITY.*1 ∧
  NoDup OP_REQUIRED_CAPABILITY.*1 ∧ OPERATION_SAFETY.*1 = OP_REQUIRED_CAPABILITY.*1 ∧
  (∀ op, op ∈ ROLE_OPERATIONS ++ ["process_request_quit"; "process_force_quit"; SURFACE_ACTION] →
     od_get op OP_REQUIRED_PERMISSION = Some REMOTE_MANAGEMENT) ∧
  (∀ op, op ∈ NO_PARAM_OPERATIONS → od_get op OP_REQUIRED_PERMISSION = Some READ_STATE) ∧
  (∀ op, od_get op OPERATION_SAFETY = Some "read" → od_get op OP_REQUIRED_PERMISSION = Some READ_STATE) ∧
  (∀ op, od_get op OPERATION_SAFETY = Some "unsafe" ↔ op = "process_force_quit" ∨ op = SURFACE_ACTION).
Proof.
  assert (Hall : ∀ (P : string → bool) l, forallb P l = true → ∀ op, op ∈ l → P op = true).
  { intros P l H op Hop. rewrite forallb_forall in H. by apply H, list_elem_of_In. }
  assert (Hsafe : ∀ v (P : string → bool),
    forallb (λ ov, negb (bool_decide (ov.2 = v)) || P ov.1) OPERATION_SAFETY = true →
    ∀ op, od_get op OPERATION_SAFETY = Some v → P op = true).
  { intros v P H op Hop. apply od_get_elem, list_elem_of_In in Hop. rewrite forallb_forall in H.
    specialize (H _ Hop). simpl in H. by rewrite bool_decide_eq_true_2 in H. }
  split; [vm_compute; reflexivity|]. split; [apply (bool_decide_unpack _); vm_compute; exact I|].
  split; [vm_compute; reflexivity|]. split_and!.
  - intros op Hop. apply (bool_decide_unpack _). apply Is_true_true_2.
    revert op Hop. apply Hall. vm_compute. reflexivity.
  - intros op Hop. apply (bool_decide_unpack _). apply Is_true_true_2.
    revert op Hop. apply Hall. vm_compute. reflexivity.
  - intros op Hop. apply (bool_decide_unpack _). apply Is_true_true_2.
    revert op Hop. apply (Hsafe "read" (λ op, bool_decide _)). vm_compute. reflexivity.
  - intros op. split; [|by intros [->| ->]; vm_compute].
    intros Hop. apply (bool_decide_unpack _). apply Is_true_true_2.
    revert op Hop. apply (Hsafe "unsafe" (λ op, bool_decide _)). vm_compute. reflexivity.
Qed.

(** ** Acceptance *)

Section spec.
Context (float_repr : float → string).
Notation validate := (validate_operation_params float_repr).

Lemma is_text_Some v : is_text v = true → ∃ s, v = JStr s.
Proof. destruct v; try done. eauto. Qed.

Lemma is_nonempty_text_Some v : is_nonempty_text v = true → ∃ s, v = JStr s ∧ s ≠ "".
Proof. destruct v; try done. simpl. case_bool_decide; [done|eauto]. Qed.

Lemma is_natural_Some v : is_natural v = true → ∃ z, v = JInt z ∧ (0 ≤ z)%Z.
Proof. destruct v; try done. simpl. intros ?. eexists. split; [done|lia]. Qed.

Lemma not_finite_Ok v : not_finite v = Ok false →
  is_number v = true ∧ ∃ x, to_float v = Ok x ∧ isfinite x = true.
Proof.
  unfold not_finite. destruct (is_number v); [|done]. intros H. repeat res_step. subst.
  split; [done|]. eexists. split; [done|]. by apply negb_false_iff.
Qed.

(** A finite number. *)
Definition finite_number (v : json) : Prop := is_number v = true ∧ ∃ x, to_float v = Ok x ∧ isfinite x = true.

Lemma protocol_error_if_Ok b msg u : protocol_error_if b msg = Ok u → b = false.
Proof. apply raise_if_Ok. Qed.

(** The fencing context of a role operation. *)
Definition fenced (d : list (string * json)) : Prop :=
  ∃ cluster epoch token, jget "cluster_id" d = JStr cluster ∧ cluster ≠ "" ∧
    jget "epoch" d = JInt epoch ∧ (0 ≤ epoch)%Z ∧ jget "fencing_token" d = JStr token ∧ token ≠ "".

Lemma role_operation_Ok op d : validate_role_operation float_repr op d = Ok () →
  fenced d ∧
  (op ∈ ["grant_capabilities"; "revoke_capabilities"; "sync_capability_grant"] → validate_grant op d = Ok ()).
Proof.
  unfold validate_role_operation, validate_role_params. intros H.
  apply bind_Ok in H as (u1 & _ & H). apply bind_Ok in H as (u2 & Hc%protocol_error_if_Ok & H).
  apply bind_Ok in H as (u3 & He%protocol_error_if_Ok & H).
  apply bind_Ok in H as (u4 & Ht%protocol_error_if_Ok & H).
  apply negb_false_iff in Hc, He, Ht. apply is_nonempty_text_Some in Hc as (c & Hc & Hcn), Ht as (t & Ht & Htn).
  apply is_natural_Some in He as (e & He & Hen). split; [by exists c, e, t|].
  intros Hop. rewrite (bool_decide_eq_true_2 (op ∈ ["grant_capabilities"; _; _])) in H by done.
  rewrite !bool_decide_eq_false_2 in H; [done|..]; intros ?; set_solver.
Qed.

(** The fields of a capability grant that is accepted. *)
Lemma accepted_grant op d : validate_grant op d = Ok () → op ≠ "revoke_capabilities" →
  ∃ names, jget "permissions" d = JList (JStr <$> names) ∧
    Forall (λ s, is_ok (NodePermission.of_value s) = true) names ∧
    (op = "grant_capabilities" → names ≠ []) ∧ finite_number (jget "expires_at" d).
Proof.
  unfold validate_grant. intros H Hop. rewrite (bool_decide_eq_false_2 (op = _)) in H by done.
  apply bind_Ok in H as (u1 & _ & H). apply bind_Ok in H as (u2 & _ & H).
  apply bind_Ok in H as (u3 & Hp%protocol_error_if_Ok & H).
  apply bind_Ok in H as (bad & Hb & ->%protocol_error_if_Ok). apply not_finite_Ok in Hb.
  destruct (jget "permissions" d) as [| | | | |l|]; try done.
  apply orb_false_iff in Hp as [Hne Hl]. rewrite existsb_false_iff in Hl.
  assert (Hn : ∃ names, l = JStr <$> names ∧ Forall (λ s, is_ok (NodePermission.of_value s) = true) names).
  { clear Hne. induction l as [|v l IH]; [by exists []|].
    destruct IH as (names & -> & Hf); [intros; apply Hl; set_solver|].
    specialize (Hl v ltac:(set_solver)). destruct v as [| | | |s| |]; try done.
    apply negb_false_iff, bool_decide_eq_true in Hl. exists (s :: names). split; [done|].
    constructor; [|done]. unfold _KNOWN_PERMISSION_VALUES in Hl.
    apply list_elem_of_fmap in Hl as (p & -> & _). by rewrite NodePermission.permission_of_value. }
  destruct Hn as (names & -> & Hf). exists names. split_and!; try done.
  intros ->. by destruct names.
Qed.

Lemma accepted_process item : validate_process item = Ok () → ∃ d pid, item = JObj d ∧
  jget "pid" d = JInt pid ∧ (0 ≤ pid)%Z ∧ finite_number (jget "create_time" d) ∧
  ∀ x, to_float (jget "create_time" d) = Ok x → fltb x (flit 0) = false.
Proof.
  unfold validate_process. destruct item as [| | | | | |d]; try done. intros H.
  apply bind_Ok in H as (u & Hp%protocol_error_if_Ok%negb_false_iff%is_natural_Some & H).
  destruct Hp as (pid & Hp & Hpn). apply bind_Ok in H as (bad & Hb & H).
  apply bind_Ok in H as (u' & ->%protocol_error_if_Ok & H). apply not_finite_Ok in Hb.
  apply bind_Ok in H as (x & Hx & H%protocol_error_if_Ok).
  exists d, pid. split_and!; try done; [apply Hb..|]. intros y Hy. congruence.
Qed.

(** Where a group of operations is dispatched: past the tests that it cannot meet. *)
Lemma past_group (l1 l2 : list string) x : bool_decide (Forall (λ x, x ∉ l2) l1) = true → x ∈ l1 →
  bool_decide (x ∈ l2) = false.
Proof.
  intros Hb Hx. apply bool_decide_eq_true in Hb. rewrite Forall_forall in Hb.
  apply bool_decide_eq_false_2. by apply Hb.
Qed.
Lemma past_name (l1 : list string) y x : bool_decide (y ∈ l1) = false → x ∈ l1 → bool_decide (x = y) = false.
Proof. intros Hb Hx. apply bool_decide_eq_false in Hb. apply bool_decide_eq_false_2. congruence. Qed.

Lemma validate_process_group op d : op ∈ ["process_request_quit"; "process_force_quit"] →
  validate op (JObj d) = Ok () → validate_process_action op d = Ok ().
Proof.
  intros Hp H. unfold validate_operation_params in H. apply bind_Ok in H as (u & _ & H).
  set (G := ["process_request_quit"; "process_force_quit"]) in *.
  rewrite (past_group G NO_PARAM_OPERATIONS), (past_name G "capability_request"), (past_group G SURFACE_OPERATIONS),
    (past_name G "component_summary") in H by (done || by vm_compute).
  by rewrite bool_decide_eq_true_2 in H.
Qed.

Lemma validate_role_group op d : op ∈ ROLE_OPERATIONS →
  validate op (JObj d) = Ok () → validate_role_operation float_repr op d = Ok ().
Proof.
  intros Hr H. unfold validate_operation_params in H. apply bind_Ok in H as (u & _ & H).
  rewrite (past_group ROLE_OPERATIONS NO_PARAM_OPERATIONS), (past_name ROLE_OPERATIONS "capability_request"),
    (past_group ROLE_OPERATIONS SURFACE_OPERATIONS), (past_name ROLE_OPERATIONS "component_summary"),
    (past_group ROLE_OPERATIONS ["process_request_quit"; "process_force_quit"]) in H by (done || by vm_compute).
  by rewrite bool_decide_eq_true_2 in H.
Qed.

Lemma process_action_Ok op d : validate_process_action op d = Ok () →
  jget "action" d = JStr (if bool_decide (op = "process_request_quit") then "request_quit" else "force_quit") ∧
  ∃ l, jget "processes" d = JList l ∧ l ≠ [] ∧
    Forall (λ item, ∃ p pid, item = JObj p ∧ jget "pid" p = JInt pid ∧ (0 ≤ pid)%Z ∧
      finite_number (jget "create_time" p)) l.
Proof.
  unfold validate_process_action. intros H.
  apply bind_Ok in H as (l & Hl & H). apply bind_Ok in H as (us & Hus & H).
  apply bind_Ok in H as (u' & Ha%protocol_error_if_Ok%negb_false_iff & _). split.
  { destruct (jget "action" d); try done. by apply bool_decide_eq_true in Ha as ->. }
  destruct (jget "processes" d) as [| | | | |[|p l']|]; try done. injection Hl as <-.
  eexists. split_and!; [done|done|]. apply mapM_Ok_inv in Hus.
  apply Forall_forall. intros item Hi. apply list_elem_of_lookup in Hi as [i Hi].
  eapply Forall2_lookup_l in Hus as (y & _ & Hy); [|done]. destruct y.
  apply accepted_process in Hy as (p' & pid & ? & ? & ? & ? & _). eauto 8.
Qed.

(** What the check lets through: an accepted call names a known operation and has an
    object of parameters. A role operation carries a non-empty cluster id, a natural
    epoch and a non-empty fencing token; a capability grant names only known permissions,
    at least one of them, with a finite expiry; a process action lists processes by
    natural pid and finite creation time under the action of that operation; an
    operation without parameters has none. *)
Theorem accepted_params_are_bound op params : validate op params = Ok () →
  ∃ d, params = JObj d ∧ od_mem op OP_REQUIRED_CAPABILITY = true ∧
    (op ∈ NO_PARAM_OPERATIONS → d = []) ∧
    (op ∈ ROLE_OPERATIONS → fenced d) ∧
    (op ∈ ["grant_capabilities"; "sync_capability_grant"] →
       ∃ names, jget "permissions" d = JList (JStr <$> names) ∧
         Forall (λ s, is_ok (NodePermission.of_value s) = true) names ∧
         (op = "grant_capabilities" → names ≠ []) ∧ finite_number (jget "expires_at" d)) ∧
    (op ∈ ["process_request_quit"; "process_force_quit"] →
       jget "action" d = JStr (if bool_decide (op = "process_request_quit") then "request_quit" else "force_quit") ∧
       ∃ l, jget "processes" d = JList l ∧ l ≠ [] ∧
         Forall (λ item, ∃ p pid, item = JObj p ∧ jget "pid" p = JInt pid ∧ (0 ≤ pid)%Z ∧
           finite_number (jget "create_time" p)) l).
Proof.
  intros H. pose proof H as Hv. unfold validate_operation_params in Hv.
  apply bind_Ok in Hv as (u & Hop%protocol_error_if_Ok%negb_false_iff & Hv).
  destruct params as [| | | | | |d]; try done. exists d. split; [done|]. split; [done|].
  split; [|split; [|split]].
  - intros Hn. rewrite (bool_decide_eq_true_2 (op ∈ NO_PARAM_OPERATIONS)) in Hv by done.
    apply protocol_error_if_Ok in Hv. by destruct d.
  - intros Hr. apply validate_role_group in H; [|done]. by apply role_operation_Ok in H as [? _].
  - intros Hg. assert (Hrole : op ∈ ROLE_OPERATIONS).
    { apply elem_of_cons in Hg as [->|Hg]; [|apply list_elem_of_singleton in Hg as ->];
        apply (bool_decide_unpack _); vm_compute; exact I. }
    apply validate_role_group in H; [|done]. apply role_operation_Ok in H as [_ H].
    apply accepted_grant; [apply H|]; set_solver.
  - intros Hp. apply process_action_Ok. by apply validate_process_group.
Qed.

(** ** Errors *)

(** The call returns or raises a protocol error, unless [huge] holds and it overflows. *)
Definition raises_protocol {A} (huge : exn → Prop) (r : result A) : Prop :=
  ∀ e, r = Err e → exn_isa e RemoteProtocolError = true ∨ exn_cls e = OverflowError ∧ huge e.

Lemma rp_bind {A B} huge (m : result A) (f : A → result B) :
  raises_protocol huge m → (∀ a, m = Ok a → raises_protocol huge (f a)) → raises_protocol huge (m ≫= f).
Proof. intros Hm Hf e. destruct m as [a|e']; simpl; intros H; [by apply (Hf a)|apply Hm; congruence]. Qed.

Lemma rp_Ok {A} huge (a : A) : raises_protocol huge (Ok a).
Proof. intros e; done. Qed.

Lemma rp_raise {A} huge msg : raises_protocol huge (raise (A:=A) RemoteProtocolError msg).
Proof. intros e [= <-]. by left. Qed.

Lemma rp_error_if huge b msg : raises_protocol huge (protocol_error_if b msg).
Proof. destruct b; [apply rp_raise|apply rp_Ok]. Qed.

Lemma float_of_Z_overflow z e : float_of_Z z = Err e → exn_cls e = OverflowError.
Proof. unfold float_of_Z. case_match; [done|]. by intros [= <-]. Qed.

(** A number of the call that no float can hold. *)
Definition huge_number (v : json) (e : exn) : Prop := ∃ z, v = JInt z ∧ float_of_Z z = Err e.

Lemma to_float_huge v e : is_number v = true → to_float v = Err e →
  exn_cls e = OverflowError ∧ huge_number v e.
Proof. destruct v; try done. intros _ H. split; [by eapply float_of_Z_overflow|by eexists]. Qed.

Lemma rp_not_finite (huge : exn → Prop) v : (∀ e, huge_number v e → huge e) → raises_protocol huge (not_finite v).
Proof.
  intros Hh. unfold not_finite. destruct (is_number v) eqn:Hn; [|apply rp_Ok].
  intros e He. right. destruct (to_float v) eqn:Hx; simplify_eq/=.
  destruct (to_float_huge v e Hn Hx). auto.
Qed.

Lemma rp_process (huge : exn → Prop) item :
  (∀ p e, item = JObj p → huge_number (jget "create_time" p) e → huge e) →
  raises_protocol huge (validate_process item).
Proof.
  intros Hh. destruct item as [| | | | | |d]; try apply rp_raise. simpl.
  apply rp_bind; [apply rp_error_if|]. intros _ _.
  apply rp_bind; [apply rp_not_finite; eauto|]. intros bad Hb.
  apply rp_bind; [apply rp_error_if|]. intros u ->%protocol_error_if_Ok. apply not_finite_Ok in Hb.
  destruct Hb as (_ & x & -> & _). apply rp_error_if.
Qed.

Lemma rp_mapM {A B} huge (f : A → result B) l : (∀ x, x ∈ l → raises_protocol huge (f x)) →
  raises_protocol huge (mapM f l).
Proof.
  induction l as [|x l IH]; intros H; simpl; [apply rp_Ok|].
  apply rp_bind; [apply H; set_solver|]. intros y _. apply rp_bind; [apply IH; intros; apply H; set_solver|].
  intros k _. apply rp_Ok.
Qed.

Lemma rp_surface huge op params :
  raises_protocol huge (validate_surface_operation_params float_repr op params RemoteProtocolError).
Proof.
  unfold validate_surface_operation_params. apply rp_bind; [apply rp_error_if|]. intros _ _.
  destruct params; try apply rp_raise. apply rp_bind; [apply rp_error_if|]. intros _ _.
  assert (Hf : ∀ f, raises_protocol huge (surface_field op d RemoteProtocolError f)).
  { intros f. unfold surface_field. destruct (od_get f d); [apply rp_error_if|apply rp_Ok]. }
  apply rp_bind; [apply Hf|]. intros _ _. apply rp_bind; [apply Hf|]. intros _ _.
  apply rp_bind; [apply rp_error_if|]. intros _ _.
  destruct (dumps float_repr false _) as [t|e] eqn:Hd; [apply rp_Ok|].
  destruct (exn_isa e TypeError || exn_isa e ValueError) eqn:He; [apply rp_raise|].
  exfalso. apply dumps_ValueError in Hd. by rewrite Hd, orb_true_r in He.
Qed.

Lemma rp_grant (huge : exn → Prop) op d : (∀ e, huge_number (jget "expires_at" d) e → huge e) →
  raises_protocol huge (validate_grant op d).
Proof.
  intros Hh. unfold validate_grant. do 2 (apply rp_bind; [apply rp_error_if|]; intros _ _).
  destruct (bool_decide (op = "revoke_capabilities")); [apply rp_Ok|].
  apply rp_bind; [apply rp_error_if|]. intros _ _.
  apply rp_bind; [by apply rp_not_finite|]. intros; apply rp_error_if.
Qed.

Lemma rp_snapshot huge d : raises_protocol huge (validate_snapshot float_repr d).
Proof.
  unfold validate_snapshot. destruct (jget "payload" d); try apply rp_raise.
  destruct (dumps float_repr false _) as [t|e] eqn:Hd; [apply rp_error_if|].
  rewrite (dumps_ValueError _ _ _ _ Hd), orb_true_r. apply rp_raise.
Qed.

Lemma rp_role (huge : exn → Prop) op d : (∀ e, huge_number (jget "expires_at" d) e → huge e) →
  raises_protocol huge (validate_role_operation float_repr op d).
Proof.
  intros Hh. unfold validate_role_operation, validate_role_params. do 4 (apply rp_bind; [apply rp_error_if|]; intros _ _).
  do 4 (case_bool_decide; [first [apply rp_error_if | by apply rp_grant |
    apply rp_bind; [apply rp_error_if|]; intros _ _; apply rp_error_if]|]).
  apply rp_snapshot.
Qed.

Lemma rp_process_action (huge : exn → Prop) op d :
  (∀ l p e, jget "processes" d = JList l → JObj p ∈ l → huge_number (jget "create_time" p) e → huge e) →
  raises_protocol huge (validate_process_action op d).
Proof.
  intros Hh. unfold validate_process_action.
  apply rp_bind; [destruct (jget "processes" d) as [| | | | |[]|]; first [apply rp_raise|apply rp_Ok]|].
  intros l Hl. apply rp_bind.
  - apply rp_mapM. intros item Hi. apply rp_process. intros p e -> He.
    destruct (jget "processes" d) as [| | | | |[|x l']|] eqn:E; try done. injection Hl as <-.
    by eapply Hh.
  - intros _ _. apply rp_bind; [apply rp_error_if|]. intros _ _. apply rp_error_if.
Qed.

(** What the check raises: always a [RemoteProtocolError], except that an expiry or a process
    creation time given as an integer beyond the range of floats raises the
    [OverflowError] of its conversion. *)
Theorem validation_errors op params e : validate op params = Err e →
  exn_isa e RemoteProtocolError = true ∨
  exn_cls e = OverflowError ∧ ∃ d, params = JObj d ∧
    (huge_number (jget "expires_at" d) e ∨
     ∃ l p, jget "processes" d = JList l ∧ JObj p ∈ l ∧ huge_number (jget "create_time" p) e).
Proof.
  set (huge := λ e : exn, ∃ d, params = JObj d ∧
    (huge_number (jget "expires_at" d) e ∨
     ∃ l p, jget "processes" d = JList l ∧ JObj p ∈ l ∧ huge_number (jget "create_time" p) e)).
  revert e.
  change (raises_protocol huge (validate op params)). unfold validate_operation_params.
  apply rp_bind; [apply rp_error_if|]. intros _ _. destruct params as [| | | | | |d]; try apply rp_raise.
  assert (Hexpiry : ∀ e, huge_number (jget "expires_at" d) e → huge e) by (intros e He; exists d; auto).
  case_bool_decide; [apply rp_error_if|]. case_bool_decide.
  { unfold validate_capability_request. do 2 (apply rp_bind; [apply rp_error_if|]; intros _ _).
    apply rp_error_if. }
  case_bool_decide; [apply rp_surface|]. case_bool_decide; [apply rp_error_if|]. case_bool_decide.
  { apply rp_process_action. intros l p e Hl Hp He. exists d. split; [done|]. right. by exists l, p. }
  case_bool_decide; [by apply rp_role|apply rp_error_if].
Qed.
End spec.

(** ** Concrete calls *)

Definition sample_grant_params (expiry : json) : json :=
  JObj [("cluster_id", JStr "c"); ("epoch", JInt 1); ("fencing_token", JStr "t");
        ("subject_node_id", JStr "s"); ("target_node_id", JStr "w");
        ("permissions", JList [JStr "read_state"]); ("expires_at", expiry)].

Definition sample_text (_ : float) : string := "1.0".

Lemma accepted_params_are_bound_witness :
  ∃ d, sample_grant_params (JFloat (flit 5)) = JObj d ∧ od_mem "grant_capabilities" OP_REQUIRED_CAPABILITY = true.
Proof.
  destruct (accepted_params_are_bound sample_text "grant_capabilities" (sample_grant_params (JFloat (flit 5))))
    as (d & Hd & Hop & _); [vm_compute; reflexivity|]. exists d. exact (conj Hd Hop).
Defined.

(** An expiry that no float can hold escapes as [OverflowError]. *)
Lemma validation_errors_witness :
  ∃ e, validate_operation_params sample_text "grant_capabilities" (sample_grant_params (JInt (2 ^ 1024))) = Err e ∧
    (exn_isa e RemoteProtocolError = true ∨ exn_cls e = OverflowError).
Proof.
  eexists. split; [vm_compute; reflexivity|].
  match goal with |- exn_isa ?e _ = true ∨ _ =>
    destruct (validation_errors sample_text "grant_capabilities" (sample_grant_params (JInt (2 ^ 1024))) e)
      as [H|[H _]] end; [vm_compute; reflexivity|left; exact H|right; exact H].
Defined.

(** An integer expiry of 1025 bits is not refused as malformed. *)
Lemma huge_expiry_overflows :
  validate_operation_params sample_text "grant_capabilities" (sample_grant_params (JInt (2 ^ 1024)))
  = raise OverflowError "int too large to convert to float".
Proof. vm_compute. reflexivity. Qed.
