(* ===== verification/StateCodec.v ===== *)
(** * The persisted form of the cluster ([cluster/state.py], [cluster/operations.py])

    [role_state_to_dict], [role_state_from_dict], [ClusterState.to_dict], [from_dict] and
    [invite_to_dict] on JSON documents.  A float is kept as a float: the text or the YAML
    around the document is not modelled here. *)

From S2P Require Import Prelude PyFloat Identity ClusterModels Roles RolesFacts Operations PyJson.

(** ** Sorting *)

Section isort.
Context {A : Type} (leb : A → A → bool).
Fixpoint insert_sorted (x : A) (l : list A) : list A :=
  match l with
  | [] => [x]
  | y :: l' => if leb x y then x :: l else y :: insert_sorted x l'
  end.
(** [sorted(l)] *)
Definition sorted (l : list A) : list A := foldr insert_sorted [] l.

Lemma insert_sorted_perm x l : insert_sorted x l ≡ₚ x :: l.
Proof.
  induction l as [|y l IH]; simpl; [done|]. case_match; [done|]. rewrite IH. apply Permutation_swap.
Qed.
Lemma sorted_perm l : sorted l ≡ₚ l.
Proof. induction l as [|x l IH]; simpl; [done|]. by rewrite insert_sorted_perm, IH. Qed.
End isort.

(** The values of a set: of its only element, or sorted. *)
Definition set_values {A} (value : A → string) (l : list A) : list string :=
  match l with [x] => [value x] | _ => sorted str_leb (value <$> l) end.

(** ** [role_state_to_dict] *)

Definition assignment_to_dict (legacy : bool) (a : RoleAssignment) : result (option json) :=
  match RoleAssignment.node_id a with
  | None => Ok None
  | Some n =>
      let roles := set_values ClusterRole.value (elements (RoleAssignment.roles a)) in
      let item := [("node_id", JStr (value n)); ("roles", JList (JStr <$> roles));
                   ("paused", JBool (RoleAssignment.paused a));
                   ("revoked", JBool (RoleAssignment.revoked a));
                   ("has_active_job", JBool (RoleAssignment.has_active_job a))] in
      if legacy
      then first ← of_option (head roles) IndexError "list index out of range";
           Ok (Some (JObj (od_set "role" (JStr first) item)))
      else Ok (Some (JObj item))
  end.

Definition epoch_to_dict (e : CoordinatorEpoch.t) : json :=
  JObj [("epoch", JInt (CoordinatorEpoch.epoch e));
        ("coordinator_id", JStr (value (CoordinatorEpoch.coordinator_id e)));
        ("fencing_token", JStr (CoordinatorEpoch.fencing_token e));
        ("issued_at", JFloat (CoordinatorEpoch.issued_at e));
        ("lease_expires_at", JFloat (CoordinatorEpoch.lease_expires_at e))].

Definition grant_to_dict (g : CapabilityGrant.t) : json :=
  JObj [("subject", JStr (value (CapabilityGrant.subject g)));
        ("target", JStr (value (CapabilityGrant.target g)));
        ("permissions", JList (JStr <$> set_values NodePermission.value
                                          (elements (CapabilityGrant.permissions g))));
        ("issued_at", JFloat (CapabilityGrant.issued_at g));
        ("expires_at", JFloat (CapabilityGrant.expires_at g))].

Definition role_state_to_dict (state : RoleState.t) (include_legacy_role : bool)
    : result (list (string * json)) :=
  assignments ← mapM (assignment_to_dict include_legacy_role) (RoleState.assignments state);
  Ok [("assignments", JList (omap id assignments));
      ("epoch", match RoleState.epoch state with Some e => epoch_to_dict e | None => JNull end);
      ("promotion_epochs", JList (JInt <$> sorted Z.leb (elements (RoleState.promotion_epochs state))));
      ("capability_grants", JList (grant_to_dict <$> RoleState.capability_grants state))].

(** ** [role_state_from_dict] *)

Definition _finite_number (v : json) (field : string) : result float :=
  raise_if (negb (is_number v)) ValueError (field +:+ " is malformed");;
  x ← to_float v;
  raise_if (negb (isfinite x)) ValueError (field +:+ " is malformed");;
  Ok x.

(** A member that is a boolean when present. *)
Definition optional_bool (d : list (string * json)) (field : string) : result bool :=
  match od_get field d with
  | None => Ok false
  | Some (JBool b) => Ok b
  | Some _ => raise ValueError "role assignment boolean is malformed"
  end.

Definition parse_assignment (raw : json) : result RoleAssignment :=
  d ← of_option (is_obj raw) TypeError "role assignment is malformed";
  let roles := match jget "roles" d, jget "role" d with
               | JNull, JStr r => JList [JStr r]
               | roles, _ => roles
               end in
  node ← of_option (is_str (jget "node_id" d)) ValueError "role assignment is malformed";
  items ← of_option (is_list roles ≫= all_str) ValueError "role assignment is malformed";
  paused ← optional_bool d "paused";
  revoked ← optional_bool d "revoked";
  _ ← optional_bool d "has_active_job";
  values ← mapM ClusterRole.of_value items;
  n ← NodeId.__post_init__ node;
  RoleAssignment.__post_init__ (list_to_set values) (Some n) paused revoked false.

Definition parse_epoch (raw : json) : result (option CoordinatorEpoch.t) :=
  match raw with
  | JNull => Ok None
  | JObj d =>
      epoch ← of_option (is_int (jget "epoch" d)) ValueError "epoch is malformed";
      raise_if (epoch <? 0)%Z ValueError "epoch is malformed";;
      coordinator ← of_option (is_str (jget "coordinator_id" d)) ValueError "epoch is malformed";
      token ← of_option (is_str (jget "fencing_token" d)) ValueError "epoch is malformed";
      raise_if (bool_decide (token = "")) ValueError "epoch is malformed";;
      c ← NodeId.__post_init__ coordinator;
      issued_at ← _finite_number (jget "issued_at" d) "epoch issued_at";
      expires ← _finite_number (jget "lease_expires_at" d) "epoch lease_expires_at";
      Some <$> CoordinatorEpoch.__post_init__ epoch c token issued_at expires
  | _ => raise ValueError "epoch is malformed"
  end.

Definition parse_promotions (raw : json) : result (gset Z) :=
  items ← of_option (is_list raw ≫= mapM is_int) ValueError "promotion epochs are malformed";
  raise_if (existsb (λ z, (z <? 0)%Z) items) ValueError "promotion epochs are malformed";;
  Ok (list_to_set items).

Definition parse_grant (raw : json) : result CapabilityGrant.t :=
  d ← of_option (is_obj raw) ValueError "capability grant is malformed";
  subject ← of_option (is_str (jget "subject" d)) ValueError "capability grant is malformed";
  target ← of_option (is_str (jget "target" d)) ValueError "capability grant is malformed";
  items ← of_option (is_list (jget "permissions" d) ≫= all_str) ValueError "capability grant is malformed";
  s ← NodeId.__post_init__ subject;
  t ← NodeId.__post_init__ target;
  permissions ← mapM NodePermission.of_value items;
  issued_at ← _finite_number (jget "issued_at" d) "grant issued_at";
  expires_at ← _finite_number (jget "expires_at" d) "grant expires_at";
  CapabilityGrant.__post_init__ s t (list_to_set permissions) issued_at expires_at.

Definition role_state_from_dict (v : json) : result RoleState.t :=
  d ← of_option (is_obj v) TypeError "role state is malformed";
  of_option (is_list (jget_or "assignments" (JList []) d)) TypeError "role state is malformed";;
  raw ← of_option (od_get "assignments" d ≫= is_list) KeyError "assignments";
  assignments ← mapM parse_assignment raw;
  epoch ← parse_epoch (jget "epoch" d);
  promotions ← parse_promotions (jget_or "promotion_epochs" (JList []) d);
  grants ← of_option (is_list (jget_or "capability_grants" (JList []) d)) TypeError
             "capability grants are malformed";
  grants ← mapM parse_grant grants;
  RoleState.__post_init__ assignments epoch promotions grants.

(** ** [ClusterState] *)

Definition invite_to_dict (i : InviteRecord.t) : json :=
  JObj [("token_hash", JStr (InviteRecord.token_hash i));
        ("target_node_id", JStr (InviteRecord.target_node_id i));
        ("expires_at", JFloat (InviteRecord.expires_at i));
        ("cluster_id", JStr (InviteRecord.cluster_id i));
        ("coordinator_id", JStr (InviteRecord.coordinator_id i));
        ("epoch", JInt (InviteRecord.epoch i));
        ("fencing_token", JStr (InviteRecord.fencing_token i))].

Definition to_dict (s : ClusterState.t) : result json :=
  state ← RoleState.__post_init__ (ClusterState.role_assignments s) (ClusterState.coordinator_epoch s)
            (ClusterState.promotion_epochs s) (ClusterState.capability_grants s);
  d ← role_state_to_dict state true;
  Ok (JObj (od_update d
    [("schema_version", JInt 2);
     ("cluster_id", JStr (ClusterState.cluster_id s));
     ("local_node_id", JStr (ClusterState.local_node_id s));
     ("local_id", JStr (ClusterState.local_node_id s));
     ("active_invites", JList (invite_to_dict <$> ClusterState.active_invites s));
     ("join_admissions", JList (invite_to_dict <$> ClusterState.join_admissions s));
     ("used_invites", JList (JStr <$> sorted str_leb (elements (ClusterState.used_invites s))))])).

(** [v == 2] *)
Definition equals_two (v : json) : bool :=
  match v with
  | JInt z => (z =? 2)%Z
  | JFloat f => feqb f (flit 2)
  | _ => false
  end.

(** [item.get(field, "")] when it is text. *)
Definition text_or_empty (d : list (string * json)) (field : string) : option string :=
  is_str (jget_or field (JStr "") d).

Definition parse_invite (field : string) (item : json) : result InviteRecord.t :=
  let bad {A} : result A := raise ClusterDataError (field +:+ " is malformed") in
  match item with
  | JObj d =>
      match is_str (jget "token_hash" d), text_or_empty d "target_node_id", text_or_empty d "cluster_id",
            text_or_empty d "coordinator_id", text_or_empty d "fencing_token", is_int (jget "epoch" d) with
      | Some hash, Some target, Some cluster, Some coordinator, Some fence, Some epoch =>
          if bool_decide (hash = "") || (epoch <? 0)%Z || negb (is_number (jget "expires_at" d)) then bad
          else
            expiry ← to_float (jget "expires_at" d);
            if negb (isfinite expiry) then bad
            else InviteRecord.__post_init__ hash target expiry "" cluster coordinator epoch fence
      | _, _, _, _, _, _ => bad
      end
  | _ => bad
  end.

Definition parse_invites (raw : json) (plural singular : string) : result (list InviteRecord.t) :=
  items ← of_option (is_list raw) ClusterDataError (plural +:+ " are malformed");
  mapM (parse_invite singular) items.

Definition is_lower_hex (c : Ascii.ascii) : bool :=
  let n := Ascii.nat_of_ascii c in (Nat.leb 48 n && Nat.leb n 57) || (Nat.leb 97 n && Nat.leb n 102).

(** 64 lower-case hexadecimal digits. *)
Definition is_digest (s : string) : bool :=
  (py_len s =? 64)%Z && forallb is_lower_hex (String.list_ascii_of_string s).

Section from_dict.
Context (sha256_hex : string → string).

(** The assignments under the older name, the epoch in the older flat form. *)
Definition migrate (d : list (string * json)) : list (string * json) :=
  let d := if od_mem "assignments" d then d
           else match od_get "role_assignments" d with
                | Some a => od_set "assignments" a d
                | None => d
                end in
  match jget "epoch" d with
  | JInt z => od_set "epoch" (JObj [("epoch", JInt z); ("coordinator_id", jget "coordinator_id" d);
                ("fencing_token", jget "fencing_token" d); ("issued_at", JFloat (flit 0));
                ("lease_expires_at", JFloat (flit 0))]) d
  | _ => d
  end.

Definition from_dict (v : json) : result ClusterState.t :=
  match v with
  | JObj d =>
      raise_if (negb (equals_two (jget_or "schema_version" (JInt 2) d))) ClusterDataError
        "cluster state is malformed";;
      role_state ← role_state_from_dict (JObj (migrate d));
      let text v := match v with JStr s => if bool_decide (s = "") then None else Some s | _ => None end in
      local ← of_option (text (jget_or "local_node_id" (jget_or "local_id" (JStr "local") d) d))
                ClusterDataError "cluster identity is malformed";
      cluster_id ← of_option (text (jget_or "cluster_id" (JStr "local-cluster") d))
                ClusterDataError "cluster identity is malformed";
      invites ← parse_invites (jget_or "active_invites" (JList []) d) "active invites" "active invite";
      admissions ← parse_invites (jget_or "join_admissions" (JList []) d) "join admissions" "join admission";
      used ← of_option (is_list (jget_or "used_invites" (JList []) d) ≫= mapM text) ClusterDataError
               "used invites are malformed";
      Ok (ClusterState.mk local cluster_id (RoleState.assignments role_state) (RoleState.epoch role_state)
            invites admissions
            (list_to_set ((λ s, if is_digest s then s else sha256_hex s) <$> used))
            (RoleState.promotion_epochs role_state) (RoleState.capability_grants role_state))
  | _ => raise ClusterDataError "cluster state is malformed"
  end.
End from_dict.

(** * Saving a cluster and reading it back *)

(** ** Sets as sorted lists *)

Lemma set_values_perm {A} (val : A → string) l : set_values val l ≡ₚ val <$> l.
Proof. unfold set_values. destruct l as [|x [|y l]]; try apply sorted_perm. done. Qed.

Lemma perm_fmap_inv {A B} (f : A → B) l k : k ≡ₚ f <$> l → ∃ l', k = f <$> l' ∧ l' ≡ₚ l.
Proof. intros Hp. apply Permutation_map_inv in Hp as (l' & -> & Hl). exists l'. by split. Qed.

(** The values of a set read back to the set. *)
Lemma set_values_read {A} `{Countable A} (val : A → string) (of_val : string → result A) (X : gset A) :
  (∀ x, of_val (val x) = Ok x) →
  ∃ l, mapM of_val (set_values val (elements X)) = Ok l ∧ (list_to_set l : gset A) = X.
Proof.
  intros Hv. destruct (perm_fmap_inv val (elements X) _ (set_values_perm val (elements X))) as (l & -> & Hl).
  exists l. split.
  - clear Hl. induction l as [|x l IH]; [done|]. cbn. rewrite Hv. cbn. cbn in IH. by rewrite IH.
  - apply set_eq. intros x. rewrite elem_of_list_to_set, Hl. apply elem_of_elements.
Qed.

Lemma all_str_texts l : all_str (JStr <$> l) = Some l.
Proof. unfold all_str. apply mapM_Some. induction l; constructor; auto. Qed.

Lemma node_run n : NodeId.valid n → NodeId.__post_init__ (value n) = Ok n.
Proof. done. Qed.

(** ** Assignments, epochs and grants *)

(** What is read back of an assignment: a job does not survive a restart. *)
Definition idle (a : RoleAssignment) : RoleAssignment :=
  RoleAssignment.mk (RoleAssignment.roles a) (RoleAssignment.node_id a) (RoleAssignment.paused a)
    (RoleAssignment.revoked a) false.

Definition valid_id (o : option NodeId) : Prop := ∀ n, o = Some n → NodeId.valid n.

Lemma assignment_run a : RoleAssignment.valid a → valid_id (RoleAssignment.node_id a) →
  ∃ o, assignment_to_dict true a = Ok o ∧
    match o with
    | Some v => is_bound a = true ∧ parse_assignment v = Ok (idle a)
    | None => is_bound a = false
    end.
Proof.
  intros [Hne Hc Hx Hf] Hid. unfold assignment_to_dict, is_bound.
  destruct (RoleAssignment.node_id a) as [n|] eqn:En; [|by exists None].
  destruct (set_values_read ClusterRole.value ClusterRole.of_value (RoleAssignment.roles a)
    ClusterRole.cluster_role_of_value) as (rs & Hrs & Hset).
  destruct (set_values ClusterRole.value (elements (RoleAssignment.roles a))) as [|r rest] eqn:Ev.
  { exfalso. apply Hne. rewrite <- Hset. simpl in Hrs. by injection Hrs as <-. }
  cbn [head of_option mbind result_bind]. eexists. split; [done|]. split; [done|].
  assert (Hpost : RoleAssignment.__post_init__ (RoleAssignment.roles a) (Some n) (RoleAssignment.paused a)
            (RoleAssignment.revoked a) false = Ok (idle a)).
  { unfold idle. rewrite En. apply RoleAssignment.__post_init__roles; [by split|done]. }
  unfold parse_assignment. simpl. unfold jget. simpl.
  rewrite all_str_texts. cbn. cbn in Hrs. rewrite Hrs. cbn.
  rewrite (Hid n) by done. cbn. cbn in Hset. rewrite Hset. exact Hpost.
Qed.

Lemma epoch_run e : CoordinatorEpoch.valid e → NodeId.valid (CoordinatorEpoch.coordinator_id e) →
  parse_epoch (epoch_to_dict e) = Ok (Some e).
Proof.
  intros Hv Hn. pose proof (CoordinatorEpoch.valid_facts _ Hv) as (He & Hi & Hl & _).
  assert (Ht : CoordinatorEpoch.fencing_token e ≠ "").
  { intros E. unfold CoordinatorEpoch.valid, CoordinatorEpoch.__post_init__ in Hv.
    rewrite E, (bool_decide_eq_true_2 ("" = "")), orb_true_r in Hv by done. done. }
  unfold parse_epoch, epoch_to_dict, jget, _finite_number.
  simpl. rewrite (proj2 (Z.ltb_ge _ _)), bool_decide_eq_false_2, Hn by done.
  cbn -[isfinite CoordinatorEpoch.__post_init__]. rewrite Hi, Hl. cbn -[CoordinatorEpoch.__post_init__].
  unfold CoordinatorEpoch.valid in Hv. by rewrite Hv.
Qed.

Lemma parse_grant_run g : CapabilityGrant.valid g → NodeId.valid (CapabilityGrant.subject g) →
  NodeId.valid (CapabilityGrant.target g) → parse_grant (grant_to_dict g) = Ok g.
Proof.
  intros Hv Hs Ht.
  assert (Hfin : isfinite (CapabilityGrant.issued_at g) = true ∧ isfinite (CapabilityGrant.expires_at g) = true).
  { unfold CapabilityGrant.valid, CapabilityGrant.__post_init__ in Hv.
    destruct (isfinite (CapabilityGrant.issued_at g)), (isfinite (CapabilityGrant.expires_at g));
      rewrite ?orb_true_r in Hv; try done. }
  destruct Hfin as [Hi He].
  destruct (set_values_read NodePermission.value NodePermission.of_value (CapabilityGrant.permissions g)
    NodePermission.permission_of_value) as (ps & Hps & Hset).
  unfold parse_grant, grant_to_dict, jget, _finite_number. simpl. rewrite all_str_texts. simpl.
  rewrite Hs, Ht. simpl. simpl in Hps. rewrite Hps. simpl. rewrite Hi, He. simpl. simpl in Hset. rewrite Hset.
  exact Hv.
Qed.

(** ** The aggregate *)

(** What a cluster's state satisfies: the topology is well formed and its parts valid. *)
Record storable (s : ClusterState.t) : Prop := {
  st_shape : shape (ClusterState.role_assignments s) (ClusterState.promotion_epochs s)
               (ClusterState.capability_grants s);
  st_assignments : Forall (λ a, RoleAssignment.valid a ∧ valid_id (RoleAssignment.node_id a))
                     (ClusterState.role_assignments s);
  st_epoch : ∀ e, ClusterState.coordinator_epoch s = Some e →
    CoordinatorEpoch.valid e ∧ NodeId.valid (CoordinatorEpoch.coordinator_id e);
  st_grants : Forall (λ g, CapabilityGrant.valid g ∧ NodeId.valid (CapabilityGrant.subject g) ∧
                NodeId.valid (CapabilityGrant.target g)) (ClusterState.capability_grants s);
  st_invites : Forall (λ i, InviteRecord.valid i ∧ (0 ≤ InviteRecord.epoch i)%Z)
                 (ClusterState.active_invites s ++ ClusterState.join_admissions s);
  st_local : ClusterState.local_node_id s ≠ "";
  st_cluster : ClusterState.cluster_id s ≠ "";
  st_used : ∀ d, d ∈ ClusterState.used_invites s → is_digest d = true }.

Definition forget_token (i : InviteRecord.t) : InviteRecord.t :=
  InviteRecord.mk (InviteRecord.token_hash i) (InviteRecord.target_node_id i) (InviteRecord.expires_at i) ""
    (InviteRecord.cluster_id i) (InviteRecord.coordinator_id i) (InviteRecord.epoch i)
    (InviteRecord.fencing_token i).

(** What is read back: no jobs, no one-time tokens, no assignments without a node. *)
Definition restored (s : ClusterState.t) : ClusterState.t :=
  ClusterState.mk (ClusterState.local_node_id s) (ClusterState.cluster_id s)
    (idle <$> List.filter is_bound (ClusterState.role_assignments s)) (ClusterState.coordinator_epoch s)
    (forget_token <$> ClusterState.active_invites s) (forget_token <$> ClusterState.join_admissions s)
    (ClusterState.used_invites s) (ClusterState.promotion_epochs s) (ClusterState.capability_grants s).

Lemma assignments_run l : Forall (λ a, RoleAssignment.valid a ∧ valid_id (RoleAssignment.node_id a)) l →
  ∃ os, mapM (assignment_to_dict true) l = Ok os ∧
    mapM parse_assignment (omap id os) = Ok (idle <$> List.filter is_bound l).
Proof.
  induction 1 as [|a l [Hv Hid] _ (os & Hos & Hps)]; [by exists []|].
  destruct (assignment_run a Hv Hid) as (o & Ho & Hp). exists (o :: os). cbn. rewrite Ho. cbn.
  cbn in Hos. rewrite Hos. split; [done|].
  destruct o as [v|]; [destruct Hp as [Hb Hp]; rewrite Hb|by rewrite Hp].
  cbn. rewrite Hp. cbn. cbn in Hps. by rewrite Hps.
Qed.

Lemma shape_idle l p g : shape l p g → shape (idle <$> List.filter is_bound l) p g.
Proof.
  intros [Hi Hc Hs Hk Hp].
  assert (Hids : ids (idle <$> List.filter is_bound l) = ids l).
  { rewrite <- (ids_bound l). induction (List.filter is_bound l) as [|a k IH]; [done|].
    rewrite fmap_cons, !ids_cons, IH. done. }
  assert (Hu : ∀ r, uniq r l → uniq r (idle <$> List.filter is_bound l)).
  { intros r Hr x y n m Hx Hy Hn Hm Hax Hay.
    apply list_elem_of_fmap in Hx as (a & -> & [_ Ha]%elem_of_lfilter).
    apply list_elem_of_fmap in Hy as (b & -> & [_ Hb]%elem_of_lfilter).
    by apply (Hr a b). }
  split; auto. by rewrite Hids.
Qed.

Lemma promotions_run (p : gset Z) : (∀ e, e ∈ p → (0 ≤ e)%Z) →
  parse_promotions (JList (JInt <$> sorted Z.leb (elements p))) = Ok p.
Proof.
  intros Hp. unfold parse_promotions. cbn.
  assert (Hm : ∀ l, mapM is_int (JInt <$> l) = Some l)
    by (intros l; apply mapM_Some; induction l; constructor; auto).
  cbn in Hm. rewrite Hm. cbn. rewrite (proj2 (existsb_false_iff _ _)).
  - cbn. f_equal. apply set_eq. intros x. rewrite elem_of_list_to_set, sorted_perm. apply elem_of_elements.
  - intros x. rewrite sorted_perm, elem_of_elements. intros ?%Hp. lia.
Qed.

Lemma grants_run l : Forall (λ g, CapabilityGrant.valid g ∧ NodeId.valid (CapabilityGrant.subject g) ∧
    NodeId.valid (CapabilityGrant.target g)) l → mapM parse_grant (grant_to_dict <$> l) = Ok l.
Proof.
  induction 1 as [|g l (Hv & Hs & Ht) _ IH]; [done|]. cbn -[parse_grant grant_to_dict].
  rewrite parse_grant_run by done. cbn -[parse_grant grant_to_dict]. cbn -[parse_grant grant_to_dict] in IH.
  by rewrite IH.
Qed.

Lemma invites_run l plural singular : Forall (λ i, InviteRecord.valid i ∧ (0 ≤ InviteRecord.epoch i)%Z) l →
  parse_invites (JList (invite_to_dict <$> l)) plural singular = Ok (forget_token <$> l).
Proof.
  intros Hl. unfold parse_invites. cbn [is_list of_option mbind result_bind].
  induction Hl as [|i l [[Hh Hf] He] _ IH]; [done|]. cbn -[parse_invite invite_to_dict].
  assert (Hi : parse_invite singular (invite_to_dict i) = Ok (forget_token i)).
  { unfold parse_invite, invite_to_dict, jget, text_or_empty, jget_or. simpl.
    rewrite bool_decide_eq_false_2, (proj2 (Z.ltb_ge _ _)) by done. cbn. rewrite Hf. cbn.
    unfold InviteRecord.__post_init__. by rewrite bool_decide_eq_false_2, Hf by done. }
  rewrite Hi. cbn -[parse_invite invite_to_dict]. cbn -[parse_invite invite_to_dict] in IH. by rewrite IH.
Qed.

Definition epoch_doc (e : option CoordinatorEpoch.t) : json :=
  match e with Some e => epoch_to_dict e | None => JNull end.

(** The members that [role_state_from_dict] reads. *)
Lemma role_state_run s d os : storable s →
  mapM parse_assignment (omap id os) = Ok (idle <$> List.filter is_bound (ClusterState.role_assignments s)) →
  od_get "assignments" d = Some (JList (omap id os)) →
  jget "epoch" d = epoch_doc (ClusterState.coordinator_epoch s) →
  jget_or "promotion_epochs" (JList []) d
    = JList (JInt <$> sorted Z.leb (elements (ClusterState.promotion_epochs s))) →
  jget_or "capability_grants" (JList []) d = JList (grant_to_dict <$> ClusterState.capability_grants s) →
  role_state_from_dict (JObj d) = Ok (RoleState.mk
    (idle <$> List.filter is_bound (ClusterState.role_assignments s)) (ClusterState.coordinator_epoch s)
    (ClusterState.promotion_epochs s) (ClusterState.capability_grants s)).
Proof.
  intros [Hshape _ Hepoch Hgrants _ _ _ _] Hps Ha He Hp Hg.
  unfold role_state_from_dict. cbn [of_option is_obj mbind result_bind].
  assert (Ha' : jget_or "assignments" (JList []) d = JList (omap id os)) by (unfold jget_or; by rewrite Ha).
  rewrite Ha', Ha, He, Hp, Hg. cbn [of_option is_list mbind option_bind result_bind]. rewrite Hps.
  cbn [mbind result_bind].
  assert (Hep : parse_epoch (epoch_doc (ClusterState.coordinator_epoch s))
    = Ok (ClusterState.coordinator_epoch s)).
  { destruct (ClusterState.coordinator_epoch s) as [e|]; [|done]. destruct (Hepoch e eq_refl).
    by apply epoch_run. }
  rewrite Hep. cbn [mbind result_bind]. rewrite promotions_run by apply Hshape.
  cbn [mbind result_bind is_list of_option]. rewrite grants_run by done.
  cbn [mbind result_bind]. by apply post_init_shape, shape_idle.
Qed.

Lemma used_run (sha256_hex : string → string) (used : gset string) :
  (∀ d, d ∈ used → is_digest d = true) →
  mapM (λ v, match v with JStr s => if bool_decide (s = "") then None else Some s | _ => None end)
    (JStr <$> sorted str_leb (elements used)) = Some (sorted str_leb (elements used)) ∧
  list_to_set ((λ s, if is_digest s then s else sha256_hex s) <$> sorted str_leb (elements used)) = used.
Proof.
  intros Hused.
  assert (Hd : ∀ d, d ∈ sorted str_leb (elements used) ↔ d ∈ used)
    by (intros d; rewrite sorted_perm; apply elem_of_elements).
  split.
  - assert (Hl : ∀ d, d ∈ sorted str_leb (elements used) → is_digest d = true)
      by (intros d ?%Hd; by apply Hused).
    clear Hd. apply mapM_Some. induction (sorted _ _) as [|d l IH]; constructor.
    + cbn. rewrite bool_decide_eq_false_2; [done|]. intros ->. by specialize (Hl "" ltac:(set_solver)).
    + apply IH. intros; apply Hl; set_solver.
  - apply set_eq. intros d. rewrite elem_of_list_to_set, list_elem_of_fmap. split.
    + intros (d' & -> & Hd'%Hd). by rewrite Hused.
    + intros Hin. exists d. rewrite Hd. by rewrite Hused.
Qed.

(** A saved cluster is read back as it was: for a well-formed state, [to_dict] returns, and
    reading its document gives the same identity, members, roles, flags, epoch, promotion
    markers, grants, invites and spent digests; only what must not survive is gone: jobs
    in progress and the one-time tokens, of which the digests remain. *)
Theorem saved_cluster_reads_back sha256_hex s : storable s →
  ∃ doc, to_dict s = Ok doc ∧ from_dict sha256_hex doc = Ok (restored s).
Proof.
  intros Hst. pose proof Hst as [Hshape Has Hepoch Hgrants Hinv Hlocal Hcluster Hused].
  destruct (assignments_run _ Has) as (os & Hos & Hps).
  unfold to_dict. rewrite post_init_shape by done. cbn [mbind result_bind].
  unfold role_state_to_dict. cbn [RoleState.assignments RoleState.epoch RoleState.promotion_epochs
    RoleState.capability_grants]. rewrite Hos. cbn [mbind result_bind]. eexists. split; [reflexivity|].
  set (doc := od_update _ _).
  assert (Hmig : migrate doc = doc) by (unfold migrate; by destruct (ClusterState.coordinator_epoch s)).
  unfold from_dict. rewrite Hmig, (role_state_run s doc os) by done.
  change (equals_two (jget_or "schema_version" (JInt 2) doc)) with true.
  change (jget_or "local_node_id" (jget_or "local_id" (JStr "local") doc) doc)
    with (JStr (ClusterState.local_node_id s)).
  change (jget_or "cluster_id" (JStr "local-cluster") doc) with (JStr (ClusterState.cluster_id s)).
  change (jget_or "active_invites" (JList []) doc)
    with (JList (invite_to_dict <$> ClusterState.active_invites s)).
  change (jget_or "join_admissions" (JList []) doc)
    with (JList (invite_to_dict <$> ClusterState.join_admissions s)).
  change (jget_or "used_invites" (JList []) doc)
    with (JList (JStr <$> sorted str_leb (elements (ClusterState.used_invites s)))).
  apply Forall_app in Hinv as [Hact Hadm].
  cbn [negb raise_if mbind result_bind]. rewrite !bool_decide_eq_false_2 by done.
  cbn [of_option mbind result_bind]. rewrite !invites_run by done.
  cbn [mbind result_bind is_list option_bind].
  destruct (used_run sha256_hex _ Hused) as [Hread Hset]. rewrite Hread.
  cbn [of_option mbind result_bind]. by rewrite Hset.
Qed.

Definition sample_stored : ClusterState.t :=
  ClusterState.mk "c" "home" [as_coordinator; as_subcoordinator; as_worker] (Some sample_epoch)
    [InviteRecord.mk "hash" "w" (flit 400) "token" "home" "c" 1 "token"] [] ∅ ∅ [sample_grant].

Lemma sample_stored_storable : storable sample_stored.
Proof.
  destruct sample_wf as [Hshape Hv He Hg]. split; simpl.
  - exact Hshape.
  - repeat (apply Forall_cons in Hv as [? Hv]; apply Forall_cons_2;
      [split; [done|intros n [= <-]; reflexivity]|]). apply Forall_nil_2.
  - intros e [= <-]. split; [apply sample_epoch_valid|reflexivity].
  - apply Forall_cons in Hg as [? _]. apply Forall_cons_2; [by split_and!|apply Forall_nil_2].
  - apply Forall_cons_2; [|apply Forall_nil_2]. split; [by split|simpl; lia].
  - done.
  - done.
  - intros d Hd. by apply not_elem_of_empty in Hd.
Qed.

Lemma saved_cluster_reads_back_witness :
  ∃ doc, to_dict sample_stored = Ok doc ∧ from_dict (λ s, s) doc = Ok (restored sample_stored).
Proof. apply (saved_cluster_reads_back (λ s, s) sample_stored). exact sample_stored_storable. Defined.
