(* ===== verification/Pairing.v ===== *)
(** * Pairing transactions, grants and trust ([pairing/manager.py])

    [PairingManager] keeps the outbound direction ([trusted]: this node may call the peer)
    and the inbound one ([grants]: the peer may call this node) apart.  The five optional
    fields that describe a peer's identity and transport, which every dataclass of the
    source repeats, are one record [Material]. *)

From S2P Require Import Prelude PyFloat Identity.

(** [ping] is the legacy name of the read-only operation. *)
Definition _READ_ONLY_PERMISSIONS : gset string := {["ping"; "read_state"]}.
Definition DIRECTIONS : list string := ["outbound"; "inbound"].
Definition INTENTS : list string := ["pair"; "repair"].

Inductive RelationshipState :=
  | UNPAIRED | OUTBOUND_TRUSTED | INBOUND_GRANTED | BIDIRECTIONAL
  | PENDING_OUTBOUND | PENDING_INBOUND | REPAIR_REQUIRED | IDENTITY_CONFLICT.

#[export] Instance RelationshipState_eq_dec : EqDecision RelationshipState.
Proof. solve_decision. Defined.

Module Material.
Record t := mk {
  identity_fingerprint : option string;
  transport_fingerprint : option string;
  root_public_key : option string;
  transport_generation : option Z;
  transport_proof : option string }.

#[global] Instance eq_dec : EqDecision t.
Proof. solve_decision. Defined.

Definition none : t := mk None None None None None.
End Material.
Import Material(identity_fingerprint, transport_fingerprint, root_public_key, transport_generation,
  transport_proof).

Module PendingPairing.
Record t := mk {
  transaction_id : string;
  peer_id : NodeId;
  secret : string;
  expires_at : float;
  material : Material.t;
  direction : string;
  intent : string }.

Definition __post_init__ (p : t) : result t :=
  raise_if (negb (bool_decide (direction p ∈ DIRECTIONS))) ValueError "pairing direction is invalid";;
  raise_if (negb (bool_decide (intent p ∈ INTENTS))) ValueError "pairing intent is invalid";;
  Ok p.
End PendingPairing.

Module TrustedPeer.
Record t := mk {
  peer_id : NodeId;
  secret : string;
  permissions : gset Permission.t;
  material : Material.t }.
End TrustedPeer.

Module PeerGrant.
Record t := mk {
  caller_id : NodeId;
  secret : string;
  permissions : gset Permission.t;
  material : Material.t }.
End PeerGrant.

(** A text that is present and not empty. *)
Definition truthy (o : option string) : option string :=
  match o with Some s => if bool_decide (s = "") then None else Some s | None => None end.

Section proofs.
Context (b64decode : string → option string) (ed25519_verify : string → string → string → bool).
Notation verify := (verify_transport_proof b64decode ed25519_verify).

Definition grant_root_continuous (grant : PeerGrant.t) (root : option string) (generation : option Z)
    (fingerprint : string) (proof : option string) : bool :=
  match truthy (root_public_key (PeerGrant.material grant)) with
  | None => false
  | Some stored =>
      if negb (bool_decide (root = Some stored)) then false
      else match generation, truthy proof with
           | Some generation, Some proof =>
               verify (PeerGrant.caller_id grant) stored generation fingerprint proof
           | _, _ => false
           end
  end.

(** [trusted.transport_generation is None or generation > trusted.transport_generation] *)
Definition newer (generation : Z) (stored : option Z) : bool :=
  match stored with None => true | Some s => (s <? generation)%Z end.

(** [owner] is the peer of a [TrustedPeer], the caller of a [PeerGrant]. *)
Definition candidate_transport_generation_allowed (owner : NodeId) (trusted : Material.t)
    (fingerprint : option string) (generation : option Z) (proof : option string) : bool :=
  match transport_fingerprint trusted with
  | None => true
  | Some stored =>
      if decide (fingerprint = Some stored) then true
      else match truthy (root_public_key trusted), generation, truthy proof with
           | Some root, Some generation, Some proof =>
               newer generation (transport_generation trusted)
               && verify owner root generation (default "" fingerprint) proof
           | _, _, _ => false
           end
  end.
End proofs.

Module PairingManager.
Record t := mk {
  local_id : NodeId;
  _ttl : float;
  pending : list (string * PendingPairing.t);
  trusted : gmap NodeId TrustedPeer.t;
  grants : gmap NodeId PeerGrant.t;
  _auth_broken : gmap NodeId bool }.

Definition __init__ (local_id : NodeId) (ttl : float) : t := mk local_id ttl [] ∅ ∅ ∅.

Definition set_pending (m : t) (p : list (string * PendingPairing.t)) : t :=
  mk (local_id m) (_ttl m) p (trusted m) (grants m) (_auth_broken m).
Definition set_trusted (m : t) (x : gmap NodeId TrustedPeer.t) : t :=
  mk (local_id m) (_ttl m) (pending m) x (grants m) (_auth_broken m).
Definition set_grants (m : t) (x : gmap NodeId PeerGrant.t) : t :=
  mk (local_id m) (_ttl m) (pending m) (trusted m) x (_auth_broken m).
Definition set_broken (m : t) (x : gmap NodeId bool) : t :=
  mk (local_id m) (_ttl m) (pending m) (trusted m) (grants m) x.

(** [next((item for item in pending.values() if ...), None)] *)
Definition find (f : PendingPairing.t → bool) (m : t) : option PendingPairing.t :=
  snd <$> List.find (λ kp, f kp.2) (pending m).

Definition find_pending (m : t) (peer_id : NodeId) (secret : string) (current : float)
    : option PendingPairing.t :=
  find (λ p, bool_decide (PendingPairing.peer_id p = peer_id) && bool_decide (PendingPairing.secret p = secret)
             && fltb current (PendingPairing.expires_at p)) m.

Definition find_pending_for (m : t) (peer_id : NodeId) (direction : option string) (current : float)
    : option PendingPairing.t :=
  find (λ p, bool_decide (PendingPairing.peer_id p = peer_id) && fltb current (PendingPairing.expires_at p)
             && match direction with
                | None => true
                | Some d => bool_decide (PendingPairing.direction p = d)
                end) m.

(** A transaction that is not a replay: refused when one is active in that direction. *)
Definition start (peer_id : NodeId) (secret : option string) (material : Material.t)
    (direction intent : string) (now2 now3 : float) (fresh_id fresh_secret : string)
    : M t PendingPairing.t := λ m,
  match find_pending_for m peer_id (Some direction) now2 with
  | Some _ => (m, raise PairingBusy "a pairing transaction is already active for this peer")
  | None =>
      match PendingPairing.__post_init__ (PendingPairing.mk fresh_id peer_id
              (default fresh_secret (truthy secret)) (fadd now3 (_ttl m)) material direction intent) with
      | Err e => (m, Err e)
      | Ok transaction => (set_pending m (od_set fresh_id transaction (pending m)), Ok transaction)
      end
  end.

(** The readings of the clock by [find_pending], [find_pending_for] and for the expiry are
    [now1], [now2] and [now3]; [fresh_id] and [fresh_secret] are drawn. *)
Definition begin_ (peer_id : NodeId) (secret : option string) (material : Material.t)
    (direction intent : string) (now1 now2 now3 : float) (fresh_id fresh_secret : string)
    : M t PendingPairing.t := λ m,
  if negb (bool_decide (direction ∈ DIRECTIONS)) then (m, raise ValueError "pairing direction is invalid")
  else if negb (bool_decide (intent ∈ INTENTS)) then (m, raise ValueError "pairing intent is invalid")
  else match secret ≫= λ s, find_pending m peer_id s now1 with
       | Some replay =>
           if bool_decide (PendingPairing.direction replay = direction)
              && bool_decide (PendingPairing.intent replay = intent)
           then (m, Ok replay)
           else start peer_id secret material direction intent now2 now3 fresh_id fresh_secret m
       | None => start peer_id secret material direction intent now2 now3 fresh_id fresh_secret m
       end.

(** [current] is the argument [now] or the clock. *)
Definition _active (m : t) (transaction_id : string) (current : float) : result PendingPairing.t :=
  match od_get transaction_id (pending m) with
  | Some p => if fleb (PendingPairing.expires_at p) current
              then raise ValueError "pairing transaction is missing or expired" else Ok p
  | None => raise ValueError "pairing transaction is missing or expired"
  end.

Definition approve (transaction_id : string) (permissions : gset Permission.t) (current : float)
    : M t PeerGrant.t := λ m,
  match _active m transaction_id current with
  | Err e => (m, Err e)
  | Ok p =>
      if negb (bool_decide (Permission.values permissions ⊆ _READ_ONLY_PERMISSIONS))
      then (m, raise ValueError "pairing permissions are read-only")
      else
        let grant := PeerGrant.mk (PendingPairing.peer_id p) (PendingPairing.secret p) permissions
                       (PendingPairing.material p) in
        (set_grants m (<[PendingPairing.peer_id p := grant]> (grants m)), Ok grant)
  end.

Definition receive_request (caller_id : NodeId) (transaction : PendingPairing.t) (now : float)
    : M t PendingPairing.t := λ m,
  if fleb (PendingPairing.expires_at transaction) now
  then (m, raise ValueError "pairing transaction is expired")
  else match PendingPairing.__post_init__ (PendingPairing.mk (PendingPairing.transaction_id transaction)
               caller_id (PendingPairing.secret transaction) (PendingPairing.expires_at transaction)
               (PendingPairing.material transaction) "inbound" (PendingPairing.intent transaction)) with
       | Err e => (m, Err e)
       | Ok p => (set_pending m (od_set (PendingPairing.transaction_id p) p (pending m)), Ok p)
       end.

(** The peer is trusted and the transaction is closed. *)
Definition trust (peer_id : NodeId) (peer : TrustedPeer.t) (transaction_id : string) (m : t) : t :=
  mk (local_id m) (_ttl m) (od_pop transaction_id (pending m)) (<[peer_id := peer]> (trusted m))
    (grants m) (delete peer_id (_auth_broken m)).

Definition confirm (transaction_id : string) (current : float) : M t TrustedPeer.t := λ m,
  match _active m transaction_id current with
  | Err e => (m, Err e)
  | Ok p =>
      match grants m !! PendingPairing.peer_id p with
      | None => (m, raise ValueError "pairing was not approved")
      | Some g =>
          let peer := TrustedPeer.mk (PendingPairing.peer_id p) (PendingPairing.secret p)
                        (PeerGrant.permissions g) (PeerGrant.material g) in
          (trust (PendingPairing.peer_id p) peer transaction_id m, Ok peer)
      end
  end.

Definition accept_grant (transaction_id : string) (peer_id : NodeId) (grant : PeerGrant.t)
    (peer_material : Material.t) (current : float) : M t TrustedPeer.t := λ m,
  match _active m transaction_id current with
  | Err e => (m, Err e)
  | Ok p =>
      if negb (bool_decide (PendingPairing.peer_id p = peer_id))
         || negb (bool_decide (PeerGrant.caller_id grant = local_id m))
      then (m, raise ValueError "pairing grant binding mismatch")
      else if negb (bool_decide (PeerGrant.material grant = PendingPairing.material p))
      then (m, raise ValueError "pairing fingerprint binding mismatch")
      else
        let peer := TrustedPeer.mk peer_id (PendingPairing.secret p) (PeerGrant.permissions grant)
                      peer_material in
        (trust peer_id peer transaction_id m, Ok peer)
  end.

Definition abort (transaction_id : string) (m : t) : t :=
  set_pending m (od_pop transaction_id (pending m)).

(** The transactions that [f] keeps. *)
Definition keep_pending (f : PendingPairing.t → bool) (m : t) : t :=
  set_pending m (List.filter (λ kp, f kp.2) (pending m)).

Definition prune_expired (current : float) (m : t) : t * nat :=
  (keep_pending (λ p, negb (fleb (PendingPairing.expires_at p) current)) m,
   length (List.filter (λ kp, fleb (PendingPairing.expires_at kp.2) current) (pending m))).

Definition revoke (peer_id : NodeId) (m : t) : t :=
  keep_pending (λ p, negb (bool_decide (PendingPairing.peer_id p = peer_id)))
    (mk (local_id m) (_ttl m) (pending m) (delete peer_id (trusted m)) (delete peer_id (grants m))
       (delete peer_id (_auth_broken m))).

(** Not a transaction of the peer in that direction. *)
Definition elsewhere (peer_id : NodeId) (direction : string) (p : PendingPairing.t) : bool :=
  negb (bool_decide (PendingPairing.peer_id p = peer_id)
        && bool_decide (PendingPairing.direction p = direction)).

Definition revoke_trusted (peer_id : NodeId) (m : t) : t :=
  keep_pending (elsewhere peer_id "outbound")
    (set_broken (set_trusted m (delete peer_id (trusted m))) (delete peer_id (_auth_broken m))).

Definition revoke_grant (peer_id : NodeId) (m : t) : t :=
  keep_pending (elsewhere peer_id "inbound") (set_grants m (delete peer_id (grants m))).

Definition is_auth_broken (m : t) (peer_id : NodeId) : bool := default false (_auth_broken m !! peer_id).
Definition has_outbound_trust (m : t) (peer_id : NodeId) : bool := bool_decide (is_Some (trusted m !! peer_id)).

Definition relationship (m : t) (peer_id : NodeId) (now : float) : RelationshipState :=
  let outbound := has_outbound_trust m peer_id in
  let inbound := bool_decide (is_Some (grants m !! peer_id)) in
  if outbound && is_auth_broken m peer_id then REPAIR_REQUIRED
  else if outbound && inbound then BIDIRECTIONAL
  else if outbound then OUTBOUND_TRUSTED
  else if inbound then INBOUND_GRANTED
  else match find_pending_for m peer_id None now with
       | Some p => if bool_decide (PendingPairing.direction p = "outbound") then PENDING_OUTBOUND
                   else PENDING_INBOUND
       | None => UNPAIRED
       end.

Section classify.
Context (b64decode : string → option string) (ed25519_verify : string → string → string → bool).

Definition classify_trusted_candidate (m : t) (peer_id : NodeId) (root fingerprint : option string)
    (generation : option Z) (proof : option string) (now : float) : RelationshipState :=
  match trusted m !! peer_id with
  | None => relationship m peer_id now
  | Some peer =>
      let stored := TrustedPeer.material peer in
      match truthy (root_public_key stored) with
      | None => IDENTITY_CONFLICT
      | Some key =>
          if negb (bool_decide (root = Some key)) then IDENTITY_CONFLICT
          else
            let proven := match generation, truthy proof, truthy fingerprint with
                          | Some g, Some p, Some f =>
                              verify_transport_proof b64decode ed25519_verify peer_id key g f p
                          | _, _, _ => false
                          end in
            let current := if is_auth_broken m peer_id then REPAIR_REQUIRED else OUTBOUND_TRUSTED in
            if decide (fingerprint = transport_fingerprint stored) then current
            else if proven && match transport_generation stored, generation with
                              | None, _ => true
                              | Some s, Some g => (s <? g)%Z
                              | Some _, None => false
                              end then current
            else if proven then REPAIR_REQUIRED
            else IDENTITY_CONFLICT
      end
  end.
End classify.

Definition mark_auth_failure (peer_id : NodeId) (m : t) : t :=
  match trusted m !! peer_id with
  | Some _ => set_broken m (<[peer_id := true]> (_auth_broken m))
  | None => m
  end.

Definition mark_auth_ok (peer_id : NodeId) (m : t) : t := set_broken m (delete peer_id (_auth_broken m)).

(** Grants are looked for by their caller, whatever key holds them. *)
Definition has_valid_relationship (m : t) (peer_id : NodeId) : bool :=
  has_outbound_trust m peer_id
  || existsb (λ kg, bool_decide (PeerGrant.caller_id kg.2 = peer_id)) (map_to_list (grants m)).
Definition can_join_cluster := has_valid_relationship.
Definition has_relationship := has_valid_relationship.

Definition get_trusted (m : t) (peer_id : NodeId) : option TrustedPeer.t := trusted m !! peer_id.
Definition get_grant (m : t) (peer_id : NodeId) : option PeerGrant.t := grants m !! peer_id.

Definition restore_trusted (peer_id : NodeId) (prior : option TrustedPeer.t) (auth_broken : bool) (m : t) : t :=
  match prior with
  | None => revoke_trusted peer_id m
  | Some peer =>
      set_broken (set_trusted m (<[peer_id := peer]> (trusted m)))
        (if auth_broken then <[peer_id := true]> (_auth_broken m) else delete peer_id (_auth_broken m))
  end.

(** The four dictionaries; the values are immutable, so a shallow copy is the state. *)
Definition snapshot (m : t) := (trusted m, grants m, pending m, _auth_broken m).
Definition restore_snapshot (snap : gmap NodeId TrustedPeer.t * gmap NodeId PeerGrant.t
    * list (string * PendingPairing.t) * gmap NodeId bool) (m : t) : t :=
  let '(tr, gr, pe, br) := snap in mk (local_id m) (_ttl m) pe tr gr br.

Definition can_call (m : t) (peer_id : NodeId) (permission : string) : bool :=
  match trusted m !! peer_id with
  | Some p => bool_decide (permission ∈ Permission.values (TrustedPeer.permissions p))
  | None => false
  end.
End PairingManager.
