(* ===== verification/PairingSpec.v ===== *)
(** * Pairing: where trust comes from, that revocation is complete, and root continuity *)

From S2P Require Import Prelude PyFloat Identity Pairing.
Import PairingManager.

(** ** Transactions *)

Lemma active_Ok m tx now x : _active m tx now = Ok x ↔
  od_get tx (pending m) = Some x ∧ fleb (PendingPairing.expires_at x) now = false.
Proof.
  unfold _active. destruct (od_get tx (pending m)) as [y|]; [|naive_solver].
  destruct (fleb _ _) eqn:E; naive_solver congruence.
Qed.

Lemma find_Some f m x : find f m = Some x → ∃ tx, (tx, x) ∈ pending m ∧ f x = true.
Proof.
  unfold find. intros H. apply fmap_Some in H as ([tx y] & H & ->). apply find_Some_spec in H as [? ?].
  by exists tx.
Qed.

Lemma find_None f m tx x : find f m = None → (tx, x) ∈ pending m → f x = false.
Proof.
  unfold find. intros H Hx. apply fmap_None in H. by apply (find_None_spec _ _ (tx, x) H).
Qed.

(** ** One operation *)

Inductive pairing_op :=
  | OBegin (peer : NodeId) (secret : option string) (mat : Material.t) (dir intent : string)
      (now1 now2 now3 : float) (fresh_id fresh_secret : string)
  | OApprove (tx : string) (permissions : gset Permission.t) (now : float)
  | OReceive (caller : NodeId) (x : PendingPairing.t) (now : float)
  | OConfirm (tx : string) (now : float)
  | OAccept (tx : string) (peer : NodeId) (grant : PeerGrant.t) (mat : Material.t) (now : float)
  | OAbort (tx : string)
  | OPrune (now : float)
  | ORevoke (peer : NodeId)
  | ORevokeTrusted (peer : NodeId)
  | ORevokeGrant (peer : NodeId)
  | OAuthFailure (peer : NodeId)
  | OAuthOk (peer : NodeId).

Definition pairing_run (m : t) (o : pairing_op) : t :=
  match o with
  | OBegin p s mat d i n1 n2 n3 fid fs => (begin_ p s mat d i n1 n2 n3 fid fs m).1
  | OApprove tx ps now => (approve tx ps now m).1
  | OReceive c x now => (receive_request c x now m).1
  | OConfirm tx now => (confirm tx now m).1
  | OAccept tx p g mat now => (accept_grant tx p g mat now m).1
  | OAbort tx => abort tx m
  | OPrune now => (prune_expired now m).1
  | ORevoke p => revoke p m
  | ORevokeTrusted p => revoke_trusted p m
  | ORevokeGrant p => revoke_grant p m
  | OAuthFailure p => mark_auth_failure p m
  | OAuthOk p => mark_auth_ok p m
  end.
Definition pairing_exec (ops : list pairing_op) (m : t) : t := foldl pairing_run m ops.

(** The operation closes [tx] and makes its peer trusted. *)
Definition trusts (m : t) (o : pairing_op) (p : NodeId) (peer : TrustedPeer.t) : Prop :=
  ∃ tx x now, od_get tx (pending m) = Some x ∧ fleb (PendingPairing.expires_at x) now = false ∧
    PendingPairing.peer_id x = p ∧ TrustedPeer.peer_id peer = p ∧
    TrustedPeer.secret peer = PendingPairing.secret x ∧
    od_get tx (pending (pairing_run m o)) = None ∧
    ((∃ g mat, o = OAccept tx p g mat now ∧ PeerGrant.caller_id g = local_id m ∧
        PeerGrant.material g = PendingPairing.material x ∧ TrustedPeer.permissions peer = PeerGrant.permissions g) ∨
     (∃ g, o = OConfirm tx now ∧ grants m !! p = Some g ∧
        TrustedPeer.permissions peer = PeerGrant.permissions g)).

(** The operation approves a transaction of the caller. *)
Definition approves (m : t) (o : pairing_op) (p : NodeId) (g : PeerGrant.t) : Prop :=
  ∃ tx x now, o = OApprove tx (PeerGrant.permissions g) now ∧ od_get tx (pending m) = Some x ∧
    fleb (PendingPairing.expires_at x) now = false ∧ PendingPairing.peer_id x = p ∧
    PeerGrant.caller_id g = p ∧ PeerGrant.secret g = PendingPairing.secret x ∧
    PeerGrant.material g = PendingPairing.material x ∧ Permission.values (PeerGrant.permissions g) ⊆ _READ_ONLY_PERMISSIONS.

Lemma begin_state p s mat d i n1 n2 n3 fid fs m :
  let m' := (begin_ p s mat d i n1 n2 n3 fid fs m).1 in
  trusted m' = trusted m ∧ grants m' = grants m ∧ local_id m' = local_id m.
Proof.
  assert (Hs : ∀ m, let m' := (start p s mat d i n2 n3 fid fs m).1 in
    trusted m' = trusted m ∧ grants m' = grants m ∧ local_id m' = local_id m).
  { intros m0. unfold start. destruct (find_pending_for _ _ _ _); [done|].
    by destruct (PendingPairing.__post_init__ _). }
  unfold begin_. destruct (negb _); [done|]. destruct (negb _); [done|].
  destruct (_ ≫= _) as [r|]; [|apply Hs]. destruct (_ && _); [done|apply Hs].
Qed.

Lemma trusted_step m o p peer : trusted (pairing_run m o) !! p = Some peer →
  trusted m !! p = Some peer ∨ trusts m o p peer.
Proof.
  destruct o as [q s mat d i n1 n2 n3 fid fs|tx ps now|c x now|tx now|tx q g mat now|tx|now|q|q|q|q|q]; simpl.
  - destruct (begin_state q s mat d i n1 n2 n3 fid fs m) as (-> & _). auto.
  - unfold approve. destruct (_active m tx now); [|auto]. destruct (negb _); auto.
  - unfold receive_request. destruct (fleb _ _); [auto|]. destruct (PendingPairing.__post_init__ _); auto.
  - unfold confirm. destruct (_active m tx now) as [x|] eqn:Ha; [|auto]. apply active_Ok in Ha as [Hx Hl].
    destruct (grants m !! _) as [g|] eqn:Hg; [|auto]. simpl.
    intros [[<- <-]|[_ ?]]%lookup_insert_Some; [right|auto].
    exists tx, x, now. split_and!; try done.
    + simpl. unfold confirm. rewrite (proj2 (active_Ok m tx now x)), Hg by done. simpl. apply od_get_pop_eq.
    + right. by exists g.
  - unfold accept_grant. destruct (_active m tx now) as [x|] eqn:Ha; [|auto]. apply active_Ok in Ha as [Hx Hl].
    destruct (negb (bool_decide (_ = q)) || _) eqn:Hb; [auto|].
    destruct (negb (bool_decide (PeerGrant.material g = _))) eqn:Hm; [auto|]. to_prop. simpl.
    intros [[<- <-]|[_ ?]]%lookup_insert_Some; [right|auto].
    exists tx, x, now. split_and!; try done.
    + simpl. unfold accept_grant. rewrite (proj2 (active_Ok m tx now x)) by done.
      rewrite !bool_decide_eq_true_2 by done. simpl. apply od_get_pop_eq.
    + left. by exists g, mat.
  - auto.
  - auto.
  - intros [_ ?]%lookup_delete_Some. auto.
  - intros [_ ?]%lookup_delete_Some. auto.
  - auto.
  - unfold mark_auth_failure. destruct (trusted m !! q); auto.
  - auto.
Qed.

Lemma grants_step m o p g : grants (pairing_run m o) !! p = Some g →
  grants m !! p = Some g ∨ approves m o p g.
Proof.
  destruct o as [q s mat d i n1 n2 n3 fid fs|tx ps now|c x now|tx now|tx q g' mat now|tx|now|q|q|q|q|q]; simpl.
  - destruct (begin_state q s mat d i n1 n2 n3 fid fs m) as (_ & -> & _). auto.
  - unfold approve. destruct (_active m tx now) as [x|] eqn:Ha; [|auto]. apply active_Ok in Ha as [Hx Hl].
    destruct (negb _) eqn:Hp; [auto|]. to_prop. simpl.
    intros [[<- <-]|[_ ?]]%lookup_insert_Some; [right|auto]. exists tx, x, now. by split_and!.
  - unfold receive_request. destruct (fleb _ _); [auto|]. destruct (PendingPairing.__post_init__ _); auto.
  - unfold confirm. destruct (_active m tx now); [|auto]. destruct (grants m !! PendingPairing.peer_id _); auto.
  - unfold accept_grant. destruct (_active m tx now); [|auto]. destruct (_ || _); [auto|].
    destruct (negb _); auto.
  - auto.
  - auto.
  - intros [_ ?]%lookup_delete_Some. auto.
  - auto.
  - intros [_ ?]%lookup_delete_Some. auto.
  - unfold mark_auth_failure. destruct (trusted m !! q); auto.
  - auto.
Qed.

(** Where trust and grants come from, at every operation: a peer is newly trusted only by
    closing an unexpired transaction of that peer, with the transaction's secret: with a
    grant addressed to this node and bound to the very material of the transaction, or by
    confirming an approved one; and a new grant is the approval of an unexpired transaction
    of that caller, with its secret and material and read-only permissions. In particular
    the two directions never create one another. *)
Theorem trust_has_an_origin m o p :
  (∀ peer, trusted (pairing_run m o) !! p = Some peer → trusted m !! p = Some peer ∨ trusts m o p peer) ∧
  (∀ g, grants (pairing_run m o) !! p = Some g → grants m !! p = Some g ∨ approves m o p g).
Proof. split; intros; [by apply trusted_step|by apply grants_step]. Qed.

(** ** Revocation *)

(** Nothing is known of the peer. *)
Definition unknown (p : NodeId) (m : t) : Prop :=
  trusted m !! p = None ∧ grants m !! p = None ∧ (∀ tx x, (tx, x) ∈ pending m → PendingPairing.peer_id x ≠ p).

(** The operation opens a transaction with the peer. *)
Definition opens (p : NodeId) (o : pairing_op) : Prop :=
  match o with
  | OBegin q _ _ _ _ _ _ _ _ _ => q = p
  | OReceive c _ _ => c = p
  | _ => False
  end.

Lemma pending_step m o tx x : (tx, x) ∈ pending (pairing_run m o) →
  (tx, x) ∈ pending m ∨ opens (PendingPairing.peer_id x) o.
Proof.
  assert (Hpop : ∀ k, (tx, x) ∈ od_pop k (pending m) → (tx, x) ∈ pending m)
    by (intros k Hk; by apply od_pop_elem in Hk as [? _]).
  assert (Hfilter : ∀ f, (tx, x) ∈ List.filter f (pending m) → (tx, x) ∈ pending m)
    by (intros f Hf; by apply elem_of_lfilter in Hf as [_ ?]).
  destruct o as [q s mat d i n1 n2 n3 fid fs|k ps now|c y now|k now|k q g mat now|k|now|q|q|q|q|q]; simpl.
  - assert (Hs : (tx, x) ∈ pending (start q s mat d i n2 n3 fid fs m).1 →
      (tx, x) ∈ pending m ∨ q = PendingPairing.peer_id x).
    { unfold start. destruct (find_pending_for _ _ _ _); [auto|].
      destruct (PendingPairing.__post_init__ _) as [y|] eqn:Hy; [|auto]. simpl.
      intros [E|?]%od_set_elem; [|auto]. simplify_eq. right. unfold PendingPairing.__post_init__ in Hy.
      repeat res_step. by subst. }
    unfold begin_. destruct (negb _); [auto|]. destruct (negb _); [auto|].
    destruct (_ ≫= _) as [r|]; [|exact Hs]. destruct (_ && _); [auto|exact Hs].
  - unfold approve. destruct (_active m k now); [|auto]. destruct (negb _); auto.
  - unfold receive_request. destruct (fleb _ _); [auto|].
    destruct (PendingPairing.__post_init__ _) as [z|] eqn:Hz; [|auto]. simpl.
    intros [E|?]%od_set_elem; [|auto]. simplify_eq. right. unfold PendingPairing.__post_init__ in Hz.
    repeat res_step. by subst.
  - unfold confirm. destruct (_active m k now); [|auto].
    destruct (grants m !! _); [|auto]. simpl. eauto.
  - unfold accept_grant. destruct (_active m k now); [|auto]. destruct (_ || _); [auto|].
    destruct (negb _); [auto|]. simpl. eauto.
  - eauto.
  - eauto.
  - eauto.
  - eauto.
  - eauto.
  - unfold mark_auth_failure. destruct (trusted m !! q); auto.
  - auto.
Qed.

Lemma unknown_step p m o : unknown p m → ¬ opens p o → unknown p (pairing_run m o).
Proof.
  intros (Ht & Hg & Hp) Ho.
  assert (Hget : ∀ tx x, od_get tx (pending m) = Some x → PendingPairing.peer_id x ≠ p)
    by (intros tx x Hx; eapply Hp; by apply od_get_elem).
  split_and!.
  - destruct (trusted (pairing_run m o) !! p) as [peer|] eqn:E; [exfalso|done].
    apply trusted_step in E as [E|(tx & x & now & Hx & _ & Hpx & _)]; [congruence|by apply Hget in Hx].
  - destruct (grants (pairing_run m o) !! p) as [g|] eqn:E; [exfalso|done].
    apply grants_step in E as [E|(tx & x & now & _ & Hx & _ & Hpx & _)]; [congruence|by apply Hget in Hx].
  - intros tx x [Hx|Hx]%pending_step; [by eapply Hp|]. by intros <-.
Qed.

(** Revocation is complete and final: after [revoke], and whatever happens next until a
    new transaction is opened with that peer, the peer is neither trusted nor granted,
    has no relationship, may be called with no permission, and no transaction of its can be
    approved, confirmed or accepted, so nothing from before the revocation restores it. *)
Theorem revocation_is_complete p m ops : Forall (λ o, ¬ opens p o) ops →
  let m' := pairing_exec ops (revoke p m) in
  trusted m' !! p = None ∧ grants m' !! p = None ∧
  (∀ now, relationship m' p now = UNPAIRED) ∧ (∀ permission, can_call m' p permission = false) ∧
  (∀ tx now x, _active m' tx now = Ok x → PendingPairing.peer_id x ≠ p).
Proof.
  intros Hops m'.
  assert (Hu : unknown p m').
  { unfold m', pairing_exec. assert (Hr : unknown p (revoke p m)).
    { split_and!; simpl; [apply lookup_delete_eq..|]. intros tx x Hx.
      apply elem_of_lfilter in Hx as [Hx _]. simpl in Hx. by to_prop. }
    revert Hr. generalize (revoke p m) as m0. induction ops as [|o ops IH]; intros m0 Hr; [done|].
    apply Forall_cons in Hops as [Ho Hops]. simpl. apply IH; [done|]. by apply unknown_step. }
  destruct Hu as (Ht & Hg & Hp). split; [done|]. split; [done|]. split; [|split].
  - intros now. unfold relationship, has_outbound_trust. rewrite Ht, Hg. simpl.
    destruct (find_pending_for m' p None now) as [x|] eqn:E; [exfalso|done].
    apply find_Some in E as (tx & Hx & Hf). to_prop. by apply (Hp tx x).
  - intros permission. unfold can_call. by rewrite Ht.
  - intros tx now x [Hx _]%active_Ok. eapply Hp. by apply od_get_elem.
Qed.

(** ** The table of transactions *)

(** Each transaction stands once, under its own id. *)
Definition indexed (m : t) : Prop :=
  NoDup (pending m).*1 ∧ ∀ tx x, (tx, x) ∈ pending m → PendingPairing.transaction_id x = tx.

Lemma indexed_get m tx x : indexed m → (tx, x) ∈ pending m →
  od_get (PendingPairing.transaction_id x) (pending m) = Some x.
Proof. intros [Hd Hk] Hx. rewrite (Hk _ _ Hx). by apply od_elem_get. Qed.

Lemma post_init_same x y : PendingPairing.__post_init__ x = Ok y → y = x.
Proof. unfold PendingPairing.__post_init__. intros Hy. by repeat res_step. Qed.

Lemma indexed_set m x : indexed m →
  indexed (set_pending m (od_set (PendingPairing.transaction_id x) x (pending m))).
Proof.
  intros [Hd Hk]. split; [by apply od_set_NoDup|]. intros tx y [E|Hy]%od_set_elem; [by simplify_eq|eauto].
Qed.

Lemma indexed_filter m m' f : indexed m → pending m' = List.filter f (pending m) → indexed m'.
Proof.
  intros [Hd Hk] E. split; [rewrite E; by apply od_filter_NoDup|]. intros tx x. rewrite E, elem_of_lfilter.
  intros [? ?]. eauto.
Qed.

Lemma indexed_start p s mat d i n2 n3 fid fs m : indexed m → indexed (start p s mat d i n2 n3 fid fs m).1.
Proof.
  unfold start. intros Hm. destruct (find_pending_for _ _ _ _); [done|].
  destruct (PendingPairing.__post_init__ _) as [x|] eqn:Hx; [|done]. apply post_init_same in Hx.
  replace fid with (PendingPairing.transaction_id x) at 1 by by subst. by apply indexed_set.
Qed.

Lemma indexed_step m o : indexed m → indexed (pairing_run m o).
Proof.
  intros Hm. destruct o as [p s mat d i n1 n2 n3 fid fs|k ps now|c x now|k now|k p g mat now|k|now|p|p|p|p|p]; simpl.
  - unfold begin_. destruct (negb _); [done|]. destruct (negb _); [done|].
    destruct (_ ≫= _); [destruct (_ && _); [done|]|]; by apply indexed_start.
  - unfold approve. destruct (_active m k now); [|done]. by destruct (negb _).
  - unfold receive_request. destruct (fleb _ _); [done|].
    destruct (PendingPairing.__post_init__ _) as [y|]; [|done]. by apply indexed_set.
  - unfold confirm. destruct (_active m k now); [|done]. destruct (grants m !! _); [|done].
    by eapply indexed_filter.
  - unfold accept_grant. destruct (_active m k now); [|done]. destruct (_ || _); [done|].
    destruct (negb _); [done|]. by eapply indexed_filter.
  - by eapply indexed_filter.
  - by eapply indexed_filter.
  - by eapply indexed_filter.
  - by eapply indexed_filter.
  - by eapply indexed_filter.
  - unfold mark_auth_failure. by destruct (trusted m !! p).
  - done.
Qed.

Lemma indexed_exec m ops : indexed m → indexed (pairing_exec ops m).
Proof.
  unfold pairing_exec. revert m. induction ops as [|o ops IH]; intros m Hm; [done|]. by apply IH, indexed_step.
Qed.

(** The transaction that is opened is in the table, with the secret it was opened with. *)
Lemma begin_stored p s mat d i n1 n2 n3 fid m m' x : indexed m →
  begin_ p (Some s) mat d i n1 n2 n3 fid s m = (m', Ok x) →
  od_get (PendingPairing.transaction_id x) (pending m') = Some x ∧ PendingPairing.secret x = s ∧
  PendingPairing.peer_id x = p.
Proof.
  intros Hm. assert (Hs : start p (Some s) mat d i n2 n3 fid s m = (m', Ok x) →
    od_get (PendingPairing.transaction_id x) (pending m') = Some x ∧ PendingPairing.secret x = s ∧
    PendingPairing.peer_id x = p).
  { unfold start. destruct (find_pending_for _ _ _ _); [done|].
    destruct (PendingPairing.__post_init__ _) as [y|] eqn:Hy; [|done]. intros [= <- <-].
    apply post_init_same in Hy as ->. split; [apply od_get_set_eq|]. split; [|done].
    cbn [PendingPairing.secret]. unfold truthy. by repeat case_match. }
  unfold begin_. destruct (negb _); [done|]. destruct (negb _); [done|].
  destruct (_ ≫= _) as [r|] eqn:Hr; [|exact Hs]. destruct (_ && _); [|exact Hs]. intros [= <- <-].
  apply bind_Some in Hr as (? & [= <-] & Hr). apply find_Some in Hr as (k & Hk & Hc). to_prop.
  split; [by eapply indexed_get|done].
Qed.

(** ** Opening a transaction *)

(** Opening a transaction, on every branch. It returns either the active transaction with
    the same secret, direction and intent, changing nothing, or a new transaction with the
    peer's data under the drawn id, and only when no other is active for that peer in that
    direction; otherwise it is refused as busy and changes nothing. *)
Theorem begin_exact p s mat d i n1 n2 n3 fid fs m : d ∈ DIRECTIONS → i ∈ INTENTS →
  let '(m', r) := begin_ p s mat d i n1 n2 n3 fid fs m in
  let same x := PendingPairing.peer_id x = p ∧ PendingPairing.direction x = d in
  match r with
  | Ok x => same x ∧ PendingPairing.intent x = i ∧
      ((m' = m ∧ s = Some (PendingPairing.secret x) ∧ (∃ tx, (tx, x) ∈ pending m) ∧
        fltb n1 (PendingPairing.expires_at x) = true) ∨
       (m' = set_pending m (od_set fid x (pending m)) ∧
        x = PendingPairing.mk fid p (default fs (truthy s)) (fadd n3 (_ttl m)) mat d i ∧
        ∀ tx y, (tx, y) ∈ pending m → same y → fltb n2 (PendingPairing.expires_at y) = false))
  | Err e => m' = m ∧ exn_cls e = PairingBusy ∧
      ∃ tx y, (tx, y) ∈ pending m ∧ same y ∧ fltb n2 (PendingPairing.expires_at y) = true
  end.
Proof.
  intros Hd Hi.
  assert (Hs : let '(m', r) := start p s mat d i n2 n3 fid fs m in
    let same x := PendingPairing.peer_id x = p ∧ PendingPairing.direction x = d in
    match r with
    | Ok x => same x ∧ PendingPairing.intent x = i ∧
        (m' = set_pending m (od_set fid x (pending m)) ∧
         x = PendingPairing.mk fid p (default fs (truthy s)) (fadd n3 (_ttl m)) mat d i ∧
         ∀ tx y, (tx, y) ∈ pending m → same y → fltb n2 (PendingPairing.expires_at y) = false)
    | Err e => m' = m ∧ exn_cls e = PairingBusy ∧
        ∃ tx y, (tx, y) ∈ pending m ∧ same y ∧ fltb n2 (PendingPairing.expires_at y) = true
    end).
  { unfold start. destruct (find_pending_for m p (Some d) n2) as [y|] eqn:Hf.
    - apply find_Some in Hf as (tx & Hy & Hf). to_prop. split; [done|]. split; [done|]. by exists tx, y.
    - unfold PendingPairing.__post_init__. cbn [PendingPairing.direction PendingPairing.intent].
      rewrite !bool_decide_eq_true_2 by done. cbn. split; [done|]. split; [done|]. split; [done|].
      split; [done|]. intros tx y Hy [Hp Hdir]. pose proof (find_None _ _ _ _ Hf Hy) as H.
      cbn in H. rewrite !bool_decide_eq_true_2 in H by done. by rewrite andb_true_r in H. }
  unfold begin_. rewrite !bool_decide_eq_true_2 by done. cbn [negb].
  destruct (s ≫= λ s, find_pending m p s n1) as [r|] eqn:Hr.
  - destruct (_ && _) eqn:Hb.
    + to_prop. apply bind_Some in Hr as (s' & -> & Hr). apply find_Some in Hr as (tx & Hx & Hf). to_prop.
      split; [done|]. split; [done|]. left. split; [done|]. subst. split; [done|]. split; [by exists tx|done].
    + destruct (start _ _ _ _ _ _ _ _ _ m) as [m' [x|e]]; [|done]. destruct Hs as (? & ? & ?). auto.
  - destruct (start _ _ _ _ _ _ _ _ _ m) as [m' [x|e]]; [|done]. destruct Hs as (? & ? & ?). auto.
Qed.

(** ** Continuity of the root *)

Lemma truthy_Some o s : truthy o = Some s → o = Some s ∧ s ≠ "".
Proof. destruct o as [x|]; simpl; [|done]. case_bool_decide; naive_solver. Qed.

Lemma truthy_id s : s ≠ "" → truthy (Some s) = Some s.
Proof. intros. unfold truthy. by rewrite bool_decide_eq_false_2. Qed.

Section root.
Context (b64decode : string → option string) (ed25519_verify : string → string → string → bool).
Notation verify := (verify_transport_proof b64decode ed25519_verify).
Notation allowed := (candidate_transport_generation_allowed b64decode ed25519_verify).
Notation classify := (classify_trusted_candidate b64decode ed25519_verify).

(** The stored root signed [fingerprint] for a generation newer than the stored one. *)
Definition rotated (owner : NodeId) (stored : Material.t) (fingerprint : option string)
    (generation : option Z) (proof : option string) : Prop :=
  ∃ root g p, truthy (Material.root_public_key stored) = Some root ∧ generation = Some g ∧
    proof = Some p ∧ (∀ s, Material.transport_generation stored = Some s → (s < g)%Z) ∧
    verify owner root g (default "" fingerprint) p = true.

Lemma newer_true g stored : newer g stored = true ↔ ∀ s, stored = Some s → (s < g)%Z.
Proof.
  destruct stored as [s|]; simpl; [|naive_solver]. rewrite Z.ltb_lt. split; [|auto]. by intros ? ? [= <-].
Qed.

(** Exactly the stored fingerprint, or another one the stored root signed, is allowed. *)
Lemma allowed_exact owner st fingerprint generation proof : Material.transport_fingerprint st ≠ None →
  allowed owner st fingerprint generation proof = true ↔
    fingerprint = Material.transport_fingerprint st ∨
    (fingerprint ≠ Material.transport_fingerprint st ∧ (∃ s, truthy proof = Some s) ∧
     rotated owner st fingerprint generation proof).
Proof.
  intros Hne. unfold candidate_transport_generation_allowed, rotated.
  destruct (Material.transport_fingerprint st) as [f|]; [|done].
  destruct (decide (fingerprint = Some f)) as [->|Hf]; [tauto|].
  destruct (truthy (Material.root_public_key st)) as [key|]; [|naive_solver].
  destruct generation as [g|]; [|naive_solver].
  destruct (truthy proof) as [s|] eqn:Hs; [|naive_solver]. apply truthy_Some in Hs as [-> _].
  rewrite andb_true_iff, newer_true. split.
  - intros [Hn Hv]. right. split; [done|]. split; [eauto|]. by exists key, g, s.
  - intros [?|(_ & _ & key' & g' & s' & E1 & E2 & E3 & Hn & Hv)]; [done|]. by simplify_eq.
Qed.

(** A peer's pinned transport changes only with its root's signature: candidate material
    with another fingerprint is admitted only when the stored root signed it for a
    generation newer than the stored one, so an old signature never rolls it back; and the
    classification of a trusted peer agrees: a new fingerprint keeps the peer trusted only
    under the stored root key and such a signature, and any other root key is an identity
    conflict. *)
Theorem transport_follows_the_root m p peer stored fingerprint generation proof root now :
  trusted m !! p = Some peer → stored = TrustedPeer.material peer →
  Material.transport_fingerprint stored ≠ None →
  (allowed p stored fingerprint generation proof = true ↔
     fingerprint = Material.transport_fingerprint stored ∨
     (fingerprint ≠ Material.transport_fingerprint stored ∧ (∃ s, truthy proof = Some s) ∧
      rotated p stored fingerprint generation proof)) ∧
  (classify m p root fingerprint generation proof now = OUTBOUND_TRUSTED →
     (∃ key, root = Some key ∧ truthy (Material.root_public_key stored) = Some key) ∧
     allowed p stored fingerprint generation proof = true) ∧
  (∀ key, truthy (Material.root_public_key stored) = Some key → root ≠ Some key →
     classify m p root fingerprint generation proof now = IDENTITY_CONFLICT).
Proof.
  intros Hp -> Hne. set (st := TrustedPeer.material peer) in *. split; [by apply allowed_exact|].
  unfold classify_trusted_candidate. rewrite Hp. fold st. split.
  - destruct (truthy (Material.root_public_key st)) as [key|] eqn:Hkey; [|done].
    destruct (negb (bool_decide (root = Some key))) eqn:Hr; [done|]. to_prop. intros H.
    split; [by exists key|]. apply (allowed_exact _ _ _ _ _ Hne).
    destruct (decide (fingerprint = Material.transport_fingerprint st)) as [?|Hf]; [by left|right].
    destruct (match generation, truthy proof, truthy fingerprint with
              | Some g, Some q, Some f => verify p key g f q | _, _, _ => false end) eqn:Hproven; [|done].
    destruct generation as [g|]; [|done]. destruct (truthy proof) as [q|] eqn:Hq; [|done].
    destruct (truthy fingerprint) as [f|] eqn:Hfp; [|done].
    apply truthy_Some in Hq as [-> Hqn], Hfp as [-> _]. split; [done|].
    split; [by exists q|].
    exists key, g, q. split_and!; try done. intros s Hst. rewrite Hst in H. simpl in H.
    destruct (s <? g)%Z eqn:Hlt; [lia|]. by destruct (is_auth_broken m p).
  - intros key -> Hr. rewrite bool_decide_eq_false_2 by done. done.
Qed.
End root.

(** ** A concrete manager *)

Definition sample_peer : NodeId := mkNodeId "peer".
Definition sample_material : Material.t :=
  Material.mk (Some "id") (Some "fp1") (Some "root") (Some 3%Z) (Some "sig").
Definition sample_manager : t :=
  mk (mkNodeId "self") (flit 300) []
    {[ sample_peer := TrustedPeer.mk sample_peer "s" {[Permission.Text "read_state"]} sample_material ]} ∅ ∅.

Lemma revocation_is_complete_witness :
  (pairing_exec [OAuthFailure sample_peer; OPrune (flit 9)] (revoke sample_peer sample_manager)).(trusted)
    !! sample_peer = None.
Proof.
  apply (revocation_is_complete sample_peer sample_manager [OAuthFailure sample_peer; OPrune (flit 9)]).
  repeat (apply Forall_cons_2; [intros H; exact H|]). apply Forall_nil_2.
Defined.

Lemma begin_exact_witness :
  let '(m', r) := begin_ sample_peer None Material.none "outbound" "pair" (flit 1) (flit 1) (flit 1) "tx" "k"
                    sample_manager in
  match r with Ok x => PendingPairing.intent x = "pair" | Err e => m' = sample_manager end.
Proof.
  pose proof (begin_exact sample_peer None Material.none "outbound" "pair" (flit 1) (flit 1) (flit 1) "tx" "k"
    sample_manager) as H.
  destruct (begin_ _ _ _ _ _ _ _ _ _ _ _) as [m' [x|e]].
  - apply H; apply (bool_decide_unpack _); vm_compute; exact I.
  - apply H; apply (bool_decide_unpack _); vm_compute; exact I.
Defined.

Lemma transport_follows_the_root_witness :
  candidate_transport_generation_allowed Some (λ _ _ _, true) sample_peer sample_material (Some "fp2")
    (Some 3%Z) (Some "sig") = false.
Proof.
  apply not_true_iff_false. intros H.
  destruct (transport_follows_the_root Some (λ _ _ _, true) sample_manager sample_peer
    (TrustedPeer.mk sample_peer "s" {[Permission.Text "read_state"]} sample_material) sample_material (Some "fp2") (Some 3%Z)
    (Some "sig") None (flit 0)) as [Hiff _].
  - apply lookup_singleton_eq.
  - reflexivity.
  - discriminate.
  - apply Hiff in H as [H|(_ & _ & root & g & q & _ & E & _ & Hn & _)]; [discriminate H|].
    injection E as <-. specialize (Hn 3%Z eq_refl). lia.
Defined.
