(* ===== verification/IdempotencyStore.v ===== *)
(** * Idempotency across a restart ([remote/wire_protocol.py])

    [IdempotencyCache._save_state] and [_load_state]: the completed results that have time
    left are written as a document and read back; an expiry is stored as the time that
    remains, since the clock of the next process is another one.  A retry after a restart
    is answered from the stored result. *)

From S2P Require Import Prelude PyFloat Identity PyJson Wire Caches.
Import IdempotencyCache.

(** Entries that are worth keeping at [now]. *)
Definition kept (now : float) (e : entry) : bool :=
  complete e && bool_decide (is_Some (result_ e)) && fltb now (expires_at e).

Definition entry_to_dict (now : float) (ke : (string * string) * entry) : json :=
  JObj [("key", JList [JStr ke.1.1; JStr ke.1.2]); ("fingerprint", JStr (fingerprint ke.2));
        ("result", default JNull (result_ ke.2)); ("remaining", JFloat (fsub (expires_at ke.2) now))].

(** The document [_save_state] gives to the store. *)
Definition _save_state (now : float) (s : t) : json :=
  JObj [("entries", JList (entry_to_dict now <$> List.filter (λ ke, kept now ke.2) (_entries s)))].

(** What an item holds, unless it is skipped. *)
Definition parse_entry (item : json) : option ((string * string) * string * list (string * json) * float) :=
  d ← is_obj item;
  let remaining := jget "remaining" d in
  if negb (is_number remaining) then None
  else match to_float remaining with
       | Err _ => None
       | Ok seconds =>
           match jget "key" d, jget "fingerprint" d, jget "result" d with
           | JList [JStr a; JStr b], JStr fp, JObj result =>
               if negb (isfinite seconds) || fleb seconds (flit 0) then None
               else Some ((a, b), fp, result, seconds)
           | _, _, _ => None
           end
       end.

(** The loop over the items; [clock i] is the reading for the [i]th entry made. *)
Fixpoint load_items (clock : nat → float) (i : nat) (items : list json) (s : t) : t :=
  match items with
  | [] => s
  | item :: items =>
      match parse_entry item with
      | None => load_items clock i items s
      | Some (key, fp, result, seconds) =>
          if (_max_entries s <=? Z.of_nat (length (_entries s)))%Z then s
          else load_items clock (S i) items
                 (mk (_ttl s) (_max_entries s)
                    (od_set key (mkEntry fp (fadd (clock i) seconds) true (Some (JObj result)) None true)
                       (_entries s)))
      end
  end.

(** [raw] is what the store loads, [None] when it raises. *)
Definition _load_state (raw : option json) (clock : nat → float) (s : t) : t :=
  match raw with
  | Some (JObj d) =>
      match jget_or "entries" (JList []) d with
      | JList items => load_items clock 0 items s
      | _ => s
      end
  | _ => s
  end.

(** ** What survives *)

(** The saved part of an entry, and what it becomes under the clock reading [c]. *)
Definition survives (now : float) (ke : (string * string) * entry) : bool :=
  kept now ke.2 && isfinite (fsub (expires_at ke.2) now)
  && negb (fleb (fsub (expires_at ke.2) now) (flit 0))
  && match result_ ke.2 with Some (JObj _) => true | _ => false end.

Definition revived (now c : float) (ke : (string * string) * entry) : (string * string) * entry :=
  (ke.1, mkEntry (fingerprint ke.2) (fadd c (fsub (expires_at ke.2) now)) true (result_ ke.2) None true).

Lemma parse_saved now ke : kept now ke.2 = true →
  parse_entry (entry_to_dict now ke) =
  match result_ ke.2 with
  | Some (JObj d) => if survives now ke
                     then Some (ke.1, fingerprint ke.2, d, fsub (expires_at ke.2) now) else None
  | _ => None
  end.
Proof.
  destruct ke as [[a b] e]. simpl. intros Hk. unfold parse_entry, entry_to_dict, survives, jget. simpl.
  rewrite Hk. destruct (result_ e) as [[]|]; simpl; try done. rewrite andb_true_r.
  destruct (isfinite _); simpl; [|done]. by destruct (fleb _ _).
Qed.

Lemma parse_saved_key now ke k fp d x : kept now ke.2 = true →
  parse_entry (entry_to_dict now ke) = Some (k, fp, d, x) → k = ke.1.
Proof.
  intros Hk. rewrite parse_saved by done.
  destruct (result_ ke.2) as [[]|]; try done. case_match; naive_solver.
Qed.

Definition add_entry (s : t) (key : string * string) (e : entry) : t :=
  mk (_ttl s) (_max_entries s) (od_set key e (_entries s)).

Lemma add_entry_length s key e :
  length (_entries (add_entry s key e)) ≤ S (length (_entries s)).
Proof.
  simpl. rewrite <- (length_fmap fst), <- (length_fmap fst (_entries s)), od_set_keys.
  case_decide; [lia|]. rewrite length_app. simpl. lia.
Qed.

(** Loading leaves the keys that no item has. *)
Lemma load_items_other clock i items s key :
  (∀ it k fp d x, it ∈ items → parse_entry it = Some (k, fp, d, x) → k ≠ key) →
  od_get key (_entries (load_items clock i items s)) = od_get key (_entries s).
Proof.
  revert i s. induction items as [|it items IH]; intros i s Hk; [done|]. simpl.
  destruct (parse_entry it) as [[[[k fp] r] x]|] eqn:Hp; [|apply IH; set_solver].
  case_match; [done|]. rewrite IH by set_solver. apply od_get_set_ne.
  eapply Hk; [apply list_elem_of_here|done].
Qed.

Lemma kept_items_other clock i now l s key : key ∉ l.*1 → Forall (λ ke, kept now ke.2 = true) l →
  od_get key (_entries (load_items clock i (entry_to_dict now <$> l) s)) = od_get key (_entries s).
Proof.
  intros Hk Hl. apply load_items_other.
  intros it k fp d x (ke & -> & Hin)%list_elem_of_fmap Hp ->.
  rewrite Forall_forall in Hl. apply parse_saved_key in Hp as ->; [|by apply Hl].
  apply Hk, list_elem_of_fmap. eauto.
Qed.

(** Loading a saved list into a cache with room for it: a surviving entry is there. *)
Lemma load_saved clock i now l s key e :
  NoDup l.*1 → Forall (λ ke, kept now ke.2 = true) l →
  (Z.of_nat (length (_entries s) + length l) <= _max_entries s)%Z →
  (key, e) ∈ l → survives now (key, e) = true →
  ∃ n, od_get key (_entries (load_items clock i (entry_to_dict now <$> l) s))
       = Some (revived now (clock n) (key, e)).2.
Proof.
  revert i s. induction l as [|ke l IH]; intros i s Hnd Hk Hroom Hin Hs; [set_solver|].
  apply NoDup_cons in Hnd as [Hfresh Hnd]. apply Forall_cons in Hk as [Hk Hks].
  rewrite fmap_cons. cbn [load_items]. rewrite parse_saved by done. simpl length in Hroom.
  destruct (_max_entries s <=? Z.of_nat (length (_entries s)))%Z eqn:Hfull; [lia|].
  apply elem_of_cons in Hin as [<-|Hin].
  - pose proof Hs as Hs'. unfold survives in Hs'. apply andb_true_iff in Hs' as [_ Hr].
    simpl fst in *. simpl snd in *.
    destruct (result_ e) as [[| | | | | |d]|] eqn:Hre; try done. rewrite Hs.
    exists i. rewrite kept_items_other by done. simpl.
    rewrite od_get_set_eq. unfold revived. simpl. by destruct (result_ e); simplify_eq.
  - assert (Hrest : ∀ k e', (Z.of_nat (length (_entries (add_entry s k e')) + length l)
                               <= _max_entries s)%Z).
    { intros k e'. pose proof (add_entry_length s k e'). lia. }
    assert (Hsame : (Z.of_nat (length (_entries s) + length l) <= _max_entries s)%Z) by lia.
    destruct (result_ ke.2) as [[]|]; eauto. destruct (survives now ke); [|eauto].
    apply (IH (S i) (add_entry s ke.1 (mkEntry (fingerprint ke.2)
             (fadd (clock i) (fsub (expires_at ke.2) now)) true (Some (JObj d)) None true))); auto.
Qed.

#[local] Arguments _prune : simpl never.

(** Idempotency survives a restart: a result that is complete and has time left when the cache
    is saved is, in a new process with room for the document, the answer to every retry of the
    same request while that time lasts on the new clock, without executing it again; another
    request under the same id is still refused. *)
Theorem restart_keeps_results clock now (s s' : t) key e d :
  NoDup (_entries s).*1 → _entries s' = [] →
  (Z.of_nat (length (_entries s)) <= _max_entries s')%Z →
  od_get key (_entries s) = Some e → survives now (key, e) = true → result_ e = Some (JObj d) →
  ∃ n, ∀ later, fleb (fadd (clock n) (fsub (expires_at e) now)) later = false →
    let reloaded := _load_state (Some (_save_state now s)) clock s' in
    (∃ s1 e1, start key (fingerprint e) later reloaded = (s1, Ok Waiter) ∧
       od_get key (_entries s1) = Some e1 ∧ event e1 = true ∧ joined e1 = Ok (JObj d)) ∧
    (∀ fp, fp ≠ fingerprint e →
       ∃ s1, start key fp later reloaded
             = (s1, raise IdempotencyCollisionError "request ID was reused")).
Proof.
  intros Hnd He Hroom Hget Hs Hr.
  destruct (load_saved clock 0 now (List.filter (λ ke, kept now ke.2) (_entries s)) s' key e)
    as (n & Hn).
  - by apply od_filter_NoDup.
  - apply Forall_forall. intros ke [? _]%elem_of_lfilter. done.
  - rewrite He. simpl. pose proof (filter_length_le (λ ke, kept now ke.2) (_entries s)). lia.
  - apply elem_of_lfilter. split; [|by apply od_get_elem].
    unfold survives in Hs. by to_prop.
  - done.
  - exists n. intros later Hl reloaded.
    change (od_get key (_entries reloaded) = Some (revived now (clock n) (key, e)).2) in Hn.
    unfold start.
    assert (Hp : od_get key (_entries (_prune reloaded later))
                 = Some (revived now (clock n) (key, e)).2).
    { apply od_get_filter_keep; [done|]. simpl. by rewrite Hl. }
    rewrite Hp. simpl. split.
    + rewrite decide_True by done. eexists _, _. split; [done|]. rewrite Hp.
      split; [done|]. unfold joined; simpl; by rewrite Hr.
    + intros fp Hfp. rewrite decide_False by done. eauto.
Qed.

(** A result saved with 40 seconds left, read by a process whose clock starts at zero. *)
Lemma restart_keeps_results_witness :
  let e := mkEntry "f" (flit 140) true (Some (JObj [("ok", JBool true)])) None true in
  let s := mk (flit 60) 8 [(("a", "r"), e)] in
  let s' := mk (flit 60) 8 [] in
  let reloaded := _load_state (Some (_save_state (flit 100) s)) (λ _, flit 0) s' in
  ∃ s1 e1, start ("a", "r") "f" (flit 39) reloaded = (s1, Ok Waiter) ∧
    od_get ("a", "r") (_entries s1) = Some e1 ∧ event e1 = true ∧
    joined e1 = Ok (JObj [("ok", JBool true)]).
Proof.
  intros e s s'.
  destruct (restart_keeps_results (λ _, flit 0) (flit 100) s s' ("a", "r") e [("ok", JBool true)])
    as (n & Hn).
  - apply NoDup_singleton.
  - reflexivity.
  - by vm_compute.
  - reflexivity.
  - by vm_compute.
  - reflexivity.
  - apply (Hn (flit 39)). by vm_compute.
Defined.
