(* ===== verification/Surfaces.v ===== *)
(** * Surfaces ([surfaces/registry.py], [surfaces/provider.py])

    A surface is a named set of host handlers; access to it is granted per peer or per
    cluster source, for one kind of access, until an expiry.  Handlers are values of an
    opaque type [H]; calling one is the argument [run], which may change the world it
    runs in.  Arguments have the types the source declares; an expiry, which the source
    checks, is any value. *)

From S2P Require Import Prelude PyFloat Identity ClusterModels Sharing PyJson SurfaceWire Wire.

Inductive SurfaceAccess := READ | REVIEW | ACTION.

#[export] Instance SurfaceAccess_eq_dec : EqDecision SurfaceAccess.
Proof. solve_decision. Defined.

Module SurfaceAccess.
Definition value (a : SurfaceAccess) : string :=
  match a with READ => "read" | REVIEW => "review" | ACTION => "action" end.
(** [SurfaceAccess(text)] *)
Definition of_value (s : string) : result SurfaceAccess :=
  match List.find (λ a, bool_decide (value a = s)) [READ; REVIEW; ACTION] with
  | Some a => Ok a
  | None => raise ValueError ("'" +:+ s +:+ "' is not a valid SurfaceAccess")
  end.
Lemma access_of_value a : of_value (value a) = Ok a.
Proof. by destruct a. Qed.
End SurfaceAccess.

#[export] Instance SurfaceAccess_countable : Countable SurfaceAccess.
Proof.
  refine (inj_countable SurfaceAccess.value
    (λ s, match SurfaceAccess.of_value s with Ok a => Some a | Err _ => None end) _).
  intros a. by rewrite SurfaceAccess.access_of_value.
Defined.

(** A hashable source of cluster authority: a node id, or a key of the host's own. *)
Inductive Source := Node (n : NodeId) | Key (k : string).

#[export] Instance Source_eq_dec : EqDecision Source.
Proof. solve_decision. Defined.
#[export] Instance Source_countable : Countable Source.
Proof.
  refine (inj_countable' (λ s, match s with Node n => inl n | Key k => inr k end)
    (λ x, match x with inl n => Node n | inr k => Key k end) _).
  by intros [].
Defined.

Module SurfaceDefinition.
Record t {H : Type} := mk {
  surface_id : string;
  read : H;
  review : option H;
  actions : list (string * H) }.
Arguments t : clear implicits.
Arguments mk {H}.
End SurfaceDefinition.

Module SurfaceGrant.
Record t := mk {
  source : Source;
  surface_id : string;
  access : SurfaceAccess;
  expires_at : option float;
  cluster : bool }.
End SurfaceGrant.

Module SurfaceRegistry.
Section registry.
Context {H : Type}.

Record t := mk {
  _definitions : gmap string (SurfaceDefinition.t H);
  _peer_grants : gmap (NodeId * string * SurfaceAccess) SurfaceGrant.t;
  _cluster_grants : gmap (Source * string * SurfaceAccess) SurfaceGrant.t }.

Definition __init__ : t := mk ∅ ∅ ∅.

Definition _validate_id (value kind : string) : result () :=
  raise_if (is_blank value || (MAX_SURFACE_ID_LENGTH <? py_len value)%Z) ValueError
    ("invalid " +:+ kind +:+ " id").

Definition _validate_source (source : option Source) : result Source :=
  of_option source ValueError "invalid cluster source".

Definition _access (access : string) : result SurfaceAccess :=
  catch ValueError (SurfaceAccess.of_value access) (raise ValueError "invalid surface access").

Definition _expiry (expires_at : json) : result (option float) :=
  match expires_at with
  | JNull => Ok None
  | _ =>
      raise_if (negb (is_number expires_at)) TypeError "expiry must be numeric";;
      x ← to_float expires_at;
      raise_if (negb (isfinite x)) ValueError "expiry must be finite";;
      Ok (Some x)
  end.

(** The actions accepted so far, extended with the rest. *)
Fixpoint collect_actions (items acc : list (string * H)) : result (list (string * H)) :=
  match items with
  | [] => Ok acc
  | (action_id, handler) :: items =>
      _validate_id action_id "action";;
      raise_if (od_mem action_id acc) ValueError "duplicate surface action";;
      collect_actions items (od_set action_id handler acc)
  end.

(** [actions] is the list of items, empty when the argument is [None]. *)
Definition register (surface_id : string) (read : H) (review : option H) (actions : list (string * H))
    : M t (SurfaceDefinition.t H) := λ s,
  match (_validate_id surface_id "surface";;
         raise_if (bool_decide (is_Some (_definitions s !! surface_id))) ValueError "duplicate surface";;
         collect_actions actions []) with
  | Err e => (s, Err e)
  | Ok handlers =>
      let definition := SurfaceDefinition.mk surface_id read review handlers in
      (mk (<[surface_id := definition]> (_definitions s)) (_peer_grants s) (_cluster_grants s),
       Ok definition)
  end.

Definition _new_grant (s : t) (source : Source) (surface_id access : string) (expires_at : json)
    (cluster : bool) : result SurfaceGrant.t :=
  raise_if (negb (bool_decide (is_Some (_definitions s !! surface_id)))) ValueError "unknown surface";;
  _validate_id surface_id "surface";;
  normalized_expiry ← _expiry expires_at;
  access ← _access access;
  Ok (SurfaceGrant.mk source surface_id access normalized_expiry cluster).

Definition grant_peer (peer_id : NodeId) (surface_id access : string) (expires_at : json)
    : M t SurfaceGrant.t := λ s,
  match _new_grant s (Node peer_id) surface_id access expires_at false with
  | Err e => (s, Err e)
  | Ok grant =>
      (mk (_definitions s)
         (<[(peer_id, surface_id, SurfaceGrant.access grant) := grant]> (_peer_grants s))
         (_cluster_grants s), Ok grant)
  end.

Definition grant_cluster (source : option Source) (surface_id access : string) (expires_at : json)
    : M t SurfaceGrant.t := λ s,
  match (source ← _validate_source source;
         grant ← _new_grant s source surface_id access expires_at true;
         Ok (source, grant)) with
  | Err e => (s, Err e)
  | Ok (source, grant) =>
      (mk (_definitions s) (_peer_grants s)
         (<[(source, surface_id, SurfaceGrant.access grant) := grant]> (_cluster_grants s)), Ok grant)
  end.

Definition revoke_peer (peer_id : NodeId) (surface_id : string) (access : option string) : M t () := λ s,
  match access with
  | None =>
      (mk (_definitions s)
         (base.filter (λ kg : NodeId * string * SurfaceAccess * SurfaceGrant.t,
            ¬ (kg.1.1.1 = peer_id ∧ kg.1.1.2 = surface_id)) (_peer_grants s))
         (_cluster_grants s), Ok ())
  | Some access =>
      match _access access with
      | Err e => (s, Err e)
      | Ok normalized =>
          (mk (_definitions s) (delete (peer_id, surface_id, normalized) (_peer_grants s))
             (_cluster_grants s), Ok ())
      end
  end.

Definition stop_peer (peer_id : NodeId) (surface_id : string) : M t () :=
  revoke_peer peer_id surface_id None.

Definition revoke_source (source : Source) : M t () := λ s,
  (mk (_definitions s)
     (base.filter (λ kg : NodeId * string * SurfaceAccess * SurfaceGrant.t, Node kg.1.1.1 ≠ source)
        (_peer_grants s))
     (base.filter (λ kg : Source * string * SurfaceAccess * SurfaceGrant.t, kg.1.1.1 ≠ source)
        (_cluster_grants s)), Ok ()).

Definition clear_grants : M t () := λ s, (mk (_definitions s) ∅ ∅, Ok ()).

Definition _valid (grant : option SurfaceGrant.t) (now : float) : bool :=
  match grant with
  | None => false
  | Some g => match SurfaceGrant.expires_at g with None => true | Some e => fleb now e end
  end.

Definition _handler (definition : SurfaceDefinition.t H) (access : SurfaceAccess)
    (action : option string) : result H :=
  match access with
  | READ => Ok (SurfaceDefinition.read definition)
  | REVIEW => of_option (SurfaceDefinition.review definition) PermissionError
                "surface review is not available"
  | ACTION =>
      action ← of_option action ValueError "surface action is required";
      of_option (od_get action (SurfaceDefinition.actions definition)) ValueError "unknown surface action"
  end.

(** The first source with a grant that is valid. *)
Definition cluster_grant_for (s : t) (sources : list Source) (surface_id : string)
    (access : SurfaceAccess) (current : float) : option SurfaceGrant.t :=
  source ← List.find (λ source, _valid (_cluster_grants s !! (source, surface_id, access)) current) sources;
  _cluster_grants s !! (source, surface_id, access).

(** [current] is the argument [now] or the clock. *)
Definition _authorized_handler (s : t) (peer_id : NodeId) (surface_id access : string)
    (action : option string) (cluster_sources : list Source) (current : float) : result H :=
  normalized ← _access access;
  let grant := _peer_grants s !! (peer_id, surface_id, normalized) in
  let grant := if _valid grant current then grant
               else cluster_grant_for s cluster_sources surface_id normalized current in
  match grant with
  | None => raise PermissionError "surface access is not authorized"
  | Some _ =>
      definition ← of_option (_definitions s !! surface_id) ValueError "unknown surface";
      _handler definition normalized action
  end.

Definition authorize (s : t) (peer_id : NodeId) (surface_id access : string) (action : option string)
    (cluster_sources : list Source) (current : float) : result () :=
  _ ← _authorized_handler s peer_id surface_id access action cluster_sources current;
  Ok ().

Definition dispatch {W} (run : H → NodeId → json → M W json) (s : t) (peer_id : NodeId)
    (surface_id access : string) (action : option string) (params : option json)
    (cluster_sources : list Source) (current : float) : M W json := λ w,
  match _authorized_handler s peer_id surface_id access action cluster_sources current with
  | Err e => (w, Err e)
  | Ok handler =>
      match run handler peer_id (default (JObj []) params) w with
      | (w', Ok v) => (w', Ok v)
      | (w', Err _) => (w', raise SurfaceHandlerError "surface handler failed")
      end
  end.
End registry.
Arguments t : clear implicits.
End SurfaceRegistry.

(** ** Remote requests ([surfaces/provider.py]) *)

Section provider.
Context (float_repr : float → string) {H W : Type} (run : H → NodeId → json → M W json).

(** The value of a parameter that must be there. *)
Definition required_text (key : string) (d : list (string * json)) : result string :=
  match od_get key d with
  | Some (JStr s) => Ok s
  | Some _ => raise TypeError "text expected"
  | None => raise KeyError key
  end.

(** [request.params.get("action")] *)
Definition action_of (d : list (string * json)) : option string := is_str (jget "action" d).

Definition sources_of (caller : NodeId) (cluster_grant : option CapabilityGrant.t) : list Source :=
  match cluster_grant with Some _ => [Node caller] | None => [] end.

Definition dispatch_surface_request (registry : option (SurfaceRegistry.t H)) (request : RemoteRequest.t)
    (cluster_grant : option CapabilityGrant.t) (current : float) : M W json :=
  caller ← lift (of_option (RemoteRequest.caller_node_id request) RemoteAuthorizationError
                   "caller identity required for surface requests");
  registry ← lift (of_option registry RemoteUnavailableError "surface sharing is unavailable");
  let op := RemoteRequest.op request in
  let params := RemoteRequest.params request in
  throw_if (negb (bool_decide (op ∈ SURFACE_OPERATIONS))) RemoteProtocolError
    ("unknown surface operation: " +:+ op);;
  lift (validate_surface_operation_params float_repr op (JObj params) RemoteProtocolError);;
  throw_if match cluster_grant with
           | Some g => negb (bool_decide (CapabilityGrant.subject g = caller))
                       || negb (bool_decide (CapabilityGrant.target g = RemoteRequest.node_id request))
           | None => false
           end RemoteAuthorizationError "cluster authorization context is invalid";;
  surface_id ← lift (required_text "surface_id" params);
  access ← lift (of_option (od_get op SURFACE_ACCESS_BY_OPERATION) KeyError op);
  SurfaceRegistry.dispatch run registry caller surface_id access (action_of params)
    (Some (jget_or "params" (JObj []) params)) (sources_of caller cluster_grant) current.
End provider.

(** *** The client side *)

Section client.
Context (float_repr : float → string) {W : Type}.
(** [self._request], the signed exchange with the peer. *)
Context (_request : string → json → M W json).

Definition _surface_request (operation : string) (params : json) : M W json :=
  lift (validate_surface_operation_params float_repr operation params RemoteProtocolError);;
  payload ← _request operation params;
  lift (match payload with
        | JObj d => of_option (od_get "result" d) RemoteProtocolError "surface response has no result"
        | _ => raise RemoteProtocolError "surface response has no result"
        end).

Definition _normalize_surface_params (params : json) : result json :=
  match params with
  | JNull => Ok (JObj [])
  | JObj d => Ok (JObj d)
  | _ => raise RemoteProtocolError "surface params must be an object"
  end.

Definition read_surface (surface_id : string) (params : json) : M W json :=
  params ← lift (_normalize_surface_params params);
  _surface_request SURFACE_READ (JObj [("surface_id", JStr surface_id); ("params", params)]).

Definition review_surface (surface_id : string) (params : json) : M W json :=
  params ← lift (_normalize_surface_params params);
  _surface_request SURFACE_REVIEW (JObj [("surface_id", JStr surface_id); ("params", params)]).

Definition invoke_surface_action (surface_id action : string) (params : json) : M W json :=
  params ← lift (_normalize_surface_params params);
  _surface_request SURFACE_ACTION
    (JObj [("surface_id", JStr surface_id); ("action", JStr action); ("params", params)]).
End client.
