(* ===== verification/SurfacesSpec.v ===== *)
(** * Surfaces: access is exactly what was granted, and withdrawal is final

    [served] is the specification of an access decision; histories of the registry's
    operations show that only an explicit grant gives access and that a revoked source
    stays without any until it is granted again. *)

From S2P Require Import Prelude PyFloat Identity ClusterModels Sharing PyJson SurfaceWire Wire Surfaces.
Import SurfaceRegistry.

Section spec.
Context {H : Type}.
Notation registry := (SurfaceRegistry.t H).
Implicit Types (s : registry) (p : NodeId) (id : string) (a : SurfaceAccess).

(** ** The specification *)

(** A grant is live at [now]: it has no expiry or one that is not past. *)
Definition live (g : SurfaceGrant.t) (now : float) : Prop :=
  ∀ e, SurfaceGrant.expires_at g = Some e → fleb now e = true.

(** The peer itself, or one of its cluster sources, holds a live grant. *)
Definition permitted s p id a (sources : list Source) (now : float) : Prop :=
  (∃ g, _peer_grants s !! (p, id, a) = Some g ∧ live g now) ∨
  (∃ src g, src ∈ sources ∧ _cluster_grants s !! (src, id, a) = Some g ∧ live g now).

(** What the host registered for the access. *)
Definition registered s id a (action : option string) (h : H) : Prop :=
  ∃ d, _definitions s !! id = Some d ∧
  match a with
  | READ => SurfaceDefinition.read d = h
  | REVIEW => SurfaceDefinition.review d = Some h
  | ACTION => ∃ name, action = Some name ∧ od_get name (SurfaceDefinition.actions d) = Some h
  end.

Definition served s p id (access : string) action sources now (h : H) : Prop :=
  ∃ a, SurfaceAccess.of_value access = Ok a ∧ permitted s p id a sources now ∧
       registered s id a action h.

(** ** The decision *)

Lemma valid_live g now : _valid (Some g) now = true ↔ live g now.
Proof.
  unfold _valid, live. destruct (SurfaceGrant.expires_at g); naive_solver.
Qed.

Lemma valid_Some o now : _valid o now = true ↔ ∃ g, o = Some g ∧ live g now.
Proof.
  destruct o as [g|]; [|naive_solver]. rewrite valid_live. naive_solver.
Qed.

Lemma cluster_grant_spec s sources id a now :
  is_Some (cluster_grant_for s sources id a now) ↔
  ∃ src g, src ∈ sources ∧ _cluster_grants s !! (src, id, a) = Some g ∧ live g now.
Proof.
  unfold cluster_grant_for. destruct (List.find _ sources) as [src|] eqn:Hf; simpl.
  - apply find_Some_spec in Hf as [Hin (g & Hg & Hl)%valid_Some]. rewrite Hg. naive_solver.
  - split; [by intros [? ?]|]. intros (src & g & Hin & Hg & Hl).
    apply (find_None_spec _ _ src) in Hf; [|done].
    assert (_valid (_cluster_grants s !! (src, id, a)) now = true) by (apply valid_Some; eauto).
    congruence.
Qed.

Lemma handler_registered s id a action h d : _definitions s !! id = Some d →
  _handler d a action = Ok h ↔ registered s id a action h.
Proof.
  intros Hd. unfold registered, _handler. rewrite Hd. destruct a; simpl.
  - naive_solver.
  - rewrite of_option_Ok. naive_solver.
  - rewrite bind_Ok. split.
    + intros (n & Hn%of_option_Ok & Hh%of_option_Ok). eauto 6.
    + intros (d' & [= <-] & n & -> & Hn). exists n. by rewrite Hn.
Qed.

(** The grant the decision is made with, as the source finds it. *)
Lemma grant_found s p id a sources now :
  is_Some (if _valid (_peer_grants s !! (p, id, a)) now then _peer_grants s !! (p, id, a)
           else cluster_grant_for s sources id a now) ↔ permitted s p id a sources now.
Proof.
  unfold permitted. rewrite <- cluster_grant_spec.
  destruct (_valid (_peer_grants s !! (p, id, a)) now) eqn:Hv.
  - apply valid_Some in Hv as (g & Hg & Hl). rewrite Hg. naive_solver.
  - split; [auto|]. intros [(g & Hg & Hl)|?]; [|done].
    assert (_valid (_peer_grants s !! (p, id, a)) now = true) by (apply valid_Some; eauto).
    congruence.
Qed.

Lemma access_Ok access a : _access access = Ok a ↔ SurfaceAccess.of_value access = Ok a.
Proof.
  unfold _access, catch. destruct (SurfaceAccess.of_value access) as [b|e]; [done|].
  destruct (exn_isa e ValueError); naive_solver.
Qed.

Lemma authorized_handler_exact s p id access action sources now h :
  _authorized_handler s p id access action sources now = Ok h ↔
  served s p id access action sources now h.
Proof.
  unfold _authorized_handler, served. rewrite bind_Ok. apply exist_proper. intros a.
  rewrite access_Ok, <- (grant_found s p id a sources now).
  apply and_iff_compat_l.
  destruct (if _valid _ _ then _ else _) as [g|]; [|split; [done|by intros [[? ?] _]]].
  rewrite bind_Ok. setoid_rewrite of_option_Ok.
  split.
  - intros (d & Hd & Hh). split; [eauto|]. by rewrite <- (handler_registered s id a action h d).
  - intros [_ Hr]. pose proof Hr as (d & Hd & _). exists d. split; [done|].
    by rewrite (handler_registered s id a action h d).
Qed.

(** A caller without a live grant is refused whatever the host registered. *)
Lemma not_permitted_refused s p id access action sources now a :
  SurfaceAccess.of_value access = Ok a → ¬ permitted s p id a sources now →
  _authorized_handler s p id access action sources now
  = raise PermissionError "surface access is not authorized".
Proof.
  intros Ha Hn. unfold _authorized_handler. rewrite (proj2 (access_Ok access a)) by done. simpl.
  rewrite <- grant_found in Hn.
  destruct (if _valid _ _ then _ else _) as [g|]; [|done]. by destruct Hn.
Qed.

(** Surface access: a request runs a handler exactly when the caller, or a cluster source it
    speaks for, holds a live grant of that access to that surface, and then it runs the one
    handler the host registered for it; otherwise nothing runs and the world is unchanged.
    A handler's own failure is reported as such, never as a result. *)
Theorem surface_access_exact {W} (run : H → NodeId → json → M W json) s p id access action params
    sources now (w : W) :
  (∀ h, served s p id access action sources now h →
     dispatch run s p id access action params sources now w =
     match run h p (default (JObj []) params) w with
     | (w', Ok v) => (w', Ok v)
     | (w', Err _) => (w', raise SurfaceHandlerError "surface handler failed")
     end) ∧
  ((∀ h, ¬ served s p id access action sources now h) →
     ∃ e, dispatch run s p id access action params sources now w = (w, Err e)) ∧
  (∀ a, SurfaceAccess.of_value access = Ok a → ¬ permitted s p id a sources now →
     dispatch run s p id access action params sources now w
     = (w, raise PermissionError "surface access is not authorized")).
Proof.
  unfold dispatch. split_and!.
  - intros h Hs%authorized_handler_exact. by rewrite Hs.
  - intros Hn. destruct (_authorized_handler _ _ _ _ _ _ _) as [h|e] eqn:He; [|eauto].
    by apply authorized_handler_exact, Hn in He.
  - intros a Ha Hn. by rewrite (not_permitted_refused _ _ _ _ _ _ _ a).
Qed.

(** ** Histories *)

Inductive surface_op :=
  | FRegister (id : string) (read : H) (review : option H) (actions : list (string * H))
  | FGrantPeer (p : NodeId) (id access : string) (expires_at : json)
  | FGrantCluster (src : option Source) (id access : string) (expires_at : json)
  | FRevokePeer (p : NodeId) (id : string) (access : option string)
  | FRevokeSource (src : Source)
  | FClear.

Definition surface_run (o : surface_op) (s : registry) : registry :=
  match o with
  | FRegister id read review actions => (register id read review actions s).1
  | FGrantPeer p id access x => (grant_peer p id access x s).1
  | FGrantCluster src id access x => (grant_cluster src id access x s).1
  | FRevokePeer p id access => (revoke_peer p id access s).1
  | FRevokeSource src => (revoke_source src s).1
  | FClear => (clear_grants s).1
  end.

Definition surface_exec (ops : list surface_op) (s : registry) : registry :=
  foldl (flip surface_run) s ops.

(** [o] may give [p] access, directly or as a cluster source. *)
Definition grants_to (o : surface_op) p : bool :=
  match o with
  | FGrantPeer p' _ _ _ => bool_decide (p' = p)
  | FGrantCluster src _ _ _ => bool_decide (src = Some (Node p))
  | _ => false
  end.

(** [p] holds nothing. *)
Definition bare s p : Prop :=
  ∀ id a, _peer_grants s !! (p, id, a) = None ∧ _cluster_grants s !! (Node p, id, a) = None.

Lemma new_grant_access s src id access x c g :
  _new_grant s src id access x c = Ok g → SurfaceGrant.source g = src.
Proof. unfold _new_grant. intros. by py_run. Qed.

Lemma revoke_source_bare s p : bare (surface_run (FRevokeSource (Node p)) s) p.
Proof.
  intros id a. simpl. split; apply map_lookup_filter_None; right; intros; simpl; auto.
Qed.

Lemma filter_None_keep {K A} `{Countable K} (P : K * A → Prop) `{∀ x, Decision (P x)}
    (m : gmap K A) k : m !! k = None → base.filter P m !! k = None.
Proof. intros. apply map_lookup_filter_None. by left. Qed.

Lemma run_bare o s p : bare s p → grants_to o p = false → bare (surface_run o s) p.
Proof.
  intros Hb Ho id a. destruct (Hb id a) as [Hp Hc]. destruct o; simpl in *; try done.
  - unfold register. by case_match.
  - unfold grant_peer. case_match; simpl; [|done]. apply bool_decide_eq_false in Ho.
    by rewrite lookup_insert_ne by congruence.
  - unfold grant_cluster. destruct (_ ≫= _) as [[src' g]|e] eqn:Hg; simpl; [|done].
    apply bool_decide_eq_false in Ho. unfold _validate_source in Hg. py_run.
    by rewrite lookup_insert_ne by congruence.
  - unfold revoke_peer. destruct access as [access|]; simpl.
    + case_match; simpl; [|done]. split; [|done]. by apply lookup_delete_None; right.
    + split; [|done]. by apply filter_None_keep.
  - split; by apply filter_None_keep.
Qed.

Lemma exec_bare ops s p : bare s p → forallb (λ o, negb (grants_to o p)) ops = true →
  bare (surface_exec ops s) p.
Proof.
  revert s. induction ops as [|o ops IH]; intros s Hb Hops; [done|].
  simpl in Hops. to_prop. apply IH; [|done]. by apply run_bare.
Qed.

Lemma bare_not_permitted s p id a now (cluster : bool) : bare s p →
  ¬ permitted s p id a (if cluster then [Node p] else []) now.
Proof.
  intros Hb [(g & Hg & _)|(src & g & Hin & Hg & _)].
  - destruct (Hb id a) as [? _]. congruence.
  - destruct cluster; [|set_solver]. apply list_elem_of_singleton in Hin as ->.
    destruct (Hb id a) as [_ ?]. congruence.
Qed.

(** Revocation of a source is final: after [revoke_source], and through every later history
    that does not grant the peer anything again, whatever else is registered, granted or
    revoked, each request of that peer is refused before any handler runs, at every time and
    for every access, also when it comes with cluster authority of its own. *)
Theorem surface_revocation_is_final {W} (run : H → NodeId → json → M W json) s p ops id a action
    params (cluster : bool) now (w : W) :
  forallb (λ o, negb (grants_to o p)) ops = true →
  dispatch run (surface_exec (FRevokeSource (Node p) :: ops) s) p id (SurfaceAccess.value a) action
    params (if cluster then [Node p] else []) now w
  = (w, raise PermissionError "surface access is not authorized").
Proof.
  intros Hops. unfold dispatch.
  rewrite (not_permitted_refused _ _ _ _ _ _ _ a); [done|apply SurfaceAccess.access_of_value|].
  apply bare_not_permitted. apply (exec_bare ops); [|done]. apply revoke_source_bare.
Qed.
End spec.

Lemma surface_revocation_is_final_witness :
  let ops := [FRegister "door" tt None []; FGrantPeer (mkNodeId "a") "door" "read" JNull] in
  let s := surface_exec ops SurfaceRegistry.__init__ in
  let run := λ (_ : unit) (_ : NodeId) (_ : json), (λ w, (S w, Ok JNull)) : M nat json in
  dispatch run s (mkNodeId "a") "door" "read" None None [] (flit 5) 0 = (1, Ok JNull) ∧
  dispatch run (surface_exec [FRevokeSource (Node (mkNodeId "a")); FClear] s) (mkNodeId "a") "door"
    "read" None None [] (flit 5) 0
  = (0, raise PermissionError "surface access is not authorized").
Proof.
  split; [reflexivity|].
  apply (surface_revocation_is_final _ _ (mkNodeId "a") [FClear] "door" READ None None false).
  reflexivity.
Defined.
