(* ===== verification/CloneTree.v ===== *)
(** * The clone of a stored document ([persistence.py])

    [_clone_json_tree] copies a graph of Python containers, with its sharing and its cycles: a
    memo maps the identity of each container to the identity of its copy.  Containers have an
    identity in a heap of objects, and a copy is a new object of it.  The recursion is bounded by
    fuel; the interpreter's own limit on nested calls is not modelled. *)

From S2P Require Import Prelude PyFloat SurfaceWire.

(** ** The heap *)

Record store := mkStore {
  objects : gmap nat container;
  next : nat;
  memo : gmap nat nat }.

(** A method that may raise; [None] when the fuel runs out. *)
Definition T (A : Type) : Type := store → option (store * result A).
#[export] Instance T_ret : MRet T := λ A a s, Some (s, Ok a).
#[export] Instance T_bind : MBind T := λ A B f m s,
  match m s with
  | Some (s, Ok a) => f a s
  | Some (s, Err e) => Some (s, Err e)
  | None => None
  end.
Definition T_raise {A} (c : exn_class) (msg : string) : T A := λ s, Some (s, raise c msg).
Definition T_fuel {A} : T A := λ _, None.

(** The contents of an object and its copy. *)
Definition deref (id : nat) : T container := λ s,
  Some (s, of_option (objects s !! id) OtherError "no such object").
Definition copy_of (id : nat) : T (option nat) := λ s, Some (s, Ok (memo s !! id)).

(** [memo[id] = cloned], a new container. *)
Definition new_copy (id : nat) (c : container) : T nat := λ s,
  Some (mkStore (<[next s := c]> (objects s)) (S (next s)) (<[id := next s]> (memo s)), Ok (next s)).

Definition modify (id : nat) (f : container → container) : T () := λ s,
  Some (mkStore (alter f id (objects s)) (next s) (memo s), Ok ()).

(** [cloned.append(v)] *)
Definition append (v : pyval) (c : container) : container :=
  match c with PList l => PList (l ++ [v]) | PDict d => PDict d end.

(** [cloned[k] = v] *)
Fixpoint put (k : string) (v : pyval) (d : list (pyval * pyval)) : list (pyval * pyval) :=
  match d with
  | [] => [(PStr k, v)]
  | (PStr k', w) :: d => if bool_decide (k = k') then (PStr k', v) :: d else (PStr k', w) :: put k v d
  | kw :: d => kw :: put k v d
  end.
Definition set_key (k : string) (v : pyval) (c : container) : container :=
  match c with PList l => PList l | PDict d => PDict (put k v d) end.

Fixpoint for_each {A} (f : A → T ()) (l : list A) : T () :=
  match l with
  | [] => mret ()
  | a :: l => f a;; for_each f l
  end.

(** ** The clone *)

Fixpoint _clone_json_tree (fuel : nat) (v : pyval) : T pyval :=
  match fuel with
  | O => T_fuel
  | S fuel =>
      match v with
      | PNone | PBool _ | PInt _ | PFloat _ | PStr _ => mret v
      | POther => T_raise NonJsonTreeError ""
      | PRef id =>
          c ← deref id;
          seen ← copy_of id;
          match seen with
          | Some cloned => mret (PRef cloned)
          | None =>
              match c with
              | PList items =>
                  cloned ← new_copy id (PList []);
                  for_each (λ item, w ← _clone_json_tree fuel item; modify cloned (append w)) items;;
                  mret (PRef cloned)
              | PDict items =>
                  cloned ← new_copy id (PDict []);
                  for_each (λ kv, match kv.1 with
                                  | PStr key => w ← _clone_json_tree fuel kv.2; modify cloned (set_key key w)
                                  | _ => T_raise NonJsonTreeError ""
                                  end) items;;
                  mret (PRef cloned)
              end
          end
      end
  end.

(** [copy.deepcopy] where the fast path does not apply. *)
Definition _clone_state (deepcopy : pyval → T pyval) (fuel : nat) (v : pyval) : T pyval := λ s,
  match _clone_json_tree fuel v (mkStore (objects s) (next s) ∅) with
  | Some (s', Err e) => if exn_isa e NonJsonTreeError then deepcopy v s' else Some (s', Err e)
  | r => r
  end.

(** * The clone is the graph it was made from

    The clone of any object graph, shared or cyclic, terminates; it is isomorphic to the graph,
    disjoint from it, and refused exactly when something that is not JSON can be reached. *)

(** ** The image of a graph under a memo *)

(** What a value becomes; only JSON values have an image. *)
Definition image (m : gmap nat nat) (v : pyval) : option pyval :=
  match v with PRef id => PRef <$> m !! id | POther => None | _ => Some v end.
Definition image_entry (m : gmap nat nat) (kv : pyval * pyval) : option (pyval * pyval) :=
  match kv.1 with PStr _ => pair kv.1 <$> image m kv.2 | _ => None end.
Definition image_container (m : gmap nat nat) (c : container) : option container :=
  match c with
  | PList l => PList <$> mapM (image m) l
  | PDict d => PDict <$> mapM (image_entry m) d
  end.

(** Something that is not JSON can be reached from the value. *)
Inductive non_json (h : gmap nat container) : pyval → Prop :=
  | non_json_other : non_json h POther
  | non_json_key id d k v : h !! id = Some (PDict d) → (k, v) ∈ d → (∀ t, k ≠ PStr t) → non_json h (PRef id)
  | non_json_child id c v : h !! id = Some c → v ∈ values c → non_json h v → non_json h (PRef id).

(** Every reference leads to an object, and a dict has each text key once. *)
Definition allocated (h : gmap nat container) (v : pyval) : Prop :=
  match v with PRef id => is_Some (h !! id) | _ => True end.
Record closed_heap (h : gmap nat container) : Prop := {
  closed_values : ∀ id c v, h !! id = Some c → v ∈ values c → allocated h v;
  closed_keys : ∀ id d, h !! id = Some (PDict d) → NoDup d.*1 }.

Lemma image_mono m m' v w : m ⊆ m' → image m v = Some w → image m' v = Some w.
Proof.
  intros Hm. destruct v; simpl; try done. rewrite !fmap_Some. intros (j & Hj & ->). exists j.
  split; [|done]. by eapply lookup_weaken.
Qed.
Lemma image_entry_mono m m' v w : m ⊆ m' → image_entry m v = Some w → image_entry m' v = Some w.
Proof.
  intros Hm. unfold image_entry. destruct v as [[] v]; try done. simpl. rewrite !fmap_Some.
  intros (x & Hx & ->). exists x. split; [|done]. by eapply image_mono.
Qed.
Lemma mapM_mono {A B} (f g : A → option B) l k : (∀ x y, f x = Some y → g x = Some y) →
  mapM f l = Some k → mapM g l = Some k.
Proof.
  rewrite !mapM_Some. intros Hfg Hl. eapply Forall2_impl; [exact Hl|]. auto.
Qed.
Lemma image_container_mono m m' c c' : m ⊆ m' → image_container m c = Some c' → image_container m' c = Some c'.
Proof.
  intros Hm. destruct c; simpl; rewrite !fmap_Some; intros (k & Hk & ->); exists k; (split; [|done]);
    (eapply mapM_mono; [|exact Hk]); intros; by first [eapply image_mono|eapply image_entry_mono].
Qed.

Section spec.
Context (h : gmap nat container) (Hclosed : closed_heap h).
(** The identities of the graph are below [base]. *)
Context (base : nat) (Hbase : ∀ id, is_Some (h !! id) → id < base).

(** ** The state of a clone under way *)

(** The containers of [opened] are being filled; the copies of the others are complete. *)
Record cloning (opened : gset nat) (s : store) : Prop := {
  cloning_source : ∀ id, id < base → objects s !! id = h !! id;
  cloning_next : base ≤ next s;
  cloning_range : ∀ id j, memo s !! id = Some j → is_Some (h !! id) ∧ base ≤ j < next s;
  cloning_inj : ∀ id id' j, memo s !! id = Some j → memo s !! id' = Some j → id = id';
  cloning_opened : ∀ id, id ∈ opened → is_Some (memo s !! id);
  cloning_done : ∀ id j, memo s !! id = Some j → id ∉ opened →
    ∃ c c', h !! id = Some c ∧ objects s !! j = Some c' ∧ image_container (memo s) c = Some c' }.

(** How far a call of the clone goes: the memo grows, and the open copies are left alone. *)
Record extends (opened : gset nat) (s s' : store) : Prop := {
  extends_memo : memo s ⊆ memo s';
  extends_open : ∀ id j, id ∈ opened → memo s !! id = Some j → objects s' !! j = objects s !! j }.

(** The objects still to be copied. *)
Definition unvisited (s : store) : nat := size (dom h ∖ dom (memo s)).

(** [m] returns from a state under way, within the fuel it has. *)
Definition returns (fuel : nat) (opened : gset nat) {A} (m : T A) (Q : A → store → Prop) (E : Prop) : Prop :=
  ∀ s, cloning opened s → unvisited s < fuel →
    ∃ s' r, m s = Some (s', r) ∧
      match r with
      | Ok a => cloning opened s' ∧ extends opened s s' ∧ Q a s'
      | Err e => e = Exn NonJsonTreeError "" ∧ E
      end.

Lemma extends_refl opened s : extends opened s s.
Proof. by split. Qed.
Lemma extends_trans opened s1 s2 s3 : extends opened s1 s2 → extends opened s2 s3 → extends opened s1 s3.
Proof.
  intros [M1 O1] [M2 O2]. split; [by etrans|]. intros id j Hid Hj.
  rewrite (O2 id j Hid), (O1 id j Hid Hj); [done|]. by eapply lookup_weaken.
Qed.
Lemma unvisited_mono s s' : memo s ⊆ memo s' → unvisited s' ≤ unvisited s.
Proof. intros Hm. unfold unvisited. apply subseteq_size. apply subseteq_dom in Hm. set_solver. Qed.

(** ** The steps *)

Lemma cloning_close opened s i j c c' : cloning ({[i]} ∪ opened) s → memo s !! i = Some j → h !! i = Some c →
  objects s !! j = Some c' → image_container (memo s) c = Some c' → cloning opened s.
Proof.
  intros [Hs Hn Hr Hi Hop Hd] Hj Hc Ho Hc'. split; try done; [intros id Hid; apply Hop; set_solver|]. intros id k Hk Hid.
  destruct (decide (id = i)) as [->|]; [|apply (Hd id k Hk); set_solver].
  assert (k = j) as -> by congruence. eauto.
Qed.

Lemma new_copy_cloning opened s i c c0 : cloning opened s → h !! i = Some c0 → memo s !! i = None →
  let s' := mkStore (<[next s := c]> (objects s)) (S (next s)) (<[i := next s]> (memo s)) in
  cloning ({[i]} ∪ opened) s' ∧ extends opened s s' ∧ unvisited s' < unvisited s.
Proof.
  intros [Hs Hn Hr Hi Hop Hd] Hc Hm s'. assert (memo s ⊆ memo s') as Hsub by by apply insert_subseteq.
  split; [split|split; [split|]]; simpl.
  - intros id Hid. rewrite lookup_insert_ne by lia. auto.
  - lia.
  - intros id j [[<- <-]|[Hne Hj]]%lookup_insert_Some; [split; [by eexists|lia]|]. apply Hr in Hj as [? ?]. split; [done|lia].
  - intros id id' j [[<- <-]|[Hne Hj]]%lookup_insert_Some [[<- E]|[Hne' Hj']]%lookup_insert_Some; try done.
    + apply Hr in Hj' as [_ ?]. lia.
    + subst. apply Hr in Hj as [_ ?]. lia.
    + by eapply Hi.
  - intros id Hid. destruct (decide (id = i)) as [->|]; [by rewrite lookup_insert_eq|].
    rewrite lookup_insert_ne by done. apply Hop. set_solver.
  - intros id j [[<- <-]|[Hne Hj]]%lookup_insert_Some Hid; [set_solver|].
    destruct (Hd id j Hj) as (c1 & c2 & H1 & H2 & H3); [set_solver|]. exists c1, c2. split; [done|].
    pose proof (Hr _ _ Hj) as [_ ?]. rewrite lookup_insert_ne by lia. split; [done|]. by eapply image_container_mono.
  - done.
  - intros id j _ Hj. apply Hr in Hj as [_ ?]. by rewrite lookup_insert_ne by lia.
  - unfold unvisited. simpl. apply subset_size. rewrite dom_insert. apply elem_of_dom_2 in Hc.
    apply not_elem_of_dom in Hm. split; [set_solver|]. intros Hsub'.
    assert (i ∈ dom h ∖ ({[i]} ∪ dom (memo s))) by (apply Hsub'; set_solver). set_solver.
Qed.

Lemma modify_cloning opened s i j f : cloning opened s → i ∈ opened → memo s !! i = Some j →
  let s' := mkStore (alter f j (objects s)) (next s) (memo s) in
  cloning opened s' ∧ extends (opened ∖ {[i]}) s s'.
Proof.
  intros [Hs Hn Hr Hi Hop Hd] Hio Hj. pose proof (Hr _ _ Hj) as [_ Hrj].
  assert (∀ id k, id ≠ i → memo s !! id = Some k → k ≠ j) as Hne by (intros id k Hid Hk ->; by eapply Hid, Hi).
  split; [split|split]; simpl; try done.
  - intros id Hid. rewrite lookup_alter_ne by lia. auto.
  - intros id k Hk Hid. rewrite lookup_alter_ne; [auto|]. apply not_eq_sym, (Hne id); [by intros ->|done].
  - intros id k Hid Hk. rewrite lookup_alter_ne; [done|]. apply not_eq_sym, (Hne id); [set_solver|done].
Qed.

Lemma extends_weaken opened opened' s s' : opened' ⊆ opened → extends opened s s' → extends opened' s s'.
Proof. intros Ho [Hm He]. split; [done|]. intros id j Hid. apply He. set_solver. Qed.

(** ** Filling a copy *)

Section fill.
Context {A B : Type} (fuel : nat) (opened : gset nat) (i j : nat) (all : list A).
Context (build : list B → container) (img : gmap nat nat → A → option B) (step : A → T ()) (bad : A → Prop).

(** The copy holds the images of the items [pre]. *)
Definition filled (pre : list A) (s : store) : Prop :=
  cloning opened s ∧ memo s !! i = Some j ∧ unvisited s < fuel ∧
  ∃ l, objects s !! j = Some (build l) ∧ mapM (img (memo s)) pre = Some l.

Context (Hstep : ∀ pre a post s, all = pre ++ a :: post → filled pre s →
  ∃ s' r, step a s = Some (s', r) ∧
    match r with
    | Ok _ => extends (opened ∖ {[i]}) s s' ∧ filled (pre ++ [a]) s'
    | Err e => e = Exn NonJsonTreeError "" ∧ bad a
    end).

Lemma fill_all todo : ∀ pre s, all = pre ++ todo → filled pre s →
  ∃ s' r, for_each step todo s = Some (s', r) ∧
    match r with
    | Ok _ => extends (opened ∖ {[i]}) s s' ∧ filled all s'
    | Err e => e = Exn NonJsonTreeError "" ∧ ∃ a, a ∈ todo ∧ bad a
    end.
Proof.
  induction todo as [|a todo IH]; intros pre s Hall Hf.
  - exists s, (Ok ()). rewrite app_nil_r in Hall. by subst pre.
  - destruct (Hstep pre a todo s Hall Hf) as (s1 & [[]|e] & E1 & H1); simpl; unfold mbind, T_bind; rewrite E1.
    + destruct H1 as [X1 F1].
      destruct (IH (pre ++ [a]) s1) as (s2 & r2 & E2 & H2); [by rewrite <- app_assoc|done|].
      exists s2, r2. split; [done|]. destruct r2.
      * destruct H2 as [X2 F2]. split; [by eapply extends_trans|done].
      * destruct H2 as (-> & b & Hb & Hbad). split; [done|]. exists b. set_solver.
    + exists s1, (Err e). split; [done|]. destruct H1 as [-> Hbad]. split; [done|]. exists a. set_solver.
Qed.
End fill.

(** ** The clone *)

Notation clone := _clone_json_tree.
Notation cloned v := (λ w s', image (memo s') v = Some w).

Lemma filled_snoc {A B} fuel opened i j (build : list B → container) (img : gmap nat nat → A → option B) pre a b s s1 f :
  (∀ m m' a b, m ⊆ m' → img m a = Some b → img m' a = Some b) →
  i ∈ opened → filled fuel opened i j build img pre s → cloning opened s1 → extends opened s s1 →
  img (memo s1) a = Some b → (∀ l, mapM (img (memo s1)) pre = Some l → f (build l) = build (l ++ [b])) →
  let s2 := mkStore (alter f j (objects s1)) (next s1) (memo s1) in
  extends (opened ∖ {[i]}) s s2 ∧ filled fuel opened i j build img (pre ++ [a]) s2.
Proof.
  intros Himg Hi (Hc & Hj & Hu & l & Ho & Hl) Hc1 Hx Hb Hf s2.
  assert (memo s1 !! i = Some j) as Hj1 by (eapply lookup_weaken; [done|apply Hx]).
  destruct (modify_cloning opened s1 i j f Hc1 Hi Hj1) as [Hc2 Hx2]. split.
  { eapply extends_trans; [|exact Hx2]. eapply extends_weaken; [|done]. set_solver. }
  pose proof (unvisited_mono _ _ (extends_memo _ _ _ Hx)).
  assert (mapM (img (memo s1)) pre = Some l) as Hl1.
  { eapply mapM_mono; [|exact Hl]. intros. eapply Himg; [apply Hx|done]. }
  split; [done|]. split; [done|]. split; [unfold unvisited in *; simpl; lia|]. exists (l ++ [b]). simpl.
  rewrite lookup_alter_eq, (extends_open _ _ _ Hx i j Hi Hj), Ho. simpl. rewrite (Hf l Hl1). split; [done|].
  apply mapM_Some. apply mapM_Some in Hl1. apply Forall2_app; [done|]. by repeat constructor.
Qed.

(** One item: cloned, then stored. *)
Lemma item_step {A B} fuel opened i j (build : list B → container) (img : gmap nat nat → A → option B)
    (f : pyval → container → container) pre a v (mkb : pyval → B) s :
  (∀ m m' a b, m ⊆ m' → img m a = Some b → img m' a = Some b) →
  returns fuel opened (clone fuel v) (cloned v) (non_json h v) →
  i ∈ opened → filled fuel opened i j build img pre s →
  (∀ m w, image m v = Some w → img m a = Some (mkb w)) →
  (∀ m w l, mapM (img m) pre = Some l → f w (build l) = build (l ++ [mkb w])) →
  ∃ s' r, (w ← clone fuel v; modify j (f w)) s = Some (s', r) ∧
    match r with
    | Ok _ => extends (opened ∖ {[i]}) s s' ∧ filled fuel opened i j build img (pre ++ [a]) s'
    | Err e => e = Exn NonJsonTreeError "" ∧ non_json h v
    end.
Proof.
  intros Himg Hv Hi Hf Hb Hstore. pose proof Hf as (Hc & _ & Hu & _).
  destruct (Hv s Hc Hu) as (s1 & [w|e] & E & H1); unfold mbind, T_bind; rewrite E; [|by exists s1, (Err e)].
  destruct H1 as (C1 & X1 & H1).
  destruct (filled_snoc fuel opened i j build img pre a (mkb w) s s1 (f w) Himg Hi Hf C1 X1) as (X2 & F2);
    [by apply Hb|intros l; apply Hstore|]. by eexists _, (Ok ()).
Qed.

Lemma put_fresh k v d : PStr k ∉ d.*1 → put k v d = d ++ [(PStr k, v)].
Proof.
  induction d as [|[k' w] d IH]; [done|]. cbn [fmap list_fmap fst]. intros Hk.
  assert (put k v d = d ++ [(PStr k, v)]) as E by (apply IH; set_solver).
  destruct k'; simpl; try (by rewrite E). rewrite bool_decide_eq_false_2 by (intros ->; set_solver). by rewrite E.
Qed.

(** The images of entries have the same keys. *)
Lemma image_keys m d d' : mapM (image_entry m) d = Some d' → d'.*1 = d.*1.
Proof.
  intros Hd%mapM_Some. induction Hd as [|kv kv' d d' E _ IH]; [done|]. cbn [fmap list_fmap]. rewrite IH. f_equal.
  unfold image_entry in E. destruct kv as [k v]. simpl in E. destruct k; try done.
  apply fmap_Some in E as (w & _ & ->). done.
Qed.

(** A container: a new copy is made, filled and closed. *)
Lemma container_step {A B} fuel opened i c0 all (build : list B → container) (img : gmap nat nat → A → option B)
    (step : nat → A → T ()) (bad : A → Prop) s :
  (∀ m m' a b, m ⊆ m' → img m a = Some b → img m' a = Some b) →
  h !! i = Some c0 → (∀ m l, mapM (img m) all = Some l → image_container m c0 = Some (build l)) →
  (∀ a, a ∈ all → bad a → non_json h (PRef i)) →
  (∀ j pre a post s, all = pre ++ a :: post → filled fuel ({[i]} ∪ opened) i j build img pre s →
     ∃ s' r, step j a s = Some (s', r) ∧
       match r with
       | Ok _ => extends (({[i]} ∪ opened) ∖ {[i]}) s s' ∧ filled fuel ({[i]} ∪ opened) i j build img (pre ++ [a]) s'
       | Err e => e = Exn NonJsonTreeError "" ∧ bad a
       end) →
  cloning opened s → unvisited s < S fuel → memo s !! i = None →
  ∃ s' r, (j ← new_copy i (build []); for_each (step j) all;; mret (PRef j)) s = Some (s', r) ∧
    match r with
    | Ok w => cloning opened s' ∧ extends opened s s' ∧ image (memo s') (PRef i) = Some w
    | Err e => e = Exn NonJsonTreeError "" ∧ non_json h (PRef i)
    end.
Proof.
  intros Himg Hci Hbuild Hbad Hstep Hc Hu Hm. unfold mbind at 1, T_bind at 1, new_copy.
  destruct (new_copy_cloning opened s i (build []) c0 Hc Hci Hm) as (C1 & X1 & U1).
  set (s1 := mkStore _ _ _) in *.
  assert (filled fuel ({[i]} ∪ opened) i (next s) build img [] s1) as F1.
  { split; [done|]. split; [apply lookup_insert_eq|]. split; [lia|]. exists []. split; [apply lookup_insert_eq|done]. }
  destruct (fill_all fuel ({[i]} ∪ opened) i (next s) all build img (step (next s)) bad (Hstep (next s)) all [] s1 eq_refl F1)
    as (s2 & [u|e] & E & H2); unfold mbind, T_bind; rewrite E.
  - destruct H2 as (X2 & C2 & Hj2 & _ & l & Ho & Hl). exists s2, (Ok (PRef (next s))). split; [done|].
    split; [by eapply cloning_close; eauto|]. split; [|simpl; by rewrite Hj2].
    eapply extends_trans; [exact X1|]. eapply extends_weaken; [|exact X2].
    intros id Hid. destruct (cloning_opened _ _ Hc id Hid) as [k Hk]. assert (id ≠ i) by congruence. set_solver.
  - exists s2, (Err e). split; [done|]. destruct H2 as (-> & a & Ha & Hb). split; [done|]. by eapply Hbad.
Qed.

Lemma clone_returns fuel : ∀ v opened, allocated h v →
  returns fuel opened (clone fuel v) (cloned v) (non_json h v).
Proof.
  induction fuel as [|fuel IH]; intros v opened Hv s Hc Hu; [lia|].
  destruct v as [| | | | |i|]; try (exists s; eexists (Ok _); split; [reflexivity|]; split; [done|]; by split).
  2: { exists s. eexists (Err _). split; [reflexivity|]. split; [done|constructor]. }
  destruct Hv as [c Hci]. simpl. unfold mbind at 1, T_bind at 1, deref.
  rewrite (cloning_source _ _ Hc) by (by apply Hbase; eexists). rewrite Hci. cbn [of_option].
  unfold mbind at 1, T_bind at 1, copy_of. destruct (memo s !! i) as [j|] eqn:Hm.
  { exists s, (Ok (PRef j)). split; [done|]. split; [done|]. split; [done|]. simpl. by rewrite Hm. }
  destruct c as [items|items].
  - apply (container_step fuel opened i (PList items) items PList image _ (non_json h)); try done.
    + apply image_mono.
    + intros m l Hl. simpl. by rewrite Hl.
    + intros v Hv Hbad. by eapply non_json_child.
    + intros j pre v post s' E Hf. eapply (item_step _ _ _ _ _ _ append _ _ _ id); try done; [apply image_mono| |set_solver].
      apply IH. eapply closed_values; [done|exact Hci|]. rewrite E. set_solver.
  - apply (container_step fuel opened i (PDict items) items PDict image_entry _
             (λ kv, (∀ t, kv.1 ≠ PStr t) ∨ non_json h kv.2)); try done.
    + apply image_entry_mono.
    + intros m l Hl. simpl. by rewrite Hl.
    + intros [k v] Hkv [Hk|Hbad]; [by eapply non_json_key|]. eapply non_json_child; [done| |done].
      apply list_elem_of_fmap. by exists (k, v).
    + intros j pre [k v] post s' E Hf. cbn [fst snd].
      destruct k as [| | | |k| |]; try (exists s'; eexists (Err _); split; [reflexivity|]; split; [done|left; by intros t]).
      assert (Hin : (PStr k, v) ∈ items) by (rewrite E; set_solver).
      destruct (item_step fuel ({[i]} ∪ opened) i j PDict image_entry (set_key k) pre (PStr k, v) v (pair (PStr k)) s')
        as (s2 & r & E2 & H2); try done.
      * apply image_entry_mono.
      * apply IH. eapply closed_values; [done|exact Hci|]. apply list_elem_of_fmap. by exists (PStr k, v).
      * set_solver.
      * intros m w Hw. unfold image_entry. cbn [fst snd]. by rewrite Hw.
      * intros m w l Hl. simpl. rewrite put_fresh; [done|]. rewrite (image_keys _ _ _ Hl).
        pose proof (closed_keys _ Hclosed _ _ Hci) as Hnd. rewrite E, fmap_app in Hnd.
        apply NoDup_app in Hnd as (_ & Hd & _). intros Hk. apply (Hd _ Hk). set_solver.
      * exists s2, r. split; [done|]. destruct r; [done|]. destruct H2 as [-> ?]. split; [done|by right].
Qed.

(** ** From the start *)

Lemma start_cloning : cloning ∅ (mkStore h base ∅).
Proof.
  split; simpl; [done|done|..]; intros id; [..|by intros ?%elem_of_empty|]; intros *; by rewrite lookup_empty.
Qed.

(** What is reached from a value with an image is JSON. *)
Lemma image_is_json s v : cloning ∅ s → non_json h v → image (memo s) v = None.
Proof.
  intros Hc Hbad. induction Hbad as [|i d k v Hi Hin Hk|i c v Hi Hin _ IH]; [done|..]; simpl;
    (destruct (memo s !! i) as [j|] eqn:Hj; [|done]); exfalso;
    destruct (cloning_done _ _ Hc i j Hj) as (c0 & c' & Hi0 & _ & Him); try set_solver;
    rewrite Hi in Hi0; injection Hi0 as <-.
  - simpl in Him. apply fmap_Some in Him as (l & Hl%mapM_Some & _).
    apply list_elem_of_lookup in Hin as [n Hn]. destruct (Forall2_lookup_l _ _ _ _ _ Hl Hn) as (y & _ & Hy).
    unfold image_entry in Hy. simpl in Hy. destruct k; try done. by apply (Hk s0).
  - destruct c as [items|items]; simpl in Him, Hin; apply fmap_Some in Him as (l & Hl%mapM_Some & _).
    + apply list_elem_of_lookup in Hin as [n Hn]. destruct (Forall2_lookup_l _ _ _ _ _ Hl Hn) as (y & _ & Hy).
      by rewrite IH in Hy.
    + apply list_elem_of_fmap in Hin as (kv & -> & Hin). apply list_elem_of_lookup in Hin as [n Hn].
      destruct (Forall2_lookup_l _ _ _ _ _ Hl Hn) as (y & _ & Hy). unfold image_entry in Hy.
      destruct kv.1; try done. by rewrite IH in Hy.
Qed.

Lemma clone_run fuel v : allocated h v → size h < fuel →
  ∃ s' r, clone fuel v (mkStore h base ∅) = Some (s', r) ∧
    match r with
    | Ok w => cloning ∅ s' ∧ image (memo s') v = Some w ∧ ¬ non_json h v
    | Err e => e = Exn NonJsonTreeError "" ∧ non_json h v
    end.
Proof.
  intros Hv Hfuel. destruct (clone_returns fuel v ∅ Hv _ start_cloning) as (s' & [w|e] & E & H).
  - unfold unvisited. simpl. rewrite dom_empty_L, difference_empty_L, size_dom. lia.
  - destruct H as (C & _ & Hw). exists s', (Ok w). split; [done|]. split; [done|]. split; [done|].
    intros Hbad. rewrite (image_is_json _ _ C Hbad) in Hw. done.
  - by exists s', (Err e).
Qed.

(** The graph reached from [v] and the one reached from [w] are the same up to a bijection of
    identities, and share no object. *)
Record isomorphic (s : store) (v w : pyval) : Prop := {
  iso_value : image (memo s) v = Some w;
  iso_container : ∀ i j, memo s !! i = Some j →
    ∃ c c', h !! i = Some c ∧ objects s !! j = Some c' ∧ image_container (memo s) c = Some c';
  iso_injective : ∀ i i' j, memo s !! i = Some j → memo s !! i' = Some j → i = i';
  iso_fresh : ∀ i j, memo s !! i = Some j → h !! j = None;
  iso_source : ∀ i, is_Some (h !! i) → objects s !! i = h !! i }.

(** C26. The clone of a document always returns: one nested call for each container is enough, on any
    object graph, shared or cyclic, and it is refused exactly when something that is not JSON, or
    a key that is not text, can be reached. *)
Theorem clone_always_returns fuel v : allocated h v → size h < fuel →
  ∃ s' r, clone fuel v (mkStore h base ∅) = Some (s', r) ∧
    (non_json h v ↔ r = raise NonJsonTreeError "").
Proof.
  intros Hv Hf. destruct (clone_run fuel v Hv Hf) as (s' & r & E & H). exists s', r. split; [done|].
  destruct r as [w|e]; [destruct H as (_ & _ & ?)|destruct H as [-> ?]]; done.
Qed.

(** C21. The clone of a JSON document is the document: it is isomorphic to it, with every alias and
    every cycle, no container of the one is a container of the other, and the original is left as
    it was, so that what is done to the clone cannot be seen in it. *)
Theorem clone_is_isomorphic deepcopy fuel v seen : allocated h v → ¬ non_json h v → size h < fuel →
  ∃ s' w, _clone_state deepcopy fuel v (mkStore h base seen) = Some (s', Ok w) ∧ isomorphic s' v w.
Proof.
  intros Hv Hj Hf. destruct (clone_run fuel v Hv Hf) as (s' & [w|e] & E & H); [|by destruct H].
  exists s', w. unfold _clone_state. cbn [objects next]. rewrite E. split; [done|]. destruct H as (C & Hw & _).
  split; [done| | | |].
  - intros i j Hi. apply (cloning_done _ _ C i j Hi). set_solver.
  - apply (cloning_inj _ _ C).
  - intros i j Hi. apply (cloning_range _ _ C) in Hi as [_ ?]. destruct (h !! j) eqn:Hhj; [|done].
    assert (j < base) by (by apply Hbase; eexists). lia.
  - intros i Hi. apply (cloning_source _ _ C). by apply Hbase.
Qed.
End spec.

(** ** A document that contains itself *)

(** An object with itself and twice the same list. *)
Definition cyclic_heap : gmap nat container :=
  {[0 := PDict [(PStr "self", PRef 0); (PStr "a", PRef 1); (PStr "b", PRef 1)]; 1 := PList [PInt 7]]}.

Lemma cyclic_lookup i c : cyclic_heap !! i = Some c →
  i = 0 ∧ c = PDict [(PStr "self", PRef 0); (PStr "a", PRef 1); (PStr "b", PRef 1)] ∨ i = 1 ∧ c = PList [PInt 7].
Proof.
  unfold cyclic_heap. intros [[<- <-]|[_ [<- <-]%lookup_singleton_Some]]%lookup_insert_Some; auto.
Qed.

Lemma cyclic_closed : closed_heap cyclic_heap.
Proof.
  split.
  - intros i c v [[-> ->]|[-> ->]]%cyclic_lookup; simpl; [|by intros ->%list_elem_of_singleton].
    intros Hv. repeat (apply elem_of_cons in Hv as [->|Hv]; [simpl; by eexists|]). by apply elem_of_nil in Hv.
  - intros i d [[-> [= ->]]|[_ [=]]]%cyclic_lookup. simpl. repeat constructor; set_solver.
Qed.

Lemma cyclic_below i : is_Some (cyclic_heap !! i) → i < 2.
Proof. intros [c [[-> _]|[-> _]]%cyclic_lookup]; lia. Qed.

Lemma cyclic_json : ¬ non_json cyclic_heap (PRef 0).
Proof.
  assert (∀ v, non_json cyclic_heap v → v ∉ [PRef 0; PRef 1; PInt 7]) as Hall.
  { intros v Hbad. induction Hbad as [|i d k v Hi Hin Hk|i c v Hi Hin _ IH]; [set_solver|..]; exfalso.
    - apply cyclic_lookup in Hi as [[-> [= ->]]|[_ [=]]].
      repeat (apply elem_of_cons in Hin as [[= -> ->]|Hin]; [by eapply Hk|]). by apply elem_of_nil in Hin.
    - apply cyclic_lookup in Hi as [[-> ->]|[-> ->]]; simpl in Hin; apply IH; set_solver. }
  intros Hbad. apply (Hall _ Hbad). set_solver.
Qed.

Lemma clone_always_returns_witness :
  ∃ s' r, _clone_json_tree 3 (PRef 0) (mkStore cyclic_heap 2 ∅) = Some (s', r) ∧
    (non_json cyclic_heap (PRef 0) ↔ r = raise NonJsonTreeError "").
Proof.
  apply (clone_always_returns cyclic_heap cyclic_closed 2 cyclic_below 3 (PRef 0)).
  - eexists. reflexivity.
  - vm_compute. lia.
Defined.

Lemma clone_is_isomorphic_witness :
  ∃ s' w, _clone_state (λ _, T_fuel) 3 (PRef 0) (mkStore cyclic_heap 2 ∅) = Some (s', Ok w) ∧
    isomorphic cyclic_heap s' (PRef 0) w ∧ w = PRef 2 ∧
    objects s' !! 2 = Some (PDict [(PStr "self", PRef 2); (PStr "a", PRef 3); (PStr "b", PRef 3)]).
Proof.
  destruct (clone_is_isomorphic cyclic_heap cyclic_closed 2 cyclic_below (λ _, T_fuel) 3 (PRef 0) ∅)
    as (s' & w & E & Hiso); [eexists; reflexivity|exact cyclic_json|vm_compute; lia|].
  exists s', w. split; [exact E|]. split; [exact Hiso|]. vm_compute in E. injection E as <- <-. split; reflexivity.
Defined.
