(* ===== verification/TransportGeneration.v ===== *)
(** * Transport generations ([identity/transport_generation.py])

    A node signs each of its TLS keys under a generation number.  The manager holds the current
    generation, the ones still accepted during the overlap and the one that is prepared, and
    publishes a change only when it has been saved.  The signature primitives of the identity are
    parameters; [D] is what the manager is given to save with, and a reading of the clock is an
    argument. *)

From S2P Require Import Prelude PyFloat Identity PyJson.
Abbreviation dict := (list (string * json)) (only parsing).

Module TransportGeneration.
Record t := mk { generation : Z; fingerprint : string; proof : string }.
#[export] Instance eq_dec : EqDecision t.
Proof. solve_decision. Defined.
End TransportGeneration.
Import TransportGeneration(generation, fingerprint, proof).

(** What the manager uses of a [NodeIdentity]. *)
Module NodeIdentity.
Record t := mk { node_id : NodeId; root_private_key : string }.
End NodeIdentity.
Import NodeIdentity(node_id, root_private_key).

Module TransportGenerationManager.
Record t := mk {
  _current : option TransportGeneration.t;
  (** by generation: the transport and until when it is accepted *)
  _accepted : list (Z * (TransportGeneration.t * option json));
  _next : option TransportGeneration.t }.

Definition VERSION : Z := 2.
Definition empty : t := mk None [] None.
End TransportGenerationManager.
Import TransportGenerationManager(_current, _accepted, _next, VERSION, empty).

(** [v >= f] for a number [v]: an integer and a float compare by value. *)
Definition number_geb (v : json) (f : float) : bool :=
  match v with
  | JFloat g => fleb f g
  | JInt z =>
      match f with
      | S754_zero _ => (0 <=? z)%Z
      | S754_infinity s => s
      | S754_nan => false
      | S754_finite s m e =>
          let m := (if s then Z.neg m else Z.pos m) in
          if (0 <=? e)%Z then (m * 2 ^ e <=? z)%Z else (m <=? z * 2 ^ (- e))%Z
      end
  | _ => false
  end.

Section manager.
Context (b64encode : string → string) (b64decode : string → option string).
(** The raw public key of a private key, its signature, and the check of one. *)
Context (ed25519_public : string → string) (ed25519_sign : string → string → string).
Context (ed25519_verify : string → string → string → bool).

(** ** The identity *)

Definition root_public_key (identity : NodeIdentity.t) : string :=
  b64encode (ed25519_public (root_private_key identity)).

Definition sign_transport_proof (identity : NodeIdentity.t) (generation : Z) (fingerprint : string) : result string :=
  raise_if ((generation <? 1)%Z || bool_decide (fingerprint = "")) ValueError "invalid transport proof input";;
  Ok (b64encode (ed25519_sign (root_private_key identity) (_proof_payload (node_id identity) generation fingerprint))).

Notation verify_transport_proof := (verify_transport_proof b64decode ed25519_verify).

Context (identity : NodeIdentity.t).

Definition _generation (generation : Z) (fingerprint : string) : result TransportGeneration.t :=
  raise_if (bool_decide (fingerprint = "")) TransportStateError "transport fingerprint is required";;
  proof ← sign_transport_proof identity generation fingerprint;
  Ok (TransportGeneration.mk generation fingerprint proof).

(** ** The document *)

Definition encode (item : TransportGeneration.t) : dict :=
  [("generation", JInt (generation item)); ("fingerprint", JStr (fingerprint item)); ("proof", JStr (proof item))].

Definition encode_accepted (x : Z * (TransportGeneration.t * option json)) : json :=
  JObj (encode x.2.1 ++ [("expires_at", default JNull x.2.2)]).

Definition current (m : TransportGenerationManager.t) : result TransportGeneration.t :=
  of_option (_current m) TransportStateError "transport generation is not initialized".

Definition _to_dict (m : TransportGenerationManager.t) : result dict :=
  c ← current m;
  Ok [("version", JInt VERSION); ("current", JObj (encode c)); ("accepted", JList (encode_accepted <$> _accepted m));
      ("next", match _next m with Some n => JObj (encode n) | None => JNull end)].

Definition _decode (raw : json) : result TransportGeneration.t :=
  d ← of_option (is_obj raw) TypeError "not an object";
  generation ← index "generation" d;
  fingerprint ← index "fingerprint" d;
  proof ← index "proof" d;
  match generation, fingerprint, proof with
  | JInt generation, JStr fingerprint, JStr proof =>
      raise_if ((generation <? 1)%Z || bool_decide (fingerprint = "")
                || negb (verify_transport_proof (node_id identity) (root_public_key identity) generation
                           fingerprint proof)) ValueError "invalid generation";;
      Ok (TransportGeneration.mk generation fingerprint proof)
  | _, _, _ => raise ValueError "invalid generation"
  end.

(** [None] or a finite number. *)
Definition decode_expiry (v : json) : result (option json) :=
  match v with
  | JNull => Ok None
  | JInt _ | JFloat _ => f ← to_float v; raise_if (negb (isfinite f)) ValueError "expiry";; Ok (Some v)
  | _ => raise ValueError "expiry"
  end.

Fixpoint decode_accepted (now : TransportGeneration.t) (items : list json)
    (accepted : list (Z * (TransportGeneration.t * option json)))
    : result (list (Z * (TransportGeneration.t * option json))) :=
  match items with
  | [] => Ok accepted
  | raw :: items =>
      d ← of_option (is_obj raw) TypeError "not an object";
      item ← _decode raw;
      raise_if (od_mem (generation item) accepted || (generation now <=? generation item)%Z) ValueError "accepted";;
      expiry ← decode_expiry (jget "expires_at" d);
      decode_accepted now items (od_set (generation item) (item, expiry) accepted)
  end.

Definition load_document (d : dict) : result TransportGenerationManager.t :=
  let version := jget "version" d in
  if equals_int version 1
  then fingerprint ← index "fingerprint" d;
       match fingerprint with
       | JStr fingerprint =>
           raise_if (bool_decide (fingerprint = "")) ValueError "fingerprint";;
           c ← _generation 1 fingerprint;
           Ok (TransportGenerationManager.mk (Some c) [] None)
       | _ => raise ValueError "fingerprint"
       end
  else
    raise_if (negb (equals_int version VERSION)) ValueError "version";;
    raw ← index "current" d;
    c ← _decode raw;
    raw_accepted ← index "accepted" d;
    items ← of_option (is_list raw_accepted) TypeError "accepted";
    accepted ← decode_accepted c items [];
    next ← match jget "next" d with JNull => Ok None | raw => n ← _decode raw; Ok (Some n) end;
    raise_if match next with
             | Some n => (generation n <=? generation c)%Z || od_mem (generation n) accepted
             | None => false
             end ValueError "next";;
    Ok (TransportGenerationManager.mk (Some c) accepted next).

(** Whatever is wrong with it, the document is malformed. *)
Definition _load (d : dict) : result TransportGenerationManager.t :=
  match load_document d with
  | Ok m => Ok m
  | Err e => if exn_isa e KeyError || exn_isa e OverflowError || exn_isa e TypeError || exn_isa e ValueError
             then raise StateDataError "transport state is malformed" else Err e
  end.

(** The manager made over what is stored. *)
Definition __init__ (stored : option dict) : result TransportGenerationManager.t :=
  match stored with Some document => _load document | None => Ok empty end.

(** ** Operations *)

Section operations.
Context {D : Type}.
(** [persist] and [store.save]; [None] is an argument that is not given. *)
Context (persist : option (dict → M D (option bool))) (store : option (dict → M D ())).
Context (_grace_seconds : float).

Record World := mkWorld { manager : TransportGenerationManager.t; disk : D }.
Notation W := World.

Definition on_disk {A} (m : M D A) : M W A := λ w,
  let '(d, r) := m (disk w) in (mkWorld (manager w) d, r).
Definition this : M W TransportGenerationManager.t := λ w, (w, Ok (manager w)).
Definition put (m : TransportGenerationManager.t) : M W () := λ w, (mkWorld m (disk w), Ok ()).

(** The document is handed to the callback, or else to the store. *)
Definition save_document (document : dict) : M D (option bool) :=
  match persist with
  | Some persist => persist document
  | None => match store with Some save => save document;; mret None | None => mret None end
  end.

Definition _save : M W (option bool) :=
  m ← this;
  document ← lift (_to_dict m);
  on_disk (save_document document).

Definition _commit (c : option TransportGeneration.t) (accepted : list (Z * (TransportGeneration.t * option json)))
    (next : option TransportGeneration.t) : M W () :=
  old ← this;
  put (TransportGenerationManager.mk c accepted next);;
  attempt (r ← _save; throw_if (bool_decide (r = Some false)) OSError "transport state persistence was rejected")
    (λ _, put old;; throw TransportStateError "transport state was not persisted").

Definition initialize (fp : string) : M W TransportGeneration.t :=
  m ← this;
  match _current m with
  | Some c =>
      throw_if (negb (bool_decide (fingerprint c = fp))) TransportStateError
        "initial transport generation already exists";;
      mret c
  | None => candidate ← lift (_generation 1 fp); _commit (Some candidate) [] None;; mret candidate
  end.

(** [max(l, default=0)] *)
Definition max_of (l : list Z) : Z := match l with [] => 0%Z | z :: l => foldr Z.max z l end.

Definition _highest_generation (m : TransportGenerationManager.t) : Z :=
  max_of ((_accepted m).*1 ++ (generation <$> option_list (_current m)) ++ (generation <$> option_list (_next m))).

Definition prepare (fp : string) : M W TransportGeneration.t :=
  m ← this;
  match _current m with
  | None => initialize fp
  | Some c =>
      throw_if (bool_decide (is_Some (_next m))) RotationConflict "a transport rotation is already pending";;
      candidate ← lift (_generation (_highest_generation m + 1) fp);
      _commit (Some c) (_accepted m) (Some candidate);;
      mret candidate
  end.

(** [now] is the reading of the clock. *)
Definition activate (n : Z) (now : float) : M W TransportGeneration.t :=
  m ← this;
  throw_if match _next m with Some next => negb (bool_decide (generation next = n)) | None => true end
    TransportStateError "generation is not pending activation";;
  c ← lift (current m);
  _commit (_next m) (od_set (generation c) (c, Some (JFloat (fadd now _grace_seconds))) (_accepted m)) None;;
  m ← this;
  lift (current m).

Definition retire (n : Z) : M W () :=
  m ← this;
  throw_if match _current m with Some c => bool_decide (n = generation c) | None => false end
    TransportStateError "cannot retire current transport generation";;
  c ← lift (current m);
  _commit (Some c) (od_pop n (_accepted m)) (_next m).

Definition rollback : M W () :=
  m ← this;
  throw_if (negb (bool_decide (is_Some (_next m)))) TransportStateError "no transport rotation is pending";;
  c ← lift (current m);
  _commit (Some c) (_accepted m) None.

Definition rollback_active : M W TransportGeneration.t :=
  m ← this;
  throw_if (bool_decide (_accepted m = [])) TransportStateError "no previous transport generation is retained";;
  let previous_generation := max_of (_accepted m).*1 in
  previous ← lift (of_option (od_get previous_generation (_accepted m)) KeyError "generation");
  _commit (Some previous.1) (od_pop previous_generation (_accepted m)) None;;
  mret previous.1.

(** The key steps of [ConnectRuntime.rotate_transport]: [material] gives the fingerprint of the
    key of a generation. *)
Definition rotate (material : Z → string) (now : float) : M W TransportGeneration.t :=
  m ← this;
  c ← lift (current m);
  let next_generation := (generation c + 1)%Z in
  prepare (material next_generation);;
  activate next_generation now.
End operations.

(** ** What is accepted *)

Definition accepted (m : TransportGenerationManager.t) (fp : string) (now : float) : bool :=
  if match _current m with Some c => bool_decide (fingerprint c = fp) | None => false end then true
  else existsb (λ x, bool_decide (fingerprint x.2.1 = fp)
                     && match x.2.2 with None => true | Some expiry => number_geb expiry now end) (_accepted m).

Definition accept_remote (peer : NodeId) (generation : Z) (fingerprint proof : string) (root : option string)
    : result TransportGeneration.t :=
  raise_if (negb (bool_decide (peer = node_id identity)) || (generation <? 1)%Z) TransportStateError
    "transport identity binding mismatch";;
  let root := match root with
              | Some key => if bool_decide (key = "") then root_public_key identity else key
              | None => root_public_key identity
              end in
  raise_if (negb (verify_transport_proof peer root generation fingerprint proof)) TransportStateError
    "invalid transport continuity proof";;
  Ok (TransportGeneration.mk generation fingerprint proof).
End manager.
