(* ===== verification/TransportGenerationSpec.v ===== *)
(** * Transport generations: what is saved is what is used, and how a rotation goes

    Every theorem is about a manager that saves through a durable callback or store which may
    fail at any time, and any sequence of its operations. *)

From S2P Require Import Prelude PyFloat Identity PyJson TransportGeneration.
Import TransportGeneration(generation, fingerprint, proof).
Import TransportGenerationManager(_current, _accepted, _next, VERSION, empty).
Import NodeIdentity(node_id, root_private_key).
Abbreviation dict := (list (string * json)) (only parsing).
Abbreviation table := (list (Z * (TransportGeneration.t * option json))) (only parsing).

Section spec.
Context (b64encode : string → string) (b64decode : string → option string).
Context (ed25519_public : string → string) (ed25519_sign : string → string → string).
Context (ed25519_verify : string → string → string → bool).
(** Base64 decodes what it encodes, and a signature verifies under the public key. *)
Context (Hb64 : ∀ s, b64decode (b64encode s) = Some s).
Context (Hsign : ∀ key payload, ed25519_verify (ed25519_public key) (ed25519_sign key payload) payload = true).
Context (identity : NodeIdentity.t).

Notation verify := (verify_transport_proof b64decode ed25519_verify).
Notation root := (root_public_key b64encode ed25519_public identity).
Notation _generation := (_generation b64encode ed25519_sign identity).
Notation _decode := (_decode b64encode b64decode ed25519_public ed25519_verify identity).
Notation decode_accepted := (decode_accepted b64encode b64decode ed25519_public ed25519_verify identity).
Notation load_document := (load_document b64encode b64decode ed25519_public ed25519_sign ed25519_verify identity).
Notation restart := (__init__ b64encode b64decode ed25519_public ed25519_sign ed25519_verify identity).
Notation _load := (_load b64encode b64decode ed25519_public ed25519_sign ed25519_verify identity).

(** ** Well-formed managers *)

(** A generation that verifies under the root of the node. *)
Definition genuine (g : TransportGeneration.t) : Prop :=
  (1 ≤ generation g)%Z ∧ fingerprint g ≠ "" ∧
  verify (node_id identity) root (generation g) (fingerprint g) (proof g) = true.

(** No expiry, or a finite number. *)
Definition finite_expiry (e : option json) : Prop :=
  match e with
  | None => True
  | Some v => is_number v = true ∧ ∃ f, to_float v = Ok f ∧ isfinite f = true
  end.

Definition kept (c : TransportGeneration.t) (x : Z * (TransportGeneration.t * option json)) : Prop :=
  generation x.2.1 = x.1 ∧ genuine x.2.1 ∧ (x.1 < generation c)%Z ∧ finite_expiry x.2.2.

(** The current generation is above every accepted one and below the prepared one. *)
Record wf_with (c : TransportGeneration.t) (accepted : table) (next : option TransportGeneration.t) : Prop := {
  wf_current : genuine c;
  wf_keys : NoDup accepted.*1;
  wf_accepted : ∀ x, x ∈ accepted → kept c x;
  wf_next : ∀ n, next = Some n → genuine n ∧ (generation c < generation n)%Z }.

Definition wf (m : TransportGenerationManager.t) : Prop :=
  match _current m with
  | None => m = empty
  | Some c => wf_with c (_accepted m) (_next m)
  end.

Lemma generation_genuine n fp g : _generation n fp = Ok g → genuine g ∧ generation g = n ∧ fingerprint g = fp.
Proof.
  unfold TransportGeneration._generation, sign_transport_proof, genuine. intros Hg. repeat res_step. to_prop. subst.
  simpl. split; [|done]. split; [lia|]. split; [done|]. unfold verify_transport_proof, root_public_key. simpl.
  rewrite bool_decide_eq_false_2 by done. replace (n <? 1)%Z with false by (symmetry; lia). simpl.
  by rewrite !Hb64, Hsign.
Qed.

(** ** The document reads back *)

Lemma decode_encode g rest : genuine g → _decode (JObj (encode g ++ rest)) = Ok g.
Proof.
  intros (Hn & Hf & Hv). destruct g as [n fp pr]. simpl in *. unfold TransportGeneration._decode.
  cbn [is_obj of_option mbind result_bind]. unfold index, encode. simpl.
  rewrite Hv, bool_decide_eq_false_2 by done. by replace (n <? 1)%Z with false by (symmetry; lia).
Qed.

Lemma expiry_read e : finite_expiry e → decode_expiry (default JNull e) = Ok e.
Proof.
  destruct e as [v|]; [|done]. simpl. intros (Hn & f & Hf & Hfin). unfold decode_expiry.
  destruct v; try done; rewrite Hf; simpl; by rewrite Hfin.
Qed.

Lemma accepted_read c (l : table) : ∀ acc, NoDup (acc ++ l).*1 → (∀ x, x ∈ l → kept c x) →
  decode_accepted c (encode_accepted <$> l) acc = Ok (acc ++ l).
Proof.
  induction l as [|[k [g e]] l IH]; intros acc Hnd Hl; [by rewrite app_nil_r|].
  destruct (Hl (k, (g, e)) ltac:(set_solver)) as (Hk & Hg & Hlt & He). simpl in Hk, Hg, Hlt, He.
  cbn [fmap list_fmap TransportGeneration.decode_accepted]. 
  change (encode_accepted (k, (g, e))) with (JObj (encode g ++ [("expires_at", default JNull e)])).
  cbn [is_obj of_option mbind result_bind].
  rewrite decode_encode by done. cbn [mbind result_bind]. rewrite Hk.
  assert (Hfresh : od_get k acc = None).
  { apply od_get_None. rewrite fmap_app in Hnd. apply NoDup_app in Hnd as (_ & Hd & _). intros Hin.
    apply (Hd _ Hin). set_solver. }
  unfold od_mem. rewrite Hfresh. replace (generation c <=? k)%Z with false by (symmetry; lia). simpl raise_if.
  cbn [mbind result_bind]. change (jget "expires_at" _) with (default JNull e). rewrite expiry_read by done.
  cbn [mbind result_bind]. rewrite od_set_fresh by (by apply od_get_None). rewrite IH.
  - by rewrite <- app_assoc.
  - by rewrite <- app_assoc.
  - intros x Hx. apply Hl. set_solver.
Qed.

Definition document (c : TransportGeneration.t) (accepted : table) (next : option TransportGeneration.t) : dict :=
  [("version", JInt VERSION); ("current", JObj (encode c)); ("accepted", JList (encode_accepted <$> accepted));
   ("next", match next with Some n => JObj (encode n) | None => JNull end)].

Lemma document_read c accepted next : wf_with c accepted next →
  _load (document c accepted next) = Ok (TransportGenerationManager.mk (Some c) accepted next).
Proof.
  intros [Hc Hk Ha Hn]. unfold TransportGeneration._load, TransportGeneration.load_document, document. cbn [jget od_get].
  simpl equals_int. cbv iota. simpl raise_if. cbn [mbind result_bind]. unfold index. simpl of_option.
  cbn [mbind result_bind]. rewrite <- (app_nil_r (encode c)), decode_encode by done. cbn [mbind result_bind].
  cbn [is_list of_option mbind result_bind]. rewrite accepted_read by done. cbn [mbind result_bind app].
  destruct next as [n|]; [|done]. destruct (Hn n eq_refl) as [Hg Hlt].
  change (jget "next" _) with (JObj (encode n)). rewrite <- (app_nil_r (encode n)), decode_encode by done.
  cbn [mbind result_bind]. replace (generation n <=? generation c)%Z with false by (symmetry; lia).
  unfold od_mem. destruct (od_get (generation n) accepted) as [y|] eqn:Hy; [|done].
  apply od_get_elem, Ha in Hy as (_ & _ & Hlt' & _). simpl in Hlt'. lia.
Qed.

(** ** What is loaded is well-formed *)

Lemma decode_genuine v g : _decode v = Ok g → genuine g.
Proof.
  unfold TransportGeneration._decode. intros Hd. repeat (apply bind_Ok in Hd as (? & _ & Hd)).
  repeat (case_match; try done). apply bind_Ok in Hd as ([] & Hr%raise_if_Ok & [= <-]). to_prop.
  split; [simpl; lia|done].
Qed.

Lemma expiry_finite v e : decode_expiry v = Ok e → finite_expiry e.
Proof.
  unfold decode_expiry. intros Hd. destruct v; cbv iota in Hd; try done; [by injection Hd as <-|..];
    apply bind_Ok in Hd as (x & Hf & Hd); apply bind_Ok in Hd as ([] & Hr%raise_if_Ok & [= <-]); to_prop;
    split; eauto.
Qed.

Lemma accepted_wf c items : ∀ acc l, decode_accepted c items acc = Ok l →
  NoDup acc.*1 → (∀ x, x ∈ acc → kept c x) → NoDup l.*1 ∧ ∀ x, x ∈ l → kept c x.
Proof.
  induction items as [|raw items IH]; intros acc l Hd Hn Ha; [by simplify_eq/=|]. simpl in Hd.
  apply bind_Ok in Hd as (d & _ & Hd). apply bind_Ok in Hd as (g & Hg%decode_genuine & Hd).
  apply bind_Ok in Hd as ([] & Hr%raise_if_Ok & Hd). to_prop.
  apply bind_Ok in Hd as (e & He%expiry_finite & Hd). apply IH in Hd; [done|by apply od_set_NoDup|].
  intros x [->|Hx]%od_set_elem; [|by apply Ha]. split_and!; try done. simpl. lia.
Qed.

Lemma load_wf d m : _load d = Ok m → wf m ∧ is_Some (_current m).
Proof.
  unfold TransportGeneration._load. intros Hl. destruct (load_document d) as [m'|e] eqn:Hd; [|by destruct (_ || _)].
  injection Hl as ->. unfold TransportGeneration.load_document in Hd. destruct (equals_int _ _).
  - apply bind_Ok in Hd as (v & _ & Hd). destruct v; try done. apply bind_Ok in Hd as ([] & _ & Hd).
    apply bind_Ok in Hd as (c & [Hc _]%generation_genuine & [= <-]). split; [|by eexists].
    split; [done|apply NoDup_nil_2|intros x Hx; by apply elem_of_nil in Hx|done].
  - apply bind_Ok in Hd as ([] & _ & Hd). apply bind_Ok in Hd as (v & _ & Hd).
    apply bind_Ok in Hd as (c & Hc%decode_genuine & Hd). apply bind_Ok in Hd as (? & _ & Hd).
    apply bind_Ok in Hd as (items & _ & Hd). apply bind_Ok in Hd as (l & Hl & Hd).
    destruct (accepted_wf _ _ _ _ Hl NoDup_nil_2) as [Hk Ha]; [intros y Hy; by apply elem_of_nil in Hy|].
    apply bind_Ok in Hd as (next & Hn & Hd). apply bind_Ok in Hd as ([] & Hr%raise_if_Ok & [= <-]).
    split; [|by eexists]. split; try done. simpl. intros n ->. to_prop. split; [|lia].
    destruct (jget "next" d); try done; apply bind_Ok in Hn as (g & Hg%decode_genuine & [= <-]); done.
Qed.

(** ** Commits *)

Section operations.
Context {D : Type} (persist : option (dict → M D (option bool))) (store : option (dict → M D ())).
Context (_grace_seconds : float).
(** What is stored.  A save that returns, and does not return [False], is durable; one that fails
    leaves what was stored. *)
Context (stored : D → option dict).
Context (Hdurable : ∀ doc d d' r, save_document persist store doc d = (d', r) →
  match r with
  | Ok (Some false) | Err _ => stored d' = stored d
  | Ok _ => stored d' = Some doc
  end).
Notation W := (World (D := D)).
Implicit Types (w : W).
Notation _commit := (_commit persist store).

Lemma transport_commit c accepted next w :
  ∃ d', _commit (Some c) accepted next w = (mkWorld (TransportGenerationManager.mk (Some c) accepted next) d', Ok ())
          ∧ stored d' = Some (document c accepted next) ∨
        _commit (Some c) accepted next w
          = (mkWorld (manager w) d', raise TransportStateError "transport state was not persisted")
          ∧ stored d' = stored (disk w).
Proof.
  unfold TransportGeneration._commit, attempt, _save. rewrite M_bind_run. cbn [this]. rewrite M_bind_run. cbn [put].
  rewrite !M_bind_run. cbn [this manager lift _to_dict current of_option _current mbind result_bind].
  rewrite M_bind_run. cbn [lift]. unfold on_disk. cbn [disk].
  destruct (save_document persist store _ (disk w)) as [d' r] eqn:Hs. pose proof (Hdurable _ _ _ _ Hs) as Hd.
  exists d'. destruct r as [[[]|]|e]; [left|right|left|right]; by split.
Qed.

(** ** Any history *)

Inductive rotation_op :=
  | OInitialize (fp : string)
  | OPrepare (fp : string)
  | OActivate (n : Z) (now : float)
  | ORetire (n : Z)
  | ORollback
  | ORollbackActive.

Definition rotation_run (o : rotation_op) (w : W) : W :=
  match o with
  | OInitialize fp => (initialize b64encode ed25519_sign identity persist store fp w).1
  | OPrepare fp => (prepare b64encode ed25519_sign identity persist store fp w).1
  | OActivate n now => (activate persist store _grace_seconds n now w).1
  | ORetire n => (retire persist store n w).1
  | ORollback => (rollback persist store w).1
  | ORollbackActive => (rollback_active persist store w).1
  end.
Definition rotation_exec (ops : list rotation_op) (w : W) : W := foldl (λ w o, rotation_run o w) w ops.

(** The overlap of an activation ends at a finite time. *)
Definition timely (o : rotation_op) : Prop :=
  match o with OActivate _ now => isfinite (fadd now _grace_seconds) = true | _ => True end.

Definition synced (w : W) : Prop := wf (manager w) ∧ restart (stored (disk w)) = Ok (manager w).

Lemma sync_this {A} (k : TransportGenerationManager.t → M W A) w :
  synced (k (manager w) w).1 → synced ((this ≫= k) w).1.
Proof. done. Qed.
Lemma sync_guard {A} b cls msg (k : () → M W A) w : synced w →
  (b = false → synced (k () w).1) → synced ((throw_if b cls msg ≫= k) w).1.
Proof. intros Hs Hk. rewrite M_bind_run. unfold throw_if. destruct b; simpl; auto. Qed.
Lemma sync_lift {A B} (r : result A) (k : A → M W B) w : synced w →
  (∀ a, r = Ok a → synced (k a w).1) → synced ((lift r ≫= k) w).1.
Proof. intros Hs Hk. rewrite M_bind_run. unfold lift. destruct r; simpl; auto. Qed.
Lemma sync_commit c accepted next w : wf_with c accepted next → synced w →
  synced (_commit (Some c) accepted next w).1.
Proof.
  intros Hwf [Hm Hd]. destruct (transport_commit c accepted next w) as [d' [[-> E]|[-> E]]]; split; simpl; try done.
  - rewrite E. by apply document_read.
  - by rewrite E.
Qed.
Lemma sync_commit_bind {A} c accepted next (k : () → M W A) w : wf_with c accepted next → synced w →
  (∀ u w', (k u w').1 = w') → synced ((_commit (Some c) accepted next ≫= k) w).1.
Proof.
  intros Hwf Hs Hk. pose proof (sync_commit c accepted next w Hwf Hs) as Hc. rewrite M_bind_run.
  destruct (_commit _ _ _ w) as [w' [u|e]]; [by rewrite Hk|done].
Qed.

Lemma max_of_ge l z : z ∈ l → (z ≤ max_of l)%Z.
Proof.
  destruct l as [|y l]; [by intros ?%elem_of_nil|]. simpl.
  assert (∀ l, (∀ z, z ∈ l → z ≤ foldr Z.max y l)%Z ∧ (y ≤ foldr Z.max y l)%Z) as H.
  { clear. induction l as [|x l [IH1 IH2]]; simpl; [split; [by intros z ?%elem_of_nil|lia]|].
    split; [|lia]. intros z [->|Hz]%elem_of_cons; [lia|]. specialize (IH1 z Hz). lia. }
  destruct (H l) as [H1 H2]. intros [->|Hz]%elem_of_cons; auto.
Qed.

Lemma max_of_in l : l ≠ [] → max_of l ∈ l.
Proof.
  destruct l as [|y l]; [done|]. intros _. simpl. induction l as [|x l IH]; simpl; [set_solver|].
  destruct (Z.max_spec x (foldr Z.max y l)) as [[_ ->]|[_ ->]]; set_solver.
Qed.
Lemma max_of_eq l b : b ∈ l → (∀ z, z ∈ l → z ≤ b)%Z → max_of l = b.
Proof.
  intros Hb Hl. assert (max_of l ∈ l) as Hm by (apply max_of_in; by intros ->; apply elem_of_nil in Hb).
  apply Hl in Hm. apply max_of_ge in Hb. lia.
Qed.

Lemma highest_current m c : _current m = Some c → (generation c ≤ _highest_generation m)%Z.
Proof. intros Hc. unfold _highest_generation. apply max_of_ge. rewrite Hc. set_solver. Qed.

Lemma wf_some m c : wf m → _current m = Some c → wf_with c (_accepted m) (_next m).
Proof. unfold wf. intros Hwf Hc. by rewrite Hc in Hwf. Qed.

Lemma kept_mono c c' x : (generation c ≤ generation c')%Z → kept c x → kept c' x.
Proof. intros ? (?&?&?&?). split_and!; try done. lia. Qed.

Lemma wf_prepared c accepted next n : wf_with c accepted next → genuine n → (generation c < generation n)%Z →
  wf_with c accepted (Some n).
Proof. intros [] ??. split; try done. by intros ? [= <-]. Qed.
Lemma wf_rolled c accepted next : wf_with c accepted next → wf_with c accepted None.
Proof. intros []. by split. Qed.
Lemma wf_retired c accepted next n : wf_with c accepted next → wf_with c (od_pop n accepted) next.
Proof.
  intros [Hc Hk Ha Hn]. split; try done; [by apply od_pop_NoDup|]. intros x [Hx _]%od_pop_elem. auto.
Qed.
Lemma wf_activated c accepted n expiry : wf_with c accepted (Some n) → finite_expiry expiry →
  wf_with n (od_set (generation c) (c, expiry) accepted) None.
Proof.
  intros [Hc Hk Ha Hn] He. destruct (Hn n eq_refl) as [Hg Hlt]. split; try done; [by apply od_set_NoDup|].
  intros x [->|Hx]%od_set_elem; [by split_and!|]. apply (kept_mono c); [lia|auto].
Qed.
Lemma wf_restored c accepted next p : wf_with c accepted next → od_get (max_of accepted.*1) accepted = Some p →
  wf_with p.1 (od_pop (max_of accepted.*1) accepted) None.
Proof.
  intros [Hc Hk Ha Hn] Hp. apply od_get_elem in Hp. pose proof (Ha _ Hp) as (Hpk & Hpg & _ & _). simpl in Hpk, Hpg.
  split; try done; [by apply od_pop_NoDup|]. intros x [Hx Hne]%od_pop_elem.
  destruct (Ha x Hx) as (?&?&?&?). split_and!; try done. rewrite Hpk.
  assert (x.1 ≤ max_of accepted.*1)%Z; [|lia]. apply max_of_ge, list_elem_of_fmap. eauto.
Qed.

Lemma run_synced o w : timely o → synced w → synced (rotation_run o w).
Proof.
  intros Ht Hs. pose proof Hs as [Hm _]. destruct o; cbn [rotation_run].
  - unfold initialize. apply sync_this. destruct (_current (manager w)) eqn:Hc.
    + by apply sync_guard.
    + apply sync_lift; [done|]. intros c [Hg _]%generation_genuine. apply sync_commit_bind; [|done..].
      split; try done; [apply NoDup_nil_2|]. intros x Hx. by apply elem_of_nil in Hx.
  - unfold prepare. apply sync_this. destruct (_current (manager w)) as [c|] eqn:Hc.
    + apply sync_guard; [done|]. intros _. apply sync_lift; [done|]. intros n (Hg & Hn & _)%generation_genuine.
      apply sync_commit_bind; [|done..]. pose proof (highest_current _ _ Hc).
      eapply wf_prepared; [by apply wf_some|done|lia].
    + unfold initialize. apply sync_this. rewrite Hc.
      apply sync_lift; [done|]. intros c [Hg _]%generation_genuine. apply sync_commit_bind; [|done..].
      split; try done; [apply NoDup_nil_2|]. intros x Hx. by apply elem_of_nil in Hx.
  - unfold activate. apply sync_this, sync_guard; [done|]. intros Hn. apply sync_lift; [done|].
    intros c Hc%of_option_Ok. destruct (_next (manager w)) as [n'|] eqn:Hnext; [|done].
    apply sync_commit_bind; [|done|by intros _ w'; destruct (_current _)].
    apply wf_activated; [rewrite <- Hnext; by apply wf_some|]. split; [done|by eexists].
  - unfold retire. apply sync_this, sync_guard; [done|]. intros _. apply sync_lift; [done|].
    intros c Hc%of_option_Ok. apply sync_commit; [|done]. by apply wf_retired, wf_some.
  - unfold rollback. apply sync_this, sync_guard; [done|]. intros _. apply sync_lift; [done|].
    intros c Hc%of_option_Ok. apply sync_commit; [|done]. by eapply wf_rolled, wf_some.
  - unfold rollback_active. apply sync_this, sync_guard; [done|]. intros _. apply sync_lift; [done|].
    intros p Hp%of_option_Ok. apply sync_commit_bind; [|done..].
    destruct (_current (manager w)) as [c|] eqn:Hc; [by eapply wf_restored; [apply wf_some|]|].
    unfold wf in Hm. rewrite Hc in Hm. by rewrite Hm in Hp.
Qed.

(** C25. A rotation survives a restart at any point: whatever sequence of operations is called and
    whichever saves fail, a manager made over what is then stored holds the same current,
    accepted and prepared generations as the running one. *)
Theorem restart_keeps_rotation d m ops : restart (stored d) = Ok m → Forall timely ops →
  let w := rotation_exec ops (mkWorld m d) in
  restart (stored (disk w)) = Ok (manager w) ∧ wf (manager w).
Proof.
  intros Hd Ht. assert (synced (mkWorld m d)) as Hs.
  { split; [|done]. unfold __init__ in Hd. destruct (stored d); [by apply load_wf in Hd as [? _]|by injection Hd as <-]. }
  revert Hs. generalize (mkWorld m d). clear d m Hd.
  induction Ht as [|o ops Ho _ IH]; intros w Hs; [by destruct Hs|]. apply IH. by apply run_synced.
Qed.

(** ** A rotation *)

Notation rotate := (rotate b64encode ed25519_sign identity persist store _grace_seconds).

(** The stored entries accept the fingerprint at a time. *)
Definition still_accepted (l : table) (fp : string) (t : float) : bool :=
  existsb (λ x, bool_decide (fingerprint x.2.1 = fp)
                && match x.2.2 with None => true | Some expiry => number_geb expiry t end) l.

Lemma commit_step {A} c accepted next (k : () → M W A) w w' res :
  (_commit (Some c) accepted next ≫= k) w = (w', res) →
  (∃ w1, manager w1 = TransportGenerationManager.mk (Some c) accepted next ∧ k () w1 = (w', res)) ∨
  manager w' = manager w ∧ res = raise TransportStateError "transport state was not persisted".
Proof.
  rewrite M_bind_run. destruct (transport_commit c accepted next w) as [d' [[-> _]|[-> _]]].
  - intros Hk. left. eexists. by split; [|exact Hk].
  - intros [= <- <-]. by right.
Qed.

(** What [prepare] has done when it returns. *)
Lemma prepare_cases fp w w' res c : wf (manager w) → _current (manager w) = Some c →
  prepare b64encode ed25519_sign identity persist store fp w = (w', res) →
  match res with
  | Err _ => manager w' = manager w
  | Ok n => manager w' = TransportGenerationManager.mk (Some c) (_accepted (manager w)) (Some n) ∧
      _next (manager w) = None ∧ generation n = (generation c + 1)%Z ∧ fingerprint n = fp
  end.
Proof.
  intros Hwf Hc Hp. unfold prepare in Hp. rewrite M_bind_run in Hp. cbn [this] in Hp. rewrite Hc in Hp.
  rewrite M_bind_run in Hp. unfold throw_if in Hp. case_bool_decide as Hn; [by injection Hp as <- <-|].
  simpl raise_if in Hp. rewrite M_bind_run in Hp. unfold lift in Hp.
  destruct (_generation _ fp) as [n|e] eqn:Hg; [|by injection Hp as <- <-].
  apply generation_genuine in Hg as (_ & Hgn & Hgf).
  apply commit_step in Hp as [(w1 & E & Hk)|[E ->]]; [|done]. injection Hk as <- <-.
  assert (_next (manager w) = None) as Hnext by (by apply eq_None_not_Some). split; [done|]. split; [done|].
  split; [|done]. rewrite Hgn. f_equal. unfold _highest_generation. rewrite Hc, Hnext. simpl.
  apply max_of_eq; [set_solver|]. intros z. rewrite elem_of_app, elem_of_cons. intros [Hz|[->|Hz%elem_of_nil]]; [|lia|done].
  apply list_elem_of_fmap in Hz as (x & -> & Hx).
  destruct (wf_accepted _ _ _ (wf_some _ _ Hwf Hc) x Hx) as (_&_&?&_). lia.
Qed.

(** What a rotation has done when it returns, and when it raises. *)
Lemma rotate_cases material now w w' res c : wf (manager w) → _current (manager w) = Some c →
  rotate material now w = (w', res) →
  match res with
  | Ok g => generation g = (generation c + 1)%Z ∧ fingerprint g = material (generation c + 1)%Z ∧
      manager w' = TransportGenerationManager.mk (Some g)
        (_accepted (manager w) ++ [(generation c, (c, Some (JFloat (fadd now _grace_seconds))))]) None
  | Err _ => manager w' = manager w ∨ is_Some (_next (manager w')) ∧ _current (manager w') = Some c
  end.
Proof.
  intros Hwf Hc Hr. unfold TransportGeneration.rotate in Hr. rewrite M_bind_run in Hr. cbn [this] in Hr.
  rewrite M_bind_run in Hr. unfold lift at 1, current at 1 in Hr. rewrite Hc in Hr. cbn [of_option] in Hr. cbv zeta in Hr.
  rewrite M_bind_run in Hr.
  destruct (prepare _ _ _ _ _ _ w) as [w1 [n|e]] eqn:Hp; apply (prepare_cases _ _ _ _ _ Hwf Hc) in Hp.
  2: { injection Hr as <- <-. by left. }
  destruct Hp as (E1 & Hnext & Hn & Hf). unfold activate in Hr. rewrite M_bind_run in Hr. cbn [this] in Hr.
  rewrite E1 in Hr. cbn [_next] in Hr. rewrite M_bind_run in Hr. unfold throw_if in Hr.
  rewrite bool_decide_eq_true_2 in Hr by done. cbn [negb raise_if] in Hr. rewrite M_bind_run in Hr.
  unfold lift at 1, current at 1 in Hr. cbn [_current of_option _accepted] in Hr.
  apply commit_step in Hr as [(w2 & E2 & Hk)|[E2 ->]].
  - rewrite M_bind_run in Hk. cbn [this] in Hk. rewrite E2 in Hk. injection Hk as <- <-.
    split; [done|]. split; [done|]. rewrite E2. f_equal. apply od_set_fresh. intros (x & Ex & Hx)%list_elem_of_fmap.
    destruct (wf_accepted _ _ _ (wf_some _ _ Hwf Hc) x Hx) as (_&_&?&_). lia.
  - right. rewrite E2, E1. split; [by eexists|done].
Qed.

(** A rotation overlaps: when it returns the node has the next generation, under the key made
    for it, and accepts exactly that key, the one it replaced until the grace period is over,
    and what it accepted before. *)
Theorem rotation_overlaps material now w w' g c : wf (manager w) → _current (manager w) = Some c →
  rotate material now w = (w', Ok g) →
  generation g = (generation c + 1)%Z ∧ fingerprint g = material (generation c + 1)%Z ∧
  _current (manager w') = Some g ∧
  ∀ fp t, accepted (manager w') fp t =
    bool_decide (fingerprint g = fp) || still_accepted (_accepted (manager w)) fp t
    || bool_decide (fingerprint c = fp) && fleb t (fadd now _grace_seconds).
Proof.
  intros Hwf Hc Hr. destruct (rotate_cases _ _ _ _ _ _ Hwf Hc Hr) as (Hg & Hf & E). rewrite E.
  split; [done|]. split; [done|]. split; [done|]. intros fp t. unfold accepted. cbn [_current _accepted].
  case_bool_decide; [done|]. cbn [orb]. rewrite existsb_app. f_equal. cbn [existsb snd fst number_geb]. by rewrite orb_false_r.
Qed.

(** An interrupted rotation blocks every later one: when a rotation raises after its generation
    was prepared, the generation stays pending, and each further rotation is refused as a
    conflict and changes nothing. *)
Theorem interrupted_rotation_blocks material now w w' e c : wf (manager w) → _current (manager w) = Some c →
  rotate material now w = (w', Err e) → manager w' ≠ manager w →
  ∀ material now w2, manager w2 = manager w' →
    rotate material now w2 = (w2, raise RotationConflict "a transport rotation is already pending").
Proof.
  intros Hwf Hc Hr Hne material' now' w2 E2. destruct (rotate_cases _ _ _ _ _ _ Hwf Hc Hr) as [?|[Hn Hc']]; [done|].
  unfold TransportGeneration.rotate. rewrite M_bind_run. cbn [this]. rewrite M_bind_run, E2. unfold current. rewrite Hc'.
  cbn [of_option lift]. rewrite M_bind_run. unfold prepare. rewrite M_bind_run. cbn [this]. rewrite E2, Hc', M_bind_run.
  unfold throw_if. by rewrite bool_decide_eq_true_2 by done.
Qed.
End operations.
End spec.

(** ** A concrete manager *)

(** A toy signature: the key in front of the text. *)
Definition toy_encode (s : string) : string := s.
Definition toy_decode (s : string) : option string := Some s.
Definition toy_public (key : string) : string := key.
Definition toy_sign (key payload : string) : string := key +:+ payload.
Definition toy_verify (key signature payload : string) : bool := bool_decide (signature = key +:+ payload).

Lemma toy_signs key payload : toy_verify (toy_public key) (toy_sign key payload) payload = true.
Proof. by apply bool_decide_eq_true. Qed.

(** A disk, and how many saves it will still take. *)
Definition toy_disk : Type := nat * option dict.
Definition toy_save (document : dict) : M toy_disk () := λ d,
  match d.1 with O => (d, raise OSError "disk full") | S n => ((n, Some document), Ok ()) end.

Lemma toy_durable doc d d' r : save_document None (Some toy_save) doc d = (d', r) →
  match r with
  | Ok (Some false) | Err _ => d'.2 = d.2
  | Ok _ => d'.2 = Some doc
  end.
Proof. destruct d as [[|n] o]; unfold save_document; rewrite M_bind_run; simpl; by intros [= <- <-]. Qed.

Definition toy_identity : NodeIdentity.t := NodeIdentity.mk (mkNodeId "n") "k".
Definition toy_material (n : Z) : string := if (n =? 1)%Z then "key-1" else "key-2".
Definition toy_start (saves : nat) : World :=
  rotation_exec toy_encode toy_sign toy_identity None (Some toy_save) (flit 300) [OInitialize "key-1"] (mkWorld empty (saves, None)).
Definition toy_rotate (saves : nat) :=
  rotate toy_encode toy_sign toy_identity None (Some toy_save) (flit 300) toy_material (flit 100) (toy_start saves).

(** A key of the first generation, and one of the second. *)
Definition toy_generation (n : Z) : TransportGeneration.t :=
  TransportGeneration.mk n (toy_material n) (toy_sign "k" (_proof_payload (mkNodeId "n") n (toy_material n))).

Lemma restart_keeps_rotation_witness :
  let w := rotation_exec toy_encode toy_sign toy_identity None (Some toy_save) (flit 300)
             [OInitialize "key-1"; OPrepare "key-2"; OActivate 2 (flit 100); OPrepare "key-3"]
             (mkWorld empty (3, None)) in
  _current (manager w) = Some (toy_generation 2) ∧ _next (manager w) = None ∧
  __init__ toy_encode toy_decode toy_public toy_sign toy_verify toy_identity (disk w).2 = Ok (manager w).
Proof.
  split; [vm_compute; reflexivity|]. split; [vm_compute; reflexivity|].
  refine (proj1 (restart_keeps_rotation toy_encode toy_decode toy_public toy_sign toy_verify (λ _, eq_refl) toy_signs
                   toy_identity None (Some toy_save) (flit 300) snd toy_durable (3, None) empty
                   [OInitialize "key-1"; OPrepare "key-2"; OActivate 2 (flit 100); OPrepare "key-3"] eq_refl _)).
  repeat constructor.
Defined.

(** The manager of a node that has its first key. *)
Lemma toy_wf saves : saves = 2 ∨ saves = 9 →
  wf toy_encode toy_decode toy_public toy_verify toy_identity (manager (toy_start saves)) ∧
  _current (manager (toy_start saves)) = Some (toy_generation 1).
Proof.
  intros Hs. split; [|by destruct Hs as [->| ->]].
  refine (proj2 (restart_keeps_rotation toy_encode toy_decode toy_public toy_sign toy_verify (λ _, eq_refl) toy_signs
                   toy_identity None (Some toy_save) (flit 300) snd toy_durable (saves, None) empty
                   [OInitialize "key-1"] eq_refl _)).
  repeat constructor.
Qed.

Lemma rotation_overlaps_witness :
  (toy_rotate 9).2 = Ok (toy_generation 2) ∧
  accepted (manager (toy_rotate 9).1) "key-1" (flit 400) = true ∧
  accepted (manager (toy_rotate 9).1) "key-1" (flit 401) = false.
Proof.
  assert (Hok : (toy_rotate 9).2 = Ok (toy_generation 2)) by (vm_compute; reflexivity). split; [exact Hok|].
  destruct (toy_wf 9 (or_intror eq_refl)) as [Hwf Hc].
  destruct (rotation_overlaps toy_encode toy_decode toy_public toy_sign toy_verify (λ _, eq_refl) toy_signs
              toy_identity None (Some toy_save) (flit 300) snd toy_durable toy_material (flit 100) (toy_start 9)
              (toy_rotate 9).1 (toy_generation 2) (toy_generation 1) Hwf Hc) as (_ & _ & _ & Ha).
  { rewrite <- Hok. apply surjective_pairing. }
  split; rewrite Ha; vm_compute; reflexivity.
Defined.

(** The disk fills up between the two saves of the rotation. *)
Lemma interrupted_rotation_blocks_witness :
  is_ok (toy_rotate 2).2 = false ∧
  rotate toy_encode toy_sign toy_identity None (Some toy_save) (flit 300) toy_material (flit 500) (toy_rotate 2).1
  = ((toy_rotate 2).1, raise RotationConflict "a transport rotation is already pending").
Proof.
  split; [vm_compute; reflexivity|]. destruct (toy_wf 2 (or_introl eq_refl)) as [Hwf Hc].
  refine (interrupted_rotation_blocks toy_encode toy_decode toy_public toy_sign toy_verify (λ _, eq_refl) toy_signs
            toy_identity None (Some toy_save) (flit 300) snd toy_durable toy_material (flit 100) (toy_start 2)
            (toy_rotate 2).1 (Exn TransportStateError "transport state was not persisted") (toy_generation 1)
            Hwf Hc _ _ toy_material (flit 500) (toy_rotate 2).1 eq_refl).
  - vm_compute. reflexivity.
  - intros E. apply (f_equal _next) in E. vm_compute in E. discriminate E.
Defined.
