(* ===== verification/RemoteModels.v ===== *)
(** * Documents of the host ([remote/models.py])

    The value objects a host reports and their JSON forms in both directions.  Dates and
    paths belong to the standard library: their types and texts are parameters. *)

From S2P Require Import Prelude PyFloat Identity PyJson StateCodec.

Inductive NodeStatus := ONLINE | OFFLINE | UNKNOWN.
#[export] Instance NodeStatus_eq_dec : EqDecision NodeStatus.
Proof. solve_decision. Defined.

Module NodeStatus.
Definition value (s : NodeStatus) : string :=
  match s with ONLINE => "online" | OFFLINE => "offline" | UNKNOWN => "unknown" end.
(** [NodeStatus(text)] *)
Definition of_value (s : string) : result NodeStatus :=
  match List.find (λ x, bool_decide (value x = s)) [ONLINE; OFFLINE; UNKNOWN] with
  | Some x => Ok x
  | None => raise ValueError ("'" +:+ s +:+ "' is not a valid NodeStatus")
  end.
End NodeStatus.

Inductive ProcessActionKind := REQUEST | FORCE | REQUEST_QUIT | FORCE_QUIT.
#[export] Instance ProcessActionKind_eq_dec : EqDecision ProcessActionKind.
Proof. solve_decision. Defined.

Module ProcessActionKind.
Definition value (k : ProcessActionKind) : string :=
  match k with
  | REQUEST => "request" | FORCE => "force"
  | REQUEST_QUIT => "request_quit" | FORCE_QUIT => "force_quit"
  end.
(** [ProcessActionKind(text)] *)
Definition of_value (s : string) : result ProcessActionKind :=
  match List.find (λ x, bool_decide (value x = s)) [REQUEST; FORCE; REQUEST_QUIT; FORCE_QUIT] with
  | Some x => Ok x
  | None => raise ValueError ("'" +:+ s +:+ "' is not a valid ProcessActionKind")
  end.
End ProcessActionKind.

(** [percent] and the temperatures are passed on as they are; a temperature that is a
    dataclass is given by the dictionary [asdict] makes of it. *)
Module ResourceSummary.
Record t := mk {
  key : string;
  title : string;
  value : string;
  subtitle : string;
  percent : json;
  details : list string;
  actionable : bool;
  failed : bool;
  capability : string;
  temperatures : list json }.
End ResourceSummary.

Module ProcessCandidate.
Record t := mk {
  pid : Z;
  name : string;
  memory_bytes : Z;
  memory_percent : float;
  cpu_percent : float;
  activity : string;
  username : string;
  action_allowed : bool;
  create_time : json }.
End ProcessCandidate.

Module ProcessActionResult.
Record t := mk {
  requested : Z;
  stopped : list Z;
  force_required : list Z;
  errors : list string }.
End ProcessActionResult.

Module ProcessRef.
Record t := mk { node_id : NodeId; pid : Z; create_time : option float }.
End ProcessRef.

Module ProcessTerminationRequest.
Record t := mk {
  target_node_id : NodeId;
  processes : list ProcessRef.t;
  action : ProcessActionKind }.
End ProcessTerminationRequest.

Module DashboardSnapshot.
Record t {D : Type} := mk {
  system_label : string;
  scanned_at : D;
  resources : list ResourceSummary.t }.
Arguments t : clear implicits.
Arguments mk {D}.
End DashboardSnapshot.

Module FileCandidate.
Record t {D P : Type} := mk {
  path : P;
  size_bytes : Z;
  modified_at : D;
  reason : string }.
Arguments t : clear implicits.
Arguments mk {D P}.
End FileCandidate.

Module NodeSnapshot.
Record t {D : Type} := mk {
  node_id : NodeId;
  display_name : string;
  hostname : string;
  platform : json;
  status : NodeStatus;
  capabilities : gset NodeCapability;
  scanned_at : D;
  dashboard : DashboardSnapshot.t D }.
Arguments t : clear implicits.
Arguments mk {D}.
End NodeSnapshot.

(** [value.get(key, dflt)] *)
Abbreviation dict := (list (string * json)) (only parsing).

Definition object (v : json) (msg : string) : result dict := of_option (is_obj v) TypeError msg.

(** ** Writing *)

Section write.
Context {D P : Type} (isoformat : D → string) (path_str : P → string).

Definition _summary_to_dict (r : ResourceSummary.t) : json :=
  JObj [("key", JStr (ResourceSummary.key r)); ("title", JStr (ResourceSummary.title r));
        ("value", JStr (ResourceSummary.value r)); ("subtitle", JStr (ResourceSummary.subtitle r));
        ("percent", ResourceSummary.percent r);
        ("details", JList (JStr <$> ResourceSummary.details r));
        ("actionable", JBool (ResourceSummary.actionable r));
        ("failed", JBool (ResourceSummary.failed r));
        ("capability", JStr (ResourceSummary.capability r));
        ("temperatures", JList (ResourceSummary.temperatures r))].

Definition resource_summary_to_dict := _summary_to_dict.

Definition _dashboard_to_dict (d : DashboardSnapshot.t D) : json :=
  JObj [("system_label", JStr (DashboardSnapshot.system_label d));
        ("scanned_at", JStr (isoformat (DashboardSnapshot.scanned_at d)));
        ("resources", JList (_summary_to_dict <$> DashboardSnapshot.resources d))].

Definition node_snapshot_to_dict (n : NodeSnapshot.t D) : json :=
  JObj [("node_id", JStr (value (NodeSnapshot.node_id n)));
        ("display_name", JStr (NodeSnapshot.display_name n));
        ("hostname", JStr (NodeSnapshot.hostname n));
        ("platform", NodeSnapshot.platform n);
        ("status", JStr (NodeStatus.value (NodeSnapshot.status n)));
        ("capabilities", JList (JStr <$> sorted str_leb
           (NodeCapability.value <$> elements (NodeSnapshot.capabilities n))));
        ("scanned_at", JStr (isoformat (NodeSnapshot.scanned_at n)));
        ("dashboard", _dashboard_to_dict (NodeSnapshot.dashboard n))].

Definition process_action_result_to_dict (r : ProcessActionResult.t) : dict :=
  [("requested", JInt (ProcessActionResult.requested r));
   ("stopped", JList (JInt <$> ProcessActionResult.stopped r));
   ("force_required", JList (JInt <$> ProcessActionResult.force_required r));
   ("errors", JList (JStr <$> ProcessActionResult.errors r))].

Definition process_candidate_to_dict (c : ProcessCandidate.t) : json :=
  JObj [("pid", JInt (ProcessCandidate.pid c)); ("name", JStr (ProcessCandidate.name c));
        ("memory_bytes", JInt (ProcessCandidate.memory_bytes c));
        ("memory_percent", JFloat (ProcessCandidate.memory_percent c));
        ("cpu_percent", JFloat (ProcessCandidate.cpu_percent c));
        ("activity", JStr (ProcessCandidate.activity c));
        ("username", JStr (ProcessCandidate.username c));
        ("action_allowed", JBool (ProcessCandidate.action_allowed c));
        ("create_time", ProcessCandidate.create_time c)].

Definition file_candidate_to_dict (f : FileCandidate.t D P) : json :=
  JObj [("path", JStr (path_str (FileCandidate.path f)));
        ("size_bytes", JInt (FileCandidate.size_bytes f));
        ("modified_at", JStr (isoformat (FileCandidate.modified_at f)));
        ("reason", JStr (FileCandidate.reason f))].
End write.

(** ** Reading *)

Section read.
Context (float_repr : float → string) (container_repr : json → string).
Context (parse_int : string → result Z) (parse_float : string → result float).
Context {D P : Type} (fromisoformat : string → result D) (path_of : string → P).

Notation str := (py_str float_repr container_repr).
Notation int := (py_int parse_int).
Notation flt := (py_float parse_float).

(** [str(value[key])], and the like. *)
Definition text_at (key : string) (d : dict) : result string := v ← index key d; str v.
Definition int_at (key : string) (d : dict) : result Z := v ← index key d; int v.
Definition float_at (key : string) (d : dict) : result float := v ← index key d; flt v.
Definition date_at (key : string) (d : dict) : result D := v ← text_at key d; fromisoformat v.

(** [tuple(f(item) for item in v)] *)
Definition each {A} (f : json → result A) (v : json) : result (list A) :=
  items ← py_iter v; mapM f items.

Definition resource_summary_from_dict (value : json) : result ResourceSummary.t :=
  d ← object value "resource summary must be an object";
  key ← text_at "key" d;
  title ← text_at "title" d;
  value ← text_at "value" d;
  subtitle ← text_at "subtitle" d;
  details ← each str (jget_or "details" (JList []) d);
  capability ← str (jget_or "capability" (JStr "unknown") d);
  temperatures ← py_iter (jget_or "temperatures" (JList []) d);
  Ok (ResourceSummary.mk key title value subtitle (jget "percent" d) details
        (py_bool (jget_or "actionable" (JBool false) d)) (py_bool (jget_or "failed" (JBool false) d))
        capability temperatures).

Definition _dashboard_from_dict (value : json) : result (DashboardSnapshot.t D) :=
  d ← object value "dashboard snapshot must be an object";
  label ← text_at "system_label" d;
  scanned_at ← date_at "scanned_at" d;
  resources ← index "resources" d;
  resources ← each resource_summary_from_dict resources;
  Ok (DashboardSnapshot.mk label scanned_at resources).

(** [NodeCapability(item)] *)
Definition capability_of (v : json) : result NodeCapability :=
  match v with
  | JStr s => NodeCapability.of_value s
  | _ => raise ValueError "not a valid NodeCapability"
  end.

Definition node_snapshot_from_dict (value : json) : result (NodeSnapshot.t D) :=
  d ← object value "node snapshot must be an object";
  node_id ← text_at "node_id" d;
  node_id ← NodeId.__post_init__ node_id;
  display_name ← text_at "display_name" d;
  hostname ← text_at "hostname" d;
  status ← text_at "status" d;
  status ← NodeStatus.of_value status;
  capabilities ← index "capabilities" d;
  capabilities ← each capability_of capabilities;
  scanned_at ← date_at "scanned_at" d;
  dashboard ← index "dashboard" d;
  dashboard ← _dashboard_from_dict dashboard;
  Ok (NodeSnapshot.mk node_id display_name hostname (jget "platform" d) status
        (list_to_set capabilities) scanned_at dashboard).

Definition process_action_result_from_dict (value : json) : result ProcessActionResult.t :=
  d ← object value "process action result must be an object";
  requested ← int_at "requested" d;
  stopped ← each int (jget_or "stopped" (JList []) d);
  force_required ← each int (jget_or "force_required" (JList []) d);
  errors ← each str (jget_or "errors" (JList []) d);
  Ok (ProcessActionResult.mk requested stopped force_required errors).

Definition process_candidate_from_dict (value : json) : result ProcessCandidate.t :=
  d ← object value "process candidate must be an object";
  pid ← int_at "pid" d;
  name ← text_at "name" d;
  memory_bytes ← int_at "memory_bytes" d;
  memory_percent ← float_at "memory_percent" d;
  cpu_percent ← float_at "cpu_percent" d;
  activity ← text_at "activity" d;
  username ← text_at "username" d;
  allowed ← index "action_allowed" d;
  Ok (ProcessCandidate.mk pid name memory_bytes memory_percent cpu_percent activity username
        (py_bool allowed) (jget "create_time" d)).

Definition file_candidate_from_dict (value : json) : result (FileCandidate.t D P) :=
  d ← object value "file candidate must be an object";
  path ← text_at "path" d;
  size_bytes ← int_at "size_bytes" d;
  modified_at ← date_at "modified_at" d;
  reason ← text_at "reason" d;
  Ok (FileCandidate.mk (path_of path) size_bytes modified_at reason).
End read.

(** * What a host sends is what the peer reads *)

Section spec.
Context (float_repr : float → string) (container_repr : json → string).
Context (parse_int : string → result Z) (parse_float : string → result float).
Context {D P : Type} (isoformat : D → string) (fromisoformat : string → result D).
Context (path_str : P → string) (path_of : string → P).

Notation str := (py_str float_repr container_repr).
Notation int := (py_int parse_int).

Lemma each_fmap {A B} (f : json → result A) (enc : B → json) (g : B → A) l :
  (∀ x, f (enc x) = Ok (g x)) → each f (JList (enc <$> l)) = Ok (g <$> l).
Proof.
  intros Hf. unfold each. cbn [py_iter mbind result_bind].
  induction l as [|x l IH]; [done|]. cbn. rewrite Hf. cbn. cbn in IH. by rewrite IH.
Qed.

Lemma each_id {A} (f : json → result A) (enc : A → json) l :
  (∀ x, f (enc x) = Ok x) → each f (JList (enc <$> l)) = Ok l.
Proof. intros. rewrite (each_fmap f enc id) by done. by rewrite list_fmap_id. Qed.

#[local] Arguments each : simpl never.
#[local] Arguments sorted : simpl never.
#[local] Arguments fmap _ _ _ _ : simpl never.

Lemma each_str l : each str (JList (JStr <$> l)) = Ok l.
Proof. by apply each_id. Qed.
Lemma each_int l : each int (JList (JInt <$> l)) = Ok l.
Proof. by apply each_id. Qed.

Lemma summary_round_trip r :
  resource_summary_from_dict float_repr container_repr (_summary_to_dict r) = Ok r.
Proof.
  destruct r as [key title value subtitle percent details act fail cap temps].
  unfold resource_summary_from_dict, _summary_to_dict, jget_or, jget. simpl.
  rewrite each_str. simpl. destruct act, fail; done.
Qed.

Lemma capabilities_round_trip (X : gset NodeCapability) :
  ∃ l, each capability_of (JList (JStr <$> sorted str_leb (NodeCapability.value <$> elements X))) = Ok l
       ∧ (list_to_set l : gset NodeCapability) = X.
Proof.
  destruct (perm_fmap_inv NodeCapability.value (elements X) _
              (sorted_perm str_leb (NodeCapability.value <$> elements X))) as (l & -> & Hl).
  exists l. split.
  - rewrite <- list_fmap_compose. apply each_id. intros c. apply NodeCapability.capability_of_value.
  - apply set_eq. intros x. rewrite elem_of_list_to_set, Hl. apply elem_of_elements.
Qed.

(** Host documents: every value object a host reports is read back by the peer as the value
    it was, for each of the four documents, whatever its numbers, texts and optional members,
    given that a date and a path read back from their own text. *)
Theorem host_documents_round_trip
    (Hdate : ∀ d, fromisoformat (isoformat d) = Ok d) (Hpath : ∀ p, path_of (path_str p) = p) :
  (∀ n : NodeSnapshot.t D, NodeId.valid (NodeSnapshot.node_id n) →
     node_snapshot_from_dict float_repr container_repr fromisoformat
       (node_snapshot_to_dict isoformat n) = Ok n) ∧
  (∀ r, process_action_result_from_dict float_repr container_repr parse_int
          (JObj (process_action_result_to_dict r)) = Ok r) ∧
  (∀ c, process_candidate_from_dict float_repr container_repr parse_int parse_float
          (process_candidate_to_dict c) = Ok c) ∧
  (∀ f : FileCandidate.t D P, file_candidate_from_dict float_repr container_repr parse_int
          fromisoformat path_of (file_candidate_to_dict isoformat path_str f) = Ok f).
Proof.
  split_and!.
  - intros [[n] name host plat status caps at_ [label at2 resources]] Hn.
    unfold node_snapshot_from_dict, node_snapshot_to_dict, date_at, jget. simpl.
    unfold NodeId.valid in Hn. simpl in Hn. rewrite Hn. simpl.
    replace (NodeStatus.of_value (NodeStatus.value status)) with (Ok status) by (by destruct status).
    simpl. destruct (capabilities_round_trip caps) as (l & -> & Hl). simpl.
    rewrite Hdate. simpl. unfold _dashboard_from_dict, _dashboard_to_dict, date_at. simpl.
    rewrite Hdate. simpl. rewrite (each_id _ _summary_to_dict) by (apply summary_round_trip).
    simpl. by rewrite Hl.
  - intros [req stop force errs]. unfold process_action_result_from_dict, jget_or. simpl.
    rewrite each_int. simpl. rewrite each_int. simpl. by rewrite each_str.
  - by intros [].
  - intros []. unfold file_candidate_from_dict, file_candidate_to_dict, date_at. simpl.
    rewrite Hdate. simpl. by rewrite Hpath.
Qed.
End spec.

(** Dates are two texts. *)
Lemma host_documents_round_trip_witness :
  let n := NodeSnapshot.mk (mkNodeId "a") "A" "host" JNull ONLINE {[READ_STATE_CAP]} true
             (DashboardSnapshot.mk "system" false []) in
  node_snapshot_from_dict (λ _, "0.0") (λ _, "") (λ s, Ok (bool_decide (s = "new")))
    (node_snapshot_to_dict (λ b : bool, if b then "new" else "old") n) = Ok n.
Proof.
  intros n.
  apply (host_documents_round_trip (P := string) (λ _, "0.0") (λ _, "") (λ _, raise ValueError "no number")
           (λ _, raise ValueError "no number") (λ b : bool, if b then "new" else "old")
           (λ s, Ok (bool_decide (s = "new"))) id id); [by intros []|done|reflexivity].
Defined.
