(* ===== verification/Service.v ===== *)
(** * The authenticated request boundary ([remote/service.py])

    [RemoteService.handle] verifies an envelope, ties it to a logical session, authorizes
    the operation, runs it (at most once per request id when it is not a read), checks again
    that nothing it relied on changed, and signs a response.  The host's handlers run in the
    middle and may change anything: the object lives in a [World] with the state [outside]
    it, and a handler is any method of that world.  Clock readings are numbered: the [n]th
    is [clock n], so every theorem holds for every clock. *)

From S2P Require Import Prelude PyFloat Identity ClusterModels Sharing PyJson SurfaceWire Wire WireOps Caches IdempotencyStore Envelope Session StateCodec RemoteModels Surfaces.

Abbreviation dict := (list (string * json)) (only parsing).

(** ** The object *)

(** What the constructor fixes. *)
Module Settings.
Record t := mk {
  _node_id : NodeId;
  _display_name : string;
  _hostname : string;
  _platform : option string;
  _status : NodeStatus;
  _capabilities : gset NodeCapability;
  _expected_caller_id : option NodeId;
  _identity_fingerprint : string;
  _transport_fingerprint : option string;
  _root_public_key : option string;
  _transport_generation : option Z;
  _transport_proof : option string;
  _secret : string;
  _app_version : string;
  _freshness_seconds : float;
  _permissions : gset NodePermission;
  _require_dashboard_share : bool }.
End Settings.
Import Settings(_node_id, _display_name, _hostname, _platform, _status, _capabilities,
  _expected_caller_id, _identity_fingerprint, _transport_fingerprint, _root_public_key,
  _transport_generation, _transport_proof, _secret, _app_version, _freshness_seconds, _permissions,
  _require_dashboard_share).

(** The current Coordinator's authority, as the service knows it. *)
Module Fence.
Record t := mk {
  _cluster_id : option string;
  _coordinator_epoch : option Z;
  _fencing_token : option string }.
End Fence.
Import Fence(_cluster_id, _coordinator_epoch, _fencing_token).

Module RemoteService.
Record t := mk {
  settings : Settings.t;
  _grant_mode : bool;
  _grants : gmap NodeId PeerGrant.t;
  _cluster_capability_grants : list CapabilityGrant.t;
  _grant_version : Z;
  _replay_cache : ReplayCache.t;
  fence : Fence.t;
  _dashboard_shares : gmap NodeId float;
  _idempotency : IdempotencyCache.t;
  _sessions : LogicalSessionRegistry.t }.

Definition set_acl (s : t) (mode : bool) (grants : gmap NodeId PeerGrant.t)
    (cluster : list CapabilityGrant.t) (version : Z) : t :=
  mk (settings s) mode grants cluster version (_replay_cache s) (fence s) (_dashboard_shares s)
    (_idempotency s) (_sessions s).
Definition set_replay (s : t) (c : ReplayCache.t) : t :=
  mk (settings s) (_grant_mode s) (_grants s) (_cluster_capability_grants s) (_grant_version s) c
    (fence s) (_dashboard_shares s) (_idempotency s) (_sessions s).
Definition set_fence (s : t) (f : Fence.t) : t :=
  mk (settings s) (_grant_mode s) (_grants s) (_cluster_capability_grants s) (_grant_version s)
    (_replay_cache s) f (_dashboard_shares s) (_idempotency s) (_sessions s).
Definition set_shares (s : t) (m : gmap NodeId float) : t :=
  mk (settings s) (_grant_mode s) (_grants s) (_cluster_capability_grants s) (_grant_version s)
    (_replay_cache s) (fence s) m (_idempotency s) (_sessions s).
Definition set_idempotency (s : t) (c : IdempotencyCache.t) : t :=
  mk (settings s) (_grant_mode s) (_grants s) (_cluster_capability_grants s) (_grant_version s)
    (_replay_cache s) (fence s) (_dashboard_shares s) c (_sessions s).
Definition set_sessions (s : t) (r : LogicalSessionRegistry.t) : t :=
  mk (settings s) (_grant_mode s) (_grants s) (_cluster_capability_grants s) (_grant_version s)
    (_replay_cache s) (fence s) (_dashboard_shares s) (_idempotency s) r.

(** ** Construction and the access lists *)

(** Blanks do not count as digits. *)
Definition decoded_length (secret : string) : nat :=
  length (List.filter is_hex (String.list_ascii_of_string secret)) / 2.

Definition _validate_secret (secret : string) : result () :=
  raise_if (negb (py_len secret =? 64)%Z) ValueError "peer credentials must be 256-bit hex text";;
  raise_if (negb (fromhex_ok (String.list_ascii_of_string secret))) ValueError
    "peer credentials must be hexadecimal";;
  raise_if (negb (Nat.eqb (decoded_length secret) 32)) ValueError
    "peer credentials must be 256-bit hex text".

Definition validate_grant (grant : PeerGrant.t) : result () :=
  _validate_secret (PeerGrant.secret grant);;
  raise_if match PeerGrant.expires_at grant with Some x => negb (isfinite x) | None => false end
    ValueError "peer grant expiry must be finite".

(** The grants are checked in the order the mapping gives them. *)
Definition validate_grants (grants : gmap NodeId PeerGrant.t) : result () :=
  mapM (λ kg, validate_grant kg.2) (map_to_list grants);; Ok ().

(** The permissions a node gives without an access list. *)
Definition default_permissions (capabilities : gset NodeCapability) : gset NodePermission :=
  list_to_set (List.filter (λ p,
    existsb (λ c, bool_decide (NodePermission.value p = NodeCapability.value c)) (elements capabilities)
    && negb (bool_decide (p ∈ [PROCESS_TERMINATION; PROCESS_FORCE_TERMINATION; CLEANUP])))
    NodePermission.all).

(** An empty fingerprint in [c] is the argument [None]; [stored] is what the idempotency
    store loads, if there is a store. *)
Definition __init__ (sha256_hex : string → string) (c : Settings.t)
    (permissions : option (gset NodePermission)) (grants : option (gmap NodeId PeerGrant.t))
    (cluster_capability_grants : list CapabilityGrant.t) (f : Fence.t)
    (idempotency_ttl_seconds : float) (idempotency_max_entries : Z)
    (stored : option json) (idempotency_clock : nat → float) : result t :=
  _validate_secret (_secret c);;
  validate_grants (default ∅ grants);;
  idempotency ← IdempotencyCache.__init__ idempotency_ttl_seconds idempotency_max_entries;
  sessions ← LogicalSessionRegistry.__init__ (JFloat (fmul (_freshness_seconds c) (flit 10)))
               (JInt DEFAULT_MAX_SESSIONS) (JInt DEFAULT_MAX_GENERATIONS_PER_SESSION);
  let fingerprint := if bool_decide (_identity_fingerprint c = "")
                     then node_identity_fingerprint sha256_hex (value (_node_id c))
                     else _identity_fingerprint c in
  let c := Settings.mk (_node_id c) (_display_name c) (_hostname c) (_platform c) (_status c)
             (_capabilities c) (_expected_caller_id c) fingerprint (_transport_fingerprint c)
             (_root_public_key c) (_transport_generation c) (_transport_proof c) (_secret c)
             (_app_version c) (_freshness_seconds c)
             (default (default_permissions (_capabilities c)) permissions)
             (_require_dashboard_share c) in
  Ok (mk c (match grants with Some _ => true | None => false end) (default ∅ grants)
        cluster_capability_grants 0
        (ReplayCache.__init__ DEFAULT_REPLAY_TTL_SECONDS DEFAULT_REPLAY_MAX_ENTRIES) f ∅
        (_load_state stored idempotency_clock idempotency) sessions).

Definition update_grants (grants : gmap NodeId PeerGrant.t) : M t () := λ s,
  match validate_grants grants with
  | Err e => (s, Err e)
  | Ok _ => (set_acl s true grants (_cluster_capability_grants s) (_grant_version s + 1), Ok ())
  end.

Definition update_cluster_capability_grants (grants : list CapabilityGrant.t) : M t () := λ s,
  (set_acl s (_grant_mode s) (_grants s) grants (_grant_version s + 1), Ok ()).

(** ** The fence *)

Section fence.
Context (float_repr : float → string) (container_repr : json → string).

Definition _verify_role_fence (s : t) (params : dict) : result () :=
  let f := fence s in
  raise_if match _cluster_id f with
           | Some id => negb match jget "cluster_id" params with
                             | JStr c => bool_decide (c = id) | _ => false end
           | None => false
           end RemoteAuthorizationError "cluster identity is invalid";;
  raise_if match _coordinator_epoch f with
           | Some e => negb (equals_int (jget "epoch" params) e)
           | None => false
           end RemoteAuthorizationError "coordinator epoch is stale";;
  match _fencing_token f with
  | None => Ok ()
  | Some token =>
      presented ← py_str float_repr container_repr (jget "fencing_token" params);
      same ← compare_digest presented token;
      raise_if (negb same) RemoteAuthorizationError "coordinator fencing token is stale"
  end.
End fence.

Definition update_cluster_fence (cluster_id : string) (coordinator_epoch : Z) (fencing_token : string)
    : M t () := λ s,
  let installed := set_fence s (Fence.mk (Some cluster_id) (Some coordinator_epoch) (Some fencing_token)) in
  match _coordinator_epoch (fence s) with
  | None => (installed, Ok ())
  | Some current =>
      if negb (bool_decide (_cluster_id (fence s) = Some cluster_id)) then (installed, Ok ())
      else if (coordinator_epoch <? current)%Z
      then (s, raise RemoteAuthorizationError "cannot install an older coordinator epoch")
      else if (coordinator_epoch =? current)%Z
      then (s, match _fencing_token (fence s) with
               | None => raise RemoteAuthorizationError "coordinator fencing token conflicts"
               | Some token =>
                   same ← compare_digest fencing_token token;
                   raise_if (negb same) RemoteAuthorizationError "coordinator fencing token conflicts"
               end)
      else (installed, Ok ())
  end.

(** ** Dashboard shares *)

Definition clear_dashboard_share (caller : NodeId) (s : t) : t :=
  set_shares s (delete caller (_dashboard_shares s)).

Definition start_dashboard_share_for (caller : NodeId) (expires_at now : float) : M t () := λ s,
  if fleb expires_at now
  then (s, raise RemoteAuthorizationError "dashboard share expiry is invalid")
  else (set_shares s (<[caller := expires_at]> (_dashboard_shares s)), Ok ()).

Definition stop_dashboard_shares (s : t) : t := set_shares s ∅.
End RemoteService.
Import RemoteService.

(** ** The world of a service *)

Record World (X : Type) := mkWorld { svc : RemoteService.t; ticks : nat; outside : X }.
Arguments mkWorld {X} _ _ _.
Arguments svc {X} _.
Arguments ticks {X} _.
Arguments outside {X} _.

(** [process_manager]: an object with a [terminate] method, or with two actions on pids. *)
Inductive ProcessManager (W : Type) :=
  | Terminates (terminate : ProcessTerminationRequest.t → M W (option ProcessActionResult.t))
  | Quits (request_quit force_quit :
             list Z → list (Z * float) → M W (option ProcessActionResult.t)).
Arguments Terminates {W} _.
Arguments Quits {W} _ _.

(** The callbacks and collaborators the service is built with.  A process action gives
    [None] when it returns something that is no [ProcessActionResult]. *)
Record Host (W X H D P : Type) := mkHost {
  role_handler : option (RemoteRequest.t → M W dict);
  trust_revoke_handler : option (NodeId → M W dict);
  trust_revoke_commit : option (M W ());
  capability_share : option (NodeId → string → json → M W json);
  surface_registry : option (X → SurfaceRegistry.t H);
  surface_run : H → NodeId → json → M W json;
  process_manager : option (ProcessManager W);
  dashboard_snapshot : M W (DashboardSnapshot.t D);
  component_summary : json → M W ResourceSummary.t;
  process_candidates : M W (list ProcessCandidate.t);
  storage_candidates : M W (list (FileCandidate.t D P));
  idempotency_store : option (json → M W ());
  (** What other threads do until the executor of a request id is done, and its entry then. *)
  await : string * string → W → W * IdempotencyCache.entry }.
Arguments role_handler {W X H D P} _.
Arguments trust_revoke_handler {W X H D P} _.
Arguments trust_revoke_commit {W X H D P} _.
Arguments capability_share {W X H D P} _.
Arguments surface_registry {W X H D P} _.
Arguments surface_run {W X H D P} _.
Arguments process_manager {W X H D P} _.
Arguments dashboard_snapshot {W X H D P} _.
Arguments component_summary {W X H D P} _.
Arguments process_candidates {W X H D P} _.
Arguments storage_candidates {W X H D P} _.
Arguments idempotency_store {W X H D P} _.
Arguments await {W X H D P} _.

(** [sub in text] *)
Definition contains (sub text : string) : bool :=
  match String.index 0 sub text with Some _ => true | None => false end.

Section service.
Context (hmac_sha256_hex : string → string → string) (float_repr : float → string).
Context (container_repr : json → string).
Context (parse_int : string → result Z) (parse_float : string → result float).
Context {X H D P : Type} (isoformat : D → string) (path_str : P → string).
Context (clock : nat → float) (session_clock : nat → json) (draw : nat → nat → json).

Notation W := (World X).
Context (host : Host W X H D P).

(** ** Access to the world *)

(** [self._clock()] *)
Definition now : M W float := λ w, (mkWorld (svc w) (S (ticks w)) (outside w), Ok (clock (ticks w))).

(** A method of the service, and of one of its parts. *)
Definition on_service {A} (m : M RemoteService.t A) : M W A := λ w,
  let '(s, r) := m (svc w) in (mkWorld s (ticks w) (outside w), r).

Definition on_sessions {A} (m : json → (nat → json) → M LogicalSessionRegistry.t A) : M W A := λ w,
  let '(reg, r) := m (session_clock (ticks w)) (draw (ticks w)) (_sessions (svc w)) in
  (mkWorld (RemoteService.set_sessions (svc w) reg) (S (ticks w)) (outside w), r).

Definition on_idempotency {A} (m : M IdempotencyCache.t A) : M W A :=
  on_service (λ s, let '(c, r) := m (_idempotency s) in (set_idempotency s c, r)).

Definition this : M W RemoteService.t := λ w, (w, Ok (svc w)).
Definition the {A} (f : Settings.t → A) : M W A := λ w, (w, Ok (f (settings (svc w)))).

(** A decision about the state outside. *)
Definition observe {A} (f : X → result A) : M W A := λ w, (w, f (outside w)).

(** ** Authorization *)

Definition _assert_grant_snapshot_current (grant : option PeerGrant.t) (grant_version : Z) : M W () :=
  s ← this;
  throw_if (negb (grant_version =? _grant_version s)%Z) RemoteAuthorizationError
    "caller permission changed";;
  match grant ≫= PeerGrant.expires_at with
  | None => mret ()
  | Some expires_at =>
      current ← now;
      throw_if (fleb expires_at current) RemoteAuthorizationError "caller grant has expired"
  end.

(** The first live cluster grant of the caller for this node; the clock is read for each
    grant that matches. *)
Fixpoint find_cluster_grant (caller node_id : NodeId) (l : list CapabilityGrant.t)
    : M W (option CapabilityGrant.t) :=
  match l with
  | [] => mret None
  | item :: l =>
      if bool_decide (CapabilityGrant.subject item = caller)
         && bool_decide (CapabilityGrant.target item = node_id)
      then current ← now;
           if fltb current (CapabilityGrant.expires_at item) then mret (Some item)
           else find_cluster_grant caller node_id l
      else find_cluster_grant caller node_id l
  end.

(** The permissions in force for a caller, under its cluster grant if it has one. *)
Definition effective (permissions : gset NodePermission) (cluster_grant : option CapabilityGrant.t)
    : result (gset NodePermission) :=
  match cluster_grant with
  | None => Ok permissions
  | Some g =>
      let both := permissions ∩ CapabilityGrant.permissions g in
      raise_if (bool_decide (both = ∅)) RemoteAuthorizationError
        "cluster capability grant has no Pair permission overlap";;
      Ok both
  end.

(** A [PermissionError] becomes a [RemoteAuthorizationError] with its text. *)
Definition as_authorization {A} (r : result A) : result A :=
  match r with
  | Err e => if exn_isa e PermissionError then raise RemoteAuthorizationError (exn_msg e) else r
  | Ok _ => r
  end.

(** The registry is authorized without running a handler. *)
Definition authorize_surface (request : RemoteRequest.t) (cluster_grant : option CapabilityGrant.t)
    : M W () :=
  let op := RemoteRequest.op request in
  let params := RemoteRequest.params request in
  lift (validate_operation_params float_repr op (JObj params));;
  caller ← lift (of_option (RemoteRequest.caller_node_id request) RemoteAuthorizationError
                   "caller identity required for surface requests");
  registry ← lift (of_option (surface_registry host) RemoteUnavailableError
                     "surface sharing is unavailable");
  surface_id ← lift (required_text "surface_id" params);
  access ← lift (of_option (od_get op SURFACE_ACCESS_BY_OPERATION) KeyError op);
  current ← now;
  observe (λ x, as_authorization
             (SurfaceRegistry.authorize (registry x) caller surface_id access
                (action_of params) (sources_of caller cluster_grant) current)).

Definition _authorize_request (request : RemoteRequest.t) (grant : option PeerGrant.t)
    : M W (option CapabilityGrant.t) :=
  let op := RemoteRequest.op request in
  s ← this;
  let c := settings s in
  required ← lift (of_option (od_get op OP_REQUIRED_CAPABILITY) RemoteProtocolError
                     ("unknown operation: " +:+ op));
  throw_if (negb (bool_decide (required ∈ _capabilities c))) RemoteAuthorizationError
    ("node is not authorised for " +:+ op);;
  permission ← lift (of_option (od_get op OP_REQUIRED_PERMISSION) KeyError op);
  let permissions := match grant with Some g => PeerGrant.permissions g | None => _permissions c end in
  cluster_grant ← match RemoteRequest.caller_node_id request with
                  | Some caller => find_cluster_grant caller (_node_id c) (_cluster_capability_grants s)
                  | None => mret None
                  end;
  permissions ← lift (effective permissions cluster_grant);
  throw_if (negb (bool_decide (permission ∈ permissions))) RemoteAuthorizationError
    ("caller lacks permission for " +:+ op);;
  (if bool_decide (op ∈ SURFACE_OPERATIONS) then authorize_surface request cluster_grant else mret ());;
  mret cluster_grant.

(** ** Running an operation *)

(** The document of [hello]. *)
Definition hello (c : Settings.t) : dict :=
  [("ok", JBool true); ("node_id", JStr (value (_node_id c)));
   ("identity_fingerprint", JStr (_identity_fingerprint c));
   ("transport_fingerprint", opt_json JStr (_transport_fingerprint c));
   ("root_public_key", opt_json JStr (_root_public_key c));
   ("transport_generation", opt_json JInt (_transport_generation c));
   ("transport_proof", opt_json JStr (_transport_proof c));
   ("protocol_version", JStr REMOTE_PROTOCOL_VERSION); ("app_version", JStr (_app_version c));
   ("capabilities", JList (JStr <$> sorted str_leb (NodeCapability.value <$> elements (_capabilities c))))].

Definition _dashboard_snapshot : M W (NodeSnapshot.t D) :=
  dashboard ← dashboard_snapshot host;
  c ← the id;
  mret (NodeSnapshot.mk (_node_id c) (_display_name c) (_hostname c) (opt_json JStr (_platform c))
          (_status c) (_capabilities c) (DashboardSnapshot.scanned_at dashboard) dashboard).

(** A share that is required must be active, and one that is there must not be past. *)
Definition check_dashboard_share (request : RemoteRequest.t) : M W () :=
  s ← this;
  let expiry := RemoteRequest.caller_node_id request ≫= λ caller, _dashboard_shares s !! caller in
  throw_if (_require_dashboard_share (settings s) && negb (bool_decide (is_Some expiry)))
    RemoteAuthorizationError "dashboard share is not active";;
  match RemoteRequest.caller_node_id request, expiry with
  | Some caller, Some expiry =>
      current ← now;
      if fleb expiry current
      then on_service (λ s, (clear_dashboard_share caller s, Ok ()));;
           throw RemoteAuthorizationError "dashboard share has expired"
      else mret ()
  | _, _ => mret ()
  end.

Definition process_ref (node_id : NodeId) (item : json) : result ProcessRef.t :=
  d ← object item "process reference must be an object";
  pid ← index "pid" d;
  pid ← py_int parse_int pid;
  create_time ← index "create_time" d;
  create_time ← py_float parse_float create_time;
  Ok (ProcessRef.mk node_id pid (Some create_time)).

Definition process_termination (c : Settings.t) (params : dict) : result ProcessTerminationRequest.t :=
  refs ← index "processes" params;
  action ← index "action" params;
  action ← match action with
           | JStr a => ProcessActionKind.of_value a
           | _ => raise ValueError "not a valid ProcessActionKind"
           end;
  processes ← each (process_ref (_node_id c)) refs;
  Ok (ProcessTerminationRequest.mk (_node_id c) processes action).

Definition run_process_manager (manager : ProcessManager W) (termination : ProcessTerminationRequest.t)
    : M W (option ProcessActionResult.t) :=
  match manager with
  | Terminates terminate => terminate termination
  | Quits request_quit force_quit =>
      let processes := ProcessTerminationRequest.processes termination in
      let create_times := od_of_list (omap (λ p,
        (λ t, (ProcessRef.pid p, t)) <$> ProcessRef.create_time p) processes) in
      (if bool_decide (ProcessTerminationRequest.action termination = FORCE_QUIT)
       then force_quit else request_quit) (ProcessRef.pid <$> processes) create_times
  end.

Definition solve_process_action (request : RemoteRequest.t) : M W dict :=
  c ← the id;
  throw_if (negb (bool_decide (_status c = ONLINE))) RemoteUnavailableError "target is offline";;
  manager ← lift (of_option (process_manager host) RemoteExecutionError "process actions are unavailable");
  termination ← lift (process_termination c (RemoteRequest.params request));
  outcome ← run_process_manager manager termination;
  outcome ← lift (of_option outcome RemoteExecutionError "target returned an invalid action result");
  mret (process_action_result_to_dict outcome).

(** [capability_request]; the share raises [PermissionError] for a refusal. *)
Definition solve_capability (caller : NodeId) (params : dict) : M W dict :=
  share ← lift (of_option (capability_share host) RemoteUnavailableError
                  "capability sharing is unavailable");
  capability ← lift (required_text "capability" params);
  inner ← lift (index "params" params);
  outcome ← attempt (share caller capability inner) (λ e, lift (as_authorization (Err e)));
  mret [("result", outcome)].

(** The caller an operation cannot do without. *)
Definition caller_of (request : RemoteRequest.t) (what : string) : M W NodeId :=
  lift (of_option (RemoteRequest.caller_node_id request) RemoteAuthorizationError
          ("caller identity required for " +:+ what)).

(** The operations of the host's own data. *)
Definition solve_host (request : RemoteRequest.t) : M W dict :=
  let op := RemoteRequest.op request in
  let params := RemoteRequest.params request in
  if bool_decide (op = "hello") then the hello
  else if bool_decide (op = "dashboard_snapshot")
  then check_dashboard_share request;;
       snapshot ← _dashboard_snapshot;
       mret [("snapshot", node_snapshot_to_dict isoformat snapshot)]
  else if bool_decide (op = "component_summary")
  then key ← lift (index "key" params);
       resource ← component_summary host key;
       c ← the id;
       mret [("node_id", JStr (value (_node_id c))); ("resource", resource_summary_to_dict resource)]
  else if bool_decide (op = "process_candidates")
  then processes ← process_candidates host;
       mret [("processes", JList (process_candidate_to_dict <$> processes))]
  else if bool_decide (op ∈ ["process_request_quit"; "process_force_quit"])
  then solve_process_action request
  else if bool_decide (op = "storage_candidates")
  then candidates ← storage_candidates host;
       mret [("files", JList (file_candidate_to_dict isoformat path_str <$> candidates))]
  else throw RemoteProtocolError ("unknown operation: " +:+ op).

Definition _solve (request : RemoteRequest.t) (grant : option PeerGrant.t) : M W dict :=
  let op := RemoteRequest.op request in
  let params := RemoteRequest.params request in
  cluster_grant ← _authorize_request request grant;
  lift (validate_operation_params float_repr op (JObj params));;
  if bool_decide (op ∈ ROLE_OPERATIONS)
  then handler ← lift (of_option (role_handler host) RemoteUnavailableError
                         "role operations are unavailable");
       handler request
  else if bool_decide (op = "revoke_self")
  then caller ← caller_of request "self-revocation";
       handler ← lift (of_option (trust_revoke_handler host) RemoteUnavailableError
                         "trust revocation is unavailable");
       handler caller
  else if bool_decide (op = "capability_request")
  then caller ← caller_of request "capability requests";
       solve_capability caller params
  else if bool_decide (op ∈ SURFACE_OPERATIONS)
  then current ← now;
       registry ← observe (λ x, Ok ((λ f, f x) <$> surface_registry host));
       outcome ← dispatch_surface_request float_repr (surface_run host) registry request
                   cluster_grant current;
       mret [("result", outcome)]
  else solve_host request.

(** ** One executor per request id *)

(** [_save_state]: without a store nothing happens. *)
Definition save_idempotency : M W () :=
  match idempotency_store host with
  | None => mret ()
  | Some save => current ← now; s ← this; save (_save_state current (_idempotency s))
  end.

(** [run] in one thread.  The executor publishes its result with the outcome of the save;
    a caller that finds an entry takes its outcome, when the executor is done. *)
Definition execute_once (key : string * string) (fingerprint : string) (operation : M W dict)
    : M W dict := λ w,
  let '(w, r) := (current ← now; on_idempotency (IdempotencyCache.start key fingerprint current)) w in
  match r with
  | Err e => (w, Err e)
  | Ok IdempotencyCache.Owner =>
      let '(w, outcome) := operation w in
      match outcome with
      | Err e =>
          (on_idempotency (IdempotencyCache.finish key (Err e) (Ok ()));; throw (exn_cls e) (exn_msg e)) w
      | Ok value =>
          (** The result is published before the save reads the entries. *)
          let '(w, _) := on_idempotency (IdempotencyCache.finish key (Ok (JObj value)) (Ok ())) w in
          let '(w, saved) := save_idempotency w in
          let '(w, _) := on_idempotency (IdempotencyCache.finish key (Ok (JObj value)) saved) w in
          (w, _ ← saved; Ok value)
      end
  | Ok IdempotencyCache.Waiter =>
      let '(w, e) := match od_get key (IdempotencyCache._entries (_idempotency (svc w))) with
                     | Some e => if IdempotencyCache.event e then (w, e) else await host key w
                     | None => await host key w
                     end in
      (w, match IdempotencyCache.joined e with
          | Ok (JObj d) => Ok d
          | Ok _ => raise TypeError "not a dictionary"
          | Err err => Err err
          end)
  end.

(** ** [handle] *)

Definition _caller_from_json (envelope : json) : option NodeId :=
  match envelope with
  | JObj d =>
      match jget "caller_node_id" d with
      | JStr caller =>
          if bool_decide (caller = "") then None
          else match NodeId.__post_init__ caller with Ok n => Some n | Err _ => None end
      | _ => None
      end
  | _ => None
  end.

(** The grant of the caller when the service has an access list. *)
Definition select_grant (caller : option NodeId) : M W (option PeerGrant.t) :=
  s ← this;
  if negb (_grant_mode s) then mret None
  else caller ← lift (of_option caller RemoteAuthError "request caller identity is required");
       grant ← lift (of_option (_grants s !! caller) RemoteAuthError "request caller identity is unknown");
       match PeerGrant.expires_at grant with
       | None => mret (Some grant)
       | Some expires_at =>
           current ← now;
           throw_if (fleb expires_at current) RemoteAuthError "request caller grant has expired";;
           mret (Some grant)
       end.

Definition on_replay {A} (m : M ReplayCache.t A) : M W A :=
  on_service (λ s, let '(c, r) := m (_replay_cache s) in (set_replay s c, r)).

(** Operations whose replayed requests are verified again, against an empty cache. *)
Definition replay_tolerant (envelope : json) : bool :=
  match envelope with
  | JObj d => match jget "op" d with
              | JStr op => match od_get op OPERATION_SAFETY with
                           | Some safety => bool_decide (safety ∈ ["read"; "retry_safe"; "unsafe"])
                           | None => false
                           end
              | _ => false
              end
  | _ => false
  end.

Definition verify_inbound (envelope : json) (credential : string) : M W RemoteRequest.t :=
  c ← the id;
  current ← now;
  attempt (on_replay (verify_request hmac_sha256_hex float_repr envelope credential current
                        (_freshness_seconds c)))
    (λ e, if exn_isa e RemoteAuthError && contains "replayed" (exn_msg e) && replay_tolerant envelope
          then current ← now;
               lift (verify_request hmac_sha256_hex float_repr envelope credential current
                       (_freshness_seconds c)
                       (ReplayCache.__init__ DEFAULT_REPLAY_TTL_SECONDS DEFAULT_REPLAY_MAX_ENTRIES)).2
          else lift (Err e)).

(** The secret shared with the caller: of its grant, or the node's own. *)
Definition secret_of (c : Settings.t) (grant : option PeerGrant.t) : string :=
  match grant with Some g => PeerGrant.secret g | None => _secret c end.

(** The envelope is authentic and meant for this node. *)
Definition receive (envelope : json) : M W (RemoteRequest.t * option PeerGrant.t * Z) :=
  s ← this;
  let c := settings s in
  grant ← select_grant (_caller_from_json envelope);
  request ← verify_inbound envelope (secret_of c grant);
  throw_if match _expected_caller_id c with
           | Some expected => negb (bool_decide (RemoteRequest.caller_node_id request = Some expected))
           | None => false
           end RemoteAuthError "request caller identity is invalid";;
  throw_if (negb (bool_decide (RemoteRequest.node_id request = _node_id c))) RemoteAuthError
    "request target identity is invalid";;
  mret (request, grant, _grant_version s).

Definition verify_fence (request : RemoteRequest.t) : M W () :=
  if bool_decide (RemoteRequest.op request ∈ ROLE_OPERATIONS)
  then s ← this;
       lift (_verify_role_fence float_repr container_repr s (RemoteRequest.params request))
  else mret ().

Definition cache_key (request : RemoteRequest.t) : string * string :=
  (LogicalSessionRegistry.request_owner request, RemoteRequest.request_id request).

Definition request_fingerprint (request : RemoteRequest.t) : result string :=
  dumps float_repr true (JObj [("op", JStr (RemoteRequest.op request));
                               ("params", JObj (RemoteRequest.params request))]).

Definition assert_session (session_id : string) (connection_generation : option string) : M W () :=
  on_sessions (λ reading _, LogicalSessionRegistry.assert_current session_id connection_generation reading).

(** The closure [solve]: what it relies on is checked before and after. *)
Definition solve (request : RemoteRequest.t) (grant : option PeerGrant.t) (version : Z)
    (session_id : string) (generation : option string) : M W dict :=
  _assert_grant_snapshot_current grant version;;
  outcome ← _solve request grant;
  assert_session session_id generation;;
  _assert_grant_snapshot_current grant version;;
  mret outcome.

(** The body of the [try]. *)
Definition perform (request : RemoteRequest.t) (grant : option PeerGrant.t) (version : Z)
    (session_id : string) (generation : option string) (fingerprint : string) : M W dict :=
  _assert_grant_snapshot_current grant version;;
  _authorize_request request grant;;
  payload ← (let run := solve request grant version session_id generation in
             if bool_decide (od_get (RemoteRequest.op request) OPERATION_SAFETY = Some "read")
             then run else execute_once (cache_key request) fingerprint run);
  verify_fence request;;
  assert_session session_id generation;;
  _assert_grant_snapshot_current grant version;;
  _authorize_request request grant;;
  mret payload.

(** A signed response; [status] and [error] are those of the source's call. *)
Definition respond (request : RemoteRequest.t) (secret status : string) (payload : option dict)
    (error : option string) (session_id : string) (generation : option string) : M W dict :=
  c ← the id;
  timestamp ← now;
  lift (sign_response hmac_sha256_hex float_repr (value (_node_id c)) (RemoteRequest.request_id request)
          status secret timestamp payload error (Some session_id) generation).

(** The stable code of a failure, [None] when it is raised again. *)
Definition error_code (e : exn) : option string :=
  if exn_isa e RemoteAuthorizationError || exn_isa e PermissionError || exn_isa e RoleAuthorizationError
  then Some (if contains "not authorised" (exn_msg e) then "capability_unavailable" else "permission_denied")
  else if exn_isa e RemoteUnavailableError then Some "target_offline"
  else if exn_isa e RemoteProtocolError then None
  else Some "execution_failed".

(** The trust commit of a self-revocation, then the answer. *)
Definition publish (request : RemoteRequest.t) (secret : string) (payload : dict)
    (session_id : string) (generation : option string) : M W dict :=
  match trust_revoke_commit host with
  | Some commit => if bool_decide (RemoteRequest.op request = "revoke_self") then commit else mret ()
  | None => mret ()
  end;;
  match dumps float_repr false (JObj payload) with
  | Ok _ => respond request secret "ok" (Some payload) None session_id generation
  | Err _ => respond request secret "error" None (Some "execution_failed") session_id generation
  end.

(** [envelope] is the parsed text, [None] when it is not JSON; the response is given before it
    is written as text. *)
Definition handle (envelope : option json) (connection_generation : option string) : M W dict :=
  envelope ← lift (of_option envelope RemoteProtocolError "envelope is not valid JSON");
  received ← receive envelope;
  let '(request, grant, version) := received in
  c ← the id;
  let secret := secret_of c grant in
  session_id ← on_sessions (LogicalSessionRegistry.authenticate request connection_generation);
  verify_fence request;;
  fingerprint ← lift (request_fingerprint request);
  try_else (perform request grant version session_id connection_generation fingerprint)
    (λ payload, publish request secret payload session_id connection_generation)
    (λ e, match error_code e with
          | Some code => respond request secret "error" None (Some code) session_id
                           connection_generation
          | None => throw (exn_cls e) (exn_msg e)
          end).
End service.
