(* ===== verification/ServiceFacts.v ===== *)
(** * The service: what its methods leave alone, and the stages of a request

    The lemmas the theorems about [Service.handle] share.  The host is arbitrary: its handlers
    may change the world in any way, the access lists of the service included. *)

From S2P Require Import Prelude PyFloat Identity ClusterModels Roles RolesFacts Sharing PyJson SurfaceWire Wire WireOps Caches IdempotencyStore Envelope EnvelopeSpec Session StateCodec RemoteModels Surfaces Service.
Import RemoteService Settings Fence.
Import LogicalSession(owner, active_generation, retired).

Section spec.
Context (hmac_sha256_hex : string → string → string) (float_repr : float → string).
Context (container_repr : json → string).
Context (parse_int : string → result Z) (parse_float : string → result float).
Context {X H D P : Type} (isoformat : D → string) (path_str : P → string).
Context (clock : nat → float) (session_clock : nat → json) (draw : nat → nat → json).
Notation W := (World X).
Context (host : Host W X H D P).
Implicit Types (w : W) (request : RemoteRequest.t) (grant : option PeerGrant.t).

Notation now := (now clock).
Notation authorize := (_authorize_request float_repr clock host).
Notation assert_grant := (_assert_grant_snapshot_current clock).
Notation perform := (perform float_repr container_repr parse_int parse_float isoformat path_str clock session_clock draw host).
Notation handle := (handle hmac_sha256_hex float_repr container_repr parse_int parse_float isoformat path_str clock session_clock draw host).

(** ** Methods that touch neither the outside nor what authority rests on *)

(** With [b], nor the idempotency cache. *)
Record frameb (b : bool) w w' : Prop := {
  frame_outside : outside w' = outside w;
  frame_settings : settings (svc w') = settings (svc w);
  frame_mode : _grant_mode (svc w') = _grant_mode (svc w);
  frame_grants : _grants (svc w') = _grants (svc w);
  frame_cluster : _cluster_capability_grants (svc w') = _cluster_capability_grants (svc w);
  frame_version : _grant_version (svc w') = _grant_version (svc w);
  frame_fence : fence (svc w') = fence (svc w);
  frame_ticks : ticks w ≤ ticks w';
  frame_idempotency : b = true → _idempotency (svc w') = _idempotency (svc w) }.
#[global] Arguments frame_outside {_} _ _ _.
#[global] Arguments frame_settings {_} _ _ _.
#[global] Arguments frame_version {_} _ _ _.
#[global] Arguments frame_fence {_} _ _ _.
#[global] Arguments frame_cluster {_} _ _ _.
#[global] Arguments frame_ticks {_} _ _ _.
Notation frame := (frameb false).

#[global] Instance frame_refl b : Reflexive (frameb b).
Proof. by split. Qed.
#[global] Instance frame_trans b : Transitive (frameb b).
Proof.
  intros w1 w2 w3 [] []. split; try congruence; [lia|]. intros Hb.
  etrans; [by apply frame_idempotency1|by apply frame_idempotency0].
Qed.

Notation Quiet b := (Keeps (frameb b)).

Lemma quiet_runb b {A} (m : M W A) `{!Quiet b m} w w' r : m w = (w', r) → frameb b w w'.
Proof. by apply keeps_run. Qed.
Lemma quiet_run {A} (m : M W A) `{!Quiet false m} w w' r : m w = (w', r) → frame w w'.
Proof. by apply keeps_run. Qed.

#[global] Instance quiet_now b : Quiet b now.
Proof. split; try done. simpl. lia. Qed.
#[global] Instance quiet_this b : Quiet b this.
Proof. by intros w. Qed.
#[global] Instance quiet_the b {A} (f : Settings.t → A) : Quiet b (the f).
Proof. by intros w. Qed.
#[global] Instance quiet_observe b {A} (f : X → result A) : Quiet b (observe f).
Proof. by intros w. Qed.
#[global] Instance quiet_sessions b {A} (m : json → (nat → json) → M LogicalSessionRegistry.t A) :
  Quiet b (on_sessions session_clock draw m).
Proof. intros w. unfold on_sessions. destruct (m _ _ _). split; try done. simpl. lia. Qed.
#[global] Instance quiet_idempotency {A} (m : M IdempotencyCache.t A) :
  Quiet false (on_idempotency (X := X) m).
Proof. intros w. unfold on_idempotency, on_service. by destruct (m _). Qed.
#[global] Instance quiet_replay b {A} (m : M ReplayCache.t A) : Quiet b (on_replay (X := X) m).
Proof. intros w. unfold on_replay, on_service. by destruct (m _). Qed.
#[global] Instance quiet_find_grant b caller node l : Quiet b (find_cluster_grant clock caller node l).
Proof. induction l as [|g l IH]; simpl; keeps. Qed.
#[global] Instance quiet_authorize b request grant : Quiet b (authorize request grant).
Proof. unfold _authorize_request, authorize_surface. keeps. Qed.
#[global] Instance quiet_assert_grant b grant v : Quiet b (assert_grant grant v).
Proof. unfold _assert_grant_snapshot_current. keeps. Qed.
#[global] Instance quiet_assert_session b id g :
  Quiet b (assert_session session_clock draw (X := X) id g).
Proof. apply _. Qed.
#[global] Instance quiet_fence b request :
  Quiet b (verify_fence float_repr container_repr (X := X) request).
Proof. unfold verify_fence. keeps. Qed.
#[global] Instance quiet_select b caller : Quiet b (select_grant clock caller).
Proof. unfold select_grant. keeps. Qed.
#[global] Instance quiet_inbound b envelope credential :
  Quiet b (verify_inbound hmac_sha256_hex float_repr clock (X := X) envelope credential).
Proof. unfold verify_inbound. keeps. Qed.
#[global] Instance quiet_receive b envelope :
  Quiet b (receive hmac_sha256_hex float_repr clock (X := X) envelope).
Proof. unfold receive. keeps. Qed.
#[global] Instance quiet_respond b request secret status payload error id g :
  Quiet b (respond hmac_sha256_hex float_repr clock (X := X) request secret status payload error id g).
Proof. unfold respond. keeps. Qed.

(** ** Admission *)

Notation verified := (parse_request hmac_sha256_hex float_repr).

(** The permissions a request is checked against, before a cluster grant narrows them. *)
Definition base_permissions (c : Settings.t) grant : gset NodePermission :=
  match grant with Some g => PeerGrant.permissions g | None => _permissions c end.

(** The operation is one the node offers and the caller may ask for. *)
Definition may (c : Settings.t) grant (op : string) : Prop :=
  ∃ capability permission,
    od_get op OP_REQUIRED_CAPABILITY = Some capability ∧ capability ∈ _capabilities c ∧
    od_get op OP_REQUIRED_PERMISSION = Some permission ∧ permission ∈ base_permissions c grant.

(** The credential of the caller: its grant in the access list, unexpired at the first reading of
    the clock, or the node's own secret when there is no list. *)
Definition credential_of w (caller : option NodeId) grant : Prop :=
  if _grant_mode (svc w)
  then ∃ c g, caller = Some c ∧ _grants (svc w) !! c = Some g ∧ grant = Some g ∧
         ∀ x, PeerGrant.expires_at g = Some x → fleb x (clock (ticks w)) = false
  else grant = None.

(** [request] is what the envelope [d] says, under the caller's own secret, for this node,
    with the authority of the current Coordinator if it is a role operation. *)
Record admitted w (d : dict) request grant : Prop := {
  admitted_credential : credential_of w (RemoteRequest.caller_node_id request) grant;
  admitted_envelope : ∃ n, ticks w ≤ n ∧ verified (JObj d) (secret_of (settings (svc w)) grant) (clock n)
    (_freshness_seconds (settings (svc w))) = Ok request;
  admitted_target : RemoteRequest.node_id request = _node_id (settings (svc w));
  admitted_caller : ∀ expected, _expected_caller_id (settings (svc w)) = Some expected →
    RemoteRequest.caller_node_id request = Some expected;
  admitted_operation : may (settings (svc w)) grant (RemoteRequest.op request);
  admitted_fence : RemoteRequest.op request ∈ ROLE_OPERATIONS →
    _verify_role_fence float_repr container_repr (svc w) (RemoteRequest.params request) = Ok () }.

Lemma select_Ok caller w w' grant : select_grant clock caller w = (w', Ok grant) →
  match grant with
  | None => _grant_mode (svc w) = false
  | Some g => _grant_mode (svc w) = true ∧ ∃ c, caller = Some c ∧ _grants (svc w) !! c = Some g ∧
      ∀ x, PeerGrant.expires_at g = Some x → fleb x (clock (ticks w)) = false
  end.
Proof.
  unfold select_grant. intros Hs. m_step. unfold this in Hm. simplify_eq.
  destruct (_grant_mode _) eqn:Hmode; simpl in Hs; [|by m_step].
  repeat m_step. repeat match goal with
    | E : of_option _ _ _ = Ok _ |- _ => apply of_option_Ok in E end.
  destruct (PeerGrant.expires_at _) as [x|] eqn:Hx; repeat m_step.
  - unfold Service.now in Hm1. simplify_eq/=. split; [done|]. eexists. split_and!; eauto.
    intros y ?. by simplify_eq.
  - split; [done|]. eexists. split_and!; eauto. intros y ?. congruence.
Qed.

Lemma verify_parse envelope secret now freshness cache cache' r :
  verify_request hmac_sha256_hex float_repr envelope secret now freshness cache = (cache', Ok r) →
  verified envelope secret now freshness = Ok r.
Proof.
  unfold verify_request. destruct (verified _ _ _ _) as [r'|e]; [|done]. intros Hv. repeat m_step. done.
Qed.

Lemma inbound_Ok envelope credential w w' r :
  verify_inbound hmac_sha256_hex float_repr clock envelope credential w = (w', Ok r) →
  ∃ n, ticks w ≤ n ∧ verified envelope credential (clock n) (_freshness_seconds (settings (svc w))) = Ok r.
Proof.
  unfold verify_inbound. intros Hv. repeat m_step. unfold the, Service.now in *. simplify_eq/=.
  unfold attempt, on_replay, on_service in Hv.
  destruct (verify_request _ _ _ _ _ _ _) as [c1 [r1|e1]] eqn:Hv1; simplify_eq/=.
  - eexists. split; [done|]. by eapply verify_parse.
  - destruct (_ && _); [|done]. repeat m_step. unfold Service.now in *. simplify_eq/=.
    destruct (verify_request _ _ _ _ _ _ (ReplayCache.__init__ _ _)) as [c2 r2] eqn:Hv2. simplify_eq/=.
    eexists. split; [|by eapply verify_parse]. simpl. lia.
Qed.

Lemma caller_described d c r : describes d r → _caller_from_json (JObj d) = Some c →
  RemoteRequest.caller_node_id r = Some c.
Proof.
  intros Hd. unfold _caller_from_json. rewrite (describes_caller _ _ Hd).
  destruct (RemoteRequest.caller_node_id r) as [[n]|]; simpl; [|done].
  case_bool_decide; [done|]. destruct (NodeId.__post_init__ n) as [m|] eqn:Hn; [|done].
  intros ?. simplify_eq. by apply NodeId.node_id_Ok in Hn as [-> _].
Qed.

Lemma receive_Ok envelope w w' request grant version :
  receive hmac_sha256_hex float_repr clock envelope w = (w', Ok (request, grant, version)) →
  version = _grant_version (svc w) ∧ ∃ d, envelope = JObj d ∧ describes d request ∧
  credential_of w (RemoteRequest.caller_node_id request) grant ∧
  (∃ n, ticks w ≤ n ∧ verified (JObj d) (secret_of (settings (svc w)) grant) (clock n)
          (_freshness_seconds (settings (svc w))) = Ok request) ∧
  RemoteRequest.node_id request = _node_id (settings (svc w)) ∧
  (∀ expected, _expected_caller_id (settings (svc w)) = Some expected →
     RemoteRequest.caller_node_id request = Some expected).
Proof.
  unfold receive. intros Hr. m_step. unfold this in Hm. simplify_eq.
  m_step. pose proof (quiet_run _ _ _ _ Hm) as Hf. apply select_Ok in Hm.
  m_step. apply inbound_Ok in Hm0 as (n & Ht & Hn). rewrite (frame_settings _ _ Hf) in Hn.
  repeat m_step. simplify_eq.
  split; [done|]. pose proof (parse_Ok _ _ _ _ _ _ _ Hn) as (d & -> & _ & Hd & _).
  exists d. split; [done|]. split; [done|]. split_and!.
  - unfold credential_of. destruct grant as [g|]; [|by rewrite Hm].
    destruct Hm as (-> & c & Hc & Hg & Hx). exists c, g. split_and!; try done.
    by eapply caller_described.
  - exists n. split; [|done]. pose proof (frame_ticks _ _ Hf). lia.
  - to_prop. done.
  - intros expected He. rewrite He in *. by to_prop.
Qed.

Lemma effective_Ok permissions cg both : effective permissions cg = Ok both →
  both ⊆ permissions ∧ ∀ g, cg = Some g → both ⊆ CapabilityGrant.permissions g.
Proof.
  unfold effective. destruct cg as [g|]; intros; repeat res_step; subst.
  - split; [set_solver|]. intros. simplify_eq. set_solver.
  - done.
Qed.

Lemma authorize_Ok request grant w w' cg : authorize request grant w = (w', Ok cg) →
  may (settings (svc w)) grant (RemoteRequest.op request) ∧
  ∀ g permission, cg = Some g → od_get (RemoteRequest.op request) OP_REQUIRED_PERMISSION = Some permission →
    permission ∈ CapabilityGrant.permissions g.
Proof.
  unfold _authorize_request. intros Ha. m_step. unfold this in Hm. simplify_eq.
  repeat m_step. repeat match goal with
    | E : of_option _ _ _ = Ok _ |- _ => apply of_option_Ok in E end. to_prop.
  match goal with E : effective _ _ = Ok _ |- _ => apply effective_Ok in E as [Hb Hc] end.
  split; [eexists _, _; split_and!; try done; by apply Hb|].
  intros g permission -> Hp. simplify_eq. by apply (Hc g).
Qed.
(** ** What running a request may do *)

(** The version of the access lists is the one the request was received under. *)
Lemma assert_grant_Ok grant v w w' u : assert_grant grant v w = (w', Ok u) →
  v = _grant_version (svc w).
Proof. unfold _assert_grant_snapshot_current. intros Ha. repeat m_step. unfold this in Hm. simplify_eq. to_prop. lia. Qed.

(** ** Permission and session, before and after *)

(** A cluster grant of the caller for this node. *)
Definition mine w (caller : NodeId) (g : CapabilityGrant.t) : Prop :=
  CapabilityGrant.subject g = caller ∧ CapabilityGrant.target g = _node_id (settings (svc w)).

(** The first live cluster grant of the caller, if there is one, includes the permission. *)
Definition cluster_permits w request : Prop := ∀ caller permission,
  RemoteRequest.caller_node_id request = Some caller →
  od_get (RemoteRequest.op request) OP_REQUIRED_PERMISSION = Some permission →
  let expired g := ∃ n, ticks w ≤ n ∧ fltb (clock n) (CapabilityGrant.expires_at g) = false in
  (∀ g, g ∈ _cluster_capability_grants (svc w) → mine w caller g → expired g) ∨
  ∃ before g after n, _cluster_capability_grants (svc w) = before ++ g :: after ∧ mine w caller g ∧
    ticks w ≤ n ∧ fltb (clock n) (CapabilityGrant.expires_at g) = true ∧
    permission ∈ CapabilityGrant.permissions g ∧ ∀ g', g' ∈ before → mine w caller g' → expired g'.

(** The caller may ask for the operation, by its own grant and by its cluster grant. *)
Definition permits w request grant : Prop :=
  may (settings (svc w)) grant (RemoteRequest.op request) ∧ cluster_permits w request.

Lemma cluster_permits_frame request w w' : frame w w' → cluster_permits w' request → cluster_permits w request.
Proof.
  intros F Hc caller permission H1 H2. pose proof (frame_ticks _ _ F) as Ht.
  specialize (Hc caller permission H1 H2). unfold mine in *. simpl in *.
  rewrite (frame_cluster _ _ F), (frame_settings _ _ F) in Hc.
  destruct Hc as [Hc|(before & g & after & n & -> & Hg & Hn & Hl & Hp & Hb)].
  - left. intros g Hg Hm. destruct (Hc g Hg Hm) as (n & ? & ?). exists n. split; [lia|done].
  - right. exists before, g, after, n.
    refine (conj eq_refl (conj Hg (conj _ (conj Hl (conj Hp _))))); [lia|].
    intros g' Hg' Hm. destruct (Hb g' Hg' Hm) as (k & ? & ?). exists k. split; [lia|done].
Qed.

Lemma find_cluster_Ok caller node l : ∀ w w' o, find_cluster_grant clock caller node l w = (w', Ok o) →
  let is_mine g := CapabilityGrant.subject g = caller ∧ CapabilityGrant.target g = node in
  let expired g := ∃ n, ticks w ≤ n ∧ fltb (clock n) (CapabilityGrant.expires_at g) = false in
  match o with
  | None => ∀ g, g ∈ l → is_mine g → expired g
  | Some g => ∃ before after n, l = before ++ g :: after ∧ is_mine g ∧ ticks w ≤ n ∧
      fltb (clock n) (CapabilityGrant.expires_at g) = true ∧ ∀ g', g' ∈ before → is_mine g' → expired g'
  end.
Proof.
  induction l as [|x l IH]; simpl; intros w w' o Hf; [repeat m_step; by intros g ?%not_elem_of_nil|].
  destruct (bool_decide _ && bool_decide _) eqn:E.
  - to_prop. rewrite M_bind_run in Hf. simpl in Hf. destruct (fltb _ _) eqn:El.
    + m_step. exists [], l, (ticks w). split_and!; try done. set_solver.
    + specialize (IH _ _ _ Hf). simpl in IH. destruct o as [g|].
      * destruct IH as (before & after & n & -> & Hm & Hn & Hl & Hb). exists (x :: before), after, n.
        simpl in *. refine (conj eq_refl (conj Hm (conj _ (conj Hl _)))); [lia|]. intros g' [->|Hg]%elem_of_cons Hm'; [by exists (ticks w)|].
        destruct (Hb _ Hg Hm') as (k & ? & ?). exists k. split; [lia|done].
      * intros g [->|Hg]%elem_of_cons Hm; [by exists (ticks w)|].
        destruct (IH _ Hg Hm) as (k & ? & ?). exists k. simpl in *. split; [lia|done].
  - assert (¬ (CapabilityGrant.subject x = caller ∧ CapabilityGrant.target x = node)) as Hx.
    { intros [H1 H2]. by rewrite !bool_decide_eq_true_2 in E. }
    specialize (IH _ _ _ Hf). destruct o as [g|].
    + destruct IH as (before & after & n & -> & Hm & Hn & Hl & Hb). exists (x :: before), after, n.
      refine (conj eq_refl (conj Hm (conj Hn (conj Hl _)))). intros g' [->|Hg]%elem_of_cons Hm'; [done|by apply Hb].
    + intros g [->|Hg]%elem_of_cons Hm; [done|by apply IH].
Qed.

Lemma authorize_permits request grant w w' cg : authorize request grant w = (w', Ok cg) → permits w request grant.
Proof.
  intros Ha. split; [by eapply authorize_Ok|]. intros caller permission Hc Hp.
  unfold _authorize_request in Ha. m_step. unfold this in Hm. simplify_eq. rewrite Hc, Hp in Ha.
  do 3 m_step. apply lift_Ok in Hm1 as [-> E]. injection E as <-. apply throw_if_Ok in Hm0 as [-> _].
  apply lift_Ok in Hm as [-> _].
  apply M_bind_Ok in Ha as (wf & o & Hf & Ha). apply M_bind_Ok in Ha as (wg & both & [-> He]%lift_Ok & Ha).
  apply M_bind_Ok in Ha as (wh & [] & [-> Hin]%throw_if_Ok & _). to_prop.
  apply find_cluster_Ok in Hf. apply effective_Ok in He as [_ He]. destruct o as [g|]; [right|left; exact Hf].
  destruct Hf as (before & after & n & Hl & Hm & Hn & Ht & Hb). exists before, g, after, n.
  refine (conj Hl (conj Hm (conj Hn (conj Ht (conj _ Hb))))). by apply (He g).
Qed.

(** The session the request names is its caller's, live, and open to the connection. *)
Definition session_admitted w request (generation : option string) (session : string) : Prop :=
  ∀ id, RemoteRequest.session_id request = Some id → session = id ∧ ∃ x n now,
    LogicalSessionRegistry._sessions (_sessions (svc w)) !! id = Some x ∧
    owner x = LogicalSessionRegistry.request_owner request ∧
    ticks w ≤ n ∧ LogicalSessionRegistry._validated_clock (session_clock n) = Ok now ∧
    fleb (LogicalSession.expires_at x) now = false ∧ generation ∉ retired x ∧
    (generation = active_generation x ∨ RemoteRequest.resume request = true).

(** The session is still live, and the connection is its current one. *)
Definition session_live w (generation : option string) (session : string) : Prop := ∃ x now,
  LogicalSessionRegistry._sessions (_sessions (svc w)) !! session = Some x ∧
  LogicalSessionRegistry._validated_clock (session_clock (ticks w)) = Ok now ∧
  fleb (LogicalSession.expires_at x) now = false ∧ active_generation x = generation.

(** What holds of a request when its operation is done. *)
Record confirmed w (version : Z) request grant generation session : Prop := {
  confirmed_version : _grant_version (svc w) = version;
  confirmed_grant x : grant ≫= PeerGrant.expires_at = Some x → ∃ n, ticks w ≤ n ∧ fleb x (clock n) = false;
  confirmed_permits : permits w request grant;
  confirmed_fence : RemoteRequest.op request ∈ ROLE_OPERATIONS →
    _verify_role_fence float_repr container_repr (svc w) (RemoteRequest.params request) = Ok ();
  confirmed_session : session_live w generation session }.

Definition sessions_kept : relation W := λ w w', _sessions (svc w') = _sessions (svc w).
#[local] Instance sessions_refl : Reflexive sessions_kept.
Proof. done. Qed.
#[local] Instance sessions_trans : Transitive sessions_kept.
Proof. intros w1 w2 w3 H1 H2. unfold sessions_kept in *. congruence. Qed.
#[local] Instance now_sessions : Keeps sessions_kept now.
Proof. done. Qed.
#[local] Instance this_sessions : Keeps sessions_kept this.
Proof. done. Qed.
#[local] Instance the_sessions {A} (f : Settings.t → A) : Keeps sessions_kept (the f).
Proof. done. Qed.
#[local] Instance replay_sessions {A} (m : M ReplayCache.t A) : Keeps sessions_kept (on_replay (X := X) m).
Proof. intros w. unfold on_replay, on_service. by destruct (m _). Qed.
#[local] Instance receive_sessions envelope :
  Keeps sessions_kept (receive hmac_sha256_hex float_repr clock (X := X) envelope).
Proof. unfold receive, select_grant, verify_inbound. keeps. Qed.

Lemma validate_generation_Ok g g' : LogicalSessionRegistry._validate_generation g = Ok g' → g' = g.
Proof. destruct g; simpl; [|by intros [= <-]]. intros. py_run. done. Qed.

Lemma live_Ok id t s s' x : LogicalSessionRegistry.live id t s = (s', Ok x) →
  s' = s ∧ LogicalSessionRegistry._sessions s !! id = Some x ∧ fleb (LogicalSession.expires_at x) t = false.
Proof.
  unfold LogicalSessionRegistry.live. destruct (_ !! id) as [y|]; [|done].
  destruct (fleb _ t) eqn:E; [done|]. by intros [= <- <-].
Qed.

Lemma authenticate_Ok request g w w' session :
  on_sessions session_clock draw (LogicalSessionRegistry.authenticate request g) w = (w', Ok session) →
  session_admitted w request g session.
Proof.
  unfold on_sessions. destruct (LogicalSessionRegistry.authenticate _ _ _ _ _) as [reg r] eqn:E.
  intros [= _ ->] id Hid. unfold LogicalSessionRegistry.authenticate in E.
  m_step. apply lift_Ok in Hm as [-> ->%validate_generation_Ok].
  m_step. apply lift_Ok in Hm as [-> Hnow]. rewrite Hid in E.
  m_step. apply throw_if_Ok in Hm as [-> _]. m_step. apply live_Ok in Hm as (-> & Hx & Ht).
  m_step. apply throw_if_Ok in Hm as [-> Ho]. m_step. apply throw_if_Ok in Hm as [-> Hg]. to_prop.
  assert (session = id ∧ (g = active_generation res1 ∨ RemoteRequest.resume request = true)) as [-> Hr].
  { case_decide; [m_step; by split; [|left]|]. m_step. apply throw_if_Ok in Hm as [-> Hr]. to_prop.
    unfold LogicalSessionRegistry.supersede in E. case_match; [done|]. injection E as _ <-. by split; [|right]. }
  split; [done|]. by exists res1, (ticks w), res.
Qed.

Lemma assert_session_Ok id g w w' u : assert_session session_clock draw (X := X) id g w = (w', Ok u) →
  session_live w g id.
Proof.
  unfold assert_session, on_sessions. destruct (LogicalSessionRegistry.assert_current _ _ _ _) as [reg r] eqn:E.
  intros [= _ ->]. unfold LogicalSessionRegistry.assert_current in E.
  m_step. apply lift_Ok in Hm as [-> ->%validate_generation_Ok].
  m_step. apply throw_if_Ok in Hm as [-> _]. m_step. apply lift_Ok in Hm as [-> Hnow].
  m_step. apply live_Ok in Hm as (-> & Hx & Ht). apply throw_if_Ok in E as [_ E]. to_prop.
  by exists res1, res0.
Qed.

Lemma fence_Ok request w w' u : verify_fence float_repr container_repr request w = (w', Ok u) →
  RemoteRequest.op request ∈ ROLE_OPERATIONS →
  _verify_role_fence float_repr container_repr (svc w) (RemoteRequest.params request) = Ok ().
Proof.
  unfold verify_fence. intros Hv Hop. rewrite bool_decide_eq_true_2 in Hv by done.
  repeat m_step. unfold this in Hm. simplify_eq. by destruct u.
Qed.

Lemma fence_same request w w' u : verify_fence float_repr container_repr request w = (w', Ok u) → w' = w.
Proof.
  unfold verify_fence. intros Hv. case_bool_decide; [|by apply mret_run in Hv as [-> _]]. m_step. unfold this in Hm. simplify_eq. by apply lift_Ok in Hv as [-> _].
Qed.

Lemma assert_grant_live grant v w w' u : assert_grant grant v w = (w', Ok u) →
  ∀ x, grant ≫= PeerGrant.expires_at = Some x → ∃ n, ticks w ≤ n ∧ fleb x (clock n) = false.
Proof.
  unfold _assert_grant_snapshot_current. intros Ha x Hx. repeat m_step. rewrite Hx in Ha.
  unfold this in Hm. simplify_eq. rewrite M_bind_run in Ha. cbn in Ha.
  apply throw_if_Ok in Ha as [_ Ha]. by exists (ticks w0).
Qed.

(** Only past a first authorization does anything happen outside. *)
(** Only past a first authorization does anything happen outside. *)
Lemma perform_outside request grant version id g fp w w' r :
  perform request grant version id g fp w = (w', r) → outside w' ≠ outside w →
  may (settings (svc w)) grant (RemoteRequest.op request).
Proof.
  unfold Service.perform. rewrite M_bind_run.
  destruct (assert_grant grant version w) as [w1 [u|e]] eqn:H1;
    pose proof (quiet_run _ _ _ _ H1) as F1; [|intros; simplify_eq; by destruct F1].
  rewrite M_bind_run. destruct (authorize request grant w1) as [w2 [cg|e]] eqn:H2.
  - intros _ _. apply authorize_Ok in H2 as [Hm _]. by rewrite <- (frame_settings _ _ F1).
  - pose proof (quiet_run _ _ _ _ H2) as F2. intros ? Ho. simplify_eq. destruct Ho.
    rewrite (frame_outside _ _ F2). by apply (frame_outside _ _ F1).
Qed.

(** A request that is performed was authorized, and the access lists have not changed. *)
Lemma perform_Ok request grant version id g fp w w' payload :
  perform request grant version id g fp w = (w', Ok payload) →
  may (settings (svc w)) grant (RemoteRequest.op request) ∧ _grant_version (svc w') = version.
Proof.
  unfold Service.perform. intros Hp.
  apply M_bind_Ok in Hp as (w1 & ? & Ha & Hp). pose proof (quiet_run _ _ _ _ Ha) as F1.
  apply M_bind_Ok in Hp as (w2 & ? & [Hmay _]%authorize_Ok & Hp).
  apply M_bind_Ok in Hp as (w3 & ? & _ & Hp).
  apply M_bind_Ok in Hp as (w4 & ? & _ & Hp).
  apply M_bind_Ok in Hp as (w5 & ? & _ & Hp).
  apply M_bind_Ok in Hp as (w6 & ? & Hv & Hp). pose proof (quiet_run _ _ _ _ Hv) as F6.
  apply M_bind_Ok in Hp as (w7 & ? & Hz & Hp). pose proof (quiet_run _ _ _ _ Hz) as F7.
  apply mret_run in Hp as [-> _]. split.
  - by rewrite <- (frame_settings _ _ F1).
  - rewrite (frame_version _ _ F7), (frame_version _ _ F6). symmetry. by eapply assert_grant_Ok.
Qed.

(** A request that is performed was permitted, and is confirmed where its operation ended. *)
Lemma perform_confirmed request grant version id g fp w w' payload :
  perform request grant version id g fp w = (w', Ok payload) →
  permits w request grant ∧ ∃ w2, frame w2 w' ∧ confirmed w2 version request grant g id.
Proof.
  unfold Service.perform. intros Hp.
  apply M_bind_Ok in Hp as (w1 & ? & Ha & Hp). pose proof (quiet_run _ _ _ _ Ha) as F1.
  apply M_bind_Ok in Hp as (w2 & ? & [Hmay Hc]%authorize_permits & Hp).
  apply M_bind_Ok in Hp as (w3 & ? & _ & Hp).
  apply M_bind_Ok in Hp as (w4 & ? & Hf & Hp). pose proof (fence_same _ _ _ _ Hf). subst w4.
  apply M_bind_Ok in Hp as (w5 & ? & Hs & Hp). pose proof (quiet_run _ _ _ _ Hs) as F5.
  apply M_bind_Ok in Hp as (w6 & ? & Hv & Hp). pose proof (quiet_run _ _ _ _ Hv) as F6.
  apply M_bind_Ok in Hp as (w7 & ? & Hz & Hp). pose proof (quiet_run _ _ _ _ Hz) as F7.
  apply mret_run in Hp as [-> _]. pose proof (frame_ticks _ _ F5) as Ht. split.
  - split; [by rewrite <- (frame_settings _ _ F1)|by eapply cluster_permits_frame].
  - exists w3. split; [by do 2 etrans|]. split.
    + rewrite <- (frame_version _ _ F5). symmetry. by eapply assert_grant_Ok.
    + intros y Hy. destruct (assert_grant_live _ _ _ _ _ Hv y Hy) as (n & ? & ?). exists n. split; [lia|done].
    + apply authorize_permits in Hz as [Hm Hz]. assert (frame w3 w6) as F by (by etrans).
      split; [by rewrite <- (frame_settings _ _ F)|by eapply cluster_permits_frame].
    + intros Hop. by eapply fence_Ok.
    + by eapply assert_session_Ok.
Qed.

(** ** Responses *)

Lemma jget_set_ne k k' v (d : dict) : k ≠ k' → jget k' (od_set k v d) = jget k' d.
Proof. intros. unfold jget. by rewrite od_get_set_ne. Qed.

Lemma jget_set_some k k' o (d : dict) : k ≠ k' → jget k' (set_some k o d) = jget k' d.
Proof. intros. destruct o; [by apply jget_set_ne|done]. Qed.

Lemma respond_status request secret status payload error id g w w' resp :
  respond hmac_sha256_hex float_repr clock request secret status payload error id g w = (w', Ok resp) →
  jget "status" resp = JStr status.
Proof.
  unfold respond. intros Hr. repeat m_step. unfold sign_response in Hr.
  apply bind_Ok in Hr as (sig & _ & [= <-]).
  rewrite jget_set_ne, !jget_set_some by done. done.
Qed.

Lemma respond_payload request secret status payload error id g w w' resp :
  respond hmac_sha256_hex float_repr clock request secret status payload error id g w = (w', Ok resp) →
  jget "payload" resp = opt_json JObj payload.
Proof.
  unfold respond. intros Hr. repeat m_step. unfold sign_response in Hr.
  apply bind_Ok in Hr as (sig & _ & [= <-]).
  rewrite jget_set_ne, !jget_set_some by done. done.
Qed.

Definition answered_ok (res : result dict) : Prop :=
  ∃ resp, res = Ok resp ∧ jget "status" resp = JStr "ok".

(** An answer that is [ok] comes from a performed request, after the trust commit. *)
Lemma publish_frame request secret payload id g w w' r :
  publish hmac_sha256_hex float_repr clock host request secret payload id g w = (w', r) →
  trust_revoke_commit host = None ∨ RemoteRequest.op request ≠ "revoke_self" → frame w w'.
Proof.
  unfold publish. intros Hp Hc. eapply (quiet_run _ _ _ _ Hp).
  Unshelve. apply keeps_bind; [apply _..| |intros; keeps].
  destruct (trust_revoke_commit host) as [commit|]; [|apply _].
  case_bool_decide; [|apply _]. by destruct Hc.
Qed.

Lemma error_answer request secret code id g w w' r :
  respond hmac_sha256_hex float_repr clock request secret "error" None (Some code) id g w = (w', r) →
  ¬ answered_ok r.
Proof. intros Hr (resp & -> & Hs). apply respond_status in Hr. congruence. Qed.

(** The stages of [handle]: an envelope that is received, tied to a session and fenced is
    performed in a world whose authority is the initial one. *)
Definition received w (d : dict) request grant : Prop :=
  describes d request ∧ (may (settings (svc w)) grant (RemoteRequest.op request) → admitted w d request grant).

Definition answer request grant secret id g fp version : M W dict :=
  try_else (perform request grant version id g fp)
    (λ payload, publish hmac_sha256_hex float_repr clock host request secret payload id g)
    (λ e, match error_code e with
          | Some code => respond hmac_sha256_hex float_repr clock request secret "error" None (Some code) id g
          | None => throw (exn_cls e) (exn_msg e)
          end).

Lemma weaken b w w' : frameb b w w' → frame w w'.
Proof. intros []. by split. Qed.

Lemma handle_stages env g w w' res : handle env g w = (w', res) →
  (frame w w' ∧ is_ok res = false) ∨
  ∃ d request grant secret id fp w1,
    env = Some (JObj d) ∧ frameb true w w1 ∧ (received w d request grant ∧ session_admitted w request g id) ∧
    answer request grant secret id g fp (_grant_version (svc w)) w1 = (w', res).
Proof.
  unfold Service.handle. rewrite M_bind_run.
  destruct env as [envelope|]; [|intros; simplify_eq/=; by left]. cbn [of_option lift].
  rewrite M_bind_run.
  destruct (receive _ _ _ envelope w) as [w1 [[[request grant] version]|e]] eqn:H1;
    pose proof (quiet_runb true _ _ _ _ H1) as F1; [|intros; simplify_eq; left; split; [by apply (weaken true)|done]].
  pose proof (keeps_run sessions_kept _ _ _ _ H1) as Hse.
  apply receive_Ok in H1 as (-> & d & -> & Hd & Hcred & Hv & Htarget & Hcaller).
  rewrite M_bind_run. cbn [the]. cbv beta iota zeta. rewrite M_bind_run.
  destruct (on_sessions session_clock draw (LogicalSessionRegistry.authenticate request g) w1)
    as [w2 [id|e]] eqn:H2; pose proof (quiet_runb true _ _ _ _ H2) as F2;
    [|intros; simplify_eq; left; split; [apply (weaken true); by etrans|done]].
  assert (session_admitted w request g id) as Hsa.
  { intros i Hi. destruct (authenticate_Ok _ _ _ _ _ H2 i Hi) as (-> & x & n & t & Hx & Ho & Hn & Ht).
    rewrite Hse in Hx. split; [done|]. exists x, n, t. split; [done|]. split; [done|]. split; [|done].
    pose proof (frame_ticks _ _ F1). lia. }
  rewrite M_bind_run.
  destruct (verify_fence float_repr container_repr request w2) as [w3 [[]|e]] eqn:H3;
    pose proof (quiet_runb true _ _ _ _ H3) as F3; [|intros; simplify_eq; left; split; [apply (weaken true); by do 2 etrans|done]].
  rewrite M_bind_run. assert (F : frameb true w w2) by (by etrans).
  destruct (request_fingerprint float_repr request) as [fp|e]; simpl;
    [|intros; simplify_eq; left; split; [apply (weaken true); by etrans|done]].
  intros Ht. right. eexists d, request, grant, _, id, fp, w3. split_and!; [done|by etrans| |done|exact Ht].
  split; [done|]. intros Hmay. split; try done. intros Hop. apply fence_Ok in H3; [|done].
  unfold _verify_role_fence in *. by rewrite <- (frame_fence _ _ F).
Qed.

(** One executor: the operation runs between steps that change nothing outside, or the result
    of another one is taken. *)
Lemma execute_stages (Rel : relation W) `{!Reflexive Rel, !Transitive Rel} key fp (m : M W dict) w w' r :
  (∀ w w', frame w w' → Rel w w') →
  (∀ store j, idempotency_store host = Some store → Keeps Rel (store j)) →
  (∀ key w, Rel w (await host key w).1) →
  execute_once clock host key fp m w = (w', r) →
  Rel w w' ∨ ∃ w1 w2 r2, frame w w1 ∧ m w1 = (w2, r2) ∧ Rel w2 w' ∧ ∀ d, r = Ok d → r2 = Ok d.
Proof.
  intros Hframe Hstore Hawait. unfold execute_once.
  destruct ((current ← now; on_idempotency (IdempotencyCache.start key fp current)) w) as [w1 r1] eqn:H1.
  pose proof (quiet_run _ _ _ _ H1) as F1. destruct r1 as [[|]|e].
  - destruct (m w1) as [w2 [d|e]] eqn:Hm.
    + destruct (on_idempotency _ w2) as [w3 r3] eqn:H3. pose proof (quiet_run _ _ _ _ H3) as F3.
      destruct (save_idempotency clock host w3) as [w4 r4] eqn:H4.
      assert (F4 : Rel w3 w4).
      { unfold save_idempotency in H4. destruct (idempotency_store host) as [store|] eqn:Es.
        2: { unfold mret, M_ret in H4. by simplify_eq. }
        refine (keeps_run Rel _ _ _ _ H4). apply keeps_bind; [apply _..| |intros t].
        { intros u. apply Hframe. split; try done. simpl. lia. }
        apply keeps_bind; [apply _..| |intros t'; by apply Hstore]. intros u. by apply Hframe. }
      destruct (on_idempotency _ w4) as [w5 r5] eqn:H5. pose proof (quiet_run _ _ _ _ H5) as F5.
      intros. simplify_eq. right. exists w1, w2, (Ok d). split_and!; [done|done| |].
      * etrans; [by apply Hframe|]. etrans; [done|by apply Hframe].
      * intros d' Hd. by apply bind_Ok in Hd as (? & _ & [= ->]).
    + intros H2. right. exists w1, w2, (Err e). split_and!; [done|done| |].
      * apply Hframe. by eapply (quiet_run _ _ _ _ H2).
      * intros d ->. apply M_bind_Ok in H2 as (? & ? & _ & H2). done.
  - destruct (od_get key _) as [e|].
    + destruct (IdempotencyCache.event e).
      * intros. simplify_eq. left. by apply Hframe.
      * destruct (await host key w1) as [w2 e2] eqn:Ha. intros. simplify_eq. left.
        etrans; [by apply Hframe|]. pose proof (Hawait key w1) as Hw. by rewrite Ha in Hw.
    + destruct (await host key w1) as [w2 e2] eqn:Ha. intros. simplify_eq. left.
      etrans; [by apply Hframe|]. pose proof (Hawait key w1) as Hw. by rewrite Ha in Hw.
  - intros. simplify_eq. left. by apply Hframe.
Qed.
End spec.
