(* ===== verification/ServiceSpec.v ===== *)
(** * The service: nothing runs, and nothing is answered, without authority

    Every theorem is about an arbitrary host: its handlers may change the world in any way,
    the access lists of the service included. *)

From S2P Require Import Prelude PyFloat Identity ClusterModels Roles RolesFacts Sharing PyJson SurfaceWire Wire WireOps Caches IdempotencyStore Envelope EnvelopeSpec Session StateCodec RemoteModels Surfaces Service ServiceFacts.
Import RemoteService Settings Fence.

Section spec.
Context (hmac_sha256_hex : string → string → string) (float_repr : float → string).
Context (container_repr : json → string).
Context (parse_int : string → result Z) (parse_float : string → result float).
Context {X H D P : Type} (isoformat : D → string) (path_str : P → string).
Context (clock : nat → float) (session_clock : nat → json) (draw : nat → nat → json).
Notation W := (World X).
Context (host : Host W X H D P).
Implicit Types (w : W) (request : RemoteRequest.t) (grant : option PeerGrant.t).

Notation now := (now clock).
Notation authorize := (_authorize_request float_repr clock host).
Notation assert_grant := (_assert_grant_snapshot_current clock).
Notation perform := (perform float_repr container_repr parse_int parse_float isoformat path_str clock session_clock draw host).
Notation handle := (handle hmac_sha256_hex float_repr container_repr parse_int parse_float isoformat path_str clock session_clock draw host).

Notation frame := (frameb false).
Notation admitted := (admitted hmac_sha256_hex float_repr container_repr clock).
Notation session_admitted := (session_admitted session_clock).
Notation cluster_permits := (cluster_permits clock).
Notation confirmed := (confirmed float_repr container_repr clock session_clock).
Notation received := (received hmac_sha256_hex float_repr container_repr clock).
Notation answer := (answer hmac_sha256_hex float_repr container_repr parse_int parse_float isoformat path_str clock session_clock draw host).

(** C8. Nothing runs and nothing is answered without authority, for every host.  A call that
    changes anything outside the service, or that answers [ok], was made with an envelope
    signed under the caller's own secret (of its entry in the access list, unexpired at the
    first reading of the clock), for this node, by the caller the service expects, for an
    operation the node offers and the caller is permitted, and, for a role operation, with the
    fence of the current Coordinator; the session it names was the caller's, live, and open to
    the connection.  And when it answers [ok], all of it still held in the world the operation
    left, whatever the host did meanwhile: the access lists are the ones it was received
    under, its grant is unexpired, its own and the then current cluster grants permit it, the
    fence is met, the session is live and the connection is the current one of it.  That
    world differs from the final one outside the service only if the request is a
    self-revocation, which is committed last. *)
Theorem served_request_is_admitted env g w w' res : handle env g w = (w', res) →
  outside w' ≠ outside w ∨ answered_ok res →
  ∃ d request grant session, env = Some (JObj d) ∧ admitted w d request grant ∧
    session_admitted w request g session ∧
    (answered_ok res → cluster_permits w request ∧
       ∃ w2, confirmed w2 (_grant_version (svc w)) request grant g session ∧
         (trust_revoke_commit host = None ∨ RemoteRequest.op request ≠ "revoke_self" → frame w2 w')).
Proof.
  intros Hh Ho. apply handle_stages in Hh
    as [[F Hno]|(d & request & grant & secret & id & fp & w1 & -> & F & [Hr Hse] & Ha)].
  { destruct Ho as [Ho|(resp & -> & _)]; [|done]. by destruct Ho, F. }
  exists d, request, grant, id. split; [done|].
  destruct Hr as [_ Hr]. rewrite <- (frame_settings _ _ F) in Hr. unfold answer, try_else in Ha.
  destruct (perform request grant _ id g fp w1) as [w2 [payload|e]] eqn:Hp.
  - apply perform_confirmed in Hp as ([Hmay Hc] & w3 & F3 & Hconf).
    split; [by apply Hr|]. split; [done|]. intros _. apply (weaken true) in F.
    split; [by eapply cluster_permits_frame|]. exists w3. split; [done|]. intros Hcommit.
    etrans; [exact F3|]. eapply publish_frame; [exact Ha|exact Hcommit].
  - assert (Hq : frame w2 w' ∧ ¬ answered_ok res).
    { destruct (error_code e) as [code|].
      - split; [exact (quiet_run _ _ _ _ Ha)|by eapply error_answer].
      - unfold throw in Ha. simplify_eq. split; [done|]. by intros (? & ? & _). }
    destruct Hq as [F2 Hno]. split; [|by split]. apply Hr. eapply perform_outside; [done|].
    rewrite <- (frame_outside _ _ F2). destruct Ho as [Ho|?]; [|done]. by rewrite (frame_outside _ _ F).
Qed.

(** An answer is [ok] only when the access lists were the same throughout: whatever the
    handlers did, if the permissions of any caller changed while the request was served, the
    caller is not told that it succeeded.  A self-revocation changes them afterwards. *)
Theorem changed_grants_void_the_answer env g w w' res : handle env g w = (w', res) →
  answered_ok res → trust_revoke_commit host = None ∨
    (∀ d, env = Some (JObj d) → jget "op" d ≠ JStr "revoke_self") →
  _grant_version (svc w') = _grant_version (svc w).
Proof.
  intros Hh Hok Hrev. apply handle_stages in Hh
    as [[F Hno]|(d & request & grant & secret & id & fp & w1 & -> & F & [Hr _] & Ha)].
  { by destruct Hok as (resp & -> & _). }
  unfold answer, try_else in Ha.
  destruct (perform request grant _ id g fp w1) as [w2 [payload|e]] eqn:Hp.
  - apply perform_Ok in Hp as [Hmay Hv]. rewrite <- Hv. symmetry.
    destruct Hr as [Hd _]. symmetry. apply (frame_version (b := false)). eapply publish_frame; [done|].
    destruct Hrev as [?|Hrev]; [by left|]. right. intros Hop. apply (Hrev d); [done|].
    unfold jget. by rewrite (describes_op _ _ Hd), Hop.
  - exfalso. destruct (error_code e) as [code|]; [by eapply error_answer|].
    unfold throw in Ha. simplify_eq. by destruct Hok as (? & ? & _).
Qed.
(** ** Replays *)

(** A result recorded for the request, that no clock reading finds expired. *)
Definition recorded_for w request (e : IdempotencyCache.entry) : Prop :=
  od_get (cache_key request) (IdempotencyCache._entries (_idempotency (svc w))) = Some e ∧
  IdempotencyCache.event e = true ∧ ∀ n, fleb (IdempotencyCache.expires_at e) (clock n) = false.

Lemma start_recorded key fp t (c : IdempotencyCache.t) e :
  od_get key (IdempotencyCache._entries c) = Some e → fleb (IdempotencyCache.expires_at e) t = false →
  ∃ r, IdempotencyCache.start key fp t c = (IdempotencyCache._prune c t, r) ∧
    od_get key (IdempotencyCache._entries (IdempotencyCache._prune c t)) = Some e ∧
    r ≠ Ok IdempotencyCache.Owner.
Proof.
  intros Hk Ht. unfold IdempotencyCache.start.
  assert (Hp : od_get key (IdempotencyCache._entries (IdempotencyCache._prune c t)) = Some e).
  { apply od_get_filter_keep; [done|]. simpl. by rewrite Ht, andb_false_r. }
  rewrite Hp. case_decide; eexists; split_and!; done.
Qed.

#[local] Arguments IdempotencyCache._prune : simpl never.

(** With a recorded result the operation is not run. *)
Lemma execute_recorded request fp op w w' r e : recorded_for w request e →
  execute_once clock host (cache_key request) fp op w = (w', r) →
  frame w w' ∧ ∀ d, r = Ok d → IdempotencyCache.joined e = Ok (JObj d).
Proof.
  intros (Hk & He & Hx). unfold execute_once. rewrite M_bind_run.
  unfold Service.now, on_idempotency, on_service at 1. cbn [svc ticks outside].
  destruct (start_recorded (cache_key request) fp (clock (ticks w)) _ e Hk (Hx _)) as (r0 & -> & Hp & Hne).
  destruct r0 as [[|]|err]; [done| |intros; simplify_eq; by split; [split; try done; simpl; lia|]].
  simpl in *. rewrite Hp, He. intros. simplify_eq. split; [split; try done; simpl; lia|].
  intros d Hd. destruct (IdempotencyCache.joined e) as [[]|]; by simplify_eq.
Qed.

Lemma perform_recorded request grant version id g fp w w' r e :
  recorded_for w request e → od_get (RemoteRequest.op request) OPERATION_SAFETY ≠ Some "read" →
  perform request grant version id g fp w = (w', r) →
  frame w w' ∧ ∀ payload, r = Ok payload → IdempotencyCache.joined e = Ok (JObj payload).
Proof.
  intros Hrec Hop. unfold Service.perform. rewrite M_bind_run.
  destruct (assert_grant grant version w) as [w1 [u|er]] eqn:H1;
    pose proof (quiet_runb true _ _ _ _ H1) as F1;
    [|intros; simplify_eq; split; [by apply (weaken true)|done]].
  rewrite M_bind_run. destruct (authorize request grant w1) as [w2 [cg|er]] eqn:H2;
    pose proof (quiet_runb true _ _ _ _ H2) as F2;
    [|intros; simplify_eq; split; [apply (weaken true); by etrans|done]].
  assert (F : frameb true w w2) by (by etrans).
  rewrite M_bind_run, bool_decide_eq_false_2 by done.
  destruct (execute_once _ _ _ _ _ w2) as [w3 r3] eqn:H3.
  apply (execute_recorded _ _ _ _ _ _ e) in H3 as [F3 Hj].
  2:{ unfold recorded_for in *. by rewrite (frame_idempotency _ _ _ F). }
  apply weaken in F. destruct r3 as [payload|er]; [|intros; simplify_eq; split; [by etrans|done]].
  intros Hrest. split.
  - etrans; [by etrans|]. eapply (quiet_run _ _ _ _ Hrest).
  - intros p ->. repeat m_step. auto.
Qed.

(** A repeated request is not executed again: while the result of a request id is in the
    cache, a request of the same caller under that id, replayed or signed anew, for any
    operation that is not a read, runs no handler of the host; and an answer that is [ok]
    then carries the recorded result. *)
Theorem repeated_request_is_not_executed env g w w' res e :
  handle env g w = (w', res) →
  (∀ d request, env = Some (JObj d) → describes d request →
     recorded_for w request e ∧ od_get (RemoteRequest.op request) OPERATION_SAFETY ≠ Some "read" ∧
     (trust_revoke_commit host = None ∨ RemoteRequest.op request ≠ "revoke_self")) →
  outside w' = outside w ∧
  (answered_ok res → ∃ resp payload, res = Ok resp ∧ jget "payload" resp = JObj payload ∧
     IdempotencyCache.joined e = Ok (JObj payload)).
Proof.
  intros Hh Hrec. apply handle_stages in Hh
    as [[F Hno]|(d & request & grant & secret & id & fp & w1 & -> & F & [Hr _] & Ha)].
  { split; [apply F|]. by intros (resp & -> & _). }
  destruct Hr as [Hd _]. destruct (Hrec d request) as (Hre & Hop & Hrev); [done..|].
  unfold answer, try_else in Ha.
  destruct (perform request grant _ id g fp w1) as [w2 [payload|er]] eqn:Hp;
    apply (perform_recorded _ _ _ _ _ _ _ _ _ e) in Hp as [F2 Hj]; try done;
    try (unfold recorded_for in *; by rewrite (frame_idempotency _ _ _ F)).
  - assert (F3 : frame w2 w') by (by eapply publish_frame). split.
    { by rewrite (frame_outside _ _ F3), (frame_outside _ _ F2), (frame_outside _ _ F). }
    intros (resp & -> & Hok). exists resp, payload. split; [done|]. split; [|by apply Hj].
    unfold publish in Ha. apply M_bind_Ok in Ha as (w3 & u & _ & Ha).
    destruct (dumps float_repr false (JObj payload)).
    + by apply respond_payload in Ha.
    + apply respond_status in Ha. congruence.
  - destruct (error_code er) as [code|].
    + split; [|intros Hok; by apply error_answer in Ha].
      apply quiet_run in Ha; [|apply _].
      by rewrite (frame_outside _ _ Ha), (frame_outside _ _ F2), (frame_outside _ _ F).
    + unfold throw in Ha. simplify_eq. split; [by rewrite (frame_outside _ _ F2), (frame_outside _ _ F)|].
      by intros (? & ? & _).
Qed.
End spec.

(** ** The fence *)

Section fence.
Context (float_repr : float → string) (container_repr : json → string).
Notation verify := (_verify_role_fence float_repr container_repr).

Lemma compare_Ok a b same : compare_digest a b = Ok same → same = true → a = b.
Proof.
  unfold compare_digest. destruct (_ && _); [|done]. intros [= <-] ?. by to_prop.
Qed.

(** The epoch of a fence only grows, and one epoch has one token. *)
Lemma update_monotone id e tok e' tok' s s' r :
  fence s = Fence.mk (Some id) (Some e) (Some tok) → update_cluster_fence id e' tok' s = (s', r) →
  ∃ e2 tok2, fence s' = Fence.mk (Some id) (Some e2) (Some tok2) ∧
    (e < e2 ∨ e2 = e ∧ tok2 = tok)%Z.
Proof.
  intros Hf. unfold update_cluster_fence. rewrite Hf. simpl.
  rewrite bool_decide_eq_true_2 by done. simpl.
  repeat case_match; intros; simplify_eq; eauto 10.
  eexists e', tok'. split; [done|]. lia.
Qed.

Lemma update_Ok id e tok s s' : update_cluster_fence id e tok s = (s', Ok ()) →
  fence s' = Fence.mk (Some id) (Some e) (Some tok).
Proof.
  unfold update_cluster_fence.
  destruct (fence s) as [c e0 t0] eqn:Hf. simpl. intros Hu.
  destruct e0 as [cur|]; [|by simplify_eq].
  case_bool_decide as Hc; simpl in Hu; [|by simplify_eq].
  destruct (e <? cur)%Z; [done|]. destruct (e =? cur)%Z eqn:He; [|by simplify_eq].
  injection Hu as <- Hu. destruct t0 as [t0|]; [|done]. repeat res_step.
  apply compare_Ok in Hres as ->; [|by to_prop].
  rewrite Hf, Hc. do 2 f_equal. lia.
Qed.

(** A history of updates, of any clusters: what is installed last for a cluster without a change
    of cluster in between. *)
Notation authority := (string * Z * string)%type.
Definition install_all (updates : list authority) (s : RemoteService.t) : RemoteService.t :=
  foldl (λ s u, (update_cluster_fence u.1.1 u.1.2 u.2 s).1) s updates.
Definition names (id : string) (u : authority) : Prop := u.1.1 = id.

(** The last change of cluster in a history, which begins with one: since [u] only its cluster
    was named. *)
Definition since (history : list authority) (u : authority) : Prop := ∃ before rest,
  history = before ++ u :: rest ∧ Forall (names u.1.1) rest ∧ (∀ v, last before = Some v → ¬ names u.1.1 v).

(** The fence is for the cluster of the last change, at its epoch and token or a later epoch. *)
Lemma install_since id e tok s updates : fence s = Fence.mk (Some id) (Some e) (Some tok) →
  ∃ u e' tok', since ((id, e, tok) :: updates) u ∧
    fence (install_all updates s) = Fence.mk (Some u.1.1) (Some e') (Some tok') ∧
    (u.1.2 < e' ∨ e' = u.1.2 ∧ tok' = u.2)%Z.
Proof.
  intros Hf. induction updates as [|v updates IH] using rev_ind.
  - exists (id, e, tok), e, tok. split; [by exists [], []|]. auto.
  - destruct IH as (u & e1 & tok1 & (before & rest & Hh & Hr & Hb) & Hi & Ho).
    unfold install_all. rewrite foldl_app. fold (install_all updates s). cbn [foldl].
    destruct (update_cluster_fence v.1.1 v.1.2 v.2 (install_all updates s)) as [s2 r] eqn:Hu.
    rewrite app_comm_cons, Hh. destruct (decide (v.1.1 = u.1.1)) as [E|E].
    + rewrite E in Hu. apply (update_monotone _ _ _ _ _ _ _ _ Hi) in Hu as (e2 & tok2 & Hf2 & Ho2).
      exists u, e2, tok2. split; [|split; [done|]].
      * exists before, (rest ++ [v]). rewrite <- app_assoc. split; [done|]. split; [|done].
        apply Forall_app. split; [done|]. by apply Forall_singleton.
      * destruct Ho as [?|[-> ->]]; destruct Ho2 as [?|[-> ->]]; auto; left; lia.
    + exists v, v.1.2, v.2. split; [|split; [|by right]].
      * exists (before ++ u :: rest), []. split; [done|]. split; [done|]. intros x Hx Hn. apply E.
        rewrite last_app_cons in Hx. unfold names in *. destruct rest as [|y rest _] using rev_ind.
        -- injection Hx as <-. done.
        -- rewrite app_comm_cons, last_snoc in Hx. injection Hx as <-.
           apply Forall_app in Hr as [_ Hy]. apply (proj1 (Forall_singleton _ _)) in Hy. etrans; [symmetry; exact Hn|exact Hy].
      * unfold update_cluster_fence in Hu. rewrite Hi in Hu. simpl in Hu.
        rewrite bool_decide_eq_false_2 in Hu by (intros [= E']; by apply E). by injection Hu as <- _.
Qed.

(** C31. A superseded Coordinator is fenced off: once the authority of an epoch has been installed,
    then through any further updates, in any order and from anyone, every role request that
    passes the fence names the cluster of the last change of cluster in this history, and an
    epoch at least the one that change installed, with the very token at that very epoch.
    While no other cluster is named, that is the authority installed first: only another
    cluster's authority in between brings an older epoch back. *)
Theorem stale_coordinator_is_fenced id e tok s s' updates params :
  update_cluster_fence id e tok s = (s', Ok ()) →
  verify (install_all updates s') params = Ok () →
  ∃ u e' tok', since ((id, e, tok) :: updates) u ∧
    (Forall (names id) updates → u = (id, e, tok)) ∧
    jget "cluster_id" params = JStr u.1.1 ∧
    equals_int (jget "epoch" params) e' = true ∧
    py_str float_repr container_repr (jget "fencing_token" params) = Ok tok' ∧
    (u.1.2 < e' ∨ e' = u.1.2 ∧ tok' = u.2)%Z.
Proof.
  intros Hf%update_Ok Hv. destruct (install_since _ _ _ _ updates Hf) as (u & e2 & tok2 & Hs & Hf2 & Hord).
  unfold _verify_role_fence in Hv. rewrite Hf2 in Hv. simpl in Hv. repeat res_step. to_prop.
  eexists u, e2, _. split; [done|]. split; [|split; [|split; [done|split; [done|]]]].
  - intros Hall. destruct Hs as (before & rest & Hh & _ & Hb).
    destruct before as [|x before _] using rev_ind; [by injection Hh as <- _|]. exfalso.
    assert (Forall (names id) ((before ++ [x]) ++ u :: rest)) as Hn by (rewrite <- Hh; by apply Forall_cons).
    apply Forall_app in Hn as [[_ Hx]%Forall_app [Hu _]%Forall_cons].
    apply (proj1 (Forall_singleton _ _)) in Hx.
    apply (Hb x); [by rewrite last_snoc|]. unfold names in *. congruence.
  - destruct (jget "cluster_id" params); try done. to_prop. by subst.
  - match goal with E : compare_digest _ _ = Ok _ |- _ => apply compare_Ok in E as ->; done end.
Qed.
End fence.

(** ** A concrete service *)

(** A node that manages, with one caller; [outside] counts the role requests it handled. *)
Definition sample_settings : Settings.t :=
  Settings.mk (mkNodeId "server") "Server" "host" None ONLINE {[READ_STATE_CAP; REMOTE_MANAGEMENT_CAP]}
    None "print" None None None None "secret" "1.0" (flit 60) ∅ false.

Definition sample_acl : gmap NodeId PeerGrant.t :=
  {[mkNodeId "laptop" := PeerGrant.mk (mkNodeId "laptop") "secret" {[REMOTE_MANAGEMENT]} None]}.

Definition sample_service (entries : list ((string * string) * IdempotencyCache.entry)) : RemoteService.t :=
  RemoteService.mk sample_settings true sample_acl [] 7 (ReplayCache.__init__ (flit 300) 8)
    (Fence.mk (Some "k") (Some 3%Z) (Some "tok")) ∅ (IdempotencyCache.mk (flit 300) 8 entries)
    (LogicalSessionRegistry.mk (flit 600) 8 8 ∅ []).

Definition sample_host : Host (World nat) nat unit string string :=
  mkHost _ _ _ _ _
    (Some (λ _ w, (mkWorld (svc w) (ticks w) (S (outside w)), Ok [("ok", JBool true)])))
    None None None None (λ _ _ _, mret JNull) None (mret (DashboardSnapshot.mk "label" "now" []))
    (λ _, throw RuntimeError "no components") (mret []) (mret []) None
    (λ _ w, (w, IdempotencyCache.mkEntry "" (flit 0) true None None true)).

Definition sample_request : list (string * json) :=
  match sign_request sample_mac sample_text "server" "renew_coordinator_lease"
          [("cluster_id", JStr "k"); ("epoch", JInt 3); ("fencing_token", JStr "tok")] "r1" "n1"
          (flit 100) "secret" (Some "laptop") None false None with
  | Ok env => env
  | Err _ => []
  end.

Definition sample_handle (entries : list ((string * string) * IdempotencyCache.entry)) :=
  handle sample_mac sample_text (λ _, "") (λ _, raise ValueError "no number")
    (λ _, raise ValueError "no number") id id (λ _, flit 110) (λ _, JFloat (flit 5)) (λ _ _, JStr "s1")
    sample_host (Some (JObj sample_request)) None (mkWorld (sample_service entries) 0 0).

Lemma sample_run entries :
  handle sample_mac sample_text (λ _, "") (λ _, raise ValueError "no number")
    (λ _, raise ValueError "no number") id id (λ _, flit 110) (λ _, JFloat (flit 5)) (λ _ _, JStr "s1")
    sample_host (Some (JObj sample_request)) None (mkWorld (sample_service entries) 0 0)
  = ((sample_handle entries).1, (sample_handle entries).2).
Proof. apply surjective_pairing. Qed.

Lemma sample_answer : answered_ok (sample_handle []).2.
Proof.
  destruct (ok_run (sample_handle []).2) as [resp Hr]; [vm_compute; reflexivity|].
  exists resp. split; [exact Hr|].
  apply (f_equal (λ r, match r with Ok d => jget "status" d | Err _ => JNull end)) in Hr.
  rewrite <- Hr. vm_compute. reflexivity.
Qed.

Lemma served_request_is_admitted_witness :
  outside (sample_handle []).1 = 1 ∧ answered_ok (sample_handle []).2 ∧
  ∃ d request grant session w2, Some (JObj sample_request) = Some (JObj d) ∧
    admitted sample_mac sample_text (λ _, "") (λ _, flit 110) (mkWorld (sample_service []) 0 0) d request grant ∧
    confirmed sample_text (λ _, "") (λ _, flit 110) (λ _, JFloat (flit 5)) w2 7 request grant None session ∧
    outside w2 = 1.
Proof.
  split; [vm_compute; reflexivity|]. split; [exact sample_answer|].
  destruct (served_request_is_admitted _ _ _ _ _ _ _ _ _ _ _ _ _ _ _ _ (sample_run [])
             (or_intror sample_answer)) as (d & request & grant & session & Hd & Ha & _ & Hok).
  destruct (Hok sample_answer) as (_ & w2 & Hc & Hf). exists d, request, grant, session, w2.
  split; [exact Hd|]. split; [exact Ha|]. split; [exact Hc|].
  rewrite <- (frame_outside _ _ (Hf (or_introl eq_refl))). vm_compute. reflexivity.
Defined.

Lemma changed_grants_void_the_answer_witness :
  answered_ok (sample_handle []).2 ∧ _grant_version (svc (sample_handle []).1) = 7%Z.
Proof.
  split; [exact sample_answer|].
  exact (changed_grants_void_the_answer _ _ _ _ _ _ _ _ _ _ _ _ _ _ _ _ (sample_run [])
           sample_answer (or_introl eq_refl)).
Defined.

(** The result of [r1] was recorded before. *)
Definition sample_entry : IdempotencyCache.entry :=
  IdempotencyCache.mkEntry
    (match dumps sample_text true (JObj [("op", JStr "renew_coordinator_lease");
       ("params", JObj [("cluster_id", JStr "k"); ("epoch", JInt 3); ("fencing_token", JStr "tok")])]) with
     | Ok t => t | Err _ => "" end)
    (flit 400) true (Some (JObj [("ok", JBool true)])) None true.

Lemma repeated_request_is_not_executed_witness :
  let entries := [(("laptop", "r1"), sample_entry)] in
  is_ok (sample_handle entries).2 = true ∧ outside (sample_handle entries).1 = 0.
Proof.
  intros entries. split; [vm_compute; reflexivity|].
  refine (proj1 (repeated_request_is_not_executed _ _ _ _ _ _ _ _ _ _ _ _ _ _ _ _ sample_entry
                   (sample_run entries) _)).
  intros d request [= <-] Hd.
  assert (Hop : RemoteRequest.op request = "renew_coordinator_lease").
  { assert (E : od_get "op" sample_request = Some (JStr "renew_coordinator_lease")) by (vm_compute; reflexivity).
    rewrite (describes_op _ _ Hd) in E. by injection E. }
  assert (Hk : cache_key request = ("laptop", "r1")).
  { unfold cache_key, LogicalSessionRegistry.request_owner.
    assert (E1 : jget "caller_node_id" sample_request = JStr "laptop") by (vm_compute; reflexivity).
    assert (E2 : od_get "request_id" sample_request = Some (JStr "r1")) by (vm_compute; reflexivity).
    rewrite (describes_caller _ _ Hd) in E1. rewrite (describes_request _ _ Hd) in E2.
    destruct (RemoteRequest.caller_node_id request) as [[n]|]; [|discriminate E1].
    injection E1 as ->. injection E2 as ->. reflexivity. }
  split; [|split; [rewrite Hop; vm_compute; discriminate|left; reflexivity]].
  split; [rewrite Hk; reflexivity|]. split; [reflexivity|]. intros n. vm_compute. reflexivity.
Defined.

(** The fence moves to epoch 4 of [k]; then epoch 3 and another token of 4 are tried, and refused. *)
Lemma stale_coordinator_is_fenced_witness :
  let s := sample_service [] in
  let old := [("cluster_id", JStr "k"); ("epoch", JInt 3); ("fencing_token", JStr "tok")] in
  let new := [("cluster_id", JStr "k"); ("epoch", JInt 4); ("fencing_token", JStr "next")] in
  let tries := [("k", 3%Z, "tok"); ("k", 4%Z, "other")] in
  let verify := _verify_role_fence sample_text (λ _, "") in
  verify s old = Ok () ∧
  (∃ s', update_cluster_fence "k" 4 "next" s = (s', Ok ()) ∧
     is_ok (verify (install_all tries s') old) = false ∧
     verify (install_all tries s') new = Ok () ∧
     verify (install_all [("other", 1%Z, "x"); ("k", 3%Z, "tok")] s') old = Ok () ∧
     ∃ e', equals_int (JInt 4) e' = true ∧ (4 <= e')%Z).
Proof.
  split; [reflexivity|].
  exists (update_cluster_fence "k" 4 "next" (sample_service [])).1.
  split; [reflexivity|]. split; [reflexivity|]. split; [reflexivity|]. split; [reflexivity|].
  destruct (stale_coordinator_is_fenced sample_text (λ _, "") "k" 4 "next" (sample_service [])
    (update_cluster_fence "k" 4 "next" (sample_service [])).1 [("k", 3%Z, "tok"); ("k", 4%Z, "other")]
    [("cluster_id", JStr "k"); ("epoch", JInt 4); ("fencing_token", JStr "next")] eq_refl eq_refl)
    as (u & e' & tok' & _ & Hu & _ & He & _ & Ho).
  rewrite Hu in Ho by (repeat constructor). simpl in Ho. exists e'. split; [exact He|]. lia.
Defined.
