(* ===== verification/Documents.v ===== *)
(** * Versioned documents ([persistence.py])

    [migrate_state] brings a stored document of a known kind to the current schema.  The
    clone it works on is a value here.  Migrating is idempotent and keeps every member it
    does not version. *)

From S2P Require Import Prelude PyFloat Identity PyJson.

Definition CURRENT_SCHEMA_VERSION : Z := 2.

(** [item["routes"] = [...]] for an item that names one host and port. *)
Definition migrate_route (item : json) : json :=
  match item with
  | JObj d =>
      if od_mem "routes" d then item
      else match jget "host" d, jget "port" d with
           | JStr host, JInt port =>
               if bool_decide (host = "") then item
               else JObj (od_set "routes" (JList [JObj [("host", JStr host); ("port", JInt port);
                                                        ("source", JStr "legacy")]]) d)
           | _, _ => item
           end
  | _ => item
  end.

Definition _migrate_single_routes (items : json) : result json :=
  match items with
  | JList l => Ok (JList (migrate_route <$> l))
  | _ => raise StateDataError "route state is invalid"
  end.

(** A member that must be a list, empty by default, with its routes migrated. *)
Definition migrate_list (name : string) (d : list (string * json)) : result (list (string * json)) :=
  routes ← _migrate_single_routes (jget_or name (JList []) d);
  Ok (od_set name routes d).

(** The member is a list after defaulting. *)
Definition default_list (name msg : string) (d : list (string * json)) : result (list (string * json)) :=
  let d := if od_mem name d then d else od_set name (JList []) d in
  match jget name d with
  | JList _ => Ok d
  | _ => raise StateDataError msg
  end.

Definition trust_lists : list string := ["grants"; "trusted"; "pending"].

Definition schema_version (d : list (string * json)) : result Z :=
  raw ← of_option (is_int (jget_or "schema_version" (jget_or "version" (JInt 1) d) d)) StateDataError
          "state schema version is invalid";
  raise_if ((CURRENT_SCHEMA_VERSION <? raw)%Z || (raw <? 1)%Z) StateDataError
    "unsupported state schema version";;
  Ok raw.

Definition migrate_state (kind : string) (value : list (string * json)) : result (list (string * json)) :=
  schema_version value;;
  let d := od_set "schema_version" (JInt CURRENT_SCHEMA_VERSION) (od_pop "version" value) in
  if bool_decide (kind = "identity")
  then raise_if (negb (match jget "node_id" d, jget "secret" d with
                       | JStr _, JStr _ => true | _, _ => false end)) StateDataError
         "identity state is invalid";;
       Ok d
  else if bool_decide (kind = "trust")
  then d ← default_list "grants" "trust grants state is invalid" d;
       d ← default_list "trusted" "trust trusted state is invalid" d;
       d ← default_list "pending" "trust pending state is invalid" d;
       d ← migrate_list "grants" d;
       d ← migrate_list "trusted" d;
       migrate_list "pending" d
  else if bool_decide (kind = "cluster")
  then default_list "used_invites" "cluster invite state is invalid" d
  else if bool_decide (kind = "routes")
  then routes ← _migrate_single_routes (jget_or "routes" (JList []) d);
       Ok (if od_mem "routes" d then od_set "routes" routes d else d)
  else raise StateDataError ("unknown state kind: " +:+ kind).

(** ** Migrating twice *)

Lemma migrate_route_idem item : migrate_route (migrate_route item) = migrate_route item.
Proof.
  destruct item as [| | | | | |d]; try done. unfold migrate_route.
  destruct (od_mem "routes" d) eqn:Hr; [by rewrite Hr|].
  destruct (jget "host" d) eqn:Hh; try by rewrite Hr, Hh.
  destruct (jget "port" d) eqn:Hp; try by rewrite Hr, Hh, Hp.
  case_bool_decide as He; [by rewrite Hr, Hh, Hp, bool_decide_eq_true_2|].
  unfold od_mem. by rewrite od_get_set_eq.
Qed.

Lemma single_routes_idem v v' : _migrate_single_routes v = Ok v' → _migrate_single_routes v' = Ok v'.
Proof.
  unfold _migrate_single_routes. destruct v; intros; simplify_eq/=.
  do 2 f_equal. rewrite <- list_fmap_compose. apply list_fmap_ext. intros ? x _. apply migrate_route_idem.
Qed.

Lemma od_set_same {V} (k : string) (v : V) d : od_get k d = Some v → od_set k v d = d.
Proof.
  induction d as [|[j w] d IH]; simpl; [done|]. case_decide; intros; simplify_eq; [done|].
  by rewrite IH.
Qed.

(** A document that needs no change for one of the lists. *)
Definition settled (name : string) (d : list (string * json)) : Prop :=
  ∃ l, od_get name d = Some (JList l) ∧ _migrate_single_routes (JList l) = Ok (JList l).

Lemma default_settled name msg d : settled name d → default_list name msg d = Ok d.
Proof. intros (l & Hl & _). unfold default_list, od_mem, jget. by rewrite Hl, Hl. Qed.

Lemma migrate_settled name d : settled name d → migrate_list name d = Ok d.
Proof.
  intros (l & Hl & Hm). unfold migrate_list, jget_or. rewrite Hl. simpl default. rewrite Hm. simpl.
  by rewrite od_set_same.
Qed.

Lemma migrate_list_settles name d d' : migrate_list name d = Ok d' → settled name d'.
Proof.
  unfold migrate_list. intros (v & Hv & [= <-])%bind_Ok. pose proof (single_routes_idem _ _ Hv) as Hi.
  destruct (jget_or name (JList []) d); try done. simpl in Hv. injection Hv as <-.
  eexists. rewrite od_get_set_eq. by split.
Qed.

Lemma migrate_list_other name name' d d' v : migrate_list name d = Ok d' → name ≠ name' →
  od_get name' d' = v ↔ od_get name' d = v.
Proof.
  unfold migrate_list. intros (r & _ & [= <-])%bind_Ok Hn. by rewrite od_get_set_ne.
Qed.

Lemma settled_other name name' d d' : migrate_list name d = Ok d' → name ≠ name' →
  settled name' d → settled name' d'.
Proof. intros Hm Hn (l & Hl & ?). exists l. split; [|done]. by apply (migrate_list_other _ _ _ _ _ Hm). Qed.

Lemma default_list_get name name' msg d d' : default_list name msg d = Ok d' → name ≠ name' →
  od_get name' d' = od_get name' d.
Proof.
  unfold default_list. intros Hd Hn.
  destruct (od_mem name d); repeat case_match; simplify_eq; [done|by rewrite od_get_set_ne].
Qed.

Lemma default_list_Ok name msg d d' : default_list name msg d = Ok d' → ∃ l, od_get name d' = Some (JList l).
Proof.
  unfold default_list. intros Hd. set (d1 := if od_mem name d then _ else _) in Hd.
  unfold jget in Hd. destruct (od_get name d1) as [[]|] eqn:Hg; simplify_eq/=; eauto.
Qed.

Lemma versioned_again d : od_get "schema_version" d = Some (JInt 2) → od_get "version" d = None →
  schema_version d = Ok 2%Z ∧
  od_set "schema_version" (JInt CURRENT_SCHEMA_VERSION) (od_pop "version" d) = d.
Proof.
  intros Hs Hv. split.
  - unfold schema_version, jget_or. by rewrite Hs.
  - rewrite od_pop_absent by done. by apply od_set_same.
Qed.

(** The members a migration sets, whatever lists it settles afterwards. *)
Definition current (d : list (string * json)) : Prop :=
  od_get "schema_version" d = Some (JInt 2) ∧ od_get "version" d = None.

Lemma current_set name v d : current d → name ≠ "schema_version" → name ≠ "version" →
  current (od_set name v d).
Proof. intros [? ?] ? ?. split; by rewrite od_get_set_ne. Qed.

Lemma current_default name msg d d' : default_list name msg d = Ok d' → current d →
  name ≠ "schema_version" → name ≠ "version" → current d'.
Proof. intros Hd [? ?] ? ?. split; by rewrite (default_list_get name _ msg d). Qed.

Lemma current_migrate name d d' : migrate_list name d = Ok d' → current d →
  name ≠ "schema_version" → name ≠ "version" → current d'.
Proof. unfold migrate_list. intros (r & _ & [= <-])%bind_Ok. apply current_set. Qed.

Lemma current_start value v : schema_version value = Ok v →
  current (od_set "schema_version" (JInt CURRENT_SCHEMA_VERSION) (od_pop "version" value)).
Proof.
  intros _. split; [by rewrite od_get_set_eq|].
  rewrite od_get_set_ne by done. apply od_get_pop_eq.
Qed.

Lemma migrate_current kind d : current d → migrate_state kind d =
  if bool_decide (kind = "identity")
  then raise_if (negb (match jget "node_id" d, jget "secret" d with
                       | JStr _, JStr _ => true | _, _ => false end)) StateDataError
         "identity state is invalid";;
       Ok d
  else if bool_decide (kind = "trust")
  then d ← default_list "grants" "trust grants state is invalid" d;
       d ← default_list "trusted" "trust trusted state is invalid" d;
       d ← default_list "pending" "trust pending state is invalid" d;
       d ← migrate_list "grants" d;
       d ← migrate_list "trusted" d;
       migrate_list "pending" d
  else if bool_decide (kind = "cluster")
  then default_list "used_invites" "cluster invite state is invalid" d
  else if bool_decide (kind = "routes")
  then routes ← _migrate_single_routes (jget_or "routes" (JList []) d);
       Ok (if od_mem "routes" d then od_set "routes" routes d else d)
  else raise StateDataError ("unknown state kind: " +:+ kind).
Proof. intros [Hs Hv]. unfold migrate_state. by destruct (versioned_again d Hs Hv) as [-> ->]. Qed.

(** A trust document whose three lists are settled is left as it is. *)
Lemma trust_settled d : current d → settled "grants" d → settled "trusted" d → settled "pending" d →
  migrate_state "trust" d = Ok d.
Proof.
  intros Hc Hg Ht Hp. rewrite migrate_current by done. simpl.
  by repeat (rewrite default_settled by done; simpl); repeat (rewrite migrate_settled by done; simpl).
Qed.

(** Migration is idempotent: for every kind and every document that can be migrated, migrating
    the result again gives it unchanged, so a document may be migrated at each load. *)
Theorem migration_is_idempotent kind value d :
  migrate_state kind value = Ok d → migrate_state kind d = Ok d.
Proof.
  unfold migrate_state at 1. intros (v & Hv%current_start & H)%bind_Ok.
  set (d0 := od_set _ _ _) in *. clearbody d0.
  case_bool_decide as K1.
  { repeat res_step. subst d0. rewrite migrate_current, bool_decide_eq_true_2 by done. simpl.
    by match goal with E : negb _ = false |- _ => rewrite E end. }
  case_bool_decide as K2.
  { subst kind. repeat res_step.
    apply trust_settled.
    - repeat match goal with
      | E : migrate_list _ ?x = Ok ?y |- current ?y => apply (current_migrate _ _ _ E); [|done..]
      | E : default_list _ _ ?x = Ok ?y |- current ?y => apply (current_default _ _ _ _ E); [|done..]
      end. done.
    - eapply settled_other; [done..|]. eapply settled_other; [done..|]. by eapply migrate_list_settles.
    - eapply settled_other; [done..|]. by eapply migrate_list_settles.
    - by eapply migrate_list_settles. }
  case_bool_decide as K3.
  { rewrite migrate_current by (by eapply current_default).
    rewrite !bool_decide_eq_false_2, bool_decide_eq_true_2 by done.
    apply default_list_Ok in H as Hl. destruct Hl as (l & Hl).
    unfold default_list, od_mem, jget. by rewrite Hl, Hl. }
  case_bool_decide as K4; [|done].
  repeat res_step.
  assert (Hc : current d).
  { subst d. destruct (od_mem "routes" d0); [|done]. by apply current_set. }
  rewrite migrate_current by done. rewrite !bool_decide_eq_false_2, bool_decide_eq_true_2 by done.
  subst d. unfold od_mem, jget_or in *. destruct (od_get "routes" d0) as [r|] eqn:Hr; simpl in *.
  - rewrite od_get_set_eq. simpl. rewrite (single_routes_idem _ _ Hres). simpl.
    by rewrite od_set_same by apply od_get_set_eq.
  - by rewrite Hr.
Qed.

(** A legacy document with one host per grant. *)
Lemma migration_is_idempotent_witness :
  let old := [("version", JInt 1);
              ("grants", JList [JObj [("host", JStr "10.0.0.1"); ("port", JInt 80)]])] in
  ∃ d, migrate_state "trust" old = Ok d ∧ migrate_state "trust" d = Ok d ∧ od_mem "routes" d = false.
Proof.
  eexists. split; [reflexivity|]. split; [|reflexivity].
  apply (migration_is_idempotent "trust" [("version", JInt 1);
     ("grants", JList [JObj [("host", JStr "10.0.0.1"); ("port", JInt 80)]])]). reflexivity.
Defined.
