(* ===== verification/Stores.v ===== *)
(** * Document stores ([persistence.py])

    JSON, YAML and MessagePack documents over the files of the profile directory.  The parsers and
    printers of the three formats are parameters; what the stores do around them (duplicate keys,
    limits, the conversion of errors, the migration of a legacy file) is the code's. *)

From S2P Require Import Prelude Bytes Disk PyFloat Identity PyJson Documents.

(** ** Names and texts *)

(** What is before the last dot, and the rest. *)
Fixpoint last_dot (name : string) : option (string * string) :=
  match name with
  | EmptyString => None
  | String c rest =>
      match last_dot rest with
      | Some (stem, sfx) => Some (String c stem, sfx)
      | None => if bool_decide (c = Ascii.ascii_of_nat 46) then Some ("", name) else None
      end
  end.
(** [path.stem], [path.suffix] *)
Definition stem_suffix (name : string) : string * string :=
  match last_dot name with
  | Some (stem, sfx) =>
      if bool_decide (stem = "") || bool_decide (sfx = ".") then (name, "") else (stem, sfx)
  | None => (name, "")
  end.
Definition suffix (name : string) : string := (stem_suffix name).2.
Definition with_suffix (name sfx : string) : string := (stem_suffix name).1 +:+ sfx.

(** The code points of a text of the model. *)
Definition points (s : string) : text :=
  (λ c, Z.of_nat (Ascii.nat_of_ascii c)) <$> String.list_ascii_of_string s.

(** Reading in text mode ends every line with a line feed. *)
Fixpoint universal_newlines (t : text) : text :=
  match t with
  | [] => []
  | c :: rest =>
      if (c =? 13)%Z
      then 10%Z :: match rest with
                   | d :: rest' => if (d =? 10)%Z then universal_newlines rest' else universal_newlines rest
                   | [] => []
                   end
      else c :: universal_newlines rest
  end.

(** A file opened in text mode: a chunk that cannot be encoded ends the writing. *)
Fixpoint text_writer (chunks : list text) (ending : result ()) : writer :=
  match chunks with
  | [] => ([], ending)
  | t :: chunks =>
      match utf8_encode t with
      | Ok b => let '(bs, r) := text_writer chunks ending in (b :: bs, r)
      | Err e => ([], Err e)
      end
  end.

(** The text of a file's bytes. *)
Definition decode_text (data : bytes) : result text := universal_newlines <$> utf8_decode data.

(** [except (c1, c2, ...) as error: raise c(msg)] *)
Definition reraise {A} (caught : list exn_class) (m : result A) (c : exn_class) (msg : string) : result A :=
  match m with
  | Err e => if existsb (exn_isa e) caught then raise c msg else Err e
  | Ok a => Ok a
  end.
Definition io_reraise {A} (caught : list exn_class) (m : IO A) (c : exn_class) (msg : string) : IO A :=
  io_except m (λ e, io_lift (if existsb (exn_isa e) caught then raise c msg else Err e)).

(** ** Values of MessagePack *)

Inductive mp :=
  | MNil
  | MBool (b : bool)
  | MInt (z : Z)
  | MFloat (f : float)
  | MStr (s : string)
  | MBin (b : string)
  | MList (l : list mp)
  | MMap (d : list (mp * mp)).

Definition mp_text (v : mp) : option string := match v with MStr s => Some s | _ => None end.
(** A map all of whose keys are texts. *)
Definition text_map (v : mp) : option (list (string * mp)) :=
  match v with
  | MMap d => mapM (λ kv, k ← mp_text kv.1; Some (k, kv.2)) d
  | _ => None
  end.
Definition map_of (d : list (string * mp)) : mp := MMap ((λ kv, (MStr kv.1, kv.2)) <$> d).

(** ** The formats *)

(** [json_parse constant]: the parser of [json] before the pairs of an object become a dict;
    [constant] reads [NaN] and the infinities.  [json_text] is [json.dumps] with its default
    layout.  [unpackb] is called with the limits of the store. *)
Class Codecs := {
  float_text : float → string;
  json_parse : (string → result json) → text → result json;
  json_text : json → result text;
  yaml_dump : json → list text * result ();
  yaml_load : text → result json;
  packb : mp → result bytes;
  unpackb : bytes → result mp }.

(** An [object_pairs_hook] is applied from the inside out. *)
Definition hook_items (hook : json → result json) : list json → result (list json) :=
  fix go l := match l with [] => Ok [] | x :: l => y ← hook x; ys ← go l; Ok (y :: ys) end.
Definition hook_members (hook : json → result json) :
    list (string * json) → result (list (string * json)) :=
  fix go d := match d with [] => Ok [] | kv :: d => y ← hook kv.2; ys ← go d; Ok ((kv.1, y) :: ys) end.
Fixpoint with_hook (hook : list (string * json) → result (list (string * json))) (v : json) : result json :=
  match v with
  | JList l => l' ← hook_items (with_hook hook) l; Ok (JList l')
  | JObj d => d' ← hook_members (with_hook hook) d; d'' ← hook d'; Ok (JObj d'')
  | _ => Ok v
  end.

Definition _reject_json_constant (value : string) : result json :=
  raise ValueError ("non-standard JSON constant: " +:+ value).

Definition _json_object (pairs : list (string * json)) : result (list (string * json)) :=
  foldl (λ r kv, result ← r;
                 if od_mem kv.1 result then raise ValueError "duplicate JSON object key"
                 else Ok (od_set kv.1 kv.2 result)) (Ok []) pairs.

Section stores.
Context `{sys : System} `{codecs : Codecs}.

(** [json.loads(text)]: the last of two equal keys counts. *)
Definition json_loads (constant : string → result json) (t : text) : result json :=
  v ← json_parse constant t; with_hook (λ d, Ok (od_of_list d)) v.
Definition _load_json (t : text) : result json :=
  v ← json_parse _reject_json_constant t; with_hook _json_object v.

Definition read_text (name : string) : IO text :=
  data ← read_bytes name; io_lift (decode_text data).

(** The keys of a document of the model are texts. *)
Definition _save_json_document (path : string) (value : list (string * json)) (sync_directory : bool) : IO () :=
  encoded ← io_lift (reraise [TypeError; ValueError; RecursionError] (dumps float_text true (JObj value))
                       StateDataError "state cannot be encoded as JSON");
  _atomic_write path (text_writer [points encoded] (Ok ())) sync_directory.

Definition yaml_writer (value : list (string * json)) : writer :=
  let '(chunks, ending) := yaml_dump (JObj value) in text_writer chunks ending.

Definition _save_text_document (path : string) (value : list (string * json)) (sync_directory : bool) : IO () :=
  if bool_decide (suffix path = ".json") then _save_json_document path value sync_directory
  else _atomic_write path (yaml_writer value) sync_directory.

(** [migrate_state(self.kind, document) if self.kind else document] *)
Definition migrated (kind : option string) (document : list (string * json)) : result (list (string * json)) :=
  match kind with
  | Some kind => if bool_decide (kind = "") then Ok document else migrate_state kind document
  | None => Ok document
  end.

Definition root_object (v : json) : result (list (string * json)) :=
  of_option (is_obj v) StateDataError "state root must be an object".

Definition undecodable : string := "persisted state cannot be decoded".
Definition json_errors : list exn_class := [OSError; UnicodeDecodeError; ValueError; RecursionError].
End stores.

Module JsonStateStore.
Section store.
Context `{sys : System} `{codecs : Codecs}.
Record t := mk { path : string; kind : option string }.

Definition save (self : t) (value : list (string * json)) : IO () :=
  _save_json_document (path self) value true.
Definition load (self : t) : IO (list (string * json)) :=
  value ← io_reraise json_errors (t ← read_text (path self); io_lift (_load_json t)) StateDataError undecodable;
  document ← io_lift (root_object value);
  io_lift (migrated (kind self) document).
Definition load_migrated (self : t) (kind : string) : IO (list (string * json)) :=
  value ← load self; io_lift (migrate_state kind value).
End store.
End JsonStateStore.

Module YamlStateStore.
Section store.
Context `{sys : System} `{codecs : Codecs}.
Record t := mk { path : string; kind : option string }.

Definition legacy (self : t) : string := with_suffix (path self) ".json".

Definition exists_ (self : t) : IO bool :=
  io_get (λ s, Disk.exists_ s (path self) || Disk.exists_ s (legacy self)).
Definition save (self : t) (value : list (string * json)) : IO () :=
  _save_text_document (path self) value true.

Definition _auto_migrate (self : t) : IO () :=
  here ← io_get (λ s, Disk.exists_ s (path self));
  if here : bool then mret ()
  else
    old ← io_get (λ s, Disk.exists_ s (legacy self));
    if negb old then mret ()
    else
      raw ← io_reraise json_errors (t ← read_text (legacy self); io_lift (_load_json t)) StateDataError undecodable;
      raw ← io_lift (root_object raw);
      _atomic_write (path self) (yaml_writer raw) true.

Definition load (self : t) : IO (list (string * json)) :=
  _auto_migrate self;;
  t ← io_reraise [OSError; UnicodeDecodeError] (read_text (path self)) StateDataError undecodable;
  value ← io_lift (reraise [YAMLError] (yaml_load t) StateDataError undecodable);
  document ← io_lift (root_object value);
  io_lift (migrated (kind self) document).
Definition load_migrated (self : t) (kind : string) : IO (list (string * json)) :=
  value ← load self; io_lift (migrate_state kind value).
End store.
End YamlStateStore.

Module MessagePackStateStore.
Section store.
Context `{sys : System} `{codecs : Codecs}.
Definition MAX_BYTES : Z := 1024 * 1024.

Definition pack_errors : list exn_class := [TypeError; ValueError; UnpackException].

(** The part of [save] under [try]. *)
Definition encode (value : list (string * mp)) : result (bytes * mp) :=
  payload ← packb (map_of value);
  raise_if (MAX_BYTES <? Z.of_nat (length payload))%Z StateDataError "MessagePack state exceeds size limit";;
  decoded ← unpackb payload;
  Ok (payload, decoded).

Definition save (path : string) (value : list (string * mp)) : IO () :=
  '(payload, decoded) ← io_lift (reraise pack_errors (encode value) StateDataError
                                   "state cannot be encoded as MessagePack");
  io_lift (of_option (text_map decoded) StateDataError "MessagePack state must be a string-keyed map");;
  _atomic_write_bytes path payload.

(** What [load] makes of the bytes. *)
Definition decode (payload : bytes) : result (list (string * mp)) :=
  raise_if (MAX_BYTES <? Z.of_nat (length payload))%Z StateDataError "MessagePack state exceeds size limit";;
  value ← reraise pack_errors (unpackb payload) StateDataError "persisted MessagePack state is malformed";
  of_option (text_map value) StateDataError "MessagePack state root must be a string-keyed map".

Definition load (path : string) : IO (list (string * mp)) :=
  payload ← io_reraise [OSError] (read_bytes path) StateDataError "persisted MessagePack state cannot be read";
  io_lift (decode payload).
End store.
End MessagePackStateStore.

(** * What a store saved is what it loads, also after a crash *)

Import Disk(names, inodes, history, calls).

(** ** Duplicate keys *)

Lemma json_object_from (pairs acc : list (string * json)) : NoDup acc.*1 →
  foldl (λ (r : result (list (string * json))) kv, result ← r;
           if od_mem kv.1 result then raise ValueError "duplicate JSON object key"
           else Ok (od_set kv.1 kv.2 result)) (Ok acc) pairs
  = if decide (NoDup (acc ++ pairs).*1) then Ok (acc ++ pairs) else raise ValueError "duplicate JSON object key".
Proof.
  revert acc. induction pairs as [|[k v] pairs IH]; intros acc Hacc.
  { cbn. rewrite app_nil_r. by rewrite decide_True. }
  cbn [foldl]. cbn [mbind result_bind fst snd]. destruct (od_mem k acc) eqn:Hk.
  - replace (foldl _ _ pairs) with (raise ValueError "duplicate JSON object key" : result (list (string * json)))
      by (clear IH; induction pairs; done).
    rewrite decide_False; [done|]. rewrite fmap_app. intros (_ & Hd & _)%NoDup_app.
    unfold od_mem in Hk. destruct (od_get k acc) eqn:Hg; [|done].
    apply (Hd k); [|by left]. apply od_get_elem in Hg. apply list_elem_of_fmap. by exists (k, j).
  - assert (Hfresh : k ∉ acc.*1).
    { apply od_get_None. unfold od_mem in Hk. by destruct (od_get k acc). }
    rewrite od_set_fresh by done. rewrite IH.
    + by rewrite <- app_assoc.
    + rewrite fmap_app. apply NoDup_app. split_and!; [done| |apply NoDup_singleton].
      intros x Hx ->%list_elem_of_singleton. done.
Qed.

(** [_json_object] accepts exactly the objects without a duplicate key, as they are. *)
Lemma json_object_exact (pairs : list (string * json)) :
  _json_object pairs = if decide (NoDup pairs.*1) then Ok pairs else raise ValueError "duplicate JSON object key".
Proof. apply (json_object_from pairs []). constructor. Qed.

(** No object of a value has a key twice. *)
Inductive unique_keys : json → Prop :=
  | unique_leaf v : match v with JList _ | JObj _ => false | _ => true end = true → unique_keys v
  | unique_list l : Forall unique_keys l → unique_keys (JList l)
  | unique_obj d : NoDup d.*1 → Forall (λ kv, unique_keys kv.2) d → unique_keys (JObj d).

Lemma hook_items_id hook l : Forall (λ v, ∀ v', hook v = Ok v' → v' = v ∧ unique_keys v) l →
  ∀ l', hook_items hook l = Ok l' → l' = l ∧ Forall unique_keys l.
Proof.
  induction 1 as [|v l Hv _ IH]; intros l' Hl; [by injection Hl as <-|]. cbn in Hl.
  apply bind_Ok in Hl as (y & Hy & Hl). apply bind_Ok in Hl as (ys & Hys & [= <-]).
  apply Hv in Hy as [-> ?]. apply IH in Hys as [-> ?]. auto.
Qed.
Lemma hook_members_id hook d : Forall (λ kv, ∀ v', hook kv.2 = Ok v' → v' = kv.2 ∧ unique_keys kv.2) d →
  ∀ d', hook_members hook d = Ok d' → d' = d ∧ Forall (λ kv, unique_keys kv.2) d.
Proof.
  induction 1 as [|[k v] d Hv _ IH]; intros d' Hd; [by injection Hd as <-|]. cbn in Hd, Hv.
  apply bind_Ok in Hd as (y & Hy & Hd). apply bind_Ok in Hd as (ys & Hys & [= <-]).
  apply Hv in Hy as [-> ?]. apply IH in Hys as [-> ?]. split; [done|by constructor].
Qed.

(** A document the strict parser accepts has no duplicate key, at any depth, and is the text's. *)
Lemma strict_hook_id v : ∀ v', with_hook _json_object v = Ok v' → v' = v ∧ unique_keys v.
Proof.
  induction v as [| | | | |l IH|d IH] using json_ind'; cbn; try (intros v' [= <-]; split; [done|by constructor]).
  - intros v' H. apply bind_Ok in H as (l' & Hl & [= <-]).
    apply hook_items_id in Hl as [-> Hu]; [|done]. split; [done|by constructor].
  - intros v' H. apply bind_Ok in H as (d' & Hd & H). apply bind_Ok in H as (d'' & Ho & [= <-]).
    apply hook_members_id in Hd as [-> Hu]; [|done]. rewrite json_object_exact in Ho.
    case_decide; [|done]. injection Ho as <-. split; [done|by constructor].
Qed.

(** ** Systems that do their work *)

(** Every call succeeds, and there is a name for a temporary file. *)
Definition healthy (sys : System) : Prop := ∀ n c, os (System := sys) n c = Fine.
Definition room (sys : System) (s : Disk.t) : Prop :=
  ∀ n p, is_Some (first_free (Z.to_nat TMP_MAX) s ("." +:+ p +:+ ".") (drawn (System := sys) n)).

Lemma healthy_never_fails `{sys : System} c : healthy sys → never_fails c.
Proof. intros Hh n k msg. by rewrite Hh. Qed.

Section healthy.
Context `{sys : System} (Hsys : healthy sys).

Lemma healthy_atomic c effect (Q : option (result ()) → Disk.t → Prop) s :
  Q (Some (Ok ())) (effect (tick s)) → iwp (atomic c effect) Q s.
Proof. intros. unfold iwp, atomic, call. by rewrite Hsys. Qed.

Lemma healthy_call {A} c effect partial (Q : option (result A) → Disk.t → Prop) s :
  Q (Some (effect (tick s)).2) (effect (tick s)).1 → iwp (call c effect partial) Q s.
Proof. intros. unfold iwp, call. rewrite Hsys. by destruct (effect (tick s)). Qed.

Lemma healthy_write_all fd chunks (Q : option (result ()) → Disk.t → Prop) s :
  (∀ s', Q (Some (Ok ())) s') → iwp (write_all fd chunks) Q s.
Proof.
  intros HQ. revert s. induction chunks as [|b chunks IH]; intros s; [apply iwp_ret, HQ|].
  apply iwp_bind, healthy_call, IH.
Qed.

End healthy.

Lemma first_free_names n s s' prefix draw : (∀ x, names s' !! (prefix +:+ x) = names s !! (prefix +:+ x)) →
  first_free n s' prefix draw = first_free n s prefix draw.
Proof. intros Hn. induction n as [|n IH]; [done|]. cbn. unfold exists_. by rewrite Hn, IH. Qed.
Lemma room_hidden sys s s' : room sys s → (∀ n, visible n = false → names s' !! n = names s !! n) → room sys s'.
Proof. intros Hr Hn k p. rewrite (first_free_names _ s); [apply Hr|]. intros x. by apply Hn. Qed.

Section write.
Context `{sys : System} (Hsys : healthy sys).

Lemma iwp_and {A} (m : IO A) (Q Q' : option (result A) → Disk.t → Prop) s :
  iwp m Q s → iwp m Q' s → iwp m (λ o s', Q o s' ∧ Q' o s') s.
Proof. done. Qed.

Lemma healthy_sync_parent (Q : option (result ()) → Disk.t → Prop) s :
  (∀ s', Q (Some (Ok ())) s') → iwp sync_parent Q s.
Proof.
  intros HQ. apply iwp_bind, iwp_except, iwp_bind, healthy_atomic, iwp_ret; [done|].
  apply iwp_finally, iwp_except, healthy_atomic; [done|]. by apply healthy_atomic.
Qed.

Lemma healthy_mkstemp p (Q : option (result (nat * string)) → Disk.t → Prop) s : room sys s →
  (∀ fd t s', Q (Some (Ok (fd, t))) s') → iwp (mkstemp ("." +:+ p +:+ ".")) Q s.
Proof.
  intros Hr HQ. unfold iwp, mkstemp, call. rewrite Hsys. destruct (Hr (calls s) p) as [t Ht].
  rewrite (first_free_names _ s) by done. rewrite Ht. apply HQ.
Qed.

Lemma healthy_returns path w m sync s : room sys s →
  iwp (_atomic_write_stream path w m sync) (λ o _, o = Some w.2) s.
Proof.
  intros Hr. apply iwp_bind, healthy_atomic; [done|].
  apply iwp_bind, healthy_mkstemp; [by eapply room_hidden|]. intros fd t s0. cbv beta iota.
  apply iwp_finally, iwp_bind, iwp_except, healthy_atomic; [done|]. cbv iota.
  assert (Hend : ∀ s' r, r = w.2 → iwp (left ← io_get (λ s, exists_ s t); if left : bool then unlink t else mret ())
    (λ u s'', match u with
              | Some (Ok _) => Some r = Some w.2
              | Some (Err e) => Some (Err e) = Some w.2
              | None => None = Some w.2
              end) s').
  { intros s' r ->. apply iwp_bind, iwp_get. destruct (exists_ s' t); [by apply healthy_atomic|by apply iwp_ret]. }
  apply iwp_bind, iwp_finally, iwp_bind, iwp_bind, healthy_write_all; [done|]. intros s1. apply iwp_lift.
  destruct w.2 as [[]|e].
  - apply iwp_bind, healthy_atomic, healthy_atomic, healthy_atomic; [done..|]. cbv iota.
    apply iwp_bind, healthy_atomic; [done|]. apply iwp_bind, healthy_atomic; [done|].
    destruct (sync && has_O_DIRECTORY); cbv iota; [apply healthy_sync_parent|apply iwp_ret]; intros; by apply Hend.
  - apply healthy_atomic; [done|]. cbv iota. by apply Hend.
Qed.

Lemma healthy_write path w m sync (Q : option (result ()) → Disk.t → Prop) s :
  stable s → visible path = true → room sys s → w.2 = Ok () →
  (∀ s', written path (concat w.1) s s' → room sys s' → (sync && has_O_DIRECTORY = true → flushed s') →
         Q (Some (Ok ())) s') → iwp (_atomic_write_stream path w m sync) Q s.
Proof.
  intros Hs Hp Hr Hw HQ.
  eapply iwp_mono; [apply iwp_and; [by apply healthy_returns|by apply wp_atomic_write]|].
  intros o s' [-> He]. rewrite Hw in *. pose proof (ended_views _ _ _ _ _ _ _ Hs Hp He) as (_ & Hwr & Hset). apply HQ; [done| |].
  - eapply room_hidden; [done|]. intros n Hn. eapply ended_names; [done|done|by apply healthy_never_fails|].
    intros ->. by rewrite Hn in Hp.
  - eauto using healthy_never_fails.
Qed.

Lemma healthy_read name (Q : option (result bytes) → Disk.t → Prop) s :
  Q (Some (of_option (file s name) OSError "No such file or directory")) (tick s) → iwp (read_bytes name) Q s.
Proof. intros. by apply healthy_call. Qed.

(** What a file holds, as text. *)
Definition text_of (c : option bytes) : result text :=
  data ← of_option c OSError "No such file or directory"; decode_text data.

Lemma healthy_read_text name (Q : option (result text) → Disk.t → Prop) s :
  Q (Some (text_of (file s name))) (tick s) → iwp (read_text name) Q s.
Proof.
  intros HQ. apply iwp_bind, healthy_read. unfold text_of in HQ.
  destruct (file s name) as [data|]; cbn in *; [by apply iwp_lift|done].
Qed.

Lemma iwp_reraise {A} caught (m : IO A) c msg (Q : option (result A) → Disk.t → Prop) s :
  iwp m (λ o s', Q (match o with Some r => Some (reraise caught r c msg) | None => None end) s') s →
  iwp (io_reraise caught m c msg) Q s.
Proof.
  intros Hm. apply iwp_except. eapply iwp_mono; [exact Hm|].
  intros [[a|e]|] s'; [done| |done]. cbn. intros HQ. by apply iwp_lift.
Qed.

(** Steps of the result monad run one after another are one. *)
Lemma iwp_lift_bind {A B} (r : result A) (f : A → IO B) (Q : option (result B) → Disk.t → Prop) s :
  match r with Ok a => iwp (f a) Q s | Err e => Q (Some (Err e)) s end → iwp (io_lift r ≫= f) Q s.
Proof. intros H. apply iwp_bind, iwp_lift. by destruct r. Qed.
End write.

(** ** The YAML store *)

Section yaml.
Context `{codecs : Codecs}.
Import YamlStateStore(path, kind, legacy).
Implicit Types self : YamlStateStore.t.

(** What [load] makes of the file's bytes, and of the two files. *)
Definition reads self (data : bytes) : result (list (string * json)) :=
  t ← reraise [OSError; UnicodeDecodeError] (decode_text data) StateDataError undecodable;
  value ← reraise [YAMLError] (yaml_load t) StateDataError undecodable;
  document ← root_object value;
  migrated (kind self) document.

Definition legacy_document (c : option bytes) : result (list (string * json)) :=
  raw ← reraise json_errors (t ← text_of c; _load_json t) StateDataError undecodable;
  root_object raw.

Definition loads self (c old : option bytes) : result (list (string * json)) :=
  match c, old with
  | Some data, _ => reads self data
  | None, None => raise StateDataError undecodable
  | None, Some _ => raw ← legacy_document old; (yaml_writer raw).2;; reads self (concat (yaml_writer raw).1)
  end.

Lemma file_exists s n : stable s → visible n = true → exists_ s n = bool_decide (is_Some (file s n)).
Proof.
  intros Hs Hv. apply bool_decide_ext. unfold file. destruct (names s !! n) as [i|] eqn:E; cbn.
  - destruct (Hs (names s) n i ltac:(left) Hv E) as (f & -> & _). split; eauto.
  - split; intros []; done.
Qed.

Context (sys : System) (Hsys : healthy sys).

Lemma load_file self s (Q : option (result (list (string * json))) → Disk.t → Prop) :
  Q (Some (match file s (path self) with Some data => reads self data | None => raise StateDataError undecodable end))
    (tick s) →
  iwp (t ← io_reraise [OSError; UnicodeDecodeError] (read_text (path self)) StateDataError undecodable;
       value ← io_lift (reraise [YAMLError] (yaml_load t) StateDataError undecodable);
       document ← io_lift (root_object value);
       io_lift (migrated (kind self) document)) Q s.
Proof.
  intros HQ. apply iwp_bind, iwp_reraise, healthy_read_text; [done|].
  unfold text_of. destruct (file s (path self)) as [data|]; [|exact HQ]. unfold reads in HQ. cbn [of_option mbind result_bind].
  destruct (reraise _ (decode_text data) _ _) as [t|e]; [|exact HQ]. apply iwp_lift_bind.
  cbn [mbind result_bind] in HQ.
  destruct (reraise _ (yaml_load t) _ _) as [v|e]; [|exact HQ]. apply iwp_lift_bind. cbn [mbind result_bind] in HQ.
  destruct (root_object v); [|exact HQ]. by apply iwp_lift.
Qed.

Lemma healthy_load self s : stable s → room sys s → visible (path self) = true → visible (legacy self) = true →
  iwp (YamlStateStore.load self) (λ o _, o = Some (loads self (file s (path self)) (file s (legacy self)))) s.
Proof.
  intros Hs Hr Hp Hl. apply iwp_bind, iwp_bind, iwp_get. rewrite file_exists by done.
  destruct (file s (path self)) as [data|] eqn:Hf.
  { apply iwp_ret, load_file. by rewrite Hf. }
  cbn [bool_decide]. rewrite bool_decide_eq_false_2 by (by intros []).
  apply iwp_bind, iwp_get. rewrite file_exists by done. destruct (file s (legacy self)) as [old|] eqn:Ho.
  2: { apply iwp_ret, load_file. by rewrite Hf. }
  apply iwp_bind, iwp_reraise, iwp_bind, healthy_read_text; [done|]. rewrite Ho. cbn [loads].
  unfold legacy_document. destruct (text_of (Some old)) as [t|e] eqn:Ht; cbn [mbind result_bind].
  2: { unfold reraise. by destruct (existsb (exn_isa e) json_errors). }
  apply iwp_lift. destruct (reraise json_errors (_load_json t) _ _) as [raw|e]; cbn [mbind result_bind]; [|done].
  apply iwp_lift_bind. destruct (root_object raw) as [raw'|e]; [|done]. cbn [mbind result_bind].
  destruct (yaml_writer raw').2 as [[]|e] eqn:Hw.
  - apply healthy_write; [done..|by eapply room_hidden|done|]. intros s' [_ Hf' _ _ _] _ _. apply load_file.
    by rewrite Hf'.
  - eapply iwp_mono; [apply healthy_returns; [done|by eapply room_hidden]|]. intros o s' ->. by rewrite Hw.
Qed.
End yaml.

Lemma last_dot_app name stem sfx : last_dot name = Some (stem, sfx) → name = stem +:+ sfx.
Proof.
  revert stem. induction name as [|c name IH]; intros stem; cbn; [done|].
  destruct (last_dot name) as [[st sf]|].
  - intros [= <- <-]. cbn. by rewrite (IH st).
  - case_bool_decide; [|done]. by intros [= <- <-].
Qed.
Lemma stem_suffix_app name : name = (stem_suffix name).1 +:+ suffix name.
Proof.
  assert (He : ∀ x, x = x +:+ "").
  { intros x. induction x as [|c x IH]; [done|]. apply (f_equal (String c)), IH. }
  unfold suffix, stem_suffix. destruct (last_dot name) as [[stem sfx]|] eqn:E; [|apply He].
  destruct (_ || _); [apply He|]. by apply last_dot_app.
Qed.
Lemma app_inj a b c : a +:+ b = a +:+ c → b = c.
Proof. induction a as [|x a IH]; cbn; [done|]. intros [= H]. auto. Qed.
Lemma with_suffix_ne name sfx : suffix name ≠ sfx → with_suffix name sfx ≠ name.
Proof.
  intros Hne E. apply Hne. unfold with_suffix in E. rewrite (stem_suffix_app name) in E at 2.
  symmetry. by apply app_inj in E.
Qed.

Section crash.
Context `{codecs : Codecs} (run rec : System).
Import YamlStateStore(path, kind, legacy).

(** C18. A document that was saved survives.  Whatever fails and wherever the process is killed
    while a YAML document is saved: after a crash, of the process or of the machine, a load gives
    what it gave before the save, or the new document, migrated; the new one, once the save has
    returned and the directory could be synchronised; the one before, if the save raised. *)
Theorem save_survives_crash self value d s :
  stable s → flushed s → visible (path self) = true → visible (legacy self) = true → suffix (path self) ≠ ".json" →
  (decode_text (concat (yaml_writer value).1) ≫= yaml_load) = Ok (JObj d) → healthy rec → room rec s →
  let '(s', o) := YamlStateStore.save (sys := run) self value s in
  ∀ s'', crash s' s'' → room rec s'' →
    let before := (YamlStateStore.load (sys := rec) self s).2 in
    let loaded := (YamlStateStore.load (sys := rec) self s'').2 in
    (loaded = before ∨ loaded = Some (migrated (kind self) d)) ∧
    (o = Some (Ok ()) → has_O_DIRECTORY (System := run) = true →
       never_fails (sys := run) OpenDir → never_fails (sys := run) FsyncDir → loaded = Some (migrated (kind self) d)) ∧
    (∀ e, o = Some (Err e) → never_fails (sys := run) CloseDir → loaded = before).
Proof.
  intros Hs Hfl Hp Hl Hsfx Hback Hrec Hroom.
  destruct (YamlStateStore.save self value s) as [s' o] eqn:E. intros s'' Hc Hroom''.
  assert (Ho : outcome_of (sys := run) (path self) (yaml_writer value) true s o s').
  { eapply (iwp_run _ _ _ _ _ (wp_write _ _ 384 _ _ _ Hs Hp (λ _ _ H, H))).
    rewrite <- E. unfold YamlStateStore.save, _save_text_document. by rewrite bool_decide_eq_false_2. }
  assert (Hlp : legacy self ≠ path self) by by apply with_suffix_ne.
  assert (Hnew : reads self (concat (yaml_writer value).1) = migrated (kind self) d).
  { unfold reads. destruct (decode_text _) as [t|]; [|done]. cbn in *.
    destruct (yaml_load t); [|done]. cbn in *. by simplify_eq. }
  assert (Hload : ∀ s c, stable s → room rec s → loads self (file s (path self)) (file s (legacy self)) = c →
    (YamlStateStore.load (sys := rec) self s).2 = Some c).
  { intros ? ? ? ? <-. by apply (healthy_load rec Hrec). }
  assert (Hs'' : stable s'').
  { eapply crash_stable; [|done]. destruct o as [[[]|e]|]; [apply Ho|destruct Ho as [H|(_ & H & _)]|destruct Ho as [H|(_ & H)]];
      apply H. }
  cbv zeta. rewrite (Hload s _ Hs Hroom eq_refl), (Hload s'' _ Hs'' Hroom'' eq_refl).
  assert (Hk : kept s s' → loads self (file s'' (path self)) (file s'' (legacy self))
                         = loads self (file s (path self)) (file s (legacy self))).
  { intros Hk. by rewrite !(kept_crash s s' s''). }
  assert (Hw : written (path self) (concat (yaml_writer value).1) s s' →
    (loads self (file s'' (path self)) (file s'' (legacy self)) = loads self (file s (path self)) (file s (legacy self))
     ∨ loads self (file s'' (path self)) (file s'' (legacy self)) = migrated (kind self) d) ∧
    (flushed s' → loads self (file s'' (path self)) (file s'' (legacy self)) = migrated (kind self) d)).
  { intros Hw. destruct (written_crash _ _ _ _ _ Hfl Hp Hw Hc) as (H1 & H2 & H3). rewrite (H3 (legacy self)) by done.
    rewrite <- Hnew. split; [destruct H1 as [-> | ->]; auto|]. intros Hf. by rewrite H2. }
  split_and!.
  - assert (H : kept s s' ∨ written (path self) (concat (yaml_writer value).1) s s').
    { destruct o as [[[]|e]|]; [right; apply Ho|destruct Ho as [?|(_ & ? & _)]; auto|destruct Ho as [?|(_ & ?)]; auto]. }
    destruct H as [H|H]; [left; by rewrite Hk|].
    destruct (proj1 (Hw H)) as [-> | ->]; [by left|by right].
  - intros -> Hd H1 H2. destruct Ho as (_ & Hwr & Hset). f_equal. apply (proj2 (Hw Hwr)). by apply Hset.
  - intros e -> Hcl. destruct Ho as [Hk'|(_ & _ & ?)]; [|done]. f_equal. by apply Hk.
Qed.
End crash.

(** A codec whose documents hold one number, and a system that does its work. *)
Definition sample_codecs : Codecs := {|
  float_text := λ _, "0.0";
  json_parse := λ _ _, raise ValueError "no JSON here";
  json_text := λ _, raise ValueError "no JSON here";
  yaml_dump := λ v, match v with JObj [("n", JInt z)] => ([[z]], Ok ()) | _ => ([], raise YAMLError "") end;
  yaml_load := λ t, match t with [z] => Ok (JObj [("n", JInt z)]) | _ => raise YAMLError "" end;
  packb := λ _, raise TypeError "";
  unpackb := λ _, raise ValueError "" |}.
Definition sample_system : System := {| os := λ _ _, Fine; drawn := λ _ _, "x"; has_O_DIRECTORY := true |}.
Definition sample_store : YamlStateStore.t := YamlStateStore.mk "trust.yaml" None.

Lemma room_clean sys s : (∀ n, visible n = false → names s !! n = None) → room sys s.
Proof.
  intros Hn k p. rewrite <- (Nat.succ_pred_pos (Z.to_nat TMP_MAX)) by (by vm_compute; lia). cbn [first_free].
  unfold exists_. rewrite Hn by done. rewrite bool_decide_eq_false_2 by (by intros []). eauto.
Qed.
Lemma sample_flushed : flushed sample_disk.
Proof. by apply flushed_intro. Qed.
Lemma sample_room : room sample_system sample_disk.
Proof.
  apply room_clean. intros n Hn. apply lookup_singleton_None. by intros <-.
Qed.

(** Killed before the directory is synchronised: the old number or the new one. *)
Lemma save_survives_crash_witness :
  let '(s', o) := YamlStateStore.save (sys := killed_at FsyncDir) (codecs := sample_codecs) sample_store
                    [("n", JInt 98)] sample_disk in
  ∀ s'', crash s' s'' → room sample_system s'' →
    let loaded := (YamlStateStore.load (sys := sample_system) (codecs := sample_codecs) sample_store s'').2 in
    loaded = Some (Ok [("n", JInt 97)]) ∨ loaded = Some (Ok [("n", JInt 98)]).
Proof.
  pose proof (save_survives_crash (codecs := sample_codecs) (killed_at FsyncDir) sample_system sample_store [("n", JInt 98)]
    [("n", JInt 98)] sample_disk sample_stable sample_flushed eq_refl eq_refl ltac:(by vm_compute) ltac:(by vm_compute)
    (λ _ _, eq_refl) sample_room) as H.
  destruct (YamlStateStore.save sample_store _ sample_disk) as [s' o]. intros s'' Hc Hr.
  destruct (H s'' Hc Hr) as [[H'|H'] _]; [left|by right].
  etransitivity; [exact H'|]. by vm_compute.
Defined.
