(* ===== verification/TrustCodec.v ===== *)
(** * The stored form of trust ([runtime/persistence.py])

    Grants, trusted peers and pending transactions as JSON objects, and the document
    [trust.yaml] the runtime saves and loads ([runtime/core.py]). *)

From S2P Require Import Prelude PyFloat Identity PyJson Wire StateCodec Pairing Documents.
Import Material(identity_fingerprint, transport_fingerprint, root_public_key, transport_generation,
  transport_proof).

(** [sorted(str(p) for p in permissions)] *)
Definition permissions_to_json (permissions : gset Permission.t) : json :=
  JList (JStr <$> sorted str_leb (Permission.str <$> elements permissions)).

(** The five members every stored peer ends with. *)
Definition material_to_json (m : Material.t) : list (string * json) :=
  let text (o : option string) := match o with Some s => JStr s | None => JNull end in
  [("identity_fingerprint", text (identity_fingerprint m));
   ("transport_fingerprint", text (transport_fingerprint m));
   ("root_public_key", text (root_public_key m));
   ("transport_generation", match transport_generation m with Some g => JInt g | None => JNull end);
   ("transport_proof", text (transport_proof m))].

Definition peer_grant_to_json (g : PeerGrant.t) : json :=
  JObj ([("caller_id", JStr (value (PeerGrant.caller_id g))); ("secret", JStr (PeerGrant.secret g));
         ("permissions", permissions_to_json (PeerGrant.permissions g))]
        ++ material_to_json (PeerGrant.material g)).

Definition trusted_peer_to_json (p : TrustedPeer.t) : json :=
  JObj ([("peer_id", JStr (value (TrustedPeer.peer_id p))); ("secret", JStr (TrustedPeer.secret p));
         ("permissions", permissions_to_json (TrustedPeer.permissions p))]
        ++ material_to_json (TrustedPeer.material p)).

Definition pending_pairing_to_json (p : PendingPairing.t) (permissions : gset string) : json :=
  JObj ([("transaction_id", JStr (PendingPairing.transaction_id p));
         ("peer_id", JStr (value (PendingPairing.peer_id p))); ("secret", JStr (PendingPairing.secret p));
         ("expires_at", JFloat (PendingPairing.expires_at p))]
        ++ material_to_json (PendingPairing.material p)
        ++ [("direction", JStr (PendingPairing.direction p)); ("intent", JStr (PendingPairing.intent p));
            ("permissions", permissions_to_json (Permission.texts permissions))]).

(** [bytes.fromhex(value)] has 32 bytes; blanks do not count. *)
Definition validate_secret (v : json) : result () :=
  match v with
  | JStr s =>
      raise_if (negb (py_len s =? 64)%Z) ValueError "persisted peer secret is invalid";;
      raise_if (negb (fromhex_ok (String.list_ascii_of_string s))) ValueError
        "persisted peer secret is invalid";;
      raise_if (negb (Nat.eqb (length (List.filter is_hex (String.list_ascii_of_string s)) / 2) 32))
        ValueError "persisted peer secret is invalid"
  | _ => raise ValueError "persisted peer secret is invalid"
  end.

Definition permissions_from_json (v : json) : result (gset string) :=
  texts ← of_option (is_list v ≫= all_str) TypeError "persisted permissions are invalid";
  raise_if (existsb (λ s, negb (bool_decide (s ∈ NodePermission.value <$> NodePermission.all))) texts)
    ValueError "persisted permissions contain an unknown value";;
  Ok (list_to_set texts).

Definition optional_generation (v : json) : result (option Z) :=
  match v with
  | JNull => Ok None
  | JInt g => raise_if (g <? 1)%Z TypeError "persisted transport generation is invalid";; Ok (Some g)
  | _ => raise TypeError "persisted transport generation is invalid"
  end.

Section read.
Context (float_repr : float → string) (container_repr : json → string).
Notation str := (py_str float_repr container_repr).

Definition optional_text (v : json) : result (option string) := optional str v.

Definition material_from_json (d : list (string * json)) : result Material.t :=
  identity ← optional_text (jget "identity_fingerprint" d);
  transport ← optional_text (jget "transport_fingerprint" d);
  root ← optional_text (jget "root_public_key" d);
  generation ← optional_generation (jget "transport_generation" d);
  proof ← optional_text (jget "transport_proof" d);
  Ok (Material.mk identity transport root generation proof).

(** [NodeId(str(value[key]))] and [str(value["secret"])] *)
Definition node_at (key : string) (d : list (string * json)) : result NodeId :=
  v ← index key d; s ← str v; NodeId.__post_init__ s.
Definition text_of (key : string) (d : list (string * json)) : result string := v ← index key d; str v.

Definition peer_grant_from_json (v : json) : result PeerGrant.t :=
  d ← of_option (is_obj v) TypeError "persisted grant must be an object";
  permissions ← permissions_from_json (jget "permissions" d);
  validate_secret (jget "secret" d);;
  caller ← node_at "caller_id" d;
  secret ← text_of "secret" d;
  material ← material_from_json d;
  Ok (PeerGrant.mk caller secret (Permission.texts permissions) material).

Definition trusted_peer_from_json (v : json) : result TrustedPeer.t :=
  d ← of_option (is_obj v) TypeError "persisted trusted peer must be an object";
  permissions ← permissions_from_json (jget "permissions" d);
  validate_secret (jget "secret" d);;
  peer ← node_at "peer_id" d;
  secret ← text_of "secret" d;
  material ← material_from_json d;
  Ok (TrustedPeer.mk peer secret (Permission.texts permissions) material).

(** One of the texts of a list. *)
Definition choice (v : json) (l : list string) (msg : string) : result string :=
  match v with
  | JStr s => raise_if (negb (bool_decide (s ∈ l))) TypeError msg;; Ok s
  | _ => raise TypeError msg
  end.

Definition pending_pairing_from_json (v : json) : result (PendingPairing.t * gset string) :=
  d ← of_option (is_obj v) TypeError "persisted pending pairing must be an object";
  expires_at ← index "expires_at" d;
  raise_if (negb (is_number expires_at)) TypeError "persisted pending pairing expiry is invalid";;
  expires_at ← to_float expires_at;
  raise_if (negb (isfinite expires_at)) TypeError "persisted pending pairing expiry is invalid";;
  validate_secret (jget "secret" d);;
  let permissions := jget_or "permissions" (JList []) d in
  _ ← of_option (is_list permissions ≫= all_str) TypeError "persisted pending pairing permissions are invalid";
  direction ← choice (jget_or "direction" (JStr "outbound") d) DIRECTIONS
                "persisted pending pairing direction is invalid";
  intent ← choice (jget_or "intent" (JStr "pair") d) INTENTS "persisted pending pairing intent is invalid";
  transaction ← text_of "transaction_id" d;
  peer ← node_at "peer_id" d;
  secret ← text_of "secret" d;
  material ← material_from_json d;
  pending ← PendingPairing.__post_init__
              (PendingPairing.mk transaction peer secret expires_at material direction intent);
  permissions ← permissions_from_json permissions;
  Ok (pending, permissions).

(** ** The document *)

(** What the runtime stores of a pairing manager: the permissions asked for are kept by
    transaction, next to it. *)
Definition trust_document (m : PairingManager.t) (permissions : gmap string (gset string))
    : list (string * json) :=
  [("schema_version", JInt 2);
   ("grants", JList (peer_grant_to_json <$> (map_to_list (PairingManager.grants m)).*2));
   ("trusted", JList (trusted_peer_to_json <$> (map_to_list (PairingManager.trusted m)).*2));
   ("pending", JList ((λ kp, pending_pairing_to_json kp.2
                               (default ∅ (permissions !! PendingPairing.transaction_id kp.2)))
                        <$> PairingManager.pending m))].

(** [document.get(name, [])] is iterated. *)
Definition items (name : string) (d : list (string * json)) : result (list json) :=
  py_iter (jget_or name (JList []) d).

(** Filling the empty manager and the permissions from a loaded document. *)
Definition load_trust (d : list (string * json)) (m : PairingManager.t)
    : result (PairingManager.t * gmap string (gset string)) :=
  raw ← items "grants" d;
  grants ← mapM peer_grant_from_json raw;
  let m := PairingManager.set_grants m
             (foldl (λ g x, <[PeerGrant.caller_id x := x]> g) (PairingManager.grants m) grants) in
  raw ← items "trusted" d;
  trusted ← mapM trusted_peer_from_json raw;
  let m := PairingManager.set_trusted m
             (foldl (λ g x, <[TrustedPeer.peer_id x := x]> g) (PairingManager.trusted m) trusted) in
  raw ← items "pending" d;
  pending ← mapM pending_pairing_from_json raw;
  Ok (PairingManager.set_pending m
        (foldl (λ g x, od_set (PendingPairing.transaction_id x.1) x.1 g) (PairingManager.pending m) pending),
      foldl (λ g x, <[PendingPairing.transaction_id x.1 := x.2]> g) (∅ : gmap string (gset string)) pending).
End read.
