(* ===== verification/TrustCodecSpec.v ===== *)
(** * Saved trust reads back

    What the runtime stores of a pairing manager, migrated and loaded, is that manager and
    the permissions asked for by each open transaction. *)

From S2P Require Import Prelude PyFloat Identity PyJson Wire StateCodec Pairing Documents TrustCodec.
Import Material(identity_fingerprint, transport_fingerprint, root_public_key, transport_generation,
  transport_proof).

(** Texts, not members of the enumeration, and each the value of one. *)
Definition known_permissions (X : gset Permission.t) : Prop :=
  ∀ p, p ∈ X → ∃ s, p = Permission.Text s ∧ s ∈ NodePermission.value <$> NodePermission.all.

(** What every stored peer satisfies. *)
Record storable (n : NodeId) (secret : string) (permissions : gset Permission.t) (m : Material.t) : Prop := {
  storable_node : NodeId.valid n;
  storable_secret : validate_secret (JStr secret) = Ok ();
  storable_permissions : known_permissions permissions;
  storable_generation : ∀ g, transport_generation m = Some g → (1 ≤ g)%Z }.

Record storable_trust (m : PairingManager.t) (permissions : gmap string (gset string)) : Prop := {
  trust_grants : ∀ k g, PairingManager.grants m !! k = Some g →
    PeerGrant.caller_id g = k ∧ storable k (PeerGrant.secret g) (PeerGrant.permissions g) (PeerGrant.material g);
  trust_trusted : ∀ k p, PairingManager.trusted m !! k = Some p →
    TrustedPeer.peer_id p = k ∧ storable k (TrustedPeer.secret p) (TrustedPeer.permissions p) (TrustedPeer.material p);
  trust_pending_keys : NoDup (PairingManager.pending m).*1;
  trust_pending : ∀ k p, (k, p) ∈ PairingManager.pending m →
    PendingPairing.transaction_id p = k ∧ PendingPairing.__post_init__ p = Ok p ∧
    isfinite (PendingPairing.expires_at p) = true ∧
    storable (PendingPairing.peer_id p) (PendingPairing.secret p) (Permission.texts (default ∅ (permissions !! k)))
      (PendingPairing.material p) }.

Section spec.
Context (float_repr : float → string) (container_repr : json → string).

#[local] Arguments validate_secret : simpl never.

(** ** The parts *)

Lemma known_texts X : known_permissions X → X = Permission.texts (Permission.values X).
Proof.
  intros Hk. apply set_eq. intros p. unfold Permission.texts, Permission.values. rewrite elem_of_map. split.
  - intros Hp. destruct (Hk p Hp) as (s & -> & _). exists s. split; [done|]. apply elem_of_map. by exists (Permission.Text s).
  - intros (s & -> & (q & -> & Hq)%elem_of_map). by destruct (Hk q Hq) as (s & -> & _).
Qed.

Lemma permissions_read X : known_permissions X →
  permissions_from_json (permissions_to_json X) = Ok (Permission.values X).
Proof.
  intros Hk. unfold permissions_from_json, permissions_to_json. cbn [is_list mbind option_bind].
  rewrite all_str_texts. simpl. rewrite (proj2 (existsb_false_iff _ _)).
  - simpl. f_equal. apply set_eq. intros s. rewrite elem_of_list_to_set, sorted_perm.
    unfold Permission.values. rewrite list_elem_of_fmap, elem_of_map.
    split; intros (p & -> & Hp); exists p; rewrite elem_of_elements in *; (split; [|done]);
      by destruct (Hk p Hp) as (s & -> & _).
  - intros s. rewrite sorted_perm, list_elem_of_fmap. intros (p & -> & Hp%elem_of_elements).
    destruct (Hk p Hp) as (t & -> & Ht). by rewrite bool_decide_eq_true_2.
Qed.

Lemma permissions_texts X :
  is_list (permissions_to_json X) ≫= all_str = Some (sorted str_leb (Permission.str <$> elements X)).
Proof. unfold permissions_to_json. cbn [is_list mbind option_bind]. apply all_str_texts. Qed.

Lemma generation_read m : (∀ g, transport_generation m = Some g → (1 ≤ g)%Z) →
  optional_generation (match transport_generation m with Some g => JInt g | None => JNull end)
  = Ok (transport_generation m).
Proof.
  destruct (transport_generation m) as [g|]; [|done]. intros Hg. simpl.
  destruct (g <? 1)%Z eqn:E; [|done]. specialize (Hg g eq_refl). lia.
Qed.

(** The five members, read from any object that ends with them. *)
Lemma material_read m d : (∀ g, transport_generation m = Some g → (1 ≤ g)%Z) →
  Forall (λ k, jget k d = jget k (material_to_json m)) (material_to_json m).*1 →
  material_from_json float_repr container_repr d = Ok m.
Proof.
  intros Hg Hd. unfold material_to_json in Hd. cbn [fmap list_fmap fst] in Hd.
  repeat match goal with H : Forall _ (_ :: _) |- _ => apply Forall_cons in H as [? H] end.
  unfold material_from_json.
  repeat match goal with H : jget _ d = _ |- _ => rewrite H; clear H end.
  destruct m as [i t r g p]. unfold jget. simpl in *. unfold optional_text, optional.
  pose proof (generation_read (Material.mk i t r g p) Hg) as Hgen. simpl in Hgen.
  destruct i, t, r; simpl; rewrite Hgen; simpl; by destruct p.
Qed.

Lemma grant_read g : storable (PeerGrant.caller_id g) (PeerGrant.secret g) (PeerGrant.permissions g)
    (PeerGrant.material g) →
  peer_grant_from_json float_repr container_repr (peer_grant_to_json g) = Ok g.
Proof.
  intros [Hn Hs Hp Hg]. destruct g as [[c] secret perms m]. simpl in *.
  unfold peer_grant_from_json, peer_grant_to_json. cbn [is_obj of_option mbind result_bind].
  change (jget "permissions" _) with (permissions_to_json perms). rewrite permissions_read by done.
  cbn [mbind result_bind]. change (jget "secret" _) with (JStr secret). rewrite Hs. cbn [mbind result_bind].
  unfold node_at, text_of, index. simpl. unfold NodeId.valid in Hn. simpl in Hn. rewrite Hn. simpl.
  rewrite (material_read m) by (try done; repeat constructor). cbn [mbind result_bind].
  by rewrite <- known_texts.
Qed.

Lemma trusted_read p : storable (TrustedPeer.peer_id p) (TrustedPeer.secret p) (TrustedPeer.permissions p)
    (TrustedPeer.material p) →
  trusted_peer_from_json float_repr container_repr (trusted_peer_to_json p) = Ok p.
Proof.
  intros [Hn Hs Hp Hg]. destruct p as [[c] secret perms m]. simpl in *.
  unfold trusted_peer_from_json, trusted_peer_to_json. cbn [is_obj of_option mbind result_bind].
  change (jget "permissions" _) with (permissions_to_json perms). rewrite permissions_read by done.
  cbn [mbind result_bind]. change (jget "secret" _) with (JStr secret). rewrite Hs. cbn [mbind result_bind].
  unfold node_at, text_of, index. simpl. unfold NodeId.valid in Hn. simpl in Hn. rewrite Hn. simpl.
  rewrite (material_read m) by (try done; repeat constructor). cbn [mbind result_bind].
  by rewrite <- known_texts.
Qed.

Lemma pending_read p permissions : PendingPairing.__post_init__ p = Ok p →
  isfinite (PendingPairing.expires_at p) = true →
  storable (PendingPairing.peer_id p) (PendingPairing.secret p) (Permission.texts permissions) (PendingPairing.material p) →
  pending_pairing_from_json float_repr container_repr (pending_pairing_to_json p permissions)
  = Ok (p, permissions).
Proof.
  intros Hi Hf [Hn Hs Hp Hg]. destruct p as [tid [c] secret x m dir intent]. simpl in *.
  unfold pending_pairing_from_json, pending_pairing_to_json. cbn [is_obj of_option mbind result_bind].
  change (index "expires_at" _) with (Ok (JFloat x)). cbn [mbind result_bind is_number negb raise_if to_float].
  rewrite Hf. cbn [negb raise_if mbind result_bind].
  change (jget "secret" _) with (JStr secret). rewrite Hs. cbn [mbind result_bind].
  change (jget_or "permissions" _ _) with (permissions_to_json (Permission.texts permissions)). rewrite permissions_texts.
  cbn [mbind result_bind of_option].
  change (jget_or "direction" _ _) with (JStr dir). change (jget_or "intent" _ _) with (JStr intent).
  assert (dir ∈ DIRECTIONS ∧ intent ∈ INTENTS) as [Hdir Hint].
  { unfold PendingPairing.__post_init__ in Hi. simpl in Hi. by repeat case_bool_decide. }
  unfold choice. rewrite !bool_decide_eq_true_2 by done. cbn [of_option mbind result_bind negb raise_if].
  unfold node_at, text_of, index. simpl od_get. cbn [of_option mbind result_bind py_str].
  unfold NodeId.valid in Hn. simpl in Hn. rewrite Hn. cbn [mbind result_bind].
  rewrite (material_read m) by (try done; repeat constructor). cbn [mbind result_bind].
  rewrite Hi. cbn [mbind result_bind]. rewrite permissions_read by done. by rewrite Permission.values_texts.
Qed.

(** ** The tables *)

Lemma foldl_insert_keys {A} (key : A → NodeId) (m0 m : gmap NodeId A) :
  (∀ k x, m !! k = Some x → key x = k) →
  foldl (λ g x, <[key x := x]> g) m0 (map_to_list m).*2 = m ∪ m0.
Proof.
  intros Hk. assert (Hl : ∀ l, NoDup l.*1 → (∀ k x, (k, x) ∈ l → key x = k) → ∀ m0,
    foldl (λ g x, <[key x := x]> g) m0 l.*2 = (list_to_map l : gmap NodeId A) ∪ m0).
  { clear. induction l as [|[k x] l IH]; intros Hn Hk m0; [by rewrite (left_id_L _ _)|].
    apply NoDup_cons in Hn as [Hfresh Hn]. simpl. rewrite IH; [|done|set_solver].
    rewrite (Hk k x) by set_solver.
    rewrite <- insert_union_l, <- insert_union_r; [done|]. by apply not_elem_of_list_to_map. }
  rewrite Hl, list_to_map_to_list; [done|apply NoDup_fst_map_to_list|].
  intros k x ?%elem_of_map_to_list. auto.
Qed.

Lemma mapM_read {A B} (f : json → result B) (enc : A → json) (g : A → B) l :
  (∀ x, x ∈ l → f (enc x) = Ok (g x)) → mapM f (enc <$> l) = Ok (g <$> l).
Proof.
  induction l as [|x l IH]; intros Hf; [done|]. cbn. rewrite Hf by set_solver. cbn.
  cbn in IH. by rewrite IH by set_solver.
Qed.

Lemma foldl_pending (l d : list (string * PendingPairing.t)) : NoDup (d ++ l).*1 →
  (∀ k p, (k, p) ∈ l → PendingPairing.transaction_id p = k) →
  foldl (λ g p, od_set (PendingPairing.transaction_id p) p g) d l.*2 = d ++ l.
Proof.

  revert d. induction l as [|[k p] l IH]; intros d Hn Hk; [by rewrite app_nil_r|]. simpl.
  rewrite (Hk k p) by set_solver. pose proof Hn as Hne. rewrite fmap_app in Hne. apply NoDup_app in Hne as (_ & Hne & _).
  rewrite od_set_fresh; [|intros ?; by eapply Hne, list_elem_of_here].
  rewrite (cons_middle (k, p) d l), (assoc_L (++)) in Hn |- *. apply IH; [done|set_solver].
Qed.

Lemma foldl_pairs {A B C} (f : A → B → A) (h : B → C) (l : list B) a :
  foldl (λ a (x : B * C), f a x.1) a ((λ b, (b, h b)) <$> l) = foldl f a l.
Proof. revert a. induction l; intros; [done|]. simpl. auto. Qed.

Lemma pending_keys {A} (key : A → string) (l : list (string * A)) :
  (∀ k p, (k, p) ∈ l → key p = k) → key <$> l.*2 = l.*1.
Proof.
  intros Hk. rewrite <- list_fmap_compose. apply Forall_fmap_ext, Forall_forall.
  intros [k p] ?. by apply Hk.
Qed.

(** What is stored next to the transactions, keyed by them. *)
Definition asked (permissions : gmap string (gset string)) (p : PendingPairing.t) : gset string :=
  default ∅ (permissions !! PendingPairing.transaction_id p).

Lemma foldl_asked f (l : list PendingPairing.t) (g0 : gmap string (gset string)) k :
  (∀ p, p ∈ l → PendingPairing.transaction_id p = k → asked f p = default ∅ (f !! k)) →
  foldl (λ g (x : PendingPairing.t * gset string), <[PendingPairing.transaction_id x.1 := x.2]> g) g0
    ((λ p, (p, asked f p)) <$> l) !! k
  = if decide (k ∈ PendingPairing.transaction_id <$> l) then Some (default ∅ (f !! k)) else g0 !! k.
Proof.
  revert g0. induction l as [|p l IH]; intros g0 Hf; [done|]. simpl. rewrite IH by set_solver.
  destruct (decide (k ∈ PendingPairing.transaction_id <$> l)).
  - rewrite decide_True by set_solver. done.
  - destruct (decide (PendingPairing.transaction_id p = k)) as [<-|Hne].
    + rewrite lookup_insert_eq, decide_True by set_solver. done.
    + rewrite lookup_insert_ne, decide_False by set_solver. done.
Qed.

Lemma stored_peer_settles d : jget "host" d = JNull → migrate_route (JObj d) = JObj d.
Proof. intros Hh. unfold migrate_route. rewrite Hh. by destruct (od_mem "routes" d). Qed.

Lemma list_settled name d l : od_get name d = Some (JList l) → (∀ v, v ∈ l → migrate_route v = v) →
  settled name d.
Proof.
  intros Hl Hm. exists l. split; [done|]. unfold _migrate_single_routes. do 2 f_equal.
  rewrite <- (list_fmap_id l) at 2. apply Forall_fmap_ext, Forall_forall, Hm.
Qed.

Lemma document_settled m permissions :
  migrate_state "trust" (trust_document m permissions) = Ok (trust_document m permissions).
Proof.
  apply trust_settled; [by split| ..]; (eapply list_settled; [reflexivity|]);
    intros v (x & -> & _)%list_elem_of_fmap; by apply stored_peer_settles.
Qed.

Lemma items_document name l d : od_get name d = Some (JList l) → items name d = Ok l.
Proof. intros Hl. unfold items, jget_or. by rewrite Hl. Qed.

(** A manager without grants, peers and transactions. *)
Definition blank (m : PairingManager.t) : PairingManager.t :=
  PairingManager.__init__ (PairingManager.local_id m) (PairingManager._ttl m).

(** Saved trust survives a restart: the document of any manager whose peers are storable needs
    no migration, and loading it into a new manager gives the same grants, trusted peers and
    open transactions, in the same order, with the permissions each transaction asked for; only
    the marks of failed authentication are forgotten. *)
Theorem saved_trust_reads_back m permissions : storable_trust m permissions →
  ∃ permissions',
    (d ← migrate_state "trust" (trust_document m permissions);
     load_trust float_repr container_repr d (blank m))
    = Ok (PairingManager.set_broken m ∅, permissions') ∧
    ∀ k, permissions' !! k = if decide (k ∈ (PairingManager.pending m).*1)
                             then Some (default ∅ (permissions !! k)) else None.
Proof.
  intros [Hg Ht Hn Hp]. rewrite document_settled. cbn [mbind result_bind]. unfold load_trust.
  rewrite (items_document "grants" _ (trust_document m permissions) eq_refl). cbn [mbind result_bind].
  rewrite (mapM_read _ _ id), list_fmap_id by (intros g ([k ?] & -> & Hm)%list_elem_of_fmap;
    apply elem_of_map_to_list, Hg in Hm as [<- Hm]; exact (grant_read _ Hm)). cbn [mbind result_bind].
  rewrite (items_document "trusted" _ (trust_document m permissions) eq_refl). cbn [mbind result_bind].
  rewrite (mapM_read _ _ id), list_fmap_id by (intros g ([k ?] & -> & Hm)%list_elem_of_fmap;
    apply elem_of_map_to_list, Ht in Hm as [<- Hm]; exact (trusted_read _ Hm)). cbn [mbind result_bind].
  rewrite (items_document "pending" _ (trust_document m permissions) eq_refl). cbn [mbind result_bind].
  rewrite (mapM_read _ _ (λ kp, (kp.2, asked permissions kp.2))).
  2: { intros [k p] Hm. destruct (Hp k p Hm) as (<- & Hi & Hf & Hs). by apply pending_read. }
  cbn [mbind result_bind].
  change ((λ kp : string * PendingPairing.t, (kp.2, asked permissions kp.2)) <$> PairingManager.pending m)
    with ((λ p, (p, asked permissions p)) ∘ snd <$> PairingManager.pending m).
  rewrite list_fmap_compose. eexists. split.
  - do 2 f_equal. cbn [blank PairingManager.__init__ PairingManager.grants PairingManager.trusted
      PairingManager.pending PairingManager.set_grants PairingManager.set_trusted].
    rewrite (foldl_insert_keys PeerGrant.caller_id), (foldl_insert_keys TrustedPeer.peer_id),
      !(right_id_L ∅ (∪)),
      (foldl_pairs (λ g p, od_set (PendingPairing.transaction_id p) p g)), (foldl_pending (PairingManager.pending m) []).
    + by destruct m.
    + done.
    + intros k p ?. by apply Hp.
    + intros k p ?%Ht. naive_solver.
    + intros k p ?%Hg. naive_solver.
  - intros k. rewrite foldl_asked by (intros p _ <-; done).
    rewrite (pending_keys (PendingPairing.transaction_id)) by (intros; by apply Hp).
    by rewrite lookup_empty.
Qed.

(** ** What does not read back *)

Lemma member_unreadable X p : Permission.Member p ∈ X →
  permissions_from_json (permissions_to_json X)
  = raise ValueError "persisted permissions contain an unknown value".
Proof.
  intros Hp. unfold permissions_from_json, permissions_to_json. cbn [is_list mbind option_bind].
  rewrite all_str_texts. cbn [of_option mbind result_bind].
  rewrite (proj2 (existsb_exists _ _)); [done|]. exists (Permission.str (Permission.Member p)). split.
  - apply list_elem_of_In. rewrite sorted_perm. apply list_elem_of_fmap. exists (Permission.Member p).
    split; [done|]. by apply elem_of_elements.
  - by destruct p.
Qed.

Lemma trusted_unreadable p q : Permission.Member q ∈ TrustedPeer.permissions p →
  is_ok (trusted_peer_from_json float_repr container_repr (trusted_peer_to_json p)) = false.
Proof.
  intros Hq. destruct p as [[c] secret perms m]. simpl in Hq.
  unfold trusted_peer_from_json, trusted_peer_to_json. cbn [is_obj of_option mbind result_bind].
  change (jget "permissions" _) with (permissions_to_json perms). by rewrite (member_unreadable _ _ Hq).
Qed.

Lemma mapM_blocked {A B} (f : A → result B) l a : a ∈ l → is_ok (f a) = false → is_ok (mapM f l) = false.
Proof.
  intros Ha Hf. induction l as [|b l IH]; [by apply not_elem_of_nil in Ha|].
  apply elem_of_cons in Ha as [<-|Ha]; simpl.
  - by destruct (f a).
  - destruct (f b); [|done]. cbn [mbind result_bind]. specialize (IH Ha). by destruct (mapM f l).
Qed.

(** A trusted peer whose permissions are members of the enumeration makes the file unreadable. *)
Lemma member_blocks_load m m0 permissions k p q :
  PairingManager.trusted m !! k = Some p → Permission.Member q ∈ TrustedPeer.permissions p →
  is_ok (load_trust float_repr container_repr (trust_document m permissions) m0) = false.
Proof.
  intros Hk Hq. unfold load_trust.
  rewrite (items_document "grants" _ (trust_document m permissions) eq_refl). cbn [mbind result_bind].
  destruct (mapM (peer_grant_from_json float_repr container_repr) _) as [grants|]; [|done]. cbn [mbind result_bind].
  rewrite (items_document "trusted" _ (trust_document m permissions) eq_refl). cbn [mbind result_bind].
  assert (is_ok (mapM (trusted_peer_from_json float_repr container_repr)
            (trusted_peer_to_json <$> (map_to_list (PairingManager.trusted m)).*2)) = false) as Hno.
  { eapply mapM_blocked; [|by eapply trusted_unreadable]. apply list_elem_of_fmap_2, list_elem_of_fmap.
    exists (k, p). split; [done|]. by apply elem_of_map_to_list. }
  by destruct (mapM (trusted_peer_from_json float_repr container_repr) _).
Qed.
(** ** Who is read back *)

(** No grant for the peer, no trust in it and no open transaction with it. *)
Record forgotten (p : NodeId) (m : PairingManager.t) : Prop := {
  forgotten_grant : PairingManager.grants m !! p = None;
  forgotten_trusted : PairingManager.trusted m !! p = None;
  forgotten_pending : ∀ k x, (k, x) ∈ PairingManager.pending m → PendingPairing.peer_id x ≠ p }.

(** Grants and trusted peers are under their own names. *)
Record keyed (m : PairingManager.t) : Prop := {
  keyed_grants : ∀ k g, PairingManager.grants m !! k = Some g → PeerGrant.caller_id g = k;
  keyed_trusted : ∀ k p, PairingManager.trusted m !! k = Some p → TrustedPeer.peer_id p = k }.

Lemma grant_caller g g' : peer_grant_from_json float_repr container_repr (peer_grant_to_json g) = Ok g' →
  PeerGrant.caller_id g' = PeerGrant.caller_id g.
Proof.
  unfold peer_grant_from_json, peer_grant_to_json. cbn [is_obj of_option mbind result_bind]. intros Hr.
  repeat (apply bind_Ok in Hr as (? & ? & Hr)). injection Hr as <-.
  match goal with E : node_at _ _ _ _ = Ok _ |- _ => apply NodeId.node_id_Ok in E as [-> _] end.
  by destruct (PeerGrant.caller_id g).
Qed.
Lemma trusted_peer g g' : trusted_peer_from_json float_repr container_repr (trusted_peer_to_json g) = Ok g' →
  TrustedPeer.peer_id g' = TrustedPeer.peer_id g.
Proof.
  unfold trusted_peer_from_json, trusted_peer_to_json. cbn [is_obj of_option mbind result_bind]. intros Hr.
  repeat (apply bind_Ok in Hr as (? & ? & Hr)). injection Hr as <-.
  match goal with E : node_at _ _ _ _ = Ok _ |- _ => apply NodeId.node_id_Ok in E as [-> _] end.
  by destruct (TrustedPeer.peer_id g).
Qed.
Lemma pending_peer x asked x' :
  pending_pairing_from_json float_repr container_repr (pending_pairing_to_json x asked) = Ok x' →
  PendingPairing.peer_id x'.1 = PendingPairing.peer_id x.
Proof.
  unfold pending_pairing_from_json, pending_pairing_to_json. cbn [is_obj of_option mbind result_bind]. intros Hr.
  repeat (apply bind_Ok in Hr as (? & ? & Hr)). injection Hr as <-.
  match goal with E : PendingPairing.__post_init__ _ = Ok _ |- _ =>
    unfold PendingPairing.__post_init__ in E; repeat (apply bind_Ok in E as (? & _ & E)); injection E as <- end.
  match goal with E : node_at _ _ _ _ = Ok _ |- _ => apply NodeId.node_id_Ok in E as [-> _] end.
  cbn [PendingPairing.peer_id fst]. by destruct (PendingPairing.peer_id x).
Qed.

Lemma foldl_insert_None {A} (key : A → NodeId) p (l : list A) : ∀ m : gmap NodeId A,
  m !! p = None → (∀ x, x ∈ l → key x ≠ p) → foldl (λ g x, <[key x := x]> g) m l !! p = None.
Proof.
  induction l as [|x l IH]; intros m Hm Hl; [done|]. apply IH; [|set_solver].
  rewrite lookup_insert_ne; [done|]. apply Hl. set_solver.
Qed.

Lemma foldl_od_set_elem {B} (key : B → string) (val : B → PendingPairing.t) (l : list B) : ∀ d k x,
  (k, x) ∈ foldl (λ g y, od_set (key y) (val y) g) d l → (k, x) ∈ d ∨ ∃ y, y ∈ l ∧ x = val y.
Proof.
  induction l as [|y l IH]; intros d k x Hin; [by left|]. apply IH in Hin as [Hin|(z & ? & ?)].
  - apply od_set_elem in Hin as [[= -> ->]|?]; [right; exists y; set_solver|by left].
  - right. exists z. set_solver.
Qed.

(** The source of an element that was read. *)
Lemma read_source {A B} (f : json → result B) (enc : A → json) (l : list A) k y :
  mapM f (enc <$> l) = Ok k → y ∈ k → ∃ x, x ∈ l ∧ f (enc x) = Ok y.
Proof.
  intros Hm%mapM_Ok_inv [i Hi]%list_elem_of_lookup.
  destruct (Forall2_lookup_r _ _ _ _ _ Hm Hi) as (j & Hj & E).
  apply list_lookup_fmap_Some in Hj as (x & -> & Hx). exists x. split; [|done].
  by eapply list_elem_of_lookup_2.
Qed.

(** What was forgotten stays forgotten over a restart. *)
Lemma reload_forgets p m asked m' asked' : keyed m → forgotten p m →
  load_trust float_repr container_repr (trust_document m asked) (blank m) = Ok (m', asked') → forgotten p m'.
Proof.
  intros [Kg Kt] [Fg Ft Fp] Hr. unfold load_trust in Hr.
  rewrite (items_document "grants" _ (trust_document m asked) eq_refl) in Hr. cbn [mbind result_bind] in Hr.
  apply bind_Ok in Hr as (gs & Hg & Hr).
  rewrite (items_document "trusted" _ (trust_document m asked) eq_refl) in Hr. cbn [mbind result_bind] in Hr.
  apply bind_Ok in Hr as (ts & Ht & Hr).
  rewrite (items_document "pending" _ (trust_document m asked) eq_refl) in Hr. cbn [mbind result_bind] in Hr.
  apply bind_Ok in Hr as (ps & Hp & [= <- _]).
  split; cbn [PairingManager.grants PairingManager.trusted PairingManager.pending PairingManager.set_pending
    PairingManager.set_trusted PairingManager.set_grants].
  - apply foldl_insert_None; [done|]. intros g' Hin.
    apply (read_source _ _ _ _ _ Hg) in Hin as (g & ([k ?] & -> & Hk%elem_of_map_to_list)%list_elem_of_fmap & E).
    rewrite (grant_caller _ _ E). cbn [snd]. rewrite (Kg _ _ Hk). intros ->. by rewrite Fg in Hk.
  - apply foldl_insert_None; [done|]. intros g' Hin.
    apply (read_source _ _ _ _ _ Ht) in Hin as (g & ([k ?] & -> & Hk%elem_of_map_to_list)%list_elem_of_fmap & E).
    rewrite (trusted_peer _ _ E). cbn [snd]. rewrite (Kt _ _ Hk). intros ->. by rewrite Ft in Hk.
  - intros k x Hin. apply (foldl_od_set_elem _ fst) in Hin as [?%elem_of_nil|(y & Hin & ->)]; [done|].
    apply (read_source _ (λ kp : string * PendingPairing.t, pending_pairing_to_json kp.2 _) _ _ _ Hp) in Hin as ([k' x] & Hk & E).
    rewrite (pending_peer _ _ _ E). by eapply Fp.
Qed.

End spec.

(** A manager with one grant, one peer and one open transaction. *)
Definition sample_material : Material.t := Material.mk (Some "aa") (Some "bb") None (Some 3%Z) None.
Definition sample_secret : string := String.concat "" (repeat "0f" 32).
Definition sample_pending : PendingPairing.t :=
  PendingPairing.mk "tx" (mkNodeId "peer-c") sample_secret (flit 90) sample_material "inbound" "pair".
Definition sample_manager : PairingManager.t :=
  PairingManager.mk (mkNodeId "local") (flit 300) [("tx", sample_pending)]
    {[mkNodeId "peer-b" := TrustedPeer.mk (mkNodeId "peer-b") sample_secret {[Permission.Text "read_state"]} sample_material]}
    {[mkNodeId "peer-a" := PeerGrant.mk (mkNodeId "peer-a") sample_secret ∅ Material.none]} ∅.
Definition sample_asked : gmap string (gset string) := {["tx" := {["cleanup"]}]}.

Lemma known_singleton s : s ∈ NodePermission.value <$> NodePermission.all →
  known_permissions {[Permission.Text s]}.
Proof. intros ? ? ->%elem_of_singleton. eauto. Qed.

Lemma known_of_texts X : (∀ s, s ∈ X → s ∈ NodePermission.value <$> NodePermission.all) →
  known_permissions (Permission.texts X).
Proof. intros HX p (s & -> & Hs)%elem_of_map. eauto. Qed.

Lemma sample_storable : storable_trust sample_manager sample_asked.
Proof.
  split; cbn [sample_manager PairingManager.grants PairingManager.trusted PairingManager.pending].
  - intros k g [<- <-]%lookup_singleton_Some. split; [done|]. split; try done.
  - intros k p [<- <-]%lookup_singleton_Some. split; [done|]. split; try done.
    + apply known_singleton. vm_compute. repeat constructor.
    + intros g [= <-]. lia.
  - apply NoDup_singleton.
  - intros k p [= -> ->]%list_elem_of_singleton. do 3 (split; [done|]).
    split; [done|vm_compute; reflexivity| |intros g [= <-]; lia].
    apply known_of_texts. unfold sample_asked. rewrite lookup_singleton_eq. simpl.
    intros s Hs. apply elem_of_singleton in Hs as ->. vm_compute. repeat constructor.
Qed.

Lemma saved_trust_reads_back_witness :
  ∃ permissions',
    (d ← migrate_state "trust" (trust_document sample_manager sample_asked);
     load_trust (λ _, "") (λ _, "") d (blank sample_manager))
    = Ok (PairingManager.set_broken sample_manager ∅, permissions') ∧
    ∀ k, permissions' !! k = if decide (k ∈ (PairingManager.pending sample_manager).*1)
                             then Some (default ∅ (sample_asked !! k)) else None.
Proof. exact (saved_trust_reads_back (λ _, "") (λ _, "") _ _ sample_storable). Defined.
