(* ===== verification/Candidates.v ===== *)
(** * Discovery candidates and routes ([discovery/models.py], [discovery/candidates.py])

    What discovery reports of a peer, the order in which its endpoints are tried, and the
    table of candidates with its time to live.  Addresses are read by the standard
    library's [ipaddress]: the reading is the parameter [ip_address]. *)

From S2P Require Import Prelude PyFloat Sharing PyJson StateCodec.

(** ** [discovery/models.py] *)

Inductive EndpointSource := CONFIGURED | IPV4 | IPV6 | VPN | DISCOVERY.
#[export] Instance EndpointSource_eq_dec : EqDecision EndpointSource.
Proof. solve_decision. Defined.

Definition VALIDATIONS : list string := ["validated"; "unvalidated"; "invalid"].

Module EndpointCandidate.
Record t := mk {
  address : string;
  port : Z;
  source : EndpointSource;
  validation : string;
  priority : Z;
  last_success : option float;
  last_failure : option float }.

Definition __post_init__ (e : t) : result t :=
  raise_if (is_blank (address e)) ValueError "endpoint address must not be empty";;
  raise_if (negb ((1 <=? port e)%Z && (port e <=? 65535)%Z)) ValueError "endpoint port is invalid";;
  raise_if (negb (bool_decide (validation e ∈ VALIDATIONS))) ValueError "endpoint validation is invalid";;
  Ok e.

(** [EndpointCandidate(address, port)] and with a source *)
Definition from_source (address : string) (port : Z) (source : EndpointSource) : result t :=
  __post_init__ (mk address port source "validated" 0 None None).

Definition key (e : t) : string * Z := (address e, port e).

(** [replace(endpoint, ...)] checks the fields again. *)
Definition replace_port (e : t) (p : Z) : result t :=
  __post_init__ (mk (address e) p (source e) (validation e) (priority e) (last_success e) (last_failure e)).
Definition with_success (now : float) (e : t) : result t :=
  __post_init__ (mk (address e) (port e) (source e) (validation e) (priority e) (Some now) (last_failure e)).
Definition with_failure (now : float) (e : t) : result t :=
  __post_init__ (mk (address e) (port e) (source e) (validation e) (priority e) (last_success e) (Some now)).
End EndpointCandidate.
#[export] Instance EndpointCandidate_eq_dec : EqDecision EndpointCandidate.t.
Proof. solve_decision. Defined.

(** A parsed address: its version and its bits. *)
Inductive IPAddress := V4 (bits : Z) | V6 (bits : Z).

Module DiscoveredNodeCandidate.
Record t := mk {
  stable_id : string;
  hostname : string;
  addresses : list string;
  port : option Z;
  service_name : string;
  app_version : string;
  protocol_version : string;
  platform : option string;
  connectable : bool;
  compatible : bool;
  last_seen : float;
  identity_fingerprint : option string;
  transport_fingerprint : option string;
  endpoint_candidates : list EndpointCandidate.t;
  root_public_key : option string;
  transport_generation : option Z;
  transport_proof : option string;
  pairing_port : option Z }.

Definition with_endpoints (c : t) (l : list EndpointCandidate.t) : t :=
  mk (stable_id c) (hostname c) (addresses c) (port c) (service_name c) (app_version c)
    (protocol_version c) (platform c) (connectable c) (compatible c) (last_seen c)
    (identity_fingerprint c) (transport_fingerprint c) l (root_public_key c)
    (transport_generation c) (transport_proof c) (pairing_port c).
End DiscoveredNodeCandidate.
#[export] Instance DiscoveredNodeCandidate_eq_dec : EqDecision DiscoveredNodeCandidate.t.
Proof. solve_decision. Defined.

Section addresses.
(** [ipaddress.ip_address(text)], [None] when it raises [ValueError]. *)
Context (ip_address : string → option IPAddress).

Definition endpoint_source (address : string) : EndpointSource :=
  match ip_address address with
  | None => DISCOVERY
  | Some (V6 _) => IPV6
  | Some (V4 _) => IPV4
  end.

(** The constructor of a candidate: endpoints are derived when none is given. *)
Definition discovered (c : DiscoveredNodeCandidate.t) : result DiscoveredNodeCandidate.t :=
  match DiscoveredNodeCandidate.endpoint_candidates c, DiscoveredNodeCandidate.port c with
  | [], Some port =>
      endpoints ← mapM (λ a, EndpointCandidate.from_source a port (endpoint_source a))
                    (DiscoveredNodeCandidate.addresses c);
      Ok (DiscoveredNodeCandidate.with_endpoints c endpoints)
  | _, _ => Ok c
  end.

(** [pairing_port or port]: a pairing port 0 counts as none. *)
Definition pairing_endpoint_candidates (c : DiscoveredNodeCandidate.t)
    : result (list EndpointCandidate.t) :=
  let port := match DiscoveredNodeCandidate.pairing_port c with
              | Some p => if (p =? 0)%Z then DiscoveredNodeCandidate.port c else Some p
              | None => DiscoveredNodeCandidate.port c
              end in
  match port with
  | None => Ok []
  | Some port => mapM (λ e, EndpointCandidate.replace_port e port)
                   (DiscoveredNodeCandidate.endpoint_candidates c)
  end.

(** ** [discovery/candidates.py] *)

(** Whether the upper bits of an address are those of the network. *)
Definition in_network (bits network prefix : Z) : bool :=
  (Z.shiftr bits (32 - prefix) =? Z.shiftr network (32 - prefix))%Z.

(** The bits of a dotted quad. *)
Definition quad (a b c d : Z) : Z :=
  Z.lor (Z.shiftl a 24) (Z.lor (Z.shiftl b 16) (Z.lor (Z.shiftl c 8) d)).

Definition _PREFERRED_IPV4_NETWORKS : list (Z * Z) :=
  [(quad 192 168 0 0, 16); (quad 172 16 0 0, 12); (quad 10 0 0 0, 8); (quad 100 64 0 0, 10)]%Z.

Definition _FALLBACK_ADDRESS_RANK : nat := length _PREFERRED_IPV4_NETWORKS.
Definition _INVALID_ADDRESS_RANK : nat := S _FALLBACK_ADDRESS_RANK.

(** The place of the first network that contains the address. *)
Fixpoint network_rank (bits : Z) (rank : nat) (networks : list (Z * Z)) : nat :=
  match networks with
  | [] => _FALLBACK_ADDRESS_RANK
  | (network, prefix) :: networks =>
      if in_network bits network prefix then rank else network_rank bits (S rank) networks
  end.

(** Loopback addresses are in 127.0.0.0/8; every IPv6 address has the fallback rank. *)
Definition _address_rank (address : string) : nat :=
  match ip_address address with
  | None => _INVALID_ADDRESS_RANK
  | Some (V6 _) => _FALLBACK_ADDRESS_RANK
  | Some (V4 bits) =>
      if in_network bits (quad 127 0 0 0) 8 then _FALLBACK_ADDRESS_RANK
      else network_rank bits 0 _PREFERRED_IPV4_NETWORKS
  end.

(** [min(l, key=key)]: the first of the smallest. *)
Definition min_by {A} (leb : A → A → bool) (l : list A) : option A :=
  match l with
  | [] => None
  | x :: l => Some (foldl (λ best y, if leb best y then best else y) x l)
  end.

Definition preferred_address (addresses : list string) : result string :=
  of_option (min_by (λ a b, Nat.leb (_address_rank a) (_address_rank b)) addresses)
    ValueError "no route candidates".
End addresses.

Definition source_rank (s : EndpointSource) : Z :=
  match s with CONFIGURED => 0 | IPV4 => 1 | IPV6 => 2 | VPN => 3 | DISCOVERY => 4 end.

Definition endpoint_rank (e : EndpointCandidate.t) : Z * Z * Z * string * Z :=
  let success_rank := match EndpointCandidate.last_success e with Some _ => 0 | None => 1 end%Z in
  let failure_rank := match EndpointCandidate.last_failure e with Some _ => 1 | None => 0 end%Z in
  (success_rank, EndpointCandidate.priority e,
   (source_rank (EndpointCandidate.source e) + failure_rank)%Z,
   EndpointCandidate.address e, EndpointCandidate.port e).

(** The order of Python's tuples: the first difference decides. *)
Definition rank_leb (a b : Z * Z * Z * string * Z) : bool :=
  let '(a1, a2, a3, a4, a5) := a in
  let '(b1, b2, b3, b4, b5) := b in
  if negb (a1 =? b1)%Z then (a1 <? b1)%Z
  else if negb (a2 =? b2)%Z then (a2 <? b2)%Z
  else if negb (a3 =? b3)%Z then (a3 <? b3)%Z
  else if negb (bool_decide (a4 = b4)) then str_leb a4 b4
  else (a5 <=? b5)%Z.

Definition endpoint_leb (a b : EndpointCandidate.t) : bool :=
  rank_leb (endpoint_rank a) (endpoint_rank b).

(** [endpoint.validation != "invalid"] *)
Definition usable (e : EndpointCandidate.t) : bool :=
  negb (bool_decide (EndpointCandidate.validation e = "invalid")).

Definition preferred_endpoint (endpoints : list EndpointCandidate.t) : result EndpointCandidate.t :=
  of_option (min_by endpoint_leb (List.filter usable endpoints)) ValueError "no route candidates".

(** ** The table *)

Module DiscoveryCandidate.
Record t := mk { stable_id : string; addresses : list string; port : json; seen_at : float }.
End DiscoveryCandidate.

(** [int(value) != value] is false for an integer, and for a float without fraction. *)
Definition normalize_port (value : json) : option Z :=
  let in_range (p : Z) := if (1 <=? p)%Z && (p <=? 65535)%Z then Some p else None in
  match value with
  | JInt p => in_range p
  | JFloat f => if negb (isfinite f) then None
                else if negb (feqb (flit (trunc f)) f) then None else in_range (trunc f)
  | _ => None
  end.

Definition validate_candidate (c : DiscoveryCandidate.t) (self_id : option string) : result () :=
  let id := DiscoveryCandidate.stable_id c in
  raise_if (bool_decide (id = "") || bool_decide (id = "local")) ValueError
    "invalid discovery identity";;
  raise_if (bool_decide (self_id = Some id)) ValueError "self discovery is not a peer";;
  raise_if (match normalize_port (DiscoveryCandidate.port c) with None => true | Some _ => false end
            || match DiscoveryCandidate.addresses c with [] => true | _ => false end)
    ValueError "invalid discovery endpoint";;
  raise_if (existsb is_blank (DiscoveryCandidate.addresses c)) ValueError "invalid discovery endpoint".

Module DiscoveryRegistry.
Record t := mk {
  _ttl : float;
  _self_id : option string;
  _items : list (string * DiscoveryCandidate.t) }.

Definition __init__ (ttl : float) (self_id : option string) : t := mk ttl self_id [].

Definition set_items (s : t) (items : list (string * DiscoveryCandidate.t)) : t :=
  mk (_ttl s) (_self_id s) items.

(** [now] is the reading of the clock. *)
Definition add (c : DiscoveryCandidate.t) (now : float) : M t bool := λ s,
  match validate_candidate c (_self_id s) with
  | Err _ => (s, Ok false)
  | Ok _ =>
      match normalize_port (DiscoveryCandidate.port c) with
      | None => (s, Ok false)
      | Some port =>
          let item := DiscoveryCandidate.mk (DiscoveryCandidate.stable_id c)
                        (DiscoveryCandidate.addresses c) (JInt port) now in
          (set_items s (od_set (DiscoveryCandidate.stable_id c) item (_items s)), Ok true)
      end
  end.

Definition remove (stable_id : string) : M t () := λ s, (set_items s (od_pop stable_id (_items s)), Ok ()).

Definition candidates (s : t) : list DiscoveryCandidate.t := (_items s).*2.

(** [current - item.seen_at > self._ttl] *)
Definition is_expired (ttl current : float) (c : DiscoveryCandidate.t) : bool :=
  fltb ttl (fsub current (DiscoveryCandidate.seen_at c)).

Definition expire (current : float) : M t (list string) := λ s,
  let expired := (List.filter (λ kc, is_expired (_ttl s) current kc.2) (_items s)).*1 in
  (set_items s (foldl (λ d k, od_pop k d) (_items s) expired), Ok expired).
End DiscoveryRegistry.
