(* ===== verification/Discovery.v ===== *)
(** * Network discovery ([discovery/network.py], [discovery/backend.py])

    What a node advertises, and the table of peers it keeps from the service records it is
    told of.  The multicast library is outside: a record is what the code reads of it, the
    backend's two calls are methods of the component's own state (they may deliver events
    while they run), and [inet_ntop] gives the text of a packed address. *)

From stdpp Require Import pretty.
From S2P Require Import Prelude PyFloat Sharing PyJson Pairing Candidates.
Import DiscoveredNodeCandidate(stable_id, last_seen).

Definition SERVICE_TYPE : string := "_expra-peer._tcp.local.".
Definition SUPPORTED_PROTOCOL_VERSIONS : list string := ["1"].

(** ** Texts *)

Definition endswith (s suffix : string) : bool :=
  (String.length suffix <=? String.length s)%nat &&
  bool_decide (String.substring (String.length s - String.length suffix) (String.length suffix) s = suffix).

(** [s[:-n]], which is empty for [n = 0]. *)
Definition drop_last (n : nat) (s : string) : string :=
  match n with O => "" | _ => String.substring 0 (String.length s - n) s end.

Definition removesuffix (s suffix : string) : string :=
  if endswith s suffix && negb (bool_decide (suffix = "")) then drop_last (String.length suffix) s else s.

(** [s.strip()] *)
Fixpoint lstrip (l : list Ascii.ascii) : list Ascii.ascii :=
  match l with c :: l' => if is_space c then lstrip l' else l | [] => [] end.
Definition strip (s : string) : string :=
  String.string_of_list_ascii (reverse (lstrip (reverse (lstrip (String.list_ascii_of_string s))))).

Definition ascii_digit (c : Ascii.ascii) : bool :=
  let n := Ascii.nat_of_ascii c in (48 <=? n)%nat && (n <=? 57)%nat.
(** The digits that are no decimals: the superscripts of two, three and one. *)
Definition super_digit (c : Ascii.ascii) : bool :=
  bool_decide (Ascii.nat_of_ascii c ∈ [178; 179; 185]).
Definition every (f : Ascii.ascii → bool) (s : string) : bool :=
  negb (bool_decide (s = "")) && forallb f (String.list_ascii_of_string s).
Definition isdigit : string → bool := every (λ c, ascii_digit c || super_digit c).
Definition isdecimal : string → bool := every ascii_digit.

Definition digits_value (s : string) : Z :=
  foldl (λ v c, 10 * v + (Z.of_nat (Ascii.nat_of_ascii c) - 48))%Z 0%Z (String.list_ascii_of_string s).

(** [int(s)] on a text of digits: only decimals are read, and at most
    [sys.int_info.default_max_str_digits] of them. *)
Definition max_str_digits : nat := 4300.
Definition int_of_text (s : string) : result Z :=
  if isdecimal s && (String.length s <=? max_str_digits)%nat then Ok (digits_value s)
  else raise ValueError "invalid literal for int()".

(** [s.casefold()] below code point 256, but for the micro sign, whose fold is above. *)
Definition fold_char (c : Ascii.ascii) : string :=
  let n := Ascii.nat_of_ascii c in
  if ((65 <=? n) && (n <=? 90) || (192 <=? n) && (n <=? 222) && negb (n =? 215))%nat
  then String.String (Ascii.ascii_of_nat (n + 32)) ""
  else if (n =? 223)%nat then "ss" else String.String c "".
Definition casefold (s : string) : string :=
  String.concat "" (map fold_char (String.list_ascii_of_string s)).

(** ** [discovery/backend.py] *)

(** An observed address, and the collections a record can hold. *)
Inductive RawAddress := AText (text : string) | ABytes (packed : string) | AOther.
Inductive RawAddresses :=
  | RText (text : string) | RBytes (packed : string)    (** a single one instead of a collection *)
  | RMany (addresses : list RawAddress)
  | ROther (truth : bool).            (** not iterable *)

(** A key or value of the properties: text, bytes, or an object with the text [str] gives. *)
Inductive Prop_text := PText (text : string) | PBytes (bytes : string) | PObject (str : string).

(** What the code reads of a service record.  A method that is absent is [None], one that
    raises answers [Some None]; properties that are no mapping are [None]. *)
Module ServiceInfo.
Record t := mk {
  properties : option (list (option Prop_text * option Prop_text));
  port : json;
  parsed_scoped_addresses : option (option RawAddresses);
  parsed_addresses : option (option RawAddresses);
  addresses : RawAddresses }.
End ServiceInfo.

Section addresses.
(** [socket.inet_ntop(family, packed)]: [true] for IPv6; [None] when it raises [OSError]. *)
Context (inet_ntop : bool → string → option string).

Definition _address_text (a : RawAddress) : option string :=
  match a with
  | AText text => truthy (Some (strip text))
  | ABytes packed =>
      if (String.length packed =? 4)%nat then inet_ntop false packed
      else if (String.length packed =? 16)%nat then inet_ntop true packed else None
  | AOther => None
  end.

(** [bool(addresses)] *)
Definition has_addresses (a : RawAddresses) : bool :=
  match a with
  | RText s | RBytes s => negb (bool_decide (s = ""))
  | RMany l => negb (bool_decide (length l = 0))
  | ROther truth => truth
  end.

(** The texts that were not seen, in the order observed. *)
Fixpoint first_seen (seen : list string) (l : list RawAddress) : list string :=
  match l with
  | [] => []
  | a :: l => match _address_text a with
              | Some text => if bool_decide (text ∈ seen) then first_seen seen l
                             else text :: first_seen (text :: seen) l
              | None => first_seen seen l
              end
  end.

Definition _address_texts (a : RawAddresses) : list string :=
  if negb (has_addresses a) then []
  else match a with
       | RText s => first_seen [] [AText s]
       | RBytes s => first_seen [] [ABytes s]
       | RMany l => first_seen [] l
       | ROther _ => []
       end.

(** The first method that answers something; else the raw addresses. *)
Definition _service_address_texts (info : ServiceInfo.t) : list string :=
  let parsed m := match m with Some (Some a) => if has_addresses a then Some (_address_texts a) else None | _ => None end in
  match parsed (ServiceInfo.parsed_scoped_addresses info) with
  | Some texts => texts
  | None => match parsed (ServiceInfo.parsed_addresses info) with
            | Some texts => texts
            | None => _address_texts (ServiceInfo.addresses info)
            end
  end.
End addresses.

(** ** What a node advertises *)

Module DiscoveryAdvertisement.
Record t := mk {
  stable_id : string;
  display_name : string;
  hostname : string;
  app_version : string;
  protocol_version : string;
  platform : option string;
  connectable : bool;
  port : option Z;
  identity_fingerprint : option string;
  transport_fingerprint : option string;
  root_public_key : option string;
  transport_generation : option Z;
  transport_proof : option string;
  advertised_addresses : option (list string);
  pairing_port : option Z }.
End DiscoveryAdvertisement.

Definition valid_port (p : Z) : bool := (1 <=? p)%Z && (p <=? 65535)%Z.

(** The entry of an optional text: none when it is absent or empty. *)
Definition optional_property (key : string) (value : option string) : list (string * string) :=
  match truthy value with Some v => [(key, v)] | None => [] end.

Definition _advertisement_txt_properties (a : DiscoveryAdvertisement.t) : list (string * string) :=
  [("id", DiscoveryAdvertisement.stable_id a); ("name", DiscoveryAdvertisement.display_name a);
   ("app_version", DiscoveryAdvertisement.app_version a);
   ("protocol_version", DiscoveryAdvertisement.protocol_version a);
   ("connectable", if DiscoveryAdvertisement.connectable a then "true" else "false")]
  ++ optional_property "platform" (DiscoveryAdvertisement.platform a)
  ++ optional_property "fingerprint" (DiscoveryAdvertisement.identity_fingerprint a)
  ++ optional_property "tls_fingerprint" (DiscoveryAdvertisement.transport_fingerprint a)
  ++ optional_property "root_public_key" (DiscoveryAdvertisement.root_public_key a)
  ++ optional_property "transport_proof" (DiscoveryAdvertisement.transport_proof a)
  ++ match DiscoveryAdvertisement.transport_generation a with
     | Some g => if (0 <=? g)%Z then [("transport_generation", pretty g)] else []
     | None => []
     end
  ++ match DiscoveryAdvertisement.pairing_port a with
     | Some p => if valid_port p then [("pairing_port", pretty p)] else []
     | None => []
     end.

(** A rotated transport gets a new instance, so that caches drop the old one. *)
Definition _service_instance_id (a : DiscoveryAdvertisement.t) : string :=
  match DiscoveryAdvertisement.transport_generation a with
  | Some g => if (1 <? g)%Z then DiscoveryAdvertisement.stable_id a +:+ "-g" +:+ pretty g
              else DiscoveryAdvertisement.stable_id a
  | None => DiscoveryAdvertisement.stable_id a
  end.

(** ** The table of peers *)

Inductive EventKind := EVENT_CANDIDATE (c : DiscoveredNodeCandidate.t) | EVENT_LOST (node_id : string).

Module PeerRecord.
Record t := mk { candidate : DiscoveredNodeCandidate.t; last_seen : float }.
End PeerRecord.

Module NetworkDiscovery.
Record t := mk {
  _local_node_id : string;
  _advertisement : DiscoveryAdvertisement.t;
  _service_type : string;
  _ttl_seconds : float;
  _peers : list (string * PeerRecord.t);
  _service_nodes : gmap string string;
  _service_candidates : list (string * DiscoveredNodeCandidate.t);
  _active : bool;
  _unavailable_reason : option string }.

Definition __init__ (local : string) (a : DiscoveryAdvertisement.t) (service_type : string) (ttl : float) : t :=
  mk local a service_type ttl [] ∅ [] false None.

Definition set_peers (s : t) (p : list (string * PeerRecord.t)) : t :=
  mk (_local_node_id s) (_advertisement s) (_service_type s) (_ttl_seconds s) p (_service_nodes s)
    (_service_candidates s) (_active s) (_unavailable_reason s).
Definition set_services (s : t) (n : gmap string string) (c : list (string * DiscoveredNodeCandidate.t)) : t :=
  mk (_local_node_id s) (_advertisement s) (_service_type s) (_ttl_seconds s) (_peers s) n c
    (_active s) (_unavailable_reason s).
Definition set_active (s : t) (active : bool) (reason : option string) : t :=
  mk (_local_node_id s) (_advertisement s) (_service_type s) (_ttl_seconds s) (_peers s) (_service_nodes s)
    (_service_candidates s) active reason.
(** The three [clear()] calls. *)
Definition cleared (s : t) : t := set_services (set_peers s []) ∅ [].
End NetworkDiscovery.
Import NetworkDiscovery.

Definition peers (s : t) : list DiscoveredNodeCandidate.t := PeerRecord.candidate <$> (_peers s).*2.

Section discovery.
Context (ip_address : string → option IPAddress) (inet_ntop : bool → string → option string).
(** [bytes.decode("utf-8", errors="replace")] *)
Context (utf8_decode : string → string).
Notation discovered := (discovered ip_address).

Definition _to_text (v : Prop_text) : string :=
  match v with PText s => s | PBytes b => utf8_decode b | PObject s => s end.

Definition _property_map (info : ServiceInfo.t) : list (string * string) :=
  match ServiceInfo.properties info with
  | None => []
  | Some raw => od_of_list (omap (λ kv, match kv with
                                        | (Some k, Some v) => Some (_to_text k, _to_text v)
                                        | _ => None
                                        end) raw)
  end.

Definition service_node_id (service_type service_name : string) : option string :=
  if endswith service_name service_type
  then truthy (Some (removesuffix (drop_last (String.length service_type) service_name) "."))
  else None.

Definition _node_id_for_service (s : t) (service_name : string) : option string :=
  service_node_id (_service_type s) service_name.

Definition _service_hostname (service_name service_type : string) : string :=
  default service_name (service_node_id service_type service_name).

(** [int(raw) if raw is not None and raw.isdigit() else None] *)
Definition parse_generation (raw : option string) : result (option Z) :=
  match raw with
  | Some raw => if isdigit raw then Some <$> int_of_text raw else Ok None
  | None => Ok None
  end.

(** A text of ASCII decimals in the range of ports. *)
Definition parse_pairing_port (raw : option string) : result (option Z) :=
  match raw with
  | Some raw => if is_ascii raw && isdecimal raw
                then p ← int_of_text raw; Ok (if valid_port p then Some p else None) else Ok None
  | None => Ok None
  end.

Definition service_port (raw : json) : option Z :=
  match raw with JInt p => if valid_port p then Some p else None | _ => None end.

(** The candidate of a record, [None] for this node and for what is not (yet) a peer. *)
Definition _normalize (s : t) (service_name : string) (info : ServiceInfo.t) (now : float)
    : result (option DiscoveredNodeCandidate.t) :=
  let properties := _property_map info in
  let get k := od_get k properties in
  match _node_id_for_service s service_name, truthy (get "id") with
  | Some _, Some stable_id =>
      if bool_decide (stable_id = _local_node_id s) then Ok None
      else
        let hostname := default (_service_hostname service_name (_service_type s)) (truthy (get "name")) in
        generation ← parse_generation (get "transport_generation");
        pairing_port ← parse_pairing_port (get "pairing_port");
        let protocol_version := default "" (get "protocol_version") in
        let port := service_port (ServiceInfo.port info) in
        let connectable := bool_decide (casefold (default "false" (get "connectable")) = "true") in
        Some <$> discovered (DiscoveredNodeCandidate.mk stable_id hostname
          (_service_address_texts inet_ntop info) port service_name (default "" (get "app_version"))
          protocol_version (truthy (get "platform")) (connectable && bool_decide (is_Some port))
          (bool_decide (protocol_version ∈ SUPPORTED_PROTOCOL_VERSIONS)) now
          (truthy (get "fingerprint")) (truthy (get "tls_fingerprint")) []
          (truthy (get "root_public_key")) generation (truthy (get "transport_proof")) pairing_port)
  | _, _ => Ok None
  end.

Definition _drop_peer (node_id : string) : M t (list EventKind) := λ s,
  if od_mem node_id (_peers s)
  then (set_peers s (od_pop node_id (_peers s)), Ok [EVENT_LOST node_id])
  else (s, Ok []).

(** What is observed of a node, service by service. *)
Definition observations (s : t) (node_id : string) : list DiscoveredNodeCandidate.t :=
  (List.filter (λ kc : string * DiscoveredNodeCandidate.t,
     bool_decide (_service_nodes s !! kc.1 = Some node_id)) (_service_candidates s)).*2.

(** [max(observations, key=lambda item: item.last_seen)]: the first of the latest. *)
Definition latest (c : DiscoveredNodeCandidate.t) (l : list DiscoveredNodeCandidate.t) : DiscoveredNodeCandidate.t :=
  foldl (λ best o, if fltb (last_seen best) (last_seen o) then o else best) c l.

(** The addresses and endpoints of all observations, each once, the last endpoint of a key. *)
Definition merged_addresses (l : list DiscoveredNodeCandidate.t) : list string :=
  (od_of_list ((λ a, (a, ())) <$> (l ≫= DiscoveredNodeCandidate.addresses))).*1.
Definition merged_endpoints (l : list DiscoveredNodeCandidate.t) : list EndpointCandidate.t :=
  (od_of_list ((λ e, (EndpointCandidate.key e, e)) <$> (l ≫= DiscoveredNodeCandidate.endpoint_candidates))).*2.

Definition with_routes (c : DiscoveredNodeCandidate.t) (addresses : list string)
    (endpoints : list EndpointCandidate.t) : DiscoveredNodeCandidate.t :=
  DiscoveredNodeCandidate.mk (stable_id c) (DiscoveredNodeCandidate.hostname c) addresses
    (DiscoveredNodeCandidate.port c) (DiscoveredNodeCandidate.service_name c)
    (DiscoveredNodeCandidate.app_version c) (DiscoveredNodeCandidate.protocol_version c)
    (DiscoveredNodeCandidate.platform c) (DiscoveredNodeCandidate.connectable c)
    (DiscoveredNodeCandidate.compatible c) (last_seen c) (DiscoveredNodeCandidate.identity_fingerprint c)
    (DiscoveredNodeCandidate.transport_fingerprint c) endpoints (DiscoveredNodeCandidate.root_public_key c)
    (DiscoveredNodeCandidate.transport_generation c) (DiscoveredNodeCandidate.transport_proof c)
    (DiscoveredNodeCandidate.pairing_port c).

Definition seen_at (c : DiscoveredNodeCandidate.t) (now : float) : DiscoveredNodeCandidate.t :=
  DiscoveredNodeCandidate.mk (stable_id c) (DiscoveredNodeCandidate.hostname c) (DiscoveredNodeCandidate.addresses c)
    (DiscoveredNodeCandidate.port c) (DiscoveredNodeCandidate.service_name c)
    (DiscoveredNodeCandidate.app_version c) (DiscoveredNodeCandidate.protocol_version c)
    (DiscoveredNodeCandidate.platform c) (DiscoveredNodeCandidate.connectable c)
    (DiscoveredNodeCandidate.compatible c) now (DiscoveredNodeCandidate.identity_fingerprint c)
    (DiscoveredNodeCandidate.transport_fingerprint c) (DiscoveredNodeCandidate.endpoint_candidates c)
    (DiscoveredNodeCandidate.root_public_key c) (DiscoveredNodeCandidate.transport_generation c)
    (DiscoveredNodeCandidate.transport_proof c) (DiscoveredNodeCandidate.pairing_port c).

(** [replace(latest, addresses=..., endpoint_candidates=...)]: the constructor runs again. *)
Definition merged (c : DiscoveredNodeCandidate.t) (l : list DiscoveredNodeCandidate.t)
    : result DiscoveredNodeCandidate.t :=
  discovered (with_routes (latest c l) (merged_addresses (c :: l)) (merged_endpoints (c :: l))).

Definition _rebuild_peer (node_id : string) : M t (list EventKind) := λ s,
  match observations s node_id with
  | [] => _drop_peer node_id s
  | c :: l =>
      match merged c l with
      | Err e => (s, Err e)
      | Ok updated =>
          let put := set_peers s (od_set node_id (PeerRecord.mk updated (last_seen (latest c l))) (_peers s)) in
          match od_get node_id (_peers s) with
          | None => (put, Ok [EVENT_CANDIDATE updated])
          | Some record =>
              match discovered (seen_at (PeerRecord.candidate record) (last_seen updated)) with
              | Err e => (put, Err e)
              | Ok existing => (put, Ok (if bool_decide (existing = updated) then [] else [EVENT_CANDIDATE updated]))
              end
          end
      end
  end.
End discovery.

(** ** Events *)

Inductive event_name := Add | Update | Remove | OtherEvent.

Section network_discovery.
Context (ip_address : string → option IPAddress) (inet_ntop : bool → string → option string).
Context (utf8_decode : string → string).
Notation _normalize := (_normalize ip_address inet_ntop utf8_decode).
Notation _rebuild_peer := (_rebuild_peer ip_address).

(** An observation replaces what its service was known for; when it is now another node, the
    former one is rebuilt first. *)
Definition observe_service (service_name : string) (candidate : DiscoveredNodeCandidate.t) : M t (list EventKind) :=
  previous ← (λ s, (s, Ok (_service_nodes s !! service_name)));
  before ← match previous with
           | Some node_id =>
               if bool_decide (node_id = stable_id candidate) then mret []
               else (λ s, (set_services s (_service_nodes s) (od_pop service_name (_service_candidates s)), Ok ()));;
                    _rebuild_peer node_id
           | None => mret []
           end;
  (λ s, (set_services s (<[service_name := stable_id candidate]> (_service_nodes s))
           (od_set service_name candidate (_service_candidates s)), Ok ()));;
  after ← _rebuild_peer (stable_id candidate);
  mret (before ++ after).

Definition remove_service (service_name : string) : M t (list EventKind) :=
  node_id ← (λ s, (s, Ok (_service_nodes s !! service_name)));
  (λ s, (set_services s (delete service_name (_service_nodes s))
           (od_pop service_name (_service_candidates s)), Ok ()));;
  match node_id with
  | Some node_id => _rebuild_peer node_id
  | None => mret []
  end.

(** The events to be delivered once the lock is released.  A service name that is no text is
    logged and ignored. *)
Definition _handle_transport_event_locked (event : event_name) (service_name : option string)
    (info : ServiceInfo.t) (now : float) : M t (list EventKind) := λ s,
  if negb (_active s) then (s, Ok [])
  else match event, service_name with
       | OtherEvent, _ | _, None => (s, Ok [])
       | Remove, Some service_name => remove_service service_name s
       | _, Some service_name =>
           match _normalize s service_name info now with
           | Err e => (s, Err e)
           | Ok None => (s, Ok [])
           | Ok (Some candidate) => observe_service service_name candidate s
           end
       end.

(** [now - record.last_seen > self._ttl_seconds] *)
Definition is_stale (s : t) (now : float) (r : PeerRecord.t) : bool :=
  fltb (_ttl_seconds s) (fsub now (PeerRecord.last_seen r)).

Fixpoint drop_each (nodes : list string) : M t (list EventKind) :=
  match nodes with
  | [] => mret []
  | node_id :: nodes => lost ← _drop_peer node_id; more ← drop_each nodes; mret (lost ++ more)
  end.

Definition expire_stale (now : float) : M t (list EventKind) := λ s,
  drop_each (List.filter (λ kr, is_stale s now kr.2) (_peers s)).*1 s.

(** ** Starting and stopping *)

Context (available : bool) (backend_start backend_stop : M t ()).

Definition not_installed : string := "python-zeroconf is not installed".

Definition unavailable_reason (s : t) : option string :=
  match _unavailable_reason s with
  | Some reason => Some reason
  | None => if available then None else Some not_installed
  end.

Definition quietly (m : M t ()) : M t () := attempt m (λ _, mret ()).
Definition edit (f : t → t) : M t () := λ s, (f s, Ok ()).

(** The backend may deliver events, and stop the component, while it starts. *)
Definition start : M t bool := λ s,
  if _active s then (s, Ok true)
  else if negb available then (set_active s false (Some not_installed), Ok false)
  else (edit (λ s, set_active s true (_unavailable_reason s));;
        started ← outcome backend_start;
        match started with
        | Err error =>
            quietly backend_stop;;
            edit (λ s, set_active (cleared s) false
                         (Some ("Discovery start failed: " +:+ exn_msg error)));;
            mret false
        | Ok _ =>
            active ← (λ s, (s, Ok (_active s)));
            if (active : bool)
            then edit (λ s, set_active s true None);; mret true
            else quietly backend_stop;; mret false
        end) s.

Definition stop : M t () := λ s,
  if negb (_active s) then (s, Ok ())
  else (edit (λ s, set_active s false (_unavailable_reason s));;
        quietly backend_stop;;
        edit cleared) s.
End network_discovery.
