(* ===== verification/IdentityStore.v ===== *)
(** * The identity of a node and its files ([identity/__init__.py], [identity/profile_state.py])

    [NodeIdentity]: its constructor, its JSON form, and the two files it is kept in, the metadata
    ([identity.yaml]) and the secrets ([identity.msgpack]).  [_load_or_create_node_identity] loads
    the identity of a profile, bringing older forms to the current one, or makes a new one.
    Observation scopes are left out, which [Observability.scope_is_transparent] justifies;
    SHA-256, base64 and Ed25519 are parameters, and raw keys are texts of code points below 256. *)

From S2P Require Import Prelude Bytes Disk PyFloat Identity PyJson Stores Discovery.
From stdpp Require Import pretty.

(** ** Hexadecimal text *)

Definition hex_value (c : Ascii.ascii) : option nat :=
  let n := Ascii.nat_of_ascii c in
  if Nat.leb 48 n && Nat.leb n 57 then Some (n - 48)
  else if Nat.leb 65 n && Nat.leb n 70 then Some (n - 55)
  else if Nat.leb 97 n && Nat.leb n 102 then Some (n - 87)
  else None.
(** Blanks as [isspace] of C has them. *)
Definition blank (c : Ascii.ascii) : bool :=
  let n := Ascii.nat_of_ascii c in Nat.eqb n 32 || Nat.leb 9 n && Nat.leb n 13.

(** [bytes.fromhex(text)]: blanks are skipped between the bytes. *)
Fixpoint fromhex (s : string) : result string :=
  match s with
  | EmptyString => Ok EmptyString
  | String c rest =>
      if blank c then fromhex rest
      else match hex_value c, rest with
           | Some a, String d rest' =>
               match hex_value d with
               | Some b => tail ← fromhex rest'; Ok (String (Ascii.ascii_of_nat (16 * a + b)) tail)
               | None => raise ValueError "non-hexadecimal number found in fromhex() arg"
               end
           | _, _ => raise ValueError "non-hexadecimal number found in fromhex() arg"
           end
  end.
(** [data.hex()] *)
Fixpoint hex (data : string) : string :=
  match data with
  | EmptyString => EmptyString
  | String c rest =>
      let n := Ascii.nat_of_ascii c in
      String (hex_digit (n / 16)) (String (hex_digit (n mod 16)) (hex rest))
  end.

(** What the code takes from [hashlib], [base64] and [cryptography]. *)
Class Crypto := {
  sha256_hex : string → string;
  b64encode : string → string;
  b64decode : string → option string;
  ed25519_public : string → string }.

Definition _IDENTITY_PROFILE_SCHEMA_VERSION : Z := 3.
Definition _IDENTITY_SECRET_SCHEMA_VERSION : Z := 1.
Definition _IDENTITY_SECRET_FIELDS : list string := ["schema_version"; "node_id"; "secret"; "root_private_key"].
Definition _IDENTITY_JSON_FIELDS : list string :=
  ["version"; "schema_version"; "node_id"; "secret"; "root_private_key"; "device_identity_expected";
   "root_public_key"; "secret_fingerprint"].

(** [v == z] of a number that is not a [bool] *)
Definition equals_int (v : json) (z : Z) : bool :=
  match v with JInt x => (x =? z)%Z | JFloat f => feqb f (flit z) | _ => false end.
Definition mp_equals_int (v : mp) (z : Z) : bool :=
  match v with MInt x => (x =? z)%Z | MFloat f => feqb f (flit z) | _ => false end.

Section keys.
Context `{crypto : Crypto}.

(** [binascii.Error] is a [ValueError]. *)
Definition b64_bytes (s : string) : result string :=
  of_option (b64decode s) ValueError "Incorrect padding".

(** The key is its 32 bytes. *)
Definition _decode_root_private_key (value : string) : result string :=
  reraise [TypeError; ValueError]
    (key ← b64_bytes value; raise_if (negb (py_len key =? 32)%Z) ValueError "";; Ok key)
    ValueError "invalid root signing key".

Definition SECRET_PREFIX : string := "expra-connect/identity-secret/v1" +:+ NUL.
Definition _secret_fingerprint (secret : string) : result string :=
  raise_if (negb (py_len secret =? 32)%Z) ValueError "identity secret must be 256-bit binary data";;
  Ok (sha256_hex (SECRET_PREFIX +:+ secret)).
End keys.

Module NodeIdentity.
Record t := mk {
  node_id : NodeId;
  secret : string;
  root_private_key : string;
  device_identity_expected : bool;
  _extensions : list (string * json) }.

Section methods.
Context `{sys : System} `{codecs : Codecs} `{crypto : Crypto}.

(** [generated]: the private key drawn when none is given. *)
Definition __post_init__ (generated : string) (self : t) : result t :=
  raise_if (negb (py_len (secret self) =? 64)%Z) ValueError "identity secret must be 256-bit hex text";;
  reraise [ValueError] (fromhex (secret self)) ValueError "identity secret must be hexadecimal";;
  let key := if bool_decide (root_private_key self = "") then b64encode generated else root_private_key self in
  reraise [ValueError] (_decode_root_private_key key) ValueError "invalid root signing key";;
  raise_if (existsb (λ item, bool_decide (item.1 ∈ _IDENTITY_JSON_FIELDS)) (_extensions self)) ValueError
    "identity extensions are invalid";;
  Ok (mk (node_id self) (secret self) key (device_identity_expected self) (_extensions self)).

(** [token16], [token32]: the texts of [secrets.token_hex]. *)
Definition create (node : option NodeId) (token16 token32 generated : string) : result t :=
  node ← match node with Some node => Ok node | None => NodeId.__post_init__ token16 end;
  __post_init__ generated (mk node token32 "" false []).

Definition to_json (self : t) : result text :=
  let document := od_update (od_of_list (_extensions self))
    [("version", JInt 2); ("node_id", JStr (value (node_id self))); ("secret", JStr (secret self));
     ("root_private_key", JStr (root_private_key self))] in
  json_text (JObj (if device_identity_expected self
                   then od_set "device_identity_expected" (JBool true) document else document)).

Definition malformed : string := "identity document is malformed".
Definition extensions_of (document : list (string * json)) : list (string * json) :=
  List.filter (λ item, negb (bool_decide (item.1 ∈ _IDENTITY_JSON_FIELDS))) document.

(** What [json.loads] reads for [NaN] and the infinities. *)
Definition json_constant (name : string) : result json :=
  Ok (JFloat (if bool_decide (name = "NaN") then S754_nan
              else S754_infinity (bool_decide (name = "-Infinity")))).

(** The checks of the document of [from_json]. *)
Definition from_document (generated : string) (document : list (string * json)) : result t :=
  raise_if (existsb (λ name, match od_get name document with
                             | None => false
                             | Some v => match is_int v with
                                         | Some z => negb ((z =? 1)%Z || (z =? 2)%Z)
                                         | None => true
                                         end
                             end) ["version"; "schema_version"])
    ValueError "identity schema version is invalid";;
  raise_if (match od_get "version" document, od_get "schema_version" document with
            | Some (JInt a), Some (JInt b) => negb (a =? b)%Z
            | _, _ => false
            end) ValueError "identity schema versions conflict";;
  match od_get "node_id" document, od_get "secret" document with
  | Some (JStr node), Some (JStr sec) =>
      match jget_or "root_private_key" (JStr "") document, jget_or "device_identity_expected" (JBool false) document with
      | JStr key, expected =>
          raise_if (od_mem "root_private_key" document && bool_decide (key = "")) ValueError malformed;;
          match expected with
          | JBool expected =>
              node ← NodeId.__post_init__ node;
              __post_init__ generated (mk node sec key expected (extensions_of document))
          | _ => raise ValueError malformed
          end
      | _, _ => raise ValueError malformed
      end
  | _, _ => raise ValueError malformed
  end.

Definition from_json (generated : string) (value : text) : result t :=
  document ← reraise [TypeError; ValueError] (json_loads json_constant value) ValueError malformed;
  match document with
  | JObj document => from_document generated document
  | _ => raise ValueError malformed
  end.

Definition root_public_key (self : t) : result string :=
  key ← _decode_root_private_key (root_private_key self); Ok (b64encode (ed25519_public key)).

Definition _profile_metadata (self : t) : result (list (string * json)) :=
  public ← root_public_key self;
  bytes ← fromhex (secret self);
  fingerprint ← _secret_fingerprint bytes;
  let metadata := od_update (od_of_list (_extensions self))
    [("schema_version", JInt _IDENTITY_PROFILE_SCHEMA_VERSION); ("node_id", JStr (value (node_id self)));
     ("root_public_key", JStr public); ("secret_fingerprint", JStr fingerprint)] in
  Ok (if device_identity_expected self then od_set "device_identity_expected" (JBool true) metadata else metadata).

Definition _secret_document (self : t) : result (list (string * mp)) :=
  bytes ← fromhex (secret self);
  key ← b64_bytes (root_private_key self);
  Ok [("schema_version", MInt _IDENTITY_SECRET_SCHEMA_VERSION); ("node_id", MStr (value (node_id self)));
      ("secret", MBin bytes); ("root_private_key", MBin key)].

(** The secrets are written first, and with the directory. *)
Definition save (self : t) (path : string) : IO () :=
  bundle ← io_lift (_secret_document self);
  MessagePackStateStore.save (with_suffix path ".msgpack") bundle;;
  metadata ← io_lift (_profile_metadata self);
  _save_text_document path metadata false.

Definition mismatch : string := "identity secret bundle is malformed or mismatched".

(** The comparison of [_from_profile] of the metadata with the loaded bundle. *)
Definition from_bundle (generated : string) (metadata : list (string * json)) (node root_public fingerprint : string)
    (expected : bool) (bundle : list (string * mp)) : result t :=
  match od_get "schema_version" bundle, od_get "node_id" bundle, od_get "secret" bundle, od_get "root_private_key" bundle with
  | Some version, Some (MStr bundle_node), Some (MBin sec), Some (MBin key) =>
      raise_if (negb (forallb (λ k, bool_decide (k ∈ _IDENTITY_SECRET_FIELDS)) bundle.*1
                      && mp_equals_int version _IDENTITY_SECRET_SCHEMA_VERSION
                      && bool_decide (bundle_node = node)
                      && (py_len sec =? 32)%Z && (py_len key =? 32)%Z)) StateDataError mismatch;;
      found ← _secret_fingerprint sec;
      raise_if (negb (bool_decide (b64encode (ed25519_public key) = root_public) && bool_decide (found = fingerprint)))
        StateDataError "identity secret bundle does not match its metadata";;
      node ← NodeId.__post_init__ node;
      __post_init__ generated (mk node (hex sec) (b64encode key) expected (extensions_of metadata))
  | _, _, _, _ => raise StateDataError mismatch
  end.

Definition _from_profile (generated path : string) (metadata : list (string * json)) : IO t :=
  match jget "node_id" metadata, jget "root_public_key" metadata, jget "secret_fingerprint" metadata,
        jget_or "device_identity_expected" (JBool false) metadata with
  | JStr node, JStr root_public, JStr fingerprint, JBool expected =>
      let secret_path := with_suffix path ".msgpack" in
      here ← io_get (λ s, exists_ s secret_path);
      io_lift (raise_if (negb here) StateDataError "identity secrets are missing");;
      bundle ← MessagePackStateStore.load secret_path;
      io_lift (from_bundle generated metadata node root_public fingerprint expected bundle)
  | _, _, _, _ => io_lift (raise ValueError "identity metadata is malformed")
  end.

(** [schema_version] is the current one. *)
Definition is_profile (document : list (string * json)) : bool :=
  equals_int (jget "schema_version" document) _IDENTITY_PROFILE_SCHEMA_VERSION.

Definition load (generated path : string) : IO t :=
  value ← io_reraise [OSError; UnicodeDecodeError] (read_text path) ValueError malformed;
  document ← io_lift (reraise [TypeError; ValueError; YAMLError] (yaml_load value) ValueError malformed);
  match document with
  | JObj document =>
      if is_profile document then _from_profile generated path document
      else
        identity ← io_lift (from_json generated value);
        save identity path;;
        mret identity
  | _ => io_lift (raise ValueError malformed)
  end.
End methods.
End NodeIdentity.

(** ** The identity of a profile *)

(** [next(profile.glob(pattern), None) is not None] for a pattern with one star. *)
Definition glob_any (s : Disk.t) (prefix sfx : string) : bool :=
  existsb (λ name, String.prefix prefix name && endswith name sfx
                   && Nat.leb (String.length prefix + String.length sfx) (String.length name))
    (map_to_list (Disk.names s)).*1.

Definition dependent_names : list string :=
  ["device_identity.yaml"; "device_identity.json"; "device_identity.msgpack"; "trust.yaml"; "trust.json";
   "transport.yaml"; "transport.json"; "cluster.yaml"; "cluster.json"; "idempotency.yaml"; "idempotency.json";
   "peer-tls.crt"; "peer-tls.key"].

Section profile.
Context `{sys : System} `{codecs : Codecs} `{crypto : Crypto}.

(** What a new identity is drawn from. *)
Record Tokens := mkTokens { token16 : string; token32 : string; generated : string }.

Definition has_dependent_state (s : Disk.t) : bool :=
  existsb (exists_ s) dependent_names || glob_any s "transport-" ".yaml" || glob_any s "transport-" ".json"
  || glob_any s "peer-tls-" ".crt" || glob_any s "peer-tls-" ".key".

Definition _load_or_create_node_identity (fresh : Tokens) : IO NodeIdentity.t :=
  yaml ← io_get (λ s, exists_ s "identity.yaml");
  if yaml : bool then NodeIdentity.load (generated fresh) "identity.yaml"
  else
    json ← io_get (λ s, exists_ s "identity.json");
    if json : bool
    then identity ← NodeIdentity.load (generated fresh) "identity.json";
         NodeIdentity.save identity "identity.yaml";;
         mret identity
    else
      secrets ← io_get (λ s, exists_ s "identity.msgpack");
      io_lift (raise_if secrets StateDataError "identity metadata is missing");;
      dependent ← io_get has_dependent_state;
      io_lift (raise_if dependent StateDataError "profile state exists but the network identity is missing");;
      identity ← io_lift (NodeIdentity.create None (token16 fresh) (token32 fresh) (generated fresh));
      NodeIdentity.save identity "identity.yaml";;
      mret identity.
End profile.
