(* ===== verification/DeviceIdentity.v ===== *)
(** * The device identity of a profile ([identity/device_identity.py], [identity/device_hardware.py])

    [DeviceIdentity]: the local form of the network root, with evidence of the hardware it was made
    on, kept in two files like the identity; [load_profile_identity] loads or makes the pair.
    A hint collected from the hardware is an argument of the methods that compare it; so are the
    readings of the clock. *)

From S2P Require Import Prelude Bytes Disk PyFloat Identity ConnectionState PyJson StateCodec Stores Discovery IdentityStore.

(** ** Hardware evidence *)

Definition lower_hex (c : Ascii.ascii) : bool :=
  let n := Ascii.nat_of_ascii c in (Nat.leb 48 n && Nat.leb n 57) || (Nat.leb 97 n && Nat.leb n 102).
Definition source_char (c : Ascii.ascii) : bool :=
  let n := Ascii.nat_of_ascii c in
  (Nat.leb 48 n && Nat.leb n 57) || (Nat.leb 97 n && Nat.leb n 122) || Nat.eqb n 45.
Definition chars (s : string) : list Ascii.ascii := String.list_ascii_of_string s.

(** [sorted(set(texts))] *)
Definition sorted_set (l : list string) : list string := sorted str_leb (remove_dups l).

Module DeviceHardwareHint.
Record t := mk { digest : string; sources_present : list string }.
#[global] Instance eq_dec : EqDecision t.
Proof. solve_decision. Defined.

Definition __post_init__ (self : t) : result t :=
  raise_if (negb ((py_len (digest self) =? 64)%Z && forallb lower_hex (chars (digest self)))) ValueError
    "hardware hint digest is invalid";;
  raise_if (negb (forallb (λ s, negb (bool_decide (s = "")) && forallb source_char (chars s)) (sources_present self)
                  && bool_decide (sorted_set (sources_present self) = sources_present self))) ValueError
    "hardware hint sources are invalid";;
  Ok self.
End DeviceHardwareHint.

(** [value.strip().lower().translate(_MAC_SEPARATOR_TRANSLATION)] *)
Definition compact (value : string) : string :=
  String.string_of_list_ascii
    (List.filter (λ c, negb (bool_decide (Ascii.nat_of_ascii c ∈ [45; 58; 32; 46]))) (chars (lower (strip value)))).

(** The least significant bit of the first octet marks a group address. *)
Definition usable (mac : string) : bool :=
  (py_len mac =? 12)%Z && forallb lower_hex (chars mac) && negb (bool_decide (mac = "000000000000"))
  && match chars mac with
     | _ :: c :: _ => match hex_value c with Some v => Nat.even v | None => false end
     | _ => false
     end.
Definition normalize_mac_addresses (values : list string) : list string :=
  sorted_set (List.filter usable (compact <$> values)).

(** [text.encode("utf-8")] of code points below 256, as a text of bytes *)
Fixpoint utf8_text (s : string) : string :=
  match s with
  | EmptyString => EmptyString
  | String c rest =>
      let n := Ascii.nat_of_ascii c in
      if Nat.ltb n 128 then String c (utf8_text rest)
      else String (Ascii.ascii_of_nat (192 + n / 64)) (String (Ascii.ascii_of_nat (128 + n mod 64)) (utf8_text rest))
  end.

Definition HARDWARE_HINT_DOMAIN : string := "expra-connect/device-hardware-hint/v1" +:+ NUL.

Section hints.
Context `{crypto : Crypto}.

(** [macs], [machine]: what the provider answers; its errors are ignored. *)
Definition _safe_machine_id (machine : result (option string)) : option string :=
  match machine with
  | Ok (Some value) => if bool_decide (strip value = "") then None else Some (strip value)
  | _ => None
  end.
Definition collect_hardware_hint (macs : result (list string)) (machine : result (option string)) :
    result (option DeviceHardwareHint.t) :=
  let macs := normalize_mac_addresses (match macs with Ok l => l | Err _ => [] end) in
  let evidence :=
    (match macs with [] => [] | _ => [("mac", "macs:" +:+ String.concat "," macs)] end)
    ++ match _safe_machine_id machine with Some id => [("machine-id", "machine-id:" +:+ id)] | None => [] end in
  match evidence with
  | [] => Ok None
  | _ => let payload := utf8_text (String.concat NUL evidence.*2) in
         hint ← DeviceHardwareHint.__post_init__
                  (DeviceHardwareHint.mk (sha256_hex (HARDWARE_HINT_DOMAIN +:+ payload)) evidence.*1);
         Ok (Some hint)
  end.
End hints.

(** ** The identity of the device *)

Definition DEVICE_IDENTITY_SCHEMA_VERSION : Z := 1.
Definition DEVICE_IDENTITY_PROFILE_SCHEMA_VERSION : Z := 2.
Definition DEVICE_IDENTITY_SECRET_SCHEMA_VERSION : Z := 1.
Definition _DEVICE_IDENTITY_JSON_FIELDS : list string :=
  ["schema_version"; "node_id"; "public_key"; "private_key"; "fingerprint"; "created_at"; "hardware_hint_digest";
   "hardware_hint_sources"].
Definition DEVICE_SECRET_FIELDS : list string := ["schema_version"; "node_id"; "fingerprint"; "private_key"].

Definition _is_raw_ed25519_key (key : string) : bool := (py_len key =? 32)%Z.
Definition _is_valid_created_at (v : float) : bool := isfinite v && fltb (flit 0) v.
Definition _is_valid_identity_extensions (l : list (string * json)) : bool :=
  forallb (λ item, negb (bool_decide (item.1 ∈ _DEVICE_IDENTITY_JSON_FIELDS))) l.

Section keys.
Context `{crypto : Crypto}.
Definition fingerprint_for_public_key (public_key : string) : result string :=
  raise_if (negb (_is_raw_ed25519_key public_key)) ValueError "device identity public key is invalid";;
  Ok ("ed25519:" +:+ sha256_hex public_key).
Definition _encode_bytes (value : string) : string := b64encode value.
Definition _decode_bytes (value : json) : result string :=
  match value with
  | JStr s => decoded ← b64_bytes s;
              raise_if (negb (_is_raw_ed25519_key decoded)) ValueError "";; Ok decoded
  | _ => raise ValueError ""
  end.
End keys.

Definition _hardware_hint_state (stored current : option DeviceHardwareHint.t) : bool * string :=
  match stored, current with
  | None, _ => (false, "not_recorded")
  | Some _, None => (false, "unavailable")
  | Some a, Some b =>
      if bool_decide (DeviceHardwareHint.digest a = DeviceHardwareHint.digest b) then (false, "match") else (true, "changed")
  end.

Module DeviceIdentityView.
Record t := mk {
  node_id : NodeId; fingerprint : string; created_at : float; hardware_hint_changed : bool; hardware_hint_status : string }.
End DeviceIdentityView.

Module DeviceIdentity.
Record t := mk {
  node_id : NodeId;
  public_key : string;
  fingerprint : string;
  created_at : float;
  hardware_hint : option DeviceHardwareHint.t;
  hardware_hint_changed : bool;
  hardware_hint_status : string;
  _private_key_bytes : string;
  _extensions : list (string * json) }.

Section methods.
Context `{sys : System} `{codecs : Codecs} `{crypto : Crypto}.
Abbreviation hint := (option DeviceHardwareHint.t) (only parsing).

Definition __post_init__ (self : t) : result t :=
  raise_if (negb (_is_raw_ed25519_key (public_key self))) ValueError "device identity public key is invalid";;
  raise_if (negb (_is_raw_ed25519_key (_private_key_bytes self))) ValueError "device identity private key is invalid";;
  raise_if (negb (_is_valid_created_at (created_at self))) ValueError "device identity creation time is invalid";;
  found ← fingerprint_for_public_key (public_key self);
  raise_if (negb (bool_decide (fingerprint self = found))) ValueError "device identity fingerprint is invalid";;
  raise_if (negb (bool_decide (ed25519_public (_private_key_bytes self) = public_key self))) ValueError
    "device identity key pair does not match";;
  raise_if (negb (_is_valid_identity_extensions (_extensions self))) ValueError "device identity extensions are invalid";;
  Ok self.

Definition create (node : NodeId) (drawn_key : string) (now : float) (collected : hint) : result t :=
  let public := ed25519_public drawn_key in
  found ← fingerprint_for_public_key public;
  __post_init__ (mk node public found now collected false "not_recorded" drawn_key []).

(** The active network root as the local device identity. *)
Definition from_node_identity (node : NodeIdentity.t) (existing : option t) (current : hint) (now : float) : result t :=
  raise_if (match existing with
            | Some e => negb (bool_decide (node_id e = NodeIdentity.node_id node))
            | None => false
            end) DeviceIdentityError "device identity NodeId does not match local NodeId";;
  key ← reraise [ValueError] (_decode_root_private_key (NodeIdentity.root_private_key node)) DeviceIdentityError
          "active node identity root is malformed";
  let public := ed25519_public key in
  let stored := existing ≫= hardware_hint in
  let '(changed, status) := _hardware_hint_state stored current in
  found ← fingerprint_for_public_key public;
  __post_init__
    (mk (NodeIdentity.node_id node) public found
       (match existing with Some e => created_at e | None => now end)
       (match existing with Some _ => stored | None => current end) changed status key
       (match existing with Some e => _extensions e | None => [] end)).

Definition malformed : string := "device identity is malformed".

(** [v == 1], which [True] is *)
Definition is_one (v : json) : bool := match v with JBool b => b | _ => equals_int v 1 end.

Definition hint_of (document : list (string * json)) : result hint :=
  sources ← of_option (is_list (jget_or "hardware_hint_sources" (JList []) document)) ValueError "";
  sources ← of_option (all_str sources) ValueError "";
  match jget "hardware_hint_digest" document with
  | JNull => Ok None
  | JStr digest =>
      raise_if (bool_decide (sources = [])) ValueError "";;
      hint ← DeviceHardwareHint.__post_init__ (DeviceHardwareHint.mk digest sources);
      Ok (Some hint)
  | _ => raise ValueError ""
  end.

Definition required (key : string) (document : list (string * json)) : result json :=
  of_option (od_get key document) KeyError key.

(** The body of the [try] of [_from_document]. *)
Definition read_document (document : list (string * json)) : result t :=
  raw_node ← required "node_id" document;
  raw_node ← of_option (is_str raw_node) ValueError "";
  node ← NodeId.__post_init__ raw_node;
  public ← required "public_key" document ≫= _decode_bytes;
  key ← required "private_key" document ≫= _decode_bytes;
  found ← required "fingerprint" document;
  created ← required "created_at" document;
  match found with
  | JStr found =>
      raise_if (negb (is_number created)) ValueError "";;
      collected ← hint_of document;
      created ← to_float created;
      __post_init__ (mk node public found created collected false "not_recorded" key
        (List.filter (λ item, negb (bool_decide (item.1 ∈ _DEVICE_IDENTITY_JSON_FIELDS))) document))
  | _ => raise ValueError ""
  end.
Definition _from_document (document : list (string * json)) : result t :=
  raise_if (negb (is_one (jget "schema_version" document))) DeviceIdentityError "unsupported device identity schema";;
  reraise [KeyError; TypeError; ValueError; OverflowError] (read_document document) DeviceIdentityError malformed.

(** [except DeviceIdentityError: raise], then [except (TypeError, ValueError)] *)
Definition or_malformed {A} (m : result A) : result A :=
  match m with
  | Err e => if exn_isa e DeviceIdentityError then Err e else reraise [TypeError; ValueError] m DeviceIdentityError malformed
  | Ok a => Ok a
  end.

Definition from_json (value : text) (expected : option NodeId) (current : hint) : result t :=
  identity ← or_malformed (document ← json_loads NodeIdentity.json_constant value;
                           document ← of_option (is_obj document) ValueError "";
                           _from_document document);
  raise_if (match expected with Some n => negb (bool_decide (node_id identity = n)) | None => false end)
    DeviceIdentityError "device identity NodeId does not match local NodeId";;
  let '(changed, status) := _hardware_hint_state (hardware_hint identity) current in
  __post_init__ (mk (node_id identity) (public_key identity) (fingerprint identity) (created_at identity)
    (hardware_hint identity) changed status (_private_key_bytes identity) (_extensions identity)).

Definition hint_members (h : hint) : list (string * json) :=
  match h with
  | Some h => [("hardware_hint_digest", JStr (DeviceHardwareHint.digest h));
               ("hardware_hint_sources", JList (JStr <$> DeviceHardwareHint.sources_present h))]
  | None => []
  end.

Definition secret_bundle (self : t) : list (string * mp) :=
  [("schema_version", MInt DEVICE_IDENTITY_SECRET_SCHEMA_VERSION); ("node_id", MStr (value (node_id self)));
   ("fingerprint", MStr (fingerprint self)); ("private_key", MBin (_private_key_bytes self))].
Definition profile_metadata (self : t) : list (string * json) :=
  od_update (od_of_list (List.filter (λ item, negb (bool_decide (item.1 ∈ _DEVICE_IDENTITY_JSON_FIELDS))) (_extensions self)))
    ([("schema_version", JInt DEVICE_IDENTITY_PROFILE_SCHEMA_VERSION); ("node_id", JStr (value (node_id self)));
      ("public_key", JStr (_encode_bytes (public_key self))); ("fingerprint", JStr (fingerprint self));
      ("created_at", JFloat (created_at self))] ++ hint_members (hardware_hint self)).

Definition save (self : t) (path : string) : IO () :=
  MessagePackStateStore.save (with_suffix path ".msgpack") (secret_bundle self);;
  _save_text_document path (profile_metadata self) true.

(** The part of [_from_profile] under [try]: the private key. *)
Definition profile_key (node : NodeId) (raw_public found : string) (bundle : list (string * mp)) : result string :=
  match od_get "schema_version" bundle, od_get "node_id" bundle, od_get "fingerprint" bundle, od_get "private_key" bundle with
  | Some version, Some (MStr bundle_node), Some (MStr bundle_found), Some (MBin key) =>
      raise_if (negb (forallb (λ k, bool_decide (k ∈ DEVICE_SECRET_FIELDS)) bundle.*1
                      && mp_equals_int version DEVICE_IDENTITY_SECRET_SCHEMA_VERSION
                      && bool_decide (bundle_node = value node) && bool_decide (bundle_found = found)
                      && _is_raw_ed25519_key key)) ValueError "device identity secret bundle is malformed";;
      public ← _decode_bytes (JStr raw_public);
      derived ← fingerprint_for_public_key public;
      raise_if (negb (bool_decide (ed25519_public key = public) && bool_decide (found = derived))) ValueError
        "device identity secret bundle does not match metadata";;
      Ok key
  | _, _, _, _ => raise ValueError "device identity secret bundle is malformed"
  end.

Definition _from_profile (path : string) (metadata : list (string * json)) (expected : option NodeId) (current : hint) : IO t :=
  match jget "node_id" metadata, jget "public_key" metadata, jget "fingerprint" metadata with
  | JStr raw_node, JStr raw_public, JStr found =>
      io_lift (raise_if (negb (is_number (jget "created_at" metadata))) DeviceIdentityError
                 "device identity metadata is malformed");;
      node ← io_lift (reraise [ValueError] (NodeId.__post_init__ raw_node) DeviceIdentityError
                        "device identity NodeId is invalid");
      io_lift (raise_if (match expected with Some n => negb (bool_decide (node = n)) | None => false end)
                 DeviceIdentityError "device identity NodeId does not match local NodeId");;
      let secret_path := with_suffix path ".msgpack" in
      here ← io_get (λ s, exists_ s secret_path);
      io_lift (raise_if (negb here) DeviceIdentityError "device identity private key is missing");;
      key ← io_reraise [StateDataError; TypeError; ValueError]
              (bundle ← MessagePackStateStore.load secret_path; io_lift (profile_key node raw_public found bundle))
              DeviceIdentityError "device identity private key bundle is invalid";
      let legacy := od_set "private_key" (JStr (_encode_bytes key))
                      (od_set "schema_version" (JInt DEVICE_IDENTITY_SCHEMA_VERSION) (od_pop "schema_version" metadata)) in
      t ← io_lift (json_text (JObj legacy));
      io_lift (from_json t expected current)
  | _, _, _ => io_lift (raise DeviceIdentityError "device identity metadata is malformed")
  end.

Definition load (path : string) (expected : option NodeId) (current : hint) : IO t :=
  value ← io_reraise [OSError; UnicodeDecodeError] (read_text path) DeviceIdentityError malformed;
  document ← io_lift (reraise [TypeError; ValueError; YAMLError] (yaml_load value) DeviceIdentityError malformed);
  match document with
  | JObj document =>
      if equals_int (jget "schema_version" document) DEVICE_IDENTITY_PROFILE_SCHEMA_VERSION
      then _from_profile path document expected current
      else
        identity ← io_lift (from_json value expected current);
        save identity path;;
        mret identity
  | _ => io_lift (raise DeviceIdentityError malformed)
  end.

Definition public_view (self : t) : DeviceIdentityView.t :=
  DeviceIdentityView.mk (node_id self) (fingerprint self) (created_at self) (hardware_hint_changed self)
    (hardware_hint_status self).
Definition device_identity_diagnostics (self : t) : list (string * json) :=
  let view := public_view self in
  [("node_id", JStr (value (DeviceIdentityView.node_id view))); ("fingerprint", JStr (DeviceIdentityView.fingerprint view));
   ("created_at", JFloat (DeviceIdentityView.created_at view));
   ("hardware_hint_changed", JBool (DeviceIdentityView.hardware_hint_changed view));
   ("hardware_hint_status", JStr (DeviceIdentityView.hardware_hint_status view))].
End methods.
End DeviceIdentity.

(** ** The pair of a profile *)

Section profile.
Context `{sys : System} `{codecs : Codecs} `{crypto : Crypto}.

(** [hints 0], [hints 1]: what is collected for the load and for the comparison with the root. *)
Definition load_device_identity (node : NodeIdentity.t) (hints : nat → option DeviceHardwareHint.t) (now : float) :
    IO DeviceIdentity.t :=
  let expected := Some (NodeIdentity.node_id node) in
  yaml ← io_get (λ s, exists_ s "device_identity.yaml");
  json ← io_get (λ s, exists_ s "device_identity.json");
  if negb yaml && json
  then existing ← DeviceIdentity.load "device_identity.json" expected (hints 0);
       identity ← io_lift (DeviceIdentity.from_node_identity node (Some existing) (hints 1) now);
       DeviceIdentity.save identity "device_identity.yaml";;
       mret identity
  else if yaml : bool
  then existing ← DeviceIdentity.load "device_identity.yaml" expected (hints 0);
       identity ← io_lift (DeviceIdentity.from_node_identity node (Some existing) (hints 1) now);
       (if bool_decide (DeviceIdentity.public_key identity = DeviceIdentity.public_key existing) then mret ()
        else DeviceIdentity.save identity "device_identity.yaml");;
       mret identity
  else identity ← io_lift (DeviceIdentity.from_node_identity node None (hints 0) now);
       DeviceIdentity.save identity "device_identity.yaml";;
       mret identity.

(** [replace(identity, device_identity_expected=True)] *)
Definition adopt_marker (generated : string) (i : NodeIdentity.t) : result NodeIdentity.t :=
  NodeIdentity.__post_init__ generated
    (NodeIdentity.mk (NodeIdentity.node_id i) (NodeIdentity.secret i) (NodeIdentity.root_private_key i) true
       (NodeIdentity._extensions i)).

Definition load_profile_identity (fresh : Tokens) (hints : nat → option DeviceHardwareHint.t) (now : float) :
    IO (NodeIdentity.t * DeviceIdentity.t) :=
  identity ← _load_or_create_node_identity fresh;
  here ← io_get (λ s, exists_ s "device_identity.yaml" || exists_ s "device_identity.json");
  io_lift (raise_if (NodeIdentity.device_identity_expected identity && negb here) StateDataError
             "expected device identity is missing");;
  device ← load_device_identity identity hints now;
  if NodeIdentity.device_identity_expected identity then mret (identity, device)
  else
    identity ← io_lift (adopt_marker (generated fresh) identity);
    NodeIdentity.save identity "identity.yaml";;
    mret (identity, device).
End profile.
