(* ===== verification/IdentitySpec.v ===== *)
(** * A node keeps its identity, whatever happens while its files are written

    From a profile that holds an identity, in any of its forms, every start that returns yields it,
    after any number of starts that failed, were killed or lost the machine's power at any point;
    what the files of the device identity may do to a start is stated beside it. *)

From S2P Require Import Prelude Bytes Disk PyFloat Identity PyJson Stores IdentityStore DeviceIdentity.
Import Disk(names, inodes, history, calls).
Import NodeIdentity(node_id, secret, root_private_key, device_identity_expected, _extensions).

(** ** Hexadecimal text reads back *)

Lemma fromhex_byte c rest : fromhex (hex (String c "") +:+ rest) = (tail ← fromhex rest; Ok (String c tail)).
Proof. destruct c as [[] [] [] [] [] [] [] []]; reflexivity. Qed.
Lemma fromhex_hex data : fromhex (hex data) = Ok data.
Proof.
  induction data as [|c data IH]; [done|]. change (hex (String c data)) with (hex (String c "") +:+ hex data).
  by rewrite fromhex_byte, IH.
Qed.
Lemma hex_length data : py_len (hex data) = (2 * py_len data)%Z.
Proof. unfold py_len. induction data as [|c data IH]; [done|]. cbn [hex String.length]. lia. Qed.

(** A text of 64 characters may name fewer than 32 bytes: blanks between the digits count for the
    length and are then skipped. *)
Lemma blank_secret_is_shorter : ∃ s bytes, py_len s = 64%Z ∧ fromhex s = Ok bytes ∧ py_len bytes = 31%Z.
Proof.
  exists ("  " +:+ hex (String.string_of_list_ascii (replicate 31 (Ascii.ascii_of_nat 171)))). eexists.
  split_and!; by vm_compute.
Qed.

(** ** Running on any system *)

(** The directory can be synchronised. *)
Definition syncs (sys : System) : Prop :=
  has_O_DIRECTORY (System := sys) = true ∧ never_fails (sys := sys) OpenDir ∧ never_fails (sys := sys) FsyncDir.
(** All goes well: the directory has room for a temporary file, too. *)
Definition calm (sys : System) (s : Disk.t) : Prop := healthy sys ∧ room sys s.

Section any.
Context `{sys : System}.

Lemma iwp_read name (Q : option (result bytes) → Disk.t → Prop) s :
  Q (Some (of_option (file s name) OSError "No such file or directory")) (tick s) →
  (∀ msg, ¬ healthy sys → Q (Some (raise OSError msg)) (tick s)) → (¬ healthy sys → Q None (tick s)) →
  iwp (read_bytes name) Q s.
Proof.
  intros H1 H2 H3. unfold iwp, read_bytes, call. destruct (os (calls s) Read) eqn:E; [done| |]; cbn.
  - apply H2. intros Hh. by rewrite Hh in E.
  - apply H3. intros Hh. by rewrite Hh in E.
Qed.

Lemma wp_write_any path w m sync (Q : option (result ()) → Disk.t → Prop) s : stable s → visible path = true →
  w.2 = Ok () →
  (∀ o s', outcome_of path w sync s o s' → (calm sys s → o = Some (Ok ()) ∧ room sys s') → Q o s') →
  iwp (_atomic_write_stream path w m sync) Q s.
Proof.
  intros Hs Hp Hw HQ.
  assert (Hcalm : iwp (_atomic_write_stream path w m sync)
    (λ o s', calm sys s → o = Some (Ok ()) ∧ room sys s') s).
  { intros [Hh Hr]. by apply (healthy_write Hh path w m sync (λ o s', o = Some (Ok ()) ∧ room sys s')). }
  eapply iwp_mono; [apply iwp_and; [by apply wp_write; [..|exact (λ _ _ H, H)]|exact Hcalm]|].
  intros o s' [? ?]. by apply HQ.
Qed.
End any.

Lemma stable_tick s : stable s → stable (tick s).
Proof. done. Qed.
Lemma room_tick sys s : room sys s → room sys (tick s).
Proof. intros H. by eapply room_hidden. Qed.

(** ** What a start returns *)

Lemma io_bind_Ok {A B} (m : IO A) (f : A → IO B) s s' b :
  (m ≫= f) s = (s', Some (Ok b)) ↔ ∃ s1 a, m s = (s1, Some (Ok a)) ∧ f a s1 = (s', Some (Ok b)).
Proof. unfold mbind, IO_bind. destruct (m s) as [s1 [[a|e]|]]; naive_solver. Qed.
Lemma io_lift_Ok {A} (r : result A) s s' a : io_lift r s = (s', Some (Ok a)) ↔ s' = s ∧ r = Ok a.
Proof. unfold io_lift. naive_solver. Qed.
Lemma io_get_Ok {A} (f : Disk.t → A) s s' a : io_get f s = (s', Some (Ok a)) ↔ s' = s ∧ a = f s.
Proof. unfold io_get. naive_solver. Qed.
Lemma io_ret_Ok {A} (a b : A) s s' : (mret a : IO A) s = (s', Some (Ok b)) ↔ s' = s ∧ b = a.
Proof. unfold mret, IO_ret. naive_solver. Qed.

Ltac io_step :=
  match goal with
  | H : mbind _ _ _ = (_, Some (Ok _)) |- _ =>
      let s := fresh "s" in let a := fresh "a" in let Hm := fresh "Hm" in apply io_bind_Ok in H as (s & a & Hm & H)
  | H : io_lift _ _ = (_, Some (Ok _)) |- _ => apply io_lift_Ok in H as [-> H]
  | H : io_get _ _ = (_, Some (Ok _)) |- _ => apply io_get_Ok in H as [-> ->]
  | H : mret _ _ = (_, Some (Ok _)) |- _ => apply io_ret_Ok in H as [-> H]
  end.

Lemma reraise_Ok {A} caught (m : result A) c msg a : reraise caught m c msg = Ok a ↔ m = Ok a.
Proof. unfold reraise. destruct m as [|e]; [done|]. by destruct (existsb (exn_isa e) caught). Qed.

Section pair.
Context `{sys : System} `{codecs : Codecs} `{crypto : Crypto}.

(** The device identity is the root of the network identity. *)
Record bound (i : NodeIdentity.t) (v : DeviceIdentity.t) : Prop := {
  bound_node : DeviceIdentity.node_id v = NodeIdentity.node_id i;
  bound_key : _decode_root_private_key (NodeIdentity.root_private_key i) = Ok (DeviceIdentity._private_key_bytes v);
  bound_public : DeviceIdentity.public_key v = ed25519_public (DeviceIdentity._private_key_bytes v);
  bound_fingerprint : DeviceIdentity.fingerprint v = "ed25519:" +:+ sha256_hex (DeviceIdentity.public_key v);
  bound_created : _is_valid_created_at (DeviceIdentity.created_at v) = true }.

Lemma device_post_init v v' : DeviceIdentity.__post_init__ v = Ok v' → v' = v ∧
  _is_valid_created_at (DeviceIdentity.created_at v) = true ∧
  DeviceIdentity.fingerprint v = "ed25519:" +:+ sha256_hex (DeviceIdentity.public_key v).
Proof.
  unfold DeviceIdentity.__post_init__, fingerprint_for_public_key. intros H. py_run.
  repeat match goal with Hn : negb _ = false |- _ => apply negb_false_iff in Hn end. to_prop. done.
Qed.

Lemma root_device_bound i existing current now v :
  DeviceIdentity.from_node_identity i existing current now = Ok v → bound i v ∧
  (∀ e, existing = Some e → DeviceIdentity.node_id e = NodeIdentity.node_id i ∧
     DeviceIdentity.created_at v = DeviceIdentity.created_at e ∧
     DeviceIdentity.hardware_hint v = DeviceIdentity.hardware_hint e).
Proof.
  unfold DeviceIdentity.from_node_identity. intros H.
  apply bind_Ok in H as (? & Hn & H). apply raise_if_Ok in Hn.
  apply bind_Ok in H as (key & Hk & H). apply reraise_Ok in Hk.
  destruct (_hardware_hint_state _ _) as [changed status].
  apply bind_Ok in H as (found & Hf & H). apply device_post_init in H as (-> & Hc & Hp). split.
  - by split.
  - intros e ->. apply negb_false_iff, bool_decide_eq_true in Hn. done.
Qed.

Lemma load_device_bound i hints now s s' v : load_device_identity i hints now s = (s', Some (Ok v)) → bound i v.
Proof.
  unfold load_device_identity. intros H. io_step. io_step. io_step. io_step.
  destruct (_ && _); [|destruct (exists_ _ _)]; repeat io_step; simplify_eq; by eapply root_device_bound.
Qed.

(** The marker is set, and nothing else of the identity changes. *)
Lemma adopt_marker_Ok generated i i' : b64decode "" = Some "" →
  (∃ key, _decode_root_private_key (NodeIdentity.root_private_key i) = Ok key) → adopt_marker generated i = Ok i' →
  NodeIdentity.device_identity_expected i' = true ∧ NodeIdentity.node_id i' = NodeIdentity.node_id i ∧
  NodeIdentity.secret i' = NodeIdentity.secret i ∧ NodeIdentity.root_private_key i' = NodeIdentity.root_private_key i.
Proof.
  intros Hb [key Hk] H. unfold adopt_marker, NodeIdentity.__post_init__ in H. cbn in H. py_run.
  rewrite bool_decide_eq_false_2; [done|]. intros E. rewrite E in Hk. unfold _decode_root_private_key, b64_bytes in Hk.
  by rewrite Hb in Hk.
Qed.

(** C28. A start gives a matched pair.  When [load_profile_identity] returns, the device identity
    has the node and the root key of the network identity, its public key and fingerprint are
    those of that key, its creation time is a positive number, and the identity is marked to have
    one; a marked identity whose device files are gone is refused, and nothing is made anew. *)
Theorem profile_pair_agrees fresh hints now s : b64decode "" = Some "" →
  (∀ s' i v, load_profile_identity fresh hints now s = (s', Some (Ok (i, v))) →
     bound i v ∧ NodeIdentity.device_identity_expected i = true) ∧
  (∀ s1 i, _load_or_create_node_identity fresh s = (s1, Some (Ok i)) → NodeIdentity.device_identity_expected i = true →
     exists_ s1 "device_identity.yaml" = false → exists_ s1 "device_identity.json" = false →
     load_profile_identity fresh hints now s = (s1, Some (raise StateDataError "expected device identity is missing"))).
Proof.
  intros Hb. split.
  - intros s' i v H. unfold load_profile_identity in H. io_step. io_step. io_step. io_step. io_step.
    io_step. match goal with H : load_device_identity _ _ _ _ = _ |- _ => apply load_device_bound in H as Hd end.
    destruct (NodeIdentity.device_identity_expected a) eqn:He.
    + io_step. simplify_eq. done.
    + repeat io_step. simplify_eq.
      match goal with H : adopt_marker _ _ = Ok _ |- _ => apply adopt_marker_Ok in H as (? & Hn & _ & Hr); [|done|] end.
      * split; [|done]. destruct Hd. split; congruence.
      * eexists. by eapply bound_key.
  - intros s1 i E He Hy Hj. unfold load_profile_identity, mbind, IO_bind. rewrite E. unfold io_get, io_lift.
    by rewrite Hy, Hj, He.
Qed.
End pair.

(** ** The documents of an identity *)

Notation yaml_file := "identity.yaml".
Notation json_file := "identity.json".
Notation secrets_file := "identity.msgpack".

(** The text [_save_text_document] writes. *)
Definition document_writer `{codecs : Codecs} (path : string) (d : list (string * json)) : result writer :=
  if bool_decide (suffix path = ".json")
  then encoded ← reraise [TypeError; ValueError; RecursionError] (dumps float_text true (JObj d))
                   StateDataError "state cannot be encoded as JSON";
       Ok (text_writer [points encoded] (Ok ()))
  else Ok (yaml_writer d).

Lemma save_text_document `{sys : System} `{codecs : Codecs} path d sync s :
  _save_text_document path d sync s = (w ← io_lift (document_writer path d); _atomic_write path w sync) s.
Proof.
  unfold _save_text_document, document_writer, _save_json_document. case_bool_decide; [|done].
  unfold mbind, IO_bind, result_bind, io_lift. by destruct (reraise _ _ _ _).
Qed.

Section identity.
Context `{codecs : Codecs} `{crypto : Crypto}.
(** The identity: its name, its secret and its private root key. *)
Context (node : NodeId) (sb kb : string).

Definition secret_doc : list (string * mp) :=
  [("schema_version", MInt 1); ("node_id", MStr (value node)); ("secret", MBin sb); ("root_private_key", MBin kb)].
Definition public_text : string := b64encode (ed25519_public kb).
Definition secret_digest : string := sha256_hex (SECRET_PREFIX +:+ sb).

Record same_identity (i : NodeIdentity.t) : Prop := {
  same_node : node_id i = node;
  same_secret : fromhex (secret i) = Ok sb;
  same_key : b64decode (root_private_key i) = Some kb;
  same_extensions : existsb (λ item, bool_decide (item.1 ∈ _IDENTITY_JSON_FIELDS)) (_extensions i) = false }.

(** The identity as [_from_profile] makes it from metadata [d]. *)
Definition loaded (expected : bool) (d : list (string * json)) : NodeIdentity.t :=
  NodeIdentity.mk node (hex sb) (b64encode kb) expected (NodeIdentity.extensions_of d).

(** The identity, marked to have a device identity. *)
Definition marked (i : NodeIdentity.t) : NodeIdentity.t :=
  NodeIdentity.mk (node_id i) (secret i) (root_private_key i) true (_extensions i).

(** What is asked of base64, MessagePack and the text formats: the documents of the identities in
    [P] can be written and read back, the named members of the metadata at least. *)
Class Storable (P : NodeIdentity.t → Prop) : Prop := {
  st_node : NodeId.__post_init__ (value node) = Ok node;
  st_secret : py_len sb = 32%Z;
  st_key : py_len kb = 32%Z;
  st_base64 : b64decode (b64encode kb) = Some kb ∧ b64encode kb ≠ "" ∧ b64decode "" = Some "";
  st_same i : P i → same_identity i;
  st_marked i : P i → P (marked i);
  st_bundle : ∃ payload decoded, MessagePackStateStore.encode secret_doc = Ok (payload, decoded) ∧
    is_Some (text_map decoded) ∧ MessagePackStateStore.decode payload = Ok secret_doc;
  st_metadata i path d : P i → path = yaml_file ∨ path = json_file → NodeIdentity._profile_metadata i = Ok d →
    ∃ w t d', document_writer path d = Ok w ∧ w.2 = Ok () ∧ decode_text (concat w.1) = Ok t ∧
      yaml_load t = Ok (JObj d') ∧ (∀ k, k ∈ _IDENTITY_JSON_FIELDS → od_get k d' = od_get k d) ∧
      P (loaded (device_identity_expected i) d') }.

Context (P : NodeIdentity.t → Prop) `{storable : !Storable P}.

Lemma key_bytes i : same_identity i → b64_bytes (root_private_key i) = Ok kb.
Proof. intros Hi. unfold b64_bytes. by rewrite (same_key _ Hi). Qed.
Lemma decode_key text : b64decode text = Some kb → _decode_root_private_key text = Ok kb.
Proof. intros E. unfold _decode_root_private_key, b64_bytes. rewrite E. cbn. by rewrite st_key. Qed.

Lemma secret_document i : same_identity i → NodeIdentity._secret_document i = Ok secret_doc.
Proof.
  intros Hi. unfold NodeIdentity._secret_document. rewrite (same_secret _ Hi). cbn. rewrite (key_bytes _ Hi). cbn.
  by rewrite (same_node _ Hi).
Qed.

Lemma loaded_returns g expected d : NodeIdentity.__post_init__ g (loaded expected d) = Ok (loaded expected d).
Proof.
  unfold NodeIdentity.__post_init__, loaded. cbn [secret root_private_key _extensions node_id device_identity_expected].
  destruct st_base64 as (Hb & Hne & _). rewrite hex_length, st_secret. cbn [negb raise_if mbind result_bind].
  rewrite fromhex_hex. cbn [reraise mbind result_bind]. rewrite bool_decide_eq_false_2 by done.
  rewrite (decode_key _ Hb). cbn [reraise mbind result_bind].
  replace (existsb _ _) with false; [done|]. symmetry. apply existsb_false_iff. intros [k v] Hk.
  apply elem_of_lfilter in Hk as [Hk _]. by apply negb_true_iff in Hk.
Qed.

(** ** Metadata *)

Lemma od_get_extensions (l : list (string * json)) k : k ∈ _IDENTITY_JSON_FIELDS →
  existsb (λ item, bool_decide (item.1 ∈ _IDENTITY_JSON_FIELDS)) l = false → od_get k (od_of_list l) = None.
Proof.
  intros Hk Hl. rewrite od_get_of_list. rewrite existsb_false_iff in Hl.
  destruct (List.find _ _) as [[k' v]|] eqn:E; [|done]. apply find_Some_spec in E as [Hin Hb].
  apply bool_decide_eq_true in Hb. cbn in Hb. subst k'. rewrite elem_of_reverse in Hin. apply Hl in Hin.
  by apply bool_decide_eq_false in Hin.
Qed.

(** The members of the metadata that count. *)
Record metadata_members (expected : bool) (d : list (string * json)) : Prop := {
  mm_version : od_get "schema_version" d = Some (JInt 3);
  mm_node : od_get "node_id" d = Some (JStr (value node));
  mm_public : od_get "root_public_key" d = Some (JStr public_text);
  mm_digest : od_get "secret_fingerprint" d = Some (JStr secret_digest);
  mm_expected : od_get "device_identity_expected" d = if expected then Some (JBool true) else None }.

Lemma profile_metadata i : same_identity i →
  ∃ d, NodeIdentity._profile_metadata i = Ok d ∧ metadata_members (device_identity_expected i) d.
Proof.
  intros Hi. unfold NodeIdentity._profile_metadata, NodeIdentity.root_public_key, _secret_fingerprint.
  rewrite (decode_key _ (same_key _ Hi)). cbn [mbind result_bind]. rewrite (same_secret _ Hi). cbn [mbind result_bind].
  rewrite st_secret. cbn [negb Z.eqb Pos.eqb raise_if mbind result_bind].
  eexists. split; [reflexivity|]. rewrite (same_node _ Hi). unfold od_update. cbn [foldl fst snd].
  pose proof (od_get_extensions (_extensions i) "device_identity_expected" ltac:(by vm_compute; set_solver)
    (same_extensions _ Hi)) as He.
  split; destruct (device_identity_expected i); rewrite ?od_get_set_eq, ?od_get_set_ne by done; try done;
    by rewrite ?od_get_set_eq, ?od_get_set_ne by done.
Qed.

(** ** Files that hold the identity *)

Definition is_bundle (c : option bytes) : Prop :=
  ∃ data, c = Some data ∧ MessagePackStateStore.decode data = Ok secret_doc.
(** The metadata, which needs the secrets beside it. *)
Definition is_metadata (c : option bytes) : Prop :=
  ∃ data t d expected, c = Some data ∧ decode_text data = Ok t ∧ yaml_load t = Ok (JObj d) ∧
    metadata_members expected d ∧ P (loaded expected d).
(** An older document, which holds everything. *)
Definition is_legacy (c : option bytes) : Prop :=
  ∃ data t d, c = Some data ∧ decode_text data = Ok t ∧ yaml_load t = Ok (JObj d) ∧
    NodeIdentity.is_profile d = false ∧ ∀ g, ∃ i, NodeIdentity.from_json g t = Ok i ∧ P i.

(** The secrets are there, whatever is lost. *)
Definition bundles (s : Disk.t) : Prop := ∀ c, possible s secrets_file c → is_bundle c.
Definition is_document (s : Disk.t) (c : option bytes) : Prop := is_legacy c ∨ (is_metadata c ∧ bundles s).

(** The profile holds the identity, whatever a power loss takes back: in the current file, or in
    the older one when that is not there. *)
Record holds (s : Disk.t) : Prop := {
  holds_stable : stable s;
  holds_yaml c : possible s yaml_file c →
    is_document s c ∨ (c = None ∧ ∀ c', possible s json_file c' → is_document s c') }.

Lemma is_document_mono s s' c : (bundles s → bundles s') → is_document s c → is_document s' c.
Proof. unfold is_document. naive_solver. Qed.

(** Fewer documents may come back. *)
Lemma holds_mono s s' : holds s → stable s' → (bundles s → bundles s') →
  (∀ c, possible s' yaml_file c → possible s yaml_file c) →
  (∀ c, possible s' json_file c → possible s json_file c) → holds s'.
Proof.
  intros [_ Hy] Hs Hb H1 H2. split; [done|]. intros c Hc. destruct (Hy c (H1 c Hc)) as [H|[-> H]].
  - left. by eapply is_document_mono.
  - right. split; [done|]. intros c' Hc'. eapply is_document_mono; eauto.
Qed.

Lemma holds_kept s s' : holds s → kept s s' → holds s'.
Proof.
  intros Hh [Hs _ Hp]. apply (holds_mono s); auto. intros Hb c Hc. apply Hb, Hp; done.
Qed.
Lemma bundles_kept s s' : bundles s → kept s s' → bundles s'.
Proof. intros Hb [_ _ Hp] c Hc. apply Hb, Hp; done. Qed.
Lemma holds_tick s : holds s → holds (tick s).
Proof. intros Hh. by apply (holds_mono s); [|apply Hh|..]. Qed.

Lemma holds_secrets s s' payload : holds s → written secrets_file payload s s' → is_bundle (Some payload) →
  holds s' ∧ (bundles s → bundles s').
Proof.
  intros Hh [Hs _ Hp _ Ho] Hb.
  assert (H : bundles s → bundles s') by (intros Hbs c Hc; destruct (Hp c Hc) as [?| ->]; auto).
  split; [|done]. by apply (holds_mono s); auto.
Qed.
Lemma bundles_written s s' payload : written secrets_file payload s s' → flushed s' → is_bundle (Some payload) →
  bundles s'.
Proof.
  intros [_ Hf _ _ _] Hfl Hb c Hc. rewrite (Hfl secrets_file c eq_refl Hc). by rewrite Hf.
Qed.

Lemma holds_document s s' path payload : path = yaml_file ∨ path = json_file → holds s → bundles s →
  written path payload s s' → is_metadata (Some payload) → holds s' ∧ bundles s'.
Proof.
  intros Hpath Hh Hb Hw Hm.
  assert (Hb' : bundles s').
  { intros c Hc. apply Hb. destruct Hpath as [-> | ->]; by eapply written_other_possible. }
  split; [|done]. destruct Hh as [_ Hy]. split; [apply Hw|]. intros c Hc.
  assert (Hd : ∀ c, is_document s c → is_document s' c) by (intros ?; by apply is_document_mono).
  assert (Hn : is_document s' (Some payload)) by by right.
  assert (Hold : possible s yaml_file c ∨ c = Some payload).
  { destruct Hpath as [-> | ->]; [by eapply written_possible|]. left. by eapply written_other_possible. }
  destruct Hold as [Hold| ->]; [|by left]. destruct (Hy c Hold) as [H|[-> H]]; [left; auto|].
  right. split; [done|]. intros c' Hc'.
  assert (Hold' : possible s json_file c' ∨ c' = Some payload).
  { destruct Hpath as [-> | ->]; [|by eapply written_possible]. left. by eapply written_other_possible. }
  destruct Hold' as [?| ->]; auto.
Qed.

(** ** Saving *)

Section runs.
Context (sys : System) (Hsys : syncs sys).

Lemma wp_save_secrets (Q : option (result ()) → Disk.t → Prop) s : holds s →
  (∀ o s', holds s' → (bundles s → bundles s') → (o = Some (Ok ()) → bundles s') →
           (calm sys s → o = Some (Ok ()) ∧ room sys s') → Q o s') →
  iwp (MessagePackStateStore.save secrets_file secret_doc) Q s.
Proof.
  intros Hh HQ. destruct st_bundle as (payload & decoded & He & [m Hm] & Hd). unfold MessagePackStateStore.save.
  rewrite He. cbn [reraise]. apply iwp_lift_bind. cbv beta iota. rewrite Hm. apply iwp_lift_bind.
  assert (Hb : is_bundle (Some payload)) by by exists payload.
  apply wp_write_any; [apply Hh|done..|]. intros o s' Ho Hc.
  assert (Hw : kept s s' ∨ written secrets_file payload s s').
  { destruct o as [[[]|e]|]; cbn in Ho; rewrite ?app_nil_r in Ho; [right; apply Ho|destruct Ho as [?|(_ & ? & _)]; auto|].
    destruct Ho as [?|(_ & ?)]; auto. }
  apply HQ; [..|done].
  - destruct Hw; [by eapply holds_kept|]. by eapply holds_secrets.
  - destruct Hw; [intros; by eapply bundles_kept|]. by eapply holds_secrets.
  - intros ->. cbn in Ho. rewrite app_nil_r in Ho. destruct Ho as (_ & Hwr & Hfl).
    destruct Hsys as (? & ? & ?). eapply bundles_written; [done| |done]. by apply Hfl.
Qed.

Lemma wp_save i path (Q : option (result ()) → Disk.t → Prop) s : P i → path = yaml_file ∨ path = json_file → holds s →
  (∀ o s', holds s' → (calm sys s → o = Some (Ok ()) ∧ room sys s') → Q o s') →
  iwp (NodeIdentity.save i path) Q s.
Proof.
  intros HP Hpath Hh HQ. pose proof (st_same i HP) as Hi. unfold NodeIdentity.save.
  rewrite (secret_document i Hi). apply iwp_lift_bind. apply iwp_bind.
  replace (with_suffix path ".msgpack") with secrets_file by (by destruct Hpath as [-> | ->]).
  apply wp_save_secrets; [done|]. intros o s1 Hh1 Hb1 Hok Hc1. destruct o as [[[]|e]|].
  2: { apply HQ; [done|]. intros Hc. by destruct (Hc1 Hc). }
  2: { apply HQ; [done|]. intros Hc. by destruct (Hc1 Hc). }
  destruct (profile_metadata i Hi) as (d & Hd & Hmm). rewrite Hd. apply iwp_lift_bind.
  destruct (st_metadata i path d HP Hpath Hd) as (w & t & d' & Hw & Hend & Ht & Hy & Hk & HP').
  assert (Hm : is_metadata (Some (concat w.1))).
  { exists (concat w.1), t, d', (device_identity_expected i). split_and!; try done.
    destruct Hmm. split; rewrite Hk by (by vm_compute; set_solver); done. }
  unfold iwp. rewrite save_text_document, Hw. apply wp_write_any; [apply Hh1|by destruct Hpath as [-> | ->]|done|].
  intros o s2 Ho Hc2.
  assert (Hwr : kept s1 s2 ∨ written path (concat w.1) s1 s2).
  { destruct o as [[[]|e]|]; [right; apply Ho|destruct Ho as [?|(_ & ? & _)]; auto|destruct Ho as [?|(_ & ?)]; auto]. }
  apply HQ.
  - destruct Hwr; [by eapply holds_kept|]. eapply (holds_document s1 s2); eauto.
  - intros [Hhe Hr]. destruct (Hc1 (conj Hhe Hr)) as [_ Hr1]. by apply Hc2.
Qed.

(** ** Loading *)

Lemma from_bundle_loaded g expected d :
  NodeIdentity.from_bundle g d (value node) public_text secret_digest expected secret_doc = Ok (loaded expected d).
Proof.
  unfold NodeIdentity.from_bundle.
  change (od_get "schema_version" secret_doc) with (Some (MInt 1)).
  change (od_get "node_id" secret_doc) with (Some (MStr (value node))).
  change (od_get "secret" secret_doc) with (Some (MBin sb)).
  change (od_get "root_private_key" secret_doc) with (Some (MBin kb)). cbv beta iota.
  rewrite st_secret, st_key, (bool_decide_eq_true_2 (value node = value node)) by done.
  cbn -[_secret_fingerprint NodeIdentity.__post_init__ NodeId.__post_init__].
  unfold _secret_fingerprint. rewrite st_secret. cbn -[NodeIdentity.__post_init__ NodeId.__post_init__].
  rewrite !bool_decide_eq_true_2 by done. cbn -[NodeIdentity.__post_init__ NodeId.__post_init__].
  rewrite st_node. cbn -[NodeIdentity.__post_init__]. apply loaded_returns.
Qed.

Lemma jget_member k d v : od_get k d = Some v → jget k d = v.
Proof. unfold jget. by intros ->. Qed.

Lemma wp_from_profile g path d expected (Q : option (result NodeIdentity.t) → Disk.t → Prop) s :
  path = yaml_file ∨ path = json_file → holds s → bundles s → metadata_members expected d → P (loaded expected d) →
  (∀ o s', holds s' → (∀ i, o = Some (Ok i) → P i) → (calm sys s → (∃ i, o = Some (Ok i)) ∧ room sys s') → Q o s') →
  iwp (NodeIdentity._from_profile g path d) Q s.
Proof.
  intros Hpath Hh Hb [Hv Hn Hp Hf He] HP HQ. unfold NodeIdentity._from_profile.
  rewrite (jget_member _ _ _ Hn), (jget_member _ _ _ Hp), (jget_member _ _ _ Hf).
  replace (jget_or "device_identity_expected" (JBool false) d) with (JBool expected)
    by (unfold jget_or; rewrite He; by destruct expected).
  replace (with_suffix path ".msgpack") with secrets_file by (by destruct Hpath as [-> | ->]).
  destruct (Hb _ (file_possible s secrets_file)) as (data & Hdata & Hdec).
  apply iwp_bind, iwp_get. rewrite file_exists by (apply Hh || done). rewrite Hdata.
  rewrite bool_decide_eq_true_2 by eauto. apply iwp_lift_bind. cbn [negb raise_if].
  apply iwp_bind, iwp_bind, iwp_reraise, iwp_read.
  - rewrite Hdata. cbn [of_option reraise]. apply iwp_lift. rewrite Hdec. apply iwp_lift, HQ.
    + by apply holds_tick.
    + rewrite from_bundle_loaded. by intros i [= <-].
    + intros [_ Hr]. rewrite from_bundle_loaded. split; [eauto|by apply room_tick].
  - intros msg Hnh. cbn. apply HQ; [by apply holds_tick|done|]. by intros [? _].
  - intros Hnh. cbn. apply HQ; [by apply holds_tick|done|]. by intros [? _].
Qed.

Lemma wp_load g path (Q : option (result NodeIdentity.t) → Disk.t → Prop) s :
  path = yaml_file ∨ path = json_file → holds s → is_document s (file s path) →
  (∀ o s', holds s' → (∀ i, o = Some (Ok i) → P i) → (calm sys s → (∃ i, o = Some (Ok i)) ∧ room sys s') → Q o s') →
  iwp (NodeIdentity.load g path) Q s.
Proof.
  intros Hpath Hh Hd HQ. unfold NodeIdentity.load. apply iwp_bind, iwp_reraise, iwp_bind, iwp_read.
  2: { intros msg Hnh. cbn. apply HQ; [by apply holds_tick|done|]. by intros [? _]. }
  2: { intros Hnh. cbn. apply HQ; [by apply holds_tick|done|]. by intros [? _]. }
  assert (Hcalm : calm sys s → calm sys (tick s)) by (intros [? ?]; split; [done|by apply room_tick]).
  destruct Hd as [(data & t & d & -> & Ht & Hy & Hprof & Hfrom)|[(data & t & d & ex & -> & Ht & Hy & Hmm & HP) Hb]];
    cbn [of_option]; apply iwp_lift; rewrite Ht; cbn [reraise]; apply iwp_lift_bind; rewrite Hy; cbn [reraise].
  - rewrite Hprof. destruct (Hfrom g) as (i & Hi & HP). rewrite Hi. apply iwp_lift_bind, iwp_bind.
    apply (wp_save i path); [done..|by apply holds_tick|]. intros o s' Hh' Hc. destruct o as [[[]|e]|].
    + apply iwp_ret, HQ; [done|by intros ? [= <-]|]. intros H. destruct (Hc (Hcalm H)). eauto.
    + apply HQ; [done..|]. intros H. by destruct (Hc (Hcalm H)).
    + apply HQ; [done..|]. intros H. by destruct (Hc (Hcalm H)).
  - unfold NodeIdentity.is_profile. rewrite (jget_member _ _ _ (mm_version _ _ Hmm)). cbn [equals_int Z.eqb].
    apply (wp_from_profile g path d ex); [done|by apply holds_tick|done..|].
    intros o s' Hh' Hi Hc. apply HQ; [exact Hh'|exact Hi|]. intros H. exact (Hc (Hcalm H)).
Qed.

Lemma wp_load_or_create fresh (Q : option (result NodeIdentity.t) → Disk.t → Prop) s : holds s →
  (∀ o s', holds s' → (∀ i, o = Some (Ok i) → P i) → (calm sys s → (∃ i, o = Some (Ok i)) ∧ room sys s') → Q o s') →
  iwp (_load_or_create_node_identity fresh) Q s.
Proof.
  intros Hh HQ. pose proof (holds_stable _ Hh) as Hs. apply iwp_bind, iwp_get. rewrite file_exists by done.
  destruct (holds_yaml _ Hh _ (file_possible s yaml_file)) as [Hd|[Hn Hj]].
  { assert (Hsome : is_Some (file s yaml_file)).
    { destruct Hd as [(? & ? & ? & -> & _)|[(? & ? & ? & ? & -> & _) _]]; eauto. }
    rewrite bool_decide_eq_true_2 by done. apply wp_load; [by left|done..]. }
  rewrite Hn, bool_decide_eq_false_2 by (by intros []). apply iwp_bind, iwp_get. rewrite file_exists by done.
  pose proof (Hj _ (file_possible s json_file)) as Hd.
  assert (Hsome : is_Some (file s json_file)).
  { destruct Hd as [(? & ? & ? & -> & _)|[(? & ? & ? & ? & -> & _) _]]; eauto. }
  rewrite bool_decide_eq_true_2 by done. apply iwp_bind, wp_load; [by right|done..|].
  intros o s' Hh' HP Hc. destruct o as [[i|e]|].
  - apply iwp_bind, wp_save; [by apply HP|by left|done|]. intros o s2 Hh2 Hc2.
    assert (Hc' : calm sys s → o = Some (Ok ()) ∧ room sys s2).
    { intros H. destruct (Hc H) as [_ ?]. apply Hc2. by split; [apply H|]. }
    destruct o as [[[]|e]|].
    + apply iwp_ret, HQ; [done|intros ? [= <-]; by apply HP|]. intros H. destruct (Hc' H). eauto.
    + apply HQ; [done..|]. intros H. by destruct (Hc' H).
    + apply HQ; [done..|]. intros H. by destruct (Hc' H).
  - apply HQ; [done..|]. intros H. destruct (Hc H) as [[? ?] _]. discriminate.
  - apply HQ; [done..|]. intros H. destruct (Hc H) as [[? ?] _]. discriminate.
Qed.
(** ** The device identity is written beside it *)

(** A program after which the profile still holds the identity, however it ends. *)
Class Harmless {A} (m : IO A) : Prop := harmless s : holds s → holds (m s).1.

#[local] Instance harmless_bind {A B} (m : IO A) (f : A → IO B) : Harmless m → (∀ a, Harmless (f a)) → Harmless (m ≫= f).
Proof.
  intros Hm Hf s Hs. specialize (Hm s Hs). unfold mbind, IO_bind.
  destruct (m s) as [s1 [[a|e]|]]; [by apply Hf|exact Hm..].
Qed.
#[local] Instance harmless_lift {A} (r : result A) : Harmless (io_lift r).
Proof. by intros s Hs. Qed.
#[local] Instance harmless_get {A} (f : Disk.t → A) : Harmless (io_get f).
Proof. by intros s Hs. Qed.
#[local] Instance harmless_ret {A} (a : A) : Harmless (mret a : IO A).
Proof. by intros s Hs. Qed.
#[local] Instance harmless_reraise {A} caught (m : IO A) c msg : Harmless m → Harmless (io_reraise caught m c msg).
Proof.
  intros Hm s Hs. specialize (Hm s Hs). unfold io_reraise, io_except. by destruct (m s) as [s1 [[a|e]|]].
Qed.
#[local] Instance harmless_if {A} (b : bool) (m n : IO A) : Harmless m → Harmless n → Harmless (if b then m else n).
Proof. by destruct b. Qed.
#[local] Instance harmless_read name : Harmless (read_bytes name).
Proof. intros s Hs. refine (iwp_read name (λ _, holds) s _ _ _); intros; by apply holds_tick. Qed.
#[local] Instance harmless_read_text name : Harmless (read_text name).
Proof. apply _. Qed.

(** A write of a file that is none of the three of the identity. *)
Definition elsewhere (path : string) : Prop :=
  visible path = true ∧ path ≠ yaml_file ∧ path ≠ json_file ∧ path ≠ secrets_file.

Lemma harmless_write path w m sync : elsewhere path → Harmless (_atomic_write_stream path w m sync).
Proof.
  intros (Hv & H1 & H2 & H3) s Hs. refine (wp_write path w m sync (λ _, holds) s _ Hv _); [apply Hs|]. intros o s' Ho.
  assert (Hw : kept s s' ∨ written path (concat w.1) s s').
  { destruct o as [[[]|e]|]; [right; apply Ho|destruct Ho as [?|(_ & ? & _)]; auto|destruct Ho as [?|(_ & ?)]; auto]. }
  destruct Hw as [?|Hw]; [by eapply holds_kept|].
  apply (holds_mono s); [done|apply Hw|..]; intros; [|by eapply written_other_possible..].
  intros c Hc. apply H. by eapply written_other_possible.
Qed.

Lemma harmless_text path d sync : elsewhere path → Harmless (_save_text_document path d sync).
Proof.
  intros Hp s Hs. rewrite save_text_document. revert s Hs.
  apply harmless_bind; [apply _|]. intros w. by apply harmless_write.
Qed.

Lemma harmless_device_save v path : path = "device_identity.yaml" ∨ path = "device_identity.json" →
  Harmless (DeviceIdentity.save v path).
Proof.
  intros Hp. unfold DeviceIdentity.save, MessagePackStateStore.save.
  replace (with_suffix path ".msgpack") with "device_identity.msgpack" by (by destruct Hp as [-> | ->]).
  apply harmless_bind; [|intros []; apply harmless_text; by destruct Hp as [-> | ->]].
  apply harmless_bind; [apply _|]. intros [payload decoded]. apply harmless_bind; [apply _|]. intros m.
  by apply harmless_write.
Qed.

Lemma harmless_device_load path expected current : path = "device_identity.yaml" ∨ path = "device_identity.json" →
  Harmless (DeviceIdentity.load path expected current).
Proof.
  intros Hp. unfold DeviceIdentity.load. pose proof (λ v, harmless_device_save v path Hp) as Hsave.
  apply harmless_bind; [apply _|]. intros t. apply harmless_bind; [apply _|]. intros []; try apply _.
  apply harmless_if; [|apply _]. unfold DeviceIdentity._from_profile, MessagePackStateStore.load.
  repeat (case_match; try apply _).
Qed.

Lemma harmless_device i hints now : Harmless (load_device_identity i hints now).
Proof.
  unfold load_device_identity.
  pose proof (λ v, harmless_device_save v _ (or_introl eq_refl)) as Hsave.
  pose proof (λ e c, harmless_device_load _ e c (or_introl eq_refl)) as Hyaml.
  pose proof (λ e c, harmless_device_load _ e c (or_intror eq_refl)) as Hjson. apply _.
Qed.

(** The device identity is the node and its root key. *)
Definition same_device (v : DeviceIdentity.t) : Prop :=
  DeviceIdentity.node_id v = node ∧ DeviceIdentity._private_key_bytes v = kb.

Lemma bound_same i v : same_identity i → bound i v → same_device v.
Proof.
  intros Hi [Hn Hk _ _ _]. split; [by rewrite Hn; apply Hi|].
  rewrite (decode_key _ (same_key _ Hi)) in Hk. by injection Hk.
Qed.

Lemma adopts_mark g i i' : P i → adopt_marker g i = Ok i' → i' = marked i.
Proof.
  intros HP H. unfold adopt_marker, NodeIdentity.__post_init__ in H. cbn in H. py_run.
  rewrite bool_decide_eq_false_2; [done|]. intros E. pose proof (same_key _ (st_same _ HP)) as Hk.
  destruct st_base64 as (_ & _ & Hb). rewrite E, Hb in Hk. injection Hk as Hk. by pose proof st_key as Hl; rewrite <- Hk in Hl.
Qed.

(** The whole start, of the pair of identities. *)
Lemma wp_pair fresh hints now s : holds s →
  iwp (load_profile_identity fresh hints now)
    (λ o s', holds s' ∧ ∀ i v, o = Some (Ok (i, v)) → P i ∧ same_device v) s.
Proof.
  intros Hh. apply iwp_bind, wp_load_or_create; [done|]. intros o s1 Hh1 HP _.
  destruct o as [[i|e]|]; [|done..]. specialize (HP i eq_refl).
  apply iwp_bind, iwp_get, iwp_lift_bind. destruct (raise_if _ _ _) as [[]|]; [|done].
  apply iwp_bind. unfold iwp at 1. pose proof (harmless_device i hints now s1 Hh1) as Hh2.
  destruct (load_device_identity i hints now s1) as [s2 [[v|e]|]] eqn:Hv; [|done..]. cbn in *.
  apply load_device_bound, (bound_same i) in Hv; [|by apply st_same].
  case_match; [apply iwp_ret; split; [done|]; by intros ? ? [= <- <-]|].
  apply iwp_lift_bind. destruct (adopt_marker _ _) as [i'|] eqn:Ha; [|done].
  apply adopts_mark in Ha as ->; [|done].
  apply iwp_bind, wp_save; [by apply st_marked|by left|done|]. intros o s3 Hh3 _.
  destruct o as [[[]|]|]; [|done..]. apply iwp_ret. split; [done|]. intros ? ? [= <- <-].
  split; [by apply st_marked|done].
Qed.
End runs.

(** ** Start after start *)

Lemma holds_crash s s' : holds s → crash s s' → holds s'.
Proof.
  intros Hh Hc. pose proof (holds_stable _ Hh) as Hs. pose proof (crash_stable _ _ Hs Hc) as Hs'.
  apply (holds_mono s); [done|done| |intros c; by apply crash_possible|intros c; by apply crash_possible].
  intros Hb c Hp. apply Hb. by eapply crash_possible.
Qed.

(** The profile after starts that ended in any way, of the identity alone or of the pair, each
    followed by a crash of the process (which changes nothing) or of the machine. *)
Inductive reachable (s0 : Disk.t) : Disk.t → Prop :=
  | reach_here : reachable s0 s0
  | reach_start s s1 s2 sys fresh o :
      reachable s0 s → syncs sys → _load_or_create_node_identity (sys := sys) fresh s = (s1, o) → crash s1 s2 →
      reachable s0 s2
  | reach_pair s s1 s2 sys fresh hints now o :
      reachable s0 s → syncs sys → load_profile_identity (sys := sys) fresh hints now s = (s1, o) → crash s1 s2 →
      reachable s0 s2.

Lemma reachable_holds s0 s : holds s0 → reachable s0 s → holds s.
Proof.
  intros Hh. induction 1 as [|s s1 s2 sys fresh o _ IH Hsys E Hc|s s1 s2 sys fresh hints now o _ IH Hsys E Hc]; [done|..].
  - eapply holds_crash; [|exact Hc].
    exact (iwp_run _ _ _ _ _ (wp_load_or_create sys Hsys fresh (λ _ s', holds s') s IH (λ _ _ H _ _, H)) E).
  - eapply holds_crash; [|exact Hc]. by apply (iwp_run _ _ _ _ _ (wp_pair sys Hsys fresh hints now s IH) E).
Qed.

(** C5. A node keeps its identity.  From a profile that holds an identity, as the current pair of
    files or as an older document of either name: take any number of starts, of the network
    identity alone or of the pair with the device identity, its files and its marker, each of
    which may fail, be killed or lose the machine's power anywhere, as long as the directory can
    be synchronised.  A start that returns then gives the same node, secret and root key, and the
    device identity it returns is that node with that key; and the network identity can be
    loaded: [_load_or_create_node_identity] returns when nothing goes wrong.  That the whole start
    returns is not claimed: [device_update_can_strand] shows that killed device files can refuse
    it. *)
Theorem identity_survives_crashes s0 s sys fresh hints now : holds s0 → reachable s0 s → syncs sys →
  (∀ i s', _load_or_create_node_identity (sys := sys) fresh s = (s', Some (Ok i)) → same_identity i) ∧
  (∀ i v s', load_profile_identity (sys := sys) fresh hints now s = (s', Some (Ok (i, v))) →
     same_identity i ∧ same_device v) ∧
  (calm sys s → ∃ i s', _load_or_create_node_identity (sys := sys) fresh s = (s', Some (Ok i))).
Proof.
  intros Hh Hr Hsys. pose proof (reachable_holds _ _ Hh Hr) as Hs.
  destruct (_load_or_create_node_identity fresh s) as [s' o] eqn:E.
  pose proof (iwp_run _ _ _ _ _ (wp_load_or_create sys Hsys fresh
    (λ o _, (∀ i, o = Some (Ok i) → P i) ∧ (calm sys s → ∃ i, o = Some (Ok i))) s Hs
    ltac:(intros ? ? _ HP Hc; split; [exact HP|intros H; apply (Hc H)])) E) as [HP Hc].
  split; [|split].
  - intros i s'' [= _ Ho]. apply st_same. by apply HP.
  - intros i v s'' E2. destruct (iwp_run _ _ _ _ _ (wp_pair sys Hsys fresh hints now s Hs) E2) as [_ H].
    destruct (H i v eq_refl) as [? ?]. split; [by apply st_same|done].
  - intros H. destruct (Hc H) as [i ->]. eauto.
Qed.
End identity.

(** ** A concrete identity *)

Definition sample_crypto : Crypto := {|
  sha256_hex := λ _, "digest";
  b64encode := hex;
  b64decode := λ s, match fromhex s with Ok b => Some b | Err _ => None end;
  ed25519_public := λ k, k |}.
Definition repeated (c : string) : string := String.concat "" (replicate 32 c).
Definition sample_node : NodeId := mkNodeId "n1".
Definition sample_secret_bytes : string := repeated "a".
Definition sample_key_bytes : string := repeated "b".
Definition sample_legacy : list (string * json) :=
  [("version", JInt 1); ("node_id", JStr "n1"); ("secret", JStr (hex sample_secret_bytes));
   ("root_private_key", JStr (hex sample_key_bytes))].
Definition sample_metadata : list (string * json) :=
  [("schema_version", JInt 3); ("node_id", JStr "n1"); ("root_public_key", JStr (hex sample_key_bytes));
   ("secret_fingerprint", JStr "digest")].

Definition marked_metadata : list (string * json) :=
  sample_metadata ++ [("device_identity_expected", JBool true)].

(** The older document is the text [L]; the metadata is [M], with the marker [K], or the canonical
    JSON, in which the marker comes first. *)
Definition identity_codecs : Codecs := {|
  float_text := λ _, "0.0";
  json_parse := λ _ t, match t with [76%Z] => Ok (JObj sample_legacy) | _ => raise ValueError "" end;
  json_text := λ _, raise ValueError "";
  yaml_dump := λ v, match v with
                    | JObj d => ([[if od_mem "device_identity_expected" d then 75%Z else 77%Z]], Ok ())
                    | _ => ([], raise YAMLError "")
                    end;
  yaml_load := λ t, match t with
                    | [76%Z] => Ok (JObj sample_legacy)
                    | 75%Z :: _ | 123%Z :: 34%Z :: 100%Z :: _ => Ok (JObj marked_metadata)
                    | 77%Z :: _ | 123%Z :: _ => Ok (JObj sample_metadata)
                    | _ => raise YAMLError ""
                    end;
  packb := λ _, Ok [Byte.x53];
  unpackb := λ _, Ok (map_of (secret_doc sample_node sample_secret_bytes sample_key_bytes)) |}.

Definition sample_identity : NodeIdentity.t :=
  NodeIdentity.mk sample_node (hex sample_secret_bytes) (hex sample_key_bytes) false [].
Definition sample_forms (i : NodeIdentity.t) : Prop := i = sample_identity ∨ i = marked sample_identity.

#[local] Existing Instances sample_crypto identity_codecs.

Definition json_of (d : list (string * json)) : string :=
  match dumps float_text true (JObj d) with Ok t => t | Err _ => "" end.

#[local] Instance sample_storable : Storable sample_node sample_secret_bytes sample_key_bytes sample_forms.
Proof.
  split.
  - by vm_compute.
  - by vm_compute.
  - by vm_compute.
  - split_and!; by vm_compute.
  - intros i [-> | ->]; split; by vm_compute.
  - intros i [-> | ->]; by right.
  - exists [Byte.x53], (map_of (secret_doc sample_node sample_secret_bytes sample_key_bytes)).
    split_and!; [by vm_compute|vm_compute; eauto|by vm_compute].
  - intros i path d HP Hpath Hd.
    assert (d = if device_identity_expected i then marked_metadata else sample_metadata) as ->.
    { destruct HP as [-> | ->]; vm_compute in Hd; by injection Hd as <-. }
    destruct Hpath as [-> | ->].
    + destruct HP as [-> | ->]; [exists ([[Byte.x4d]], Ok ()), [77%Z], sample_metadata|exists ([[Byte.x4b]], Ok ()), [75%Z], marked_metadata];
        (split_and!; [by vm_compute..|]); [by left|by right].
    + destruct HP as [-> | ->];
        [exists (text_writer [points (json_of sample_metadata)] (Ok ())), (points (json_of sample_metadata)), sample_metadata
        |exists (text_writer [points (json_of marked_metadata)] (Ok ())), (points (json_of marked_metadata)), marked_metadata];
        (split_and!; [by vm_compute..|]); [by left|by right].
Qed.

Definition legacy_disk : Disk.t :=
  Disk.mk {["identity.yaml" := 0]} {[0 := mkInode [Byte.x4c] true 384]} [] 0.
(** Killed at the [n]th system call. *)
Definition killed_nth (n : nat) : System :=
  {| os := λ k _, if Nat.eqb k n then Dies 0 else Fine; drawn := λ _ _, "x"; has_O_DIRECTORY := true |}.
Definition sample_tokens : Tokens := mkTokens "id" "secret" "key".

Lemma legacy_holds : holds sample_node sample_secret_bytes sample_key_bytes sample_forms legacy_disk.
Proof.
  split.
  - intros d n i Hd _ E. apply list_elem_of_singleton in Hd as ->. cbn in E. apply lookup_singleton_Some in E as [_ <-].
    by exists (mkInode [Byte.x4c] true 384).
  - intros c (d & Hd & ->). apply list_elem_of_singleton in Hd as ->. left. left.
    exists [Byte.x4c], [76%Z], sample_legacy. split_and!; [by vm_compute..|].
    intros g. exists sample_identity. split; [|by left]. by vm_compute.
Qed.

(** The first start after an update is killed when the secrets are written and the metadata is not:
    the next one gives the same identity, and the device identity of its key. *)
Lemma identity_survives_crashes_witness :
  let s1 := (load_profile_identity (sys := killed_nth 13) sample_tokens (λ _, None) (flit 9) legacy_disk).1 in
  is_Some (file s1 "identity.msgpack") ∧
  (∃ i s', _load_or_create_node_identity (sys := sample_system) sample_tokens s1 = (s', Some (Ok i)) ∧
    same_identity sample_node sample_secret_bytes sample_key_bytes i) ∧
  ∃ i v s', load_profile_identity (sys := sample_system) sample_tokens (λ _, None) (flit 9) s1 = (s', Some (Ok (i, v))) ∧
    same_identity sample_node sample_secret_bytes sample_key_bytes i ∧ same_device sample_node sample_key_bytes v.
Proof.
  intros s1. split; [vm_compute; eauto|].
  assert (Hr : reachable legacy_disk s1).
  { eapply (reach_pair _ legacy_disk s1 s1 (killed_nth 13) sample_tokens (λ _, None) (flit 9));
      [constructor| |apply surjective_pairing|constructor].
    split; [done|]. split; intros k p msg; cbn; by destruct (Nat.eqb k 13). }
  assert (Hsys : syncs sample_system) by (split; [done|split; intros ? ? ?; discriminate]).
  assert (Hroom : room sample_system s1).
  { apply room_clean. assert (Hn : names s1 = {["identity.msgpack" := 1; "identity.yaml" := 0]}) by by vm_compute.
    intros n Hv. rewrite Hn. apply lookup_insert_None. split; [apply lookup_singleton_None|]; by intros <-. }
  destruct (identity_survives_crashes sample_node sample_secret_bytes sample_key_bytes sample_forms
    legacy_disk s1 sample_system sample_tokens (λ _, None) (flit 9) legacy_holds Hr Hsys) as (Hsame & Hpair & Hok).
  split.
  - destruct (Hok (conj (λ _ _, eq_refl) Hroom)) as (i & s' & E). exists i, s'. split; [exact E|by eapply Hsame].
  - assert (Hp : match load_profile_identity (sys := sample_system) sample_tokens (λ _, None) (flit 9) s1 with
                 | (_, Some (Ok _)) => True | _ => False end) by (by vm_compute).
    clearbody s1.
    destruct (load_profile_identity _ _ _ s1) as [s' [[[i v]|e]|]] eqn:E; [|destruct Hp|destruct Hp].
    exists i, v, s'. split; [exact eq_refl|]. by eapply Hpair.
Defined.

(** ** The first start of all *)

(** With the secrets alone no start goes on. *)
Lemma secrets_alone_strand `{sys : System} `{codecs : Codecs} `{crypto : Crypto} fresh s :
  exists_ s yaml_file = false → exists_ s json_file = false → exists_ s secrets_file = true →
  _load_or_create_node_identity fresh s = (s, Some (raise StateDataError "identity metadata is missing")).
Proof.
  intros Hy Hj Hm. unfold _load_or_create_node_identity, mbind, IO_bind, io_get. by rewrite Hy, Hj, Hm.
Qed.

(** The start that makes the identity of an empty profile writes the secrets first: killed before
    the metadata it leaves a profile that no later start accepts. *)
Lemma first_start_can_strand :
  let fresh := mkTokens "n1" (hex sample_secret_bytes) sample_key_bytes in
  let s1 := (_load_or_create_node_identity (sys := killed_nth 13) fresh (Disk.mk ∅ ∅ [] 0)).1 in
  ∀ sys fresh', _load_or_create_node_identity (sys := sys) fresh' s1
                = (s1, Some (raise StateDataError "identity metadata is missing")).
Proof. intros fresh s1 sys fresh'. apply secrets_alone_strand; by vm_compute. Qed.

(** ** An update of a profile that is killed *)

(** A device root of its own, as older versions made it. *)
Definition other_key : string := repeated "c".
Definition device_members (version : Z) (key : string) : list (string * json) :=
  [("schema_version", JInt version); ("node_id", JStr "n1"); ("public_key", JStr (hex key));
   ("fingerprint", JStr "ed25519:digest"); ("created_at", JFloat (flit 5))].
Definition device_legacy (key : string) : list (string * json) :=
  device_members 1 key ++ [("private_key", JStr (hex key))].
Definition device_bundle (key : string) : list (string * mp) :=
  [("schema_version", MInt 1); ("node_id", MStr "n1"); ("fingerprint", MStr "ed25519:digest"); ("private_key", MBin key)].

Definition is_other (d : list (string * json)) : bool := bool_decide (is_str (jget "public_key" d) = Some (hex other_key)).

(** The texts of the profile: [L] and [M] are the identity's, [D] is the older device document, [O] and
    [N] the metadata of the old and of the new device key, [P] and [Q] their older forms. *)
Definition device_codecs : Codecs := {|
  float_text := λ _, "0.0";
  json_parse := λ _ t, match t with
                       | [76%Z] => Ok (JObj sample_legacy)
                       | [68%Z] | [80%Z] => Ok (JObj (device_legacy other_key))
                       | [81%Z] => Ok (JObj (device_legacy sample_key_bytes))
                       | _ => raise ValueError ""
                       end;
  json_text := λ v, match v with JObj d => Ok [if is_other d then 80%Z else 81%Z] | _ => raise ValueError "" end;
  yaml_dump := λ v, match v with
                    | JObj d => ([[if od_mem "public_key" d then if is_other d then 79%Z else 78%Z else 77%Z]], Ok ())
                    | _ => ([], raise YAMLError "")
                    end;
  yaml_load := λ t, match t with
                    | [76%Z] => Ok (JObj sample_legacy)
                    | [77%Z] => Ok (JObj sample_metadata)
                    | [68%Z] => Ok (JObj (device_legacy other_key))
                    | [79%Z] => Ok (JObj (device_members 2 other_key))
                    | [78%Z] => Ok (JObj (device_members 2 sample_key_bytes))
                    | _ => raise YAMLError ""
                    end;
  packb := λ v, match text_map v with
                | Some d => Ok match od_get "private_key" d with
                               | Some (MBin k) => if bool_decide (k = other_key) then [Byte.x4f] else [Byte.x4e]
                               | _ => [Byte.x53]
                               end
                | None => raise TypeError ""
                end;
  unpackb := λ b, match b with
                  | [Byte.x4f] => Ok (map_of (device_bundle other_key))
                  | [Byte.x4e] => Ok (map_of (device_bundle sample_key_bytes))
                  | _ => Ok (map_of (secret_doc sample_node sample_secret_bytes sample_key_bytes))
                  end |}.

Definition update_disk : Disk.t :=
  Disk.mk {["identity.yaml" := 0; "device_identity.yaml" := 1]}
    (list_to_map [(0, mkInode [Byte.x4c] true 384); (1, mkInode [Byte.x44] true 384)]) [] 0.
Definition start (sys : System) (s : Disk.t) : Disk.t * option (result (NodeIdentity.t * DeviceIdentity.t)) :=
  load_profile_identity (sys := sys) (codecs := device_codecs) (crypto := sample_crypto) sample_tokens (λ _, None) (flit 9) s.

(** Undisturbed, the update gives the node its device identity. *)
Lemma profile_pair_agrees_witness :
  ∃ s' i v, start sample_system update_disk = (s', Some (Ok (i, v))) ∧
    bound (crypto := sample_crypto) i v ∧ NodeIdentity.device_identity_expected i = true ∧
    DeviceIdentity.created_at v = flit 5.
Proof.
  assert (H : ∀ s' i v, start sample_system update_disk = (s', Some (Ok (i, v))) →
    bound (crypto := sample_crypto) i v ∧ NodeIdentity.device_identity_expected i = true).
  { unfold start. apply (proj1 (profile_pair_agrees (sys := sample_system) (codecs := device_codecs)
      (crypto := sample_crypto) sample_tokens (λ _, None) (flit 9) update_disk eq_refl)). }
  assert (Hok : match start sample_system update_disk with
                | (_, Some (Ok (_, v))) => DeviceIdentity.created_at v = flit 5 | _ => False end) by (by vm_compute).
  destruct (start sample_system update_disk) as [s' [[[i v]|e]|]] eqn:E; [|destruct Hok|destruct Hok].
  exists s', i, v. destruct (H s' i v eq_refl) as [Hb He]. exact (conj eq_refl (conj Hb (conj He Hok))).
Defined.

(** Killed when the new device key is written and its metadata is not, it leaves the metadata of the
    old key beside the new one: no later start gets past it. *)
Lemma device_update_can_strand :
  let s1 := (start (killed_nth 60) update_disk).1 in
  let again := {| os := λ _ _, Fine; drawn := λ _ _, "y"; has_O_DIRECTORY := true |} in
  (start (killed_nth 60) update_disk).2 = None ∧
  start again s1 = (Disk.mk (names s1) (inodes s1) (history s1) (calls (start again s1).1),
                    Some (raise DeviceIdentityError "device identity private key bundle is invalid")).
Proof. split; by vm_compute. Qed.

(** ** What is readable and what is not *)

(** The metadata of an identity holds none of its key material, whatever its extensions. *)
Lemma metadata_holds_no_secret `{crypto : Crypto} i d :
  existsb (λ item, bool_decide (item.1 ∈ _IDENTITY_JSON_FIELDS)) (_extensions i) = false →
  NodeIdentity._profile_metadata i = Ok d → od_get "secret" d = None ∧ od_get "root_private_key" d = None.
Proof.
  intros He H. unfold NodeIdentity._profile_metadata in H. py_run. unfold od_update. cbn [foldl fst snd].
  pose proof (od_get_extensions (_extensions i)) as Hx.
  destruct (device_identity_expected i); rewrite !od_get_set_ne by done;
    split; (apply Hx; [by vm_compute; set_solver|done]).
Qed.

(** A secret with blanks is accepted, and cannot be saved. *)
Lemma blank_secret_cannot_be_saved :
  let i := NodeIdentity.mk sample_node ("  " +:+ hex (String.string_of_list_ascii (replicate 31 (Ascii.ascii_of_nat 171))))
             (hex sample_key_bytes) false [] in
  NodeIdentity.__post_init__ (crypto := sample_crypto) "" i = Ok i ∧
  NodeIdentity._profile_metadata (crypto := sample_crypto) i
  = raise ValueError "identity secret must be 256-bit binary data".
Proof. split; by vm_compute. Qed.
