(* ===== verification/Invites.v ===== *)
(** * Copyable invites ([cluster/invites.py])

    An invite leaves the Coordinator as one line of text, [encode_invite_blob], and is read again
    by [decode_invite_blob].  The [json] and [base64] modules are parameters.  An invite the
    cluster made is read as it was made; what is accepted is a complete invite; what is refused is
    refused as [ClusterDataError], with two exceptions. *)

From S2P Require Import Prelude Bytes PyFloat Identity ClusterModels Roles Operations OperationsSpec PyJson Disk Documents Stores.

(** [json.dumps(v, sort_keys=True)] of sorted members, [json.loads] of bytes, [base64] of bytes. *)
Class InviteCodecs := {
  invite_dumps : json → result string;
  invite_loads : string → result json;
  urlsafe_b64encode : string → string;
  urlsafe_b64decode : string → option string }.

Section invites.
Context (sha256_hex : string → string) `{codecs : InviteCodecs}.

Definition invite_payload (invite : InviteRecord.t) : list (string * json) :=
  [("token", JStr (InviteRecord.token invite));
   ("cluster_id", JStr (InviteRecord.cluster_id invite));
   ("coordinator_id", JStr (InviteRecord.coordinator_id invite));
   ("epoch", JInt (InviteRecord.epoch invite));
   ("fencing_token", JStr (InviteRecord.fencing_token invite));
   ("target_node_id", JStr (InviteRecord.target_node_id invite));
   ("expires_at", JFloat (InviteRecord.expires_at invite))].

Definition encode_invite_blob (invite : InviteRecord.t) : result string :=
  text ← invite_dumps (JObj (sort_keys (invite_payload invite)));
  Ok (urlsafe_b64encode text).

(** The last condition is met only when none before it is: [float] of a large integer raises. *)
Definition checked_invite (token cluster coordinator fence target epoch expiry : json)
    : result InviteRecord.t :=
  match is_str token, is_str cluster, is_str coordinator, is_str fence, is_str target, is_int epoch with
  | Some token, Some cluster, Some coordinator, Some fence, Some target, Some epoch =>
      raise_if (bool_decide (token = "") || bool_decide (cluster = "") || bool_decide (coordinator = "") ||
                bool_decide (fence = "") || bool_decide (target = "")) ValueError "";;
      raise_if ((epoch <? 0)%Z || negb (is_number expiry)) ValueError "";;
      expires_at ← to_float expiry;
      raise_if (negb (isfinite expires_at)) ValueError "";;
      InviteRecord.__post_init__ (hash_invite sha256_hex token) target expires_at token cluster
        coordinator epoch fence
  | _, _, _, _, _, _ => raise ValueError ""
  end.

Definition read_invite (blob : string) : result InviteRecord.t :=
  raise_if (negb (is_ascii blob)) UnicodeEncodeError "'ascii' codec can't encode characters";;
  raw ← of_option (urlsafe_b64decode blob) ValueError "Incorrect padding";
  value ← invite_loads raw;
  d ← of_option (is_obj value) TypeError "invite payload is not an object";
  token ← index "token" d;
  cluster ← index "cluster_id" d;
  coordinator ← index "coordinator_id" d;
  fence ← index "fencing_token" d;
  target ← index "target_node_id" d;
  epoch ← index "epoch" d;
  expiry ← index "expires_at" d;
  checked_invite token cluster coordinator fence target epoch expiry.

Definition decode_invite_blob (blob : string) : result InviteRecord.t :=
  reraise [KeyError; TypeError; ValueError] (read_invite blob)
    ClusterDataError "invite is not a valid pairing invite".

(** ** What an invite must have *)

(** The invite of a token, as the reader accepts it. *)
Record complete (i : InviteRecord.t) : Prop := {
  cp_texts : Forall (λ s, s ≠ "") [InviteRecord.token i; InviteRecord.cluster_id i;
    InviteRecord.coordinator_id i; InviteRecord.fencing_token i; InviteRecord.target_node_id i];
  cp_epoch : (0 ≤ InviteRecord.epoch i)%Z;
  cp_hash : InviteRecord.token_hash i = hash_invite sha256_hex (InviteRecord.token i);
  cp_valid : InviteRecord.valid i }.

(** What the two modules do with the text of a payload. *)
Definition carried (d : list (string * json)) : Prop :=
  ∃ text, invite_dumps (JObj d) = Ok text ∧ invite_loads text = Ok (JObj d) ∧
    is_ascii (urlsafe_b64encode text) = true ∧
    urlsafe_b64decode (urlsafe_b64encode text) = Some text.

Lemma read_complete i : complete i → checked_invite (JStr (InviteRecord.token i))
  (JStr (InviteRecord.cluster_id i)) (JStr (InviteRecord.coordinator_id i))
  (JStr (InviteRecord.fencing_token i)) (JStr (InviteRecord.target_node_id i))
  (JInt (InviteRecord.epoch i)) (JFloat (InviteRecord.expires_at i)) = Ok i.
Proof.
  intros [Ht He Hh [Hv1 Hv2]]. rewrite !Forall_cons in Ht. destruct Ht as (? & ? & ? & ? & ? & _).
  unfold checked_invite. simpl. rewrite !bool_decide_eq_false_2 by done.
  rewrite (proj2 (Z.ltb_ge _ _)) by done. simpl. rewrite Hv2. simpl.
  unfold InviteRecord.__post_init__. rewrite <- Hh, Hv2, bool_decide_eq_false_2 by done. by destruct i.
Qed.

Lemma payload_members i : let d := sort_keys (invite_payload i) in
  index "token" d = Ok (JStr (InviteRecord.token i)) ∧
  index "cluster_id" d = Ok (JStr (InviteRecord.cluster_id i)) ∧
  index "coordinator_id" d = Ok (JStr (InviteRecord.coordinator_id i)) ∧
  index "fencing_token" d = Ok (JStr (InviteRecord.fencing_token i)) ∧
  index "target_node_id" d = Ok (JStr (InviteRecord.target_node_id i)) ∧
  index "epoch" d = Ok (JInt (InviteRecord.epoch i)) ∧
  index "expires_at" d = Ok (JFloat (InviteRecord.expires_at i)).
Proof. done. Qed.

Lemma round_trip i : complete i → carried (sort_keys (invite_payload i)) →
  ∃ blob, encode_invite_blob i = Ok blob ∧ decode_invite_blob blob = Ok i.
Proof.
  intros Hi (text & Hd & Hl & Ha & Hb). exists (urlsafe_b64encode text). unfold encode_invite_blob.
  rewrite Hd. split; [done|]. unfold decode_invite_blob, read_invite. rewrite Ha, Hb. simpl. rewrite Hl.
  cbn [mbind result_bind of_option is_obj]. destruct (payload_members i) as (-> & -> & -> & -> & -> & -> & ->). cbn [mbind result_bind]. by rewrite read_complete.
Qed.

Lemma checked_complete token cluster coordinator fence target epoch expiry i :
  checked_invite token cluster coordinator fence target epoch expiry = Ok i → complete i.
Proof.
  unfold checked_invite. intros H. destruct (is_str token), (is_str cluster), (is_str coordinator), (is_str fence),
    (is_str target), (is_int epoch); try done.
  apply bind_Ok in H as ([] & H1 & H). apply bind_Ok in H as ([] & H2 & H). apply bind_Ok in H as (x & H3 & H).
  apply bind_Ok in H as ([] & H4 & H). apply InviteRecord.invite_Ok in H as [-> Hv].
  apply raise_if_Ok in H1, H2, H4. to_prop. split; simpl; [by repeat constructor|lia|done|done].
Qed.

(** ** What the reader raises *)

Definition fails_by {A} (P : exn → Prop) (m : result A) : Prop := ∀ e, m = Err e → P e.
Lemma fails_bind {A B} P (m : result A) (f : A → result B) :
  fails_by P m → (∀ a, fails_by P (f a)) → fails_by P (m ≫= f).
Proof. intros Hm Hf e. destruct m; simpl; [apply Hf|]. intros [= <-]. by apply Hm. Qed.
Lemma fails_raise {A} (P : exn → Prop) c msg : P (Exn c msg) → fails_by P (raise c msg : result A).
Proof. by intros H e [= <-]. Qed.
Lemma fails_raise_if (P : exn → Prop) b c msg : P (Exn c msg) → fails_by P (raise_if b c msg).
Proof. intros H e. destruct b; [|done]. by intros [= <-]. Qed.
Lemma fails_of_option {A} (P : exn → Prop) (o : option A) c msg : P (Exn c msg) → fails_by P (of_option o c msg).
Proof. intros H e. destruct o; [done|]. by intros [= <-]. Qed.
Lemma fails_ok {A} P (a : A) : fails_by P (Ok a).
Proof. done. Qed.

(** A fault of the text, which is caught, a number too large for a float, or what the parser raised. *)
Definition reader_fault (e : exn) : Prop :=
  existsb (exn_isa e) [KeyError; TypeError; ValueError] = true ∨
  exn_cls e = OverflowError ∨ ∃ raw, invite_loads raw = Err e.

Ltac fault := first [left; reflexivity|right; left; reflexivity].

Lemma to_float_fault v : fails_by reader_fault (to_float v).
Proof.
  unfold to_float, float_of_Z. destruct v as [|b|z|f|s|l|d]; try apply fails_ok; try (apply fails_raise; fault).
  case_match; [apply fails_ok|apply fails_raise; fault].
Qed.

Lemma checked_fault token cluster coordinator fence target epoch expiry :
  fails_by reader_fault (checked_invite token cluster coordinator fence target epoch expiry).
Proof.
  unfold checked_invite, InviteRecord.__post_init__.
  destruct (is_str token), (is_str cluster), (is_str coordinator), (is_str fence), (is_str target), (is_int epoch);
    try (apply fails_raise; fault).
  do 2 (apply fails_bind; [apply fails_raise_if; fault|intros _]).
  apply fails_bind; [apply to_float_fault|intros x].
  do 2 (apply fails_bind; [apply fails_raise_if; fault|intros _]). apply fails_ok.
Qed.

Lemma read_fault blob : fails_by reader_fault (read_invite blob).
Proof.
  unfold read_invite. apply fails_bind; [apply fails_raise_if; fault|intros _].
  apply fails_bind; [apply fails_of_option; fault|intros raw].
  apply fails_bind; [intros e He; right; right; by exists raw|intros v].
  apply fails_bind; [apply fails_of_option; fault|intros d].
  do 7 (apply fails_bind; [apply fails_of_option; fault|intros ?]). apply checked_fault.
Qed.

(** ** Theorems *)

(** C24. An invite the cluster makes travels as text.  For a Coordinator with a valid epoch, whose
    token, cluster and node ids are not empty, the invite it makes can be written, and whoever
    reads the text has the invite the Coordinator knows by that token, complete with the
    authority it was issued under. *)
Theorem invite_travels token target now c c' i :
  CoordinatorEpoch.valid (Cluster.epoch c) → token ≠ "" → Cluster.cluster_id c ≠ "" →
  value target ≠ "" → value (Cluster.coordinator_id c) ≠ "" →
  Cluster.create_invite sha256_hex target now token c = (c', Ok i) →
  carried (sort_keys (invite_payload i)) →
  ∃ blob j, encode_invite_blob i = Ok blob ∧ decode_invite_blob blob = Ok j ∧
    Cluster.find_invite c' (InviteRecord.token j) (InviteRecord.token_hash j) = Some j ∧
    InviteRecord.token j = token ∧ InviteRecord.target_node_id j = value target ∧
    (is_ascii (InviteRecord.fencing_token j) = true →
     Cluster.authorize c (InviteRecord.cluster_id j) (InviteRecord.epoch j) (InviteRecord.fencing_token j) = Ok ()).
Proof.
  intros Hepoch Ht Hc Hg Hco Hcreate Hcarried. unfold Cluster.create_invite in Hcreate.
  destruct (negb (Cluster.is_active_coordinator c)); [done|].
  destruct (create_invite _ _ _ _ _ _ _) as [i'|e] eqn:E; [|done]. injection Hcreate as <- <-.
  unfold create_invite in E. apply bind_Ok in E as ([] & _ & E). apply InviteRecord.invite_Ok in E as [-> Hv].
  assert (Hcp : complete (InviteRecord.mk (hash_invite sha256_hex token) (value target)
    (fadd now DEFAULT_INVITE_TTL) token (Cluster.cluster_id c)
    (value (CoordinatorEpoch.coordinator_id (Cluster.epoch c))) (CoordinatorEpoch.epoch (Cluster.epoch c))
    (CoordinatorEpoch.fencing_token (Cluster.epoch c)))).
  { unfold CoordinatorEpoch.valid, CoordinatorEpoch.__post_init__ in Hepoch.
    destruct (_ || _) eqn:Eg in Hepoch; [done|]. to_prop.
    split; simpl; [by repeat constructor|lia|done|done]. }
  destruct (round_trip _ Hcp Hcarried) as (blob & He & Hd). exists blob. eexists.
  split; [exact He|split; [exact Hd|]]. simpl.
  unfold Cluster.find_invite, Cluster.authorize. simpl. rewrite od_get_set_eq.
  split_and!; [done..|]. intros Hascii. rewrite !bool_decide_eq_true_2 by done. simpl.
  unfold compare_digest. rewrite Hascii. simpl. by rewrite bool_decide_eq_true_2.
Qed.

(** Whatever text is read as an invite: an accepted one is complete, with the hash of its own
    token, and a text that is refused is refused as [ClusterDataError], unless its expiry is an
    integer no float can hold or the parser itself gives up. *)
Theorem decoded_invite_is_complete blob :
  match decode_invite_blob blob with
  | Ok i => complete i
  | Err e => e = Exn ClusterDataError "invite is not a valid pairing invite" ∨
             exn_cls e = OverflowError ∨ ∃ raw, invite_loads raw = Err e
  end.
Proof.
  unfold decode_invite_blob, reraise. destruct (read_invite blob) as [i|e] eqn:E.
  - unfold read_invite in E. repeat (apply bind_Ok in E as (? & _ & E)). by eapply checked_complete.
  - destruct (existsb (exn_isa e) _) eqn:Ec; [by left|]. right.
    destruct (read_fault blob e E) as [H|H]; [congruence|done].
Qed.

End invites.

(** ** At a concrete cluster *)

Definition huge_invite : json :=
  JObj [("token", JStr "t"); ("cluster_id", JStr "c"); ("coordinator_id", JStr "n"); ("fencing_token", JStr "f");
        ("target_node_id", JStr "w"); ("epoch", JInt 1); ("expires_at", JInt (10 ^ 400))].

(** A parser of two documents. *)
Definition sample_codecs : InviteCodecs := {|
  invite_dumps v := Ok "invite";
  invite_loads text :=
    if bool_decide (text = "invite") then Ok (JObj (sort_keys (invite_payload sample_invite)))
    else if bool_decide (text = "huge") then Ok huge_invite
    else raise ValueError "Expecting value";
  urlsafe_b64encode text := text;
  urlsafe_b64decode blob := Some blob |}.

(** An expiry of 400 digits is no invite, and yet it is not refused as one. *)
Lemma huge_expiry_escapes :
  decode_invite_blob sample_hash (codecs := sample_codecs) "huge" =
    raise OverflowError "int too large to convert to float".
Proof. vm_compute. reflexivity. Qed.

Lemma invite_travels_witness :
  ∃ blob j, encode_invite_blob (codecs := sample_codecs) sample_invite = Ok blob ∧
    decode_invite_blob sample_hash (codecs := sample_codecs) blob = Ok j ∧
    InviteRecord.token j = "tok".
Proof.
  destruct (Cluster.create_invite sample_hash node_n (flit 200) "tok" (sample_cluster [])) as [c' r] eqn:E.
  assert (Er : r = Ok sample_invite) by (apply (f_equal snd) in E; vm_compute in E; symmetry; exact E).
  rewrite Er in E.
  destruct (invite_travels sample_hash (codecs := sample_codecs) "tok" node_n (flit 200) (sample_cluster []) c' sample_invite)
    as (blob & j & He & Hd & _ & Ht & _).
  - reflexivity.
  - discriminate.
  - discriminate.
  - discriminate.
  - discriminate.
  - exact E.
  - exists "invite". repeat split; reflexivity.
  - exists blob, j. repeat split; assumption.
Defined.
