(* ===== verification/Observability.v ===== *)
(** * Runtime metrics ([observability.py])

    [ObservabilityWatcher] counts what is observed, within fixed bounds; [observation_scope]
    wraps the application's own calls in an observation.  The readings of both clocks are
    arguments, object identities are integers and a method is one step, as its lock makes it.
    The theorems: the counts of every target agree with one another and with the observations
    under way, nothing grows past its bound, an observation is counted at most once, and a
    scope never changes what its body does. *)

From stdpp Require Import sorting.
From S2P Require Import Prelude PyFloat PyJson StateCodec Discovery CanonicalSpec.

(** ** Data *)

(** [_NO_WATCHER] is the default of [watcher_id]. *)
Definition _NO_WATCHER : Z := -1.

Module ObservationToken.
Record t := mk { target : string; started : float; identifier : Z; watcher_id : Z; tracked : bool }.
(** The [==] of the dataclass. *)
Definition eqb (a b : t) : bool :=
  bool_decide (target a = target b) && feqb (started a) (started b) &&
  bool_decide (identifier a = identifier b) && bool_decide (watcher_id a = watcher_id b) &&
  bool_decide (tracked a = tracked b).
End ObservationToken.
Import ObservationToken(target, started, identifier, watcher_id, tracked).

Definition _EVENT_KINDS : list string :=
  ["request"; "commit"; "failure"; "coalesced"; "stale"; "rejected"; "cache_hit"].
Definition _COUNTED_EVENT_KINDS : list string := ["coalesced"; "stale"; "rejected"].

(** [_Metric]; a deque with a bound drops from its left. *)
Module Metric.
Record t := mk {
  samples : list float; count : Z; successes : Z; failures : Z; cancellations : Z;
  in_flight : Z; peak_in_flight : Z; last_error : option string;
  coalesced : Z; stale : Z; rejected : Z; events : list (string * Z) }.
Definition new : t := mk [] 0 0 0 0 0 0 None 0 0 0 [].
Definition set_flight (n peak : Z) (m : t) : t :=
  mk (samples m) (count m) (successes m) (failures m) (cancellations m) n peak (last_error m)
    (coalesced m) (stale m) (rejected m) (events m).
(** [setattr(metric, event, getattr(metric, event) + 1)] *)
Definition bump (event : string) (m : t) : t :=
  let one e := if bool_decide (event = e) then 1%Z else 0%Z in
  mk (samples m) (count m) (successes m) (failures m) (cancellations m) (in_flight m)
    (peak_in_flight m) (last_error m) (coalesced m + one "coalesced") (stale m + one "stale")
    (rejected m + one "rejected") (events m).
Definition set_events (l : list (string * Z)) (m : t) : t :=
  mk (samples m) (count m) (successes m) (failures m) (cancellations m) (in_flight m)
    (peak_in_flight m) (last_error m) (coalesced m) (stale m) (rejected m) l.
End Metric.
Import Metric(samples, count, successes, failures, cancellations, in_flight, peak_in_flight,
  last_error, events).

Definition deque_append {A} (maxlen : Z) (x : A) (l : list A) : list A :=
  drop (length l + 1 - Z.to_nat maxlen) (l ++ [x]).

Module MetricSnapshot.
Record t := mk {
  target : string; count : Z; successes : Z; failures : Z; cancellations : Z; coalesced : Z;
  stale : Z; rejected : Z; events : list (string * Z); in_flight : Z; peak_in_flight : Z;
  samples : list float; distribution : list (string * json); last_error : option string }.
End MetricSnapshot.

Module ObservabilitySnapshot.
Record t := mk {
  session_started_at : float; captured_at : float; duration_seconds : float;
  metrics : list MetricSnapshot.t }.
End ObservabilitySnapshot.

(** ** Distributions *)

Definition dec_0_25 : float := S754_finite false 4503599627370496 (-54).
Definition dec_0_75 : float := S754_finite false 6755399441055744 (-53).
Definition dec_0_95 : float := S754_finite false 8556839292003942 (-53).
Definition dec_0_99 : float := S754_finite false 8917127262193582 (-53).
Definition dec_1_5 : float := S754_finite false 6755399441055744 (-52).

Definition at_index (values : list float) (i : Z) : result float :=
  of_option (values !! Z.to_nat i) IndexError "list index out of range".

Definition _percentile (values : list float) (fraction : float) : result float :=
  let n := Z.of_nat (length values) in
  if (n =? 1)%Z then at_index values 0
  else length_f ← float_of_Z (n - 1);
       let position := fmul length_f fraction in
       let lower := trunc position in
       let upper := Z.min (lower + 1) (n - 1) in
       low ← at_index values lower;
       high ← at_index values upper;
       lower_f ← float_of_Z lower;
       Ok (fadd low (fmul (fsub high low) (fsub position lower_f))).

(** [statistics.median] of sorted numbers. *)
Definition median (values : list float) : result float :=
  let n := Z.of_nat (length values) in
  if (n mod 2 =? 1)%Z then at_index values (n / 2)
  else low ← at_index values (n / 2 - 1);
       high ← at_index values (n / 2);
       Ok (SFdiv 53 1024 (fadd low high) (flit 2)).

Definition summarize_samples (l : list float) : result (list (string * json)) :=
  raise_if (bool_decide (l = [])) ValueError "at least one sample is required";;
  raise_if (existsb (λ x, negb (isfinite x)) l) ValueError "samples must be finite real numbers";;
  let ordered := sorted fleb l in
  p25 ← _percentile ordered dec_0_25;
  p75 ← _percentile ordered dec_0_75;
  median ← median ordered;
  first ← at_index ordered 0;
  p95 ← _percentile ordered dec_0_95;
  p99 ← _percentile ordered dec_0_99;
  final ← at_index ordered (Z.of_nat (length ordered) - 1);
  let fence := fadd p75 (fmul dec_1_5 (fsub p75 p25)) in
  Ok [("minimum", JFloat first); ("p25", JFloat p25); ("p50", JFloat median);
      ("median", JFloat median); ("p75", JFloat p75); ("p95", JFloat p95); ("p99", JFloat p99);
      ("maximum", JFloat final); ("spread", JFloat (fsub final first));
      ("outliers", JInt (Z.of_nat (length (List.filter (λ x, fltb fence x) ordered))))].

(** ** The watcher *)

Module Watcher.
Record t := mk {
  _sample_limit : Z; _max_targets : Z; _max_active : Z; _session_started_at : float;
  _metrics : list (string * Metric.t); _active_tokens : gmap Z ObservationToken.t;
  _next_token : Z; _watcher_id : Z }.

Definition set_metrics (l : list (string * Metric.t)) (w : t) : t :=
  mk (_sample_limit w) (_max_targets w) (_max_active w) (_session_started_at w) l
    (_active_tokens w) (_next_token w) (_watcher_id w).
Definition set_active (a : gmap Z ObservationToken.t) (w : t) : t :=
  mk (_sample_limit w) (_max_targets w) (_max_active w) (_session_started_at w) (_metrics w)
    a (_next_token w) (_watcher_id w).
Definition next_token (w : t) : t :=
  mk (_sample_limit w) (_max_targets w) (_max_active w) (_session_started_at w) (_metrics w)
    (_active_tokens w) (_next_token w + 1) (_watcher_id w).

(** ** Checks *)

Definition positive_integer (v : json) (name : string) : result Z :=
  match is_int v with
  | Some z => raise_if (z <=? 0)%Z ValueError (name +:+ " must be a positive integer");; Ok z
  | None => raise ValueError (name +:+ " must be a positive integer")
  end.

Definition _require_finite_clock (value : float) (name : string) : result float :=
  raise_if (negb (isfinite value)) ValueError (name +:+ " returned a non-finite value");; Ok value.

Definition _sanitize_detail (detail : option string) : option string :=
  match detail with
  | None => None
  | Some text => if bool_decide (text = "") then None else Some (String.substring 0 160 text)
  end.

Definition _validate_duration (duration_seconds : float) : result () :=
  raise_if (negb (isfinite duration_seconds) || fltb duration_seconds (flit 0)) ValueError
    "duration_seconds must be finite and non-negative".

Definition _validate_outcome (outcome : string) : result () :=
  raise_if (negb (bool_decide (outcome ∈ ["success"; "failure"; "cancelled"]))) ValueError
    ("invalid outcome: " +:+ outcome).

Definition _validate_target (v : json) : result string :=
  text ← of_option (is_str v) ValueError "target must be a string";
  raise_if (bool_decide (strip text = "")) ValueError "target must be non-empty";;
  raise_if (160 <? String.length text)%nat ValueError "target must be at most 160 characters";;
  Ok text.

Definition __init__ (sample_limit max_targets max_active : json) (wall_clock : float)
    (watcher_id : Z) : result t :=
  sample_limit ← positive_integer sample_limit "sample_limit";
  max_targets ← positive_integer max_targets "max_targets";
  max_active ← positive_integer max_active "max_active";
  started ← _require_finite_clock wall_clock "wall_clock";
  Ok (mk sample_limit max_targets max_active started [] ∅ 0 watcher_id).

(** ** Operations *)

Definition _get_or_create_metric (target : string) : M t (option Metric.t) := λ w,
  match od_get target (_metrics w) with
  | Some metric => (w, Ok (Some metric))
  | None =>
      if (_max_targets w <=? Z.of_nat (length (_metrics w)))%Z then (w, Ok None)
      else (set_metrics (od_set target Metric.new (_metrics w)) w, Ok (Some Metric.new))
  end.

(** A change of the metric an operation holds. *)
Definition store_metric (target : string) (metric : Metric.t) : M t () :=
  modify (λ w, set_metrics (od_set target metric (_metrics w)) w).

Definition _record_locked (limit : Z) (duration : float) (outcome : string)
    (detail_text : option string) (m : Metric.t) : Metric.t :=
  let one e := if bool_decide (outcome = e) then 1%Z else 0%Z in
  Metric.mk (deque_append limit duration (samples m)) (count m + 1)
    (successes m + one "success") (failures m + one "failure")
    (cancellations m + if bool_decide (outcome ∈ ["success"; "failure"]) then 0 else 1)
    (in_flight m) (peak_in_flight m)
    (if bool_decide (outcome = "failure") then Some (default "failure" detail_text) else last_error m)
    (Metric.coalesced m) (Metric.stale m) (Metric.rejected m) (events m).

Definition begin (target : json) (clock : float) : M t ObservationToken.t :=
  target ← lift (_validate_target target);
  started ← lift (_require_finite_clock clock "clock");
  metric ← _get_or_create_metric target;
  modify next_token;;
  w ← get;
  let tracked := (Z.of_nat (size (_active_tokens w)) <? _max_active w)%Z in
  (if tracked then
     match metric with
     | Some m => store_metric target
         (Metric.set_flight (in_flight m + 1) (Z.max (peak_in_flight m) (in_flight m + 1)) m)
     | None => mret ()
     end
   else mret ());;
  let token := ObservationToken.mk target started (_next_token w) (_watcher_id w) tracked in
  (if tracked then modify (λ w, set_active (<[identifier token := token]> (_active_tokens w)) w)
   else mret ());;
  mret token.

(** The clock is read when no duration is given. *)
Definition finish (token : ObservationToken.t) (outcome : string) (duration_seconds : option float)
    (detail : option string) (clock : float) : M t () :=
  let duration := match duration_seconds with Some d => d | None => fsub clock (started token) end in
  let detail_text := _sanitize_detail detail in
  w ← get;
  let same := match _active_tokens w !! identifier token with
              | Some active_token => ObservationToken.eqb active_token token | None => false end in
  if negb same then
    if negb (tracked token) then mret ()
    else throw ValueError "observation token was already finished"
  else
    lift (_validate_duration duration);;
    lift (_validate_outcome outcome);;
    modify (λ w, set_active (delete (identifier token) (_active_tokens w)) w);;
    metric ← _get_or_create_metric (target token);
    match metric with
    | Some m => store_metric (target token)
        (_record_locked (_sample_limit w) duration outcome detail_text
           (Metric.set_flight (in_flight m - 1) (peak_in_flight m) m))
    | None => mret ()
    end.

Definition record (target : json) (duration_seconds : float) (outcome : string)
    (detail : option string) : M t () :=
  target ← lift (_validate_target target);
  lift (_validate_duration duration_seconds);;
  lift (_validate_outcome outcome);;
  w ← get;
  metric ← _get_or_create_metric target;
  match metric with
  | Some m => store_metric target
      (_record_locked (_sample_limit w) duration_seconds outcome (_sanitize_detail detail) m)
  | None => mret ()
  end.

Definition record_event (target : json) (event : string) : M t () :=
  target ← lift (_validate_target target);
  throw_if (negb (bool_decide (event ∈ _EVENT_KINDS))) ValueError ("invalid event: " +:+ event);;
  metric ← _get_or_create_metric target;
  match metric with
  | Some m =>
      let m := Metric.set_events (od_set event (default 0 (od_get event (events m)) + 1)%Z (events m)) m in
      store_metric target (if bool_decide (event ∈ _COUNTED_EVENT_KINDS) then Metric.bump event m else m)
  | None => mret ()
  end.

Definition event_count (w : t) (target event : string) : Z :=
  match od_get target (_metrics w) with
  | Some metric => default 0%Z (od_get event (events metric)) | None => 0%Z end.

Definition event_total (w : t) (prefix event : string) : Z :=
  foldr Z.add 0%Z
    ((λ kv, default 0%Z (od_get event (events kv.2))) <$>
     List.filter (λ kv, String.prefix prefix kv.1) (_metrics w)).

Definition _snapshot_metric (target : string) (m : Metric.t) : result MetricSnapshot.t :=
  distribution ← (if bool_decide (samples m = []) then Ok [] else summarize_samples (samples m));
  Ok (MetricSnapshot.mk target (count m) (successes m) (failures m) (cancellations m)
        (Metric.coalesced m) (Metric.stale m) (Metric.rejected m) (sort_keys (events m)) (in_flight m)
        (peak_in_flight m) (samples m) distribution (last_error m)).

Definition snapshot (w : t) (wall_clock : float) : result ObservabilitySnapshot.t :=
  metrics ← mapM (λ kv, _snapshot_metric kv.1 kv.2) (sort_keys (_metrics w));
  captured_at ← _require_finite_clock wall_clock "wall_clock";
  Ok (ObservabilitySnapshot.mk (_session_started_at w) captured_at
        (fmax (fsub captured_at (_session_started_at w)) (flit 0)) metrics).

Definition reset (wall_clock : float) : M t () :=
  new_started_at ← lift (_require_finite_clock wall_clock "wall_clock");
  modify (λ w, mk (_sample_limit w) (_max_targets w) (_max_active w) new_started_at [] ∅
                  (_next_token w) (_watcher_id w)).
End Watcher.
Import Watcher(_sample_limit, _max_targets, _max_active, _metrics, _active_tokens, _next_token).

(** ** [observation_scope]

    The observer and the cancel check are any methods of the world that may fail. *)
Record Observer (W : Type) := {
  observer_begin : string → M W ObservationToken.t;
  observer_finish : ObservationToken.t → string → M W () }.
Arguments observer_begin {W}.
Arguments observer_finish {W}.

Definition observation_scope {W A} (observer : option (Observer W)) (target : string)
    (cancelled : option (M W bool)) (body : M W A) : M W A :=
  token ← match observer with
          | Some o => attempt (token ← observer_begin o target; mret (Some token)) (λ _, mret None)
          | None => mret None
          end;
  r ← outcome body;
  verdict ← match r with
    | Ok _ => mret "success"
    | Err _ => match cancelled with
               | Some c => attempt (b ← c; mret (if b : bool then "cancelled" else "failure"))
                             (λ _, mret "failure")
               | None => mret "failure"
               end
    end;
  match observer, token with
  | Some o, Some token => attempt (observer_finish o token verdict) (λ _, mret ())
  | _, _ => mret ()
  end;;
  lift r.

(** ** What the watcher keeps *)

(** The observations of [target] under way. *)
Definition under_way (target : string) (active : gmap Z ObservationToken.t) : Z :=
  Z.of_nat (size (filter (λ kv, ObservationToken.target kv.2 = target) active)).

Definition event_of (m : Metric.t) (event : string) : Z := default 0%Z (od_get event (events m)).

Record accounted (w : Watcher.t) (name : string) (m : Metric.t) : Prop := {
  acc_count : count m = (successes m + failures m + cancellations m)%Z;
  acc_signs : (0 ≤ successes m ∧ 0 ≤ failures m ∧ 0 ≤ cancellations m)%Z;
  acc_samples : Z.of_nat (length (samples m)) = Z.min (count m) (_sample_limit w);
  acc_finite : ∀ x, x ∈ samples m → isfinite x = true ∧ fltb x (flit 0) = false;
  acc_flight : in_flight m = under_way name (_active_tokens w);
  acc_peak : (in_flight m ≤ peak_in_flight m)%Z;
  acc_error : (failures m > 0)%Z ↔ is_Some (last_error m);
  acc_detail : ∀ text, last_error m = Some text → String.length text ≤ 160;
  acc_events : Metric.coalesced m = event_of m "coalesced" ∧ Metric.stale m = event_of m "stale" ∧
               Metric.rejected m = event_of m "rejected" }.

Record well_formed (w : Watcher.t) : Prop := {
  wf_bounds : (0 < _sample_limit w ∧ 0 < _max_targets w ∧ 0 < _max_active w)%Z;
  wf_targets : (Z.of_nat (length (_metrics w)) ≤ _max_targets w)%Z;
  wf_active : (Z.of_nat (size (_active_tokens w)) ≤ _max_active w)%Z;
  wf_keys : NoDup (_metrics w).*1;
  wf_metrics : ∀ name m, od_get name (_metrics w) = Some m → accounted w name m;
  wf_tokens : ∀ i token, _active_tokens w !! i = Some token →
    identifier token = i ∧ (i ≤ _next_token w)%Z ∧ isfinite (started token) = true ∧
    tracked token = true;
  wf_unmet : ∀ i token, _active_tokens w !! i = Some token →
    od_get (target token) (_metrics w) = None →
    Z.of_nat (length (_metrics w)) = _max_targets w }.

(** A call of the interface, with the readings it takes; a failed call leaves what it left. *)
Inductive call :=
  | Begin (target : json) (clock : float)
  | Finish (token : ObservationToken.t) (outcome : string) (duration : option float)
      (detail : option string) (clock : float)
  | Recorded (target : json) (duration : float) (outcome : string) (detail : option string)
  | Event (target : json) (event : string)
  | Reset (wall_clock : float).

Definition perform (c : call) (w : Watcher.t) : Watcher.t :=
  match c with
  | Begin target clock => (Watcher.begin target clock w).1
  | Finish token outcome duration detail clock => (Watcher.finish token outcome duration detail clock w).1
  | Recorded target duration outcome detail => (Watcher.record target duration outcome detail w).1
  | Event target event => (Watcher.record_event target event w).1
  | Reset wall_clock => (Watcher.reset wall_clock w).1
  end.
Definition perform_all (calls : list call) (w : Watcher.t) : Watcher.t :=
  foldl (λ w c, perform c w) w calls.

Lemma under_way_insert name i token active : active !! i = None →
  under_way name (<[i := token]> active) =
  (under_way name active + if decide (target token = name) then 1 else 0)%Z.
Proof.
  intros Hi. unfold under_way. case_decide as Ht.
  - rewrite map_filter_insert_True by done. rewrite map_size_insert_None; [lia|].
    apply map_lookup_filter_None. by left.
  - rewrite map_filter_insert_False by done. rewrite delete_id by done. lia.
Qed.

Lemma under_way_delete name i token active : active !! i = Some token →
  under_way name (delete i active) =
  (under_way name active - if decide (target token = name) then 1 else 0)%Z.
Proof.
  intros Hi. rewrite <- (insert_delete_id active i token Hi) at 2.
  rewrite under_way_insert by apply lookup_delete_eq. lia.
Qed.

Lemma under_way_none name active :
  (∀ i token, active !! i = Some token → target token ≠ name) → under_way name active = 0%Z.
Proof.
  intros H. unfold under_way. rewrite map_empty_filter_2; [done|]. intros i token Hi. by eapply H.
Qed.

Lemma deque_append_length {A} limit (x : A) l : (0 < limit)%Z →
  (Z.of_nat (length l) ≤ limit)%Z →
  Z.of_nat (length (deque_append limit x l)) = Z.min (Z.of_nat (length l) + 1) limit.
Proof. intros. unfold deque_append. rewrite length_drop, length_app. simpl. lia. Qed.

Lemma deque_append_elem {A} limit (x y : A) l : y ∈ deque_append limit x l → y = x ∨ y ∈ l.
Proof.
  unfold deque_append. intros [i Hy]%list_elem_of_lookup_1. rewrite lookup_drop in Hy.
  apply list_elem_of_lookup_2 in Hy. set_solver.
Qed.

(** The bookkeeping of one metric, apart from the observations under way. *)
Lemma record_locked_accounted w name m duration outcome detail w' :
  (0 < _sample_limit w)%Z → _sample_limit w' = _sample_limit w →
  isfinite duration = true → fltb duration (flit 0) = false →
  outcome ∈ ["success"; "failure"; "cancelled"] →
  (∀ text, detail = Some text → String.length text ≤ 160) →
  accounted w name m → under_way name (_active_tokens w') = in_flight m →
  accounted w' name (Watcher._record_locked (_sample_limit w) duration outcome detail m).
Proof.
  intros Hl El Hd1 Hd2 Ho Hdet [Hc Hs Hn Hf Hfl Hp He Hdt Hev] Eu.
  assert (Hlen : (Z.of_nat (length (samples m)) ≤ _sample_limit w)%Z) by lia.
  split; simpl; try done.
  - rewrite !elem_of_cons, elem_of_nil in Ho.
    destruct Ho as [->|[->|[->|[]]]]; repeat case_bool_decide; set_solver by lia.
  - repeat case_bool_decide; lia.
  - rewrite El, deque_append_length by done. lia.
  - intros x [->|Hx]%deque_append_elem; auto.
  - case_bool_decide as E; [|rewrite <- He; lia].
    split; [by eexists|]. lia.
  - intros text. case_bool_decide; [|apply Hdt]. intros [= <-].
    destruct detail; simpl; [by apply Hdet|]. lia.
Qed.

Lemma accounted_other w w' name m : _sample_limit w' = _sample_limit w →
  under_way name (_active_tokens w') = under_way name (_active_tokens w) →
  accounted w name m → accounted w' name m.
Proof. intros El Eu []. split; rewrite ?El, ?Eu; done. Qed.

(** A change of one metric and of the observations of its target. *)
Lemma well_formed_change w w' name om m' :
  well_formed w → od_get name (_metrics w) = om →
  _sample_limit w' = _sample_limit w → _max_targets w' = _max_targets w →
  _max_active w' = _max_active w →
  _metrics w' = match om with Some _ => od_set name m' (_metrics w) | None => _metrics w end →
  (is_Some om → accounted w' name m') →
  (∀ other, other ≠ name → under_way other (_active_tokens w') = under_way other (_active_tokens w)) →
  (Z.of_nat (size (_active_tokens w')) ≤ _max_active w)%Z →
  (∀ i token, _active_tokens w' !! i = Some token →
    identifier token = i ∧ (i ≤ _next_token w')%Z ∧ isfinite (started token) = true ∧
    tracked token = true) →
  (∀ i token, _active_tokens w' !! i = Some token →
    _active_tokens w !! i = Some token ∨ target token = name ∧
      (om = None → Z.of_nat (length (_metrics w)) = _max_targets w)) →
  well_formed w'.
Proof.
  intros [Hb Ht Ha Hk Hm Htk Hu] Eom El Et Ea Em Hacc Hother Hsize Htok Hnew.
  assert (Hget : ∀ n, n ≠ name → od_get n (_metrics w') = od_get n (_metrics w)).
  { intros n Hn. rewrite Em. destruct om; [|done]. by rewrite od_get_set_ne. }
  assert (Hlen : length (_metrics w') = length (_metrics w)).
  { rewrite Em. destruct om as [m|]; [|done].
    rewrite <- (length_fmap fst), od_set_keys, decide_True, length_fmap; [done|].
    apply list_elem_of_fmap. exists (name, m). split; [done|]. by apply od_get_elem. }
  split; rewrite ?El, ?Et, ?Ea, ?Hlen; try done.
  - rewrite Em. destruct om; [by apply od_set_NoDup|done].
  - intros n m Hget'. destruct (decide (n = name)) as [->|Hne].
    + rewrite Em in Hget'. destruct om; [|congruence].
      rewrite od_get_set_eq in Hget'. simplify_eq. by apply Hacc.
    + rewrite Hget in Hget' by done. eapply accounted_other; [done|by apply Hother|by apply Hm].
  - intros i token Hi Hnone. destruct (Hnew i token Hi) as [Hold|[Hname Hfull]].
    + destruct (decide (target token = name)) as [E|E]; [|rewrite Hget in Hnone by done; by eapply Hu].
      rewrite Em, E in Hnone. destruct om; [by rewrite od_get_set_eq in Hnone|].
      eapply Hu; [exact Hold|by rewrite E].
    + rewrite Em, Hname in Hnone. destruct om; [by rewrite od_get_set_eq in Hnone|]. by apply Hfull.
Qed.

Lemma new_accounted w name : (0 < _sample_limit w)%Z → under_way name (_active_tokens w) = 0%Z →
  accounted w name Metric.new.
Proof.
  intros Hl Hu. split; simpl; try done; try lia. intros x Hx. by apply not_elem_of_nil in Hx.
Qed.

(** What [_get_or_create_metric] leaves is the watcher, maybe with a new empty metric. *)
Lemma get_or_create w name w' om : well_formed w →
  Watcher._get_or_create_metric name w = (w', Ok om) →
  well_formed w' ∧ od_get name (_metrics w') = om ∧ _active_tokens w' = _active_tokens w ∧
  _next_token w' = _next_token w ∧ _sample_limit w' = _sample_limit w ∧
  _max_active w' = _max_active w ∧ Watcher._watcher_id w' = Watcher._watcher_id w ∧
  (om = None → Z.of_nat (length (_metrics w')) = _max_targets w').
Proof.
  intros Hw. unfold Watcher._get_or_create_metric.
  destruct (od_get name (_metrics w)) as [m|] eqn:Em; [by intros [= <- <-]|].
  pose proof Hw as [Hb Ht Ha Hk Hm Htk Hu].
  case_match eqn:Hfull; intros [= <- <-].
  - split_and!; try done. intros _. lia.
  - pose proof (proj1 (od_get_None _ _) Em) as Hfresh.
    assert (Hlen : length (od_set name Metric.new (_metrics w)) = S (length (_metrics w))).
    { rewrite od_set_fresh, length_app by done. simpl. lia. }
    simpl. rewrite od_get_set_eq. split_and!; try done.
    split; simpl; try done.
    + rewrite Hlen. lia.
    + by apply od_set_NoDup.
    + intros n m Hget. destruct (decide (name = n)) as [<-|Hne].
      * rewrite od_get_set_eq in Hget. simplify_eq. apply new_accounted; simpl; [lia|].
        apply under_way_none. intros i token Hi Heq. specialize (Hu i token Hi). rewrite Heq in Hu. specialize (Hu Em). lia.
      * rewrite od_get_set_ne in Hget by done.
        apply (accounted_other w); [done..|]. by apply Hm.
    + intros i token Hi Hnone. destruct (decide (name = target token)) as [E|E].
      * by rewrite E, od_get_set_eq in Hnone.
      * rewrite od_get_set_ne in Hnone by done. specialize (Hu i token Hi Hnone). lia.
Qed.

Lemma get_or_create_returns name w : ∃ w' om, Watcher._get_or_create_metric name w = (w', Ok om).
Proof. unfold Watcher._get_or_create_metric. repeat case_match; eauto. Qed.

(** A change of a metric that leaves the observations alone. *)
Lemma store_well_formed w name m m' : well_formed w → od_get name (_metrics w) = Some m →
  (accounted w name m → accounted w name m') →
  well_formed (Watcher.set_metrics (od_set name m' (_metrics w)) w).
Proof.
  intros Hw Hget Hacc. pose proof Hw as [Hb Ht Ha Hk Hm Htk Hu].
  eapply (well_formed_change w); [exact Hw|exact Hget|try done..].
  - intros _. apply (accounted_other w); [done..|]. by apply Hacc, Hm.
  - by intros i token Hi; left.
Qed.

Lemma validated_outcome outcome u : Watcher._validate_outcome outcome = Ok u →
  outcome ∈ ["success"; "failure"; "cancelled"].
Proof. unfold Watcher._validate_outcome. intros H. py_run. to_prop. done. Qed.

Lemma validated_duration duration u : Watcher._validate_duration duration = Ok u →
  isfinite duration = true ∧ fltb duration (flit 0) = false.
Proof. unfold Watcher._validate_duration. intros H. py_run. to_prop. done. Qed.

Lemma substring_short n s : String.length (String.substring 0 n s) ≤ n.
Proof. revert s. induction n as [|n IH]; intros [|c s]; simpl; [lia..|]. specialize (IH s). lia. Qed.

Lemma sanitized_short detail text : Watcher._sanitize_detail detail = Some text → String.length text ≤ 160.
Proof.
  unfold Watcher._sanitize_detail. destruct detail as [s|]; [|done]. case_bool_decide; [done|].
  intros [= <-]. apply substring_short.
Qed.

Definition entered (m : Metric.t) : Metric.t :=
  Metric.set_flight (in_flight m + 1) (Z.max (peak_in_flight m) (in_flight m + 1)) m.

Definition with_metric (name : string) (f : Metric.t → Metric.t) (om : option Metric.t)
    (metrics : list (string * Metric.t)) : list (string * Metric.t) :=
  match om with Some m => od_set name (f m) metrics | None => metrics end.

Lemma tracked_well_formed w w' token om : well_formed w →
  od_get (target token) (_metrics w) = om →
  (om = None → Z.of_nat (length (_metrics w)) = _max_targets w) →
  identifier token = (_next_token w + 1)%Z → isfinite (started token) = true → tracked token = true →
  (Z.of_nat (size (_active_tokens w)) < _max_active w)%Z →
  w' = Watcher.mk (_sample_limit w) (_max_targets w) (_max_active w) (Watcher._session_started_at w)
         (with_metric (target token) entered om (_metrics w))
         (<[identifier token := token]> (_active_tokens w)) (_next_token w + 1) (Watcher._watcher_id w) →
  well_formed w'.
Proof.
  intros Hw Hom Hfull Hid Hstart Htr Hsize ->. pose proof Hw as [Hb Ht Ha Hk Hm Htk Hu].
  assert (Hfresh : _active_tokens w !! identifier token = None).
  { destruct (_active_tokens w !! _) as [tk|] eqn:E; [|done]. apply Htk in E. lia. }
  apply (well_formed_change w _ (target token) om (default Metric.new (entered <$> om)));
    simpl; try done.
  - by destruct om.
  - intros [m ->]. destruct (Hm _ _ Hom) as [Hc Hs Hn Hf Hfl Hp He Hdt Hev].
    split; simpl; try done; [|lia]. rewrite under_way_insert, decide_True, Hfl by done. done.
  - intros other Hne. rewrite under_way_insert, decide_False by congruence. lia.
  - rewrite map_size_insert_None by done. lia.
  - intros i tk. rewrite lookup_insert_Some. intros [[<- <-]|[_ Hi]]; [split_and!; try done; lia|].
    destruct (Htk i tk Hi) as (? & ? & ? & ?). split_and!; try done. lia.
  - intros i tk. rewrite lookup_insert_Some. intros [[<- <-]|[_ Hi]]; [right; auto|by left].
Qed.

Lemma next_well_formed w : well_formed w → well_formed (Watcher.next_token w).
Proof.
  intros [Hb Ht Ha Hk Hm Htk Hu]. split; simpl; try done.
  - intros name m Hget. apply (accounted_other w); [done..|]. by apply Hm.
  - intros i tk Hi. destruct (Htk i tk Hi) as (? & ? & ? & ?). split_and!; try done. lia.
Qed.

Lemma begin_well_formed target clock w : well_formed w →
  well_formed (Watcher.begin target clock w).1.
Proof.
  intros Hw. unfold Watcher.begin. rewrite M_bind_run. unfold lift at 1.
  destruct (Watcher._validate_target target) as [name|]; [|done].
  rewrite M_bind_run. unfold lift at 1. destruct (Watcher._require_finite_clock clock "clock") as [start|] eqn:Ec; [|done].
  assert (Hstart : isfinite start = true).
  { unfold Watcher._require_finite_clock in Ec. py_run. by to_prop. }
  rewrite M_bind_run. destruct (get_or_create_returns name w) as (w1 & om & E1). rewrite E1.
  apply get_or_create in E1 as (Hw1 & Hom & _ & _ & _ & _ & _ & Hfull); [|done].
  rewrite M_bind_run. unfold modify at 1. rewrite M_bind_run. unfold get.
  change (_active_tokens (Watcher.next_token w1)) with (_active_tokens w1).
  change (_max_active (Watcher.next_token w1)) with (_max_active w1).
  destruct (Z.of_nat (size (_active_tokens w1)) <? _max_active w1)%Z eqn:Etr.
  - apply (tracked_well_formed w1 _
      (ObservationToken.mk name start (_next_token w1 + 1) (Watcher._watcher_id w1) true) om);
      try done; [simpl; lia|]. by destruct om.
  - by apply next_well_formed.
Qed.

Lemma finished_well_formed w w' token om limit duration outcome detail : well_formed w →
  _active_tokens w !! identifier token = Some token →
  od_get (target token) (_metrics w) = om → limit = _sample_limit w →
  isfinite duration = true → fltb duration (flit 0) = false →
  outcome ∈ ["success"; "failure"; "cancelled"] →
  w' = Watcher.mk (_sample_limit w) (_max_targets w) (_max_active w) (Watcher._session_started_at w)
         (with_metric (target token) (λ m, Watcher._record_locked limit duration outcome
            (Watcher._sanitize_detail detail) (Metric.set_flight (in_flight m - 1) (peak_in_flight m) m))
            om (_metrics w))
         (delete (identifier token) (_active_tokens w)) (_next_token w) (Watcher._watcher_id w) →
  well_formed w'.
Proof.
  intros Hw Hact Hom -> Hd1 Hd2 Ho ->. pose proof Hw as [Hb Ht Ha Hk Hm Htk Hu].
  apply (well_formed_change w _ (target token) om (default Metric.new
    ((λ m, Watcher._record_locked (_sample_limit w) duration outcome
            (Watcher._sanitize_detail detail) (Metric.set_flight (in_flight m - 1) (peak_in_flight m) m)) <$> om)));
    simpl; try done.
  - by destruct om.
  - intros [m ->]. set (w0 := Watcher.set_active (delete (identifier token) (_active_tokens w)) w).
    assert (Hun : under_way (target token) (_active_tokens w0) = (in_flight m - 1)%Z).
    { simpl. rewrite (under_way_delete _ _ token), decide_True by done. by rewrite (acc_flight _ _ _ (Hm _ _ Hom)). }
    apply (record_locked_accounted w0); try done; [apply Hb|intros text; apply sanitized_short|].
    destruct (Hm _ _ Hom) as [Hc Hs Hn Hf Hfl Hp He Hdt Hev]. split; try done. simpl. lia.
  - intros other Hne. rewrite (under_way_delete _ _ token), decide_False by (done || congruence). lia.
  - rewrite map_size_delete_Some by (by eexists). lia.
  - intros i tk [_ Hi]%lookup_delete_Some. by apply Htk.
  - intros i tk [_ Hi]%lookup_delete_Some. by left.
Qed.

Lemma eqb_active w token active_token : well_formed w →
  _active_tokens w !! identifier token = Some active_token →
  ObservationToken.eqb active_token token = true → target active_token = target token.
Proof. intros _ _ H. unfold ObservationToken.eqb in H. by to_prop. Qed.

Lemma get_or_create_active name w active :
  Watcher._get_or_create_metric name (Watcher.set_active active w) =
  let '(w1, r) := Watcher._get_or_create_metric name w in (Watcher.set_active active w1, r).
Proof. unfold Watcher._get_or_create_metric. simpl. by repeat case_match. Qed.

Lemma finish_well_formed token outcome duration detail clock w : well_formed w →
  well_formed (Watcher.finish token outcome duration detail clock w).1.
Proof.
  intros Hw. unfold Watcher.finish. rewrite M_bind_run. unfold get at 1.
  destruct (_active_tokens w !! identifier token) as [tk|] eqn:Eact; [|by destruct (tracked token)].
  destruct (ObservationToken.eqb tk token) eqn:Eeq; cbn [negb]; [|by destruct (tracked token)].
  pose proof (eqb_active w token tk Hw Eact Eeq) as Etk.
  assert (Eid : identifier tk = identifier token) by (by apply (wf_tokens w Hw) in Eact as [? _]).
  set (d := match duration with Some d => d | None => _ end).
  rewrite M_bind_run. unfold lift at 1. destruct (Watcher._validate_duration d) eqn:Ed; [|done].
  rewrite M_bind_run. unfold lift at 1. destruct (Watcher._validate_outcome outcome) eqn:Eo; [|done].
  apply validated_duration in Ed as [Hd1 Hd2]. apply validated_outcome in Eo.
  rewrite M_bind_run. unfold modify at 1. rewrite M_bind_run, get_or_create_active.
  destruct (get_or_create_returns (target token) w) as (w1 & om & E1). rewrite E1.
  apply get_or_create in E1 as (Hw1 & Hom & Ea & En & El & _); [|done].
  rewrite <- Ea, <- Etk, <- Eid in *.
  eapply (finished_well_formed w1 _ tk om _ d outcome detail); try done. by destruct om.
Qed.

Lemma record_well_formed target duration outcome detail w : well_formed w →
  well_formed (Watcher.record target duration outcome detail w).1.
Proof.
  intros Hw. unfold Watcher.record. rewrite M_bind_run. unfold lift at 1.
  destruct (Watcher._validate_target target) as [name|]; [|done].
  rewrite M_bind_run. unfold lift at 1. destruct (Watcher._validate_duration duration) eqn:Ed; [|done].
  rewrite M_bind_run. unfold lift at 1. destruct (Watcher._validate_outcome outcome) eqn:Eo; [|done].
  apply validated_duration in Ed as [Hd1 Hd2]. apply validated_outcome in Eo.
  rewrite M_bind_run. unfold get. rewrite M_bind_run.
  destruct (get_or_create_returns name w) as (w1 & om & E1). rewrite E1.
  apply get_or_create in E1 as (Hw1 & Hom & _ & _ & El & _); [|done].
  destruct om as [m|]; [|done]. rewrite <- El.
  apply (store_well_formed w1 name m); [done..|]. intros Hacc.
  apply record_locked_accounted; try done; [apply Hw1|intros text; apply sanitized_short|].
  by rewrite (acc_flight _ _ _ Hacc).
Qed.

Lemma event_of_set m e l event : l = od_set e (event_of m e + 1)%Z (events m) →
  event_of (Metric.set_events l m) event = (event_of m event + if decide (event = e) then 1 else 0)%Z.
Proof.
  intros ->. unfold event_of. simpl. rewrite od_get_set. repeat case_decide; simplify_eq/=; lia.
Qed.

Lemma event_well_formed target event w : well_formed w →
  well_formed (Watcher.record_event target event w).1.
Proof.
  intros Hw. unfold Watcher.record_event. rewrite M_bind_run. unfold lift at 1.
  destruct (Watcher._validate_target target) as [name|]; [|done].
  rewrite M_bind_run. unfold throw_if. destruct (negb _); [done|]. cbn [raise_if]. rewrite M_bind_run.
  destruct (get_or_create_returns name w) as (w1 & om & E1). rewrite E1.
  apply get_or_create in E1 as (Hw1 & Hom & _); [|done].
  destruct om as [m|]; [|done]. apply (store_well_formed w1 name m); [done..|].
  intros [Hc Hs Hn Hf Hfl Hp He Hdt (He1 & He2 & He3)].
  set (m1 := Metric.set_events _ m).
  assert (Hev : ∀ e, event_of m1 e = (event_of m e + if decide (e = event) then 1 else 0)%Z)
    by (intros e; by apply event_of_set).
  assert (Hcase : if bool_decide (event ∈ _COUNTED_EVENT_KINDS) then True else
            event ≠ "coalesced" ∧ event ≠ "stale" ∧ event ≠ "rejected").
  { case_bool_decide as E; [done|]. unfold _COUNTED_EVENT_KINDS in E. set_solver. }
  destruct (bool_decide _); split; try done.
  - unfold event_of in *. simpl in *. rewrite !Hev, He1, He2, He3.
    split_and!; repeat (case_decide || case_bool_decide); congruence.
  - rewrite !Hev. simpl. rewrite He1, He2, He3, !decide_False by naive_solver. split_and!; lia.
Qed.

Lemma empty_well_formed limit targets active started next i :
  (0 < limit ∧ 0 < targets ∧ 0 < active)%Z →
  well_formed (Watcher.mk limit targets active started [] ∅ next i).
Proof.
  intros Hb. split; simpl; try done; try lia.
  - rewrite map_size_empty. lia.
  - constructor.
Qed.

Lemma reset_well_formed wall_clock w : well_formed w → well_formed (Watcher.reset wall_clock w).1.
Proof.
  intros [Hb Ht Ha Hk Hm Htk Hu]. unfold Watcher.reset. rewrite M_bind_run. unfold lift at 1.
  destruct (Watcher._require_finite_clock wall_clock "wall_clock"); [|by split].
  by apply empty_well_formed.
Qed.

Lemma init_well_formed limit targets active wall watcher_id w :
  Watcher.__init__ limit targets active wall watcher_id = Ok w → well_formed w.
Proof.
  unfold Watcher.__init__, Watcher.positive_integer. intros H. py_case. to_prop.
  apply empty_well_formed. lia.
Qed.

Lemma perform_well_formed c w : well_formed w → well_formed (perform c w).
Proof.
  destruct c; [apply begin_well_formed|apply finish_well_formed|apply record_well_formed
              |apply event_well_formed|apply reset_well_formed].
Qed.

Lemma perform_all_well_formed calls w : well_formed w → well_formed (perform_all calls w).
Proof.
  unfold perform_all. revert w. induction calls as [|c calls IH]; simpl; [done|].
  intros w Hw. by apply IH, perform_well_formed.
Qed.

(** ** Theorems *)

(** C37. Whatever is asked of a watcher, also with bad arguments and clocks, its numbers agree: a
    target's observations are its successes, failures and cancellations, as many of its last
    samples are kept as the limit allows, all finite and not negative, its observations in
    flight are the tokens handed out for it and not finished, at most its peak, its counted
    events are those of its table; and no table grows past its bound. *)
Theorem observations_are_accounted sample_limit max_targets max_active wall watcher_id w calls :
  Watcher.__init__ sample_limit max_targets max_active wall watcher_id = Ok w →
  well_formed (perform_all calls w).
Proof. intros H. by eapply perform_all_well_formed, init_well_formed. Qed.

(** An identifier given out and no more under way. *)
Definition spent (i : Z) (w : Watcher.t) : Prop := _active_tokens w !! i = None ∧ (i ≤ _next_token w)%Z.

Definition stays_spent (i : Z) (w w' : Watcher.t) : Prop :=
  _sample_limit w' = _sample_limit w ∧ (spent i w → spent i w').
#[local] Instance stays_spent_refl i : Reflexive (stays_spent i).
Proof. by intros w. Qed.
#[local] Instance stays_spent_trans i : Transitive (stays_spent i).
Proof. intros w1 w2 w3 [E1 H1] [E2 H2]. split; [congruence|auto]. Qed.
#[local] Instance stays_spent_metric i name : Keeps (stays_spent i) (Watcher._get_or_create_metric name).
Proof. intros w. unfold Watcher._get_or_create_metric. by repeat case_match. Qed.
#[local] Instance stays_spent_store i name m : Keeps (stays_spent i) (Watcher.store_metric name m).
Proof. by intros w. Qed.
#[local] Instance stays_spent_get i : Keeps (stays_spent i) get.
Proof. by intros w. Qed.
#[local] Instance stays_spent_delete i j :
  Keeps (stays_spent i) (modify (λ w, Watcher.set_active (delete j (_active_tokens w)) w)).
Proof. intros w. split; [done|]. intros [Hi Hn]. split; [|done]. simpl. rewrite lookup_delete_None. by right. Qed.

Lemma begin_spent i target clock : Keeps (stays_spent i) (Watcher.begin target clock).
Proof.
  apply keeps_bind; [apply _..|]. intros name. apply keeps_bind; [apply _..|]. intros start.
  apply keeps_bind; [apply _..|]. intros om w.
  rewrite M_bind_run. unfold modify at 1. rewrite M_bind_run. unfold get.
  set (b := (_ <? _)%Z). destruct b, om; (split; [done|]); intros [Hi Hn]; split; simpl;
    rewrite ?lookup_insert_ne by lia; done || lia.
Qed.

Lemma perform_spent i c w : stays_spent i w (perform c w).
Proof.
  destruct c; simpl; [apply begin_spent|revert w; match goal with |- ∀ w, _ (?m w).1 =>
    change (Keeps (stays_spent i) m) end..].
  - unfold Watcher.finish. keeps.
  - unfold Watcher.record. keeps.
  - unfold Watcher.record_event. keeps.
  - unfold Watcher.reset. apply keeps_bind; [apply _..|]. intros start w. split; [done|]. intros [Hi Hn]. by split.
Qed.

Lemma perform_all_spent i calls w : stays_spent i w (perform_all calls w).
Proof.
  unfold perform_all. revert w. induction calls as [|c calls IH]; simpl; [done|].
  intros w. etrans; [apply perform_spent|apply IH].
Qed.

Lemma finished_is_spent token outcome duration detail clock w w' : well_formed w →
  tracked token = true → Watcher.finish token outcome duration detail clock w = (w', Ok ()) →
  spent (identifier token) w'.
Proof.
  intros Hw Ht. unfold Watcher.finish. rewrite M_bind_run. unfold get at 1.
  destruct (_active_tokens w !! identifier token) as [tk|] eqn:Eact; [|by rewrite Ht].
  destruct (ObservationToken.eqb tk token) eqn:Eeq; cbn [negb]; [|by rewrite Ht].
  intros Hrun. repeat m_step. revert Hrun.
  match goal with E : modify _ _ = _ |- _ => injection E as E end. subst.
  match goal with E : Watcher._get_or_create_metric _ ?w0 = (?w1, Ok ?om) |- _ =>
    assert (Hsp : spent (identifier token) w1);
    [apply (proj2 (keeps_run (stays_spent (identifier token)) _ _ _ _ E))|destruct om] end.
  - split; simpl; [apply lookup_delete_eq|]. by apply (wf_tokens w Hw) in Eact as (_ & ? & _).
  - by intros [= <-].
  - by intros [= <-].
Qed.

(** An observation is counted at most once: when a watcher has accepted the end of an
    observation it tracks, every later attempt to end it is refused and changes nothing, whatever
    was asked of the watcher in between, resets included. *)
Theorem observation_counted_once sample_limit max_targets max_active wall watcher_id w0 before
    token outcome duration detail clock w after outcome' duration' detail' clock' :
  Watcher.__init__ sample_limit max_targets max_active wall watcher_id = Ok w0 →
  tracked token = true →
  Watcher.finish token outcome duration detail clock (perform_all before w0) = (w, Ok ()) →
  Watcher.finish token outcome' duration' detail' clock' (perform_all after w) =
    (perform_all after w, raise ValueError "observation token was already finished").
Proof.
  intros Hinit Ht Hfin.
  apply finished_is_spent in Hfin; [|by eapply perform_all_well_formed, init_well_formed|done].
  apply (proj2 (perform_all_spent _ after w)) in Hfin as [Hnone _].
  unfold Watcher.finish. rewrite M_bind_run. unfold get. by rewrite Hnone, Ht.
Qed.

(** ** Snapshots *)

Definition rank_ok (fraction : float) (n : Z) : bool :=
  match float_of_Z (n - 1) with
  | Ok f => let lower := trunc (fmul f fraction) in
            (0 <=? lower)%Z && (lower <? n)%Z && is_ok (float_of_Z lower)
  | Err _ => false
  end.

Lemma ranks_ok : forallb (λ fraction, forallb (rank_ok fraction) (seqZ 1 1024))
  [dec_0_25; dec_0_75; dec_0_95; dec_0_99] = true.
Proof. by vm_compute. Qed.

Lemma at_index_Ok l i : (0 ≤ i < Z.of_nat (length l))%Z → ∃ x, at_index l i = Ok x ∧ x ∈ l.
Proof.
  intros Hi. unfold at_index. destruct (lookup_lt_is_Some_2 l (Z.to_nat i)) as [x Hx]; [lia|].
  exists x. rewrite Hx. split; [done|]. by apply list_elem_of_lookup_2 in Hx.
Qed.

Lemma percentile_Ok l fraction : l ≠ [] → (Z.of_nat (length l) ≤ 1024)%Z →
  fraction ∈ [dec_0_25; dec_0_75; dec_0_95; dec_0_99] → ∃ x, _percentile l fraction = Ok x.
Proof.
  intros Hne Hlen Hfr. assert (Hpos : (1 ≤ Z.of_nat (length l))%Z) by (destruct l; simpl; [done|lia]).
  pose proof ranks_ok as Hr. rewrite forallb_forall in Hr.
  apply list_elem_of_In, Hr in Hfr. rewrite forallb_forall in Hfr.
  specialize (Hfr (Z.of_nat (length l))). rewrite <- list_elem_of_In, elem_of_seqZ in Hfr.
  specialize (Hfr ltac:(lia)). unfold _percentile, rank_ok in *. destruct (Z.of_nat (length l) =? 1)%Z eqn:E1.
  { destruct (at_index_Ok l 0) as (x & -> & _); [lia|]. by eexists. }
  destruct (float_of_Z (_ - 1)) as [f|]; [|done]. cbn [mbind result_bind].
  apply andb_true_iff in Hfr as [Hfr Hok]. apply andb_true_iff in Hfr as [H1 H2].
  destruct (at_index_Ok l (trunc (fmul f fraction))) as (x & -> & _); [lia|]. cbn [mbind result_bind].
  edestruct (at_index_Ok l) as (y & -> & _); [|cbn [mbind result_bind]].
  - lia.
  - destruct (float_of_Z (trunc _)); [|done]. by eexists.
Qed.

Lemma median_Ok l : l ≠ [] → ∃ x, median l = Ok x.
Proof.
  intros Hne. assert (Hpos : (1 ≤ Z.of_nat (length l))%Z) by (destruct l; simpl; [done|lia]).
  set (n := Z.of_nat (length l)) in *. unfold median. fold n. case_match eqn:E.
  - destruct (at_index_Ok l (n / 2)) as (x & -> & _); [Z.to_euclidean_division_equations; lia|]. by eexists.
  - destruct (at_index_Ok l (n / 2 - 1)) as (x & -> & _); [Z.to_euclidean_division_equations; lia|].
    destruct (at_index_Ok l (n / 2)) as (y & -> & _); [Z.to_euclidean_division_equations; lia|]. by eexists.
Qed.

(** The order of [sorted] on numbers that are no NaN. *)
Notation ascending := (Sorted (λ a b, fleb a b = true)).

Lemma insert_ascending x l : isfinite x = true → Forall (λ y, isfinite y = true) l →
  ascending l → ascending (insert_sorted fleb x l).
Proof.
  intros Hx Hl Hs. induction Hs as [|y l Hs IH Hhd]; simpl; [by repeat constructor|].
  inversion_clear Hl as [|? ? Hy Hl']. destruct (fleb x y) eqn:E; [by repeat constructor|].
  constructor; [by apply IH|]. assert (Hyx : fleb y x = true).
  { apply fltb_fleb, fleb_false_fltb; auto using isfinite_not_nan. }
  destruct l as [|z l]; simpl; [by constructor|]. inversion_clear Hhd. case_match; by constructor.
Qed.

Lemma sorted_ascending l : Forall (λ y, isfinite y = true) l → ascending (sorted fleb l).
Proof.
  induction l as [|x l IH]; intros Hl; [constructor|]. inversion_clear Hl as [|? ? Hx Hl'].
  simpl. apply insert_ascending; [done| |by apply IH]. by rewrite sorted_perm.
Qed.

Lemma ascending_lookup l i j a b : ascending l → i < j → l !! i = Some a → l !! j = Some b →
  fleb a b = true.
Proof.
  intros Hs%Sorted_StronglySorted; [|intros x y z; apply fleb_trans]. revert i j.
  induction Hs as [|x l Hs IH Hx]; intros [|i] [|j] Hij Ha Hb; simpl in *; simplify_eq; try lia.
  - rewrite Forall_lookup in Hx. by eapply Hx.
  - eapply IH; [|done..]. lia.
Qed.

Definition extremes (l : list float) (d : list (string * json)) : Prop :=
  ∃ low high, od_get "minimum" d = Some (JFloat low) ∧ od_get "maximum" d = Some (JFloat high) ∧
    low ∈ l ∧ high ∈ l ∧ ∀ x, x ∈ l → fleb low x = true ∧ fleb x high = true.

Lemma sorted_extremes l x y : Forall (λ y, isfinite y = true) l → ascending l →
  at_index l 0 = Ok x → at_index l (Z.of_nat (length l) - 1) = Ok y →
  ∀ z, z ∈ l → fleb x z = true ∧ fleb z y = true.
Proof.
  intros Hf Hs Hx Hy z [i Hz]%list_elem_of_lookup_1. unfold at_index in *.
  apply of_option_Ok in Hx, Hy. rewrite Forall_lookup in Hf.
  assert (Hle : ∀ i j a b, i ≤ j → l !! i = Some a → l !! j = Some b → fleb a b = true).
  { intros j k a b Hjk Ha Hb. destruct (decide (j = k)) as [->|]; [simplify_eq; eauto with pyfloat|].
    eapply ascending_lookup; [exact Hs| |exact Ha|exact Hb]. lia. }
  pose proof (lookup_lt_Some _ _ _ Hz). split; eapply Hle; [|exact Hx|exact Hz| |exact Hz|exact Hy]; lia.
Qed.

Lemma summarize_Ok l : l ≠ [] → (Z.of_nat (length l) ≤ 1024)%Z → Forall (λ y, isfinite y = true) l →
  ∃ d, summarize_samples l = Ok d ∧ extremes l d.
Proof.
  intros Hne Hlen Hf. unfold summarize_samples. rewrite bool_decide_eq_false_2 by done. cbn [raise_if mbind result_bind].
  rewrite (proj2 (existsb_false_iff _ _)).
  2: { intros x Hx. rewrite Forall_forall in Hf. by rewrite Hf. }
  cbn [raise_if mbind result_bind]. pose proof (sorted_perm fleb l) as Hp.
  pose proof (sorted_ascending l Hf) as Hs. set (o := sorted fleb l) in *.
  assert (Hone : o ≠ []) by (intros E; rewrite E in Hp; by apply Permutation_nil_l in Hp).
  assert (Hol : length o = length l) by (by rewrite Hp).
  assert (Hpos : (1 ≤ Z.of_nat (length o))%Z) by (destruct o; simpl; [done|lia]).
  assert (Hpc : ∀ f, f ∈ [dec_0_25; dec_0_75; dec_0_95; dec_0_99] → ∃ x, _percentile o f = Ok x)
    by (intros; apply percentile_Ok; [done|lia|done]).
  destruct (Hpc dec_0_25) as [p25 ->]; [set_solver|]. destruct (Hpc dec_0_75) as [p75 ->]; [set_solver|].
  destruct (median_Ok o Hone) as [m ->]. cbn [mbind result_bind].
  destruct (at_index_Ok o 0) as (x & Ex & Hx); [lia|]. rewrite Ex.
  destruct (Hpc dec_0_95) as [p95 ->]; [set_solver|]. destruct (Hpc dec_0_99) as [p99 ->]; [set_solver|].
  destruct (at_index_Ok o (Z.of_nat (length o) - 1)) as (y & Ey & Hy); [lia|]. rewrite Ey.
  eexists. split; [done|]. exists x, y. rewrite Hp in Hx, Hy. split_and!; try done.
  intros z Hz. rewrite <- Hp in Hz. by eapply (sorted_extremes o); [rewrite Hp|..].
Qed.

Lemma mapM_Ok_all {A B} (f : A → result B) (P : A → B → Prop) l :
  (∀ x, x ∈ l → ∃ y, f x = Ok y ∧ P x y) → ∃ k, mapM f l = Ok k ∧ Forall2 P l k.
Proof.
  induction l as [|x l IH]; intros Hall; [by exists []|].
  destruct (Hall x) as (y & Ey & Hy); [set_solver|].
  destruct IH as (k & Ek & Hk); [set_solver|]. exists (y :: k). simpl. rewrite Ey. simpl.
  rewrite Ek. split; [done|by constructor].
Qed.

(** A snapshot of a watcher that keeps at most 1024 samples always returns, whatever was
    observed, unless the clock is broken: one entry for each target, in order, with the target's
    numbers, and a distribution whose minimum and maximum are the least and the greatest sample. *)
Theorem snapshot_returns sample_limit max_targets max_active wall watcher_id w0 calls wall_clock :
  Watcher.__init__ sample_limit max_targets max_active wall watcher_id = Ok w0 →
  (_sample_limit w0 ≤ 1024)%Z → isfinite wall_clock = true →
  let w := perform_all calls w0 in
  ∃ snap, Watcher.snapshot w wall_clock = Ok snap ∧
    Forall2 (λ kv s, MetricSnapshot.target s = kv.1 ∧ MetricSnapshot.count s = count kv.2 ∧
               MetricSnapshot.samples s = samples kv.2 ∧ MetricSnapshot.in_flight s = in_flight kv.2 ∧
               (samples kv.2 ≠ [] → extremes (samples kv.2) (MetricSnapshot.distribution s)))
      (sort_keys (_metrics w)) (ObservabilitySnapshot.metrics snap).
Proof.
  intros Hinit Hlimit Hwall w.
  assert (Hw : well_formed w) by (by eapply perform_all_well_formed, init_well_formed).
  assert (El : _sample_limit w = _sample_limit w0) by apply (perform_all_spent 0 calls w0).
  assert (Hall : ∀ kv, kv ∈ sort_keys (_metrics w) → ∃ s, Watcher._snapshot_metric kv.1 kv.2 = Ok s ∧
    MetricSnapshot.target s = kv.1 ∧ MetricSnapshot.count s = count kv.2 ∧
    MetricSnapshot.samples s = samples kv.2 ∧ MetricSnapshot.in_flight s = in_flight kv.2 ∧
    (samples kv.2 ≠ [] → extremes (samples kv.2) (MetricSnapshot.distribution s))).
  { intros [name m] Hin. rewrite sort_keys_perm in Hin. apply od_elem_get in Hin; [|apply Hw].
    apply (wf_metrics _ Hw) in Hin. simpl. unfold Watcher._snapshot_metric.
    case_bool_decide as E; [by eexists; split_and!|].
    destruct (summarize_Ok (samples m)) as (d & -> & Hd); [done| | |].
    - rewrite (acc_samples _ _ _ Hin). lia.
    - apply Forall_forall. intros x Hx. by apply (acc_finite _ _ _ Hin).
    - eexists. by split_and!. }
  destruct (mapM_Ok_all (λ kv, Watcher._snapshot_metric kv.1 kv.2) _ _ Hall) as (l & El' & Hl).
  unfold Watcher.snapshot. rewrite El'. cbn [mbind result_bind].
  unfold Watcher._require_finite_clock. rewrite Hwall. by eexists.
Qed.

(** ** The scope of an observation *)

(** C36. Observing changes nothing of what is observed.  Take any view of the world that the
    observer and the cancel check leave alone and that is all the body goes by.  Then a scope
    returns or raises exactly what its body does, and leaves the view as the body does, whether
    observing works, fails, or there is no observer. *)
Theorem scope_is_transparent {W V A} (view : W → V) (observer : option (Observer W)) target
    cancelled (body : M W A) w :
  (∀ o, observer = Some o → (∀ t, Keeps (λ w w', view w' = view w) (observer_begin o t)) ∧
    ∀ token verdict, Keeps (λ w w', view w' = view w) (observer_finish o token verdict)) →
  (∀ c, cancelled = Some c → Keeps (λ w w', view w' = view w) c) →
  (∀ w w', view w = view w' → view (body w).1 = view (body w').1 ∧ (body w).2 = (body w').2) →
  (observation_scope observer target cancelled body w).2 = (body w).2 ∧
  view (observation_scope observer target cancelled body w).1 = view (body w).1.
Proof.
  intros Hobs Hcan Hbody. set (R := λ w w' : W, view w' = view w).
  assert (HR : Reflexive R) by done.
  assert (HT : Transitive R) by (intros w1 w2 w3 E1 E2; unfold R in *; congruence).
  unfold observation_scope. rewrite M_bind_run.
  match goal with |- context [match ?m w with _ => _ end] => set (start := m) end.
  assert (Hstart : Keeps R start).
  { unfold start. destruct observer as [o|]; [|apply _]. destruct (Hobs o) as [Hb _]; [done|].
    apply keeps_attempt; [done| |intros; apply _]. apply keeps_bind; [done|apply Hb|intros; apply _]. }
  assert (Hok : ∃ w1 token, start w = (w1, Ok token)).
  { unfold start. destruct observer as [o|]; [|by eauto]. unfold attempt. rewrite M_bind_run.
    destruct (observer_begin o target w) as [w1 [token|e]]; eauto. }
  destruct Hok as (w1 & token & E). rewrite E. apply (keeps_run R) in E as Hw1; [|done].
  rewrite M_bind_run. unfold outcome. destruct (Hbody w w1) as [Hv Hr]; [done|].
  destruct (body w1) as [w2 r]. simpl in Hv, Hr. rewrite Hr, Hv. clear Hr Hv.
  match goal with |- context [(?m ≫= ?k) w2] => set (verdict := m); set (rest := k) end.
  assert (Hverdict : Keeps R verdict).
  { unfold verdict. destruct r; [apply _|]. destruct cancelled as [c|]; [|apply _].
    apply keeps_attempt; [done| |intros; apply _]. apply keeps_bind; [done|by apply Hcan|intros; apply _]. }
  assert (Hok : ∃ w3 s, verdict w2 = (w3, Ok s)).
  { unfold verdict. destruct r; [by eexists _, _|]. destruct cancelled as [c|]; [|by eexists _, _].
    unfold attempt. rewrite M_bind_run. destruct (c w2) as [w3 [b|err]]; by eexists _, _. }
  destruct Hok as (w3 & s & E3). rewrite M_bind_run, E3. apply (keeps_run R) in E3; [|done].
  unfold rest. rewrite M_bind_run.
  destruct observer as [o|]; [|done]. destruct token as [token|]; [|done]. unfold attempt.
  destruct (Hobs o) as [_ Hf]; [done|]. pose proof (keeps_fst (Keeps := Hf token s) w3) as Hw4.
  destruct (observer_finish o token s w3) as [w4 [u|e]]; unfold R in *; simpl in *; split; congruence.
Qed.

(** A watcher beside what the application sees; both clocks read what they are given. *)
Definition on_watcher {V A} (m : M Watcher.t A) : M (V * Watcher.t) A :=
  λ s, let '(w, r) := m s.2 in ((s.1, w), r).
Definition on_view {V A} (m : M V A) : M (V * Watcher.t) A :=
  λ s, let '(v, r) := m s.1 in ((v, s.2), r).
Definition watcher_observer {V} (clock clock' : float) : Observer (V * Watcher.t) := {|
  observer_begin target := on_watcher (Watcher.begin (JStr target) clock);
  observer_finish token verdict := on_watcher (Watcher.finish token verdict None None clock') |}.

Definition metric_of (name : string) (w : Watcher.t) : Metric.t :=
  default Metric.new (od_get name (_metrics w)).

(** There is a metric for the target, or room for one, and room for a token. *)
Definition has_room (name : string) (w : Watcher.t) : Prop :=
  (od_get name (_metrics w) = None → (Z.of_nat (length (_metrics w)) < _max_targets w)%Z) ∧
  (Z.of_nat (size (_active_tokens w)) < _max_active w)%Z.

Lemma begin_tracked name clock w : well_formed w → Watcher._validate_target (JStr name) = Ok name →
  isfinite clock = true → has_room name w →
  ∃ w1, let token := ObservationToken.mk name clock (_next_token w + 1) (Watcher._watcher_id w) true in
    Watcher.begin (JStr name) clock w = (w1, Ok token) ∧
    od_get name (_metrics w1) = Some (entered (metric_of name w)) ∧
    _active_tokens w1 = <[identifier token := token]> (_active_tokens w).
Proof.
  intros Hw Hname Hclock [Hroom Hact]. unfold Watcher.begin. rewrite Hname. rewrite M_bind_run. unfold lift at 1.
  unfold Watcher._require_finite_clock. rewrite Hclock. rewrite M_bind_run. unfold lift at 1. cbn [negb raise_if mbind result_bind].
  rewrite M_bind_run. unfold metric_of, Watcher._get_or_create_metric.
  apply Z.ltb_lt in Hact. destruct (od_get name (_metrics w)) as [m|] eqn:Em.
  - rewrite M_bind_run. unfold modify at 1. rewrite M_bind_run. unfold get.
    change (_active_tokens (Watcher.next_token w)) with (_active_tokens w).
    change (_max_active (Watcher.next_token w)) with (_max_active w). rewrite Hact.
    eexists. split_and!; [done| |done]. simpl. by rewrite od_get_set_eq.
  - rewrite (proj2 (Z.leb_gt _ _)) by (by apply Hroom).
    rewrite M_bind_run. unfold modify at 1. rewrite M_bind_run. unfold get.
    set (w1 := Watcher.next_token _).
    change (_active_tokens w1) with (_active_tokens w). change (_max_active w1) with (_max_active w). rewrite Hact.
    eexists. split_and!; [done| |done]. simpl. by rewrite od_get_set_eq.
Qed.

Lemma finish_tracked w token verdict clock m : _active_tokens w !! identifier token = Some token →
  ObservationToken.eqb token token = true →
  Watcher._validate_duration (fsub clock (started token)) = Ok () →
  Watcher._validate_outcome verdict = Ok () → od_get (target token) (_metrics w) = Some m →
  ∃ w1, Watcher.finish token verdict None None clock w = (w1, Ok ()) ∧
    od_get (target token) (_metrics w1) = Some (Watcher._record_locked (_sample_limit w)
      (fsub clock (started token)) verdict None (Metric.set_flight (in_flight m - 1) (peak_in_flight m) m)) ∧
    _active_tokens w1 = delete (identifier token) (_active_tokens w).
Proof.
  intros Hact Heq Hd Ho Hm. unfold Watcher.finish. rewrite M_bind_run. unfold get. rewrite Hact, Heq. cbn [negb].
  rewrite Hd, Ho. rewrite M_bind_run. unfold lift at 1. rewrite M_bind_run. unfold lift at 1.
  rewrite M_bind_run. unfold modify at 1. rewrite M_bind_run, get_or_create_active.
  unfold Watcher._get_or_create_metric. rewrite Hm. eexists. split_and!; [done| |done].
  simpl. by rewrite od_get_set_eq.
Qed.

(** With the watcher as its observer, a scope whose clock does not run backwards counts its
    body once, as a success when it returned and a failure when it raised, and leaves the
    observations under way as they were. *)
Theorem scope_counts_its_body {V A} (body : M V A) name clock clock' v w :
  well_formed w → Watcher._validate_target (JStr name) = Ok name → has_room name w →
  isfinite clock = true → Watcher._validate_duration (fsub clock' clock) = Ok () →
  let '((v', w'), r) := observation_scope (Some (watcher_observer clock clock')) name None (on_view body) (v, w) in
  (v', r) = body v ∧ _active_tokens w' = _active_tokens w ∧
  let m := metric_of name w in let m' := metric_of name w' in
  count m' = (count m + 1)%Z ∧ in_flight m' = in_flight m ∧ cancellations m' = cancellations m ∧
  successes m' = (successes m + if is_ok r then 1 else 0)%Z ∧
  failures m' = (failures m + if is_ok r then 0 else 1)%Z.
Proof.
  intros Hw Hname Hroom Hclock Hd.
  destruct (begin_tracked name clock w Hw Hname Hclock Hroom) as (w1 & Hbegin & Hm1 & Hact1).
  set (token := ObservationToken.mk _ _ _ _ _) in *. destruct (body v) as [v' r] eqn:Hbody.
  set (verdict := if is_ok r then "success" else "failure").
  destruct (finish_tracked w1 token verdict clock' (entered (metric_of name w))) as (w2 & Hfin & Hm2 & Hact2); try done.
  - by rewrite Hact1, lookup_insert_eq.
  - unfold ObservationToken.eqb. rewrite !bool_decide_eq_true_2 by done. simpl. assert (feqb clock clock = true) as -> by float_order. done.
  - by destruct r.
  - assert (Hrun : observation_scope (Some (watcher_observer clock clock')) name None (on_view body) (v, w)
              = ((v', w2), r)).
    { unfold observation_scope. rewrite M_bind_run. unfold attempt at 1. rewrite M_bind_run. simpl.
      unfold on_watcher at 1. simpl. rewrite Hbegin. simpl. rewrite M_bind_run. unfold outcome, on_view. simpl.
      rewrite Hbody, M_bind_run. destruct r; simpl; rewrite M_bind_run; unfold attempt, on_watcher; simpl;
        unfold verdict in Hfin; simpl in Hfin; by rewrite Hfin. }
    rewrite Hrun. split_and!; [done| |].
    + rewrite Hact2, Hact1. apply delete_insert_id.
      destruct (_active_tokens w !! _) as [tk|] eqn:E; [|done]. apply (wf_tokens w Hw) in E. simpl in E. lia.
    + assert (Em : metric_of name w2 = Watcher._record_locked (_sample_limit w1) (fsub clock' clock) verdict None
        (Metric.set_flight (in_flight (entered (metric_of name w)) - 1)
           (peak_in_flight (entered (metric_of name w))) (entered (metric_of name w))))
        by (unfold metric_of; simpl in Hm2; by rewrite Hm2).
      rewrite Em. unfold verdict. destruct r; simpl; split_and!; lia.
Qed.

(** ** Concrete runs *)

Definition sample_watcher : Watcher.t :=
  Watcher.mk 2 1 2 (flit 5) [] ∅ 0 7.
Definition sample_token : ObservationToken.t := ObservationToken.mk "op" (flit 10) 1 7 true.
(** A second target finds no room; a failed finish is repeated with a good outcome. *)
Definition sample_calls : list call :=
  [Begin (JStr "op") (flit 10); Begin (JStr "other") (flit 11); Event (JStr "op") "stale";
   Finish sample_token "unknown" None None (flit 12); Finish sample_token "failure" None (Some "gone") (flit 12);
   Recorded (JStr "op") (flit 3) "success" None; Recorded (JStr "op") (flit 4) "success" None;
   Begin JNull (flit 12); Reset S754_nan].

Definition summary (m : Metric.t) : Z * Z * Z * Z * Z * list float * option string :=
  (count m, successes m, failures m, in_flight m, Metric.stale m, samples m, last_error m).

Lemma sample_watcher_init :
  Watcher.__init__ (JInt 2) (JInt 1) (JInt 2) (flit 5) 7 = Ok sample_watcher.
Proof. reflexivity. Qed.

Lemma sample_calls_counted :
  (λ kv, (kv.1, summary kv.2)) <$> _metrics (perform_all sample_calls sample_watcher) =
  [("op", (3, 2, 1, 0, 1, [flit 3; flit 4], Some "gone")%Z)].
Proof. vm_compute. reflexivity. Qed.

Lemma observations_are_accounted_witness :
  Watcher.__init__ (JInt 2) (JInt 1) (JInt 2) (flit 5) 7 = Ok sample_watcher ∧
  well_formed (perform_all sample_calls sample_watcher).
Proof.
  split; [reflexivity|].
  apply (observations_are_accounted (JInt 2) (JInt 1) (JInt 2) (flit 5) 7). reflexivity.
Defined.

Lemma on_watcher_view {V A} (m : M Watcher.t A) :
  Keeps (λ s s' : V * Watcher.t, s'.1 = s.1) (on_watcher m).
Proof. intros [v w]. unfold on_watcher. simpl. by destruct (m w). Qed.

(** A body that counts and raises, observed by a watcher whose clock then runs backwards. *)
Definition sample_body : M (Z * Watcher.t) () :=
  on_view (modify (Z.add 1);; throw RuntimeError "no answer").

Lemma scope_is_transparent_witness :
  let run := observation_scope (Some (watcher_observer (flit 10) (flit 9))) "op"
               (Some (on_watcher (λ w, (w, raise RuntimeError "broken check")))) sample_body (41%Z, sample_watcher) in
  run.2 = raise RuntimeError "no answer" ∧ run.1.1 = 42%Z.
Proof.
  apply (scope_is_transparent fst (Some (watcher_observer (flit 10) (flit 9))) "op"
    (Some (on_watcher (λ w, (w, raise RuntimeError "broken check")))) sample_body (41%Z, sample_watcher)).
  - intros o [= <-]. split; intros; apply on_watcher_view.
  - intros c [= <-]. apply on_watcher_view.
  - intros [v w] [v' w'] E. simpl in E. rewrite E. split; reflexivity.
Defined.
