(* ===== verification/Transport.v ===== *)
(** * The socket transport ([transport/socket_transport.py], [transport/tls_material.py])

    One framed request and its answer over TCP or TLS.  What the network does is a parameter:
    a conversation is the finite list of what each [recv] meets, a dial says how connecting,
    the handshake and sending go.  The clock and the flag that cancels are numbered oracles. *)

From S2P Require Import Prelude PyFloat Identity PyJson Discovery Wire Bytes.

(** ** The network *)

(** What [recv] meets: some bytes, nothing before the timeout, or an error of the system.
    After the last event the peer has closed the connection. *)
Inductive event :=
  | Data (b : byte) (bs : bytes)
  | Idle
  | Broken (e : exn).

(** How a connection attempt goes. *)
Module Dial.
Record t := mk {
  connect_error : option exn;             (* raised by create_connection *)
  handshake_error : option exn;           (* raised by wrap_socket *)
  certificate : option bytes;             (* getpeercert(binary_form=True) *)
  send_error : option (nat * exn);        (* sendall raises after some bytes *)
  conversation : list event }.
End Dial.

(** The world of one exchange: what is still to arrive, what was handed to the socket, in
    clear or through TLS, the sockets open, and how often the clock and the flag were read. *)
Module Channel.
Record t := mk {
  arriving : list event;
  sent_clear : bytes;
  sent_tls : bytes;
  raw_open : bool;
  tls_open : bool;
  readings : nat;
  polls : nat }.

Definition set_arriving (l : list event) (s : t) : t :=
  mk l (sent_clear s) (sent_tls s) (raw_open s) (tls_open s) (readings s) (polls s).
Definition add_sent (tls : bool) (bs : bytes) (s : t) : t :=
  mk (arriving s) (if tls then sent_clear s else sent_clear s ++ bs)
    (if tls then sent_tls s ++ bs else sent_tls s) (raw_open s) (tls_open s) (readings s) (polls s).
Definition set_raw (b : bool) (s : t) : t :=
  mk (arriving s) (sent_clear s) (sent_tls s) b (tls_open s) (readings s) (polls s).
Definition set_tls (b : bool) (s : t) : t :=
  mk (arriving s) (sent_clear s) (sent_tls s) (raw_open s) b (readings s) (polls s).
Definition tick (s : t) : t :=
  mk (arriving s) (sent_clear s) (sent_tls s) (raw_open s) (tls_open s) (S (readings s)) (polls s).
Definition polled (s : t) : t :=
  mk (arriving s) (sent_clear s) (sent_tls s) (raw_open s) (tls_open s) (readings s) (S (polls s)).
End Channel.
Import Channel(arriving, sent_clear, sent_tls, raw_open, tls_open, readings, polls).

(** The bytes a conversation brings. *)
Fixpoint stream (l : list event) : bytes :=
  match l with
  | [] => []
  | Data b bs :: l => (b :: bs) ++ stream l
  | _ :: l => stream l
  end.

(** ** The checks of arguments; an argument may be of any type *)

Definition _validate_max_bytes (max_bytes : Z) : result () :=
  raise_if (max_bytes <? 0)%Z ValueError "max_bytes must not be negative".

Definition _validate_endpoint (host port timeout : json) : result () :=
  h ← of_option (is_str host) TypeError "host must be text";
  raise_if (bool_decide (strip h = "")) ValueError "host must not be empty";;
  p ← of_option (is_int port) TypeError "port must be an integer";
  raise_if (negb ((1 <=? p) && (p <=? 65535))%Z) ValueError "port must be between 1 and 65535";;
  raise_if (negb (is_number timeout)) TypeError "timeout must be a real number";;
  seconds ← catch OverflowError (to_float timeout) (raise ValueError "timeout must be finite and positive");
  raise_if (negb (isfinite seconds) || fleb seconds (flit 0)) ValueError
    "timeout must be finite and positive".

Definition _validate_fingerprint (expected_fingerprint : json) : result () :=
  match expected_fingerprint with
  | JNull => Ok ()
  | JStr f => raise_if (bool_decide (strip f = "")) ValueError "expected_fingerprint must not be empty"
  | _ => raise TypeError "expected_fingerprint must be text"
  end.

(** ** Frames *)

Section frames.
(** [time.monotonic()] and [cancel_event.is_set()], by the number of the reading. *)
Context (monotonic : nat → float).

Definition now : M Channel.t float := λ s, (Channel.tick s, Ok (monotonic (readings s))).

Definition is_set (cancel_event : option (nat → bool)) : M Channel.t bool := λ s,
  match cancel_event with
  | Some flag => (Channel.polled s, Ok (flag (polls s)))
  | None => (s, Ok false)
  end.

Definition _check_cancelled (cancel_event : option (nat → bool)) : M Channel.t () :=
  stop ← is_set cancel_event;
  throw_if stop RemoteExecutionError "cancelled".

Definition _remaining (deadline : float) : M Channel.t float :=
  t ← now;
  let remaining := fsub deadline t in
  throw_if (fleb remaining (flit 0)) TimeoutError "operation timed out";;
  mret remaining.

Section recv.
Context (closed_message : string) (cancel_event : option (nat → bool)) (deadline : option float).

(** Before each [recv]: what arrives next is [events]. *)
Definition before_recv (events : list event) : M Channel.t () :=
  modify (Channel.set_arriving events);;
  _check_cancelled cancel_event;;
  match deadline with Some deadline => _remaining deadline;; mret () | None => mret () end.

(** The loop of [_recv_exact].  A [recv] takes at most what is asked; what is left of a
    delivery is met by the next one. *)
Fixpoint recv_loop (events : list event) (remaining : nat) (chunks : bytes) : M Channel.t bytes :=
  match remaining with
  | O => modify (Channel.set_arriving events);; mret chunks
  | _ =>
      before_recv events;;
      match events with
      | [] => throw RemoteTransportError closed_message
      | Idle :: rest =>
          match cancel_event with
          | None => modify (Channel.set_arriving rest);; throw TimeoutError "timed out"
          | Some _ => recv_loop rest remaining chunks
          end
      | Broken e :: rest => modify (Channel.set_arriving rest);; throw (exn_cls e) (exn_msg e)
      | Data b bs :: rest =>
          let chunk := firstn remaining (b :: bs) in
          match skipn remaining (b :: bs) with
          | [] => recv_loop rest (remaining - length chunk) (chunks ++ chunk)
          | c :: cs => modify (Channel.set_arriving (Data c cs :: rest));; mret (chunks ++ chunk)
          end
      end
  end.

Definition _recv_exact (length : Z) : M Channel.t bytes :=
  throw_if (length <? 0)%Z ValueError "length must not be negative";;
  s ← get;
  recv_loop (arriving s) (Z.to_nat length) [].

Definition _recv_frame (max_bytes : Z) : M Channel.t bytes :=
  lift (_validate_max_bytes max_bytes);;
  header ← _recv_exact 4;
  length ← lift (unpack_u32 header);
  throw_if (length =? 0)%Z RemoteProtocolError "empty frame is not a valid envelope";;
  throw_if (max_bytes <? length)%Z RemoteTransportError "envelope is too large";;
  _recv_exact length.
End recv.

(** [sock.sendall(data)], on the socket in clear or through TLS. *)
Definition sendall (send_error : option (nat * exn)) (tls : bool) (data : bytes) : M Channel.t () :=
  match send_error with
  | Some (n, e) => modify (Channel.add_sent tls (firstn n data));; throw (exn_cls e) (exn_msg e)
  | None => modify (Channel.add_sent tls data)
  end.

Definition _send_frame (send_error : option (nat * exn)) (tls : bool) (payload : bytes) (max_bytes : Z)
    : M Channel.t () :=
  lift (_validate_max_bytes max_bytes);;
  throw_if (bool_decide (payload = [])) RemoteProtocolError "empty frame is not a valid envelope";;
  throw_if (max_bytes <? Z.of_nat (length payload))%Z RemoteTransportError "envelope is too large";;
  header ← lift (pack_u32 (Z.of_nat (length payload)));
  sendall send_error tls (header ++ payload).
End frames.

(** ** [SocketRemoteTransport] *)

Module SocketRemoteTransport.
(** [_ssl_context] is whether there is one, and whether it verifies certificates. *)
Record t := mk {
  _host : string;
  _port : Z;
  _timeout : float;
  _ssl_context : option bool;
  _expected_fingerprint : option string }.

(** [__init__] *)
Definition __init__ (host port timeout : json) (ssl_context : option bool) (expected_fingerprint : json)
    : result t :=
  _validate_endpoint host port timeout;;
  _validate_fingerprint expected_fingerprint;;
  raise_if (negb (is_null expected_fingerprint) && bool_decide (ssl_context = None)) ValueError
    "certificate fingerprint requires TLS";;
  raise_if (bool_decide (ssl_context = Some false) && is_null expected_fingerprint) ValueError
    "CERT_NONE TLS requires a certificate fingerprint";;
  seconds ← to_float timeout;
  Ok (mk (default "" (is_str host)) (default 0%Z (is_int port)) seconds ssl_context
        (is_str expected_fingerprint)).

(** [TLSRemoteTransport.__init__], over [client_context()], which does not verify. *)
Definition tls (host port : json) (expected_fingerprint timeout : json) : result t :=
  __init__ host port timeout (Some false) expected_fingerprint.
End SocketRemoteTransport.
Import SocketRemoteTransport(_host, _port, _timeout, _ssl_context, _expected_fingerprint).

(** [type(error).__name__] of the system's errors *)
Definition class_name (c : exn_class) : string :=
  match c with
  | ConnectionError => "ConnectionError"
  | PermissionError => "PermissionError"
  | _ => "OSError"
  end.

Section request.
Context (sha256_hex : bytes → string) (monotonic : nat → float).

Definition certificate_fingerprint (certificate : bytes) : string :=
  let digest := sha256_hex certificate in
  String.concat ":" ((λ i, String.substring (4 * i) 4 digest) <$> seq 0 16).

Definition throw_some {S} (e : option exn) : M S () :=
  match e with Some e => throw (exn_cls e) (exn_msg e) | None => mret () end.

(** [try: m finally: close], of a [close] that does not raise *)
Definition finally {S A} (m : M S A) (close : S → S) : M S A := λ s,
  let '(s', r) := m s in (close s', r).

Context (self : SocketRemoteTransport.t) (dial : Dial.t) (cancel_event : option (nat → bool)).
Notation check_cancelled := (_check_cancelled cancel_event).
Notation remaining := (_remaining monotonic).

(** The peer shows a certificate, and the pinned one. *)
Definition check_certificate : M Channel.t () :=
  certificate ← lift (of_option (Dial.certificate dial) RemoteAuthError "peer certificate is missing");
  let fingerprint := certificate_fingerprint certificate in
  match _expected_fingerprint self with
  | Some expected =>
      same ← lift (compare_digest fingerprint expected);
      throw_if (negb same) RemoteAuthError "peer certificate fingerprint changed"
  | None => mret ()
  end.

(** [wrap_socket] and what follows it *)
Definition start_tls (deadline : float) : M Channel.t () :=
  remaining deadline;;
  check_cancelled;;
  throw_some (Dial.handshake_error dial);;
  modify (Channel.set_tls true);;
  check_cancelled;;
  check_certificate.

(** The body of [with create_connection(...) as sock] *)
Definition converse (deadline : float) (data : bytes) : M Channel.t bytes :=
  check_cancelled;;
  remaining deadline;;
  match _ssl_context self with Some _ => start_tls deadline | None => mret () end;;
  check_cancelled;;
  remaining deadline;;
  _send_frame (Dial.send_error dial) (bool_decide (is_Some (_ssl_context self))) data MAX_ENVELOPE_BYTES;;
  check_cancelled;;
  _recv_frame monotonic "connection closed before response" cancel_event (Some deadline) MAX_ENVELOPE_BYTES.

Definition exchange (deadline : float) (data : bytes) : M Channel.t bytes :=
  check_cancelled;;
  remaining deadline;;
  throw_some (Dial.connect_error dial);;
  modify (λ s, Channel.set_raw true (Channel.set_arriving (Dial.conversation dial) s));;
  finally (converse deadline data) (Channel.set_raw false).

(** [if cancel_event is not None and cancel_event.is_set(): raise RemoteExecutionError] *)
Definition unless_cancelled (c : exn_class) (msg : string) : M Channel.t bytes :=
  stop ← is_set cancel_event;
  if (stop : bool) then throw RemoteExecutionError "cancelled" else throw c msg.

(** The [except] clauses *)
Definition translate (e : exn) : M Channel.t bytes :=
  if exn_isa e SSLCertVerificationError then throw RemoteAuthError "peer certificate verification failed"
  else if exn_isa e TimeoutError then unless_cancelled RemoteTransportError "remote transport timed out"
  else if exn_isa e RemoteTransportError then unless_cancelled (exn_cls e) (exn_msg e)
  else if exn_isa e RemoteAuthError then throw (exn_cls e) (exn_msg e)
  else if exn_isa e OSError
  then unless_cancelled RemoteTransportError
         ("remote transport failed: " +:+ class_name (exn_cls e) +:+ ": " +:+ exn_msg e)
  else throw (exn_cls e) (exn_msg e).

Definition request (envelope_text : text) : M Channel.t text :=
  start ← now monotonic;
  let deadline := fadd start (_timeout self) in
  data ← lift (utf8_encode envelope_text);
  throw_if (MAX_ENVELOPE_BYTES <? Z.of_nat (length data))%Z RemoteTransportError
    "request envelope is too large";;
  body ← finally (attempt (exchange deadline data) translate) (Channel.set_tls false);
  lift (catch UnicodeDecodeError (utf8_decode body)
          (raise RemoteProtocolError "response is not valid UTF-8")).
End request.

(** ** Retrying *)

(** What [inspect.signature] says of a transport's [request]. *)
Inductive convention := NoSignature | Positional | Keyword | TextOnly.

Section retry.
Context {W E R : Type}.
(** [cancel_event.is_set()] *)
Context (cancelled : M W bool).
(** A call of the transport; the flag is whether it is given the event. *)
Context (call : E → bool → M W R) (signature : convention).

Definition _invoke_with_optional_cancel (envelope_text : E) : M W R :=
  match signature with
  | NoSignature | TextOnly => call envelope_text false
  | Positional | Keyword => call envelope_text true
  end.

Definition check_cancelled : M W () :=
  stop ← cancelled; throw_if stop RemoteExecutionError "cancelled".

(** The loop of [request_with_retry], with the attempts left. *)
Fixpoint retry_loop (left_ : nat) (envelope_text : E) : M W R :=
  match left_ with
  | O => throw RemoteTransportError "remote transport returned no response"
  | S left' =>
      check_cancelled;;
      attempt (_invoke_with_optional_cancel envelope_text) (λ e,
        if exn_isa e RemoteTransportError && negb (Nat.eqb left' 0)
        then retry_loop left' envelope_text
        else throw (exn_cls e) (exn_msg e))
  end.

Definition request_with_retry (envelope_text : E) (attempts : Z) : M W R :=
  throw_if (attempts <? 1)%Z ValueError "attempts must be positive";;
  retry_loop (Z.to_nat attempts) envelope_text.
End retry.

(** [MemoryRemoteTransport.request]: the service's answer, if it is text. *)
Definition memory_request {W} (cancelled : M W bool) (handle : json → M W json) (envelope_text : json)
    : M W string :=
  check_cancelled cancelled;;
  response ← handle envelope_text;
  lift (of_option (is_str response) RemoteProtocolError "service response must be text").

(** ** A transport to a trusted peer ([build_trusted_transport]) *)

Definition build_trusted_transport {T} (host port transport_fingerprint : json)
    (transport_cls : json → json → json → result T) : result T :=
  raise_if match host with JStr h => bool_decide (strip h = "") | _ => true end
    RemoteAuthError "trusted peer has no complete endpoint";;
  raise_if match port with JInt p => negb ((1 <=? p) && (p <=? 65535))%Z | _ => true end
    RemoteAuthError "trusted peer has an invalid endpoint";;
  raise_if match transport_fingerprint with JStr f => bool_decide (strip f = "") | _ => true end
    RemoteAuthError "trusted peer has no pinned TLS fingerprint";;
  transport_cls host port transport_fingerprint.
