(* ===== verification/TransportSpec.v ===== *)
(** * The socket transport: theorems

    Frames survive every chunking of the network and bound what is read; nothing leaves for a
    peer whose certificate is not the pinned one; every exchange closes its sockets and ends in
    an answer or in an error of the protocol. *)

From S2P Require Import Prelude PyFloat Identity PyJson Discovery Wire Bytes Transport.
Import Channel(arriving, sent_clear, sent_tls, raw_open, tls_open, readings, polls).
Import SocketRemoteTransport(_host, _port, _timeout, _ssl_context, _expected_fingerprint).

(** ** Frames *)

(** What is handed to the socket and the sockets open, which reading does not touch. *)
Definition outside (s : Channel.t) := (sent_clear s, sent_tls s, raw_open s, tls_open s).
Definition same_outside (s s' : Channel.t) : Prop := outside s' = outside s.
#[export] Instance same_outside_refl : Reflexive same_outside. Proof. done. Qed.
#[export] Instance same_outside_trans : Transitive same_outside.
Proof. unfold same_outside. congruence. Qed.

Section frames.
Context (monotonic : nat → float).

(** The part of a method that only moves the clock and the flag, and what arrives. *)
#[export] Instance now_outside : Keeps same_outside (now monotonic).
Proof. by intros s. Qed.
#[export] Instance set_arriving_outside l : Keeps same_outside (modify (Channel.set_arriving l)).
Proof. by intros s. Qed.
#[export] Instance is_set_outside c : Keeps same_outside (is_set c).
Proof. intros s. by destruct c. Qed.
#[export] Instance get_outside : Keeps same_outside get.
Proof. by intros s. Qed.
#[export] Instance check_cancelled_outside c : Keeps same_outside (_check_cancelled c).
Proof. unfold _check_cancelled. keeps. Qed.
#[export] Instance remaining_outside d : Keeps same_outside (_remaining monotonic d).
Proof. unfold _remaining. keeps. Qed.

(** Those leave what arrives alone too. *)
Definition same_arriving (s s' : Channel.t) : Prop := arriving s' = arriving s.
#[export] Instance same_arriving_refl : Reflexive same_arriving. Proof. done. Qed.
#[export] Instance same_arriving_trans : Transitive same_arriving.
Proof. unfold same_arriving. congruence. Qed.
#[export] Instance now_arriving : Keeps same_arriving (now monotonic).
Proof. by intros s. Qed.
#[export] Instance is_set_arriving c : Keeps same_arriving (is_set c).
Proof. intros s. by destruct c. Qed.
#[export] Instance check_cancelled_arriving c : Keeps same_arriving (_check_cancelled c).
Proof. unfold _check_cancelled. keeps. Qed.
#[export] Instance remaining_arriving d : Keeps same_arriving (_remaining monotonic d).
Proof. unfold _remaining. keeps. Qed.

Section recv.
Context (closed_message : string) (cancel_event : option (nat → bool)) (deadline : option float).
Notation before_recv := (before_recv monotonic cancel_event deadline).
Notation recv_loop := (recv_loop monotonic closed_message cancel_event deadline).
Notation recv_exact := (_recv_exact monotonic closed_message cancel_event deadline).
Notation recv_frame := (_recv_frame monotonic closed_message cancel_event deadline).

#[export] Instance before_recv_outside events : Keeps same_outside (before_recv events).
Proof. unfold before_recv. keeps. Qed.
Lemma before_recv_arriving events s : arriving (before_recv events s).1 = events.
Proof.
  unfold before_recv. rewrite M_bind_run. cbn [modify].
  assert (Keeps same_arriving (_check_cancelled cancel_event;;
    match deadline with Some deadline => _remaining monotonic deadline;; mret () | None => mret () end)) as H
    by keeps.
  apply (H (Channel.set_arriving events s)).
Qed.

#[export] Instance recv_loop_outside events n chunks : Keeps same_outside (recv_loop events n chunks).
Proof.
  revert n chunks. induction events as [|[b bs| |e] events IH]; intros [|n] chunks; cbn [recv_loop];
    keeps; apply IH.
Qed.

Lemma before_recv_run {A} events (m : M Channel.t A) s s' r : (before_recv events;; m) s = (s', r) →
  (∃ s1, arriving s1 = events ∧ m s1 = (s', r)) ∨ (arriving s' = events ∧ ∃ e, r = Err e).
Proof.
  rewrite M_bind_run. pose proof (before_recv_arriving events s) as Ha.
  destruct (before_recv events s) as [s1 [u|e]]; intros H; [left|right]; simplify_eq/=; eauto.
Qed.

(** A chunk of what is asked is all of a delivery, or leaves some of it. *)
Lemma chunk_cases (n : nat) (l : bytes) :
  (skipn n l = [] ∧ firstn n l = l ∧ length l ≤ n)
  ∨ (∃ c cs, skipn n l = c :: cs ∧ length (firstn n l) = n ∧ l = firstn n l ++ c :: cs).
Proof.
  destruct (skipn n l) as [|c cs] eqn:E; [left|right].
  - pose proof (length_skipn n l) as Hl. rewrite E in Hl. simpl in Hl.
    split_and!; [done| |lia]. apply firstn_all2. lia.
  - exists c, cs. split_and!; [done| |by rewrite <- E, firstn_skipn].
    pose proof (length_skipn n l) as Hl. rewrite E in Hl. simpl in Hl.
    rewrite firstn_length_le; lia.
Qed.

(** What a read takes is a prefix of what arrives, and just what was asked if it succeeds. *)
Definition takes (events : list event) (n : nat) (s' : Channel.t) (r : result bytes) (chunks : bytes) :=
  ∃ taken, stream events = taken ++ stream (arriving s') ∧ length taken ≤ n
    ∧ ∀ out, r = Ok out → out = chunks ++ taken ∧ length taken = n.

Lemma takes_error events n s' r chunks : stream (arriving s') = stream events → (∃ e, r = Err e) →
  takes events n s' r chunks.
Proof. intros H [e ->]. exists []. rewrite H. split_and!; [done|simpl; lia|done]. Qed.

Lemma recv_loop_takes events n chunks s s' r :
  recv_loop events n chunks s = (s', r) → takes events n s' r chunks.
Proof.
  revert n chunks s. induction events as [|ev events IH]; intros [|n] chunks s H; cbn [recv_loop] in H.
  1, 3: injection H as <- <-; exists []; split_and!; [done|done|]; intros ? [= <-]; by rewrite app_nil_r.
  all: apply before_recv_run in H as [(s1 & Ha & H)|[Ha He]]; [|by apply takes_error; rewrite ?Ha].
  { unfold throw in H. simplify_eq. apply takes_error; [by rewrite Ha|by eexists]. }
  destruct ev as [b bs| |e]; cbn zeta in H.
  - destruct (chunk_cases (S n) (b :: bs)) as [(E & Hf & Hl)|(c & cs & E & Hl & Hb)]; rewrite E in H.
    + rewrite Hf in H. apply IH in H as (taken & Hs & Hn & Hr).
      exists ((b :: bs) ++ taken). cbn [stream]. rewrite Hs, app_assoc, length_app.
      split_and!; [done|lia|]. intros out Ho. destruct (Hr out Ho) as [-> Ht].
      split; [by rewrite <- app_assoc|lia].
    + injection H as <- <-. exists (firstn (S n) (b :: bs)). cbn [stream arriving Channel.set_arriving].
      split_and!; [by rewrite Hb at 1; rewrite <- app_assoc|lia|]. by intros ? [= <-].
  - destruct cancel_event; [exact (IH _ _ _ H)|].
    injection H as <- <-. apply takes_error; [done|by eexists].
  - injection H as <- <-. apply takes_error; [done|by eexists].
Qed.

Lemma recv_exact_takes n s s' r : recv_exact n s = (s', r) → (0 <= n)%Z →
  takes (arriving s) (Z.to_nat n) s' r [].
Proof.
  intros H Hn. unfold _recv_exact in H. rewrite M_bind_run in H. unfold throw_if in H.
  rewrite (proj2 (Z.ltb_ge n 0)) in H by lia. by apply recv_loop_takes in H.
Qed.

(** What a frame takes: header and body, or less. *)
Lemma recv_frame_takes max s s' r : recv_frame max s = (s', r) →
  ∃ taken, stream (arriving s) = taken ++ stream (arriving s')
    ∧ (Z.of_nat (length taken) <= 4 + Z.max 0 max)%Z
    ∧ ∀ body, r = Ok body → ∃ header, taken = header ++ body
      ∧ pack_u32 (Z.of_nat (length body)) = Ok header ∧ (1 <= Z.of_nat (length body) <= max)%Z.
Proof.
  assert (∀ s0 s1 (taken : bytes) e, stream (arriving s0) = taken ++ stream (arriving s1) → length taken ≤ 4 →
    ∃ taken, stream (arriving s0) = taken ++ stream (arriving s1) ∧ (Z.of_nat (length taken) <= 4 + Z.max 0 max)%Z
    ∧ ∀ body, (Err e : result bytes) = Ok body → ∃ header, taken = header ++ body
      ∧ pack_u32 (Z.of_nat (length body)) = Ok header ∧ (1 <= Z.of_nat (length body) <= max)%Z) as Herr.
  { intros s0 s1 taken e H Hl. exists taken. split_and!; [done|lia|done]. }
  unfold _recv_frame. rewrite M_bind_run. unfold lift at 1.
  destruct (_validate_max_bytes max) as [|e]; [|intros [= <- <-]; apply (Herr _ _ []); simpl; (done || lia)].
  rewrite M_bind_run. destruct (recv_exact 4 s) as [s1 [header|e]] eqn:E1;
    apply recv_exact_takes in E1 as (t1 & H1 & L1 & O1); try done; change (Z.to_nat 4) with 4 in *;
    [|intros [= <- <-]; apply (Herr _ _ t1); simpl; (done || lia)].
  destruct (O1 header eq_refl) as [-> H4]. cbn [app]. rewrite M_bind_run. unfold lift.
  destruct (unpack_u32 t1) as [n|e] eqn:En; [|intros [= <- <-]; apply (Herr _ _ t1); simpl; (done || lia)].
  rewrite M_bind_run. unfold throw_if. destruct (n =? 0)%Z eqn:E0; [intros [= <- <-]; apply (Herr _ _ t1); simpl; (done || lia)|].
  cbn [raise_if]. rewrite M_bind_run.
  destruct (max <? n)%Z eqn:Em; [intros [= <- <-]; apply (Herr _ _ t1); simpl; (done || lia)|]. cbn [raise_if].
  apply Z.eqb_neq in E0. apply Z.ltb_ge in Em. pose proof (unpack_u32_range _ _ En).
  intros E2. apply recv_exact_takes in E2 as (t2 & H2 & L2 & O2); [|lia].
  exists (t1 ++ t2). rewrite H1, H2, app_assoc, length_app. split_and!; [done|lia|].
  intros body ->. destruct (O2 body eq_refl) as [-> Hl]. cbn [app] in *. exists t1.
  apply pack_unpack_u32 in En. replace (Z.of_nat (length t2)) with n by lia. split_and!; try done; lia.
Qed.

(** ** Quiet conversations: nothing breaks, and waiting is allowed when there is an event to poll *)

Definition quiet (ev : event) : Prop :=
  match ev with Data _ _ => True | Idle => is_Some cancel_event | Broken _ => False end.

Definition calm : Prop :=
  (∀ flag, cancel_event = Some flag → ∀ n, flag n = false)
  ∧ ∀ d, deadline = Some d → ∀ n, fleb (fsub d (monotonic n)) (flit 0) = false.

Lemma check_cancelled_calm s : (∀ flag, cancel_event = Some flag → ∀ n, flag n = false) →
  ∃ s1, _check_cancelled cancel_event s = (s1, Ok ()).
Proof.
  intros H. unfold _check_cancelled, is_set. rewrite M_bind_run.
  destruct cancel_event as [flag|]; [rewrite (H flag eq_refl)|]; by eexists.
Qed.

Lemma before_recv_calm events s : calm →
  ∃ s1, before_recv events s = (s1, Ok ()).
Proof.
  intros [Hc Hd]. unfold Transport.before_recv. rewrite M_bind_run. cbn [modify].
  rewrite M_bind_run. destruct (check_cancelled_calm (Channel.set_arriving events s) Hc) as [s1 ->].
  destruct deadline as [d|]; [|by eexists].
  rewrite M_bind_run. unfold _remaining. rewrite M_bind_run. cbn [now].
  rewrite M_bind_run. unfold throw_if. rewrite (Hd d eq_refl). by eexists.
Qed.

Lemma recv_loop_calm events n chunks s : calm → Forall quiet events → n ≤ length (stream events) →
  ∃ s', recv_loop events n chunks s = (s', Ok (chunks ++ firstn n (stream events)))
    ∧ stream (arriving s') = skipn n (stream events) ∧ Forall quiet (arriving s').
Proof.
  intros Hc Hq. revert n chunks s. induction Hq as [|ev events Hev Hq IH]; intros [|n] chunks s Hn;
    cbn [Transport.recv_loop].
  1, 3: eexists; rewrite M_bind_run; cbn [modify firstn skipn]; rewrite app_nil_r; split_and!;
    [reflexivity|done|by repeat constructor].
  { simpl in Hn. lia. }
  rewrite M_bind_run. destruct (before_recv_calm (ev :: events) s Hc) as [s1 ->].
  destruct ev as [b bs| |]; [|destruct Hev as [flag Ef]; pose proof (IH (S n) chunks s1 Hn) as Hi; rewrite Ef in Hi |- *; exact Hi|done].
  cbn zeta. destruct (chunk_cases (S n) (b :: bs)) as [(E & Hf & Hl)|(c & cs & E & Hl & Hb)]; rewrite E.
  - rewrite Hf. cbn [stream] in *. rewrite length_app in Hn.
    edestruct (IH (S n - length (b :: bs)) (chunks ++ b :: bs) s1) as (s' & -> & Ha & Hq'); [lia|].
    exists s'. rewrite firstn_app, skipn_app, Hf, E, <- app_assoc. by split_and!.
  - exists (Channel.set_arriving (Data c cs :: events) s1). rewrite M_bind_run. cbn [modify stream].
    assert (S n ≤ length (b :: bs)) by (rewrite <- Hl at 1; rewrite length_firstn; lia).
    rewrite take_app_le, drop_app_le by done. cbn [arriving Channel.set_arriving stream].
    rewrite E. split_and!; [done|done|by constructor].
Qed.

Lemma recv_exact_calm n s : calm → Forall quiet (arriving s) → (0 <= n)%Z →
  Z.to_nat n ≤ length (stream (arriving s)) →
  ∃ s', recv_exact n s = (s', Ok (firstn (Z.to_nat n) (stream (arriving s))))
    ∧ stream (arriving s') = skipn (Z.to_nat n) (stream (arriving s)) ∧ Forall quiet (arriving s').
Proof.
  intros Hc Hq Hn Hl. unfold _recv_exact. rewrite M_bind_run. unfold throw_if.
  rewrite (proj2 (Z.ltb_ge n 0)) by lia. exact (recv_loop_calm _ _ [] s Hc Hq Hl).
Qed.

(** A frame that arrives whole is read, in whatever pieces it comes. *)
Lemma recv_frame_calm max header payload rest s : calm → Forall quiet (arriving s) →
  pack_u32 (Z.of_nat (length payload)) = Ok header → payload ≠ [] →
  (Z.of_nat (length payload) <= max)%Z → stream (arriving s) = (header ++ payload) ++ rest →
  ∃ s', recv_frame max s = (s', Ok payload) ∧ stream (arriving s') = rest.
Proof.
  intros Hc Hq Hh Hp Hm Hs. pose proof (pack_u32_length _ _ Hh) as H4. rewrite <- app_assoc in Hs.
  unfold _recv_frame, _validate_max_bytes. rewrite M_bind_run. unfold lift at 1, raise_if.
  rewrite (proj2 (Z.ltb_ge max 0)) by lia. rewrite M_bind_run.
  destruct (recv_exact_calm 4 s Hc Hq) as (s1 & -> & H1 & Hq1);
    [lia|rewrite Hs, length_app, H4; simpl; lia|]. change (Z.to_nat 4) with 4 in *.
  rewrite Hs, <- H4, ?take_app_length, ?drop_app_length in *.
  rewrite M_bind_run. unfold lift. rewrite (unpack_pack_u32 _ _ Hh), M_bind_run. unfold throw_if.
  rewrite (proj2 (Z.eqb_neq _ 0)) by (by destruct payload).
  rewrite M_bind_run. rewrite (proj2 (Z.ltb_ge max _)) by lia. unfold raise_if.
  destruct (recv_exact_calm (Z.of_nat (length payload)) s1 Hc Hq1) as (s2 & -> & H2 & _);
    [lia|rewrite H1, length_app, Nat2Z.id; lia|].
  exists s2. by rewrite H2, H1, Nat2Z.id, take_app_length, drop_app_length.
Qed.
End recv.
End frames.

(** ** One exchange *)

(** The invariant of reading: no event of the conversation left raises anything but an error
    of the system. *)
Definition system_error (e : exn) : Prop := exn_isa e OSError = true.
Definition orderly (ev : event) : Prop := match ev with Broken e => system_error e | _ => True end.
Definition reading (s : Channel.t) : Prop := Forall orderly (arriving s).

(** The network raises errors of the system, as documented for sockets and [ssl]. *)
Definition system_dial (dial : Dial.t) : Prop :=
  (∀ e, Dial.connect_error dial = Some e → system_error e)
  ∧ (∀ e, Dial.handshake_error dial = Some e → system_error e)
  ∧ (∀ n e, Dial.send_error dial = Some (n, e) → system_error e)
  ∧ Forall orderly (Dial.conversation dial).

(** Errors of the protocol. *)
Definition remote_error (e : exn) : Prop :=
  exn_cls e ∈ [RemoteTransportError; RemoteAuthError; RemoteExecutionError; RemoteProtocolError].

Section settle.
Context (sha256_hex : bytes → string) (monotonic : nat → float).
Context (self : SocketRemoteTransport.t) (dial : Dial.t) (cancel_event : option (nat → bool)).
Hypothesis Hdial : system_dial dial.

(** Comparing digests of text that is not ASCII. *)
Definition not_comparable (e : exn) : Prop := ∃ certificate expected,
  _expected_fingerprint self = Some expected
  ∧ compare_digest (certificate_fingerprint sha256_hex certificate) expected = Err e.

Definition expected_error (e : exn) : Prop := system_error e ∨ remote_error e ∨ not_comparable e.

Notation R m := (Raises reading expected_error m).

Lemma expected_remote c msg : c ∈ [RemoteTransportError; RemoteAuthError; RemoteExecutionError; RemoteProtocolError] →
  expected_error (Exn c msg).
Proof. by right; left. Qed.
Lemma expected_system c msg : exn_isa (Exn c msg) OSError = true → expected_error (Exn c msg).
Proof. by left. Qed.
Ltac expected := first [apply expected_system; reflexivity | apply expected_remote; set_solver].

#[local] Instance now_raises : R (now monotonic).
Proof. by intros s Hs. Qed.
#[local] Instance get_raises : R (get : M Channel.t _).
Proof. by intros s Hs. Qed.
#[local] Instance is_set_raises : R (is_set cancel_event).
Proof. intros s Hs. by destruct cancel_event. Qed.
#[local] Instance cancelled_raises : R (_check_cancelled cancel_event).
Proof. unfold _check_cancelled. raises. apply raises_throw_if. expected. Qed.
#[local] Instance remaining_raises d : R (_remaining monotonic d).
Proof. unfold _remaining. raises. apply raises_throw_if. expected. Qed.
#[local] Instance set_tls_raises b : R (modify (Channel.set_tls b)).
Proof. by apply raises_modify. Qed.
#[local] Instance add_sent_raises b d : R (modify (Channel.add_sent b d)).
Proof. by apply raises_modify. Qed.
Lemma throw_some_raises e : (∀ x, e = Some x → system_error x) → R (throw_some e).
Proof.
  intros H. destruct e as [[c msg]|]; simpl; [|apply _]. apply raises_throw. left. by apply H.
Qed.

Section recv.
Context (deadline : option float).
Notation closed := "connection closed before response".

Lemma set_arriving_raises l : Forall orderly l → R (modify (Channel.set_arriving l)).
Proof. intros H. by apply raises_modify. Qed.

Lemma before_recv_raises l : Forall orderly l → R (before_recv monotonic cancel_event deadline l).
Proof.
  intros H. unfold before_recv. apply raises_bind; [by apply set_arriving_raises|intros]. raises.
Qed.

Lemma recv_loop_raises events n chunks : Forall orderly events →
  R (recv_loop monotonic closed cancel_event deadline events n chunks).
Proof.
  intros He. revert n chunks. induction He as [|ev events Hev He IH]; intros [|n] chunks;
    cbn [recv_loop]; (apply raises_bind; [first [apply set_arriving_raises | apply before_recv_raises];
      by constructor|intros]); [apply _|apply raises_throw; expected|apply _|].
  destruct ev as [b bs| |e].
  - cbn zeta. case_match; [apply IH|]. apply raises_bind; [|apply _].
    apply set_arriving_raises. by constructor.
  - case_match; [apply IH|]. apply raises_bind; [by apply set_arriving_raises|intros].
    apply raises_throw. expected.
  - apply raises_bind; [by apply set_arriving_raises|intros]. apply raises_throw. left. by destruct e.
Qed.

#[local] Instance recv_exact_raises n : (0 <= n)%Z → R (_recv_exact monotonic closed cancel_event deadline n).
Proof.
  intros Hn s Hs. unfold _recv_exact. rewrite M_bind_run. unfold throw_if.
  rewrite (proj2 (Z.ltb_ge n 0)) by lia. by apply recv_loop_raises.
Qed.

#[local] Instance recv_frame_raises max : (0 <= max)%Z →
  R (_recv_frame monotonic closed cancel_event deadline max).
Proof.
  intros Hm. unfold _recv_frame. apply raises_bind; [|intros].
  { apply raises_lift. intros e. unfold _validate_max_bytes, raise_if.
    by rewrite (proj2 (Z.ltb_ge max 0)) by lia. }
  apply raises_bind_ok; [by apply recv_exact_raises|intros header s s' Hr].
  apply recv_exact_takes in Hr as (taken & _ & _ & Ho); [|done].
  destruct (Ho header eq_refl) as [-> Hl]. cbn [app]. change (Z.to_nat 4) with 4 in Hl.
  apply raises_bind_ok; [|intros n s1 s1' Hn].
  { apply raises_lift. intros e. by destruct taken as [|? [|? [|? [|? [|]]]]]. }
  apply lift_Ok in Hn as [_ Hn%unpack_u32_range].
  do 2 (apply raises_bind; [apply raises_throw_if; expected|intros]).
  apply recv_exact_raises. lia.
Qed.
End recv.

#[local] Instance send_frame_raises tls data :
  R (_send_frame (Dial.send_error dial) tls data MAX_ENVELOPE_BYTES).
Proof.
  unfold _send_frame. apply raises_bind; [by apply raises_lift|intros].
  apply raises_bind; [apply raises_throw_if; expected|intros].
  apply raises_bind_ok; [apply raises_throw_if; expected|intros u s s' Hs].
  apply throw_if_Ok in Hs as [_ Hs%Z.ltb_ge].
  destruct (pack_u32_small (Z.of_nat (length data))) as [header Hh].
  { change MAX_ENVELOPE_BYTES with 8388608%Z in Hs. lia. }
  rewrite Hh. apply raises_bind; [by apply raises_lift|intros]. unfold sendall.
  destruct (Dial.send_error dial) as [[n e]|] eqn:Ee; [|apply _].
  apply raises_bind; [apply _|intros]. apply raises_throw. left. destruct e.
  destruct Hdial as (_ & _ & H & _). by eapply H.
Qed.

#[local] Instance check_certificate_raises : R (check_certificate sha256_hex self dial).
Proof.
  unfold check_certificate. apply raises_bind.
  { apply raises_lift. intros e He. destruct (Dial.certificate dial); [done|].
    injection He as <-. expected. }
  intros cert. destruct (_expected_fingerprint self) as [f|] eqn:Ef; [|apply _].
  apply raises_bind; [|intros same; apply raises_throw_if; expected].
  apply raises_lift. intros e He. right; right. by exists cert, f.
Qed.

#[local] Instance start_tls_raises d : R (start_tls sha256_hex monotonic self dial cancel_event d).
Proof.
  unfold start_tls. do 2 (apply raises_bind; [apply _|intros]).
  apply raises_bind; [apply throw_some_raises; apply Hdial|intros]. apply _.
Qed.

#[local] Instance converse_raises d data : R (converse sha256_hex monotonic self dial cancel_event d data).
Proof.
  unfold converse. do 7 (apply raises_bind; [first [apply _ | case_match; apply _]|intros]).
  by apply recv_frame_raises.
Qed.

Lemma finally_raises {A} E (m : M Channel.t A) close : Raises reading E m →
  (∀ s, reading s → reading (close s)) → Raises reading E (finally m close).
Proof.
  intros Hm Hc s Hs. unfold finally. destruct (Hm s Hs) as [H1 H2]. destruct (m s). simpl in *. auto.
Qed.

#[local] Instance exchange_raises d data : R (exchange sha256_hex monotonic self dial cancel_event d data).
Proof.
  unfold exchange. apply raises_bind; [apply _|intros]. apply raises_bind; [apply _|intros].
  apply raises_bind; [apply throw_some_raises, Hdial|intros].
  apply raises_bind; [apply raises_modify; intros; apply Hdial|intros].
  apply finally_raises; [apply _|done].
Qed.

(** What is left after the [except] clauses. *)
Definition settled_error (e : exn) : Prop := remote_error e ∨ not_comparable e.
Notation Q m := (Raises reading settled_error m).

Lemma unless_cancelled_raises c msg : remote_error (Exn c msg) → Q (unless_cancelled cancel_event c msg).
Proof.
  intros H. unfold unless_cancelled. apply raises_bind; [intros s Hs; by destruct cancel_event|].
  intros stop. destruct stop; apply raises_throw; left; [unfold remote_error; set_solver|done].
Qed.

Lemma exn_eta e : Exn (exn_cls e) (exn_msg e) = e.
Proof. by destruct e. Qed.

Lemma compare_digest_error a b e : compare_digest a b = Err e → exn_cls e = TypeError.
Proof. unfold compare_digest. case_match; [done|]. by intros [= <-]. Qed.

Lemma translate_raises e : expected_error e → Q (translate cancel_event e).
Proof.
  intros He. unfold translate.
  destruct (exn_isa e SSLCertVerificationError) eqn:E1.
  { apply raises_throw. left. unfold remote_error. set_solver. }
  destruct (exn_isa e TimeoutError) eqn:E2.
  { apply unless_cancelled_raises. unfold remote_error. set_solver. }
  destruct (exn_isa e RemoteTransportError) eqn:E3.
  { apply unless_cancelled_raises. rewrite exn_eta. destruct He as [He|[He|(c & f & _ & He)]].
    - destruct e as [[] msg]; done.
    - done.
    - apply compare_digest_error in He. destruct e as [c' msg]. simpl in He. by subst. }
  destruct (exn_isa e RemoteAuthError) eqn:E4.
  { apply raises_throw. rewrite exn_eta. destruct He as [He|[He|He]]; [|by left|by right].
    destruct e as [[] msg]; done. }
  destruct (exn_isa e OSError) eqn:E5.
  { apply unless_cancelled_raises. unfold remote_error. set_solver. }
  apply raises_throw. rewrite exn_eta. destruct He as [He|[He|He]]; [|by left|by right].
  unfold system_error in He. congruence.
Qed.

End settle.

Section request.
Context (sha256_hex : bytes → string) (monotonic : nat → float).
Context (self : SocketRemoteTransport.t) (dial : Dial.t) (cancel_event : option (nat → bool)).
Notation exchange := (exchange sha256_hex monotonic self dial cancel_event).
Notation request := (request sha256_hex monotonic self dial cancel_event).

(** *** The sockets *)

Definition sockets_closed (s : Channel.t) : Prop := raw_open s = false ∧ tls_open s = false.
Definition raw_closed (s s' : Channel.t) : Prop := raw_open s = false → raw_open s' = false.
#[local] Instance raw_closed_refl : Reflexive raw_closed. Proof. intros s Hs. exact Hs. Qed.
#[local] Instance raw_closed_trans : Transitive raw_closed.
Proof. unfold raw_closed. auto. Qed.

Lemma outside_raw {A} (m : M Channel.t A) : Keeps same_outside m → Keeps raw_closed m.
Proof.
  apply keeps_weaken. unfold same_outside, outside, raw_closed. intros s s' H Hr.
  by injection H as _ _ -> _.
Qed.

Lemma exchange_closes d data : Keeps raw_closed (exchange d data).
Proof.
  unfold Transport.exchange. apply (keeps_bind _); [apply outside_raw, _|intros _].
  apply (keeps_bind _); [apply outside_raw, _|intros _].
  apply (keeps_bind _); [destruct (Dial.connect_error dial); by intros s|intros _].
  intros s _. rewrite M_bind_run. cbn [modify]. unfold finally.
  by destruct (converse _ _ _ _ _ _ _ _).
Qed.

Lemma translate_closes e : Keeps raw_closed (translate cancel_event e).
Proof.
  apply outside_raw. unfold translate, unless_cancelled. repeat case_match; keeps.
Qed.

Lemma request_closes text s : sockets_closed s → sockets_closed (request text s).1.
Proof.
  intros [Hr Ht]. unfold Transport.request. rewrite M_bind_run. cbn [now].
  rewrite M_bind_run. unfold lift at 1. destruct (utf8_encode text) as [data|]; [|done].
  rewrite M_bind_run. unfold throw_if. destruct (raise_if _ _ _); [|done].
  rewrite M_bind_run. unfold finally.
  match goal with |- context [attempt ?m ?h ?s0] =>
    assert (Keeps raw_closed (attempt m h)) as Hk
      by (apply (keeps_attempt _); [apply exchange_closes|apply translate_closes]);
    specialize (Hk s0 Hr); destruct (attempt m h s0) as [s1 [body|e]] end; by split.
Qed.

(** *** What is sent *)

(** The certificate shown is the pinned one, when one is pinned. *)
Definition pinned : Prop := ∃ certificate, Dial.certificate dial = Some certificate
  ∧ ∀ f, _expected_fingerprint self = Some f → certificate_fingerprint sha256_hex certificate = f.

(** Clear text only without TLS, and through TLS only to a pinned peer. *)
Definition guarded (s s' : Channel.t) : Prop :=
  (sent_clear s' = sent_clear s ∨ _ssl_context self = None) ∧ (sent_tls s' = sent_tls s ∨ pinned).
#[local] Instance guarded_refl : Reflexive guarded. Proof. by split; left. Qed.
#[local] Instance guarded_trans : Transitive guarded.
Proof. unfold guarded. intros s1 s2 s3 [[H1|?] [H2|?]] [[H3|?] [H4|?]]; split; rewrite ?H3, ?H4; auto. Qed.

Lemma outside_guarded {A} (m : M Channel.t A) : Keeps same_outside m → Keeps guarded m.
Proof.
  apply keeps_weaken. unfold same_outside, outside. intros s s' H.
  injection H as H1 H2 _ _. by split; left.
Qed.

Lemma check_certificate_pinned s s' u :
  check_certificate sha256_hex self dial s = (s', Ok u) → pinned.
Proof.
  unfold check_certificate. intros H. m_step. rename res into certificate.
  m_step. apply of_option_Ok in Hm. exists certificate. split; [done|].
  destruct (_expected_fingerprint self) as [f|]; [|done]. intros ? [= <-].
  m_step. m_step. m_step. apply negb_false_iff in H. subst.
  unfold compare_digest in Hm0. case_match; [|done]. injection Hm0 as Hm0. by apply bool_decide_eq_true in Hm0.
Qed.

Lemma start_tls_pinned d s s' u :
  start_tls sha256_hex monotonic self dial cancel_event d s = (s', Ok u) → pinned.
Proof.
  unfold start_tls. intros H. do 5 m_step. by eapply check_certificate_pinned.
Qed.

Lemma start_tls_outside d s :
  let s' := (start_tls sha256_hex monotonic self dial cancel_event d s).1 in
  sent_clear s' = sent_clear s ∧ sent_tls s' = sent_tls s.
Proof.
  assert (Keeps (λ s s' : Channel.t, sent_clear s' = sent_clear s ∧ sent_tls s' = sent_tls s)
    (start_tls sha256_hex monotonic self dial cancel_event d)) as H; [|apply H].
  assert (Transitive (λ s s' : Channel.t, sent_clear s' = sent_clear s ∧ sent_tls s' = sent_tls s))
    by (intros ? ? ? [? ?] [? ?]; split; congruence).
  assert (∀ A (m : M Channel.t A), Keeps same_outside m →
    Keeps (λ s s' : Channel.t, sent_clear s' = sent_clear s ∧ sent_tls s' = sent_tls s) m) as Hw.
  { intros A m. apply keeps_weaken. unfold same_outside, outside. intros s1 s2 E. by injection E as -> -> _ _. }
  unfold start_tls. do 2 (apply (keeps_bind _); [apply Hw, _|intros]).
  apply (keeps_bind _); [destruct (Dial.handshake_error dial); by intros ?|intros].
  apply (keeps_bind _); [by intros ?|intros]. apply Hw. unfold check_certificate. keeps.
Qed.

Lemma send_frame_guarded e tls data max : (tls = true → pinned) → (tls = false → _ssl_context self = None) →
  Keeps guarded (_send_frame e tls data max).
Proof.
  intros Ht Hf. assert (∀ bs, Keeps guarded (modify (Channel.add_sent tls bs))) as Ha.
  { intros bs s. split; destruct tls; simpl; auto. }
  unfold _send_frame, sendall. keeps.
Qed.

Lemma converse_guarded d data : Keeps guarded (converse sha256_hex monotonic self dial cancel_event d data).
Proof.
  unfold converse. do 2 (apply (keeps_bind _); [apply outside_guarded, _|intros]).
  apply keeps_bind_ok; [apply _| |intros u s s' Hs].
  { destruct (_ssl_context self); [|apply _]. intros s. destruct (start_tls_outside d s) as [H1 H2].
    by split; left. }
  do 2 (apply (keeps_bind _); [apply outside_guarded, _|intros]).
  apply (keeps_bind _).
  { apply send_frame_guarded; intros Hd.
    - apply bool_decide_eq_true in Hd as [v Hv]. rewrite Hv in Hs. by eapply start_tls_pinned.
    - apply bool_decide_eq_false in Hd. by apply eq_None_not_Some. }
  intros. apply (keeps_bind _); [apply outside_guarded, _|intros]. apply outside_guarded.
  unfold _recv_frame, _recv_exact. keeps.
Qed.

Lemma request_guarded text : Keeps guarded (request text).
Proof.
  unfold Transport.request. apply (keeps_bind _); [apply outside_guarded, _|intros start].
  apply (keeps_bind _); [apply _|intros data]. apply (keeps_bind _); [apply _|intros].
  apply (keeps_bind _); [|apply _].
  assert (Keeps guarded (attempt (exchange (fadd start (_timeout self)) data) (translate cancel_event))) as Hk.
  { apply (keeps_attempt _).
    - unfold Transport.exchange. do 2 (apply (keeps_bind _); [apply outside_guarded, _|intros]).
      apply (keeps_bind _); [destruct (Dial.connect_error dial); by intros s; split; left|intros].
      apply (keeps_bind _); [by intros s; split; left|intros].
      intros s. unfold finally. pose proof (converse_guarded (fadd start (_timeout self)) data s) as Hc.
      by destruct (converse _ _ _ _ _ _ _ _).
    - intros e. apply outside_guarded. unfold translate, unless_cancelled. repeat case_match; keeps. }
  intros s. unfold finally. specialize (Hk s). by destruct (attempt _ _ _).
Qed.

Lemma translate_raises_always e s s' b : translate cancel_event e s = (s', Ok b) → False.
Proof.
  unfold translate, unless_cancelled, is_set. intros H.
  repeat (case_match; try done); m_step; repeat (case_match; try done).
Qed.

(** An answer came through what [guarded] allows to be used. *)
Lemma answer_is_pinned text s s' answer : request text s = (s', Ok answer) →
  is_Some (_ssl_context self) → pinned.
Proof.
  unfold Transport.request. intros H [v Hv]. do 4 m_step. clear H.
  unfold finally in Hm2. destruct (attempt _ _ _) as [s1 r] eqn:E. injection Hm2 as _ ->.
  unfold attempt in E. destruct (exchange _ _ _) as [s2 [b|e]] eqn:Ex;
    [|by apply translate_raises_always in E]. clear E.
  unfold Transport.exchange in Ex. do 4 m_step. unfold finally in Ex.
  destruct (converse _ _ _ _ _ _ _ _) as [s3 r] eqn:Ec. injection Ex as _ ->.
  unfold converse in Ec. do 3 m_step. rewrite Hv in *.
  match goal with Ht : start_tls _ _ _ _ _ _ _ = _ |- _ => by apply start_tls_pinned in Ht end.
Qed.

(** *** An exchange where nothing fails *)


(** The flag is never set, and the clock stays before the deadline. *)
Definition in_time (deadline : float) : Prop := calm monotonic cancel_event (Some deadline).

(** The handshake succeeds and shows the pinned certificate. *)
Definition trusted_dial : Prop :=
  Dial.connect_error dial = None ∧ Dial.handshake_error dial = None ∧ Dial.send_error dial = None
  ∧ (_ssl_context self = None ∨ ∃ certificate, Dial.certificate dial = Some certificate
     ∧ ∀ f, _expected_fingerprint self = Some f →
       compare_digest (certificate_fingerprint sha256_hex certificate) f = Ok true).

(** A call that returns [b] in a state of [Q]. *)
Definition returns {B} (b : B) (Q : Channel.t → Prop) (p : Channel.t * result B) : Prop :=
  ∃ s', p = (s', Ok b) ∧ Q s'.

(** Steps that return and only move the clock, the flag and the sockets. *)
Definition like (s s' : Channel.t) : Prop :=
  arriving s' = arriving s ∧ sent_clear s' = sent_clear s ∧ sent_tls s' = sent_tls s.
Definition passes {A} (m : M Channel.t A) : Prop := ∀ s, ∃ s' a, m s = (s', Ok a) ∧ like s s'.

Lemma passes_bind {A B} (m : M Channel.t A) (f : A → M Channel.t B) :
  passes m → (∀ a, passes (f a)) → passes (m ≫= f).
Proof.
  intros Hm Hf s. destruct (Hm s) as (s1 & a & E & H1 & H2 & H3).
  destruct (Hf a s1) as (s2 & b & E' & H4 & H5 & H6). exists s2, b.
  rewrite M_bind_run, E. unfold like. by rewrite H4, H5, H6.
Qed.

Lemma passes_then {A B} (m : M Channel.t A) (f : A → M Channel.t B) s b Q : passes m →
  (∀ a s1, like s s1 → returns b Q (f a s1)) → returns b Q ((m ≫= f) s).
Proof.
  intros Hm Hf. destruct (Hm s) as (s1 & a & E & Hl). rewrite M_bind_run, E. by apply Hf.
Qed.

Section in_time.
Context (deadline : float) (Htime : in_time deadline).

Lemma remaining_passes : passes (_remaining monotonic deadline).
Proof.
  destruct Htime as [_ H]. intros s. unfold _remaining. rewrite M_bind_run. cbn [now]. rewrite M_bind_run.
  unfold throw_if. rewrite (H deadline eq_refl). by do 2 eexists.
Qed.

Lemma cancelled_passes : passes (_check_cancelled cancel_event).
Proof.
  destruct Htime as [H _]. intros s. unfold _check_cancelled, is_set. rewrite M_bind_run.
  destruct cancel_event as [flag|]; [rewrite (H flag eq_refl)|]; by do 2 eexists.
Qed.

Lemma tls_passes : trusted_dial →
  passes (match _ssl_context self with
          | Some _ => start_tls sha256_hex monotonic self dial cancel_event deadline
          | None => mret ()
          end).
Proof.
  intros (_ & Hh & _ & [->|(c & Hc & Hp)]); [by intros s; do 2 eexists|].
  destruct (_ssl_context self); [|by intros s; do 2 eexists].
  unfold start_tls. apply passes_bind; [apply remaining_passes|intros _].
  apply passes_bind; [apply cancelled_passes|intros _].
  apply passes_bind; [rewrite Hh; by intros s; do 2 eexists|intros _].
  apply passes_bind; [by intros s; do 2 eexists|intros _].
  apply passes_bind; [apply cancelled_passes|intros _].
  unfold check_certificate. rewrite Hc. intros s. rewrite M_bind_run. unfold lift, of_option.
  cbv beta iota zeta. destruct (_expected_fingerprint self) as [f|]; [|by do 2 eexists].
  rewrite M_bind_run. rewrite (Hp f eq_refl). by do 2 eexists.
Qed.
End in_time.

(** What was handed to the socket the exchange uses. *)
Definition sent (s : Channel.t) : bytes :=
  if bool_decide (is_Some (_ssl_context self)) then sent_tls s else sent_clear s.

Lemma send_frame_returns tls data header s : pack_u32 (Z.of_nat (length data)) = Ok header →
  data ≠ [] → (Z.of_nat (length data) <= MAX_ENVELOPE_BYTES)%Z →
  _send_frame None tls data MAX_ENVELOPE_BYTES s = (Channel.add_sent tls (header ++ data) s, Ok ()).
Proof.
  intros Hh Hd Hm. unfold _send_frame. rewrite M_bind_run. unfold lift at 1.
  change (_validate_max_bytes MAX_ENVELOPE_BYTES) with (Ok () : result ()). cbv beta iota.
  rewrite M_bind_run. unfold throw_if. rewrite (bool_decide_eq_false_2 _ Hd). cbn [raise_if].
  rewrite M_bind_run. rewrite (proj2 (Z.ltb_ge MAX_ENVELOPE_BYTES _)) by done. cbn [raise_if].
  rewrite M_bind_run. unfold lift. by rewrite Hh.
Qed.

Lemma converse_returns deadline data header reply reply_header rest s : in_time deadline → trusted_dial →
  Forall (quiet cancel_event) (arriving s) →
  pack_u32 (Z.of_nat (length data)) = Ok header → data ≠ [] → (Z.of_nat (length data) <= MAX_ENVELOPE_BYTES)%Z →
  pack_u32 (Z.of_nat (length reply)) = Ok reply_header → reply ≠ [] →
  (Z.of_nat (length reply) <= MAX_ENVELOPE_BYTES)%Z →
  stream (arriving s) = (reply_header ++ reply) ++ rest →
  returns reply (λ s', sent s' = sent s ++ header ++ data)
    (converse sha256_hex monotonic self dial cancel_event deadline data s).
Proof.
  intros Ht Hd Hq Hh Hne Hm Hrh Hrne Hrm Hs. unfold converse.
  apply passes_then; [by eapply cancelled_passes|intros _ s1 (A1 & B1 & C1)].
  apply passes_then; [by apply remaining_passes|intros _ s2 (A2 & B2 & C2)].
  apply passes_then; [by apply tls_passes|intros _ s3 (A3 & B3 & C3)].
  apply passes_then; [by eapply cancelled_passes|intros _ s4 (A4 & B4 & C4)].
  apply passes_then; [by apply remaining_passes|intros _ s5 (A5 & B5 & C5)].
  rewrite M_bind_run. destruct Hd as (_ & _ & -> & _). rewrite (send_frame_returns _ data header) by done.
  apply passes_then; [by eapply cancelled_passes|intros _ s6 (A6 & B6 & C6)].
  destruct (recv_frame_calm monotonic "connection closed before response" cancel_event (Some deadline)
              MAX_ENVELOPE_BYTES reply_header reply rest s6) as (s7 & E & _); try done.
  { rewrite A6. cbn [arriving Channel.add_sent]. congruence. }
  { rewrite A6. cbn [arriving Channel.add_sent]. congruence. }
  exists s7. split; [done|].
  assert (same_outside s6 s7) as Ho.
  { eapply keeps_run; [|exact E]. unfold _recv_frame, _recv_exact. keeps. }
  unfold same_outside, outside in Ho. injection Ho as O1 O2 _ _. unfold sent. rewrite O1, O2, B6, C6.
  cbn [sent_clear sent_tls Channel.add_sent]. destruct (bool_decide _); congruence.
Qed.
End request.

(** ** The properties *)

Lemma request_raises sha256_hex monotonic self dial cancel_event text s : system_dial dial → reading s →
  ∀ e, (request sha256_hex monotonic self dial cancel_event text s).2 = Err e →
    settled_error sha256_hex self e ∨ utf8_encode text = Err e.
Proof.
  intros Hd Hs e. unfold Transport.request. rewrite M_bind_run. cbn [now].
  rewrite M_bind_run. unfold lift at 1. destruct (utf8_encode text) as [data|e'];
    [|intros [= <-]; by right].
  intros H. left. revert e H. rewrite M_bind_run. unfold throw_if. destruct (raise_if _ _ _) as [|e'] eqn:Er.
  2: { intros e [= <-]. unfold raise_if in Er. left. case_match; [|done]. injection Er as <-.
       unfold remote_error. set_solver. }
  match goal with |- ∀ e, snd (?m ?s0) = _ → _ =>
    assert (Raises reading (settled_error sha256_hex self) m) as Hr; [|by apply (Hr s0)] end.
  apply raises_bind.
  - apply finally_raises; [|done]. eapply raises_attempt; [by apply exchange_raises|].
    intros e He. by eapply translate_raises.
  - intros body. apply raises_lift. intros e He. left. unfold catch in He.
    destruct (utf8_decode body) as [|x] eqn:Eb; [done|]. apply decode_error in Eb. rewrite Eb in He.
    injection He as <-. unfold remote_error. set_solver.
Qed.

(** *** A concrete exchange *)

Definition toy_sha256 (bs : bytes) : string :=
  String.concat "" (replicate 16 (if bool_decide (bs = [Byte.x01]) then "0a1b" else "ffff")).
Definition toy_transport : SocketRemoteTransport.t :=
  SocketRemoteTransport.mk "10.0.0.2" 27321 (flit 10) (Some false)
    (Some (certificate_fingerprint toy_sha256 [Byte.x01])).
Definition toy_reply : list event :=
  [Data Byte.x00 [Byte.x00]; Data Byte.x00 [Byte.x02; Byte.xc3]; Idle; Data Byte.xa9 [Byte.x41]].
Definition toy_dial (certificate : bytes) (conversation : list event) : Dial.t :=
  Dial.mk None None (Some certificate) None conversation.
Definition toy_channel (l : list event) : Channel.t := Channel.mk l [] [] false false 0 0.
Definition toy_request (certificate : bytes) (conversation : list event) (text : text) :=
  request toy_sha256 (λ _, flit 0) toy_transport (toy_dial certificate conversation) (Some (λ _, false)) text
    (toy_channel []).

(** The answer [U+E9] comes in three pieces, after a pause, with a byte too many. *)
Example exchange_in_pieces : (toy_request [Byte.x01] toy_reply [65]%Z).2 = Ok [233]%Z
  ∧ sent_tls (toy_request [Byte.x01] toy_reply [65]%Z).1 = [Byte.x00; Byte.x00; Byte.x00; Byte.x01; Byte.x41].
Proof. split; vm_compute; reflexivity. Qed.
Example exchange_with_another :
  (toy_request [Byte.x02] toy_reply [65]%Z).2 = raise RemoteAuthError "peer certificate fingerprint changed"
  ∧ sent_tls (toy_request [Byte.x02] toy_reply [65]%Z).1 = [].
Proof. split; vm_compute; reflexivity. Qed.
Example exchange_cut_short : (toy_request [Byte.x01] [Data Byte.x00 []] [65]%Z).2
  = raise RemoteTransportError "connection closed before response".
Proof. vm_compute; reflexivity. Qed.

(** A frame bounds what is read.  Whatever arrives, at most the header and [max_bytes] bytes
    are taken from it; and what is returned is not empty, is no longer than that, and is just
    what follows its own length. *)
Theorem frame_is_bounded monotonic closed cancel_event deadline max_bytes s :
  let '(s', r) := _recv_frame monotonic closed cancel_event deadline max_bytes s in
  ∃ taken, stream (arriving s) = taken ++ stream (arriving s')
    ∧ (Z.of_nat (length taken) <= 4 + Z.max 0 max_bytes)%Z
    ∧ ∀ body, r = Ok body → ∃ header, taken = header ++ body
      ∧ pack_u32 (Z.of_nat (length body)) = Ok header
      ∧ (1 <= Z.of_nat (length body) <= max_bytes)%Z.
Proof.
  destruct (_recv_frame _ _ _ _ _ s) as [s' r] eqn:E. by apply recv_frame_takes in E.
Qed.

(** C30. Whatever the network does -- it refuses, hangs up, stalls, answers with anything -- a
    request ends with its sockets closed, in an answer or in an error of the remote protocol.
    Two errors escape that: a text that UTF-8 cannot encode, and a pinned fingerprint that is
    not ASCII. *)
Theorem request_settles sha256_hex monotonic self dial cancel_event text s :
  system_dial dial → sockets_closed s → arriving s = [] →
  let '(s', r) := request sha256_hex monotonic self dial cancel_event text s in
  sockets_closed s' ∧
  match r with
  | Ok _ => True
  | Err e => remote_error e ∨ utf8_encode text = Err e ∨ not_comparable sha256_hex self e
  end.
Proof.
  intros Hd Hs Ha. assert (reading s) as Hr by (unfold reading; rewrite Ha; constructor).
  pose proof (request_closes sha256_hex monotonic self dial cancel_event text s Hs) as Hc.
  pose proof (request_raises sha256_hex monotonic self dial cancel_event text s Hd Hr) as He.
  destruct (request _ _ _ _ _ _ _) as [s' [answer|e]]; simpl in *; split; try done.
  destruct (He e eq_refl) as [[H|H]|H]; auto.
Qed.

(** C13. A transport built for a trusted peer hands nothing to a socket in clear, and hands
    something to TLS, or accepts an answer, only when the certificate of the peer is the one
    that was pinned. *)
Theorem trusted_transport_is_pinned sha256_hex monotonic host port fingerprint timeout self dial cancel_event text s :
  build_trusted_transport host port fingerprint
    (λ h p f, SocketRemoteTransport.tls h p f timeout) = Ok self →
  sent_clear s = [] → sent_tls s = [] →
  let '(s', r) := request sha256_hex monotonic self dial cancel_event text s in
  sent_clear s' = [] ∧
  (sent_tls s' ≠ [] ∨ is_ok r = true →
    ∃ certificate, Dial.certificate dial = Some certificate
      ∧ fingerprint = JStr (certificate_fingerprint sha256_hex certificate)).
Proof.
  intros Hb Hc Ht.
  assert (∃ f, fingerprint = JStr f ∧ _expected_fingerprint self = Some f ∧ _ssl_context self = Some false)
    as (f & -> & Hf & Hs).
  { unfold build_trusted_transport, SocketRemoteTransport.tls, SocketRemoteTransport.__init__ in Hb.
    repeat res_step. destruct fingerprint as [| | | |f| |]; try done.
    exists f. split; [done|]. by subst self. }
  assert (pinned sha256_hex self dial → ∃ certificate, Dial.certificate dial = Some certificate
      ∧ JStr f = JStr (certificate_fingerprint sha256_hex certificate)) as Hp.
  { intros (c & Hd & H). exists c. by rewrite (H f Hf). }
  pose proof (request_guarded sha256_hex monotonic self dial cancel_event text s) as [H1 H2].
  pose proof (answer_is_pinned sha256_hex monotonic self dial cancel_event text s) as Ha.
  destruct (request _ _ _ _ _ _ _) as [s' r]. simpl in *. rewrite Hc, Hs in H1. rewrite Ht in H2.
  split; [by destruct H1|]. intros [H|H]; [by destruct H2; auto|].
  destruct r as [answer|]; [|done]. apply Hp. eapply Ha; [done|]. rewrite Hs. by eexists.
Qed.

(** Request and answer survive the network.  When nothing fails and the deadline is not
    passed, the answer the peer framed is the text the request returns, and a peer that reads
    what was sent finds the text of the request -- in whatever pieces either arrives. *)
Theorem request_round_trip sha256_hex monotonic self dial cancel_event text data reply reply_data header rest s
    clock closed peer :
  is_text text → utf8_encode text = Ok data → data ≠ [] → (Z.of_nat (length data) <= MAX_ENVELOPE_BYTES)%Z →
  is_text reply → utf8_encode reply = Ok reply_data → reply_data ≠ [] →
  (Z.of_nat (length reply_data) <= MAX_ENVELOPE_BYTES)%Z →
  in_time monotonic cancel_event (fadd (monotonic (readings s)) (_timeout self)) →
  trusted_dial sha256_hex self dial → Forall (quiet cancel_event) (Dial.conversation dial) →
  pack_u32 (Z.of_nat (length reply_data)) = Ok header →
  stream (Dial.conversation dial) = (header ++ reply_data) ++ rest → sent self s = [] →
  ∃ s', request sha256_hex monotonic self dial cancel_event text s = (s', Ok reply)
    ∧ (Forall (quiet None) (arriving peer) → stream (arriving peer) = sent self s' →
       ∃ peer', _recv_frame clock closed None None MAX_ENVELOPE_BYTES peer = (peer', Ok data)
         ∧ utf8_decode data = Ok text).
Proof.
  intros Ht Hd Hne Hm Hrt Hrd Hrne Hrm Htime Hdial Hq Hh Hs Hsent.
  destruct (pack_u32_small (Z.of_nat (length data))) as [dh Hdh].
  { change MAX_ENVELOPE_BYTES with 8388608%Z in Hm. lia. }
  unfold Transport.request. rewrite M_bind_run. cbn [now].
  rewrite M_bind_run. unfold lift at 1. rewrite Hd. rewrite M_bind_run. unfold throw_if.
  rewrite (proj2 (Z.ltb_ge MAX_ENVELOPE_BYTES _)) by done. cbn [raise_if].
  rewrite M_bind_run. unfold finally at 1, attempt.
  set (deadline := fadd _ _) in *. pose proof Hdial as (Hco & _ & _ & _).
  assert (returns reply_data (λ s', sent self s' = dh ++ data)
    (exchange sha256_hex monotonic self dial cancel_event deadline data (Channel.tick s))) as (s1 & E & Hs1).
  { unfold exchange. apply passes_then; [by eapply cancelled_passes|intros _ s1 (A1 & B1 & C1)].
    apply passes_then; [by eapply remaining_passes|intros _ s2 (A2 & B2 & C2)].
    rewrite M_bind_run, Hco. cbn [throw_some mret M_ret]. rewrite M_bind_run. cbn [modify].
    destruct (converse_returns sha256_hex monotonic self dial cancel_event deadline data dh reply_data header rest
      (Channel.set_raw true (Channel.set_arriving (Dial.conversation dial) s2))) as (s3 & E & Hs3); [done..|].
    unfold finally. rewrite E. eexists. split; [done|]. 
    unfold sent in *. simpl in *. destruct (bool_decide _); simpl in *;
      rewrite Hs3, ?C2, ?C1, ?B2, ?B1, Hsent; done. }
  rewrite E. exists (Channel.set_tls false s1). unfold lift.
  rewrite (utf8_round_trip reply reply_data Hrt Hrd). split; [done|]. intros Hpq Hps.
  destruct (recv_frame_calm clock closed None None MAX_ENVELOPE_BYTES dh data [] peer) as (p' & Ep & _); try done.
  { rewrite app_nil_r, Hps. exact Hs1. }
  exists p'. split; [done|]. by apply utf8_round_trip.
Qed.

Lemma toy_in_time s : in_time (λ _, flit 0) (Some (λ _, false))
  (fadd ((λ _ : nat, flit 0) (readings s)) (_timeout toy_transport)).
Proof.
  split; [by intros flag [= <-] n|]. intros d Hd n. injection Hd as <-. vm_compute. reflexivity.
Qed.

Lemma request_settles_witness :
  (toy_request [Byte.x02] toy_reply [65]%Z).2 = raise RemoteAuthError "peer certificate fingerprint changed"
  ∧ let '(s', r) := toy_request [Byte.x02] toy_reply [65]%Z in
    sockets_closed s' ∧
    match r with
    | Ok _ => True
    | Err e => remote_error e ∨ utf8_encode [65]%Z = Err e ∨ not_comparable toy_sha256 toy_transport e
    end.
Proof.
  split; [vm_compute; reflexivity|].
  apply (request_settles toy_sha256 (λ _, flit 0) toy_transport (toy_dial [Byte.x02] toy_reply)
           (Some (λ _, false)) [65]%Z (toy_channel [])); [|split; reflexivity|reflexivity].
  repeat split; try discriminate. repeat constructor.
Defined.

Lemma trusted_transport_is_pinned_witness :
  is_ok (toy_request [Byte.x01] toy_reply [65]%Z).2 = true
  ∧ let '(s', r) := toy_request [Byte.x01] toy_reply [65]%Z in
    sent_clear s' = [] ∧
    (sent_tls s' ≠ [] ∨ is_ok r = true →
      ∃ certificate, Some [Byte.x01] = Some certificate
        ∧ JStr (certificate_fingerprint toy_sha256 [Byte.x01])
          = JStr (certificate_fingerprint toy_sha256 certificate)).
Proof.
  split; [vm_compute; reflexivity|].
  apply (trusted_transport_is_pinned toy_sha256 (λ _, flit 0) (JStr "10.0.0.2") (JInt 27321)
           (JStr (certificate_fingerprint toy_sha256 [Byte.x01])) (JInt 10) toy_transport
           (toy_dial [Byte.x01] toy_reply) (Some (λ _, false)) [65]%Z (toy_channel [])); vm_compute; reflexivity.
Defined.

Lemma request_round_trip_witness :
  ∃ s', toy_request [Byte.x01] toy_reply [65]%Z = (s', Ok [233]%Z)
    ∧ (Forall (quiet None) [Data Byte.x00 [Byte.x00; Byte.x00; Byte.x01]; Data Byte.x41 []] →
       [Byte.x00; Byte.x00; Byte.x00; Byte.x01; Byte.x41] = sent toy_transport s' →
       ∃ peer', _recv_frame (λ _, flit 0) "connection closed before request" None None MAX_ENVELOPE_BYTES
           (toy_channel [Data Byte.x00 [Byte.x00; Byte.x00; Byte.x01]; Data Byte.x41 []]) = (peer', Ok [Byte.x41])
         ∧ utf8_decode [Byte.x41] = Ok [65]%Z).
Proof.
  apply (request_round_trip toy_sha256 (λ _, flit 0) toy_transport (toy_dial [Byte.x01] toy_reply)
    (Some (λ _, false)) [65]%Z [Byte.x41] [233]%Z [Byte.xc3; Byte.xa9]
    [Byte.x00; Byte.x00; Byte.x00; Byte.x02] [Byte.x41] (toy_channel []) (λ _, flit 0)
    "connection closed before request"
    (toy_channel [Data Byte.x00 [Byte.x00; Byte.x00; Byte.x01]; Data Byte.x41 []]));
    [repeat constructor; lia|reflexivity|discriminate|vm_compute; discriminate
    |repeat constructor; lia|reflexivity|discriminate|vm_compute; discriminate
    |exact (toy_in_time (toy_channel []))| |repeat constructor; by eexists|reflexivity..].
  split; [reflexivity|split; [reflexivity|split; [reflexivity|right]]]. exists [Byte.x01].
  split; [reflexivity|]. intros f Hf. injection Hf as <-. vm_compute. reflexivity.
Defined.
