(* ===== verification/Requests.v ===== *)
(** * The client of a node ([remote/requests.py], [remote/provider.py], the builders of
    [remote/role_operations.py])

    A provider signs a request, sends it over its transport, verifies the answer and follows
    its logical session; on top of that are the operations a node offers.  The transport, the
    clock, the flag that cancels and the drawn identifiers are methods of the world; the answer
    of a transport is the document its text holds, [None] when it is not JSON. *)

From S2P Require Import Prelude PyFloat Identity PyJson Wire SurfaceWire WireOps Envelope RemoteModels Pairing Transport.
Abbreviation dict := (list (string * json)) (only parsing).

(** ** [AuthenticatedNodeProvider] *)

Module AuthenticatedNodeProvider.
Record t := mk {
  _node_id : NodeId;
  _caller_node_id : option NodeId;
  _secret : string;
  _freshness_seconds : float;
  _invalidated : bool;
  _session_request_sequence : Z;
  _session_response_sequence : Z;
  _session_id : option string }.

Definition __init__ (node_id : NodeId) (secret : string) (freshness_seconds : float)
    (caller_node_id : option NodeId) : t :=
  mk node_id caller_node_id secret freshness_seconds false 0 0 None.

Definition invalidate (p : t) : t :=
  mk (_node_id p) (_caller_node_id p) (_secret p) (_freshness_seconds p) true
    (_session_request_sequence p) (_session_response_sequence p) (_session_id p).

(** [with self._session_lock]: the number of the request, and the session it continues. *)
Definition next_request : M t (Z * option string) := λ p,
  let n := (_session_request_sequence p + 1)%Z in
  (mk (_node_id p) (_caller_node_id p) (_secret p) (_freshness_seconds p) (_invalidated p) n
     (_session_response_sequence p) (_session_id p), Ok (n, _session_id p)).

(** [with self._session_lock]: the session of the newest answer. *)
Definition note_response (request_sequence : Z) (session_id : option string) (p : t) : t :=
  if (_session_response_sequence p <=? request_sequence)%Z
  then mk (_node_id p) (_caller_node_id p) (_secret p) (_freshness_seconds p) (_invalidated p)
         (_session_request_sequence p) request_sequence
         match session_id with Some s => Some s | None => _session_id p end
  else p.
End AuthenticatedNodeProvider.
Import AuthenticatedNodeProvider(_node_id, _caller_node_id, _secret, _freshness_seconds, _invalidated).

Section provider.
Context (hmac_sha256_hex : string → string → string) (float_repr : float → string).
Context {W : Type} (self : W → AuthenticatedNodeProvider.t) (set_self : AuthenticatedNodeProvider.t → W → W).
(** [transport.request], [clock()], [secrets.token_hex(16)], [cancel_event.is_set()] *)
Context (transport : dict → bool → M W (option json)) (signature : convention).
Context (clock : M W float) (token_hex : M W string) (cancelled : M W bool).

Definition the_provider : M W AuthenticatedNodeProvider.t := λ w, (w, Ok (self w)).
Definition on_provider {A} (m : M AuthenticatedNodeProvider.t A) : M W A := λ w,
  let '(p, r) := m (self w) in (set_self p w, r).

(** [2 if OPERATION_SAFETY.get(op) != "unsafe" else 1] *)
Definition attempts (op : string) : Z :=
  if bool_decide (od_get op OPERATION_SAFETY = Some "unsafe") then 1 else 2.

(** What the status of a verified response means to the caller. *)
Definition outcome_of (response : RemoteResponse.t) : result dict :=
  if bool_decide (RemoteResponse.status response = "error")
  then let error := RemoteResponse.error response in
       if bool_decide (error = Some "permission_denied")
       then raise RemoteAuthorizationError "caller lacks permission"
       else if bool_decide (error = Some "capability_unavailable")
       then raise RemoteAuthorizationError "node capability is unavailable"
       else if bool_decide (error = Some "target_offline")
       then raise RemoteUnavailableError "target is offline"
       else raise RemoteExecutionError (default "remote operation failed" (truthy error))
  else of_option (RemoteResponse.payload response) RemoteProtocolError
         "successful response has no payload".

(** The envelope of a new request, with the number and the identifier it was given. *)
Definition new_envelope (op : string) (params : dict) : M W (Z * string * dict) :=
  started ← on_provider AuthenticatedNodeProvider.next_request;
  let '(request_sequence, session_id) := started in
  request_id ← token_hex;
  nonce ← token_hex;
  timestamp ← clock;
  p ← the_provider;
  envelope ← lift (sign_request hmac_sha256_hex float_repr (value (_node_id p)) op params request_id nonce
                     timestamp (_secret p) (value <$> _caller_node_id p) session_id
                     (bool_decide (is_Some session_id)) None);
  mret (request_sequence, request_id, envelope).

(** The answer, verified and of this request. *)
Definition accept_response (request_id : string) (answer : option json) : M W RemoteResponse.t :=
  response_envelope ← lift (of_option answer RemoteProtocolError "response is not valid JSON");
  now ← clock;
  p ← the_provider;
  response ← lift (verify_response hmac_sha256_hex float_repr response_envelope (_secret p) now
                     (_freshness_seconds p));
  throw_if (negb (bool_decide (RemoteResponse.node_id response = _node_id p))) RemoteAuthError
    "response came from the wrong node";;
  throw_if (negb (bool_decide (RemoteResponse.request_id response = request_id))) RemoteAuthError
    "response request id does not match";;
  mret response.

Definition _request (op : string) (params : dict) : M W dict :=
  p ← the_provider;
  throw_if (_invalidated p) RemoteAuthError "remote provider has been revoked";;
  check_cancelled cancelled;;
  started ← new_envelope op params;
  let '(request_sequence, request_id, envelope) := started in
  answer ← request_with_retry cancelled transport signature envelope (attempts op);
  response ← accept_response request_id answer;
  on_provider (modify (AuthenticatedNodeProvider.note_response request_sequence
                         (RemoteResponse.session_id response)));;
  lift (outcome_of response).
End provider.

(** ** The operations of a node *)

Section operations.
Context (float_repr : float → string) (container_repr : json → string).
Context (parse_int : string → result Z) (parse_float : string → result float).
Context {D P : Type} (fromisoformat : string → result D) (path_of : string → P).
Context {W : Type} (self : W → AuthenticatedNodeProvider.t).
Context (_request : string → dict → M W dict) (cancelled : M W bool).

Notation me := (the_provider self).
Notation from_snapshot := (node_snapshot_from_dict float_repr container_repr fromisoformat).

(** [except classes as error: raise RemoteExecutionError(msg)] *)
Definition reading {A} (classes : list exn_class) (msg : string) (r : result A) : result A :=
  match r with
  | Err e => if existsb (exn_isa e) classes then raise RemoteExecutionError msg else Err e
  | Ok _ => r
  end.

Definition hello : M W dict :=
  payload ← _request "hello" [];
  p ← me;
  lift (validate_hello_payload (JObj payload) (Some (_node_id p)));;
  mret payload.

Definition request_shared (capability : string) (params : option dict) : M W json :=
  payload ← _request "capability_request"
    [("capability", JStr capability); ("params", JObj (default [] params))];
  lift (of_option (od_get "result" payload) RemoteProtocolError "shared capability response has no result").

Definition revoke_self : M W dict := _request "revoke_self" [].

(** A snapshot of this node, and of no other. *)
Definition _node_snapshot : M W (NodeSnapshot.t D) :=
  check_cancelled cancelled;;
  payload ← _request "dashboard_snapshot" [];
  snapshot ← lift (reading [KeyError; ClusterDataError] "remote sent an invalid snapshot"
                     (v ← index "snapshot" payload; from_snapshot v));
  p ← me;
  throw_if (negb (bool_decide (NodeSnapshot.node_id snapshot = _node_id p))) RemoteAuthError
    "remote snapshot came from the wrong node";;
  mret snapshot.

Definition component_summary (key : string) : M W ResourceSummary.t :=
  check_cancelled cancelled;;
  payload ← _request "component_summary" [("key", JStr key)];
  p ← me;
  throw_if match jget "node_id" payload with
           | JStr n => negb (bool_decide (n = value (_node_id p)))
           | _ => true
           end RemoteAuthError "remote resource came from the wrong node";;
  lift (reading [ClusterDataError] "remote sent an invalid resource"
          (v ← index "resource" payload;
           resource_summary_from_dict float_repr container_repr v)).

Definition process_candidates : M W (list ProcessCandidate.t) :=
  check_cancelled cancelled;;
  payload ← _request "process_candidates" [];
  lift (reading [KeyError; TypeError; ClusterDataError] "remote sent invalid process data"
          (v ← index "processes" payload;
           each (process_candidate_from_dict float_repr container_repr parse_int parse_float) v)).

Definition storage_candidates : M W (list (FileCandidate.t D P)) :=
  check_cancelled cancelled;;
  payload ← _request "storage_candidates" [];
  lift (reading [KeyError; TypeError; ClusterDataError] "remote sent invalid storage data"
          (v ← index "files" payload;
           each (file_candidate_from_dict float_repr container_repr parse_int fromisoformat path_of) v)).

Definition terminate (request : ProcessTerminationRequest.t) : M W ProcessActionResult.t :=
  p ← me;
  throw_if (negb (bool_decide (ProcessTerminationRequest.target_node_id request = _node_id p)))
    RemoteAuthError "process request target does not match provider";;
  let action := ProcessTerminationRequest.action request in
  payload ← _request (if bool_decide (action = REQUEST_QUIT) then "process_request_quit" else "process_force_quit")
    [("action", JStr (ProcessActionKind.value action));
     ("processes", JList ((λ ref, JObj [("pid", JInt (ProcessRef.pid ref));
                                        ("create_time", opt_json JFloat (ProcessRef.create_time ref))])
                            <$> ProcessTerminationRequest.processes request))];
  lift (reading [ClusterDataError; TypeError; ValueError] "remote sent invalid process action data"
          (process_action_result_from_dict float_repr container_repr parse_int (JObj payload))).
End operations.

(** ** [RemoteRoleOperations]: the fenced requests of a cluster *)

Module RemoteRoleOperations.
Section builders.
Context {A : Type} (_role_request : string → dict → A).
(** The fence every request carries. *)
Context (cluster_id : string) (epoch : Z) (fencing_token : string).

Definition fence : dict :=
  [("cluster_id", JStr cluster_id); ("epoch", JInt epoch); ("fencing_token", JStr fencing_token)].

Definition consume_invite (token : string) : A :=
  _role_request "consume_invite" (("token", JStr token) :: fence).

Definition assign_role (target_node_id : string) (roles : list string) : A :=
  _role_request "assign_role"
    (("target_node_id", JStr target_node_id) :: ("roles", JList (JStr <$> roles)) :: fence).

Definition renew_coordinator_lease : A := _role_request "renew_coordinator_lease" fence.

Definition upload_snapshot (payload : dict) : A :=
  _role_request "worker_snapshot" (("payload", JObj payload) :: fence).

Definition upload_standby_batch (payload : dict) : A :=
  _role_request "standby_batch" (("payload", JObj payload) :: fence).

Definition pause_worker (target_node_id : string) : A :=
  _role_request "pause_worker" (("target_node_id", JStr target_node_id) :: fence).

Definition revoke_worker (target_node_id : string) : A :=
  _role_request "revoke_worker" (("target_node_id", JStr target_node_id) :: fence).

Definition resume_worker (target_node_id : string) : A :=
  _role_request "resume_worker" (("target_node_id", JStr target_node_id) :: fence).

Definition remove_connection (target_node_id : string) : A :=
  _role_request "remove_connection" (("target_node_id", JStr target_node_id) :: fence).

Definition remove_job (target_node_id : string) : A :=
  _role_request "remove_job" (("target_node_id", JStr target_node_id) :: fence).

Definition revoke_member (target_node_id : string) : A :=
  _role_request "revoke_member" (("target_node_id", JStr target_node_id) :: fence).

Definition grant_capabilities (subject_node_id target_node_id : string) (permissions : list string)
    (expires_at : float) : A :=
  _role_request "grant_capabilities"
    ([("subject_node_id", JStr subject_node_id); ("target_node_id", JStr target_node_id);
      ("permissions", JList (JStr <$> permissions)); ("expires_at", JFloat expires_at)] ++ fence).

Definition revoke_capabilities (subject_node_id target_node_id : string) : A :=
  _role_request "revoke_capabilities"
    ([("subject_node_id", JStr subject_node_id); ("target_node_id", JStr target_node_id)] ++ fence).

Definition sync_capability_grant (subject_node_id target_node_id : string) (permissions : list string)
    (expires_at : float) : A :=
  _role_request "sync_capability_grant"
    ([("subject_node_id", JStr subject_node_id); ("target_node_id", JStr target_node_id);
      ("permissions", JList (JStr <$> permissions)); ("expires_at", JFloat expires_at)] ++ fence).
End builders.
End RemoteRoleOperations.
