(* ===== verification/RequestsSpec.v ===== *)
(** * The client of a node: theorems

    What a client accepts was signed by the node it asked, for the request it made; a request
    is sent at most twice, always the same, and an unsafe one once; what the role builders make
    passes the node's validation. *)

From S2P Require Import Prelude PyFloat Identity PyJson Wire SurfaceWire WireOps Envelope EnvelopeSpec RemoteModels Transport Requests WireOpsSpec.
Import AuthenticatedNodeProvider(_node_id, _caller_node_id, _secret, _freshness_seconds, _invalidated).

(** ** What the node validates *)

Section builders.
Context (float_repr : float → string).
Notation validate op d := (validate_operation_params float_repr op (JObj d)).
Context (cluster_id : string) (epoch : Z) (fencing_token : string).
Notation fence := (RemoteRoleOperations.fence cluster_id epoch fencing_token).

(** A fence a node can compare. *)
Definition fence_ok : Prop := cluster_id ≠ "" ∧ (0 <= epoch)%Z ∧ fencing_token ≠ "".

Lemma nonempty_text_iff s : is_nonempty_text (JStr s) = true ↔ s ≠ "".
Proof. simpl. rewrite negb_true_iff. apply bool_decide_eq_false. Qed.

Lemma error_if_Ok b msg : protocol_error_if b msg = Ok () ↔ b = false.
Proof. apply raise_if_Ok. Qed.

Lemma then_Ok {A} (m : result ()) (k : result A) a : (m;; k) = Ok a ↔ m = Ok () ∧ k = Ok a.
Proof. rewrite bind_Ok. split; [by intros ([] & ? & ?)|naive_solver]. Qed.

(** The node's check of an operation is that of its parameters. *)
Lemma validate_role op d : op ∈ ROLE_OPERATIONS →
  validate op d = validate_role_operation float_repr op d.
Proof.
  intros Hr. unfold validate_operation_params.
  replace (od_mem op OP_REQUIRED_CAPABILITY) with true.
  2: { symmetry. revert op Hr. apply Forall_forall. apply (bool_decide_unpack _). by vm_compute. }
  cbn [negb protocol_error_if raise_if]. 
  rewrite (past_group ROLE_OPERATIONS NO_PARAM_OPERATIONS), (past_name ROLE_OPERATIONS "capability_request"),
    (past_group ROLE_OPERATIONS SURFACE_OPERATIONS), (past_name ROLE_OPERATIONS "component_summary"),
    (past_group ROLE_OPERATIONS ["process_request_quit"; "process_force_quit"]) by (done || by vm_compute).
  by rewrite bool_decide_eq_true_2.
Qed.

(** A request with the fence is accepted when the fence can be compared and the rest is right. *)
Lemma validate_fenced op d : op ∈ ROLE_OPERATIONS → Forall (λ kv, kv.1 ∉ fencing_fields) d →
  validate op (d ++ fence) = Ok () ↔ fence_ok ∧ validate_role_params float_repr op (d ++ fence) = Ok ().
Proof.
  intros Hr Hd. rewrite validate_role by done. unfold validate_role_operation.
  assert (∀ k, k ∈ fencing_fields → jget k (d ++ fence) = jget k fence) as Hget.
  { intros k Hk. unfold jget. induction Hd as [|[k' v] d' Hk' Hd IH]; [done|]. simpl.
    rewrite decide_False; [exact IH|]. intros ->. done. }
  rewrite !Hget by (vm_compute; set_solver).
  replace (has_keys (d ++ fence) fencing_fields) with true.
  2: { symmetry. unfold has_keys. apply forallb_forall. intros k Hk. apply bool_decide_eq_true.
       rewrite fmap_app. apply elem_of_app. right. by apply list_elem_of_In in Hk. }
  rewrite !then_Ok, !error_if_Ok. unfold fence_ok.
  change (jget "cluster_id" fence) with (JStr cluster_id). change (jget "epoch" fence) with (JInt epoch).
  change (jget "fencing_token" fence) with (JStr fencing_token).
  rewrite !negb_false_iff, !nonempty_text_iff. cbn [is_natural]. rewrite Z.leb_le. naive_solver.
Qed.

(** [decide_closed] evaluates the tests on operation names. *)
Ltac decide_closed :=
  repeat match goal with
  | |- context [@bool_decide ?P ?d] =>
      let b := eval vm_compute in (@bool_decide P d) in
      match b with true => idtac | false => idtac end; change (@bool_decide P d) with b
  end; cbn [andb orb negb].

Notation sent m := (m (λ op d, validate op d) cluster_id epoch fencing_token).

Lemma not_fencing (d : dict) : forallb (λ kv, negb (bool_decide (kv.1 ∈ fencing_fields))) d = true →
  Forall (λ kv, kv.1 ∉ fencing_fields) d.
Proof.
  intros H. apply Forall_forall. intros kv Hkv. rewrite forallb_forall in H.
  apply list_elem_of_In, H, negb_true_iff, bool_decide_eq_false in Hkv. done.
Qed.

Lemma validate_target op target : op ∈ ["pause_worker"; "resume_worker"; "revoke_worker"; "revoke_member"] →
  validate op (("target_node_id", JStr target) :: fence) = Ok () ↔ fence_ok.
Proof.
  intros Hop. rewrite (validate_fenced op [("target_node_id", JStr target)]).
  - enough (validate_role_params float_repr op ([("target_node_id", JStr target)] ++ fence) = Ok ()) by naive_solver.
    repeat (apply elem_of_cons in Hop as [->|Hop]; [unfold validate_role_params; decide_closed; reflexivity|]).
    by apply elem_of_nil in Hop.
  - unfold ROLE_OPERATIONS. set_solver.
  - by apply not_fencing.
Qed.

Lemma validate_target_named op target : op ∈ ["remove_connection"; "remove_job"] →
  validate op (("target_node_id", JStr target) :: fence) = Ok () ↔ fence_ok ∧ target ≠ "".
Proof.
  intros Hop. rewrite (validate_fenced op [("target_node_id", JStr target)]).
  - enough (validate_role_params float_repr op ([("target_node_id", JStr target)] ++ fence) = Ok () ↔ target ≠ "")
      by naive_solver.
    rewrite <- nonempty_text_iff.
    repeat (apply elem_of_cons in Hop as [->|Hop]; [unfold validate_role_params; decide_closed|]).
    3: by apply elem_of_nil in Hop.
    all: rewrite error_if_Ok; simpl; by destruct (bool_decide _).
  - unfold ROLE_OPERATIONS. set_solver.
  - by apply not_fencing.
Qed.
(** Names of permissions that all exist. *)
Definition known (permissions : list string) : Prop := Forall (λ p, p ∈ _KNOWN_PERMISSION_VALUES) permissions.

Lemma unknown_exists permissions :
  existsb (λ v, match v with
                | JStr s => negb (bool_decide (s ∈ _KNOWN_PERMISSION_VALUES))
                | _ => true
                end) (JStr <$> permissions) = false ↔ known permissions.
Proof.
  unfold known. induction permissions as [|p l IH]; [by split|]. cbn [fmap list_fmap existsb].
  rewrite orb_false_iff, IH, Forall_cons, negb_false_iff, bool_decide_eq_true. done.
Qed.

Lemma validate_grant_iff op subject target permissions expires_at :
  op ∈ ["grant_capabilities"; "sync_capability_grant"] →
  validate op ([("subject_node_id", JStr subject); ("target_node_id", JStr target);
      ("permissions", JList (JStr <$> permissions)); ("expires_at", JFloat expires_at)] ++ fence) = Ok ()
  ↔ fence_ok ∧ subject ≠ "" ∧ target ≠ "" ∧ (op = "grant_capabilities" → permissions ≠ [])
    ∧ known permissions ∧ isfinite expires_at = true.
Proof.
  intros Hop. rewrite (validate_fenced op); [|unfold ROLE_OPERATIONS; set_solver|by apply not_fencing].
  apply and_iff_compat_l. rewrite <- (nonempty_text_iff subject), <- (nonempty_text_iff target), <- unknown_exists.
  repeat (apply elem_of_cons in Hop as [->|Hop]; [unfold validate_role_params; decide_closed;
    unfold validate_grant; decide_closed|]); [..|by apply elem_of_nil in Hop].
  all: set (d := _ ++ fence); change (jget "subject_node_id" d) with (JStr subject);
    change (jget "target_node_id" d) with (JStr target);
    change (jget "permissions" d) with (JList (JStr <$> permissions));
    change (jget "expires_at" d) with (JFloat expires_at);
    change (not_finite (JFloat expires_at)) with (Ok (negb (isfinite expires_at)));
    change (keys_exactly d _) with true; cbv beta iota; rewrite !then_Ok, !error_if_Ok.
  all: unfold mbind, result_bind; cbv beta iota; rewrite error_if_Ok, ?orb_false_iff, !negb_false_iff;
    generalize (is_nonempty_text (JStr subject)), (is_nonempty_text (JStr target)), (isfinite expires_at).
  - destruct permissions; naive_solver.
  - generalize (existsb (λ v, match v with
                | JStr s => negb (bool_decide (s ∈ _KNOWN_PERMISSION_VALUES))
                | _ => true end) (JStr <$> permissions)). naive_solver.
Qed.

Lemma validate_invite token : validate "consume_invite" (("token", JStr token) :: fence) = Ok () ↔ fence_ok.
Proof.
  rewrite (validate_fenced "consume_invite" [("token", JStr token)]);
    [|unfold ROLE_OPERATIONS; set_solver|by apply not_fencing].
  unfold validate_role_params. decide_closed. naive_solver.
Qed.

Lemma validate_renewal : validate "renew_coordinator_lease" fence = Ok () ↔ fence_ok.
Proof.
  rewrite (validate_fenced "renew_coordinator_lease" []); [|unfold ROLE_OPERATIONS; set_solver|by constructor].
  unfold validate_role_params. decide_closed. naive_solver.
Qed.

Lemma texts_are_text (l : list string) : existsb (λ v, negb (is_text v)) (JStr <$> l) = false.
Proof. by induction l. Qed.

Lemma validate_assignment target roles :
  validate "assign_role" (("target_node_id", JStr target) :: ("roles", JList (JStr <$> roles)) :: fence) = Ok ()
  ↔ fence_ok ∧ roles ≠ [].
Proof.
  etrans; [apply (validate_fenced "assign_role"
    [("target_node_id", JStr target); ("roles", JList (JStr <$> roles))]);
    [unfold ROLE_OPERATIONS; set_solver|by apply not_fencing]|].
  apply and_iff_compat_l. unfold validate_role_params. decide_closed. set (d := _ ++ fence).
  change (jget "target_node_id" d) with (JStr target). change (jget "roles" d) with (JList (JStr <$> roles)).
  cbn [is_text negb]. rewrite then_Ok, !error_if_Ok. destruct roles as [|r l]; [naive_solver|].
  pose proof (texts_are_text (r :: l)) as Ht. cbn [fmap list_fmap] in *. rewrite Ht. naive_solver.
Qed.

Lemma validate_revocation subject target :
  validate "revoke_capabilities" ([("subject_node_id", JStr subject); ("target_node_id", JStr target)] ++ fence)
  = Ok () ↔ fence_ok ∧ subject ≠ "" ∧ target ≠ "".
Proof.
  rewrite validate_fenced; [|unfold ROLE_OPERATIONS; set_solver|by apply not_fencing].
  apply and_iff_compat_l. rewrite <- (nonempty_text_iff subject), <- (nonempty_text_iff target).
  unfold validate_role_params. decide_closed. unfold validate_grant. decide_closed. set (d := _ ++ fence).
  change (jget "subject_node_id" d) with (JStr subject). change (jget "target_node_id" d) with (JStr target).
  change (keys_exactly d _) with true. cbv beta iota. rewrite !then_Ok, !error_if_Ok, orb_false_iff, !negb_false_iff.
  naive_solver.
Qed.

(** The check of a snapshot's payload does not look past it. *)
Lemma validate_upload op payload : op ∈ ["worker_snapshot"; "standby_batch"] →
  validate op (("payload", JObj payload) :: fence) = Ok () ↔
  fence_ok ∧ ∃ text, dumps float_repr false (JObj payload) = Ok text ∧ (py_len text <= MAX_ENVELOPE_BYTES / 2)%Z.
Proof.
  intros Hop. rewrite (validate_fenced op [("payload", JObj payload)]);
    [|unfold ROLE_OPERATIONS; set_solver|by apply not_fencing].
  apply and_iff_compat_l.
  repeat (apply elem_of_cons in Hop as [->|Hop]; [unfold validate_role_params; decide_closed|]);
    [..|by apply elem_of_nil in Hop].
  all: unfold validate_snapshot; set (d := _ ++ fence); change (jget "payload" d) with (JObj payload);
    cbv beta iota; destruct (dumps float_repr false (JObj payload)) as [text|e];
    [|split; [by case_match|by intros (? & ? & _)]].
  all: unfold mbind, result_bind; rewrite error_if_Ok, Z.ltb_ge; naive_solver.
Qed.

(** C35. What a client builds is what a node validates.  Each role request a client can make is
    accepted by the validation of the node -- every field where and of the type it is looked
    for -- just when its fence can be compared and its own arguments make sense. *)
Theorem role_requests_validate :
  (∀ token, sent RemoteRoleOperations.consume_invite token = Ok () ↔ fence_ok)
  ∧ (sent RemoteRoleOperations.renew_coordinator_lease = Ok () ↔ fence_ok)
  ∧ (∀ target roles, sent RemoteRoleOperations.assign_role target roles = Ok () ↔ fence_ok ∧ roles ≠ [])
  ∧ (∀ target, (sent RemoteRoleOperations.pause_worker target = Ok () ↔ fence_ok)
     ∧ (sent RemoteRoleOperations.resume_worker target = Ok () ↔ fence_ok)
     ∧ (sent RemoteRoleOperations.revoke_worker target = Ok () ↔ fence_ok)
     ∧ (sent RemoteRoleOperations.revoke_member target = Ok () ↔ fence_ok)
     ∧ (sent RemoteRoleOperations.remove_connection target = Ok () ↔ fence_ok ∧ target ≠ "")
     ∧ (sent RemoteRoleOperations.remove_job target = Ok () ↔ fence_ok ∧ target ≠ ""))
  ∧ (∀ subject target permissions expires_at,
      (sent RemoteRoleOperations.grant_capabilities subject target permissions expires_at = Ok ()
        ↔ fence_ok ∧ subject ≠ "" ∧ target ≠ "" ∧ permissions ≠ [] ∧ known permissions ∧ isfinite expires_at = true)
      ∧ (sent RemoteRoleOperations.sync_capability_grant subject target permissions expires_at = Ok ()
        ↔ fence_ok ∧ subject ≠ "" ∧ target ≠ "" ∧ known permissions ∧ isfinite expires_at = true)
      ∧ (sent RemoteRoleOperations.revoke_capabilities subject target = Ok ()
        ↔ fence_ok ∧ subject ≠ "" ∧ target ≠ ""))
  ∧ (∀ payload,
      let small := ∃ text, dumps float_repr false (JObj payload) = Ok text
                           ∧ (py_len text <= MAX_ENVELOPE_BYTES / 2)%Z in
      (sent RemoteRoleOperations.upload_snapshot payload = Ok () ↔ fence_ok ∧ small)
      ∧ (sent RemoteRoleOperations.upload_standby_batch payload = Ok () ↔ fence_ok ∧ small)).
Proof.
  split_and!.
  - intros token. apply validate_invite.
  - apply validate_renewal.
  - intros target roles. apply validate_assignment.
  - intros target. split_and!; (by apply validate_target; set_solver) || (by apply validate_target_named; set_solver).
  - intros subject target permissions expires_at. split_and!; [..|apply validate_revocation].
    + etrans; [by apply validate_grant_iff; set_solver|]. naive_solver.
    + etrans; [by apply validate_grant_iff; set_solver|]. naive_solver.
  - intros payload. split; by apply validate_upload; set_solver.
Qed.
End builders.

(** ** Sending a request *)

Section sending.
Context {W E R : Type} (cancelled : M W bool) (call : E → bool → M W R) (signature : convention).
(** Every call of the transport is noted, by the call itself. *)
Context (log : W → list E).
Definition same_log (w w' : W) : Prop := log w' = log w.
Context (Hcall : ∀ e b w, log (call e b w).1 = log w ++ [e]).
Context `{!Keeps same_log cancelled}.

#[export] Instance same_log_refl : Reflexive same_log. Proof. by intros w. Qed.
#[export] Instance same_log_trans : Transitive same_log.
Proof. unfold same_log. intros ? ? ? H1 H2. by rewrite H2. Qed.

(** The transport failed on this envelope. *)
Definition broke (envelope : E) : Prop :=
  ∃ given w w' e, call envelope given w = (w', Err e) ∧ exn_isa e RemoteTransportError = true.

(** Copies of one envelope, a further one only after the transport failed. *)
Definition copies (envelope : E) (limit : nat) (l : list E) : Prop :=
  ∃ n, l = replicate n envelope ∧ n ≤ limit ∧ (1 < n → broke envelope).

Lemma invoke_log envelope w : log (_invoke_with_optional_cancel call signature envelope w).1 = log w ++ [envelope].
Proof. unfold _invoke_with_optional_cancel. case_match; apply Hcall. Qed.

Lemma invoke_broke envelope w w' e : _invoke_with_optional_cancel call signature envelope w = (w', Err e) →
  exn_isa e RemoteTransportError = true → broke envelope.
Proof. unfold _invoke_with_optional_cancel, broke. case_match; eauto 6. Qed.

(** An answer is one the transport gave to the envelope. *)
Lemma retry_answer left_ envelope w w' r :
  retry_loop cancelled call signature left_ envelope w = (w', Ok r) →
  ∃ given w1 w2, call envelope given w1 = (w2, Ok r).
Proof.
  revert w. induction left_ as [|n IH]; intros w H; cbn [retry_loop] in H; [by m_step|].
  m_step. unfold attempt in H.
  destruct (_invoke_with_optional_cancel call signature envelope w0) as [w1 [r'|e]] eqn:Ei.
  - injection H as <- <-. unfold _invoke_with_optional_cancel in Ei. case_match; eauto.
  - case_match; [by eapply IH|by m_step].
Qed.

Lemma retry_copies left_ envelope w :
  ∃ l, log (retry_loop cancelled call signature left_ envelope w).1 = log w ++ l ∧ copies envelope left_ l.
Proof.
  revert w. induction left_ as [|n IH]; intros w; cbn [retry_loop].
  { exists []. rewrite app_nil_r. split; [done|]. exists 0. split_and!; [done|lia|lia]. }
  rewrite M_bind_run. unfold check_cancelled. rewrite M_bind_run.
  pose proof (keeps_fst (R := same_log) (m := cancelled) w) as Hc.
  destruct (cancelled w) as [w1 [stop|e]]; simpl in Hc; unfold same_log in Hc.
  2: { exists []. rewrite app_nil_r. split; [done|]. exists 0. split_and!; [done|lia|lia]. }
  destruct stop; unfold throw_if; cbn [raise_if raise].
  { exists []. rewrite app_nil_r. split; [done|]. exists 0. split_and!; [done|lia|lia]. }
  rewrite <- Hc. unfold attempt. pose proof (invoke_log envelope w1) as Hl.
  destruct (_invoke_with_optional_cancel call signature envelope w1) as [w2 [r|e]] eqn:E1; simpl in Hl.
  { exists [envelope]. split; [done|]. exists 1. split_and!; [done|lia|lia]. }
  destruct (exn_isa e RemoteTransportError && negb (Nat.eqb n 0)) eqn:Ea.
  - destruct (IH w2) as (l & -> & m & -> & Hm & Hb). rewrite Hl, <- app_assoc.
    exists (replicate (S m) envelope). split; [done|]. exists (S m). split_and!; [done|lia|]. intros _.
    apply andb_true_iff in Ea as [Ea _]. by eapply invoke_broke.
  - exists [envelope]. split; [done|]. exists 1. split_and!; [done|lia|lia].
Qed.
End sending.

Section request.
Context (hmac_sha256_hex : string → string → string) (float_repr : float → string).
Context {W : Type} (self : W → AuthenticatedNodeProvider.t) (set_self : AuthenticatedNodeProvider.t → W → W).
Context (transport : dict → bool → M W (option json)) (signature : convention).
Context (clock : M W float) (token_hex : M W string) (cancelled : M W bool).
Notation request := (_request hmac_sha256_hex float_repr self set_self transport signature clock token_hex cancelled).
Notation authentic := (authentic hmac_sha256_hex float_repr).

Lemma sign_request_Ok node op params rid nonce ts secret caller session resume gen envelope :
  sign_request hmac_sha256_hex float_repr node op params rid nonce ts secret caller session resume gen = Ok envelope →
  authentic secret envelope ∧ jget "op" envelope = JStr op ∧ jget "params" envelope = JObj params
  ∧ jget "request_id" envelope = JStr rid ∧ jget "node_id" envelope = JStr node.
Proof.
  unfold sign_request, _signature. intros H. repeat res_step. subst.
  pose proof (request_sig node op params rid nonce ts caller session resume gen) as Hsig.
  destruct (request_members node op params rid nonce ts caller session resume gen)
    as (Hn & _ & Ho & Hp & Hr & _).
  set (fields := request_fields _ _ _ _ _ _ _ _ _ _) in *. split.
  - eexists. by rewrite od_pop_set_fresh, od_get_set_eq by done.
  - unfold jget in *. rewrite !od_get_set_ne by done. by split_and!.
Qed.

(** A request that is built is signed, and says what is asked. *)
Lemma signed_envelope op params w w' n id envelope :
  new_envelope hmac_sha256_hex float_repr self set_self clock token_hex op params w = (w', Ok (n, id, envelope)) →
  authentic (_secret (self w')) envelope ∧ jget "op" envelope = JStr op ∧ jget "params" envelope = JObj params
  ∧ jget "request_id" envelope = JStr id ∧ jget "node_id" envelope = JStr (value (_node_id (self w'))).
Proof.
  unfold new_envelope. intros H. m_step. destruct res as [n' session]. repeat m_step.
  match goal with Hm : the_provider self _ = _ |- _ => unfold the_provider in Hm; injection Hm as <- <- end.
  by eapply sign_request_Ok.
Qed.

(** What a verified response says of its envelope. *)
Lemma verify_response_Ok envelope secret now freshness r :
  verify_response hmac_sha256_hex float_repr envelope secret now freshness = Ok r →
  ∃ d, envelope = JObj d ∧ authentic secret d ∧ jget "node_id" d = JStr (value (RemoteResponse.node_id r))
    ∧ jget "request_id" d = JStr (RemoteResponse.request_id r) ∧ jget "status" d = JStr (RemoteResponse.status r)
    ∧ RemoteResponse.status r ∈ ["ok"; "error"]
    ∧ jget "payload" d = opt_json JObj (RemoteResponse.payload r)
    ∧ fltb freshness (fsub now (RemoteResponse.timestamp r)) = false.
Proof.
  unfold verify_response. intros H.
  apply bind_Ok in H as (d & Hopen & H). apply open_Ok in Hopen as (-> & _ & _ & Hauth).
  exists d. split; [done|]. split; [done|].
  apply bind_Ok in H as (node & Hnode%nonempty_Ok & H).
  apply bind_Ok in H as (rid & Hrid%nonempty_Ok & H).
  apply bind_Ok in H as (status & Hstatus & H). apply bind_Ok in H as (payload & Hpayload & H).
  apply bind_Ok in H as (error & _ & H). apply bind_Ok in H as (session & _ & H).
  apply bind_Ok in H as (gen & _ & H). apply bind_Ok in H as (ts & (_ & _ & Hfresh & _)%fresh_Ok & H).
  apply bind_Ok in H as (n & [Hn|Hn]%catch_Ok & H); [|done]. injection H as <-.
  apply NodeId.node_id_Ok in Hn as [-> _].
  destruct (jget "status" d) as [| | | |st| |] eqn:Es; simplify_eq/=. case_bool_decide; simplify_eq/=.
  destruct (jget "payload" d) as [| | | | | |p] eqn:Ep; simplify_eq/=; by split_and!.
Qed.

(** What is accepted: signed under the secret, by the node asked, for the request made. *)
Lemma accept_response_Ok id answer w w' r :
  accept_response hmac_sha256_hex float_repr self clock id answer w = (w', Ok r) →
  RemoteResponse.node_id r = _node_id (self w') ∧ RemoteResponse.request_id r = id
  ∧ ∃ d, answer = Some (JObj d) ∧ authentic (_secret (self w')) d
    ∧ jget "node_id" d = JStr (value (RemoteResponse.node_id r)) ∧ jget "request_id" d = JStr id
    ∧ jget "status" d = JStr (RemoteResponse.status r) ∧ RemoteResponse.status r ∈ ["ok"; "error"]
    ∧ jget "payload" d = opt_json JObj (RemoteResponse.payload r).
Proof.
  unfold accept_response. intros H. repeat m_step.
  match goal with Hm : the_provider self _ = _ |- _ => unfold the_provider in Hm; injection Hm as <- <- end.
  to_prop. repeat match goal with Hm : negb _ = false |- _ => apply negb_false_iff, bool_decide_eq_true in Hm end.
  match goal with Hm : verify_response _ _ _ _ _ _ = _ |- _ =>
    apply verify_response_Ok in Hm as (d & -> & Ha & Hn & Hr & Hst & Hin & Hp & _) end.
  match goal with Hm : of_option answer _ _ = _ |- _ => apply of_option_Ok in Hm; subst answer end.
  split_and!; [done|done|]. exists d. subst id. by split_and!.
Qed.

Section log.
Context (log : W → list dict).
Context (Htransport : ∀ e b w, log (transport e b w).1 = log w ++ [e]) (Hset : ∀ p w, log (set_self p w) = log w).
Context `{!Keeps (same_log log) cancelled, !Keeps (same_log log) clock, !Keeps (same_log log) token_hex}.
Notation quiet m := (Keeps (same_log log) m).

#[local] Instance the_provider_log : quiet (the_provider self).
Proof. by intros w. Qed.
#[local] Instance on_provider_log {A} (m : M AuthenticatedNodeProvider.t A) : quiet (on_provider self set_self m).
Proof. intros w. unfold on_provider. destruct (m (self w)). apply Hset. Qed.

Lemma new_envelope_log op params : quiet (new_envelope hmac_sha256_hex float_repr self set_self clock token_hex op params).
Proof. unfold new_envelope. keeps. Qed.
Lemma accept_response_log id answer : quiet (accept_response hmac_sha256_hex float_repr self clock id answer).
Proof. unfold accept_response. keeps. Qed.

(** What a quiet rest adds to the log: nothing. *)
Lemma quiet_then {A B} (m : M W A) (k : A → M W B) w l : log (m w).1 = log w ++ l → (∀ a, quiet (k a)) →
  log ((m ≫= k) w).1 = log w ++ l.
Proof.
  intros Hm Hk. rewrite M_bind_run. destruct (m w) as [w1 [a|e]]; [|done]. simpl in Hm.
  rewrite <- Hm. apply (Hk a w1).
Qed.

(** Nothing is noted before a quiet step is over, nor when it raises. *)
Lemma quiet_before {A B} (P : list dict → Prop) (m : M W A) (k : A → M W B) w : quiet m → P [] →
  (∀ a w1, m w = (w1, Ok a) → log w1 = log w → ∃ l, log (k a w1).1 = log w1 ++ l ∧ P l) →
  ∃ l, log ((m ≫= k) w).1 = log w ++ l ∧ P l.
Proof.
  intros Hm H0 Hk. rewrite M_bind_run. pose proof (Hm w) as Hw. unfold same_log in Hw.
  destruct (m w) as [w1 [a|e]] eqn:E; simpl in Hw.
  - rewrite <- Hw. by apply Hk.
  - exists []. by rewrite app_nil_r.
Qed.

(** A request is one message.  Whatever the transport does, what one call hands to it is
    copies of a single signed envelope of that operation, at most two, and of an unsafe
    operation at most one; and a second copy is sent only after the transport failed. *)
Theorem request_is_one_message op params w :
  ∃ l envelope, log (request op params w).1 = log w ++ l
    ∧ copies transport envelope (if bool_decide (od_get op OPERATION_SAFETY = Some "unsafe") then 1 else 2) l
    ∧ (l ≠ [] → ∃ w1, authentic (_secret (self w1)) envelope ∧ jget "op" envelope = JStr op
                      ∧ jget "params" envelope = JObj params).
Proof.
  set (limit := if bool_decide _ then 1 else 2).
  set (P := λ l, ∃ envelope, copies transport envelope limit l ∧ (l ≠ [] → ∃ w1, authentic (_secret (self w1)) envelope
    ∧ jget "op" envelope = JStr op ∧ jget "params" envelope = JObj params)).
  enough (∃ l, log (request op params w).1 = log w ++ l ∧ P l) as (l & H & envelope & H1 & H2) by eauto 6.
  assert (P []) as H0.
  { exists []. split; [|done]. exists 0. split_and!; [done|lia|lia]. }
  unfold Requests._request. apply quiet_before; [apply _|done|intros p w1 _ _].
  apply quiet_before; [apply _|done|intros _ w2 _ _].
  apply quiet_before; [unfold check_cancelled; keeps|done|intros _ w3 _ _].
  apply quiet_before; [apply new_envelope_log|done|intros [[n id] envelope] w4 Hnew _].
  apply signed_envelope in Hnew as (Ha & Ho & Hp & _).
  unfold request_with_retry. 
  destruct (retry_copies cancelled transport signature log Htransport (Z.to_nat (attempts op)) envelope w4)
    as (l & Hl & Hc).
  exists l. split.
  - apply quiet_then.
    + rewrite M_bind_run. unfold throw_if. replace (attempts op <? 1)%Z with false; [exact Hl|].
      unfold attempts. by case_bool_decide.
    + intros answer. apply (keeps_bind _); [apply accept_response_log|intros]. keeps.
  - exists envelope. split; [|eauto]. unfold limit. replace (if bool_decide _ then 1 else 2) with (Z.to_nat (attempts op)); [done|].
    unfold attempts. by case_bool_decide.
Qed.
End log.

Section authentic.
(** Nobody changes who the peer is, or the secret. *)
Definition same_peer (w w' : W) : Prop :=
  _node_id (self w') = _node_id (self w) ∧ _secret (self w') = _secret (self w).
Context (Hself : ∀ p w, self (set_self p w) = p).
Context `{!Keeps same_peer cancelled, !Keeps same_peer clock, !Keeps same_peer token_hex}.
Context `{!∀ e b, Keeps same_peer (transport e b)}.

#[local] Instance same_peer_refl : Reflexive same_peer. Proof. by split. Qed.
#[local] Instance same_peer_trans : Transitive same_peer.
Proof. unfold same_peer. intros ? ? ? [H1 H2] [H3 H4]. by rewrite H3, H4. Qed.
#[local] Instance the_provider_peer : Keeps same_peer (the_provider self).
Proof. by intros w. Qed.
#[local] Instance next_request_peer :
  Keeps same_peer (on_provider self set_self AuthenticatedNodeProvider.next_request).
Proof. intros w. unfold on_provider. simpl. split; by rewrite Hself. Qed.
#[local] Instance new_envelope_peer op params :
  Keeps same_peer (new_envelope hmac_sha256_hex float_repr self set_self clock token_hex op params).
Proof. unfold new_envelope. keeps. Qed.
#[local] Instance accept_response_peer id answer :
  Keeps same_peer (accept_response hmac_sha256_hex float_repr self clock id answer).
Proof. unfold accept_response. keeps. Qed.
#[local] Instance retry_peer n envelope : Keeps same_peer (retry_loop cancelled transport signature n envelope).
Proof.
  induction n as [|n IH]; cbn [retry_loop]; [apply _|].
  apply (keeps_bind _); [unfold check_cancelled; keeps|intros _]. apply (keeps_attempt _).
  - unfold _invoke_with_optional_cancel. case_match; apply _.
  - intros e. case_match; [exact IH|apply _].
Qed.

(** C14. An answer is the node's.  A call that returns a payload was made by a provider that is
    not revoked; and the transport gave, for the envelope of this call, a response that the
    holder of the shared secret signed, in the name of the node that was asked, for this very
    request, with the status [ok] and that payload. *)
Theorem accepted_answer_is_authentic op params w w' payload :
  request op params w = (w', Ok payload) →
  _invalidated (self w) = false ∧
  ∃ envelope given w1 w2 d,
    transport envelope given w1 = (w2, Ok (Some (JObj d)))
    ∧ authentic (_secret (self w)) envelope ∧ jget "op" envelope = JStr op ∧ jget "params" envelope = JObj params
    ∧ authentic (_secret (self w)) d ∧ jget "node_id" d = JStr (value (_node_id (self w)))
    ∧ jget "request_id" d = jget "request_id" envelope
    ∧ jget "status" d = JStr "ok" ∧ jget "payload" d = JObj payload.
Proof.
  unfold Requests._request. intros Hrun. m_step. unfold the_provider in Hm. injection Hm as <- <-.
  repeat m_step. split; [done|]. destruct res1 as [[n id] envelope].
  assert (same_peer w w2) as [Hn Hs].
  { etrans; [by eapply keeps_run; [|exact Hm0]; unfold check_cancelled; keeps|]. by eapply keeps_run; [|exact Hm1]; apply _. }
  apply signed_envelope in Hm1 as (Ha & Ho & Hp & Hr & _). rewrite Hs in Ha.
  unfold request_with_retry in Hrun. m_step. m_step. m_step. m_step.
  apply throw_if_Ok in Hm4 as [-> _].
  assert (same_peer w2 w3) as [Hn' Hs'].
  { etrans; [by eapply keeps_run; [|exact Hm1]; apply _|]. by eapply keeps_run; [|exact Hm2]; apply _. }
  apply retry_answer in Hm1 as (given & w6 & w7 & Ht).
  apply accept_response_Ok in Hm2 as (Hrn & Hri & d & -> & Had & Hdn & Hdr & Hds & Hin & Hdp).
  apply lift_Ok in Hrun as [-> Hout]. unfold outcome_of in Hout.
  exists envelope, given, w6, w7, d. case_bool_decide as Hst.
  { repeat case_match; discriminate. }
  apply of_option_Ok in Hout. rewrite Hout in Hdp. rewrite Hdn, Hrn, Hn', Hn, Hdr, Hr, Hds.
  rewrite Hs', Hs in Had. split_and!; try done. f_equal. set_solver.
Qed.
End authentic.
End request.

(** ** A concrete client *)

Module Client.
Record t := mk { provider : AuthenticatedNodeProvider.t; sent : list dict; failures : nat }.
Definition set_provider (p : AuthenticatedNodeProvider.t) (c : t) : t := mk p (sent c) (failures c).

Definition start (failures : nat) : t :=
  mk (AuthenticatedNodeProvider.__init__ (mkNodeId "server") "secret" (flit 60) (Some (mkNodeId "client"))) [] failures.

(** The network fails some times, then the node answers. *)
Definition transport (envelope : dict) (_ : bool) : M t (option json) := λ c,
  match failures c with
  | S n => (mk (provider c) (sent c ++ [envelope]) n, raise RemoteTransportError "remote transport timed out")
  | O =>
      (mk (provider c) (sent c ++ [envelope]) O,
       match sign_response sample_mac sample_text "server" (default "" (is_str (jget "request_id" envelope))) "ok"
               "secret" (flit 100) (Some [("done", JBool true)]) None (Some "s1") None with
       | Ok d => Ok (Some (JObj d))
       | Err e => Err e
       end)
  end.

Definition request (op : string) : M t dict :=
  _request sample_mac sample_text provider set_provider transport Positional (mret (flit 100))
    (mret "0a1b") (mret false) op [].
End Client.

Example retried_then_answered : (Client.request "ping" (Client.start 1)).2 = Ok [("done", JBool true)]
  ∧ length (Client.sent (Client.request "ping" (Client.start 1)).1) = 2
  ∧ AuthenticatedNodeProvider._session_id (Client.provider (Client.request "ping" (Client.start 1)).1) = Some "s1".
Proof. split_and!; vm_compute; reflexivity. Qed.
Example unsafe_is_not_retried :
  (Client.request "process_force_quit" (Client.start 1)).2 = raise RemoteTransportError "remote transport timed out"
  ∧ length (Client.sent (Client.request "process_force_quit" (Client.start 1)).1) = 1.
Proof. split; vm_compute; reflexivity. Qed.

Lemma request_is_one_message_witness :
  ∃ l envelope, Client.sent (Client.request "ping" (Client.start 1)).1 = Client.sent (Client.start 1) ++ l
    ∧ copies Client.transport envelope (if bool_decide (od_get "ping" OPERATION_SAFETY = Some "unsafe") then 1 else 2) l
    ∧ (l ≠ [] → ∃ w1, authentic sample_mac sample_text (_secret (Client.provider w1)) envelope
        ∧ jget "op" envelope = JStr "ping" ∧ jget "params" envelope = JObj []).
Proof.
  assert (∀ e b w, Client.sent (Client.transport e b w).1 = Client.sent w ++ [e]) as H1.
  { intros e b w. unfold Client.transport. by destruct (Client.failures w). }
  assert (∀ p w, Client.sent (Client.set_provider p w) = Client.sent w) as H2 by (intros p w; reflexivity).
  assert (∀ A (a : A), Keeps (same_log Client.sent) (mret a)) as H3 by (intros A a w; reflexivity).
  exact (request_is_one_message sample_mac sample_text Client.provider Client.set_provider Client.transport Positional
    (mret (flit 100)) (mret "0a1b") (mret false) Client.sent H1 H2
    "ping" [] (Client.start 1)).
Defined.

Lemma accepted_answer_is_authentic_witness :
  (Client.request "ping" (Client.start 1)).2 = Ok [("done", JBool true)]
  ∧ ∃ envelope given w1 w2 d,
    Client.transport envelope given w1 = (w2, Ok (Some (JObj d)))
    ∧ authentic sample_mac sample_text "secret" d
    ∧ jget "request_id" d = jget "request_id" envelope ∧ jget "status" d = JStr "ok".
Proof.
  split; [vm_compute; reflexivity|].
  destruct (accepted_answer_is_authentic sample_mac sample_text Client.provider Client.set_provider Client.transport
    Positional (mret (flit 100)) (mret "0a1b") (mret false)) with
    (op := "ping") (params := @nil (string * json)) (w := Client.start 1)
    (w' := (Client.request "ping" (Client.start 1)).1) (payload := [("done", JBool true)])
    as (_ & envelope & given & w1 & w2 & d & H1 & _ & _ & _ & H2 & _ & H3 & H4 & _).
  - reflexivity.
  - intros w. split; reflexivity.
  - intros w. split; reflexivity.
  - intros w. split; reflexivity.
  - intros e b w. unfold Client.transport. destruct (Client.failures w); split; reflexivity.
  - vm_compute. reflexivity.
  - exists envelope, given, w1, w2, d. split; [exact H1|]. split; [exact H2|]. split; [exact H3|exact H4].
Defined.

(** The readers of a snapshot raise [TypeError] and [ValueError], which the client does not
    translate: a payload of the wrong shape is not reported as an invalid one. *)
Lemma malformed_snapshot_escapes :
  (_node_snapshot sample_text (λ _, "") (λ d, Ok d) Client.provider
     (λ _ _, mret [("snapshot", JNull)]) (mret false) (Client.start 0)).2
    = raise TypeError "node snapshot must be an object"
  ∧ (component_summary sample_text (λ _, "") Client.provider
     (λ _ _, mret [("node_id", JStr "server"); ("resource", JNull)]) (mret false) "cpu" (Client.start 0)).2
    = raise TypeError "resource summary must be an object".
Proof. split; vm_compute; reflexivity. Qed.
