(* ===== verification/Listener.v ===== *)
(** * The listeners ([transport/server.py])

    A connection brings one document and takes one answer.  Pairing operations go to the
    handlers of the pairing listener, everything else to the service.  A listener runs a bounded
    number of connections at a time.  A message is the document it encodes; reading a frame and
    parsing it is an outcome given to the handler. *)

From S2P Require Import Prelude PyFloat Identity Sharing PyJson Wire.
Abbreviation dict := (list (string * json)) (only parsing).

Definition DEFAULT_MAX_ACTIVE_HANDLERS : nat := 8.

Definition pairing_operations : list string := ["pair_request"; "pair_confirm"; "pair_abort"; "elevation_request"].

(** A request some of whose fingerprints are not text: nothing checks their type. *)
Inductive Asked (R : Type) :=
  | Typed (r : R)
  | Untyped (raw : dict).
Arguments Typed {R} _.
Arguments Untyped {R} _.

(** What a listener is made of.  The service may answer with something that is not text
    ([None]), and may take the generation of the connection. *)
Module RemoteSocketListener.
Record t {W : Type} := mk {
  _service : json → option string → M W (option json);
  takes_generation : bool;
  _pairing_handler : option (Asked PairingRequest.t → M W json);
  _pair_confirm_handler : option (PairingControlRequest.t → M W bool);
  _pair_abort_handler : option (PairingControlRequest.t → M W bool);
  _elevation_handler : option (Asked CapabilityElevationRequest.t → M W bool);
  _allow_pairing : bool }.
Arguments t : clear implicits.
End RemoteSocketListener.
Import RemoteSocketListener(_service, takes_generation, _pairing_handler, _pair_confirm_handler, _pair_abort_handler, _elevation_handler, _allow_pairing).

(** ** The answers *)

Definition verdict (approved : bool) (error : option string) : dict :=
  [("approved", JBool approved); ("error", from_option JStr JNull error)].
Definition decided (approved : bool) : dict :=
  verdict approved (if approved then None else Some "denied").

(** [except (KeyError, TypeError, ValueError, RemoteProtocolError)] *)
Definition refused_by (e : exn) : bool := existsb (exn_isa e) [KeyError; TypeError; ValueError; RemoteProtocolError].

Definition node_id_of (v : json) : result NodeId :=
  s ← of_option (is_str v) ValueError "invalid node id"; NodeId.__post_init__ s.

Definition pair_required : list string :=
  ["op"; "pairing_mode"; "caller_node_id"; "identity_fingerprint"; "transport_fingerprint"; "secret"; "permissions"].
Definition pair_allowed : list string :=
  pair_required ++ ["root_public_key"; "transport_generation"; "transport_proof"; "intent"].
Definition elevation_required : list string :=
  ["op"; "caller_node_id"; "identity_fingerprint"; "transport_fingerprint"; "current_secret"; "secret"; "permissions"].

(** A list of texts *)
Definition texts_of (v : json) : option (list string) := is_list v ≫= all_str.

Definition secret_text (v : json) : result string :=
  of_option (is_str v) ValueError "peer credentials must be 256-bit hex text".

(** The request a document makes; whichever check fails first, the answer is the same. *)
Definition parse_pair_request (d : dict) (permissions : list string) (intent : string)
    : result (Asked PairingRequest.t) :=
  caller ← node_id_of (jget "caller_node_id" d);
  permissions ← parse_permissions permissions;
  secret ← secret_text (jget "secret" d);
  match jget "identity_fingerprint" d, jget "transport_fingerprint" d with
  | JStr identity, JStr transport =>
      r ← PairingRequest.__post_init__ (PairingRequest.mk caller identity transport secret permissions
            (is_str (jget "root_public_key" d)) (is_int (jget "transport_generation" d))
            (is_str (jget "transport_proof" d)) intent);
      Ok (Typed r)
  | identity, transport =>
      raise_if (negb (py_bool identity)) RemoteAuthError "pairing identity is missing";;
      raise_if (negb (py_bool transport)) RemoteAuthError "pairing transport fingerprint is missing";;
      _validate_secret secret;;
      raise_if (negb (bool_decide (permissions ⊆ READ_PERMISSIONS))) RemoteAuthorizationError
        "pairing is read-only";;
      Ok (Untyped d)
  end.

Definition parse_elevation_request (d : dict) (permissions : list string) : result (Asked CapabilityElevationRequest.t) :=
  caller ← node_id_of (jget "caller_node_id" d);
  permissions ← parse_permissions permissions;
  current ← secret_text (jget "current_secret" d);
  secret ← secret_text (jget "secret" d);
  match jget "identity_fingerprint" d, jget "transport_fingerprint" d with
  | JStr identity, JStr transport =>
      r ← CapabilityElevationRequest.__post_init__
            (CapabilityElevationRequest.mk caller identity transport current secret permissions);
      Ok (Typed r)
  | identity, transport =>
      raise_if (negb (py_bool identity)) RemoteAuthError "elevation identity is missing";;
      raise_if (negb (py_bool transport)) RemoteAuthError "elevation transport fingerprint is missing";;
      _validate_secret current;;
      _validate_secret secret;;
      raise_if (bool_decide (permissions = ∅)) RemoteAuthorizationError "elevation requires a permission";;
      Ok (Untyped d)
  end.

Section answers.
Context {W : Type}.

(** [except ...: return refusal] around a body *)
Definition or_refuse {A} (refusal : A) (m : M W A) : M W A :=
  attempt m (λ e, if refused_by e then mret refusal else throw (exn_cls e) (exn_msg e)).

Definition _pair_request_response (d : dict) (handler : option (Asked PairingRequest.t → M W json)) : M W dict :=
  match handler with
  | None => mret (verdict false (Some "pairing_unavailable"))
  | Some handler =>
      if negb (has_keys d pair_required) || negb (keys_within d pair_allowed)
         || negb (match jget "pairing_mode" d with JStr m => bool_decide (m = "transactional") | _ => false end)
      then mret (verdict false (Some "pairing_unavailable"))
      else
        match texts_of (jget "permissions" d) with
        | None => mret (verdict false (Some "invalid_pairing"))
        | Some permissions =>
            match jget_or "intent" (JStr "pair") d with
            | JStr intent =>
                if negb (bool_decide (intent ∈ ["pair"; "repair"]))
                then mret (verdict false (Some "invalid_pairing"))
                else
                  or_refuse (verdict false (Some "denied"))
                    (request ← lift (parse_pair_request d permissions intent);
                     outcome ← handler request;
                     mret match outcome with JObj answer => answer | _ => decided (py_bool outcome) end)
            | _ => mret (verdict false (Some "invalid_pairing"))
            end
        end
  end.

(** [clock] is [time.time()]. *)
Definition _pair_control_response (clock : M W float) (d : dict)
    (handler : option (PairingControlRequest.t → M W bool)) : M W dict :=
  match handler with
  | None => mret (verdict false (Some "pairing_unavailable"))
  | Some handler =>
      approved ← or_refuse false
        (now ← clock;
         request ← lift (validate_pairing_control_request (JObj d) now);
         handler request);
      mret (decided approved)
  end.

Definition _elevation_response (d : dict) (handler : option (Asked CapabilityElevationRequest.t → M W bool)) : M W dict :=
  match handler with
  | None => mret (verdict false (Some "elevation_unavailable"))
  | Some handler =>
      if negb (keys_exactly d elevation_required) then mret (verdict false (Some "elevation_unavailable"))
      else
        match texts_of (jget "permissions" d) with
        | None => mret (verdict false (Some "invalid_elevation"))
        | Some permissions =>
            approved ← or_refuse false
              (request ← lift (parse_elevation_request d permissions); handler request);
            mret (decided approved)
        end
  end.

(** ** One connection *)

Context (clock : M W float) (token_hex : M W string).

(** The operation of a document; one that is a list or an object cannot be looked up. *)
Definition operation_of (raw : json) : result (option string) :=
  match raw with
  | JObj d =>
      match jget "op" d with
      | JStr op => Ok (Some op)
      | JList _ | JObj _ => raise TypeError "unhashable type"
      | _ => Ok None
      end
  | _ => Ok None
  end.

Definition fields (raw : json) : dict := default [] (is_obj raw).

(** From the parsed document to the response. *)
Definition respond (self : RemoteSocketListener.t W) (raw : json) : M W json :=
  operation ← lift (operation_of raw);
  let asks op := bool_decide (operation = Some op) in
  throw_if (existsb asks pairing_operations && negb (_allow_pairing self)) RemoteProtocolError
    "pairing operation is not served on this listener";;
  if asks "pair_request"
  then answer ← _pair_request_response (fields raw) (_pairing_handler self); mret (JObj answer)
  else if asks "pair_confirm"
  then answer ← _pair_control_response clock (fields raw) (_pair_confirm_handler self); mret (JObj answer)
  else if asks "pair_abort"
  then answer ← _pair_control_response clock (fields raw) (_pair_abort_handler self); mret (JObj answer)
  else if asks "elevation_request"
  then answer ← _elevation_response (fields raw) (_elevation_handler self); mret (JObj answer)
  else
    generation ← token_hex;
    response ← _service self raw (if takes_generation self then Some generation else None);
    lift (of_option response RemoteProtocolError "service response must be text").

(** [Handler.handle]: a failure closes the connection and says nothing. *)
Definition handle (self : RemoteSocketListener.t W) (received : result json) (send : json → M W ()) : M W () :=
  attempt (raw ← lift received; response ← respond self raw; send response) (λ _, mret ()).

(** [PairingSocketServer]: the service it is given serves nothing. *)
Definition pairing_only_service (_ : json) (_ : option string) : M W (option json) :=
  throw RemoteProtocolError "operation is not served by pairing listener".

Definition pairing_server (pairing_handler : option (Asked PairingRequest.t → M W json))
    (confirm abort : option (PairingControlRequest.t → M W bool))
    (elevation : option (Asked CapabilityElevationRequest.t → M W bool)) : RemoteSocketListener.t W :=
  RemoteSocketListener.mk W pairing_only_service false pairing_handler confirm abort elevation true.

(** The listener of the service in the runtime: [allow_pairing=False], no handlers. *)
Definition service_server (service : json → option string → M W (option json)) : RemoteSocketListener.t W :=
  RemoteSocketListener.mk W service true None None None None false.
End answers.

(** ** Admission

    A semaphore of [max_active_handlers] permits: a connection takes one or is closed, and its
    handler gives it back when it ends. *)

Module Admission.
Record t := mk {
  limit : nat;
  taken : nat }.

Definition start (max_active_handlers : Z) : result t :=
  raise_if (max_active_handlers <? 1)%Z ValueError "max_active_handlers must be positive";;
  Ok (mk (Z.to_nat max_active_handlers) 0).

(** [acquire(blocking=False)] *)
Definition acquire : M t bool := λ s,
  if Nat.ltb (taken s) (limit s) then (mk (limit s) (S (taken s)), Ok true) else (s, Ok false).

(** [release()] of a [BoundedSemaphore] *)
Definition release : M t () := λ s,
  match taken s with
  | O => (s, raise ValueError "Semaphore released too many times")
  | S n => (mk (limit s) n, Ok ())
  end.

(** [process_request]: whether a handler was started; [started] says whether its thread could. *)
Definition process_request (started : result ()) : M t bool :=
  free ← acquire;
  if negb free then mret false
  else match started with
       | Ok _ => mret true
       | Err e => release;; throw (exn_cls e) (exn_msg e)
       end.

(** What happens to a listener: a connection arrives, or a handler that runs ends.  The sockets are
    not modelled: closing a connection, which [handle] does before it gives its permit back, is
    taken not to raise. *)
Inductive step : t * nat → t * nat → Prop :=
  | arrives s running started s' r : process_request started s = (s', r) →
      step (s, running) (s', match r with Ok true => S running | _ => running end)
  | ends s running s' r : release s = (s', r) → step (s, S running) (s', running).
End Admission.

(** ** Binding *)

Section binding.
Context (bind : Z → result Z).

(** The ports to try, in order. *)
Definition bind_candidates (port preferred_port : Z) : list Z :=
  if (0 <? preferred_port)%Z then [preferred_port; port] else [port].

Fixpoint bind_first (port preferred_port : Z) (candidates : list Z) : result (Z * option bool) :=
  match candidates with
  | [] => raise OSError "could not bind peer listener"
  | candidate :: rest =>
      match bind candidate with
      | Ok bound =>
          Ok (bound, if (0 <? preferred_port)%Z then Some (candidate =? preferred_port)%Z else None)
      | Err e =>
          if exn_isa e OSError
          then if (candidate =? port)%Z || (preferred_port =? 0)%Z then Err e
               else bind_first port preferred_port rest
          else Err e
      end
  end.

(** The bound port, and whether the preferred one was honoured. *)
Definition bind_listener (port preferred_port : Z) : result (Z * option bool) :=
  bind_first port preferred_port (bind_candidates port preferred_port).
End binding.
