(* ===== verification/DiscoverySpec.v ===== *)
(** * Discovery: the table is the view of the records, and its events tell all of it

    Every peer of the table is the merge of what its services were last seen with, never this
    node, and its routes can be tried; replaying the events rebuilds the table; a record that
    cannot be read changes nothing; what a node advertises is what its peers discover. *)

From stdpp Require Import pretty.
From S2P Require Import Prelude PyFloat Sharing PyJson Pairing Candidates Discovery.
Import DiscoveredNodeCandidate(stable_id, last_seen, addresses, port, endpoint_candidates, connectable).
Import NetworkDiscovery.

(** ** Lists *)

Lemma od_of_list_elem `{EqDecision K} {V} (l : list (K * V)) kv : kv ∈ od_of_list l → kv ∈ l.
Proof.
  induction l as [|[k v] l IH] using rev_ind; [done|]. rewrite od_of_list_snoc, elem_of_app, list_elem_of_singleton.
  intros [->|Hin]%od_set_elem; [by right|left; by apply IH].
Qed.

Lemma merged_addresses_elem l a : a ∈ merged_addresses l → ∃ c, c ∈ l ∧ a ∈ addresses c.
Proof.
  unfold merged_addresses. intros [[a' u] [-> Hin]]%list_elem_of_fmap. apply od_of_list_elem in Hin.
  apply list_elem_of_fmap in Hin as (b & [= <- _] & Hin). apply list_elem_of_bind in Hin as (c & ? & ?). by exists c.
Qed.

Lemma merged_endpoints_elem l e : e ∈ merged_endpoints l → ∃ c, c ∈ l ∧ e ∈ endpoint_candidates c.
Proof.
  unfold merged_endpoints. intros [[k e'] [-> Hin]]%list_elem_of_fmap. apply od_of_list_elem in Hin.
  apply list_elem_of_fmap in Hin as (b & [= _ <-] & Hin). apply list_elem_of_bind in Hin as (c & ? & ?). by exists c.
Qed.

Lemma latest_elem c l : latest c l ∈ c :: l.
Proof.
  revert c. induction l as [|o l IH]; intros c; simpl; [set_solver|].
  destruct (fltb (last_seen c) (last_seen o)); specialize (IH o) as H1; specialize (IH c) as H2; unfold latest in *; set_solver.
Qed.

(** ** Candidates that are complete *)

Section discovery.
Context (ip_address : string → option IPAddress) (inet_ntop : bool → string → option string).
Context (utf8_decode : string → string).
Notation discovered := (discovered ip_address).
Notation normalize := (_normalize ip_address inet_ntop utf8_decode).
Notation rebuild := (_rebuild_peer ip_address).
Notation merged := (merged ip_address).

(** The constructor leaves the candidate as it is. *)
Definition complete (c : DiscoveredNodeCandidate.t) : Prop :=
  endpoint_candidates c ≠ [] ∨ port c = None ∨ addresses c = [].

(** Its routes can be tried. *)
Record routable (c : DiscoveredNodeCandidate.t) : Prop := {
  routable_address : ∀ a, a ∈ addresses c → is_blank a = false;
  routable_port : ∀ p, port c = Some p → valid_port p = true;
  routable_endpoint : ∀ e, e ∈ endpoint_candidates c →
    is_blank (EndpointCandidate.address e) = false ∧ valid_port (EndpointCandidate.port e) = true;
  routable_connectable : connectable c = true → is_Some (port c) }.

Lemma discovered_complete c : complete c → discovered c = Ok c.
Proof.
  intros H. unfold Candidates.discovered. destruct (endpoint_candidates c) eqn:E; [|done].
  destruct (port c) eqn:Ep; [|done]. destruct H as [H|[H|H]]; [by rewrite E in H|congruence|].
  rewrite H. simpl. f_equal. destruct c. simpl in *. by subst.
Qed.

Lemma from_source_Ok a p s : is_blank a = false → valid_port p = true →
  EndpointCandidate.from_source a p s = Ok (EndpointCandidate.mk a p s "validated" 0 None None).
Proof.
  intros Ha Hp. unfold EndpointCandidate.from_source, EndpointCandidate.__post_init__. simpl.
  rewrite Ha. unfold valid_port in Hp. by rewrite Hp.
Qed.

(** The constructor of a routable candidate returns, and what it returns is complete. *)
Lemma discovered_total c : routable c → ∃ c', discovered c = Ok c' ∧ complete c' ∧ routable c' ∧
  c' = DiscoveredNodeCandidate.with_endpoints c (endpoint_candidates c').
Proof.
  intros H. assert (Hself : complete c → ∃ c', discovered c = Ok c' ∧ complete c' ∧ routable c' ∧
    c' = DiscoveredNodeCandidate.with_endpoints c (endpoint_candidates c')).
  { intros Hc. exists c. split; [by apply discovered_complete|]. split; [done|]. split; [done|]. by destruct c. }
  destruct (decide (endpoint_candidates c = [])) as [E|E]; [|by apply Hself; left].
  destruct (port c) as [p|] eqn:Ep; [|by apply Hself; right; left]. clear Hself.
  set (g a := EndpointCandidate.mk a p (endpoint_source ip_address a) "validated" 0 None None).
  assert (Hg : mapM (λ a, EndpointCandidate.from_source a p (endpoint_source ip_address a)) (addresses c)
               = Ok (g <$> addresses c)).
  { apply mapM_Ok. intros a Ha. apply from_source_Ok; by eapply H. }
  unfold Candidates.discovered. rewrite E, Ep, Hg. simpl. eexists. split; [done|]. split; [|split; [|done]].
  - destruct (addresses c) eqn:Ea; [by right; right|by left].
  - split; simpl; try apply H. intros e [a [-> Hin]]%list_elem_of_fmap. simpl. split; by eapply H.
Qed.

Lemma with_routes_routable c l : Forall routable (c :: l) →
  routable (with_routes (latest c l) (merged_addresses (c :: l)) (merged_endpoints (c :: l))).
Proof.
  rewrite Forall_forall. intros H. pose proof (H _ (latest_elem c l)) as Hl. split; simpl.
  - intros a (o & Ho & ?)%merged_addresses_elem. by eapply (routable_address _ (H o Ho)).
  - apply Hl.
  - intros e (o & Ho & ?)%merged_endpoints_elem. by eapply (routable_endpoint _ (H o Ho)).
  - apply Hl.
Qed.

Lemma merged_total c l : Forall routable (c :: l) → ∃ u, merged c l = Ok u ∧ complete u ∧ routable u ∧
  stable_id u = stable_id (latest c l) ∧ last_seen u = last_seen (latest c l).
Proof.
  intros H. destruct (discovered_total _ (with_routes_routable c l H)) as (u & Hu & Hc & Hr & E).
  exists u. split; [done|]. split; [done|]. split; [done|]. by rewrite E.
Qed.

(** ** What the table holds *)

(** A record that is kept: a routable peer, known by its service, and not this node. *)
Record observed (s : t) (name : string) (c : DiscoveredNodeCandidate.t) : Prop := {
  observed_routable : routable c;
  observed_node : _service_nodes s !! name = Some (stable_id c);
  observed_id : stable_id c ≠ "" ∧ stable_id c ≠ _local_node_id s }.

(** An entry of the table: a complete peer under its identity, not this node. *)
Record peer (s : t) (id : string) (r : PeerRecord.t) : Prop := {
  peer_routable : routable (PeerRecord.candidate r);
  peer_complete : complete (PeerRecord.candidate r);
  peer_id : stable_id (PeerRecord.candidate r) = id;
  peer_other : id ≠ "" ∧ id ≠ _local_node_id s;
  peer_seen : PeerRecord.last_seen r = last_seen (PeerRecord.candidate r) }.

Record sound (s : t) : Prop := {
  sound_services : ∀ name c, (name, c) ∈ _service_candidates s → observed s name c;
  sound_peers : ∀ id r, od_get id (_peers s) = Some r → peer s id r;
  sound_unique : NoDup (_peers s).*1 ∧ NoDup (_service_candidates s).*1 }.

Lemma sound_set_peers s p : sound s → NoDup p.*1 →
  (∀ id r, od_get id p = Some r → peer s id r) → sound (set_peers s p).
Proof.
  intros Hs Hn Hp. split; simpl; [|intros id r Hr; by destruct (Hp id r Hr)|split; [done|apply Hs]].
  intros name c Hin. by destruct (sound_services _ Hs _ _ Hin).
Qed.

(** The merge of what is observed of a node. *)
Definition merge_of (s : t) (id : string) (r : PeerRecord.t) : Prop :=
  ∃ c l, observations s id = c :: l ∧ merged c l = Ok (PeerRecord.candidate r).

(** The table, without the times. *)
Definition view (s : t) : gmap string DiscoveredNodeCandidate.t :=
  list_to_map ((λ kr, (kr.1, seen_at (PeerRecord.candidate kr.2) (flit 0))) <$> _peers s).

(** What a listener keeps of the events. *)
Definition heard (m : gmap string DiscoveredNodeCandidate.t) (e : EventKind) : gmap string DiscoveredNodeCandidate.t :=
  match e with
  | EVENT_CANDIDATE c => <[stable_id c := seen_at c (flit 0)]> m
  | EVENT_LOST id => delete id m
  end.

Lemma view_lookup s id : view s !! id = (λ r, seen_at (PeerRecord.candidate r) (flit 0)) <$> od_get id (_peers s).
Proof.
  unfold view. induction (_peers s) as [|[j r] d IH]; [done|]. simpl. case_decide as E; subst.
  - by rewrite lookup_insert_eq.
  - by rewrite lookup_insert_ne.
Qed.

Lemma observations_elem s id c : c ∈ observations s id → ∃ name, (name, c) ∈ _service_candidates s ∧
  _service_nodes s !! name = Some id.
Proof.
  unfold observations. intros [[name c'] [-> [Hn Hin]%elem_of_lfilter]]%list_elem_of_fmap. simpl in *.
  apply bool_decide_eq_true in Hn. by exists name.
Qed.

Lemma observations_sound s id c l : sound s → observations s id = c :: l →
  Forall routable (c :: l) ∧ stable_id (latest c l) = id ∧ id ≠ "" ∧ id ≠ _local_node_id s.
Proof.
  intros Hs E. assert (H : ∀ o, o ∈ c :: l → routable o ∧ stable_id o = id ∧ id ≠ "" ∧ id ≠ _local_node_id s).
  { intros o Ho. rewrite <- E in Ho. apply observations_elem in Ho as (name & Hin & Hn).
    destruct (sound_services _ Hs _ _ Hin) as [? Hn' ?]. rewrite Hn in Hn'. by simplify_eq. }
  split; [apply Forall_forall; intros; by apply H|]. apply (H (latest c l)), latest_elem.
Qed.

(** ** Rebuilding one peer *)

(** What may be told of a peer. *)
Definition announced (local : string) (e : EventKind) : Prop :=
  match e with
  | EVENT_CANDIDATE c => routable c ∧ complete c ∧ stable_id c ≠ "" ∧ stable_id c ≠ local
  | EVENT_LOST _ => True
  end.

(** A step that replaced the record of one node, and told it. *)
Record rebuilt (id : string) (s s' : t) (events : list EventKind) : Prop := {
  rebuilt_sound : sound s';
  rebuilt_rest : s' = set_peers s (_peers s');
  rebuilt_told : view s' = foldl heard (view s) events ∧ Forall (announced (_local_node_id s)) events;
  rebuilt_merge : ∀ r, od_get id (_peers s') = Some r → merge_of s' id r;
  rebuilt_kept : ∀ j, j ≠ id → od_get j (_peers s') = od_get j (_peers s) }.

Lemma drop_run s id : sound s → ∃ s' events, _drop_peer id s = (s', Ok events) ∧
  od_get id (_peers s') = None ∧ rebuilt id s s' events.
Proof.
  intros Hs. unfold _drop_peer, od_mem. destruct (od_get id (_peers s)) as [r|] eqn:Er.
  - eexists _, _. split; [done|]. split; [apply od_get_pop_eq|]. split; simpl; [..|by rewrite od_get_pop_eq|].
    + apply sound_set_peers; [done|apply od_pop_NoDup, Hs|].
      intros j r'. rewrite od_get_pop. case_decide; [done|]. apply Hs.
    + done.
    + split; [|by repeat constructor]. apply map_eq. intros j. rewrite view_lookup. simpl. rewrite od_get_pop. case_decide; subst.
      * by rewrite lookup_delete_eq.
      * by rewrite lookup_delete_ne, view_lookup.
    + intros j Hj. by rewrite od_get_pop_ne.
  - exists s, []. split; [done|]. split; [done|]. split; [done|by destruct s|by split|by rewrite Er|done].
Qed.

Lemma sound_put s id r : sound s → peer s id r → sound (set_peers s (od_set id r (_peers s))).
Proof.
  intros Hs Hr. apply sound_set_peers; [done|apply od_set_NoDup, Hs|].
  intros j r'. rewrite od_get_set. case_decide; [intros; by simplify_eq|]. apply Hs.
Qed.

Lemma complete_seen_at c now : complete c → discovered (seen_at c now) = Ok (seen_at c now).
Proof. intros H. by apply discovered_complete. Qed.

Lemma view_put s id r : view (set_peers s (od_set id r (_peers s))) = <[id := seen_at (PeerRecord.candidate r) (flit 0)]> (view s).
Proof.
  apply map_eq. intros j. rewrite view_lookup. simpl. rewrite od_get_set. case_decide; subst.
  - by rewrite lookup_insert_eq.
  - by rewrite lookup_insert_ne, view_lookup.
Qed.

Lemma rebuild_run s id : sound s → ∃ s' events, rebuild id s = (s', Ok events) ∧ rebuilt id s s' events ∧
  (observations s id ≠ [] → is_Some (od_get id (_peers s'))).
Proof.
  intros Hs. unfold _rebuild_peer. destruct (observations s id) as [|c l] eqn:Eo.
  { destruct (drop_run s id Hs) as (s' & ev & ? & ? & ?). exists s', ev. split; [done|]. split; [done|congruence]. }
  destruct (observations_sound _ _ _ _ Hs Eo) as (Hf & Hid & Hother).
  destruct (merged_total c l Hf) as (u & Hu & Hc & Hr & Eid & Eseen). rewrite Hu.
  set (r := PeerRecord.mk u (last_seen (latest c l))).
  assert (Hp : peer s id r) by (split; simpl; try done; congruence).
  assert (Hput : ∀ events, view (set_peers s (od_set id r (_peers s))) = foldl heard (view s) events →
                 Forall (announced (_local_node_id s)) events →
                 rebuilt id s (set_peers s (od_set id r (_peers s))) events ∧
                 (c :: l ≠ [] → is_Some (od_get id (_peers (set_peers s (od_set id r (_peers s))))))).
  { intros events Hv Ha. split; [|simpl; by rewrite od_get_set_eq].
    split; [by apply sound_put|done|done|..]; simpl.
    - intros r'. rewrite od_get_set_eq. intros [= <-]. by exists c, l.
    - intros j Hj. by rewrite od_get_set_ne. }
  assert (Ht : view (set_peers s (od_set id r (_peers s))) = heard (view s) (EVENT_CANDIDATE u)).
  { rewrite view_put. simpl. by rewrite Eid, Hid. }
  assert (Ha : Forall (announced (_local_node_id s)) [EVENT_CANDIDATE u]).
  { apply Forall_singleton. destruct Hp; simpl in *. naive_solver congruence. }
  destruct (od_get id (_peers s)) as [old|] eqn:Eold; [|eexists _, _; split; [done|by apply Hput]].
  rewrite complete_seen_at by apply (sound_peers _ Hs _ _ Eold).
  eexists _, _. split; [done|]. apply Hput; case_bool_decide as E; try done.
  rewrite view_put. simpl. apply insert_id. rewrite view_lookup, Eold. simpl. by rewrite <- E.
Qed.

(** ** A record replaced, a record removed *)

(** Each entry is the merge of what is observed. *)
Definition coherent (s : t) : Prop := ∀ id r, od_get id (_peers s) = Some r → merge_of s id r.

Lemma filter_od_set {V} (f f' : string * V → bool) k v (d : list (string * V)) :
  (∀ kv, kv.1 ≠ k → f' kv = f kv) → (∀ v, (k, v) ∈ d → f (k, v) = false) → (∀ v, f' (k, v) = false) →
  List.filter f' (od_set k v d) = List.filter f d.
Proof.
  intros Ho Hk Hk'. induction d as [|[j w] d IH]; simpl; [by rewrite Hk'|]. case_decide as E; subst; simpl.
  - rewrite Hk', (Hk w) by set_solver. clear IH. assert (Hd : ∀ v, (j, v) ∈ d → f (j, v) = false) by set_solver.
    clear Hk. induction d as [|[i x] d IH]; [done|]. simpl. rewrite IH by set_solver.
    destruct (decide (i = j)) as [->|Hne]; [by rewrite Hk', Hd by set_solver|by rewrite Ho].
  - rewrite IH by set_solver. by rewrite (Ho (j, w)).
Qed.

Lemma filter_od_pop {V} (f f' : string * V → bool) k (d : list (string * V)) :
  (∀ kv, kv.1 ≠ k → f' kv = f kv) → (∀ v, (k, v) ∈ d → f (k, v) = false) →
  List.filter f' (od_pop k d) = List.filter f d.
Proof.
  intros Ho Hk. induction d as [|[j w] d IH]; [done|]. unfold od_pop in *. simpl. case_bool_decide as E; subst; simpl.
  - rewrite IH by set_solver. by rewrite Hk by set_solver.
  - rewrite IH by set_solver. by rewrite (Ho (j, w)).
Qed.

(** Other nodes are observed as before. *)
Lemma observations_set s name id c j : id ≠ j →
  (∀ o, (name, o) ∈ _service_candidates s → _service_nodes s !! name ≠ Some j) →
  observations (set_services s (<[name := id]> (_service_nodes s)) (od_set name c (_service_candidates s))) j
  = observations s j.
Proof.
  intros Hj Hn. unfold observations. simpl. f_equal. apply filter_od_set; simpl.
  - intros [n o] Hne. simpl in *. by rewrite lookup_insert_ne.
  - intros o Hin. apply bool_decide_eq_false_2. by apply Hn in Hin.
  - intros o. rewrite lookup_insert_eq. apply bool_decide_eq_false_2. congruence.
Qed.

Lemma observations_pop s name m j : (∀ n, n ≠ name → m !! n = _service_nodes s !! n) →
  _service_nodes s !! name ≠ Some j →
  observations (set_services s m (od_pop name (_service_candidates s))) j = observations s j.
Proof.
  intros Hm Hn. unfold observations. simpl. f_equal. apply filter_od_pop; simpl.
  - intros [n o] Hne. simpl in *. by rewrite Hm.
  - intros o _. by apply bool_decide_eq_false_2.
Qed.

Lemma merge_of_same s s' id r : observations s' id = observations s id → merge_of s id r → merge_of s' id r.
Proof. unfold merge_of. by intros ->. Qed.

Lemma rebuilt_merge_of id s s' events j r : rebuilt id s s' events → merge_of s j r → merge_of s' j r.
Proof. intros H. apply merge_of_same. by rewrite (rebuilt_rest _ _ _ _ H). Qed.

(** Every node that is observed has an entry, but for those in [X]. *)
Definition present (X : string → Prop) (s : t) : Prop :=
  ∀ id, ¬ X id → observations s id ≠ [] → is_Some (od_get id (_peers s)).
Definition nobody (id : string) : Prop := False.

Lemma rebuilt_present X id s s' events : rebuilt id s s' events →
  (observations s id ≠ [] → is_Some (od_get id (_peers s'))) →
  present (λ j, X j ∨ j = id) s → present X s'.
Proof.
  intros H Hid Hp j Hx. rewrite (rebuilt_rest _ _ _ _ H). intros Ho.
  destruct (decide (j = id)) as [->|Hne]; [by apply Hid|]. simpl. rewrite (rebuilt_kept _ _ _ _ H) by done.
  apply Hp; [by intros [?|?]|done].
Qed.

(** An operation on the table: sound, coherent, and told. *)
Record tells (s s' : t) (events : list EventKind) : Prop := {
  tells_sound : sound s';
  tells_coherent : coherent s';
  tells_view : view s' = foldl heard (view s) events;
  tells_announced : Forall (announced (_local_node_id s)) events;
  tells_config : _local_node_id s' = _local_node_id s ∧ _active s' = _active s }.

Lemma tells_refl s : sound s → coherent s → tells s s [].
Proof. by split. Qed.

Lemma sound_pop s name m : sound s → (∀ n, n ≠ name → m !! n = _service_nodes s !! n) →
  sound (set_services s m (od_pop name (_service_candidates s))).
Proof.
  intros Hs Hm. split; simpl; [| |split; [apply Hs|apply od_pop_NoDup, Hs]].
  - intros n c [Hin Hne]%od_pop_elem. destruct (sound_services _ Hs _ _ Hin). split; simpl; [done| |done].
    by rewrite Hm.
  - intros id r Hr. by destruct (sound_peers _ Hs _ _ Hr).
Qed.

Lemma sound_put_service s name c : sound s → routable c → stable_id c ≠ "" → stable_id c ≠ _local_node_id s →
  sound (set_services s (<[name := stable_id c]> (_service_nodes s)) (od_set name c (_service_candidates s))).
Proof.
  intros Hs Hr Hid Hl. split; simpl; [| |split; [apply Hs|apply od_set_NoDup, Hs]].
  - intros n o Hin. assert (Hn : NoDup (od_set name c (_service_candidates s)).*1) by apply od_set_NoDup, Hs.
    pose proof (od_elem_get _ _ _ Hn Hin) as Hg. rewrite od_get_set in Hg. case_decide as E; simplify_eq.
    + split; simpl; [done| |done]. by rewrite lookup_insert_eq.
    + apply od_get_elem in Hg. destruct (sound_services _ Hs _ _ Hg). split; simpl; [done| |done].
      by rewrite lookup_insert_ne.
  - intros id r Hg. by destruct (sound_peers _ Hs _ _ Hg).
Qed.

Lemma remove_run s name : sound s → coherent s →
  ∃ s' events, remove_service ip_address name s = (s', Ok events) ∧ tells s s' events ∧
    (present nobody s → present nobody s').
Proof.
  intros Hs Hc. unfold remove_service. rewrite !M_bind_run. cbv beta iota.
  set (s1 := set_services s (delete name (_service_nodes s)) (od_pop name (_service_candidates s))).
  assert (Hm : ∀ n, n ≠ name → delete name (_service_nodes s) !! n = _service_nodes s !! n)
    by (intros; by rewrite lookup_delete_ne).
  assert (Hs1 : sound s1) by (by apply sound_pop).
  assert (Hk : ∀ j r, _service_nodes s !! name ≠ Some j → od_get j (_peers s) = Some r → merge_of s1 j r).
  { intros j r Hne Hr. eapply merge_of_same; [|by apply Hc]. by apply observations_pop. }
  destruct (_service_nodes s !! name) as [id|] eqn:En.
  - destruct (rebuild_run s1 id Hs1) as (s2 & ev & -> & H & Hid). exists s2, ev. split; [done|].
    pose proof (rebuilt_rest _ _ _ _ H) as E. split; [split; [apply H| |apply H|apply H|by rewrite E]|].
    + intros j r Hr. destruct (decide (j = id)) as [->|Hne]; [by eapply rebuilt_merge|].
      eapply rebuilt_merge_of; [done|]. apply Hk; [congruence|]. by rewrite (rebuilt_kept _ _ _ _ H) in Hr.
    + intros Hp. eapply rebuilt_present; [done..|]. intros j Hj. unfold s1. rewrite observations_pop; [|done|].
      * apply Hp. tauto.
      * rewrite En. intros [= ->]. tauto.
  - exists s1, []. split; [done|]. split; [split; [done| |done|constructor|done]|]; [intros j r Hr; by apply Hk|].
    intros Hp j Hj. unfold s1. rewrite observations_pop by (done || by rewrite En). by apply Hp.
Qed.

(** The new record is put in place, and its node rebuilt; [before] was told already. *)
Lemma put_run s name c : sound s → routable c → stable_id c ≠ "" → stable_id c ≠ _local_node_id s →
  (∀ j r, j ≠ stable_id c → od_get j (_peers s) = Some r → merge_of s j r) →
  (∀ j o, j ≠ stable_id c → (name, o) ∈ _service_candidates s → _service_nodes s !! name ≠ Some j) →
  ∃ s' events,
    rebuild (stable_id c) (set_services s (<[name := stable_id c]> (_service_nodes s))
                             (od_set name c (_service_candidates s))) = (s', Ok events) ∧
    tells s s' events ∧ (present nobody s → present nobody s').
Proof.
  intros Hs Hr Hid Hl Hk Hn. pose proof (sound_put_service s name c Hs Hr Hid Hl) as Hs1.
  destruct (rebuild_run _ (stable_id c) Hs1) as (s2 & ev & -> & H & Hfull). exists s2, ev. split; [done|].
  pose proof (rebuilt_rest _ _ _ _ H) as E. split; [split; [apply H| |apply H|apply H|by rewrite E]|].
  - intros j r Hg. destruct (decide (j = stable_id c)) as [->|Hne]; [by eapply rebuilt_merge|].
    eapply rebuilt_merge_of; [done|]. rewrite (rebuilt_kept _ _ _ _ H) in Hg by done. simpl in Hg.
    eapply merge_of_same; [|by apply Hk]. apply observations_set; [done|by intros o; apply Hn].
  - intros Hp. eapply rebuilt_present; [done..|]. intros j Hj. unfold nobody in Hj.
    rewrite observations_set; [apply Hp; tauto| |intros o; apply Hn]; intros ?; subst; tauto.
Qed.

Lemma observe_run s name c : sound s → coherent s → routable c → stable_id c ≠ "" → stable_id c ≠ _local_node_id s →
  ∃ s' events, observe_service ip_address name c s = (s', Ok events) ∧ tells s s' events ∧
    (present nobody s → present nobody s').
Proof.
  intros Hs Hc Hr Hid Hl. unfold observe_service. rewrite M_bind_run. cbv beta iota. rewrite M_bind_run.
  assert (Hsame : _service_nodes s !! name = None ∨ _service_nodes s !! name = Some (stable_id c) →
    ∃ s' events, rebuild (stable_id c) (set_services s (<[name := stable_id c]> (_service_nodes s))
       (od_set name c (_service_candidates s))) = (s', Ok events) ∧ tells s s' events ∧
       (present nobody s → present nobody s')).
  { intros Hn. apply put_run; try done; [intros; by apply Hc|]. intros j o Hj _ E. destruct Hn; congruence. }
  destruct (_service_nodes s !! name) as [old|] eqn:En; [case_bool_decide as Eo; [subst old|]|].
  - destruct (Hsame (or_intror eq_refl)) as (s' & ev & Hrun & Ht). exists s', ev. split; [|done].
    unfold mret, M_ret. cbv beta iota. rewrite M_bind_run. cbv beta iota. by rewrite M_bind_run, Hrun.
  - rewrite M_bind_run. cbv beta iota. set (s1 := set_services s (_service_nodes s) (od_pop name (_service_candidates s))).
    assert (Hs1 : sound s1) by (by apply sound_pop).
    destruct (rebuild_run s1 old Hs1) as (s2 & ev & -> & H & Hfull). pose proof (rebuilt_rest _ _ _ _ H) as E.
    assert (Hno : ∀ o, (name, o) ∈ _service_candidates s2 → False).
    { intros o. rewrite E. simpl. intros [_ ?]%od_pop_elem. by simpl in *. }
    destruct (put_run s2 name c) as (s3 & ev' & Hrun & Ht & Hp'); [apply H|done|done|by rewrite E|..].
    + intros j r Hj Hg. destruct (decide (j = old)) as [->|Hne]; [by eapply rebuilt_merge|].
      eapply rebuilt_merge_of; [done|]. eapply merge_of_same; [apply observations_pop; congruence|].
      apply Hc. by rewrite (rebuilt_kept _ _ _ _ H) in Hg.
    + intros j o _ Hin. by apply Hno in Hin.
    + exists s3, (ev ++ ev'). rewrite M_bind_run. cbv beta iota. rewrite M_bind_run, Hrun. split; [done|]. split.
      { split; [apply Ht|apply Ht| |apply Forall_app; split; [apply H|]; rewrite E in Ht; apply Ht|rewrite E in Ht; apply Ht].
        rewrite (tells_view _ _ _ Ht), (proj1 (rebuilt_told _ _ _ _ H)). by rewrite foldl_app. }
      intros Hp. apply Hp'. eapply rebuilt_present; [done..|]. intros j Hj. unfold nobody in Hj.
      unfold s1. rewrite observations_pop; [apply Hp; tauto|done|]. rewrite En. intros [= ->]. tauto.
  - destruct (Hsame (or_introl eq_refl)) as (s' & ev & Hrun & Ht). exists s', ev. split; [|done].
    unfold mret, M_ret. cbv beta iota. rewrite M_bind_run. cbv beta iota. by rewrite M_bind_run, Hrun.
Qed.

Lemma drop_each_run nodes s : sound s → coherent s → ∃ s' events, drop_each nodes s = (s', Ok events) ∧ tells s s' events.
Proof.
  revert s. induction nodes as [|id nodes IH]; intros s Hs Hc; [exists s, []; split; [done|by apply tells_refl]|].
  cbn [drop_each]. rewrite M_bind_run. destruct (drop_run s id Hs) as (s1 & ev & -> & Hnone & H).
  pose proof (rebuilt_rest _ _ _ _ H) as E. assert (Hc1 : coherent s1).
  { intros j r Hg. destruct (decide (j = id)) as [->|Hne]; [congruence|]. eapply rebuilt_merge_of; [done|].
    apply Hc. by rewrite (rebuilt_kept _ _ _ _ H) in Hg. }
  destruct (IH s1 (rebuilt_sound _ _ _ _ H) Hc1) as (s2 & ev' & Hrun & Ht). exists s2, (ev ++ ev').
  rewrite M_bind_run, Hrun. split; [done|].
  split; [apply Ht|apply Ht| |apply Forall_app; split; [apply H|]; rewrite E in Ht; apply Ht|rewrite E in Ht; apply Ht].
  by rewrite (tells_view _ _ _ Ht), (proj1 (rebuilt_told _ _ _ _ H)), foldl_app.
Qed.

(** ** What a record becomes *)

(** [socket.inet_ntop] answers a text that is not blank. *)
Context (inet_ntop_text : ∀ v6 packed text, inet_ntop v6 packed = Some text → is_blank text = false).

Lemma lstrip_head l c l' : lstrip l = c :: l' → is_space c = false.
Proof. induction l as [|a l IH]; simpl; [done|]. destruct (is_space a) eqn:E; [done|]. by intros [= <- _]. Qed.

Lemma strip_blank s : strip s ≠ "" → is_blank (strip s) = false.
Proof.
  unfold strip, is_blank. set (l := lstrip (reverse (lstrip (String.list_ascii_of_string s)))).
  rewrite String.list_ascii_of_string_of_list_ascii. destruct l as [|c l'] eqn:E; [done|]. intros _.
  apply lstrip_head in E. apply not_true_iff_false. rewrite forallb_forall. intros H.
  rewrite (H c) in E; [done|]. apply list_elem_of_In. set_solver.
Qed.

Lemma address_text_blank a text : _address_text inet_ntop a = Some text → is_blank text = false.
Proof.
  destruct a as [s|packed|]; simpl; [|repeat case_match; try done; eauto|done].
  unfold truthy. case_bool_decide; [done|]. intros [= <-]. by apply strip_blank.
Qed.

Lemma first_seen_elem seen l text : text ∈ first_seen inet_ntop seen l → is_blank text = false.
Proof.
  revert seen. induction l as [|a l IH]; intros seen; simpl; [set_solver|].
  destruct (_address_text inet_ntop a) eqn:E; [|apply IH]. case_bool_decide; [apply IH|].
  intros [->|Hin]%elem_of_cons; [by apply address_text_blank in E|by eapply IH].
Qed.

Lemma service_addresses_blank info text : text ∈ _service_address_texts inet_ntop info → is_blank text = false.
Proof.
  assert (H : ∀ a, text ∈ _address_texts inet_ntop a → is_blank text = false).
  { intros a. unfold _address_texts. destruct (negb (has_addresses a)); [set_solver|].
    destruct a; try apply first_seen_elem. set_solver. }
  unfold _service_address_texts. repeat case_match; simplify_eq; try apply H; eauto.
Qed.

Lemma truthy_nonempty o s : truthy o = Some s → s ≠ "".
Proof. unfold truthy. destruct o; [|done]. case_bool_decide; naive_solver. Qed.

(** A candidate made of a record is routable and another node. *)
Lemma normalize_candidate s name info now c : normalize s name info now = Ok (Some c) →
  routable c ∧ stable_id c ≠ "" ∧ stable_id c ≠ _local_node_id s.
Proof.
  unfold _normalize. destruct (_node_id_for_service s name); [|done].
  set (props := _property_map utf8_decode info). destruct (truthy (od_get "id" props)) as [id|] eqn:Hid; [|done].
  case_bool_decide as Hl; [done|]. intros H. repeat res_step.
  match goal with H : Some <$> ?r = Ok _ |- _ => destruct r as [c'|] eqn:Hd; [|done]; injection H as -> end.
  assert (Hid' : id ≠ "") by (by eapply truthy_nonempty).
  set (raw := DiscoveredNodeCandidate.mk _ _ _ _ _ _ _ _ _ _ _ _ _ _ _ _ _ _) in Hd.
  assert (Hr : routable raw).
  { split; simpl; [apply service_addresses_blank|..|set_solver|].
    - intros p. unfold service_port. repeat case_match; naive_solver.
    - intros [_ ?%bool_decide_eq_true]%andb_true_iff. done. }
  destruct (discovered_total raw Hr) as (c' & Hd' & _ & Hc' & E). rewrite Hd' in Hd. injection Hd as ->.
  split; [done|]. by rewrite E.
Qed.

(** ** Histories *)

Inductive call :=
  | Event (event : event_name) (service_name : option string) (info : ServiceInfo.t) (now : float)
  | Expire (now : float).

Definition run (o : call) : M t (list EventKind) :=
  match o with
  | Event e name info now => _handle_transport_event_locked ip_address inet_ntop utf8_decode e name info now
  | Expire now => expire_stale now
  end.

(** The table after a history, and all that was told. *)
Definition history (s : t) (calls : list call) : t * list EventKind :=
  foldl (λ st o, let '(s', r) := run o st.1 in (s', st.2 ++ match r with Ok events => events | Err _ => [] end))
    (s, []) calls.

(** A text of digits that [int] does not read. *)
Definition unreadable (raw : option string) : Prop :=
  ∃ text, raw = Some text ∧ isdigit text = true ∧ int_of_text text = raise ValueError "invalid literal for int()".

Lemma isdecimal_isdigit s : isdecimal s = true → isdigit s = true.
Proof.
  unfold isdecimal, isdigit, every. rewrite !andb_true_iff, !forallb_forall. intros [? H]. split; [done|].
  intros c Hc. by rewrite (H c Hc).
Qed.

Lemma int_of_text_Err text e : int_of_text text = Err e → int_of_text text = raise ValueError "invalid literal for int()".
Proof. unfold int_of_text. by case_match. Qed.

Lemma normalize_Err s name info now e : normalize s name info now = Err e →
  e = Exn ValueError "invalid literal for int()" ∧
  (unreadable (od_get "transport_generation" (_property_map utf8_decode info)) ∨
   unreadable (od_get "pairing_port" (_property_map utf8_decode info))).
Proof.
  unfold _normalize. destruct (_node_id_for_service s name); [|done].
  set (props := _property_map utf8_decode info). destruct (truthy (od_get "id" props)) as [id|] eqn:Hid; [|done].
  case_bool_decide as Hl; [done|].
  destruct (parse_generation (od_get "transport_generation" props)) as [g|e'] eqn:Hg.
  2:{ intros [= <-]. unfold parse_generation in Hg. destruct (od_get "transport_generation" props) as [raw|]; [|done].
      destruct (isdigit raw) eqn:Hd; [|done]. destruct (int_of_text raw) as [|e''] eqn:Hi; [done|]. injection Hg as <-.
      pose proof (int_of_text_Err _ _ Hi) as E. rewrite Hi in E. injection E as ->. split; [done|]. left. by exists raw. }
  destruct (parse_pairing_port (od_get "pairing_port" props)) as [p|e'] eqn:Hp.
  2:{ intros [= <-]. unfold parse_pairing_port in Hp. destruct (od_get "pairing_port" props) as [raw|]; [|done].
      destruct (is_ascii raw && isdecimal raw) eqn:Hd; [|done]. destruct (int_of_text raw) as [|e''] eqn:Hi; [done|].
      injection Hp as <-. pose proof (int_of_text_Err _ _ Hi) as E. rewrite Hi in E. injection E as ->.
      split; [done|]. right. exists raw. apply andb_true_iff in Hd as [_ Hd%isdecimal_isdigit]. done. }
  cbn [mbind result_bind]. set (raw := DiscoveredNodeCandidate.mk _ _ _ _ _ _ _ _ _ _ _ _ _ _ _ _ _ _).
  destruct (discovered_total raw) as (c' & -> & _); [|done]. split; simpl; [apply service_addresses_blank|..|set_solver|].
  - intros q. unfold service_port. repeat case_match; naive_solver.
  - intros [_ ?%bool_decide_eq_true]%andb_true_iff. done.
Qed.

(** One call: it tells what it does, or it raises and changes nothing. *)
Definition settled (o : call) (s s' : t) (r : result (list EventKind)) : Prop :=
  match r with
  | Ok events => tells s s' events ∧ ((∀ now, o ≠ Expire now) → present nobody s → present nobody s')
  | Err e => s' = s ∧ ∃ event name info now, o = Event event (Some name) info now ∧ normalize s name info now = Err e
  end.

Lemma settled_skip o s : sound s → coherent s → settled o s s (Ok []).
Proof. intros Hs Hc. split; [by apply tells_refl|done]. Qed.

Lemma settled_record event name info now s : sound s → coherent s → ∃ s' r,
  match normalize s name info now with
  | Ok (Some candidate) => observe_service ip_address name candidate s
  | Ok None => (s, Ok [])
  | Err e => (s, Err e)
  end = (s', r) ∧ settled (Event event (Some name) info now) s s' r.
Proof.
  intros Hs Hc. destruct (normalize s name info now) as [[c|]|e] eqn:En.
  - apply normalize_candidate in En as (? & ? & ?). destruct (observe_run s name c) as (s2 & ev & -> & ? & ?); [done..|].
    eexists s2, _. split; [done|]. by split.
  - eexists s, _. split; [done|]. by apply settled_skip.
  - eexists s, _. split; [done|]. split; [done|]. by eexists _, _, _, _.
Qed.

Lemma run_call o s : sound s → coherent s → ∃ s' r, run o s = (s', r) ∧ settled o s s' r.
Proof.
  intros Hs Hc. pose proof (settled_skip o s Hs Hc) as Hskip. destruct o as [event name info now|now]; simpl.
  - unfold _handle_transport_event_locked. destruct (_active s); simpl; [|by eexists s, _].
    destruct event, name as [n|]; try (by eexists s, _); [by apply settled_record..|].
    destruct (remove_run s n Hs Hc) as (s2 & ev & -> & ? & ?). eexists s2, _. split; [done|]. by split.
  - unfold expire_stale.
    destruct (drop_each_run (List.filter (λ kr : string * PeerRecord.t, is_stale s now kr.2) (_peers s)).*1 s Hs Hc)
      as (s2 & ev & -> & ?). exists s2, (Ok ev). split; [done|]. split; [done|]. intros Hn. by destruct (Hn now).
Qed.

Lemma present_settled o s s' r : settled o s s' r → (∀ now, o ≠ Expire now) → present nobody s → present nobody s'.
Proof. destruct r; intros [H1 H2]; [done|by subst]. Qed.

(** The table as it is after a start: nothing was seen yet. *)
Definition listening (local : string) (a : DiscoveryAdvertisement.t) (service_type : string) (ttl : float) : t :=
  set_active (__init__ local a service_type ttl) true None.

Lemma history_snoc s calls o : history s (calls ++ [o]) =
  let '(s', r) := run o (history s calls).1 in
  (s', (history s calls).2 ++ match r with Ok events => events | Err _ => [] end).
Proof. unfold history. rewrite foldl_app. simpl. done. Qed.

Lemma history_tells s calls : sound s → coherent s →
  tells s (history s calls).1 (history s calls).2 ∧
  ((∀ now, Expire now ∉ calls) → present nobody s → present nobody (history s calls).1).
Proof.
  intros Hs Hc. induction calls as [|o calls [IH IHp]] using rev_ind; [split; [by apply tells_refl|done]|].
  rewrite history_snoc. set (h := history s calls) in *.
  destruct (run_call o h.1 (tells_sound _ _ _ IH) (tells_coherent _ _ _ IH)) as (s2 & r & -> & Hset). simpl. split.
  - destruct r as [ev|e]; destruct Hset as [Ht Hr]; [|subst s2; by rewrite app_nil_r].
    split; [apply Ht|apply Ht| | |].
    + by rewrite (tells_view _ _ _ Ht), (tells_view _ _ _ IH), foldl_app.
    + apply Forall_app. split; [apply IH|]. destruct (tells_config _ _ _ IH) as [<- _]. apply Ht.
    + destruct (tells_config _ _ _ Ht) as [-> ->], (tells_config _ _ _ IH) as [-> ->]. done.
  - intros Hn Hp. eapply present_settled; [done|set_solver|]. apply IHp; [set_solver|done].
Qed.

(** C22. The table of peers implements its specification.  After any history of records, malformed
    ones among them, and of expiries, the entry of a peer is the merge of what its services
    were last seen with, can be tried, and is never this node; without an expiry, exactly the
    nodes that are observed have one; and a listener that only replays the events it was told
    has the same table, but for the times. *)
Theorem discovery_table_refines_records local a service_type ttl calls :
  let '(s, events) := history (listening local a service_type ttl) calls in
  (∀ id r, od_get id (_peers s) = Some r → merge_of s id r ∧ peer s id r) ∧
  ((∀ now, Expire now ∉ calls) → ∀ id, is_Some (od_get id (_peers s)) ↔ observations s id ≠ []) ∧
  (∀ id, foldl heard ∅ events !! id = (λ r, seen_at (PeerRecord.candidate r) (flit 0)) <$> od_get id (_peers s)).
Proof.
  set (s0 := listening local a service_type ttl).
  assert (Hs0 : sound s0) by (split; simpl; [set_solver|done|split; constructor]).
  destruct (history_tells s0 calls Hs0) as [Ht Hp]; [done|]. destruct (history s0 calls) as [s events]. simpl in *.
  split; [|split].
  - intros id r Hr. split; [by apply Ht|by apply (sound_peers _ (tells_sound _ _ _ Ht))].
  - intros Hn id. split.
    + intros [r Hr]. destruct (tells_coherent _ _ _ Ht _ _ Hr) as (c & l & -> & _). done.
    + apply (Hp Hn); [intros j _ Ho; by destruct Ho|by intros []].
  - intros id. rewrite <- view_lookup. by rewrite (tells_view _ _ _ Ht).
Qed.

(** ** What goes wrong *)

(** A record with a number that [int] does not read changes nothing, but its [ValueError] is
    not the one that is logged: it leaves the handler. *)
Theorem unreadable_number_escapes s event name info now s' e : sound s → coherent s →
  run (Event event name info now) s = (s', Err e) →
  s' = s ∧ e = Exn ValueError "invalid literal for int()" ∧
  (unreadable (od_get "transport_generation" (_property_map utf8_decode info)) ∨
   unreadable (od_get "pairing_port" (_property_map utf8_decode info))).
Proof.
  intros Hs Hc Hr. destruct (run_call (Event event name info now) s Hs Hc) as (s2 & r & Hr' & Hset).
  rewrite Hr in Hr'. injection Hr' as <- <-. destruct Hset as [-> (ev & n & i & t0 & [= _ _ <- _] & He)].
  split; [done|]. by eapply normalize_Err.
Qed.

(** A peer that expired is reported again when one of its services is withdrawn: the other
    service is still on record, however old. *)
Theorem withdrawal_brings_expired_peer_back s id name other c : sound s → other ≠ name →
  _service_nodes s !! name = Some id → (other, c) ∈ _service_candidates s → stable_id c = id →
  od_get id (_peers s) = None →
  ∃ s' u, remove_service ip_address name s = (s', Ok [EVENT_CANDIDATE u]) ∧ stable_id u = id.
Proof.
  intros Hs Hne Hn Hin Hid Hp. unfold remove_service. rewrite !M_bind_run. cbv beta iota. rewrite Hn.
  set (s1 := set_services s (delete name (_service_nodes s)) (od_pop name (_service_candidates s))).
  assert (Hs1 : sound s1) by (apply sound_pop; [done|]; intros; by rewrite lookup_delete_ne).
  assert (Ho : c ∈ observations s1 id).
  { unfold observations. apply list_elem_of_fmap. exists (other, c). split; [done|]. apply elem_of_lfilter. split.
    - apply bool_decide_eq_true. simpl. rewrite lookup_delete_ne by done.
      rewrite (observed_node _ _ _ (sound_services _ Hs _ _ Hin)). by rewrite Hid.
    - simpl. by apply od_pop_elem. }
  unfold _rebuild_peer. destruct (observations s1 id) as [|c0 l] eqn:Eo; [by apply not_elem_of_nil in Ho|].
  destruct (observations_sound _ _ _ _ Hs1 Eo) as (Hf & Hid0 & _).
  destruct (merged_total c0 l Hf) as (u & -> & _ & _ & Eid & _). simpl. rewrite Hp.
  eexists _, u. split; [done|]. congruence.
Qed.
End discovery.

(** ** A concrete network: [p] is announced by two services, seen again, withdrawn and expired *)

Definition toy_ip (text : string) : option IPAddress := Some (V4 (quad 192 168 1 7)).
Definition toy_ntop (v6 : bool) (packed : string) : option string := Some "192.168.1.7".
Definition toy_utf8 (bytes : string) : string := bytes.

Definition record_p (fp : string) (extra : list (option Prop_text * option Prop_text)) : ServiceInfo.t :=
  ServiceInfo.mk
    (Some ([(Some (PBytes "id"), Some (PBytes "p")); (Some (PBytes "protocol_version"), Some (PText "1"));
            (Some (PBytes "connectable"), Some (PBytes "TRUE")); (Some (PText "tls_fingerprint"), Some (PText fp));
            (None, Some (PText "x"))] ++ extra))
    (JInt 7000) None (Some (Some (RMany []))) (RMany [ABytes "abcd"; AOther; AText " 10.0.0.1 "]).

Definition service (name : string) : option string := Some (name +:+ "." +:+ SERVICE_TYPE).

(** The text of one character that is a digit and no decimal. *)
Definition superscript_two : string := String.String (Ascii.ascii_of_nat 178) "".

Definition two_services : list call :=
  [Event Add (service "p") (record_p "f1" []) (flit 0); Event Update (service "p2") (record_p "f1" []) (flit 10);
   Event Update (service "p") (record_p "f1" []) (flit 20);
   Event Update (service "p") (record_p "f1" [(Some (PText "transport_generation"), Some (PText superscript_two))]) (flit 30);
   Event Remove (service "p2") (record_p "f1" []) (flit 40)].

Definition sample_advertisement : DiscoveryAdvertisement.t :=
  DiscoveryAdvertisement.mk "n" "Node" "host" "1.0" "1" (Some "linux") true (Some 7001%Z) (Some "id") (Some "tls")
    (Some "root") (Some 2%Z) (Some "proof") None (Some 7002%Z).

Definition sample_history (calls : list call) : NetworkDiscovery.t * list EventKind :=
  history toy_ip toy_ntop toy_utf8 (listening "n" sample_advertisement SERVICE_TYPE (flit 100)) calls.

(** The peer is told as each service is seen; the record that is not read, and the withdrawal
    of the older service, are not. *)
Example two_services_told : length (sample_history two_services).2 = 3 /\ length (peers (sample_history two_services).1) = 1.
Proof. by vm_compute. Qed.

(** The peer expires with two services on record, and returns when one is withdrawn. *)
Example expired_and_back :
  let calls := [Event Add (service "p") (record_p "f1" []) (flit 0); Event Add (service "p2") (record_p "f1" []) (flit 0);
                Expire (flit 200)] in
  length (peers (sample_history calls).1) = 0 /\
  length (peers (sample_history (calls ++ [Event Remove (service "p2") (record_p "f1" []) (flit 300)])).1) = 1.
Proof. by vm_compute. Qed.

Lemma discovery_table_refines_records_witness :
  (∀ v6 packed text, toy_ntop v6 packed = Some text → is_blank text = false) ∧
  let '(s, events) := sample_history two_services in
  (∀ id r, od_get id (_peers s) = Some r → merge_of toy_ip s id r ∧ peer s id r) ∧
  ((∀ now, Expire now ∉ two_services) → ∀ id, is_Some (od_get id (_peers s)) ↔ observations s id ≠ []) ∧
  (∀ id, foldl heard ∅ events !! id = (λ r, seen_at (PeerRecord.candidate r) (flit 0)) <$> od_get id (_peers s)).
Proof.
  assert (H : ∀ v6 packed text, toy_ntop v6 packed = Some text → is_blank text = false) by (by intros ? ? ? [= <-]).
  split; [exact H|]. exact (discovery_table_refines_records toy_ip toy_ntop toy_utf8 H "n" sample_advertisement
    SERVICE_TYPE (flit 100) two_services).
Defined.
