(* ===== verification/AdvertisementSpec.v ===== *)
(** * Advertisements: what a node advertises is what its peers discover

    The texts of [_advertisement_txt_properties], sent as UTF-8, are read back by [_normalize]
    to the fields they were made of; a generation or a port travels as its decimal text. *)

From stdpp Require Import pretty.
From S2P Require Import Prelude PyFloat Sharing PyJson Pairing Candidates CanonicalSpec Discovery DiscoverySpec.
Import NetworkDiscovery.

(** ** Decimal texts *)

Definition add_digit (v : Z) (c : Ascii.ascii) : Z := (10 * v + (Z.of_nat (Ascii.nat_of_ascii c) - 48))%Z.

Lemma digits_value_fold s : digits_value s = foldl add_digit 0%Z (String.list_ascii_of_string s).
Proof. done. Qed.

Lemma pretty_char_digit x : (x < 10)%N → ascii_digit (pretty_N_char x) = true ∧
  (Z.of_nat (Ascii.nat_of_ascii (pretty_N_char x)) - 48 = Z.of_N x)%Z.
Proof.
  intros Hx. assert (H : (x = 0 ∨ x = 1 ∨ x = 2 ∨ x = 3 ∨ x = 4 ∨ x = 5 ∨ x = 6 ∨ x = 7 ∨ x = 8 ∨ x = 9)%N) by lia.
  clear Hx. repeat destruct H as [->|H]; subst; by vm_compute.
Qed.

Lemma pretty_N_go_digits x s : forallb ascii_digit (String.list_ascii_of_string s) = true →
  forallb ascii_digit (String.list_ascii_of_string (pretty_N_go x s)) = true ∧
  foldl add_digit 0%Z (String.list_ascii_of_string (pretty_N_go x s))
  = foldl add_digit (Z.of_N x) (String.list_ascii_of_string s).
Proof.
  revert s. induction (N.lt_wf_0 x) as [x _ IH]; intros s Hs.
  destruct (decide (x = 0)%N) as [->|Hx]; [by rewrite pretty_N_go_0|].
  rewrite pretty_N_go_step by lia. assert (Hm : (x `mod` 10 < 10)%N) by (by apply N.mod_lt).
  destruct (pretty_char_digit _ Hm) as [Hd Hv].
  destruct (IH (x `div` 10)%N) with (s := String.String (pretty_N_char (x `mod` 10)) s) as [H1 H2].
  - apply N.div_lt; lia.
  - simpl. by rewrite Hd.
  - split; [done|]. rewrite H2. simpl. f_equal. unfold add_digit. rewrite Hv.
    rewrite N2Z.inj_div, N2Z.inj_mod. symmetry. apply Z.div_mod. lia.
Qed.

Lemma pretty_decimal (z : Z) : (0 <= z)%Z → isdecimal (pretty z) = true ∧ digits_value (pretty z) = z.
Proof.
  intros Hz. unfold isdecimal, every. rewrite bool_decide_eq_false_2 by apply pretty_Z_nonempty. simpl.
  rewrite digits_value_fold. destruct z as [|p|p]; [done| |lia].
  change (pretty (Z.pos p)) with (pretty (N.pos p)). unfold pretty, pretty_N. case_decide; [done|].
  destruct (pretty_N_go_digits (Npos p) "") as [H1 H2]; [done|]. by rewrite H1, H2.
Qed.

Lemma int_of_pretty (z : Z) : (0 <= z)%Z → (String.length (pretty z) <= max_str_digits)%nat →
  int_of_text (pretty z) = Ok z.
Proof.
  intros Hz Hl. destruct (pretty_decimal z Hz) as [Hd Hv]. unfold int_of_text. rewrite Hd.
  apply Nat.leb_le in Hl. by rewrite Hl, Hv.
Qed.

(** A number below [10 ^ n] has at most [n] decimals. *)
Lemma pretty_N_go_length n x s : (x < 10 ^ N.of_nat n)%N →
  (String.length (pretty_N_go x s) <= n + String.length s)%nat.
Proof.
  revert x s. induction n as [|n IH]; intros x s Hx.
  - assert (x = 0)%N as -> by (simpl in Hx; lia). by rewrite pretty_N_go_0.
  - destruct (decide (x = 0)%N) as [->|Hne]; [rewrite pretty_N_go_0; lia|]. rewrite pretty_N_go_step by lia.
    etrans; [apply IH|simpl; lia]. rewrite Nat2N.inj_succ, N.pow_succ_r' in Hx. by apply N.Div0.div_lt_upper_bound.
Qed.

Lemma pretty_length n (z : Z) : (0 <= z < 10 ^ Z.of_nat (S n))%Z → (String.length (pretty z) <= S n)%nat.
Proof.
  intros [H0 Hz]. destruct z as [|p|p]; [simpl; lia| |lia]. change (pretty (Z.pos p)) with (pretty (N.pos p)). unfold pretty, pretty_N.
  case_decide; [done|]. etrans; [apply (pretty_N_go_length (S n))|simpl; lia].
  apply N2Z.inj_lt. rewrite N2Z.inj_pow. simpl (Z.of_N (Npos p)). by rewrite nat_N_Z.
Qed.

(** ** The properties *)

Lemma od_get_app `{EqDecision K} {V} k (d e : list (K * V)) :
  od_get k (d ++ e) = match od_get k d with Some v => Some v | None => od_get k e end.
Proof. induction d as [|[j v] d IH]; [done|]. simpl. by case_decide. Qed.

Lemma optional_get key k value : od_get k (optional_property key value) = if decide (k = key) then truthy value else None.
Proof. unfold optional_property. destruct (truthy value); simpl; by case_decide. Qed.

Lemma od_get_if `{EqDecision K} {V} k (b : bool) (d : list (K * V)) :
  od_get k (if b then d else []) = if b then od_get k d else None.
Proof. by destruct b. Qed.

Definition PROPERTIES : list string :=
  ["id"; "name"; "app_version"; "protocol_version"; "connectable"; "platform"; "fingerprint"; "tls_fingerprint";
   "root_public_key"; "transport_proof"; "transport_generation"; "pairing_port"].

Lemma txt_unique a : NoDup (_advertisement_txt_properties a).*1.
Proof.
  apply (sublist_NoDup _ PROPERTIES); [by apply (bool_decide_unpack _)|].
  assert (Ho : ∀ key value, (optional_property key value).*1 `sublist_of` [key]).
  { intros key value. unfold optional_property. destruct (truthy value); simpl; repeat constructor. }
  assert (Hp : ∀ key (b : bool) text, (if b then [(key, text)] else [] : list (string * string)).*1 `sublist_of` [key]).
  { intros key b text. destruct b; simpl; repeat constructor. }
  unfold _advertisement_txt_properties. rewrite !fmap_app.
  change PROPERTIES with (["id"; "name"; "app_version"; "protocol_version"; "connectable"] ++ ["platform"] ++
    ["fingerprint"] ++ ["tls_fingerprint"] ++ ["root_public_key"] ++ ["transport_proof"] ++ ["transport_generation"]
    ++ ["pairing_port"]).
  repeat (apply sublist_app; [first [apply Ho|done|case_match; [apply Hp|simpl; repeat constructor]]|]).
  case_match; [apply Hp|simpl; repeat constructor].
Qed.

(** What is read back of each property. *)
Lemma txt_get a : let get k := od_get k (_advertisement_txt_properties a) in
  get "id" = Some (DiscoveryAdvertisement.stable_id a) ∧ get "name" = Some (DiscoveryAdvertisement.display_name a) ∧
  get "app_version" = Some (DiscoveryAdvertisement.app_version a) ∧
  get "protocol_version" = Some (DiscoveryAdvertisement.protocol_version a) ∧
  get "connectable" = Some (if DiscoveryAdvertisement.connectable a then "true" else "false") ∧
  get "platform" = truthy (DiscoveryAdvertisement.platform a) ∧
  get "fingerprint" = truthy (DiscoveryAdvertisement.identity_fingerprint a) ∧
  get "tls_fingerprint" = truthy (DiscoveryAdvertisement.transport_fingerprint a) ∧
  get "root_public_key" = truthy (DiscoveryAdvertisement.root_public_key a) ∧
  get "transport_proof" = truthy (DiscoveryAdvertisement.transport_proof a) ∧
  get "transport_generation" = (g ← DiscoveryAdvertisement.transport_generation a; if (0 <=? g)%Z then Some (pretty g) else None) ∧
  get "pairing_port" = (p ← DiscoveryAdvertisement.pairing_port a; if valid_port p then Some (pretty p) else None).
Proof.
  simpl. unfold _advertisement_txt_properties.
  set (gen := match DiscoveryAdvertisement.transport_generation a with Some _ => _ | None => _ end).
  set (pp := match DiscoveryAdvertisement.pairing_port a with Some _ => _ | None => _ end).
  assert (Hg : ∀ k, od_get k gen = if decide (k = "transport_generation")
     then g ← DiscoveryAdvertisement.transport_generation a; if (0 <=? g)%Z then Some (pretty g) else None else None).
  { intros k. unfold gen. destruct (DiscoveryAdvertisement.transport_generation a) as [g|]; simpl; [|by case_decide].
    destruct (0 <=? g)%Z; simpl; by case_decide. }
  assert (Hp : ∀ k, od_get k pp = if decide (k = "pairing_port")
     then p ← DiscoveryAdvertisement.pairing_port a; if valid_port p then Some (pretty p) else None else None).
  { intros k. unfold pp. destruct (DiscoveryAdvertisement.pairing_port a) as [p|]; simpl; [|by case_decide].
    destruct (valid_port p); simpl; by case_decide. }
  clearbody gen pp. rewrite !od_get_app, !optional_get, !Hg, !Hp. cbn [od_get].
  repeat first [rewrite decide_True by done|rewrite decide_False by done].
  repeat match goal with |- context [truthy ?o] => destruct (truthy o) end.
  all: repeat split; by repeat case_match.
Qed.

(** ** Names of services *)

Lemma substring_app_l a b : String.substring 0 (String.length a) (a +:+ b) = a.
Proof. induction a as [|c a IH]; [by destruct b|]. simpl. by rewrite IH. Qed.

Lemma substring_app_r a b : String.substring (String.length a) (String.length b) (a +:+ b) = b.
Proof.
  induction a as [|c a IH]; simpl; [|done]. induction b as [|c b IH]; [done|]. simpl. f_equal. apply IH.
Qed.

Lemma length_append a b : String.length (a +:+ b) = (String.length a + String.length b)%nat.
Proof. induction a as [|c a IH]; [done|]. simpl. by rewrite IH. Qed.

Lemma endswith_app a b : endswith (a +:+ b) b = true.
Proof.
  unfold endswith. rewrite length_append. replace (String.length a + String.length b - String.length b) with (String.length a) by lia.
  rewrite substring_app_r, bool_decide_eq_true_2 by done. rewrite andb_true_r. apply Nat.leb_le. lia.
Qed.

Lemma drop_last_app a b : b ≠ "" → drop_last (String.length b) (a +:+ b) = a.
Proof.
  intros Hb. unfold drop_last. destruct (String.length b) eqn:E; [by destruct b|]. rewrite <- E, length_append.
  replace (String.length a + String.length b - String.length b) with (String.length a) by lia. apply substring_app_l.
Qed.

Lemma service_node_id_of instance service_type : instance ≠ "" → service_type ≠ "" →
  service_node_id service_type (instance +:+ "." +:+ service_type) = Some instance.
Proof.
  intros Hi Hs. assert (E : instance +:+ "." +:+ service_type = (instance +:+ ".") +:+ service_type) by (by rewrite <- sapp_assoc).
  unfold service_node_id. rewrite E, endswith_app, drop_last_app by done. unfold removesuffix.
  rewrite endswith_app, (bool_decide_eq_false_2 ("." = "")) by done. cbn [andb negb]. rewrite drop_last_app by done.
  unfold truthy. by rewrite bool_decide_eq_false_2.
Qed.

(** ** The round trip *)

Section advertisement.
Context (ip_address : string → option IPAddress) (inet_ntop : bool → string → option string).
Context (inet_ntop_text : ∀ v6 packed text, inet_ntop v6 packed = Some text → is_blank text = false).
(** UTF-8, which reads back what it wrote. *)
Context (utf8_encode utf8_decode : string → string) (utf8_round_trip : ∀ text, utf8_decode (utf8_encode text) = text).

(** The properties as they travel. *)
Definition on_the_wire (a : DiscoveryAdvertisement.t) : list (option Prop_text * option Prop_text) :=
  (λ kv, (Some (PBytes (utf8_encode kv.1)), Some (PBytes (utf8_encode kv.2)))) <$> _advertisement_txt_properties a.

Lemma property_map_of a info : ServiceInfo.properties info = Some (on_the_wire a) →
  _property_map utf8_decode info = _advertisement_txt_properties a.
Proof.
  intros E. unfold _property_map. rewrite E. transitivity (od_of_list (_advertisement_txt_properties a)).
  - f_equal. unfold on_the_wire. induction (_advertisement_txt_properties a) as [|[k v] l IH]; [done|].
    simpl. rewrite !utf8_round_trip. f_equal. exact IH.
  - apply od_of_list_id, txt_unique.
Qed.

(** The candidate says of the node what its advertisement says; what is empty or out of range
    is absent, and a node without a port is not connectable. *)
Record discovers (a : DiscoveryAdvertisement.t) (info : ServiceInfo.t) (now : float)
    (c : DiscoveredNodeCandidate.t) : Prop := {
  discovers_identity : DiscoveredNodeCandidate.stable_id c = DiscoveryAdvertisement.stable_id a ∧
    DiscoveredNodeCandidate.hostname c = DiscoveryAdvertisement.display_name a ∧
    DiscoveredNodeCandidate.platform c = truthy (DiscoveryAdvertisement.platform a) ∧
    DiscoveredNodeCandidate.identity_fingerprint c = truthy (DiscoveryAdvertisement.identity_fingerprint a);
  discovers_version : DiscoveredNodeCandidate.app_version c = DiscoveryAdvertisement.app_version a ∧
    DiscoveredNodeCandidate.protocol_version c = DiscoveryAdvertisement.protocol_version a ∧
    (DiscoveredNodeCandidate.compatible c = true ↔ DiscoveryAdvertisement.protocol_version a = "1");
  discovers_transport :
    DiscoveredNodeCandidate.transport_fingerprint c = truthy (DiscoveryAdvertisement.transport_fingerprint a) ∧
    DiscoveredNodeCandidate.root_public_key c = truthy (DiscoveryAdvertisement.root_public_key a) ∧
    DiscoveredNodeCandidate.transport_proof c = truthy (DiscoveryAdvertisement.transport_proof a) ∧
    DiscoveredNodeCandidate.transport_generation c
      = (g ← DiscoveryAdvertisement.transport_generation a; if (0 <=? g)%Z then Some g else None);
  discovers_ports :
    DiscoveredNodeCandidate.port c = (p ← DiscoveryAdvertisement.port a; if valid_port p then Some p else None) ∧
    DiscoveredNodeCandidate.pairing_port c
      = (p ← DiscoveryAdvertisement.pairing_port a; if valid_port p then Some p else None) ∧
    DiscoveredNodeCandidate.connectable c
      = DiscoveryAdvertisement.connectable a && bool_decide (is_Some (DiscoveredNodeCandidate.port c));
  discovers_routes : DiscoveredNodeCandidate.addresses c = _service_address_texts inet_ntop info ∧
    DiscoveredNodeCandidate.last_seen c = now }.

Lemma parse_generation_of a : (∀ g, DiscoveryAdvertisement.transport_generation a = Some g →
    (String.length (pretty g) <= max_str_digits)%nat) →
  parse_generation (g ← DiscoveryAdvertisement.transport_generation a; if (0 <=? g)%Z then Some (pretty g) else None)
  = Ok (g ← DiscoveryAdvertisement.transport_generation a; if (0 <=? g)%Z then Some g else None).
Proof.
  intros Hl. destruct (DiscoveryAdvertisement.transport_generation a) as [g|]; [|done]. simpl.
  destruct (Z.leb_spec 0 g) as [Hg|]; [|done]. simpl. rewrite isdecimal_isdigit by (by apply pretty_decimal).
  rewrite int_of_pretty by auto. done.
Qed.

Lemma isdecimal_ascii s : isdecimal s = true → is_ascii s = true.
Proof.
  unfold isdecimal, every, is_ascii. rewrite andb_true_iff, !forallb_forall. intros [_ H] c Hc.
  specialize (H c Hc). unfold ascii_digit in H. rewrite andb_true_iff, !Nat.leb_le in H. apply Nat.ltb_lt. lia.
Qed.

Lemma parse_pairing_port_of a :
  parse_pairing_port (p ← DiscoveryAdvertisement.pairing_port a; if valid_port p then Some (pretty p) else None)
  = Ok (p ← DiscoveryAdvertisement.pairing_port a; if valid_port p then Some p else None).
Proof.
  destruct (DiscoveryAdvertisement.pairing_port a) as [p|]; [|done]. simpl.
  destruct (valid_port p) eqn:Hp; [|done]. cbn [parse_pairing_port].
  assert (Hr : (0 <= p < 10 ^ Z.of_nat 5)%Z) by (unfold valid_port in Hp; simpl; lia).
  destruct (pretty_decimal p) as [Hd _]; [lia|]. rewrite isdecimal_ascii, Hd by done. cbn [andb].
  rewrite int_of_pretty; [|lia|].
  - simpl. by rewrite Hp.
  - pose proof (pretty_length 4 p Hr). unfold max_str_digits. lia.
Qed.

Lemma casefold_flag (b : bool) : bool_decide (casefold (if b then "true" else "false") = "true") = b.
Proof. by destruct b. Qed.

Lemma service_port_of a : service_port (JInt (default 0%Z (DiscoveryAdvertisement.port a)))
  = (p ← DiscoveryAdvertisement.port a; if valid_port p then Some p else None).
Proof. by destruct (DiscoveryAdvertisement.port a). Qed.

(** C38. What a node advertises is what its peers discover: whatever the texts, the addresses and
    the ports are, the record a node registers is normalised by every other node to a candidate
    that says the same, the generation and the pairing port included. *)
Theorem advertised_is_discovered s a info now :
  ServiceInfo.properties info = Some (on_the_wire a) →
  ServiceInfo.port info = JInt (default 0%Z (DiscoveryAdvertisement.port a)) →
  DiscoveryAdvertisement.stable_id a ≠ "" → DiscoveryAdvertisement.stable_id a ≠ _local_node_id s →
  DiscoveryAdvertisement.display_name a ≠ "" → _service_type s ≠ "" →
  (∀ g, DiscoveryAdvertisement.transport_generation a = Some g → (String.length (pretty g) <= max_str_digits)%nat) →
  ∃ c, _normalize ip_address inet_ntop utf8_decode s (_service_instance_id a +:+ "." +:+ _service_type s) info now
         = Ok (Some c) ∧ discovers a info now c.
Proof.
  intros Hprops Hport Hid Hl Hname Ht Hg. unfold _normalize, _node_id_for_service.
  assert (Hinst : _service_instance_id a ≠ "").
  { unfold _service_instance_id. repeat case_match; try done. by destruct (DiscoveryAdvertisement.stable_id a). }
  rewrite service_node_id_of, (property_map_of a), Hport by done.
  pose proof (txt_get a) as Htxt. cbv zeta in Htxt. destruct Htxt as (-> & -> & -> & -> & -> & -> & -> & -> & -> & -> & -> & ->).
  assert (Htr : ∀ o, truthy (truthy o) = truthy o).
  { intros [o|]; [|done]. unfold truthy. case_bool_decide as E; [done|]. by rewrite bool_decide_eq_false_2. }
  rewrite !Htr, parse_generation_of, parse_pairing_port_of by done. cbn [default mbind result_bind].
  assert (Hsome : ∀ text, text ≠ "" → truthy (Some text) = Some text)
    by (intros text H; unfold truthy; by rewrite bool_decide_eq_false_2).
  rewrite !Hsome by done. rewrite bool_decide_eq_false_2 by done. unfold id.
  rewrite casefold_flag, service_port_of. cbn [default from_option].
  set (raw := DiscoveredNodeCandidate.mk _ _ _ _ _ _ _ _ _ _ _ _ _ _ _ _ _ _).
  destruct (discovered_total ip_address raw) as (c & -> & _ & _ & E).
  { split; simpl; [by apply service_addresses_blank| |set_solver|].
    - intros p. destruct (DiscoveryAdvertisement.port a) as [q|]; [|done]. simpl. case_match; naive_solver.
    - intros [_ ?%bool_decide_eq_true]%andb_true_iff. done. }
  exists c. split; [done|]. rewrite E. split; simpl; try done. split; [done|]. split; [done|].
  rewrite bool_decide_eq_true. unfold SUPPORTED_PROTOCOL_VERSIONS. set_solver.
Qed.
End advertisement.

(** ** A concrete advertisement *)

Definition sample_record : ServiceInfo.t :=
  ServiceInfo.mk (Some (on_the_wire toy_utf8 sample_advertisement)) (JInt 7001) (Some (Some (RMany [AText "10.0.0.9"])))
    None (ROther false).

Lemma advertised_is_discovered_witness :
  let s := listening "other" sample_advertisement SERVICE_TYPE (flit 100) in
  DiscoveryAdvertisement.stable_id sample_advertisement ≠ _local_node_id s ∧
  ∃ c, _normalize toy_ip toy_ntop toy_utf8 s
         (_service_instance_id sample_advertisement +:+ "." +:+ _service_type s) sample_record (flit 5) = Ok (Some c) ∧
       discovers toy_ntop sample_advertisement sample_record (flit 5) c.
Proof.
  split; [done|]. apply (advertised_is_discovered toy_ip toy_ntop) with (utf8_encode := toy_utf8); try done.
  - by intros ? ? ? [= <-].
  - intros g [= <-]. by apply Nat.leb_le; vm_compute.
Defined.
