(* ===== verification/CandidatesSpec.v ===== *)
(** * Candidates: the first route is the preferred one, the table holds only peers

    [endpoint_rank] is a total preorder, so that the route a connection tries first and the
    endpoint [preferred_endpoint] names are the same; every entry of the discovery table is a
    well-formed peer. *)

From S2P Require Import Prelude PyFloat Sharing PyJson StateCodec Candidates.

(** ** The order of routes *)

Lemma str_leb_total a b : str_leb a b = true ∨ str_leb b a = true.
Proof.
  unfold str_leb. rewrite (String.compare_antisym a b). destruct (String.compare b a); auto.
Qed.

Lemma str_leb_trans a b c : str_leb a b = true → str_leb b c = true → str_leb a c = true.
Proof.
  revert b c. induction a as [|x a IH]; intros [|y b] [|z c]; unfold str_leb in *; simpl; try done.
  unfold Ascii.compare. intros H1 H2.
  destruct (N.compare_spec (Ascii.N_of_ascii x) (Ascii.N_of_ascii y)) as [E1|L1|L1];
  destruct (N.compare_spec (Ascii.N_of_ascii y) (Ascii.N_of_ascii z)) as [E2|L2|L2]; try done.
  - rewrite E1, E2, N.compare_refl. by apply (IH b).
  - by rewrite E1, (proj2 (N.compare_lt_iff _ _) L2).
  - by rewrite <- E2, (proj2 (N.compare_lt_iff _ _) L1).
  - by rewrite (proj2 (N.compare_lt_iff _ _) (N.lt_trans _ _ _ L1 L2)).
Qed.

(** One component of a tuple, and those after it. *)
Definition lex (a b : Z) (rest : bool) : bool := if negb (a =? b)%Z then (a <? b)%Z else rest.

Lemma lex_trans a b c r1 r2 r3 : (r1 = true → r2 = true → r3 = true) →
  lex a b r1 = true → lex b c r2 = true → lex a c r3 = true.
Proof.
  unfold lex. intros Hr. destruct (Z.eqb_spec a b), (Z.eqb_spec b c), (Z.eqb_spec a c); simpl;
    rewrite ?Z.ltb_lt; subst; intros; try done; try lia; auto.
Qed.

Lemma lex_total a b r1 r2 : (r1 = true ∨ r2 = true) → lex a b r1 = true ∨ lex b a r2 = true.
Proof.
  unfold lex. intros Hr. rewrite (Z.eqb_sym b a). destruct (Z.eqb_spec a b); simpl; [done|].
  rewrite !Z.ltb_lt. lia.
Qed.

Lemma rank_leb_lex a b : rank_leb a b =
  lex a.1.1.1.1 b.1.1.1.1 (lex a.1.1.1.2 b.1.1.1.2 (lex a.1.1.2 b.1.1.2
    (if negb (bool_decide (a.1.2 = b.1.2)) then str_leb a.1.2 b.1.2 else (a.2 <=? b.2)%Z))).
Proof. by destruct a as [[[[]]]], b as [[[[]]]]. Qed.

Lemma str_leb_antisym a b : str_leb a b = true → str_leb b a = true → a = b.
Proof.
  unfold str_leb. rewrite (String.compare_antisym a b).
  destruct (String.compare b a) eqn:E; try done. by apply String.compare_eq_iff in E.
Qed.

Lemma endpoint_leb_trans x y z : endpoint_leb x y = true → endpoint_leb y z = true → endpoint_leb x z = true.
Proof.
  unfold endpoint_leb. rewrite !rank_leb_lex.
  destruct (endpoint_rank x) as [[[[? ?] ?] s1] ?], (endpoint_rank y) as [[[[? ?] ?] s2] ?],
    (endpoint_rank z) as [[[[? ?] ?] s3] ?]. simpl.
  do 3 (apply lex_trans). repeat case_bool_decide; simpl; subst; rewrite ?Z.leb_le; try done; try lia.
  - intros H1 H2. by destruct (H (str_leb_antisym _ _ H1 H2)).
  - apply str_leb_trans.
Qed.

Lemma endpoint_leb_total x y : endpoint_leb x y = true ∨ endpoint_leb y x = true.
Proof.
  unfold endpoint_leb. rewrite !rank_leb_lex.
  destruct (endpoint_rank x) as [[[[? ?] ?] s1] ?], (endpoint_rank y) as [[[[? ?] ?] s2] ?]. simpl.
  do 3 (apply lex_total). rewrite (bool_decide_ext (s2 = s1) (s1 = s2)) by naive_solver.
  case_bool_decide; simpl; [rewrite !Z.leb_le; lia|apply str_leb_total].
Qed.

(** ** The first of the smallest *)

Section min.
Context {A : Type} (leb : A → A → bool).
Context (leb_trans : ∀ x y z, leb x y = true → leb y z = true → leb x z = true).
Context (leb_total : ∀ x y, leb x y = true ∨ leb y x = true).

(** Smaller than what is before, not larger than what is after. *)
Definition first_min (l : list A) (x : A) : Prop :=
  ∃ before after, l = before ++ x :: after ∧ (∀ y, y ∈ before → leb y x = false) ∧
    ∀ y, y ∈ after → leb x y = true.

Lemma first_min_cons x l h : first_min l h → first_min (x :: l) (if leb x h then x else h).
Proof.
  intros (before & after & -> & Hb & Ha). destruct (leb x h) eqn:Hx.
  - exists [], (before ++ h :: after). split_and!; [done|set_solver|].
    intros y [Hy|[->|Hy]%elem_of_cons]%elem_of_app; [|done|eauto].
    destruct (leb_total x y) as [?|Hyx]; [done|]. specialize (Hb y Hy).
    by rewrite (leb_trans _ _ _ Hyx Hx) in Hb.
  - exists (x :: before), after. split_and!; [done| |done]. intros y [->|?]%elem_of_cons; auto.
Qed.

Lemma sorted_first_min l : match sorted leb l with [] => l = [] | h :: _ => first_min l h end.
Proof.
  induction l as [|x l IH]; [done|]. unfold sorted in *. simpl. destruct (foldr _ _ l) as [|h t].
  - subst. simpl. exists [], []. set_solver.
  - simpl. apply (first_min_cons x) in IH. by destruct (leb x h).
Qed.

Definition smaller (x y : A) : A := if leb x y then x else y.

Lemma smaller_assoc x y z : smaller (smaller x y) z = smaller x (smaller y z).
Proof.
  unfold smaller. destruct (leb x y) eqn:Hxy, (leb y z) eqn:Hyz; rewrite ?Hxy, ?Hyz; try done.
  - by rewrite (leb_trans _ _ _ Hxy Hyz).
  - destruct (leb x z) eqn:Hxz; [|done]. destruct (leb_total x y) as [?|Hyx]; [congruence|].
    by rewrite (leb_trans _ _ _ Hyx Hxz) in Hyz.
Qed.

Lemma foldl_smaller l x y : foldl smaller (smaller x y) l = smaller x (foldl smaller y l).
Proof. revert y. induction l as [|z l IH]; intros y; [done|]. simpl. by rewrite smaller_assoc, IH. Qed.

Lemma min_by_sorted l : min_by leb l = head (sorted leb l).
Proof.
  destruct l as [|x l]; [done|]. unfold min_by. change (λ best y, if leb best y then best else y) with smaller.
  revert x. induction l as [|y l IH]; intros x; [done|].
  simpl foldl. rewrite foldl_smaller. specialize (IH y). unfold sorted in *.
  change (foldr (insert_sorted leb) [] (x :: y :: l))
    with (insert_sorted leb x (foldr (insert_sorted leb) [] (y :: l))).
  destruct (foldr _ [] (y :: l)) as [|h t]; simpl in IH; [done|]. injection IH as ->.
  unfold smaller. simpl. by destruct (leb x h).
Qed.
End min.

(** The route a connection tries first is the endpoint discovery prefers: the first, in the
    order given, of the usable endpoints of the best rank; and there is none exactly when no
    endpoint is usable. *)
Theorem first_route_is_preferred endpoints :
  let routes := sorted endpoint_leb (List.filter usable endpoints) in
  (∀ e, preferred_endpoint endpoints = Ok e ↔ head routes = Some e) ∧
  (∀ e, head routes = Some e → first_min endpoint_leb (List.filter usable endpoints) e) ∧
  (preferred_endpoint endpoints = raise ValueError "no route candidates" ↔
     ∀ e, e ∈ endpoints → EndpointCandidate.validation e = "invalid").
Proof.
  intros routes. unfold preferred_endpoint.
  rewrite (min_by_sorted _ endpoint_leb_trans endpoint_leb_total). fold routes.
  pose proof (sorted_first_min _ endpoint_leb_trans endpoint_leb_total (List.filter usable endpoints)) as Hm.
  fold routes in Hm. split_and!.
  - intros e. destruct (head routes); simpl; naive_solver.
  - intros e He. destruct routes; simpl in He; simplify_eq. done.
  - assert (Hi : List.filter usable endpoints = [] ↔ ∀ e, e ∈ endpoints → EndpointCandidate.validation e = "invalid").
    { clear. induction endpoints as [|e l IH]; [set_solver|]. simpl. unfold usable at 1.
      case_bool_decide as Hv; simpl; [|split; [done|intros Ha; by destruct Hv; apply Ha; left]].
      rewrite IH. set_solver. }
    rewrite <- Hi. destruct routes as [|h t] eqn:Hr; simpl; [by rewrite Hm|].
    split; [done|]. intros E. unfold routes in Hr. by rewrite E in Hr.
Qed.

(** ** The table *)

Import DiscoveryRegistry.

Inductive table_call := TAdd (c : DiscoveryCandidate.t) (now : float) | TRemove (id : string) | TExpire (now : float).

Definition table_run (s : t) (o : table_call) : t :=
  match o with
  | TAdd c now => (add c now s).1
  | TRemove id => (remove id s).1
  | TExpire now => (expire now s).1
  end.

(** An entry is a peer: another node, with a service port and addresses that are not blank. *)
Record peer_entry (self_id : option string) (id : string) (c : DiscoveryCandidate.t) : Prop := {
  entry_key : DiscoveryCandidate.stable_id c = id;
  entry_named : id ≠ "" ∧ id ≠ "local";
  entry_other : self_id ≠ Some id;
  entry_port : ∃ p, DiscoveryCandidate.port c = JInt p ∧ (1 <= p <= 65535)%Z;
  entry_addresses : DiscoveryCandidate.addresses c ≠ [] ∧
    ∀ a, a ∈ DiscoveryCandidate.addresses c → is_blank a = false }.

Lemma normalize_port_range v p : normalize_port v = Some p → (1 <= p <= 65535)%Z.
Proof.
  unfold normalize_port. intros Hp. repeat case_match; simplify_eq; to_prop; lia.
Qed.

Lemma add_entry c now s s' : add c now s = (s', Ok true) →
  ∃ item, _items s' = od_set (DiscoveryCandidate.stable_id c) item (_items s) ∧
    peer_entry (_self_id s) (DiscoveryCandidate.stable_id c) item.
Proof.
  unfold add. destruct (validate_candidate _ _) as [u|] eqn:Hv; [|done].
  destruct (normalize_port _) as [p|] eqn:Hp; [|done]. intros [= <-]. eexists. split; [done|].
  unfold validate_candidate in Hv. rewrite Hp in Hv. repeat res_step. to_prop. split; simpl; try done.
  - eexists. split; [done|]. by eapply normalize_port_range.
  - split; [by destruct (DiscoveryCandidate.addresses c)|]. by apply existsb_false_iff.
Qed.

Lemma foldl_pop_elem {V} (ks : list string) (d : list (string * V)) kv :
  kv ∈ foldl (λ d k, od_pop k d) d ks ↔ kv ∈ d ∧ kv.1 ∉ ks.
Proof.
  revert d. induction ks as [|k ks IH]; intros d; simpl; [set_solver|].
  rewrite IH, od_pop_elem. set_solver.
Qed.

Lemma foldl_pop_NoDup {V} (ks : list string) (d : list (string * V)) :
  NoDup d.*1 → NoDup (foldl (λ d k, od_pop k d) d ks).*1.
Proof. revert d. induction ks; intros d Hd; simpl; auto with odict. Qed.

Definition table_wf (s : t) : Prop :=
  NoDup (_items s).*1 ∧ ∀ id c, (id, c) ∈ _items s → peer_entry (_self_id s) id c.

Lemma table_run_wf o s : table_wf s → table_wf (table_run s o) ∧ _self_id (table_run s o) = _self_id s.
Proof.
  intros [Hn Hw]. destruct o as [c now|id|now]; simpl.
  - destruct (add c now s) as [s' r] eqn:Ha. simpl.
    assert (s' = s ∨ r = Ok true) as [-> | ->].
    { unfold add in Ha. repeat case_match; simplify_eq; auto. }
    + by split.
    + assert (_self_id s' = _self_id s) as Hid.
      { unfold add in Ha. by repeat case_match; simplify_eq. }
      split; [|done]. apply add_entry in Ha as (item & Hi & He).
      split; rewrite Hi; [by apply od_set_NoDup|]. rewrite Hid.
      intros id c' [[= -> ->]|?]%od_set_elem; [done|auto].
  - split; [|done]. split; simpl; [by apply od_pop_NoDup|]. intros i c [? _]%od_pop_elem. auto.
  - split; [|done]. split; simpl; [by apply foldl_pop_NoDup|]. intros i c [? _]%foldl_pop_elem. auto.
Qed.

Lemma history_wf calls s : table_wf s →
  table_wf (foldl table_run s calls) ∧ _self_id (foldl table_run s calls) = _self_id s.
Proof.
  revert s. induction calls as [|o calls IH]; intros s Hs; [done|]. simpl.
  destruct (table_run_wf o s Hs) as [Hs' <-]. by apply IH.
Qed.

(** The discovery table is well typed: after any history of observations, removals and expiries,
    each peer occurs once, under its own identity, is not this node, and has a service port and
    addresses that can be tried; and expiring removes exactly the entries whose time is over. *)
Theorem discovery_table_well_typed ttl self_id calls now :
  let s := foldl table_run (__init__ ttl self_id) calls in
  NoDup (_items s).*1 ∧ (∀ id c, (id, c) ∈ _items s → peer_entry self_id id c) ∧
  ∀ id c, (id, c) ∈ _items (expire now s).1 ↔ (id, c) ∈ _items s ∧ is_expired (_ttl s) now c = false.
Proof.
  intros s. assert (table_wf s ∧ _self_id s = self_id) as [[Hn Hw] Hid].
  { apply history_wf. split; simpl; [constructor|set_solver]. }
  rewrite Hid in Hw. split; [done|]. split; [done|]. intros id c. simpl. rewrite foldl_pop_elem. simpl.
  split; intros [Hin He]; (split; [done|]).
  - apply not_true_iff_false. intros Hx. apply He. apply list_elem_of_fmap. exists (id, c).
    split; [done|]. by apply elem_of_lfilter.
  - intros ([id' c'] & -> & [Hx Hin']%elem_of_lfilter)%list_elem_of_fmap. simpl in *.
    apply (od_elem_get _ _ _ Hn) in Hin, Hin'. congruence.
Qed.
