(* ===== verification/Connections.v ===== *)
(** * Outgoing connections ([connections/manager.py])

    [ConnectionManager] opens providers to discovered and trusted peers, tries their routes
    in order, pins the transport, and projects the connection into the node registry.  It
    shares the pairing manager, the registry and the table of candidates with the runtime:
    the four objects are a [Network], and a method runs in any world that has one
    ([HasNetwork]).  Transports, providers and the clock are methods of that world, which
    may change everything while they run.  The observer has no effect and is left out. *)

From S2P Require Import Prelude PyFloat Identity PyJson StateCodec WireOps ConnectionState NodeRegistry Pairing Candidates.
Import Material(transport_fingerprint, root_public_key, transport_generation, transport_proof).
Import EndpointCandidate(address, port).
Abbreviation dict := (list (string * json)) (only parsing).

Module ConnectionManager.
Record t {Pr : Type} := mk {
  _local_id : NodeId;
  _providers : list (NodeId * Pr);
  _generations : gmap NodeId Z;
  _resume_peers : gset NodeId }.
Arguments t : clear implicits.
Arguments mk {Pr} _ _ _ _.

Definition __init__ {Pr} (local_id : NodeId) : t Pr := mk local_id [] ∅ ∅.

Definition set_providers {Pr} (m : t Pr) (p : list (NodeId * Pr)) : t Pr :=
  mk (_local_id m) p (_generations m) (_resume_peers m).
Definition set_generations {Pr} (m : t Pr) (g : gmap NodeId Z) : t Pr :=
  mk (_local_id m) (_providers m) g (_resume_peers m).
Definition set_resume {Pr} (m : t Pr) (r : gset NodeId) : t Pr :=
  mk (_local_id m) (_providers m) (_generations m) r.

Definition providers {Pr} (m : t Pr) : list NodeId := (_providers m).*1.

Definition connection_generation {Pr} (m : t Pr) (peer_id : NodeId) : Z :=
  default 0%Z (_generations m !! peer_id).

Definition is_current_generation {Pr} (m : t Pr) (peer_id : NodeId) (generation : Z) : bool :=
  bool_decide (_generations m !! peer_id = Some generation).

(** [self._generations[peer_id] = self._generations.get(peer_id, 0) + 1] *)
Definition next_generation {Pr} (peer_id : NodeId) (m : t Pr) : t Pr :=
  set_generations m (<[peer_id := (connection_generation m peer_id + 1)%Z]> (_generations m)).
End ConnectionManager.
Import ConnectionManager.

(** The objects the manager works on. *)
Module Network.
Record t {Pr : Type} := mk {
  pairing : PairingManager.t;
  registry : NodeRegistry.t;
  candidates : list (string * DiscoveredNodeCandidate.t);
  manager : ConnectionManager.t Pr }.
Arguments t : clear implicits.
Arguments mk {Pr} _ _ _ _.

Definition set_pairing {Pr} (n : t Pr) (p : PairingManager.t) : t Pr :=
  mk p (registry n) (candidates n) (manager n).
Definition set_registry {Pr} (n : t Pr) (r : NodeRegistry.t) : t Pr :=
  mk (pairing n) r (candidates n) (manager n).
Definition set_candidates {Pr} (n : t Pr) (c : list (string * DiscoveredNodeCandidate.t)) : t Pr :=
  mk (pairing n) (registry n) c (manager n).
Definition set_manager {Pr} (n : t Pr) (m : ConnectionManager.t Pr) : t Pr :=
  mk (pairing n) (registry n) (candidates n) m.

Definition on_registry {Pr A} (m : M NodeRegistry.t A) : M (t Pr) A := λ n,
  let '(r, res) := m (registry n) in (set_registry n r, res).

Definition on_manager {Pr} (f : ConnectionManager.t Pr → ConnectionManager.t Pr) : M (t Pr) () := λ n,
  (set_manager n (f (manager n)), Ok ()).

Definition on_pairing {Pr} (f : PairingManager.t → PairingManager.t) : M (t Pr) () := λ n,
  (set_pairing n (f (pairing n)), Ok ()).

(** [_set_state]: a peer the registry does not know has no connection. *)
Definition _set_state {Pr} (peer_id : NodeId) (state : ConnectionState.t) : M (t Pr) () := λ n,
  match NodeRegistry.record (registry n) peer_id with
  | None => (n, Ok ())
  | Some _ => (on_registry (NodeRegistry.set_connection peer_id state);; mret ()) n
  end.

(** One endpoint of a candidate replaced, wherever its key occurs. *)
Definition mark {Pr} (f : EndpointCandidate.t → result EndpointCandidate.t) (peer_id : NodeId)
    (endpoint : EndpointCandidate.t) : M (t Pr) () := λ n,
  match od_get (value peer_id) (candidates n) with
  | None => (n, Ok ())
  | Some c =>
      match mapM (λ item, if bool_decide (EndpointCandidate.key item = EndpointCandidate.key endpoint)
                          then f item else Ok item)
              (DiscoveredNodeCandidate.endpoint_candidates c) with
      | Err e => (n, Err e)
      | Ok updated =>
          (set_candidates n (od_set (value peer_id) (DiscoveredNodeCandidate.with_endpoints c updated)
                               (candidates n)), Ok ())
      end
  end.
Definition _mark_success {Pr} (peer_id : NodeId) (endpoint : EndpointCandidate.t) (now : float) : M (t Pr) () :=
  mark (EndpointCandidate.with_success now) peer_id endpoint.
Definition _mark_failure {Pr} (peer_id : NodeId) (endpoint : EndpointCandidate.t) (now : float) : M (t Pr) () :=
  mark (EndpointCandidate.with_failure now) peer_id endpoint.
End Network.

(** A world that has a network. *)
Class HasNetwork (W Pr : Type) := {
  net : W → Network.t Pr;
  with_net : Network.t Pr → W → W;
  net_with : ∀ n w, net (with_net n w) = n;
  with_net_net : ∀ w, with_net (net w) w = w;
  with_net_twice : ∀ n n' w, with_net n (with_net n' w) = with_net n w }.

(** ** The texts of a candidate that a hello must repeat *)

(** [hello.get(field) == expected] for an optional text and an optional number. *)
Definition same_text (v : json) (expected : option string) : bool :=
  match expected, v with
  | None, _ => true
  | Some e, JStr s => bool_decide (s = e)
  | Some _, _ => false
  end.
Definition same_number (v : json) (expected : option Z) : bool :=
  match expected with None => true | Some e => equals_int v e end.

Definition is_null (v : json) : bool := match v with JNull => true | _ => false end.

Section manager.
Context (b64decode : string → option string) (ed25519_verify : string → string → string → bool).

(** A transport that differs from the pinned one is proved by the stored root. *)
Definition transport_allowed (trusted : TrustedPeer.t) (candidate : DiscoveredNodeCandidate.t) : bool :=
  candidate_transport_generation_allowed b64decode ed25519_verify (TrustedPeer.peer_id trusted)
    (TrustedPeer.material trusted) (DiscoveredNodeCandidate.transport_fingerprint candidate)
    (DiscoveredNodeCandidate.transport_generation candidate)
    (DiscoveredNodeCandidate.transport_proof candidate).

(** The candidate shows the pinned transport. *)
Definition same_transport (trusted : TrustedPeer.t) (candidate : DiscoveredNodeCandidate.t) : bool :=
  bool_decide (DiscoveredNodeCandidate.transport_fingerprint candidate
               = transport_fingerprint (TrustedPeer.material trusted)).

Definition _validate_hello_generation (trusted : TrustedPeer.t) (candidate : DiscoveredNodeCandidate.t)
    (hello : dict) : result () :=
  let field name := jget name hello in
  if forallb (λ name, is_null (field name))
       ["transport_fingerprint"; "root_public_key"; "transport_generation"; "transport_proof"]
  then raise_if (negb (same_transport trusted candidate)) RemoteAuthError
         "replacement transport has no continuity proof"
  else
    raise_if (negb (same_text (field "transport_fingerprint")
                      (DiscoveredNodeCandidate.transport_fingerprint candidate)
                    && same_text (field "root_public_key") (DiscoveredNodeCandidate.root_public_key candidate)
                    && same_number (field "transport_generation")
                         (DiscoveredNodeCandidate.transport_generation candidate)
                    && same_text (field "transport_proof")
                         (DiscoveredNodeCandidate.transport_proof candidate)))
      RemoteAuthError "hello transport continuity does not match route";;
    raise_if (negb (same_transport trusted candidate) && negb (transport_allowed trusted candidate))
      RemoteAuthError "transport continuity proof is invalid".

(** [replace(trusted, ...)] with the transport of the candidate. *)
Definition with_transport (trusted : TrustedPeer.t) (candidate : DiscoveredNodeCandidate.t) : TrustedPeer.t :=
  TrustedPeer.mk (TrustedPeer.peer_id trusted) (TrustedPeer.secret trusted) (TrustedPeer.permissions trusted)
    (Material.mk (Material.identity_fingerprint (TrustedPeer.material trusted))
       (DiscoveredNodeCandidate.transport_fingerprint candidate)
       (DiscoveredNodeCandidate.root_public_key candidate)
       (DiscoveredNodeCandidate.transport_generation candidate)
       (DiscoveredNodeCandidate.transport_proof candidate)).

(** ** The manager's collaborators *)

Context {W Pr T : Type} `{HasNetwork W Pr}.
(** [time.time()] *)
Context (time : M W float).
(** [TLSRemoteTransport(address, port, expected_fingerprint)] *)
Context (tls_transport : string → Z → string → M W T).
(** [provider_factory(node_id, caller_node_id, secret, transport)] and [provider.hello()] *)
Context (provider_factory : NodeId → NodeId → string → T → M W Pr) (provider_hello : Pr → M W dict).
Context (_persist : option (M W bool)).
Context (_on_route_attempt : option (string → EndpointCandidate.t → string → option string → M W ())).

Definition network : M W (Network.t Pr) := λ w, (w, Ok (net w)).
Definition on_net {A} (m : M (Network.t Pr) A) : M W A := λ w,
  let '(n, r) := m (net w) in (with_net n w, r).

Definition set_state (peer_id : NodeId) (status : ConnectionStatus.t) (reason : option string) : M W () :=
  changed_at ← time;
  on_net (Network._set_state peer_id (ConnectionState.mk status reason (Some changed_at))).

Definition _report_route_attempt (phase : string) (endpoint : EndpointCandidate.t) (result : string)
    (error : option string) : M W () :=
  match _on_route_attempt with
  | None => mret ()
  | Some report => attempt (report phase endpoint result error) (λ _, mret ())
  end.

Definition _record_route_failure (peer_id : NodeId) (endpoint : EndpointCandidate.t) (error : exn) : M W () :=
  now ← time;
  on_net (Network._mark_failure peer_id endpoint now);;
  _report_route_attempt "connection" endpoint "failed" (Some (exn_msg error)).

Definition _record_generation (peer_id : NodeId) (trusted : TrustedPeer.t)
    (candidate : DiscoveredNodeCandidate.t) : M W () :=
  if same_transport trusted candidate then mret ()
  else
    let store peer := on_net (Network.on_pairing (λ m,
      PairingManager.set_trusted m (<[peer_id := peer]> (PairingManager.trusted m)))) in
    store (with_transport trusted candidate);;
    match _persist with
    | None => mret ()
    | Some persist =>
        persisted ← outcome persist;
        match persisted with
        | Ok true => mret ()
        | _ => store trusted;;
               throw RemoteAuthError "transport generation was not durably persisted"
        end
    end.

(** ** [connect] *)

(** The classes of errors after which the next route is tried. *)
Definition route_error (e : exn) : bool :=
  exn_isa e OSError || exn_isa e ConnectionError || exn_isa e RemoteExecutionError
  || exn_isa e RemoteTransportError.

(** The candidate is refused as another peer. *)
Definition identity_changed (peer_id : NodeId) (reason : string) : M W Pr :=
  on_net (Network.on_registry (NodeRegistry.observe peer_id ∅));;
  set_state peer_id ConnectionStatus.IDENTITY_CHANGED (Some reason);;
  throw RemoteAuthError reason.

(** What a route is used for: the peer proves who it is and tells its capabilities. *)
Definition authenticate_route (peer_id : NodeId) (trusted : TrustedPeer.t)
    (candidate : DiscoveredNodeCandidate.t) (transport : T) : M W (Pr * gset NodeCapability) :=
  n ← network;
  provider ← provider_factory peer_id (_local_id (Network.manager n)) (TrustedPeer.secret trusted) transport;
  hello ← provider_hello provider;
  lift (_validate_hello_generation trusted candidate hello);;
  capabilities ← lift (parse_hello_capabilities (JObj hello));
  _record_generation peer_id trusted candidate;;
  on_net (Network.on_pairing (PairingManager.mark_auth_ok peer_id));;
  mret (provider, capabilities).

Definition authentication_failed (peer_id : NodeId) (endpoint : EndpointCandidate.t) (e : exn) : M W Pr :=
  (if exn_isa e RemoteAuthError
   then on_net (Network.on_pairing (PairingManager.mark_auth_failure peer_id))
   else mret ());;
  _report_route_attempt "connection" endpoint "failed" (Some (exn_msg e));;
  set_state peer_id ConnectionStatus.AUTHENTICATION_FAILED (Some (exn_msg e));;
  lift (Err e).

Definition connected (peer_id : NodeId) (endpoint : EndpointCandidate.t) (provider : Pr)
    (capabilities : gset NodeCapability) : M W Pr :=
  on_net (Network.on_registry (NodeRegistry.observe peer_id capabilities));;
  on_net (Network.on_registry (NodeRegistry.promote peer_id capabilities));;
  on_net (Network.on_manager (λ m, set_providers m (od_set peer_id provider (_providers m))));;
  set_state peer_id ConnectionStatus.ONLINE None;;
  now ← time;
  on_net (Network._mark_success peer_id endpoint now);;
  _report_route_attempt "connection" endpoint "succeeded" None;;
  mret provider.

Definition forget_provider (peer_id : NodeId) : M W () :=
  on_net (Network.on_manager (λ m, set_providers m (od_pop peer_id (_providers m)))).

(** The routes in turn; [last] is the last error. *)
Fixpoint try_routes (peer_id : NodeId) (trusted : TrustedPeer.t) (candidate : DiscoveredNodeCandidate.t)
    (fingerprint : string) (last : option exn) (routes : list EndpointCandidate.t) : M W Pr :=
  match routes with
  | [] =>
      let error := default (Exn ConnectionError "all endpoint routes failed") last in
      forget_provider peer_id;;
      set_state peer_id ConnectionStatus.OFFLINE (Some (exn_msg error));;
      lift (Err error)
  | endpoint :: routes =>
      _report_route_attempt "connection" endpoint "started" None;;
      transport ← outcome (tls_transport (address endpoint) (port endpoint) fingerprint);
      match transport with
      | Err e =>
          if route_error e || exn_isa e TypeError || exn_isa e ValueError
          then _record_route_failure peer_id endpoint e;;
               try_routes peer_id trusted candidate fingerprint (Some e) routes
          else lift (Err e)
      | Ok transport =>
          authenticated ← outcome (authenticate_route peer_id trusted candidate transport);
          match authenticated with
          | Ok (provider, capabilities) => connected peer_id endpoint provider capabilities
          | Err e =>
              if exn_isa e RemoteProtocolError then authentication_failed peer_id endpoint e
              else if route_error e
              then _record_route_failure peer_id endpoint e;;
                   try_routes peer_id trusted candidate fingerprint (Some e) routes
              else lift (Err e)
          end
      end
  end.

(** A new generation of the connection, then its routes. *)
Definition open_connection (peer_id : NodeId) (trusted : TrustedPeer.t)
    (candidate : DiscoveredNodeCandidate.t) : M W Pr :=
  throw_if (negb (DiscoveredNodeCandidate.connectable candidate)) ConnectionError "peer is not connectable";;
  if negb (bool_decide (DiscoveredNodeCandidate.stable_id candidate = value peer_id))
  then identity_changed peer_id "discovered peer identity does not match route"
  else
    let endpoints := List.filter usable (DiscoveredNodeCandidate.endpoint_candidates candidate) in
    throw_if (bool_decide (endpoints = [])) ConnectionError "peer has no connectable endpoint";;
    if negb (transport_allowed trusted candidate)
    then identity_changed peer_id "peer transport fingerprint changed"
    else
      fingerprint ← lift (of_option (truthy (DiscoveredNodeCandidate.transport_fingerprint candidate))
                            RemoteAuthError "peer has no transport fingerprint");
      n ← network;
      on_net (Network.on_manager (next_generation peer_id));;
      on_net (Network.on_manager (λ m, set_resume m (_resume_peers m ∖ {[peer_id]})));;
      on_net (Network.on_registry (NodeRegistry.observe peer_id ∅));;
      set_state peer_id (if bool_decide (peer_id ∈ _resume_peers (Network.manager n))
                         then ConnectionStatus.RESUMING else ConnectionStatus.CONNECTING) None;;
      try_routes peer_id trusted candidate fingerprint None (sorted endpoint_leb endpoints).

Definition connect (peer_id : NodeId) : M W Pr :=
  n ← network;
  match od_get peer_id (_providers (Network.manager n)) with
  | Some existing => mret existing
  | None =>
      match PairingManager.get_trusted (Network.pairing n) peer_id,
            od_get (value peer_id) (Network.candidates n) with
      | Some trusted, Some candidate =>
          throw_if (negb (DiscoveredNodeCandidate.compatible candidate)) PermissionError
            "peer must be discovered and trusted first";;
          open_connection peer_id trusted candidate
      | _, _ => throw PermissionError "peer must be discovered and trusted first"
      end
  end.

Definition reconnect (peer_id : NodeId) : M W Pr :=
  forget_provider peer_id;;
  on_net (Network.on_manager (λ m, set_resume m ({[peer_id]} ∪ _resume_peers m)));;
  set_state peer_id ConnectionStatus.RESUMING None;;
  connect peer_id.

(** ** [disconnect] *)

Definition disconnect (peer_id : NodeId) (reason : string) : M W () :=
  on_net (Network.on_manager (next_generation peer_id));;
  forget_provider peer_id;;
  set_state peer_id ConnectionStatus.OFFLINE (Some reason).

Fixpoint disconnect_each (peers : list NodeId) : M W () :=
  match peers with
  | [] => mret ()
  | peer_id :: peers => disconnect peer_id "disconnected";; disconnect_each peers
  end.

Definition disconnect_all : M W () :=
  n ← network; disconnect_each (providers (Network.manager n)).
End manager.
