(* ===== verification/PairingFlow.v ===== *)
(** * Outbound pairing ([pairing/flow.py], the pairing messages of [remote/provider.py])

    [NetworkPairing] pairs with a discovered peer, or repairs broken credentials: it opens a
    transaction, sends the request over the routes of the peer, trusts the target with what it
    accepted, saves, and has the target confirm; whatever fails on the way is rolled back.  It
    acts on the network of its runtime.  What lies beyond, the transport, the clock, the drawn
    secrets and the flag that cancels, is a parameter; a message is the object it encodes. *)

From S2P Require Import Prelude PyFloat Identity Sharing ConnectionState NodeRegistry PyJson StateCodec Wire Pairing Candidates Connections.
Import EndpointCandidate(address, port).
Abbreviation dict := (list (string * json)) (only parsing).

(** ** [PairingTransaction] ([pairing/models.py]) *)

Module PairingTransaction.
Record t {T : Type} := mk {
  transaction_id : json;
  caller_node_id : json;
  identity_fingerprint : json;
  transport_fingerprint : json;
  secret : json;
  permissions : gset NodePermission;
  expires_at : json;
  transport : T;
  root_public_key : json;
  transport_generation : json;
  transport_proof : json }.
Arguments t : clear implicits.
Arguments mk {T}.
End PairingTransaction.

(** [sorted(permission.value for permission in permissions)] *)
Definition permission_list (l : gset NodePermission) : json :=
  JList (JStr <$> sorted str_leb (NodePermission.value <$> elements l)).

(** ** The messages of [AuthenticatedNodeProvider] *)

Section messages.
Context {W T : Type}.
(** [json.loads(transport.request(json.dumps(envelope)))] *)
Context (exchange : T → dict → M W json).
(** [cancel_event is not None and cancel_event.is_set()] *)
Context (cancelled : M W bool).

Definition approved (response : json) : option dict :=
  d ← is_obj response;
  match jget "approved" d with JBool true => Some d | _ => None end.

(** The envelope of [request_pairing]; the flow passes no root, generation or proof. *)
Definition pair_request (caller_node_id : NodeId) (identity_fingerprint transport_fingerprint proposed_secret : string)
    (root_public_key : option string) (transport_generation : option Z) (transport_proof : option string)
    (permissions : gset NodePermission) (intent : string) : dict :=
  [("op", JStr "pair_request"); ("pairing_mode", JStr "transactional");
   ("caller_node_id", JStr (value caller_node_id)); ("identity_fingerprint", JStr identity_fingerprint);
   ("transport_fingerprint", JStr transport_fingerprint);
   ("root_public_key", from_option JStr JNull root_public_key);
   ("transport_generation", from_option JInt JNull transport_generation);
   ("transport_proof", from_option JStr JNull transport_proof); ("secret", JStr proposed_secret);
   ("permissions", permission_list permissions); ("intent", JStr intent)].

(** [None] is the answer [False]. *)
Definition request_pairing (transport : T) (envelope : dict) : M W (option dict) :=
  stop ← cancelled;
  if (stop : bool) then mret None
  else response ← exchange transport envelope;
       stop ← cancelled;
       if (stop : bool) then mret None
       else mret (d ← approved response;
                  id ← is_str (jget "transaction_id" d);
                  if bool_decide (id = "") then None else Some d).

Definition control_message (operation : string) (transaction : PairingTransaction.t T) : dict :=
  [("op", JStr operation); ("transaction_id", PairingTransaction.transaction_id transaction);
   ("caller_node_id", PairingTransaction.caller_node_id transaction);
   ("identity_fingerprint", PairingTransaction.identity_fingerprint transaction);
   ("transport_fingerprint", PairingTransaction.transport_fingerprint transaction);
   ("secret", PairingTransaction.secret transaction);
   ("permissions", permission_list (PairingTransaction.permissions transaction));
   ("expires_at", PairingTransaction.expires_at transaction)].

Definition pairing_control (operation : string) (transaction : PairingTransaction.t T)
    (cancelled : M W bool) : M W bool :=
  throw_if (negb (bool_decide (operation ∈ ["pair_confirm"; "pair_abort"]))) ValueError
    "invalid pairing control operation";;
  stop ← cancelled;
  if (stop : bool) then mret false
  else response ← exchange (PairingTransaction.transport transaction) (control_message operation transaction);
       mret (bool_decide (is_Some (approved response))).

Definition confirm_pairing (transaction : PairingTransaction.t T) : M W bool :=
  pairing_control "pair_confirm" transaction cancelled.
Definition abort_pairing (transaction : PairingTransaction.t T) : M W bool :=
  pairing_control "pair_abort" transaction (mret false).
End messages.

(** ** [NetworkPairing] *)

Section flow.
Context (sha256_hex : string → string).
Context (b64decode : string → option string) (ed25519_verify : string → string → string → bool).
(** The constructor's members: the identity, and what its transport presents of itself. *)
Context (_identity : NodeId) (identity_root : string) (sign_transport_proof : Z → string → result string).
Context (_transport_fingerprint : string) (_root_public_key : option string) (_transport_generation : Z)
  (_transport_proof : option string).
Context {W Pr T : Type} `{HasNetwork W Pr}.
Context (time : M W float) (fresh_secret : M W string) (fresh_id : M W string) (cancelled : M W bool).
Context (tls_transport : string → Z → string → M W T) (exchange : T → dict → M W json).
Context (_persist : M W bool).
Context (_on_route_attempt : option (string → EndpointCandidate.t → string → option string → M W ())).

Notation report := (_report_route_attempt _on_route_attempt "pairing").
Notation network := (Connections.network (W := W)).
Notation abort := (abort_pairing exchange).
Notation confirm := (confirm_pairing exchange cancelled).

Definition own_fingerprint : string := node_identity_fingerprint sha256_hex (value _identity).

(** What this node shows of itself. *)
Definition own_material : result Material.t :=
  proof ← match truthy _transport_proof with
          | Some proof => Ok proof
          | None => sign_transport_proof _transport_generation _transport_fingerprint
          end;
  Ok (Material.mk (Some own_fingerprint) (Some _transport_fingerprint)
        (Some (default identity_root (truthy _root_public_key))) (Some _transport_generation) (Some proof)).

Definition on_pairing {A} (m : M PairingManager.t A) : M W A :=
  on_net (λ n, let '(p, r) := m (Network.pairing n) in (Network.set_pairing n p, r)).
Definition edit_pairing (f : PairingManager.t → PairingManager.t) : M W () := on_net (Network.on_pairing f).

Definition _rollback (peer_id : NodeId) (previous : option TrustedPeer.t) (previous_broken : bool)
    (transaction_id : string) : M W () :=
  edit_pairing (PairingManager.abort transaction_id);;
  edit_pairing (PairingManager.restore_trusted peer_id previous previous_broken);;
  _persist;;
  mret ().

(** *** Before anything is sent *)

Definition find_candidate (peer_id : NodeId) (permissions : gset string) (n : Network.t Pr)
    : result (DiscoveredNodeCandidate.t * string) :=
  candidate ← of_option (od_get (value peer_id) (Network.candidates n)) ConnectionError
                "peer must be discovered and connectable";
  raise_if (negb (DiscoveredNodeCandidate.compatible candidate)
            || negb (bool_decide (is_Some (DiscoveredNodeCandidate.port candidate)))
            || bool_decide (DiscoveredNodeCandidate.addresses candidate = [])) ConnectionError
    "peer must be discovered and connectable";;
  fingerprint ← of_option (truthy (DiscoveredNodeCandidate.transport_fingerprint candidate)) ValueError
                  "peer advertisement has no transport fingerprint";
  raise_if (negb (bool_decide (permissions ⊆ list_to_set (NodePermission.value <$> elements READ_PERMISSIONS))))
    ValueError "pairing permissions must be read-only";;
  Ok (candidate, fingerprint).

Definition is_trusted_state (s : RelationshipState) : bool :=
  match s with OUTBOUND_TRUSTED | BIDIRECTIONAL => true | _ => false end.

(** What the state of the relationship makes of an attempt: the trusted peer there already is,
    or a new transaction. *)
Definition admit_pair (previous : option TrustedPeer.t) (s : RelationshipState) : result (option TrustedPeer.t) :=
  match s with
  | IDENTITY_CONFLICT => raise IdentityConflict "peer identity conflicts with stored trust"
  | OUTBOUND_TRUSTED | BIDIRECTIONAL => Some <$> of_option previous OtherError "previous is not None"
  | REPAIR_REQUIRED => raise RepairRequired "peer credentials require explicit repair"
  | PENDING_OUTBOUND => raise PairingBusy "a pairing transaction is already active for this peer"
  | _ => Ok None
  end.
Definition admit_repair (previous : option TrustedPeer.t) (s : RelationshipState) : result () :=
  match previous with
  | None => raise PairingConflict "peer has no outbound relationship to repair"
  | Some _ =>
      match s with
      | IDENTITY_CONFLICT => raise IdentityConflict "peer cannot prove continuity of the stored root"
      | OUTBOUND_TRUSTED | BIDIRECTIONAL => raise RepairNotRequired "peer relationship does not require repair"
      | REPAIR_REQUIRED => Ok ()
      | _ => raise PairingConflict "peer relationship cannot be repaired"
      end
  end.

(** *** The routes *)

(** The errors after which the next route is tried. *)
Definition route_failed (e : exn) : bool :=
  exn_isa e OSError || exn_isa e ConnectionError || exn_isa e RemoteTransportError.

Definition request_over (endpoint : EndpointCandidate.t) (fingerprint : string) (envelope : dict)
    : M W (T * option dict) :=
  transport ← tls_transport (address endpoint) (port endpoint) fingerprint;
  response ← request_pairing exchange cancelled transport envelope;
  mret (transport, response).

(** The endpoint and the transport that answered; [None] when no route did, with the last error. *)
Fixpoint try_pairing_routes (fingerprint : string) (envelope : dict) (last : option exn)
    (routes : list EndpointCandidate.t)
    : M W ((EndpointCandidate.t * T * option dict) + option exn) :=
  match routes with
  | [] => mret (inr last)
  | endpoint :: routes =>
      report endpoint "started" None;;
      answer ← outcome (request_over endpoint fingerprint envelope);
      match answer with
      | Ok (transport, response) => mret (inl (endpoint, transport, response))
      | Err e =>
          if route_failed e
          then report endpoint "failed" (Some (exn_msg e));;
               try_pairing_routes fingerprint envelope (Some e) routes
          else lift (Err e)
      end
  end.
(** *** After the answer *)

(** The permissions the target accepted, among those asked for. *)
Definition parse_permissions (response : dict) : result (gset NodePermission) :=
  l ← index "permissions" response;
  items ← py_iter l;
  permissions ← mapM (λ v, match v with
                           | JStr s => NodePermission.of_value s
                           | _ => raise ValueError "not a valid NodePermission"
                           end) items;
  Ok (list_to_set permissions).

Definition transaction_of (response : dict) (permissions : gset NodePermission) (transport : T)
    : result (PairingTransaction.t T) :=
  id ← index "transaction_id" response;
  caller ← index "caller_node_id" response;
  identity ← index "identity_fingerprint" response;
  fingerprint ← index "transport_fingerprint" response;
  secret ← index "secret" response;
  expires_at ← index "expires_at" response;
  Ok (PairingTransaction.mk id caller identity fingerprint secret permissions expires_at transport
        (jget "root_public_key" response) (jget "transport_generation" response)
        (jget "transport_proof" response)).

(** The material the candidate shows. *)
Definition candidate_material (candidate : DiscoveredNodeCandidate.t) : Material.t :=
  Material.mk (DiscoveredNodeCandidate.identity_fingerprint candidate)
    (DiscoveredNodeCandidate.transport_fingerprint candidate) (DiscoveredNodeCandidate.root_public_key candidate)
    (DiscoveredNodeCandidate.transport_generation candidate) (DiscoveredNodeCandidate.transport_proof candidate).

(** [try: abort finally: rollback], then [failure] unless the abort raised. *)
Definition abandon (peer_id : NodeId) (previous : option TrustedPeer.t) (previous_broken : bool)
    (transaction_id : string) (transaction : PairingTransaction.t T) (failure : exn) : M W TrustedPeer.t :=
  aborted ← outcome (abort transaction);
  _rollback peer_id previous previous_broken transaction_id;;
  match aborted with Ok _ => lift (Err failure) | Err e => lift (Err e) end.

(** Cancelled after the trust was taken: rolled back, then the target is told. *)
Definition unless_cancelled (peer_id : NodeId) (previous : option TrustedPeer.t) (previous_broken : bool)
    (transaction_id : string) (transaction : PairingTransaction.t T) (k : M W TrustedPeer.t) : M W TrustedPeer.t :=
  stop ← cancelled;
  if (stop : bool)
  then _rollback peer_id previous previous_broken transaction_id;;
       abort transaction;;
       throw RuntimeError "pairing cancelled"
  else k.

(** The local commit, then the target's. *)
Definition commit (peer_id : NodeId) (previous : option TrustedPeer.t) (previous_broken : bool)
    (transaction_id : string) (transaction : PairingTransaction.t T) (trusted : TrustedPeer.t) : M W TrustedPeer.t :=
  let again := unless_cancelled peer_id previous previous_broken transaction_id transaction in
  let fail := abandon peer_id previous previous_broken transaction_id transaction in
  again
    (persisted ← _persist;
     if negb persisted then fail (Exn RuntimeError "pairing was not durably persisted")
     else again
            (confirmed ← outcome (confirm transaction);
             match confirmed with
             | Ok true => mret trusted
             | Ok false => fail (Exn PermissionError "peer did not confirm pairing")
             | Err e => fail e
             end)).

(** The answer of the target is taken: its permissions, then its trust. *)
Definition accept (peer_id : NodeId) (candidate : DiscoveredNodeCandidate.t) (permissions : gset string)
    (previous : option TrustedPeer.t) (previous_broken : bool) (pending : PendingPairing.t) (own : Material.t)
    (endpoint : EndpointCandidate.t) (transport : T) (response : dict) : M W TrustedPeer.t :=
  let id := PendingPairing.transaction_id pending in
  let rollback := _rollback peer_id previous previous_broken id in
  match parse_permissions response with
  | Err _ => rollback;; throw ValueError "pairing response permissions are malformed"
  | Ok accepted =>
      if bool_decide (accepted = ∅)
         || negb (bool_decide (Permission.values (Permission.members accepted) ⊆ permissions))
      then rollback;; throw PermissionError "peer returned permissions outside the request"
      else report endpoint "succeeded" None;;
           transaction ← lift (transaction_of response accepted transport);
           current ← time;
           trusted ← on_pairing (PairingManager.accept_grant id peer_id
                       (PeerGrant.mk _identity (PendingPairing.secret pending) (Permission.members accepted) own)
                       (candidate_material candidate) current);
           commit peer_id previous previous_broken id transaction trusted
  end.

(** A transaction from its request to its end. *)
Definition transact (peer_id : NodeId) (candidate : DiscoveredNodeCandidate.t) (fingerprint : string)
    (permissions : gset string) (previous : option TrustedPeer.t) (previous_broken : bool) (intent : string)
    : M W TrustedPeer.t :=
  secret ← fresh_secret;
  own ← lift own_material;
  id ← fresh_id;
  now1 ← time; now2 ← time; now3 ← time;
  pending ← on_pairing (PairingManager.begin_ peer_id (Some secret) own "outbound" intent now1 now2 now3 id secret);
  endpoints ← lift (pairing_endpoint_candidates candidate);
  requested ← lift (mapM NodePermission.of_value (elements permissions));
  answer ← try_pairing_routes fingerprint
             (pair_request _identity own_fingerprint _transport_fingerprint (PendingPairing.secret pending)
                None None None (list_to_set requested) intent) None
             (sorted endpoint_leb endpoints);
  let id := PendingPairing.transaction_id pending in
  match answer with
  | inr last =>
      _rollback peer_id previous previous_broken id;;
      lift (Err (default (Exn ConnectionError "pairing routes failed") last))
  | inl (endpoint, transport, None) =>
      report endpoint "rejected" (Some "peer rejected pairing");;
      _rollback peer_id previous previous_broken id;;
      stop ← cancelled;
      if (stop : bool) then throw RuntimeError "pairing cancelled"
      else throw PermissionError "peer rejected pairing"
  | inl (endpoint, transport, Some response) =>
      accept peer_id candidate permissions previous previous_broken pending own endpoint transport response
  end.

Definition _establish (peer_id : NodeId) (permissions : gset string) (intent : string) : M W TrustedPeer.t :=
  stop ← cancelled;
  throw_if stop RuntimeError "pairing cancelled";;
  n ← network;
  found ← lift (find_candidate peer_id permissions n);
  let '(candidate, fingerprint) := found in
  let previous := PairingManager.get_trusted (Network.pairing n) peer_id in
  let previous_broken := PairingManager.is_auth_broken (Network.pairing n) peer_id in
  current ← time;
  let state := PairingManager.classify_trusted_candidate b64decode ed25519_verify (Network.pairing n) peer_id
                 (DiscoveredNodeCandidate.root_public_key candidate)
                 (DiscoveredNodeCandidate.transport_fingerprint candidate)
                 (DiscoveredNodeCandidate.transport_generation candidate)
                 (DiscoveredNodeCandidate.transport_proof candidate) current in
  let proceed := transact peer_id candidate fingerprint permissions previous previous_broken intent in
  if bool_decide (intent = "pair")
  then existing ← lift (admit_pair previous state);
       match existing with Some trusted => mret trusted | None => proceed end
  else lift (admit_repair previous state);; proceed.

Definition pair (peer_id : NodeId) (permissions : gset string) : M W TrustedPeer.t :=
  _establish peer_id permissions "pair".
Definition repair (peer_id : NodeId) (permissions : gset string) : M W TrustedPeer.t :=
  _establish peer_id permissions "repair".
End flow.
