(* ===== verification/PairingFlowSpec.v ===== *)
(** * Outbound pairing: all or nothing, and what a restart makes of it

    A failed attempt leaves the trust of every peer as it was; a successful one installs
    exactly the peer that was discovered, saved and confirmed. *)

From S2P Require Import Prelude PyFloat Identity ClusterModels Roles RolesFacts Sharing ConnectionState NodeRegistry PyJson StateCodec Wire Pairing PairingSpec Documents TrustCodec TrustCodecSpec Candidates Connections PairingFlow.
Import PairingManager(trusted, is_auth_broken).
Abbreviation dict := (list (string * json)) (only parsing).

Section spec.
Context (sha256_hex : string → string).
Context (b64decode : string → option string) (ed25519_verify : string → string → string → bool).
Context (_identity : NodeId) (identity_root : string) (sign_transport_proof : Z → string → result string).
Context (_transport_fingerprint : string) (_root_public_key : option string) (_transport_generation : Z)
  (_transport_proof : option string).
Context {W Pr T : Type} `{HasNetwork W Pr}.
Context (time : M W float) (fresh_secret : M W string) (fresh_id : M W string) (cancelled : M W bool).
Context (tls_transport : string → Z → string → M W T) (exchange : T → dict → M W json).
Context (_persist : M W bool).
Context (_on_route_attempt : option (string → EndpointCandidate.t → string → option string → M W ())).
Implicit Types (w : W).

Notation pairing w := (Network.pairing (net w)).
Notation establish := (_establish sha256_hex b64decode ed25519_verify _identity identity_root sign_transport_proof
  _transport_fingerprint _root_public_key _transport_generation _transport_proof time fresh_secret fresh_id
  cancelled tls_transport exchange _persist _on_route_attempt).
Notation transact := (transact sha256_hex _identity identity_root sign_transport_proof
  _transport_fingerprint _root_public_key _transport_generation _transport_proof time fresh_secret fresh_id
  cancelled tls_transport exchange _persist _on_route_attempt).
Notation accept := (accept _identity time cancelled exchange _persist _on_route_attempt).
Notation commit := (commit cancelled exchange _persist).
Notation rollback := (_rollback _persist).
Notation abort := (abort_pairing exchange).
Notation confirm := (confirm_pairing exchange cancelled).

(** ** What lies beyond leaves trust alone *)

Definition trust_same w w' : Prop := pairing w' = pairing w.
#[local] Instance trust_same_refl : Reflexive trust_same.
Proof. by intros w. Qed.
#[local] Instance trust_same_trans : Transitive trust_same.
Proof. unfold trust_same. intros w1 w2 w3 ??. congruence. Qed.

Context {Htime : Keeps trust_same time} {Hsecret : Keeps trust_same fresh_secret}
  {Hid : Keeps trust_same fresh_id} {Hcancel : Keeps trust_same cancelled}
  {Htls : ∀ a q f, Keeps trust_same (tls_transport a q f)} {Hexchange : ∀ t d, Keeps trust_same (exchange t d)}
  {Hpersist : Keeps trust_same _persist}
  {Hreport : ∀ f a e r m, _on_route_attempt = Some f → Keeps trust_same (f a e r m)}.
(** Saving gives a verdict, and looking at the flag raises nothing. *)
Context (Hsaves : ∀ w, is_ok (_persist w).2 = true) (Hflag : ∀ w, is_ok (cancelled w).2 = true).

#[local] Instance report_same phase e r m : Keeps trust_same (_report_route_attempt _on_route_attempt phase e r m).
Proof.
  unfold _report_route_attempt. destruct _on_route_attempt as [f|] eqn:E; [|apply _].
  pose proof (Hreport f phase e r m eq_refl). apply _.
Qed.
#[local] Instance control_same op transaction stop : Keeps trust_same stop →
  Keeps trust_same (pairing_control exchange op transaction stop).
Proof. intros Hs. unfold pairing_control. keeps. Qed.
#[local] Instance abort_same transaction : Keeps trust_same (abort transaction).
Proof. unfold abort_pairing. apply _. Qed.
#[local] Instance confirm_same transaction : Keeps trust_same (confirm transaction).
Proof. unfold confirm_pairing. apply _. Qed.
#[local] Instance request_same e fp env : Keeps trust_same (request_over cancelled tls_transport exchange e fp env).
Proof. unfold request_over, request_pairing. keeps. Qed.
#[local] Instance routes_same fp env last routes :
  Keeps trust_same (try_pairing_routes cancelled tls_transport exchange _on_route_attempt fp env last routes).
Proof. revert last. induction routes as [|e routes IH]; intros last; simpl; keeps. Qed.

(** ** Undoing *)

(** The trust is that of before but for the peer; it is that of before. *)
Definition near (peer : NodeId) (m0 m : PairingManager.t) : Prop :=
  (∀ q, q ≠ peer → trusted m !! q = trusted m0 !! q) ∧
  (∀ q, q ≠ peer → is_auth_broken m q = is_auth_broken m0 q).
Definition undone (peer : NodeId) (m0 m : PairingManager.t) : Prop :=
  trusted m = trusted m0 ∧ ∀ q, q ≠ peer ∨ is_Some (trusted m0 !! q) → is_auth_broken m q = is_auth_broken m0 q.

Lemma undone_refl peer m : undone peer m m.
Proof. by split. Qed.
Lemma undone_near peer m0 m : undone peer m0 m → near peer m0 m.
Proof. intros [E1 E2]. split; intros q Hq; [by rewrite E1|by apply E2; left]. Qed.

Lemma restored peer m0 m tx : near peer m0 m →
  undone peer m0 (PairingManager.restore_trusted peer (PairingManager.get_trusted m0 peer)
                    (is_auth_broken m0 peer) (PairingManager.abort tx m)).
Proof.
  intros [Ht Hb]. unfold undone, PairingManager.get_trusted, PairingManager.restore_trusted, is_auth_broken in *.
  destruct (trusted m0 !! peer) as [t|] eqn:E; split; simpl.
  - apply map_eq. intros q. destruct (decide (q = peer)) as [->|Hq].
    + by rewrite lookup_insert_eq, E.
    + rewrite lookup_insert_ne by done. auto.
  - intros q _. destruct (decide (q = peer)) as [->|Hq].
    + destruct (default false (PairingManager._auth_broken m0 !! peer)) eqn:Eb; simpl; rewrite ?Eb.
      * by rewrite lookup_insert_eq.
      * by rewrite lookup_delete_eq.
    + rewrite <- (Hb q Hq). case_match; simpl; [by rewrite lookup_insert_ne|by rewrite lookup_delete_ne].
  - apply map_eq. intros q. destruct (decide (q = peer)) as [->|Hq].
    + by rewrite lookup_delete_eq, E.
    + rewrite lookup_delete_ne by done. auto.
  - intros q [Hq|[x Hx]]; [|destruct (decide (q = peer)) as [->|Hq]; [congruence|]];
      rewrite <- (Hb q Hq); by rewrite lookup_delete_ne.
Qed.

(** A method that raises has undone what was done since [m0]. *)
Definition undoes (peer : NodeId) (m0 : PairingManager.t) {A} (m : M W A) : Prop :=
  ∀ w w' e, near peer m0 (pairing w) → m w = (w', Err e) → undone peer m0 (pairing w').

Section undo.
Context (peer : NodeId) (m0 : PairingManager.t) (tx : string).
Notation previous := (PairingManager.get_trusted m0 peer).
Notation broken := (is_auth_broken m0 peer).

Lemma rollback_run w : near peer m0 (pairing w) → ∃ w', rollback peer previous broken tx w = (w', Ok ()) ∧
  undone peer m0 (pairing w').
Proof.
  intros Hn. unfold PairingFlow._rollback, edit_pairing, on_net. rewrite M_bind_run. cbn beta iota.
  unfold Network.on_pairing. cbn beta iota. rewrite M_bind_run. rewrite !net_with. cbn beta iota.
  rewrite M_bind_run.
  destruct (_persist _) as [w1 [b|e]] eqn:Hp.
  - exists w1. split; [done|]. pose proof (keeps_run trust_same _ _ _ _ Hp) as E. unfold trust_same in E.
    rewrite E, !net_with. by apply restored.
  - match type of Hp with _persist ?v = _ => pose proof (Hsaves v) as Hok end. by rewrite Hp in Hok.
Qed.

Lemma rollback_then {A} (k : M W A) w w' e : near peer m0 (pairing w) → Keeps trust_same k →
  (rollback peer previous broken tx;; k) w = (w', Err e) → undone peer m0 (pairing w').
Proof.
  intros Hn Hk Hr. destruct (rollback_run w Hn) as (w1 & H1 & Hu). rewrite M_bind_run, H1 in Hr.
  pose proof (keeps_run trust_same k _ _ _ Hr) as E. unfold trust_same in E. by rewrite E.
Qed.

Lemma near_same w w' : near peer m0 (pairing w) → trust_same w w' → near peer m0 (pairing w').
Proof. unfold trust_same. by intros ? ->. Qed.

Lemma abandon_undoes transaction failure : undoes peer m0
  (abandon exchange _persist peer previous broken tx transaction failure).
Proof.
  intros w w' e Hn Hr. unfold abandon in Hr. rewrite M_bind_run in Hr. unfold outcome in Hr.
  destruct (abort transaction w) as [w1 r] eqn:Ha.
  pose proof (near_same _ _ Hn (keeps_run trust_same _ _ _ _ Ha)) as Hn1.
  destruct r; exact (rollback_then _ _ _ _ Hn1 _ Hr).
Qed.

Lemma flag_run w : ∃ w1 stop, cancelled w = (w1, Ok stop) ∧ trust_same w w1.
Proof.
  pose proof (Hflag w) as Hok. destruct (cancelled w) as [w1 [stop|e]] eqn:Hc; [|done].
  exists w1, stop. split; [done|]. by apply (keeps_run trust_same _ _ _ _ Hc).
Qed.

Lemma unless_undoes transaction (k : M W TrustedPeer.t) : undoes peer m0 k → undoes peer m0
  (unless_cancelled cancelled exchange _persist peer previous broken tx transaction k).
Proof.
  intros Hk w w' e Hn Hr. unfold unless_cancelled in Hr. rewrite M_bind_run in Hr.
  destruct (flag_run w) as (w1 & stop & Hc & E). rewrite Hc in Hr.
  pose proof (near_same _ _ Hn E) as Hn1. destruct stop; [|by eapply Hk].
  exact (rollback_then _ _ _ _ Hn1 _ Hr).
Qed.

Lemma commit_undoes transaction t : undoes peer m0 (commit peer previous broken tx transaction t).
Proof.
  unfold PairingFlow.commit. apply unless_undoes. intros w w' e Hn Hr. rewrite M_bind_run in Hr.
  pose proof (Hsaves w) as Hok. destruct (_persist w) as [w1 [b|er]] eqn:Hp; [|done].
  pose proof (near_same _ _ Hn (keeps_run trust_same _ _ _ _ Hp)) as Hn1.
  destruct b; simpl in Hr; [|by eapply abandon_undoes].
  refine (unless_undoes _ _ _ w1 w' e Hn1 Hr).
  intros w2 w2' e2 Hn2 Hr2. rewrite M_bind_run in Hr2. unfold outcome in Hr2.
  destruct (confirm transaction w2) as [w3 r] eqn:Hcf.
  pose proof (near_same _ _ Hn2 (keeps_run trust_same _ _ _ _ Hcf)) as Hn3.
  destruct r as [[]|]; [done| |]; by eapply abandon_undoes.
Qed.

Lemma accept_near id g mat now m m1 t : near peer m0 m →
  PairingManager.accept_grant id peer g mat now m = (m1, Ok t) → near peer m0 m1.
Proof.
  unfold PairingManager.accept_grant. intros [Ht Hb] Ha. repeat case_match; simplify_eq.
  unfold near, PairingManager.trust, is_auth_broken in *. split; intros q Hq; simpl.
  - rewrite lookup_insert_ne by done. auto.
  - rewrite lookup_delete_ne by done. auto.
Qed.
Lemma accept_same id g mat now m m1 e :
  PairingManager.accept_grant id peer g mat now m = (m1, Err e) → m1 = m.
Proof. unfold PairingManager.accept_grant. intros Ha. repeat case_match; by simplify_eq. Qed.

Lemma undone_same w w' : undone peer m0 (pairing w) → trust_same w w' → undone peer m0 (pairing w').
Proof. unfold trust_same. by intros ? ->. Qed.
Lemma accept_undoes candidate permissions pending own endpoint transport response w w' e :
  undone peer m0 (pairing w) → tx = PendingPairing.transaction_id pending →
  accept peer candidate permissions previous broken pending own endpoint transport response w = (w', Err e) →
  undone peer m0 (pairing w').
Proof.
  intros Hu Htx Hr. pose proof (undone_near _ _ _ Hu) as Hn. unfold PairingFlow.accept in Hr. rewrite <- Htx in Hr.
  destruct (parse_permissions response) as [accepted|]; [|exact (rollback_then _ _ _ _ Hn _ Hr)].
  case_match; [exact (rollback_then _ _ _ _ Hn _ Hr)|].
  rewrite M_bind_run in Hr. destruct (_report_route_attempt _ _ _ _ _ w) as [w1 [u|er]] eqn:H1;
    pose proof (undone_same _ _ Hu (keeps_run trust_same _ _ _ _ H1)) as Hu1; [|by simplify_eq].
  rewrite M_bind_run in Hr. destruct (transaction_of response accepted transport) as [transaction|]; [|by simplify_eq/=].
  simpl in Hr. rewrite M_bind_run in Hr. destruct (time w1) as [w2 [now|er]] eqn:H2;
    pose proof (undone_same _ _ Hu1 (keeps_run trust_same _ _ _ _ H2)) as Hu2; [|by simplify_eq].
  rewrite M_bind_run in Hr. unfold on_pairing at 1, on_net at 1 in Hr.
  destruct (PairingManager.accept_grant _ _ _ _ _ _) as [m1 [t|er]] eqn:Ha.
  - eapply commit_undoes; [|exact Hr]. rewrite net_with. simpl. eapply accept_near; [|exact Ha].
    by apply undone_near.
  - simplify_eq/=. apply accept_same in Ha as ->. by rewrite net_with.
Qed.
End undo.

(** A transaction does not touch the trust until it is accepted. *)
Lemma begin_undone peer m0 p s mat d i n1 n2 n3 fid fs m m1 r : undone peer m0 m →
  PairingManager.begin_ p s mat d i n1 n2 n3 fid fs m = (m1, r) → undone peer m0 m1.
Proof.
  unfold PairingManager.begin_, PairingManager.start. intros Hu Hb. by repeat case_match; simplify_eq.
Qed.

(** *** A whole attempt *)

Section attempt.
Context (peer : NodeId) (m0 : PairingManager.t).
Notation previous := (PairingManager.get_trusted m0 peer).
Notation broken := (is_auth_broken m0 peer).

Definition keeps_undone w w' : Prop := undone peer m0 (pairing w) → undone peer m0 (pairing w').

#[local] Instance same_keeps_undone {A} (m : M W A) : Keeps trust_same m → Keeps keeps_undone m.
Proof. intros Hm w Hu. by rewrite (Hm w). Qed.
#[local] Instance begin_keeps_undone p s mat d i n1 n2 n3 fid fs :
  Keeps keeps_undone (on_pairing (PairingManager.begin_ p s mat d i n1 n2 n3 fid fs)).
Proof.
  intros w Hu. unfold on_pairing, on_net.
  destruct (PairingManager.begin_ _ _ _ _ _ _ _ _ _ _ _) as [m1 r] eqn:Hb. simpl. rewrite net_with. simpl.
  by eapply begin_undone.
Qed.

(** Undone when it raises. *)
Definition safe {A} (m : M W A) : Prop :=
  ∀ w w' e, undone peer m0 (pairing w) → m w = (w', Err e) → undone peer m0 (pairing w').

Lemma safe_bind {A B} (g : M W A) (k : A → M W B) : Keeps keeps_undone g → (∀ a, safe (k a)) → safe (g ≫= k).
Proof.
  intros Hg Hk w w' e Hu Hr. rewrite M_bind_run in Hr. destruct (g w) as [w1 [a|er]] eqn:H1;
    pose proof (keeps_run keeps_undone g _ _ _ H1 Hu) as Hu1; [by eapply Hk|by simplify_eq].
Qed.
Lemma safe_keeps {A} (m : M W A) : Keeps keeps_undone m → safe m.
Proof. intros Hm w w' e Hu Hr. exact (keeps_run keeps_undone m _ _ _ Hr Hu). Qed.
Lemma safe_rollback {A} tx (k : M W A) : Keeps trust_same k → safe (rollback peer previous broken tx;; k).
Proof. intros Hk w w' e Hu Hr. exact (rollback_then _ _ _ _ _ _ _ (undone_near _ _ _ Hu) _ Hr). Qed.

Lemma transact_safe candidate fp permissions intent :
  safe (transact peer candidate fp permissions previous broken intent).
Proof.
  unfold PairingFlow.transact. do 6 (apply safe_bind; [apply _|intros ?]).
  apply safe_bind; [apply _|intros pending]. do 2 (apply safe_bind; [apply _|intros ?]).
  apply safe_bind; [apply _|intros answer].
  destruct answer as [[[endpoint transport] [response|]]|last]; [| |apply safe_rollback, _].
  - intros w w' e Hu Hr. by eapply accept_undoes.
  - apply safe_bind; [apply _|intros _]. apply safe_rollback. keeps.
Qed.
End attempt.

(** C20. A failed attempt to pair or repair leaves trust as it was: whatever the peer answers, which
    route breaks, whether it was cancelled or could not be saved, when the attempt raises, each
    peer has the trust it had, and each peer that was trusted is broken or not as it was. *)
Theorem failed_pairing_keeps_trust peer permissions intent w w' e :
  establish peer permissions intent w = (w', Err e) →
  trusted (pairing w') = trusted (pairing w) ∧
  ∀ q, q ≠ peer ∨ is_Some (trusted (pairing w) !! q) →
    is_auth_broken (pairing w') q = is_auth_broken (pairing w) q.
Proof.
  intros Hr. unfold PairingFlow._establish in Hr.
  destruct (flag_run w) as (w1 & stop & Hc & E1). rewrite M_bind_run, Hc in Hr.
  assert (undone peer (pairing w) (pairing w1)) as Hu by (rewrite E1; apply undone_refl).
  rewrite M_bind_run in Hr. destruct stop; [by injection Hr as <- _|]. cbn [throw_if] in Hr.
  rewrite M_bind_run in Hr. unfold Connections.network at 1 in Hr. cbv beta iota in Hr.
  rewrite M_bind_run in Hr. unfold lift at 1 in Hr.
  destruct (find_candidate peer permissions (net w1)) as [[candidate fp]|er0]; [|by injection Hr as <- _].
  cbv beta iota in Hr. rewrite M_bind_run in Hr. destruct (time w1) as [w2 [now|er]] eqn:H2;
    pose proof (keeps_run trust_same _ _ _ _ H2) as E2; [|injection Hr as <- _; by rewrite E2].
  unfold trust_same in *. rewrite E1 in Hr.
  assert (undone peer (pairing w) (pairing w2)) as Hu2 by (by rewrite E2).
  assert (safe peer (pairing w) (transact peer candidate fp permissions
    (PairingManager.get_trusted (pairing w) peer) (is_auth_broken (pairing w) peer) intent)) as Hs by apply transact_safe.
  cbv beta iota zeta in Hr. destruct (bool_decide (intent = "pair")); rewrite M_bind_run in Hr; unfold lift at 1 in Hr.
  - destruct (admit_pair _ _) as [[t|]|er]; cbv beta iota in Hr; [done|by eapply Hs|by injection Hr as <- _].
  - destruct (admit_repair _ _) as [|er]; cbv beta iota in Hr; [by eapply Hs|by injection Hr as <- _].
Qed.

(** ** Success *)

(** The local commit was saved, and the target confirmed it last. *)
Definition committed peer (t : TrustedPeer.t) (transaction : PairingTransaction.t T) w' : Prop :=
  (∃ ws ws', _persist ws = (ws', Ok true) ∧ trusted (pairing ws) !! peer = Some t) ∧
  ∃ wc, confirm transaction wc = (w', Ok true).

Lemma unless_Ok peer previous broken tx transaction (k : M W TrustedPeer.t) w w' t :
  unless_cancelled cancelled exchange _persist peer previous broken tx transaction k w = (w', Ok t) →
  ∃ w1, trust_same w w1 ∧ k w1 = (w', Ok t).
Proof.
  unfold unless_cancelled. intros Hr. destruct (flag_run w) as (w1 & stop & Hc & E). rewrite M_bind_run, Hc in Hr.
  destruct stop; [|eauto]. repeat m_step.
Qed.

Lemma commit_Ok peer previous broken tx transaction t w w' t' :
  commit peer previous broken tx transaction t w = (w', Ok t') → trusted (pairing w) !! peer = Some t →
  t' = t ∧ trust_same w w' ∧ committed peer t transaction w'.
Proof.
  unfold PairingFlow.commit. intros (w1 & E1 & Hr)%unless_Ok Ht.
  apply M_bind_Ok in Hr as (w2 & b & Hp & Hr). pose proof (keeps_run trust_same _ _ _ _ Hp) as E2.
  assert (∀ failure w w', abandon exchange _persist peer previous broken tx transaction failure w ≠ (w', Ok t')) as Hno.
  { intros failure v v' Ha. unfold abandon in Ha. apply M_bind_Ok in Ha as (? & r & _ & Ha).
    apply M_bind_Ok in Ha as (? & ? & _ & Ha). by destruct r. }
  destruct b; simpl in Hr; [|by destruct (Hno _ _ _ Hr)].
  apply unless_Ok in Hr as (w3 & E3 & Hr). apply M_bind_Ok in Hr as (w4 & r & Hc%outcome_Ok & Hr).
  pose proof (keeps_run trust_same _ _ _ _ Hc) as E4.
  destruct r as [[]|er]; [|by destruct (Hno _ _ _ Hr)..]. apply mret_run in Hr as [-> ->]. split; [done|].
  split; [by do 3 (etrans; [done|])|]. split; [|by eexists]. exists w1, w2. split; [done|]. by rewrite E1.
Qed.

(** A peer taken into trust: what was discovered, with some of the permissions asked for. *)
Record taken peer (candidate : DiscoveredNodeCandidate.t) (permissions : gset string) w w' (t : TrustedPeer.t)
    : Prop := {
  taken_trust : trusted (pairing w') = <[peer := t]> (trusted (pairing w));
  taken_material : TrustedPeer.material t = candidate_material candidate;
  taken_permissions : ∃ accepted : gset NodePermission, accepted ≠ ∅ ∧
    TrustedPeer.permissions t = Permission.members accepted ∧
    Permission.values (TrustedPeer.permissions t) ⊆ permissions;
  taken_committed : ∃ transaction, committed peer t transaction w' }.

(** What the answer of the target and the trust have in common; the target was told last. *)
Definition agreed_on (secret : string) (response : dict) (transport : T) (t : TrustedPeer.t) w' : Prop :=
  ∃ accepted transaction wc, parse_permissions response = Ok accepted ∧
    transaction_of response accepted transport = Ok transaction ∧
    TrustedPeer.permissions t = Permission.members accepted ∧ TrustedPeer.secret t = secret ∧
    confirm transaction wc = (w', Ok true).

Lemma accept_grant_Ok tx peer grant mat now m m' t :
  PairingManager.accept_grant tx peer grant mat now m = (m', Ok t) →
  trusted m' = <[peer := t]> (trusted m) ∧ TrustedPeer.material t = mat ∧
  TrustedPeer.permissions t = PeerGrant.permissions grant ∧
  ∃ p, od_get tx (PairingManager.pending m) = Some p ∧ TrustedPeer.secret t = PendingPairing.secret p.
Proof.
  unfold PairingManager.accept_grant. intros Ha. destruct (PairingManager._active m tx now) as [p|] eqn:Hp; [|done].
  apply active_Ok in Hp as [Hp _]. repeat case_match; simplify_eq. split_and!; [done..|]. by exists p.
Qed.

Lemma accept_Ok peer candidate permissions previous broken pending own endpoint transport response w w' t :
  accept peer candidate permissions previous broken pending own endpoint transport response w = (w', Ok t) →
  taken peer candidate permissions w w' t ∧
  (od_get (PendingPairing.transaction_id pending) (PairingManager.pending (pairing w)) = Some pending →
   agreed_on (PendingPairing.secret pending) response transport t w').
Proof.
  intros Hr. unfold PairingFlow.accept in Hr.
  destruct (parse_permissions response) as [accepted|] eqn:Hacc; [|by repeat m_step].
  destruct (_ || _) eqn:Hok; [by repeat m_step|]. apply orb_false_iff in Hok as [Hne Hsub]. to_prop.
  apply M_bind_Ok in Hr as (w1 & ? & Hw1 & Hr). pose proof (keeps_run trust_same _ _ _ _ Hw1) as E1.
  apply M_bind_Ok in Hr as (? & transaction & [-> Htr]%lift_Ok & Hr).
  apply M_bind_Ok in Hr as (w2 & now & Hw2 & Hr). pose proof (keeps_run trust_same _ _ _ _ Hw2) as E2.
  apply M_bind_Ok in Hr as (w3 & t' & Hw3 & Hr). unfold on_pairing, on_net in Hw3.
  destruct (PairingManager.accept_grant _ _ _ _ _ _) as [m1 r1] eqn:Ha. injection Hw3 as <- ->.
  apply accept_grant_Ok in Ha as (Ht & Hm & Hp & p & Hget & Hs).
  apply commit_Ok in Hr as (-> & E & Hc); [|rewrite net_with; simpl; by rewrite Ht, lookup_insert_eq].
  unfold trust_same in *. rewrite net_with in E. simpl in E. split; [split; [|done| |by exists transaction]|].
  - by rewrite E, Ht, E2, E1.
  - exists accepted. split; [done|]. by rewrite Hp.
  - rewrite E2, E1 in Hget. intros Hpend. destruct Hc as [_ [wc Hc]]. exists accepted, transaction, wc.
    split_and!; [done|done|done|congruence|done].
Qed.

(** The target answered this message. *)
Definition answers (transport : T) (envelope : dict) (response : dict) : Prop :=
  ∃ u u' a, exchange transport envelope u = (u', Ok a) ∧ approved a = Some response.

Lemma routes_answered fp envelope last routes w w' endpoint transport response :
  try_pairing_routes cancelled tls_transport exchange _on_route_attempt fp envelope last routes w
    = (w', Ok (inl (endpoint, transport, Some response))) → answers transport envelope response.
Proof.
  revert last w. induction routes as [|e routes IH]; intros last w; cbn [try_pairing_routes]; [done|].
  intros (w1 & ? & _ & Hr)%M_bind_Ok. apply M_bind_Ok in Hr as (w2 & r & Hq%outcome_Ok & Hr).
  destruct r as [[tr rs]|er].
  - apply mret_run in Hr as [_ [= -> -> ->]]. unfold request_over in Hq.
    apply M_bind_Ok in Hq as (w3 & tr' & _ & Hq). apply M_bind_Ok in Hq as (w4 & rs' & Hq & [_ [= -> ->]]%mret_run).
    unfold request_pairing in Hq. apply M_bind_Ok in Hq as (w5 & b & _ & Hq).
    destruct b; [by apply mret_run in Hq as [_ ?]|]. apply M_bind_Ok in Hq as (w6 & a & Ha & Hq).
    apply M_bind_Ok in Hq as (w7 & b & _ & Hq). destruct b; [by apply mret_run in Hq as [_ ?]|].
    apply mret_run in Hq as [_ Hq]. exists w5, w6, a. split; [done|].
    apply bind_Some in Hq as (d & Hd & Hq). apply bind_Some in Hq as (id & _ & Hq).
    case_bool_decide; simplify_eq. done.
  - destruct (route_failed er); [|by apply lift_Ok in Hr as [_ ?]].
    apply M_bind_Ok in Hr as (w3 & ? & _ & Hr). by apply IH in Hr.
Qed.

(** A pairing that was asked for and agreed on. *)
Definition paired_by_message intent (t : TrustedPeer.t) w' : Prop :=
  ∃ secret requested transport response,
    answers transport (pair_request _identity (own_fingerprint sha256_hex _identity) _transport_fingerprint secret
                         None None None requested intent) response ∧
    agreed_on secret response transport t w'.

Lemma transact_Ok peer candidate fp permissions previous broken intent w w' t :
  transact peer candidate fp permissions previous broken intent w = (w', Ok t) →
  taken peer candidate permissions w w' t ∧ (indexed (pairing w) → paired_by_message intent t w').
Proof.
  unfold PairingFlow.transact. intros Hr.
  apply M_bind_Ok in Hr as (w1 & secret & Hw1 & Hr). apply M_bind_Ok in Hr as (? & own & [-> _]%lift_Ok & Hr).
  apply M_bind_Ok in Hr as (w2 & id & Hw2 & Hr). apply M_bind_Ok in Hr as (w3 & n1 & Hw3 & Hr).
  apply M_bind_Ok in Hr as (w4 & n2 & Hw4 & Hr). apply M_bind_Ok in Hr as (w5 & n3 & Hw5 & Hr).
  assert (pairing w5 = pairing w) as E5.
  { pose proof (keeps_run trust_same _ _ _ _ Hw5) as ->. pose proof (keeps_run trust_same _ _ _ _ Hw4) as ->.
    pose proof (keeps_run trust_same _ _ _ _ Hw3) as ->. pose proof (keeps_run trust_same _ _ _ _ Hw2) as ->.
    by pose proof (keeps_run trust_same _ _ _ _ Hw1) as ->. }
  apply M_bind_Ok in Hr as (w6 & pending & Hw6 & Hr).
  apply M_bind_Ok in Hr as (? & ? & [-> _]%lift_Ok & Hr).
  apply M_bind_Ok in Hr as (? & requested & [-> _]%lift_Ok & Hr).
  apply M_bind_Ok in Hr as (w7 & answer & Hw7 & Hr).
  pose proof (keeps_run trust_same _ _ _ _ Hw7) as E7. unfold trust_same in E7. unfold on_pairing, on_net in Hw6.
  destruct (PairingManager.begin_ _ _ _ _ _ _ _ _ _ _ _) as [m1 r] eqn:Hb. injection Hw6 as <- ->.
  rewrite net_with in E7. cbn in E7. rewrite E5 in Hb.
  assert (trusted (pairing w7) = trusted (pairing w)) as E.
  { rewrite E7. by destruct (begin_undone peer _ _ _ _ _ _ _ _ _ _ _ _ _ _ (undone_refl _ _) Hb) as [-> _]. }
  destruct answer as [[[endpoint transport] [response|]]|last].
  - apply accept_Ok in Hr as [[Ht Hm Hp Hc] Ha]. split; [split; [by rewrite Ht, E|done..]|]. intros Hi.
    destruct (begin_stored _ _ _ _ _ _ _ _ _ _ _ _ Hi Hb) as (Hget & _). rewrite E7 in Ha. specialize (Ha Hget).
    apply routes_answered in Hw7. by exists (PendingPairing.secret pending), (list_to_set requested), transport, response.
  - exfalso. do 3 apply M_bind_Ok in Hr as (? & ? & _ & Hr). by case_match.
  - exfalso. apply M_bind_Ok in Hr as (? & ? & _ & Hr). done.
Qed.

(** What the state of the relationship allows. *)
Definition state_of peer candidate m now : RelationshipState :=
  PairingManager.classify_trusted_candidate b64decode ed25519_verify m peer
    (DiscoveredNodeCandidate.root_public_key candidate)
    (DiscoveredNodeCandidate.transport_fingerprint candidate)
    (DiscoveredNodeCandidate.transport_generation candidate)
    (DiscoveredNodeCandidate.transport_proof candidate) now.

Lemma establish_Ok peer permissions intent w w' t : establish peer permissions intent w = (w', Ok t) →
  ∃ w1 candidate fp now, trust_same w w1 ∧ find_candidate peer permissions (net w1) = Ok (candidate, fp) ∧
    ((trust_same w w' ∧ intent = "pair" ∧ trusted (pairing w) !! peer = Some t) ∨
     (taken peer candidate permissions w w' t ∧ (indexed (pairing w) → paired_by_message intent t w') ∧
      if bool_decide (intent = "pair")
      then admit_pair (trusted (pairing w) !! peer) (state_of peer candidate (pairing w) now) = Ok None
      else admit_repair (trusted (pairing w) !! peer) (state_of peer candidate (pairing w) now) = Ok ())).
Proof.
  unfold PairingFlow._establish. intros Hr. apply M_bind_Ok in Hr as (w1 & stop & Hw1 & Hr).
  pose proof (keeps_run trust_same _ _ _ _ Hw1) as E1.
  apply M_bind_Ok in Hr as (? & ? & [-> _]%throw_if_Ok & Hr). apply M_bind_Ok in Hr as (? & ? & [= <- <-] & Hr).
  apply M_bind_Ok in Hr as (? & [candidate fp] & [-> Hf]%lift_Ok & Hr).
  apply M_bind_Ok in Hr as (w2 & now & Hw2 & Hr). pose proof (keeps_run trust_same _ _ _ _ Hw2) as E2.
  unfold trust_same in *. rewrite E1 in Hr. exists w1, candidate, fp, now. split; [done|]. split; [done|].
  assert (∀ w' t, taken peer candidate permissions w2 w' t ∧ (indexed (pairing w2) → paired_by_message intent t w') →
    taken peer candidate permissions w w' t ∧ (indexed (pairing w) → paired_by_message intent t w')) as Htake.
  { intros v u [[Ht Hm Hp Hc] Hi]. split; [split; [by rewrite Ht, E2, E1|done..]|]. by rewrite E2, E1 in Hi. }
  fold (state_of peer candidate (pairing w) now) in Hr. case_bool_decide as Hi.
  - apply M_bind_Ok in Hr as (? & [t'|] & [-> Ha]%lift_Ok & Hr).
    + apply mret_run in Hr as [-> ->]. left. rewrite E2, E1. split; [done|]. split; [done|].
      unfold admit_pair, PairingManager.get_trusted in Ha. destruct (trusted (pairing w) !! peer), (state_of _ _ _ _); by simplify_eq/=.
    + right. apply transact_Ok, Htake in Hr as [? ?]. by split_and!.
  - apply M_bind_Ok in Hr as (? & [] & [-> Ha]%lift_Ok & Hr). right. apply transact_Ok, Htake in Hr as [? ?].
    by split_and!.
Qed.

Lemma new_pair peer candidate m now :
  admit_pair (trusted m !! peer) (state_of peer candidate m now) = Ok None → trusted m !! peer = None.
Proof.
  unfold state_of, PairingManager.classify_trusted_candidate. destruct (trusted m !! peer) as [p|]; [|done].
  intros Ha. repeat case_match; try done; unfold admit_pair in Ha; repeat case_match; done.
Qed.

(** The stored root of a peer is the one a candidate shows. *)
Definition same_root (p : TrustedPeer.t) (candidate : DiscoveredNodeCandidate.t) : Prop :=
  ∃ key, truthy (Material.root_public_key (TrustedPeer.material p)) = Some key ∧
    DiscoveredNodeCandidate.root_public_key candidate = Some key.

Lemma new_repair peer candidate m now :
  admit_repair (trusted m !! peer) (state_of peer candidate m now) = Ok () →
  ∃ p, trusted m !! peer = Some p ∧ same_root p candidate.
Proof.
  unfold state_of, PairingManager.classify_trusted_candidate. destruct (trusted m !! peer) as [p|]; [|done].
  intros Ha. exists p. split; [done|]. unfold same_root.
  destruct (truthy _) as [key|]; [|done]. exists key. split; [done|].
  case_bool_decide as Hk; [done|]. done.
Qed.

(** A successful attempt: pairing with a trusted peer changes nothing; else the peer is now
    trusted with exactly what was discovered of it and with some of the permissions asked for,
    nobody else's trust changed, the change was saved before the target confirmed it, pairing
    never replaced trust there was, and a repair kept the root the peer was known by. *)
Theorem paired_peer_is_the_one_discovered peer permissions intent w w' t :
  establish peer permissions intent w = (w', Ok t) →
  (pairing w' = pairing w ∧ intent = "pair" ∧ trusted (pairing w) !! peer = Some t) ∨
  ∃ w1 candidate fp,
    trust_same w w1 ∧ find_candidate peer permissions (net w1) = Ok (candidate, fp) ∧
    taken peer candidate permissions w w' t ∧
    (intent = "pair" → trusted (pairing w) !! peer = None) ∧
    (intent ≠ "pair" → ∃ p, trusted (pairing w) !! peer = Some p ∧ same_root p candidate).
Proof.
  intros (w1 & candidate & fp & now & E & Hf & [?|(Ht & _ & Ha)])%establish_Ok; [by left|].
  right. exists w1, candidate, fp. do 3 (split; [done|]). split; intros Hi.
  - rewrite bool_decide_eq_true_2 in Ha by done. by eapply new_pair.
  - rewrite bool_decide_eq_false_2 in Ha by done. by eapply new_repair.
Qed.

(** A paired profile does not load again: the permissions of a peer that was paired over the
    network are members of an enumeration, their names are saved, and the document made of the
    trust the attempt left is refused when the next start reads it. *)
Theorem paired_profile_does_not_load float_repr container_repr peer permissions w w' t asked blank :
  establish peer permissions "pair" w = (w', Ok t) → trusted (pairing w) !! peer = None →
  is_ok (d ← migrate_state "trust" (trust_document (pairing w') asked);
         load_trust float_repr container_repr d blank) = false.
Proof.
  intros (w1 & candidate & fp & now & E & Hf & [(_ & _ & Hs)|[[Ht _ (accepted & Hne & Hp & _) _] _]])%establish_Ok Hnone;
    [congruence|].
  rewrite document_settled. cbn [mbind result_bind].
  destruct (set_choose_L accepted Hne) as [q Hq].
  eapply (member_blocks_load _ _ _ _ _ peer t q); [by rewrite Ht, lookup_insert_eq|].
  rewrite Hp. apply elem_of_map. eauto.
Qed.
End spec.

(** ** A concrete attempt *)

Module PairSample.
Definition world : Type := Network.t string * nat.
#[global] Instance world_network : HasNetwork world string.
Proof. by refine {| net := fst; with_net n w := (n, w.2) |}; [|intros []|]. Defined.

Definition self : NodeId := mkNodeId "self".
Definition peer : NodeId := mkNodeId "peer".
Definition route : EndpointCandidate.t := EndpointCandidate.mk "10.0.0.1" 8443 IPV4 "validated" 0 None None.
Definition candidate : DiscoveredNodeCandidate.t :=
  DiscoveredNodeCandidate.mk "peer" "host" ["10.0.0.1"] (Some 8443%Z) "svc" "1" "1" None true true (flit 0)
    None (Some "pin") [route] (Some "key") (Some 1%Z) (Some "proof") (Some 8444%Z).
Definition start : world :=
  (Network.mk (PairingManager.__init__ self (flit 300)) (NodeRegistry.__init__ self false)
     [("peer", candidate)] (ConnectionManager.__init__ self), 0).

Definition time : M world float := λ w, ((w.1, S w.2), Ok (flit (Z.of_nat w.2))).
Definition answer (d : list (string * json)) : json :=
  match jget "op" d with
  | JStr "pair_request" =>
      JObj [("approved", JBool true); ("transaction_id", JStr "t1"); ("caller_node_id", JStr "self");
            ("identity_fingerprint", JStr "print"); ("transport_fingerprint", JStr "own-pin");
            ("secret", jget "secret" d); ("permissions", jget "permissions" d); ("expires_at", JInt 300)]
  | _ => JObj [("approved", JBool true)]
  end.
(** With [saves], the profile can be written. *)
Definition pair (saves : bool) (w : world) : world * result TrustedPeer.t :=
  _establish id Some (λ _ _ _, true) self "root" (λ _ _, Ok "proof") "own-pin" (Some "root") 1 (Some "proof")
    time (mret "secret") (mret "t0") (mret false) (λ a _ _, mret a) (λ _ d, mret (answer d)) (mret saves) None
    peer {["read_state"]} "pair" w.

#[global] Instance time_same : Keeps trust_same time.
Proof. by intros w. Qed.

Definition mate : TrustedPeer.t :=
  TrustedPeer.mk peer "secret" {[Permission.Member READ_STATE]} (candidate_material candidate).
Lemma paired : pair true start = ((pair true start).1, Ok mate).
Proof.
  rewrite (surjective_pairing (pair true start)) at 1. apply f_equal. vm_compute. reflexivity.
Qed.
Lemma unsaved : pair false start = ((pair false start).1, raise RuntimeError "pairing was not durably persisted").
Proof.
  rewrite (surjective_pairing (pair false start)) at 1. apply f_equal. vm_compute. reflexivity.
Qed.
End PairSample.

Lemma failed_pairing_keeps_trust_witness :
  trusted (Network.pairing (PairSample.pair false PairSample.start).1.1) = ∅.
Proof.
  refine (proj1 (failed_pairing_keeps_trust _ _ _ _ _ _ _ _ _ _ _ _ _ _ _ _ _ _ _ _ _ _ _ _ _ _ PairSample.unsaved)).
  all: try apply _. all: try done. all: by intros.
Defined.

Lemma paired_peer_is_the_one_discovered_witness :
  (PairSample.pair true PairSample.start).2 = Ok PairSample.mate ∧
  trusted (Network.pairing (PairSample.pair true PairSample.start).1.1) = {[PairSample.peer := PairSample.mate]}.
Proof.
  split; [by rewrite PairSample.paired|].
  unshelve epose proof (paired_peer_is_the_one_discovered _ _ _ _ _ _ _ _ _ _ _ _ _ _ _ _ _ _ _ _ _ _ _ _ _ PairSample.paired) as Hp;
    [first [apply _|by intros]..|].
  destruct Hp as [(_ & _ & Hs)|(w1 & candidate & fp & _ & _ & [Hs _ _ _] & _)]; [discriminate Hs|exact Hs].
Defined.

Lemma paired_profile_does_not_load_witness :
  is_ok (d ← migrate_state "trust" (trust_document (Network.pairing (PairSample.pair true PairSample.start).1.1) ∅);
         load_trust (λ _, "") (λ _, "") d (PairingManager.__init__ PairSample.self (flit 300))) = false.
Proof.
  refine (paired_profile_does_not_load _ _ _ _ _ _ _ _ _ _ _ _ _ _ _ _ _ _ _ _ _ _ _ _ _ _ _ _ PairSample.paired eq_refl).
  all: try apply _. all: by intros.
Defined.
