(* ===== verification/ListenerSpec.v ===== *)
(** * The listeners: theorems

    A pairing message a client sends is, at the listener, a call of its handler on the very
    request; the two listeners of a runtime do not answer for one another; and a listener never
    runs more handlers than its limit. *)

From S2P Require Import Prelude PyFloat Identity Sharing PyJson StateCodec Wire RemoteModels PairingFlow Listener.
Abbreviation dict := (list (string * json)) (only parsing).

(** ** Permissions on the wire *)

Lemma values_read_back l : mapM NodePermission.of_value (NodePermission.value <$> l) = Ok l.
Proof.
  induction l as [|p l IH]; [done|]. rewrite fmap_cons. cbn [mapM].
  rewrite NodePermission.permission_of_value. cbn [mbind result_bind]. by rewrite IH.
Qed.

Lemma permissions_read_back (X : gset NodePermission) :
  ∃ names, texts_of (permission_list X) = Some names ∧ Wire.parse_permissions names = Ok X.
Proof.
  exists (sorted str_leb (NodePermission.value <$> elements X)).
  split; [apply all_str_texts|].
  destruct (perm_fmap_inv NodePermission.value (elements X) _
              (sorted_perm str_leb (NodePermission.value <$> elements X))) as (l & -> & Hl).
  unfold Wire.parse_permissions.
  rewrite values_read_back. cbn [mbind result_bind]. f_equal. apply set_eq. intros x.
  rewrite elem_of_list_to_set, Hl. apply elem_of_elements.
Qed.

(** What a control request holds of the document it was read from. *)
Lemma text_field_Ok d field msg s : text_field d field msg = Ok s → jget field d = JStr s.
Proof. unfold text_field. intros Hs. by repeat case_match; simplify_eq. Qed.

Lemma read_control d now r : validate_pairing_control_request (JObj d) now = Ok r →
  jget "op" d = JStr (PairingControlRequest.operation r) ∧
  jget "caller_node_id" d = JStr (value (PairingControlRequest.caller_node_id r)) ∧
  jget "secret" d = JStr (PairingControlRequest.secret r) ∧
  ∃ names, texts_of (jget "permissions" d) = Some names ∧
    Wire.parse_permissions names = Ok (PairingControlRequest.permissions r).
Proof.
  unfold validate_pairing_control_request. intros Hr.
  apply bind_Ok in Hr as (op & Hop & Hr). apply bind_Ok in Hr as ([] & _ & Hr).
  apply bind_Ok in Hr as (id & _ & Hr). apply bind_Ok in Hr as (identity & _ & Hr).
  apply bind_Ok in Hr as (transport & _ & Hr). apply bind_Ok in Hr as (caller & Hc%text_field_Ok & Hr).
  apply bind_Ok in Hr as (secret & Hs & Hr). apply bind_Ok in Hr as (names & Hn & Hr).
  apply bind_Ok in Hr as (permissions & Hp & Hr). apply bind_Ok in Hr as ([] & _ & Hr). cbv zeta in Hr.
  apply bind_Ok in Hr as ([] & _ & Hr). apply bind_Ok in Hr as (expiry & _ & Hr).
  apply bind_Ok in Hr as ([] & _ & Hr). apply bind_Ok in Hr as (n & [-> Hv]%NodeId.node_id_Ok & Hr).
  injection Hr as <-. cbn. split; [by destruct (jget "op" d); try done; case_bool_decide; simplify_eq|]. split; [done|]. split.
  - destruct (jget "secret" d) as [| | | |s| |]; try done.
    destruct (_validate_secret s) as [[]|e]; cbn [mbind result_bind catch] in Hs; [by simplify_eq|].
    by destruct (exn_isa e ValueError).
  - unfold texts_of. destruct (is_list _) as [l|]; [|done]. cbn [mbind option_bind].
    destruct (all_str l) as [names'|]; [|done]. cbn in Hn. injection Hn as ->. exists names. split; [done|].
    destruct (Wire.parse_permissions names) as [X|e]; cbn [catch] in Hp; [done|]. by destruct (exn_isa e ValueError).
Qed.

Lemma request_kept r r' : PairingRequest.__post_init__ r = Ok r' → r' = r ∧ _validate_secret (PairingRequest.proposed_secret r) = Ok ().
Proof.
  unfold PairingRequest.__post_init__. destruct (_validate_secret _) as [[]|] eqn:E.
  all: intros Hr; by repeat res_step.
Qed.

Lemma approved_Some a d : approved a = Some d → a = JObj d ∧ jget "approved" d = JBool true.
Proof.
  intros (x & Hx & Ha)%bind_Some. destruct a; try done. injection Hx as ->.
  destruct (jget "approved" x) as [|[]| | | | |] eqn:E; by simplify_eq.
Qed.

(** ** The messages *)

(** The transaction a client keeps, and the request that speaks of it. *)
Definition names_transaction {T} (t : PairingTransaction.t T) (r : PairingControlRequest.t) : Prop :=
  PairingTransaction.transaction_id t = JStr (PairingControlRequest.transaction_id r) ∧
  PairingTransaction.caller_node_id t = JStr (value (PairingControlRequest.caller_node_id r)) ∧
  PairingTransaction.identity_fingerprint t = JStr (PairingControlRequest.identity_fingerprint r) ∧
  PairingTransaction.transport_fingerprint t = JStr (PairingControlRequest.transport_fingerprint r) ∧
  PairingTransaction.secret t = JStr (PairingControlRequest.secret r) ∧
  PairingTransaction.permissions t = PairingControlRequest.permissions r ∧
  PairingTransaction.expires_at t = JFloat (PairingControlRequest.expires_at r).

(** A request a listener accepts at the time [now]. *)
Definition good_control (r : PairingControlRequest.t) (now : float) : Prop :=
  PairingControlRequest.transaction_id r ≠ "" ∧ NodeId.valid (PairingControlRequest.caller_node_id r) ∧
  PairingControlRequest.identity_fingerprint r ≠ "" ∧ PairingControlRequest.transport_fingerprint r ≠ "" ∧
  _validate_secret (PairingControlRequest.secret r) = Ok () ∧
  PairingControlRequest.permissions r ⊆ READ_PERMISSIONS ∧
  isfinite (PairingControlRequest.expires_at r) = true ∧ fleb (PairingControlRequest.expires_at r) now = false.

Section messages.
Context {W T : Type} (clock : M W float) (token_hex : M W string).
Context (self : RemoteSocketListener.t W).
Hypothesis Hself : RemoteSocketListener._allow_pairing self = true.
Notation respond := (respond clock token_hex self).

Lemma node_id_back n : NodeId.valid n → node_id_of (JStr (value n)) = Ok n.
Proof. intros H. exact H. Qed.

Lemma pair_request_parses caller identity transport secret root generation proof permissions intent names :
  texts_of (permission_list permissions) = Some names → Wire.parse_permissions names = Ok permissions →
  NodeId.valid caller →
  let r := PairingRequest.mk caller identity transport secret permissions root generation proof intent in
  parse_pair_request (pair_request caller identity transport secret root generation proof permissions intent) names intent
  = Typed <$> PairingRequest.__post_init__ r.
Proof.
  intros Hn Hp Hv r. unfold parse_pair_request. 
  change (jget "caller_node_id" _) with (JStr (value caller)). rewrite node_id_back by done.
  cbn [mbind result_bind]. rewrite Hp. cbn [mbind result_bind].
  change (jget "secret" _) with (JStr secret). cbn [secret_text is_str of_option].
  change (jget "identity_fingerprint" _) with (JStr identity).
  change (jget "transport_fingerprint" _) with (JStr transport). cbv beta iota. unfold secret_text, of_option. cbn [is_str mbind result_bind].
  replace (is_str (jget "root_public_key" _)) with root by by destruct root.
  replace (is_int (jget "transport_generation" _)) with generation by by destruct generation.
  replace (is_str (jget "transport_proof" _)) with proof by by destruct proof.
  by destruct (PairingRequest.__post_init__ _).
Qed.


(** A control message is, at the listener, the request that names what the transaction holds. *)
Lemma control_message_parses operation (t : PairingTransaction.t T) (r : PairingControlRequest.t) now names :
  texts_of (permission_list (PairingTransaction.permissions t)) = Some names →
  Wire.parse_permissions names = Ok (PairingTransaction.permissions t) →
  operation ∈ ["pair_confirm"; "pair_abort"] →
  names_transaction t r → good_control r now → PairingControlRequest.operation r = operation →
  validate_pairing_control_request (JObj (control_message operation t)) now = Ok r.
Proof.
  intros Hn Hp Hop (Ht & Hc & Hi & Hf & Hs & Hperm & He) (Nt & Vc & Ni & Nf & Vs & Hread & Fin & Live) Hopr.
  assert (value (PairingControlRequest.caller_node_id r) ≠ "") as Nc.
  { intros E0. unfold NodeId.valid, NodeId.__post_init__ in Vc. by rewrite E0 in Vc. }
  unfold validate_pairing_control_request, text_field.
  change (jget "op" _) with (JStr operation). cbv beta iota. rewrite bool_decide_true by done. cbn [mbind result_bind].
  change (keys_exactly _ control_fields) with true. cbn [negb raise_if mbind result_bind].
  change (jget "transaction_id" _) with (PairingTransaction.transaction_id t).
  change (jget "identity_fingerprint" _) with (PairingTransaction.identity_fingerprint t).
  change (jget "transport_fingerprint" _) with (PairingTransaction.transport_fingerprint t).
  change (jget "caller_node_id" _) with (PairingTransaction.caller_node_id t).
  change (jget "secret" _) with (PairingTransaction.secret t).
  change (jget "permissions" _) with (permission_list (PairingTransaction.permissions t)).
  change (jget "expires_at" _) with (PairingTransaction.expires_at t).
  rewrite Ht, Hc, Hi, Hf, Hs, He. cbv beta iota. rewrite !bool_decide_false by done. cbn [mbind result_bind].
  rewrite Vs. cbn [mbind result_bind catch]. unfold texts_of in Hn.
  destruct (is_list _) as [l|]; [|done]. cbn [mbind option_bind] in Hn. rewrite Hn. cbn [of_option mbind result_bind].
  rewrite Hp. cbn [catch mbind result_bind]. rewrite Hperm, (bool_decide_true (_ ⊆ _)) by done.
  cbn [negb raise_if mbind result_bind is_number to_float]. rewrite Fin, Live. cbn [negb orb raise_if mbind result_bind].
  rewrite Vc. destruct r. cbn in *. by subst.
Qed.

(** The handler of a pairing request, its errors turned into a refusal. *)
Definition serve_pair_request (handler : Asked PairingRequest.t → M W json) (asked : result (Asked PairingRequest.t))
    : M W json :=
  answer ← or_refuse (verdict false (Some "denied"))
    (request ← lift asked;
     outcome ← handler request;
     mret match outcome with JObj answer => answer | _ => decided (py_bool outcome) end);
  mret (JObj answer).

Lemma pair_request_reaches handler caller identity transport secret root generation proof permissions intent w names :
  RemoteSocketListener._pairing_handler self = Some handler →
  texts_of (permission_list permissions) = Some names →
  let d := pair_request caller identity transport secret root generation proof permissions intent in
  respond (JObj d) w =
    if bool_decide (intent ∈ ["pair"; "repair"])
    then serve_pair_request handler (parse_pair_request d names intent) w
    else (w, Ok (JObj (verdict false (Some "invalid_pairing")))).
Proof.
  intros Hh Hn d. unfold Listener.respond.
  change (operation_of (JObj d)) with (Ok (Some "pair_request") : result (option string)).
  rewrite M_bind_run. cbn [lift]. cbv zeta. rewrite M_bind_run, Hself.
  change (existsb _ pairing_operations) with true.
  change (throw_if (true && negb true) RemoteProtocolError _ w) with (w, Ok () : result ()). cbv beta iota.
  change (bool_decide (Some "pair_request" = Some "pair_request")) with true. cbv beta iota.
  unfold _pair_request_response. rewrite Hh. change (fields (JObj d)) with d.
  assert (has_keys d pair_required = true ∧ keys_within d pair_allowed = true) as [-> ->]
    by (destruct root, generation, proof; done).
  change (jget "pairing_mode" d) with (JStr "transactional").
  change (jget "permissions" d) with (permission_list permissions). rewrite Hn.
  replace (jget_or "intent" (JStr "pair") d) with (JStr intent) by by destruct root, generation, proof.
  rewrite (bool_decide_true ("transactional" = _)) by done. cbn [negb orb]. by case_bool_decide.
Qed.

(** A pairing request that would be accepted is, at the listener, a call of the handler on the
    very request it was made of. *)
Lemma pair_request_served handler caller identity transport secret root generation proof permissions intent w :
  RemoteSocketListener._pairing_handler self = Some handler → NodeId.valid caller →
  let r := PairingRequest.mk caller identity transport secret permissions root generation proof intent in
  PairingRequest.__post_init__ r = Ok r →
  respond (JObj (pair_request caller identity transport secret root generation proof permissions intent)) w
  = serve_pair_request handler (Ok (Typed r)) w.
Proof.
  intros Hh Hv r Hr. destruct (permissions_read_back permissions) as (names & Hn & Hp).
  rewrite (pair_request_reaches _ _ _ _ _ _ _ _ _ _ _ _ Hh Hn), bool_decide_true.
  2: { unfold PairingRequest.__post_init__ in Hr. repeat res_step. by to_prop. }
  rewrite (pair_request_parses _ _ _ _ _ _ _ _ _ _ Hn Hp Hv). cbv zeta. fold r. by rewrite Hr.
Qed.

Lemma or_refuse_Ok {A} (refusal : A) (m : M W A) w w' a :
  or_refuse refusal m w = (w', Ok a) → m w = (w', Ok a) ∨ a = refusal.
Proof.
  unfold or_refuse, attempt. destruct (m w) as [w1 [b|e]]; [by left|].
  destruct (refused_by e); [|done]. intros [_ <-]%mret_run. by right.
Qed.

(** An approval comes from the handler, which was given the very request. *)
Lemma pair_request_approved handler caller identity transport secret root generation proof permissions intent w w' a d :
  RemoteSocketListener._pairing_handler self = Some handler →
  respond (JObj (pair_request caller identity transport secret root generation proof permissions intent)) w
    = (w', Ok a) → approved a = Some d →
  let r := PairingRequest.mk caller identity transport secret permissions root generation proof intent in
  PairingRequest.__post_init__ r = Ok r ∧ NodeId.valid caller ∧
  ∃ outcome, handler (Typed r) w = (w', Ok outcome) ∧ (∀ answer, outcome = JObj answer → answer = d).
Proof.
  intros Hh Hr Ha r. destruct (permissions_read_back permissions) as (names & Hn & Hp).
  rewrite (pair_request_reaches _ _ _ _ _ _ _ _ _ _ _ _ Hh Hn) in Hr. case_bool_decide; [|by simplify_eq].
  unfold serve_pair_request in Hr. apply M_bind_Ok in Hr as (w1 & answer & Hr & [-> <-]%mret_run).
  apply or_refuse_Ok in Hr as [Hr|Hr]; [|by rewrite Hr in Ha].
  apply M_bind_Ok in Hr as (w2 & asked & [-> Hq]%lift_Ok & Hr).
  destruct (NodeId.__post_init__ (value caller)) as [n|] eqn:Hv.
  2: { unfold parse_pair_request in Hq. change (jget "caller_node_id" _) with (JStr (value caller)) in Hq.
       cbn [node_id_of is_str of_option mbind result_bind] in Hq. by rewrite Hv in Hq. }
  apply NodeId.node_id_Ok in Hv as [-> Hv]. assert (NodeId.valid caller) as Hc by (by destruct caller).
  rewrite (pair_request_parses _ _ _ _ _ _ _ _ _ _ Hn Hp Hc) in Hq. cbv zeta in Hq. fold r in Hq.
  destruct (PairingRequest.__post_init__ r) as [r'|] eqn:Hpost; [|done]. injection Hq as <-.
  destruct (request_kept _ _ Hpost) as [-> _].
  do 2 (split; [done|]). apply M_bind_Ok in Hr as (w3 & outcome & Ho & [-> <-]%mret_run).
  exists outcome. split; [done|]. intros answer ->. apply approved_Some in Ha as [Ha _]. congruence.
Qed.

(** What a listener reads in a control message. *)
Lemma control_message_read operation (t : PairingTransaction.t T) now r :
  validate_pairing_control_request (JObj (control_message operation t)) now = Ok r →
  PairingControlRequest.operation r = operation ∧
  PairingTransaction.caller_node_id t = JStr (value (PairingControlRequest.caller_node_id r)) ∧
  PairingTransaction.secret t = JStr (PairingControlRequest.secret r) ∧
  PairingTransaction.permissions t = PairingControlRequest.permissions r.
Proof.
  destruct (permissions_read_back (PairingTransaction.permissions t)) as (names & Hn & Hp).
  intros (Ho & Hc & Hs & names' & Hn' & Hp')%read_control.
  change (jget "permissions" _) with (permission_list (PairingTransaction.permissions t)) in Hn'.
  rewrite Hn in Hn'. injection Hn' as <-. rewrite Hp in Hp'. injection Hp' as <-.
  injection Ho as <-. by split_and!.
Qed.

(** A confirmation is acknowledged by the handler, which was given what the transaction holds. *)
Lemma confirmation_acknowledged handler (t : PairingTransaction.t T) w w' a d :
  RemoteSocketListener._pair_confirm_handler self = Some handler →
  respond (JObj (control_message "pair_confirm" t)) w = (w', Ok a) → approved a = Some d →
  ∃ w1 r, handler r w1 = (w', Ok true) ∧ PairingControlRequest.operation r = "pair_confirm" ∧
    PairingTransaction.caller_node_id t = JStr (value (PairingControlRequest.caller_node_id r)) ∧
    PairingTransaction.secret t = JStr (PairingControlRequest.secret r) ∧
    PairingTransaction.permissions t = PairingControlRequest.permissions r.
Proof.
  intros Hh Hr Ha. unfold Listener.respond in Hr.
  change (operation_of (JObj (control_message "pair_confirm" t))) with (Ok (Some "pair_confirm") : result (option string)) in Hr.
  rewrite M_bind_run in Hr. cbn [lift] in Hr. cbv zeta in Hr. rewrite M_bind_run, Hself in Hr.
  change (existsb _ pairing_operations) with true in Hr.
  change (throw_if (true && negb true) RemoteProtocolError _ w) with (w, Ok () : result ()) in Hr. cbv beta iota in Hr.
  change (bool_decide (Some "pair_confirm" = Some "pair_request")) with false in Hr.
  change (bool_decide (Some "pair_confirm" = Some "pair_confirm")) with true in Hr. cbv beta iota in Hr.
  unfold _pair_control_response in Hr. rewrite Hh in Hr. apply M_bind_Ok in Hr as (w1 & answer & Hr & [-> <-]%mret_run).
  apply M_bind_Ok in Hr as (w2 & b & Hr & [-> <-]%mret_run). destruct b; [|done].
  apply or_refuse_Ok in Hr as [Hr|?]; [|done]. apply M_bind_Ok in Hr as (w3 & now & _ & Hr).
  apply M_bind_Ok in Hr as (? & r & [-> Hq]%lift_Ok & Hr). exists w3, r. split; [done|].
  by apply control_message_read in Hq.
Qed.
End messages.

(** A list for a fingerprint goes through. *)
Example untyped_fingerprint_passes :
  let d := [("op", JStr "pair_request"); ("pairing_mode", JStr "transactional"); ("caller_node_id", JStr "p");
            ("identity_fingerprint", JList [JInt 1]); ("transport_fingerprint", JStr "pin");
            ("secret", JStr "ffeeddccbbaa99887766554433221100ffeeddccbbaa99887766554433221100");
            ("permissions", JList [JStr "read_state"])] in
  parse_pair_request d ["read_state"] "pair" = Ok (Untyped d).
Proof. vm_compute. reflexivity. Qed.

(** ** How much a listener runs at a time *)

Module AdmissionSpec.
Import Admission.

(** The permits taken are those of the handlers that run. *)
Definition balanced (x : t * nat) : Prop := taken x.1 = x.2 ∧ x.2 ≤ limit x.1.

Lemma release_run s n : taken s = S n → release s = (mk (limit s) n, Ok ()).
Proof. unfold release. by intros ->. Qed.

Lemma step_balanced x y : balanced x → step x y → balanced y ∧ limit y.1 = limit x.1.
Proof.
  intros [Ht Hl] Hs. destruct Hs as [s running started s' r Hr|s running s' r Hr]; cbn in Ht, Hl; cbn [fst].
  - unfold process_request in Hr. rewrite M_bind_run in Hr. unfold acquire in Hr.
    destruct (Nat.ltb_spec (taken s) (limit s)); cbn [negb] in Hr.
    + destruct started as [?|e].
      * injection Hr as <- <-. unfold balanced. cbn. lia.
      * rewrite M_bind_run in Hr. cbn in Hr. injection Hr as <- <-. unfold balanced. cbn. lia.
    + injection Hr as <- <-. unfold balanced. cbn. lia.
  - rewrite (release_run s running Ht) in Hr. injection Hr as <- <-. unfold balanced. cbn. lia.
Qed.

Lemma steps_balanced x y : rtc step x y → balanced x → balanced y ∧ limit y.1 = limit x.1.
Proof.
  induction 1 as [|x y z Hs _ IH]; [done|]. intros [Hb El]%(step_balanced x y); [|done].
  destruct (IH Hb) as [? E]. split; [done|]. by rewrite E.
Qed.

(** C29. A listener never runs more handlers than it was made for, and loses none of its capacity:
    whatever connections came and ended, and whether their threads could be started or not, the
    permits taken are those of the handlers that run, so giving one back never fails and a new
    connection is taken up exactly while fewer than the limit run. *)
Theorem handlers_bounded max_active_handlers s0 s running :
  start max_active_handlers = Ok s0 → rtc step (s0, 0) (s, running) →
  (Z.of_nat running ≤ max_active_handlers)%Z ∧
  (0 < running → ∃ s', release s = (s', Ok ())) ∧
  ∃ s', process_request (Ok ()) s = (s', Ok (bool_decide (Z.of_nat running < max_active_handlers)%Z)).
Proof.
  unfold start. intros (? & Hmax%raise_if_Ok & [= <-])%bind_Ok Hs.
  destruct (steps_balanced _ _ Hs) as [[Ht Hl] El]; [split; cbn; lia|]. cbn in *. rewrite El in Hl.
  apply Z.ltb_ge in Hmax. split; [lia|]. split.
  - intros Hr. destruct running as [|n]; [lia|]. eexists. by apply release_run.
  - unfold process_request. rewrite M_bind_run. unfold acquire. rewrite El, Ht.
    destruct (Nat.ltb_spec running (Z.to_nat max_active_handlers)); eexists; cbn [negb mret];
      [rewrite bool_decide_true by lia|rewrite bool_decide_false by lia]; reflexivity.
Qed.

(** Two connections at a listener of one: the second is closed, its place is free again later. *)
Lemma handlers_bounded_witness :
  ∃ s', process_request (Ok ()) (mk 1 1) = (s', Ok false).
Proof.
  assert (rtc step (mk 1 0, 0) (mk 1 1, 1)) as Hs
    by (apply rtc_once; exact (arrives (mk 1 0) 0 (Ok ()) (mk 1 1) (Ok true) eq_refl)).
  exact (proj2 (proj2 (handlers_bounded 1 (mk 1 0) (mk 1 1) 1 eq_refl Hs))).
Defined.
End AdmissionSpec.

(** ** Two listeners *)

(** The listener of the service takes no pairing operation, the one for pairing serves nothing
    else. *)
Lemma listeners_are_separate {W} (clock : M W float) token_hex (service : json → option string → M W (option json))
    handler confirm abort elevation raw op w :
  operation_of raw = Ok op →
  (∀ o, op = Some o → o ∈ pairing_operations →
     (respond clock token_hex (service_server service) raw w).2
     = raise RemoteProtocolError "pairing operation is not served on this listener") ∧
  ((∀ o, op = Some o → o ∉ pairing_operations) →
     is_ok (respond clock token_hex (pairing_server handler confirm abort elevation) raw w).2 = false).
Proof.
  intros Hop. split.
  - intros o -> Ho. unfold respond. rewrite M_bind_run, Hop. cbn [lift]. cbv zeta. rewrite M_bind_run.
    assert (existsb (λ o', bool_decide (Some o = Some o')) pairing_operations = true) as ->; [|done].
    apply existsb_exists. exists o. split; [by apply list_elem_of_In|by apply bool_decide_eq_true].
  - intros Hno. assert (∀ o, o ∈ pairing_operations → bool_decide (op = Some o) = false) as Hf.
    { intros o Ho. apply bool_decide_eq_false. intros E. by apply (Hno o). }
    unfold respond. rewrite M_bind_run, Hop. cbn [lift]. cbv zeta. rewrite M_bind_run, andb_false_r.
    cbn [throw_if raise_if]. rewrite !Hf by (repeat constructor). rewrite M_bind_run.
    by destruct (token_hex w) as [w1 [g|e]].
Qed.
