(* ===== verification/ConnectionsSpec.v ===== *)
(** * Connections: who a provider is opened to, and which generation is current

    The collaborators of the manager are arbitrary methods of the world.  A provider that
    [connect] returns was opened over a usable route of the trusted peer, with the peer's
    own secret and pinned transport; and the generation of a peer only grows, so that
    nothing that remembers an older one is ever current again. *)

From S2P Require Import Prelude PyFloat Identity PyJson StateCodec WireOps ConnectionState NodeRegistry Pairing PairingSpec Candidates Connections.
Import ConnectionManager Material(transport_fingerprint, root_public_key, transport_generation, transport_proof).

Section spec.
Context (b64decode : string → option string) (ed25519_verify : string → string → string → bool).
Context {W Pr T : Type} `{HasNetwork W Pr}.
Context (time : M W float) (tls_transport : string → Z → string → M W T).
Context (provider_factory : NodeId → NodeId → string → T → M W Pr) (provider_hello : Pr → M W dict).
Context (_persist : option (M W bool)).
Context (_on_route_attempt : option (string → EndpointCandidate.t → string → option string → M W ())).
Implicit Types (w : W) (p : NodeId) (trusted : TrustedPeer.t) (candidate : DiscoveredNodeCandidate.t).

Notation connect := (connect b64decode ed25519_verify time tls_transport provider_factory provider_hello
  _persist _on_route_attempt).
Notation reconnect := (reconnect b64decode ed25519_verify time tls_transport provider_factory
  provider_hello _persist _on_route_attempt).
Notation try_routes := (try_routes b64decode ed25519_verify time tls_transport provider_factory
  provider_hello _persist _on_route_attempt).
Notation disconnect := (disconnect time).
Notation allowed := (transport_allowed b64decode ed25519_verify).
Notation hello_valid := (_validate_hello_generation b64decode ed25519_verify).

(** ** A returned provider *)

(** A run over one route: the transport was opened to the endpoint with the pinned
    fingerprint, the provider was given the peer's secret, and its hello repeats what the
    candidate shows. *)
Definition opened p trusted candidate fingerprint (e : EndpointCandidate.t) (provider : Pr) : Prop :=
  ∃ w1 w2 transport w3 w4 hello capabilities,
    tls_transport (EndpointCandidate.address e) (EndpointCandidate.port e) fingerprint w1
      = (w2, Ok transport) ∧
    provider_factory p (_local_id (Network.manager (net w2))) (TrustedPeer.secret trusted) transport w2
      = (w3, Ok provider) ∧
    provider_hello provider w3 = (w4, Ok hello) ∧
    hello_valid trusted candidate hello = Ok () ∧
    parse_hello_capabilities (JObj hello) = Ok capabilities.

Lemma try_routes_Ok p trusted candidate fp last routes w w' provider :
  try_routes p trusted candidate fp last routes w = (w', Ok provider) →
  ∃ e, e ∈ routes ∧ opened p trusted candidate fp e provider.
Proof.
  revert last w. induction routes as [|e routes IH]; intros last w Hr; simpl in Hr; [by repeat m_step|].
  apply M_bind_Ok in Hr as (w1 & u & _ & Hr). apply M_bind_Ok in Hr as (w2 & transport & Ht%outcome_Ok & Hr).
  assert (Hrest : ∀ last' wx, try_routes p trusted candidate fp last' routes wx = (w', Ok provider) →
    ∃ e', e' ∈ e :: routes ∧ opened p trusted candidate fp e' provider).
  { intros last' wx Hx. destruct (IH _ _ Hx) as (e' & ? & ?). exists e'. split; [by right|done]. }
  destruct transport as [transport|err].
  2: { destruct (_ || _ || _); repeat m_step; [eauto|done]. }
  apply M_bind_Ok in Hr as (w3 & authenticated & Ha%outcome_Ok & Hr).
  destruct authenticated as [[pr caps]|err].
  2: { destruct (exn_isa err RemoteProtocolError); [|destruct (route_error err); repeat m_step; [eauto|done]].
       unfold authentication_failed in Hr. by repeat m_step. }
  exists e. split; [by left|]. unfold connected in Hr. repeat m_step.
  unfold authenticate_route in Ha. apply M_bind_Ok in Ha as (wn & n & Hn & Ha).
  unfold network in Hn. simplify_eq. repeat m_step.
  repeat match goal with u : () |- _ => destruct u end. repeat eexists; done.
Qed.

(** What a candidate must be for its routes to be tried. *)
Record connectable_peer (n : Network.t Pr) p trusted candidate (fp : string) : Prop := {
  peer_trusted : PairingManager.get_trusted (Network.pairing n) p = Some trusted;
  peer_discovered : od_get (value p) (Network.candidates n) = Some candidate;
  peer_identity : DiscoveredNodeCandidate.stable_id candidate = value p;
  peer_connectable : DiscoveredNodeCandidate.connectable candidate = true;
  peer_compatible : DiscoveredNodeCandidate.compatible candidate = true;
  peer_fingerprint : truthy (DiscoveredNodeCandidate.transport_fingerprint candidate) = Some fp;
  peer_transport : allowed trusted candidate = true }.

Lemma open_connection_Ok p trusted candidate w w' provider :
  open_connection b64decode ed25519_verify time tls_transport provider_factory provider_hello _persist
    _on_route_attempt p trusted candidate w = (w', Ok provider) →
  ∃ fp e, DiscoveredNodeCandidate.connectable candidate = true ∧
    DiscoveredNodeCandidate.stable_id candidate = value p ∧
    truthy (DiscoveredNodeCandidate.transport_fingerprint candidate) = Some fp ∧
    allowed trusted candidate = true ∧
    e ∈ DiscoveredNodeCandidate.endpoint_candidates candidate ∧ usable e = true ∧
    opened p trusted candidate fp e provider.
Proof.
  unfold open_connection, identity_changed. intros Ho. m_step. m_step. to_prop.
  case_bool_decide as Hid; simpl in Ho; [|by repeat m_step].
  m_step. m_step. destruct (allowed trusted candidate) eqn:Hal; simpl in Ho; [|by repeat m_step].
  repeat m_step. apply try_routes_Ok in Ho as (e & He & Hopened).
  rewrite sorted_perm in He. apply elem_of_lfilter in He as [Hu He].
  match goal with E : of_option _ _ _ = Ok ?f |- _ => apply of_option_Ok in E; exists f, e end.
  done.
Qed.

(** C12. A new provider is opened to the right peer: when [connect] returns one that was not open
    already, the peer is trusted and discovered under its own identity, its transport is the
    pinned one or proved newer by the stored root, and over one of its usable routes, with the
    pinned fingerprint and the peer's own secret, it answered with a hello that repeats the
    transport the candidate shows. *)
Theorem connection_is_authentic p w w' provider : connect p w = (w', Ok provider) →
  od_get p (_providers (Network.manager (net w))) = Some provider ∨
  od_get p (_providers (Network.manager (net w))) = None ∧
  ∃ trusted candidate fp e, connectable_peer (net w) p trusted candidate fp ∧
    e ∈ DiscoveredNodeCandidate.endpoint_candidates candidate ∧ usable e = true ∧
    opened p trusted candidate fp e provider.
Proof.
  unfold Connections.connect. intros Hc. apply M_bind_Ok in Hc as (w1 & n & Hn & Hc).
  unfold network in Hn. simplify_eq.
  destruct (od_get p _) as [existing|] eqn:Hp; [left; by m_step|right; split; [done|]].
  destruct (PairingManager.get_trusted _ _) as [trusted|] eqn:Ht; [|by m_step].
  destruct (od_get (value p) _) as [candidate|] eqn:Hd; [|by m_step].
  do 2 m_step. to_prop.
  apply open_connection_Ok in Hc as (fp & e & ? & ? & ? & ? & ? & ? & ?).
  by exists trusted, candidate, fp, e.
Qed.

(** ** Generations *)

Definition generation p w : Z := connection_generation (Network.manager (net w)) p.

(** No generation is lowered. *)
Definition advances w w' : Prop := ∀ p, (generation p w <= generation p w')%Z.

#[global] Instance advances_refl : Reflexive advances.
Proof. intros w p. lia. Qed.
#[global] Instance advances_trans : Transitive advances.
Proof. intros w1 w2 w3 H1 H2 p. etrans; [apply H1|apply H2]. Qed.

(** The collaborators cannot lower a generation: they only have the manager's own methods. *)
Context `{!Keeps advances time, !∀ a q f, Keeps advances (tls_transport a q f)}.
Context `{!∀ a b c d, Keeps advances (provider_factory a b c d), !∀ pr, Keeps advances (provider_hello pr)}.
Context (persist_advances : ∀ m, _persist = Some m → Keeps advances m).
Context (report_advances : ∀ f, _on_route_attempt = Some f → ∀ a b c d, Keeps advances (f a b c d)).

Lemma on_net_advances {A} (m : M (Network.t Pr) A) :
  (∀ n q, (connection_generation (Network.manager n) q
           <= connection_generation (Network.manager (m n).1) q)%Z) →
  Keeps advances (on_net m).
Proof.
  intros Hm w q. unfold on_net, generation. pose proof (Hm (net w) q) as Hq.
  destruct (m (net w)) as [n r]. simpl in *. by rewrite net_with.
Qed.

#[local] Instance network_advances : Keeps advances network.
Proof. by intros w q. Qed.
#[local] Instance registry_advances {A} (m : M NodeRegistry.t A) :
  Keeps advances (on_net (Network.on_registry m)).
Proof. apply on_net_advances. intros n q. unfold Network.on_registry. by destruct (m _). Qed.
#[local] Instance pairing_advances f : Keeps advances (on_net (Network.on_pairing f)).
Proof. by apply on_net_advances. Qed.

(** A step of the manager that leaves the generations. *)
Lemma manager_advances f : (∀ m : ConnectionManager.t Pr, _generations (f m) = _generations m) →
  Keeps advances (on_net (Network.on_manager f)).
Proof. intros Hf. apply on_net_advances. intros n q. unfold connection_generation. simpl. by rewrite Hf. Qed.
#[local] Instance set_providers_advances f :
  Keeps advances (on_net (Network.on_manager (λ m, set_providers m (f m)))).
Proof. by apply manager_advances. Qed.
#[local] Instance set_resume_advances f :
  Keeps advances (on_net (Network.on_manager (λ m, set_resume m (f m)))).
Proof. by apply manager_advances. Qed.

Lemma next_generation_run p q (m : ConnectionManager.t Pr) :
  connection_generation (next_generation p m) q =
  (connection_generation m q + if decide (p = q) then 1 else 0)%Z.
Proof.
  unfold next_generation, connection_generation. simpl. destruct (decide (p = q)) as [->|Hne].
  - by rewrite lookup_insert_eq.
  - rewrite lookup_insert_ne by done. lia.
Qed.
#[local] Instance next_advances p : Keeps advances (on_net (Network.on_manager (next_generation p))).
Proof.
  apply on_net_advances. intros n q. simpl. rewrite next_generation_run. destruct (decide _); lia.
Qed.

#[local] Instance mark_advances f p e : Keeps advances (on_net (Network.mark f p e)).
Proof. apply on_net_advances. intros n q. unfold Network.mark. by repeat case_match. Qed.
#[local] Instance state_advances p state : Keeps advances (on_net (Network._set_state p state)).
Proof.
  apply on_net_advances. intros n q. unfold Network._set_state.
  destruct (NodeRegistry.record _ _); [|done].
  rewrite M_bind_run. unfold Network.on_registry. by destruct (NodeRegistry.set_connection _ _ _) as [r [|]].
Qed.
#[local] Instance report_keeps phase e res err :
  Keeps advances (_report_route_attempt _on_route_attempt phase e res err).
Proof.
  unfold _report_route_attempt. destruct _on_route_attempt as [f|] eqn:Hf; [|apply _].
  apply keeps_attempt; [apply _..|by apply report_advances|apply _].
Qed.
#[local] Instance failure_advances p e err :
  Keeps advances (_record_route_failure time _on_route_attempt p e err).
Proof. unfold _record_route_failure, Network._mark_failure. keeps. Qed.
#[local] Instance record_advances p trusted candidate :
  Keeps advances (_record_generation _persist p trusted candidate).
Proof.
  unfold _record_generation. destruct (same_transport _ _); [apply _|].
  apply keeps_bind; [apply _..|intros _]. destruct _persist as [m|] eqn:Hm; [|apply _].
  apply keeps_bind; [apply _..|apply keeps_outcome, persist_advances; done|]. intros. keeps.
Qed.

#[local] Instance routes_advance p trusted candidate fp last routes :
  Keeps advances (try_routes p trusted candidate fp last routes).
Proof.
  revert last. induction routes as [|e routes IH]; intros last; cbn [Connections.try_routes]; unfold forget_provider.
  - keeps.
  - unfold authenticate_route, authentication_failed, connected, Network._mark_success. keeps.
Qed.

#[local] Instance connect_advances p : Keeps advances (connect p).
Proof. unfold Connections.connect, open_connection, identity_changed. keeps. Qed.

#[local] Instance disconnect_advances p reason : Keeps advances (disconnect p reason).
Proof. unfold Connections.disconnect, forget_provider. keeps. Qed.

(** A step that begins with a new generation of [p]. *)
Lemma next_then_strict {A} p (m : M W A) w : Keeps advances m →
  (generation p w < generation p ((on_net (Network.on_manager (next_generation p));; m) w).1)%Z.
Proof.
  intros Hm. rewrite M_bind_run. unfold on_net at 1, Network.on_manager. cbv beta iota zeta.
  set (w1 := with_net _ w). assert (generation p w1 = generation p w + 1)%Z as Hn.
  { unfold w1, generation. rewrite net_with. simpl. rewrite next_generation_run, decide_True by done. done. }
  pose proof (Hm w1 p). lia.
Qed.

Lemma disconnect_strict p reason w : (generation p w < generation p (disconnect p reason w).1)%Z.
Proof. unfold Connections.disconnect. apply next_then_strict. unfold forget_provider. keeps. Qed.

Lemma connect_strict p w w' provider : connect p w = (w', Ok provider) →
  od_get p (_providers (Network.manager (net w))) = None → (generation p w < generation p w')%Z.
Proof.
  unfold Connections.connect. intros Hc Hp. apply M_bind_Ok in Hc as (w1 & n & Hn & Hc).
  unfold network in Hn. simplify_eq. rewrite Hp in Hc.
  destruct (PairingManager.get_trusted _ _); [|by m_step].
  destruct (od_get (value p) _) as [candidate|]; [|by m_step].
  apply M_bind_Ok in Hc as (? & ? & [-> _]%throw_if_Ok & Hc). unfold open_connection, identity_changed in Hc.
  apply M_bind_Ok in Hc as (? & ? & [-> _]%throw_if_Ok & Hc).
  destruct (negb (bool_decide _)); [by repeat m_step|].
  apply M_bind_Ok in Hc as (? & ? & [-> _]%throw_if_Ok & Hc).
  destruct (negb (allowed _ _)); [by repeat m_step|].
  apply M_bind_Ok in Hc as (? & ? & [-> _]%lift_Ok & Hc).
  apply M_bind_Ok in Hc as (w2 & n2 & Hn2 & Hc). unfold network in Hn2. simplify_eq.
  revert Hc. match goal with |- (on_net _ ≫= ?f) _ = _ → _ => intros Hc;
    assert (Keeps advances (f ())) as Hf by (simpl; keeps) end.
  pose proof (next_then_strict p _ w2 Hf) as Hs. cbv beta in Hs. by rewrite Hc in Hs.
Qed.

(** ** Histories *)

Inductive manager_call :=
  | Connect (p : NodeId) | Reconnect (p : NodeId)
  | Disconnect (p : NodeId) (reason : string) | DisconnectAll.

Definition manager_run (c : manager_call) (w : W) : W :=
  match c with
  | Connect p => (connect p w).1
  | Reconnect p => (reconnect p w).1
  | Disconnect p reason => (disconnect p reason w).1
  | DisconnectAll => (disconnect_all time w).1
  end.

#[local] Instance disconnect_each_advances peers : Keeps advances (disconnect_each time peers).
Proof. induction peers; simpl; keeps. Qed.

Lemma manager_run_advances c w : advances w (manager_run c w).
Proof.
  destruct c as [p|p|p reason|]; simpl; apply keeps_fst; apply _.
Qed.

Lemma history_advances calls w : advances w (foldl (λ w c, manager_run c w) w calls).
Proof.
  revert w. induction calls as [|c calls IH]; intros w; simpl; [done|].
  etrans; [apply manager_run_advances|apply IH].
Qed.

(** A superseded connection is never current again: once a peer was disconnected, or a new
    provider was opened to it, the generation that was current before is not the current one
    after any later history of connects, reconnects and disconnects, whatever they meet. *)
Theorem superseded_generation_stays_stale p g w w1 calls :
  is_current_generation (Network.manager (net w)) p g = true →
  (∃ reason, w1 = (disconnect p reason w).1) ∨
  (∃ provider, connect p w = (w1, Ok provider) ∧ od_get p (_providers (Network.manager (net w))) = None) →
  is_current_generation (Network.manager (net (foldl (λ w c, manager_run c w) w1 calls))) p g = false.
Proof.
  unfold is_current_generation. intros Hg%bool_decide_eq_true Hw1. apply bool_decide_eq_false. intros Hc.
  assert (generation p w < generation p w1)%Z.
  { destruct Hw1 as [[reason ->]|(provider & Hr & Hp)]; [apply disconnect_strict|by eapply connect_strict]. }
  pose proof (history_advances calls w1 p) as Ha. unfold generation, connection_generation in *. rewrite Hg in *. rewrite Hc in *.
  simpl in *. lia.
Qed.
End spec.

(** ** The pinned transport *)

Section pins.
Context (b64decode : string → option string) (ed25519_verify : string → string → string → bool).
Context {W Pr T : Type} `{HasNetwork W Pr}.
Context (time : M W float) (tls_transport : string → Z → string → M W T).
Context (provider_factory : NodeId → NodeId → string → T → M W Pr) (provider_hello : Pr → M W dict).
Context (_persist : option (M W bool)).
Context (_on_route_attempt : option (string → EndpointCandidate.t → string → option string → M W ())).
Implicit Types (w : W) (p : NodeId) (trusted : TrustedPeer.t) (candidate : DiscoveredNodeCandidate.t).

Notation connect := (connect b64decode ed25519_verify time tls_transport provider_factory provider_hello
  _persist _on_route_attempt).
Notation try_routes := (try_routes b64decode ed25519_verify time tls_transport provider_factory
  provider_hello _persist _on_route_attempt).
Notation run := (manager_run b64decode ed25519_verify time tls_transport provider_factory provider_hello
  _persist _on_route_attempt).

Definition trust_of w : gmap NodeId TrustedPeer.t := PairingManager.trusted (Network.pairing (net w)).

(** The transport of a trusted peer is replaced: by that of a candidate which shows one, and,
    if one was pinned, which the pinned root signed for a newer generation. *)
Definition rotates (old new : TrustedPeer.t) : Prop := ∃ candidate fp,
  new = with_transport old candidate ∧
  DiscoveredNodeCandidate.transport_fingerprint candidate = Some fp ∧ fp ≠ "" ∧
  transport_fingerprint (TrustedPeer.material old) ≠ Some fp ∧
  (transport_fingerprint (TrustedPeer.material old) ≠ None →
     rotated b64decode ed25519_verify (TrustedPeer.peer_id old) (TrustedPeer.material old) (Some fp)
       (DiscoveredNodeCandidate.transport_generation candidate)
       (DiscoveredNodeCandidate.transport_proof candidate)).

(** The same peers are trusted, each under a chain of such rotations. *)
Definition pins w w' : Prop := ∀ q,
  match trust_of w !! q, trust_of w' !! q with
  | Some old, Some new => rtc rotates old new
  | None, None => True
  | _, _ => False
  end.
#[local] Instance pins_refl : Reflexive pins.
Proof. intros w q. by destruct (_ !! q). Qed.
#[local] Instance pins_trans : Transitive pins.
Proof.
  intros w1 w2 w3 H1 H2 q. specialize (H1 q). specialize (H2 q).
  destruct (trust_of w1 !! q), (trust_of w2 !! q), (trust_of w3 !! q); try done. by etrans.
Qed.

Definition same_trust w w' : Prop := trust_of w' = trust_of w.
#[local] Instance same_trust_refl : Reflexive same_trust.
Proof. done. Qed.
#[local] Instance same_trust_trans : Transitive same_trust.
Proof. intros w1 w2 w3 H1 H2. unfold same_trust in *. congruence. Qed.
Lemma same_pins w w' : same_trust w w' → pins w w'.
Proof. intros E q. rewrite E. by destruct (_ !! q). Qed.

(** The collaborators leave the trusted peers alone. *)
Context (time_same : Keeps same_trust time) (tls_same : ∀ a q f, Keeps same_trust (tls_transport a q f)).
Context (factory_same : ∀ a b c d, Keeps same_trust (provider_factory a b c d)).
Context (hello_same : ∀ pr, Keeps same_trust (provider_hello pr)).
Context (persist_same : ∀ m, _persist = Some m → Keeps same_trust m).
Context (report_same : ∀ f, _on_route_attempt = Some f → ∀ a b c d, Keeps same_trust (f a b c d)).

Lemma on_net_same {A} (m : M (Network.t Pr) A) :
  (∀ n, PairingManager.trusted (Network.pairing (m n).1) = PairingManager.trusted (Network.pairing n)) →
  Keeps same_trust (on_net m).
Proof.
  intros Hm w. unfold on_net, same_trust, trust_of. pose proof (Hm (net w)) as Hq.
  destruct (m (net w)) as [n r]. simpl in *. by rewrite net_with.
Qed.
#[local] Instance network_same : Keeps same_trust network.
Proof. done. Qed.
#[local] Instance registry_same {A} (m : M NodeRegistry.t A) : Keeps same_trust (on_net (Network.on_registry m)).
Proof. apply on_net_same. intros n. unfold Network.on_registry. by destruct (m _). Qed.
#[local] Instance manager_same f : Keeps same_trust (on_net (Network.on_manager f)).
Proof. by apply on_net_same. Qed.
#[local] Instance ok_same p : Keeps same_trust (on_net (Network.on_pairing (PairingManager.mark_auth_ok p))).
Proof. by apply on_net_same. Qed.
#[local] Instance broken_same p : Keeps same_trust (on_net (Network.on_pairing (PairingManager.mark_auth_failure p))).
Proof. apply on_net_same. intros n. simpl. unfold PairingManager.mark_auth_failure. by repeat case_match. Qed.
#[local] Instance mark_same f p e : Keeps same_trust (on_net (Network.mark f p e)).
Proof. apply on_net_same. intros n. unfold Network.mark. by repeat case_match. Qed.
#[local] Instance state_same p state : Keeps same_trust (on_net (Network._set_state p state)).
Proof.
  apply on_net_same. intros n. unfold Network._set_state. destruct (NodeRegistry.record _ _); [|done].
  rewrite M_bind_run. unfold Network.on_registry. by destruct (NodeRegistry.set_connection _ _ _) as [r [|]].
Qed.
#[local] Instance report_keeps_trust phase e res err :
  Keeps same_trust (_report_route_attempt _on_route_attempt phase e res err).
Proof.
  unfold _report_route_attempt. destruct _on_route_attempt as [f|] eqn:Hf; [|apply _].
  apply keeps_attempt; [apply _..|by apply report_same|apply _].
Qed.
#[local] Instance failure_same p e err : Keeps same_trust (_record_route_failure time _on_route_attempt p e err).
Proof. unfold _record_route_failure, Network._mark_failure. keeps. Qed.

Lemma same_by {A} (m : M W A) : Keeps same_trust m → ∀ w, same_trust w (m w).1.
Proof. done. Qed.

(** ** Recording a transport *)

Lemma store_trust p peer w :
  trust_of (on_net (Network.on_pairing (λ m,
    PairingManager.set_trusted m (<[p := peer]> (PairingManager.trusted m)))) w).1 = <[p := peer]> (trust_of w).
Proof. unfold on_net, trust_of, Network.on_pairing. simpl. by rewrite net_with. Qed.

(** What trying [candidate] may have done to the trusted peers. *)
Definition recorded p trusted candidate w w' : Prop :=
  same_trust w w' ∨
  same_transport trusted candidate = false ∧ trust_of w' = <[p := with_transport trusted candidate]> (trust_of w).

Lemma record_generation_cases p trusted candidate w : trust_of w !! p = Some trusted →
  let '(w', r) := _record_generation _persist p trusted candidate w in
  match r with Ok _ => recorded p trusted candidate w w' | Err _ => same_trust w w' end.
Proof.
  intros Hp. unfold _record_generation. destruct (same_transport trusted candidate) eqn:Es; [by left|].
  rewrite M_bind_run. pose proof (store_trust p (with_transport trusted candidate) w) as H1.
  destruct (on_net _ w) as [w1 r1] eqn:E1. assert (r1 = Ok ()) as -> by (by injection E1 as _ <-). clear E1. cbn [fst] in H1.
  destruct _persist as [m|]; [|by right]. rewrite M_bind_run. unfold outcome.
  pose proof (persist_same m eq_refl w1) as H2. destruct (m w1) as [w2 r2]. cbn [fst] in H2.
  assert (trust_of w2 = <[p := with_transport trusted candidate]> (trust_of w)) as H2' by (by rewrite H2).
  assert (∀ msg, same_trust w ((on_net (Network.on_pairing (λ m0,
    PairingManager.set_trusted m0 (<[p := trusted]> (PairingManager.trusted m0))));; throw RemoteAuthError msg : M W ()) w2).1) as Hb.
  { intros msg. rewrite M_bind_run. pose proof (store_trust p trusted w2) as H3.
    destruct (on_net _ w2) as [w3 [[]|e]]; unfold same_trust; simpl in *;
      rewrite H3, H2', insert_insert_eq; by apply insert_id. }
  destruct r2 as [[]|e]; [by right|..].
  - specialize (Hb "transport generation was not durably persisted").
    by destruct ((on_net _ ≫= _) w2) as [w3 [[]|e]]; [left|].
  - specialize (Hb "transport generation was not durably persisted").
    by destruct ((on_net _ ≫= _) w2) as [w3 [[]|e']]; [left|].
Qed.

Lemma authenticate_route_cases p trusted candidate transport w : trust_of w !! p = Some trusted →
  let '(w', r) := authenticate_route b64decode ed25519_verify provider_factory provider_hello _persist
                    p trusted candidate transport w in
  match r with Ok _ => recorded p trusted candidate w w' | Err _ => same_trust w w' end.
Proof.
  intros Hp. unfold authenticate_route. rewrite M_bind_run. cbn [network].
  rewrite M_bind_run. pose proof (keeps_fst (R := same_trust) (m := provider_factory p
    (_local_id (Network.manager (net w))) (TrustedPeer.secret trusted) transport) w) as H1.
  destruct (provider_factory _ _ _ _ w) as [w1 [pr|e]]; [|done]. cbn [fst] in H1.
  rewrite M_bind_run. pose proof (keeps_fst (R := same_trust) (m := provider_hello pr) w1) as H2.
  destruct (provider_hello pr w1) as [w2 [hello|e]]; cbn [fst] in H2; [|by etrans].
  assert (same_trust w w2) as Hw by (by etrans). rewrite M_bind_run. unfold lift at 1.
  destruct (_validate_hello_generation _ _ _ _ _) as [[]|e]; [|done]. rewrite M_bind_run. unfold lift at 1.
  destruct (parse_hello_capabilities _) as [caps|e]; [|done]. rewrite M_bind_run.
  pose proof (record_generation_cases p trusted candidate w2) as Hr. rewrite Hw in Hr. specialize (Hr Hp).
  destruct (_record_generation _ _ _ _ w2) as [w3 [[]|e]]; [|by etrans].
  rewrite M_bind_run. pose proof (ok_same p w3) as H4. destruct (on_net _ w3) as [w4 r4] eqn:E4.
  assert (r4 = Ok ()) as -> by (by injection E4 as _ <-). cbn [fst] in H4. cbn.
  destruct Hr as [Hr|[Hs Hr]]; [left; by etrans; [|etrans]|right]. split; [done|]. by rewrite H4, Hr, Hw.
Qed.

(** What follows leaves them. *)
Lemma recorded_then p trusted candidate w w1 w2 :
  recorded p trusted candidate w w1 → same_trust w1 w2 → recorded p trusted candidate w w2.
Proof. intros [H1|[H1 H2]] E; [left; by etrans|right]. by rewrite E. Qed.
Lemma recorded_after p trusted candidate w w1 w2 :
  same_trust w w1 → recorded p trusted candidate w1 w2 → recorded p trusted candidate w w2.
Proof. intros E [H1|[H1 H2]]; [left; by etrans|right]. by rewrite H2, E. Qed.

Lemma recorded_bind {A B} p trusted candidate w w1 (m : M W A) (f : A → M W B) : Keeps same_trust m →
  same_trust w w1 → (∀ a w2, same_trust w w2 → recorded p trusted candidate w (f a w2).1) →
  recorded p trusted candidate w ((m ≫= f) w1).1.
Proof.
  intros Hm E Hf. rewrite M_bind_run. pose proof (Hm w1) as H2. destruct (m w1) as [w2 [a|e]]; cbn [fst] in H2.
  - apply Hf. by etrans.
  - left. simpl. by etrans.
Qed.

Lemma try_routes_cases p trusted candidate fp routes : ∀ last w, trust_of w !! p = Some trusted →
  recorded p trusted candidate w (try_routes p trusted candidate fp last routes w).1.
Proof.
  induction routes as [|e routes IH]; intros last w Hp.
  { left. cbn [Connections.try_routes]. unfold forget_provider. apply same_by; keeps. }
  assert (∀ err last w1, same_trust w w1 →
    recorded p trusted candidate w ((_record_route_failure time _on_route_attempt p e err;;
      try_routes p trusted candidate fp last routes) w1).1) as Hnext.
  { intros err last' w1 E. rewrite M_bind_run. pose proof (failure_same p e err w1) as Hf.
    destruct (_record_route_failure _ _ _ _ _ w1) as [w2 [[]|e2]]; cbn [fst] in Hf; [|left; by etrans].
    assert (same_trust w w2) as E2 by (by etrans). eapply recorded_after; [done|]. apply IH. by rewrite E2. }
  cbn [Connections.try_routes]. rewrite M_bind_run.
  pose proof (report_keeps_trust "connection" e "started" None w) as H1.
  destruct (_report_route_attempt _ _ _ _ _ w) as [w1 [[]|e1]]; cbn [fst] in H1; [|by left].
  rewrite M_bind_run. unfold outcome at 1.
  pose proof (keeps_fst (R := same_trust) (m := tls_transport (EndpointCandidate.address e) (EndpointCandidate.port e) fp) w1) as H2.
  destruct (tls_transport _ _ _ w1) as [w2 [transport|e2]]; cbn [fst] in H2;
    assert (same_trust w w2) as E2 by (by etrans).
  2: { destruct (_ || _ || _); [by apply Hnext|by left]. }
  rewrite M_bind_run. unfold outcome.
  pose proof (authenticate_route_cases p trusted candidate transport w2) as Ha. rewrite E2 in Ha. specialize (Ha Hp).
  destruct (authenticate_route _ _ _ _ _ _ _ _ _ w2) as [w3 [[pr caps]|err]].
  - eapply recorded_after; [done|]. eapply recorded_then; [done|].
    unfold connected, Network._mark_success. apply same_by; keeps.
  - assert (same_trust w w3) as E3 by (by etrans).
    destruct (exn_isa err RemoteProtocolError); [|destruct (route_error err); [by apply Hnext|by left]].
    left. etrans; [done|]. unfold authentication_failed. apply same_by; keeps.
Qed.

Lemma rotation_allowed p trusted candidate fp w w' : trust_of w !! p = Some trusted →
  transport_allowed b64decode ed25519_verify trusted candidate = true →
  truthy (DiscoveredNodeCandidate.transport_fingerprint candidate) = Some fp →
  recorded p trusted candidate w w' → pins w w'.
Proof.
  intros Hp Ha Hf Hr. apply PairingSpec.truthy_Some in Hf as [Hf Hne].
  destruct Hr as [E|[Hs E]]; [by apply same_pins|]. intros q. rewrite E.
  destruct (decide (p = q)) as [<-|Hq]; [|rewrite lookup_insert_ne by done; by destruct (_ !! q)].
  rewrite lookup_insert_eq, Hp. apply rtc_once. exists candidate, fp.
  unfold same_transport in Hs. to_prop. rewrite Hf in Hs. split; [done|]. split; [done|]. split; [done|]. split; [congruence|].
  intros Hpin. unfold transport_allowed in Ha. rewrite Hf in Ha.
  apply (allowed_exact _ _ _ _ _ _ _ Hpin) in Ha. destruct Ha as [?|(_ & _ & ?)]; [congruence|done].
Qed.

#[local] Instance connect_pins p : Keeps pins (connect p).
Proof.
  intros w. unfold Connections.connect. rewrite M_bind_run. cbn [network].
  destruct (od_get p _); [done|]. destruct (PairingManager.get_trusted _ p) as [trusted|] eqn:Hp; [|done].
  destruct (od_get (value p) _) as [candidate|]; [|done]. rewrite M_bind_run. unfold throw_if at 1.
  destruct (raise_if _ _ _) as [[]|e]; [|done]. unfold open_connection, identity_changed.
  rewrite M_bind_run. unfold throw_if at 1. destruct (raise_if _ _ _) as [[]|e]; [|done].
  destruct (negb (bool_decide _)); [apply same_pins, same_by; keeps|].
  rewrite M_bind_run. unfold throw_if at 1. destruct (raise_if _ _ _) as [[]|e]; [|done].
  destruct (transport_allowed _ _ trusted candidate) eqn:Ha; cbn [negb];
    [|apply same_pins, same_by; keeps].
  rewrite M_bind_run. unfold lift at 1. destruct (of_option _ _ _) as [fp|e] eqn:Hfp; [|done].
  apply of_option_Ok in Hfp. rewrite M_bind_run. cbn [network].
  eapply rotation_allowed; [done..|].
  do 4 (apply recorded_bind; [apply _|done|intros ? ? ?]). eapply recorded_after; [done|].
  apply try_routes_cases. by match goal with E : same_trust w _ |- _ => rewrite E end.
Qed.

#[local] Instance disconnect_same p reason : Keeps same_trust (disconnect time p reason).
Proof. unfold disconnect, forget_provider. keeps. Qed.
#[local] Instance disconnect_each_same peers : Keeps same_trust (disconnect_each time peers).
Proof. induction peers; simpl; keeps. Qed.

Lemma manager_run_pins c w : pins w (run c w).
Proof.
  assert (∀ A (m : M W A), Keeps same_trust m → Keeps pins m) as Hk.
  { intros A m. apply keeps_weaken. exact same_pins. }
  destruct c as [p|p|p reason|]; cbn [manager_run].
  - apply connect_pins.
  - unfold reconnect, forget_provider. apply (keeps_fst (R := pins)).
  - apply same_pins, disconnect_same.
  - apply same_pins. unfold disconnect_all. apply same_by. keeps.
Qed.

Lemma rotates_newer old new g : rotates old new → transport_generation (TrustedPeer.material old) = Some g →
  transport_fingerprint (TrustedPeer.material old) ≠ None →
  transport_fingerprint (TrustedPeer.material new) ≠ None ∧
  ∃ g', transport_generation (TrustedPeer.material new) = Some g' ∧ (g < g')%Z.
Proof.
  intros (c & fp & -> & Hf & _ & _ & Hr) Hg Hp. destruct (Hr Hp) as (root & g' & q & _ & Eg & _ & Hn & _).
  simpl. rewrite Hf. split; [done|]. exists g'. split; [done|]. by apply Hn.
Qed.

(** C32. However the manager connects, reconnects and disconnects, whatever its collaborators
    answer and whichever saves fail, the same peers stay trusted, and the transport pinned for
    each is the one of before or is reached from it by replacements, each signed by the root
    pinned then for a generation newer than the one pinned then.  A generation that was pinned
    once is therefore only ever replaced by newer ones. *)
Theorem pinned_transport_follows_the_root calls w q :
  let w' := foldl (λ w c, run c w) w calls in
  match trust_of w !! q, trust_of w' !! q with
  | Some old, Some new =>
      rtc rotates old new ∧
      (∀ g, transport_generation (TrustedPeer.material old) = Some g →
         transport_fingerprint (TrustedPeer.material old) ≠ None →
         new = old ∨ ∃ g', transport_generation (TrustedPeer.material new) = Some g' ∧ (g < g')%Z)
  | None, None => True
  | _, _ => False
  end.
Proof.
  intros w'. assert (pins w w') as Hp.
  { unfold w'. clear w' q. revert w. induction calls as [|c calls IH]; intros w; simpl; [done|].
    etrans; [apply manager_run_pins|apply IH]. }
  specialize (Hp q). destruct (trust_of w !! q) as [old|], (trust_of w' !! q) as [new|]; try done.
  split; [done|]. intros g Hg Hf. revert g Hg Hf. induction Hp as [x|x y z Hxy Hyz IH]; intros g Hg Hf; [by left|].
  right. destruct (rotates_newer _ _ _ Hxy Hg Hf) as (Hf' & g' & Hg' & Hlt).
  destruct (IH g' Hg' Hf') as [->|(k & Hk & ?)]; [by exists g'|exists k; split; [done|lia]].
Qed.
End pins.

(** ** A recorded transport *)

Section root.
Context (b64decode : string → option string) (ed25519_verify : string → string → string → bool).

(** A rotation that shows no root key erases the pinned one: discovery reports the key and the
    proof as separate optional texts, and a key that is absent is compared neither by the proof
    check nor with the hello of the peer, which repeats the true one.  The peer is then recorded
    without a root, and no later transport of it is ever allowed. *)
Theorem keyless_rotation_erases_root trusted candidate root fp generation proof name :
  transport_allowed b64decode ed25519_verify trusted candidate = true →
  same_transport trusted candidate = false →
  DiscoveredNodeCandidate.transport_fingerprint candidate = Some fp →
  DiscoveredNodeCandidate.root_public_key candidate = None →
  DiscoveredNodeCandidate.transport_generation candidate = Some generation →
  DiscoveredNodeCandidate.transport_proof candidate = Some proof →
  let hello := [("node_id", JStr name); ("transport_fingerprint", JStr fp); ("root_public_key", JStr root);
                ("transport_generation", JInt generation); ("transport_proof", JStr proof)] in
  _validate_hello_generation b64decode ed25519_verify trusted candidate hello = Ok () ∧
  ∀ next, DiscoveredNodeCandidate.transport_fingerprint next ≠ Some fp →
    transport_allowed b64decode ed25519_verify (with_transport trusted candidate) next = false.
Proof.
  intros Ha Hs Hf Hr Hg Hp hello. split.
  - unfold _validate_hello_generation, same_text, same_number. rewrite Ha, Hf, Hr, Hg, Hp.
    unfold jget. simpl. rewrite !bool_decide_eq_true_2, Z.eqb_refl by done. simpl. by rewrite andb_false_r.
  - intros next Hn. unfold transport_allowed, candidate_transport_generation_allowed. simpl.
    rewrite Hf, Hr. by rewrite decide_False.
Qed.
End root.

(** ** A concrete world: a network, and the number of clock readings *)

Module Sample.
Definition world : Type := Network.t string * nat.
#[global] Instance world_network : HasNetwork world string.
Proof. by refine {| net := fst; with_net n w := (n, w.2) |}; [|intros []|]. Defined.

Definition peer : NodeId := mkNodeId "peer".
Definition endpoint (addr : string) (priority : Z) : EndpointCandidate.t :=
  EndpointCandidate.mk addr 8443 IPV4 "validated" priority None None.
Definition candidate (fp : string) (root : option string) : DiscoveredNodeCandidate.t :=
  DiscoveredNodeCandidate.mk "peer" "host" ["10.0.0.1"] (Some 8443%Z) "svc" "1" "1" None true true (flit 0)
    None (Some fp) [endpoint "10.0.0.1" 1; endpoint "10.0.0.2" 0] root (Some 2%Z) (Some "proof") None.
Definition trusted : TrustedPeer.t :=
  TrustedPeer.mk peer "secret" ∅ (Material.mk None (Some "pin") (Some "key") (Some 1%Z) None).
Definition start : world :=
  (Network.mk (PairingManager.set_trusted (PairingManager.__init__ (mkNodeId "self") (flit 300)) {[peer := trusted]})
     (NodeRegistry.__init__ (mkNodeId "self") true) [("peer", candidate "pin" (Some "key"))]
     (ConnectionManager.__init__ (mkNodeId "self")), 0).

Definition time : M world float := λ w, ((w.1, S w.2), Ok (flit (Z.of_nat w.2))).
(** The route with the better rank refuses the connection. *)
Definition tls (addr : string) (_ : Z) (_ : string) : M world string :=
  if bool_decide (addr = "10.0.0.2") then throw ConnectionError "refused" else mret addr.
Definition factory (_ _ : NodeId) (_ transport : string) : M world string := mret transport.
Definition hello (_ : string) : M world (list (string * json)) := mret [("capabilities", JList [JStr "read_state"])].
Definition connect (w : world) : world * result string :=
  Connections.connect Some (λ _ _ _, true) time tls factory hello None None peer w.

#[global] Instance time_advances : Keeps advances time.
Proof. intros w q. done. Qed.
#[global] Instance tls_advances a q f : Keeps advances (tls a q f).
Proof. unfold tls. case_bool_decide; apply _. Qed.
End Sample.

Lemma sample_connected : Sample.connect Sample.start = ((Sample.connect Sample.start).1, Ok "10.0.0.1").
Proof.
  rewrite (surjective_pairing (Sample.connect Sample.start)) at 1. apply f_equal. vm_compute. reflexivity.
Qed.

Lemma connection_is_authentic_witness :
  (Sample.connect Sample.start).2 = Ok "10.0.0.1" ∧
  (od_get Sample.peer (_providers (Network.manager (net Sample.start))) = Some "10.0.0.1" ∨
   od_get Sample.peer (_providers (Network.manager (net Sample.start))) = None ∧
   ∃ trusted candidate fp e,
     connectable_peer Some (λ _ _ _, true) (net Sample.start) Sample.peer trusted candidate fp ∧
     e ∈ DiscoveredNodeCandidate.endpoint_candidates candidate ∧ usable e = true ∧
     opened Some (λ _ _ _, true) Sample.tls Sample.factory Sample.hello Sample.peer trusted candidate fp e
       "10.0.0.1").
Proof.
  split; [vm_compute; reflexivity|].
  exact (connection_is_authentic Some (λ _ _ _, true) Sample.time Sample.tls Sample.factory Sample.hello
    None None Sample.peer Sample.start (Sample.connect Sample.start).1 "10.0.0.1" sample_connected).
Defined.

Lemma superseded_generation_stays_stale_witness :
  let w := (Sample.connect Sample.start).1 in
  let after := (disconnect Sample.time Sample.peer "lost" w).1 in
  is_current_generation (Network.manager (net w)) Sample.peer 1 = true ∧
  is_current_generation (Network.manager (net (Sample.connect after).1)) Sample.peer 1 = false.
Proof.
  intros w after. split; [vm_compute; reflexivity|].
  refine (superseded_generation_stays_stale Some (λ _ _ _, true) Sample.time Sample.tls Sample.factory
    Sample.hello None None _ _ Sample.peer 1 w after [Connect Sample.peer] _ _).
  - discriminate.
  - discriminate.
  - vm_compute. reflexivity.
  - left. by exists "lost".
Defined.

Lemma keyless_rotation_erases_root_witness :
  let next := Sample.candidate "other" (Some "key") in
  transport_allowed Some (λ _ _ _, true) Sample.trusted next = true ∧
  transport_allowed Some (λ _ _ _, true) (with_transport Sample.trusted (Sample.candidate "new" None)) next
  = false.
Proof.
  intros next. split; [vm_compute; reflexivity|].
  apply (keyless_rotation_erases_root Some (λ _ _ _, true) Sample.trusted (Sample.candidate "new" None)
           "key" "new" 2 "proof" "peer"); [vm_compute; reflexivity..|discriminate].
Defined.

(** The peer shows a new transport, which its root signed for generation 2. *)
Definition shown : Sample.world :=
  (Network.set_candidates (Sample.start).1 [("peer", Sample.candidate "new" (Some "key"))], 0).
Definition shown_hello (_ : string) : M Sample.world (list (string * json)) :=
  mret [("capabilities", JList [JStr "read_state"]); ("transport_fingerprint", JStr "new");
        ("root_public_key", JStr "key"); ("transport_generation", JInt 2); ("transport_proof", JStr "proof")].
Definition shown_run : Sample.world :=
  foldl (λ w c, manager_run Some (λ _ _ _, true) Sample.time Sample.tls Sample.factory shown_hello None None c w)
    shown [Connect Sample.peer; Disconnect Sample.peer "lost"; Reconnect Sample.peer].

Lemma pinned_transport_follows_the_root_witness :
  ∃ new, trust_of shown_run !! Sample.peer = Some new ∧
    transport_fingerprint (TrustedPeer.material new) = Some "new" ∧
    rtc (rotates Some (λ _ _ _, true)) Sample.trusted new.
Proof.
  assert (Hnew : ∃ new, trust_of shown_run !! Sample.peer = Some new ∧
            transport_fingerprint (TrustedPeer.material new) = Some "new")
    by (eexists; split; vm_compute; reflexivity).
  destruct Hnew as (new & Hnew & Hf). exists new. split; [exact Hnew|]. split; [exact Hf|].
  assert (Hold : trust_of shown !! Sample.peer = Some Sample.trusted) by (vm_compute; reflexivity).
  pose proof (pinned_transport_follows_the_root Some (λ _ _ _, true) Sample.time Sample.tls Sample.factory
    shown_hello None None) as H.
  specialize (H ltac:(intros w; reflexivity) ltac:(intros a q f w; unfold Sample.tls; case_bool_decide; reflexivity)).
  specialize (H ltac:(intros a b c d w; reflexivity) ltac:(intros pr w; reflexivity)).
  specialize (H ltac:(discriminate) ltac:(discriminate)
    [Connect Sample.peer; Disconnect Sample.peer "lost"; Reconnect Sample.peer] shown Sample.peer).
  fold shown_run in H. cbv zeta in H. rewrite Hold, Hnew in H. exact (proj1 H).
Defined.
