(* ===== verification/Runtime.v ===== *)
(** * The runtime: shared state and its persistence ([runtime/core.py])

    [ConnectRuntime] owns the trust, cluster and connection objects and the service; its
    methods change them and save what must survive.  A runtime is the [outside] of a
    [World] whose service it feeds; the two files it writes are part of it.  The writes are
    numbered like the readings of the clock: [write_fails n] is the error of the [n]th, and
    a write that fails leaves the file as it was (the documented effect of [os.replace]). *)

From S2P Require Import Prelude PyFloat Identity ClusterModels Roles Operations Sharing ConnectionState NodeRegistry PyJson StateCodec Wire Pairing Surfaces Candidates Connections Service Documents TrustCodec.
Abbreviation dict := (list (string * json)) (only parsing).

(** ** The state *)

Module Runtime.
Record t {Hc Hs Pr : Type} := mk {
  (** the node id of [_identity] *)
  _identity : option NodeId;
  (** [_pairing] and [_registry] exist: they are made together when the stored state is loaded.
      The network also holds the table [_peers] and the state of the connection manager. *)
  _loaded : bool;
  network : Network.t Pr;
  (** [_connection_manager is not None] *)
  _connection_manager : bool;
  _pending_permissions : gmap string (gset string);
  _cluster : option Cluster.t;
  _cluster_capability_grants : list CapabilityGrant.t;
  (** [_cluster_store is not None] *)
  _cluster_store : bool;
  (** the published state of [_failover_coordinator] *)
  _failover_coordinator : option RoleState.t;
  _sharing : CapabilityShare.t Hc;
  _surface_registry : SurfaceRegistry.t Hs;
  (** [_service is not None] *)
  _service : bool;
  _persistence_ready : bool;
  _generation : Z;
  started : bool;
  (** the contents of [trust.yaml] and [cluster.yaml] *)
  trust_file : option (list (string * json));
  cluster_file : option json }.
Arguments t : clear implicits.

Section setters.
Context {Hc Hs Pr : Type}.
Implicit Types r : t Hc Hs Pr.

Definition set_network r (n : Network.t Pr) : t Hc Hs Pr :=
  mk _ _ _ (_identity r) (_loaded r) n (_connection_manager r) (_pending_permissions r) (_cluster r) (_cluster_capability_grants r)
    (_cluster_store r) (_failover_coordinator r) (_sharing r) (_surface_registry r) (_service r)
    (_persistence_ready r) (_generation r) (started r) (trust_file r) (cluster_file r).
Definition set_pending r (p : gmap string (gset string)) : t Hc Hs Pr :=
  mk _ _ _ (_identity r) (_loaded r) (network r) (_connection_manager r) p (_cluster r) (_cluster_capability_grants r)
    (_cluster_store r) (_failover_coordinator r) (_sharing r) (_surface_registry r) (_service r)
    (_persistence_ready r) (_generation r) (started r) (trust_file r) (cluster_file r).
(** The cluster with the runtime's own copy of its grants. *)
Definition set_cluster r (c : Cluster.t) (grants : list CapabilityGrant.t) : t Hc Hs Pr :=
  mk _ _ _ (_identity r) (_loaded r) (network r) (_connection_manager r) (_pending_permissions r) (Some c) grants
    (_cluster_store r) (_failover_coordinator r) (_sharing r) (_surface_registry r) (_service r)
    (_persistence_ready r) (_generation r) (started r) (trust_file r) (cluster_file r).
Definition set_failover r (s : RoleState.t) : t Hc Hs Pr :=
  mk _ _ _ (_identity r) (_loaded r) (network r) (_connection_manager r) (_pending_permissions r) (_cluster r)
    (_cluster_capability_grants r) (_cluster_store r) (Some s) (_sharing r) (_surface_registry r) (_service r)
    (_persistence_ready r) (_generation r) (started r) (trust_file r) (cluster_file r).
Definition set_shares r (s : CapabilityShare.t Hc) (reg : SurfaceRegistry.t Hs) : t Hc Hs Pr :=
  mk _ _ _ (_identity r) (_loaded r) (network r) (_connection_manager r) (_pending_permissions r) (_cluster r)
    (_cluster_capability_grants r) (_cluster_store r) (_failover_coordinator r) s reg (_service r)
    (_persistence_ready r) (_generation r) (started r) (trust_file r) (cluster_file r).
Definition set_files r (trust : option (list (string * json))) (cluster : option json) : t Hc Hs Pr :=
  mk _ _ _ (_identity r) (_loaded r) (network r) (_connection_manager r) (_pending_permissions r) (_cluster r)
    (_cluster_capability_grants r) (_cluster_store r) (_failover_coordinator r) (_sharing r)
    (_surface_registry r) (_service r) (_persistence_ready r) (_generation r) (started r) trust cluster.

Definition pairing r : PairingManager.t := Network.pairing (network r).
Definition set_pairing r (m : PairingManager.t) : t Hc Hs Pr := set_network r (Network.set_pairing (network r) m).
End setters.
End Runtime.
Import Runtime(_identity, _loaded, network, _connection_manager, _pending_permissions, _cluster, _cluster_capability_grants,
  _cluster_store, _failover_coordinator, _sharing, _surface_registry, _service, _persistence_ready,
  _generation, started, trust_file, cluster_file).

(** ** The world of a runtime *)

Section runtime.
Context {Hc Hs Pr : Type}.
Notation R := (Runtime.t Hc Hs Pr).
Notation W := (World R).

#[global] Instance runtime_network : HasNetwork W Pr.
Proof.
  refine {| net w := network (outside w);
            with_net n w := mkWorld (svc w) (ticks w) (Runtime.set_network (outside w) n) |}.
  - done.
  - by intros [? ? []].
  - done.
Defined.

Context (clock : nat → float) (write_fails : nat → option exn).

Definition runtime : M W R := λ w, (w, Ok (outside w)).
Definition update (f : R → R) : M W () := λ w, (mkWorld (svc w) (ticks w) (f (outside w)), Ok ()).

(** A file is replaced, or its write fails. *)
Definition write (save : R → R) : M W () := λ w,
  match write_fails (ticks w) with
  | Some e => (mkWorld (svc w) (S (ticks w)) (outside w), Err e)
  | None => (mkWorld (svc w) (S (ticks w)) (save (outside w)), Ok ())
  end.

(** [try: m except (OSError, TypeError, ValueError): saved = False] *)
Definition saved (m : M W ()) : M W bool :=
  attempt (m;; mret true)
    (λ e, if exn_isa e OSError || exn_isa e TypeError || exn_isa e ValueError then mret false
          else lift (Err e)).

(** ** [_save_persisted_state] *)

Definition save_trust (r : R) : M W () :=
  d ← lift (migrate_state "trust" (trust_document (Runtime.pairing r) (_pending_permissions r)));
  write (λ r, Runtime.set_files r (Some d) (cluster_file r)).

(** The cluster as it is saved: with the grants the runtime keeps. *)
Definition cluster_state (r : R) (c : Cluster.t) : ClusterState.t :=
  let s := Cluster.to_state c in
  ClusterState.mk (ClusterState.local_node_id s) (ClusterState.cluster_id s)
    (ClusterState.role_assignments s) (ClusterState.coordinator_epoch s) (ClusterState.active_invites s)
    (ClusterState.join_admissions s) (ClusterState.used_invites s) (ClusterState.promotion_epochs s)
    (_cluster_capability_grants r).

Definition save_cluster (r : R) (c : Cluster.t) : M W () :=
  d ← lift (to_dict (cluster_state r c));
  write (λ r, Runtime.set_files r (trust_file r) (Some d)).

Definition _save_persisted_state : M W bool :=
  r ← runtime;
  if negb (_loaded r) || negb (_persistence_ready r) then mret false
  else trust_saved ← saved (save_trust r);
       match _cluster r with
       | None => mret trust_saved
       | Some c => cluster_saved ← saved (save_cluster r c); mret (trust_saved && cluster_saved)
       end.

(** ** The service is told *)

Definition wire_grant (g : PeerGrant.t) : result Wire.PeerGrant.t :=
  permissions ← mapM (λ p, NodePermission.of_value (Permission.value p)) (elements (PeerGrant.permissions g));
  Ok (Wire.PeerGrant.mk (PeerGrant.caller_id g) (PeerGrant.secret g) (list_to_set permissions) None).

Definition _wire_grants (r : R) : result (gmap NodeId Wire.PeerGrant.t) :=
  if negb (_loaded r) then Ok ∅
  else l ← mapM (λ kg, g ← wire_grant kg.2; Ok (kg.1, g)) (map_to_list (PairingManager.grants (Runtime.pairing r)));
       Ok (list_to_map l).

Definition _refresh_live_grants : M W () :=
  r ← runtime;
  if negb (_service r) then mret ()
  else grants ← lift (_wire_grants r);
       on_service (RemoteService.update_grants grants);;
       on_service (RemoteService.update_cluster_capability_grants (_cluster_capability_grants r)).

(** ** The registry is told *)

Definition on_registry {A} (m : M NodeRegistry.t A) : M W A := on_net (Network.on_registry m).

(** The role the registry shows. *)
Definition registry_role (a : RoleAssignment) : ClusterRole :=
  if RoleAssignment.has COORDINATOR a then COORDINATOR
  else if RoleAssignment.has SUBCOORDINATOR a then SUBCOORDINATOR else WORKER.

Definition hydrate_member (c : Cluster.t) (node_id : NodeId) (a : RoleAssignment) : M W () :=
  r ← runtime;
  match NodeRegistry.record (Network.registry (network r)) node_id with
  | Some _ => mret ()
  | None => on_registry (NodeRegistry.observe node_id ∅);; mret ()
  end;;
  (if PairingManager.can_join_cluster (Runtime.pairing r) node_id
   then r ← runtime;
        match NodeRegistry.record (Network.registry (network r)) node_id with
        | Some record =>
            if bool_decide (NodeRecord.trust record = TrustState.AUTHORIZED) then mret ()
            else on_registry (NodeRegistry.promote node_id ∅);; mret ()
        | None => mret ()
        end
   else mret ());;
  on_registry (NodeRegistry.hydrate_membership node_id (registry_role a) (Cluster.coordinator_id c));;
  mret ().

Fixpoint hydrate_members (c : Cluster.t) (members : list (NodeId * RoleAssignment)) : M W () :=
  match members with
  | [] => mret ()
  | (node_id, a) :: members => hydrate_member c node_id a;; hydrate_members c members
  end.

Definition _hydrate_registry_membership : M W () :=
  r ← runtime;
  match _cluster r with
  | Some c => if negb (_loaded r) then mret () else hydrate_members c (Cluster.assignments c)
  | None => mret ()
  end.

(** A stale revocation is cleared when trust is restored. *)
Definition _project_registry_trust (peer_id : NodeId) : M W () :=
  r ← runtime;
  if negb (_loaded r) then mret ()
  else match NodeRegistry.record (Network.registry (network r)) peer_id with
       | None => mret ()
       | Some _ => on_registry (NodeRegistry.hydrate_trust peer_id);; mret ()
       end.

(** ** Trust *)

Definition _require_pairing : M W PairingManager.t :=
  r ← runtime;
  throw_if (negb (_loaded r)) RuntimeError "runtime has not started";;
  mret (Runtime.pairing r).

Definition on_pairing {A} (m : M PairingManager.t A) : M W A := λ w,
  let '(p, res) := m (Runtime.pairing (outside w)) in
  (mkWorld (svc w) (ticks w) (Runtime.set_pairing (outside w) p), res).

(** [pairing.restore_snapshot(snap)] *)
Definition restore (snap : PairingManager.t) : M W () :=
  update (λ r, Runtime.set_pairing r
                 (PairingManager.restore_snapshot (PairingManager.snapshot snap) (Runtime.pairing r))).

Definition approve_pairing (transaction_id : string) (permissions : gset Permission.t) : M W PeerGrant.t :=
  throw_if (negb (bool_decide (∀ p, p ∈ Permission.values permissions → p ∈ NodePermission.value <$> elements READ_PERMISSIONS)))
    ValueError "pairing approval permissions must be read-only";;
  snap ← _require_pairing;
  current ← now clock;
  grant ← on_pairing (PairingManager.approve transaction_id permissions current);
  persisted ← _save_persisted_state;
  if negb persisted
  then restore snap;; throw PersistenceError "pairing approval was not durably persisted"
  else _project_registry_trust (PeerGrant.caller_id grant);;
       _refresh_live_grants;;
       mret grant.

Definition disconnect (peer_id : NodeId) (reason : string) : M W () :=
  Connections.disconnect (now clock) peer_id reason.

(** [refresh] is the argument [_refresh]. *)
Definition revoke_peer (peer_id : NodeId) (refresh : bool) : M W () :=
  snap ← _require_pairing;
  update (λ r, Runtime.set_pairing r (PairingManager.revoke peer_id (Runtime.pairing r)));;
  update (λ r, Runtime.set_shares r (CapabilityShare.revoke_peer peer_id (_sharing r)).1
                 (SurfaceRegistry.revoke_source (Node peer_id) (_surface_registry r)).1);;
  persisted ← _save_persisted_state;
  if negb persisted
  then restore snap;; throw PersistenceError "peer revocation was not durably persisted"
  else r ← runtime;
       match NodeRegistry.record (Network.registry (network r)) peer_id with
       | None => mret ()
       | Some _ => on_registry (NodeRegistry.revoke peer_id);; mret ()
       end;;
       update (λ r, Runtime.set_network r (Network.set_candidates (network r)
                      (od_pop (value peer_id) (Network.candidates (network r)))));;
       (if _connection_manager r then disconnect peer_id "revoked" else mret ());;
       if refresh then _refresh_live_grants else mret ().

Definition _revoke_self (peer_id : NodeId) : M W dict :=
  revoke_peer peer_id false;;
  mret [("revoked", JBool true); ("node_id", JStr (value peer_id))].
End runtime.
