(* ===== verification/RuntimeDiscovery.v ===== *)
(** * The runtime hears of peers ([runtime/core.py])

    Discovery delivers its events to [_on_discovery] after it has released its lock: a
    candidate is taken into the table of peers only when it agrees with the trust there is, a
    lost peer is dropped and disconnected, and the application is told. *)

From S2P Require Import Prelude PyFloat Identity PyJson Sharing Session Surfaces Service ClusterModels Roles Operations Failover ConnectionState NodeRegistry Pairing Candidates Connections Discovery Runtime.
Import Runtime(_identity, _loaded, network, _connection_manager, _generation, started).
Import Material(transport_fingerprint, root_public_key, transport_generation, transport_proof).

Section runtime_discovery.
Context {Hc Hs Pr : Type}.
Notation R := (Runtime.t Hc Hs Pr).
Notation W := (World R).
Context (clock : nat → float).
Context (b64decode : string → option string) (ed25519_verify : string → string → string → bool).
(** [config.on_discovery] *)
Context (on_discovery : option (EventKind → M W ())).

Definition on_candidates (f : list (string * DiscoveredNodeCandidate.t) → list (string * DiscoveredNodeCandidate.t)) : M W () :=
  update (λ r, Runtime.set_network r (Network.set_candidates (network r) (f (Network.candidates (network r))))).

(** The trusted peer, else the grant it holds: whose it is, and the material. *)
Definition known_peer (m : PairingManager.t) (peer_id : NodeId) : option (NodeId * Material.t) :=
  match PairingManager.get_trusted m peer_id with
  | Some t => Some (TrustedPeer.peer_id t, TrustedPeer.material t)
  | None => (λ g, (PeerGrant.caller_id g, PeerGrant.material g)) <$> PairingManager.get_grant m peer_id
  end.

Definition _trusted_candidate_is_valid (r : R) (candidate : DiscoveredNodeCandidate.t) : bool :=
  if negb (_loaded r) then false
  else match NodeId.__post_init__ (DiscoveredNodeCandidate.stable_id candidate) with
       | Err _ => false
       | Ok peer_id =>
           match known_peer (Runtime.pairing r) peer_id with
           | None => true
           | Some (owner, peer) =>
               match truthy (Material.identity_fingerprint peer) with
               | Some fp => bool_decide (DiscoveredNodeCandidate.identity_fingerprint candidate = Some fp)
               | None => true
               end
               && (bool_decide (transport_fingerprint peer = None)
                   || bool_decide (DiscoveredNodeCandidate.transport_fingerprint candidate = transport_fingerprint peer)
                   || candidate_transport_generation_allowed b64decode ed25519_verify owner peer
                        (DiscoveredNodeCandidate.transport_fingerprint candidate)
                        (DiscoveredNodeCandidate.transport_generation candidate)
                        (DiscoveredNodeCandidate.transport_proof candidate))
           end
       end.

Definition tell (e : EventKind) : M W () :=
  match on_discovery with None => mret () | Some callback => callback e end.

(** A lost peer: [NodeId] and the disconnection may raise [ValueError], which is ignored. *)
Definition lose (node_id : string) : M W () :=
  on_candidates (od_pop node_id);;
  r ← runtime;
  if negb (_loaded r) then mret ()
  else attempt (peer_id ← lift (NodeId.__post_init__ node_id);
                r ← runtime;
                if _connection_manager r then disconnect clock peer_id "peer disappeared" else mret ())
         (λ e, if exn_isa e ValueError then mret () else lift (Err e)).

Definition _on_discovery (generation : Z) (e : EventKind) : M W () :=
  r ← runtime;
  if negb (bool_decide (generation = _generation r)) || negb (started r) then mret ()
  else match e with
       | EVENT_CANDIDATE candidate =>
           if negb (_trusted_candidate_is_valid r candidate) then mret ()
           else on_candidates (od_set (DiscoveredNodeCandidate.stable_id candidate) candidate);;
                (if _loaded r
                 then peer_id ← lift (NodeId.__post_init__ (DiscoveredNodeCandidate.stable_id candidate));
                      on_registry (NodeRegistry.observe peer_id ∅);; mret ()
                 else mret ());;
                tell e
       | EVENT_LOST node_id => lose node_id;; tell e
       end.

(** [_emit]: an error of the callback is logged and dropped. *)
Fixpoint _emit_events (generation : Z) (events : list EventKind) : M W () :=
  match events with
  | [] => mret ()
  | e :: events => attempt (_on_discovery generation e) (λ _, mret ());; _emit_events generation events
  end.

(** [_handle_transport_event] and [expire_stale]: the events are delivered once the lock of the
    component, here its own state, is released. *)
Definition deliver (generation : Z) (locked : M NetworkDiscovery.t (list EventKind)) : M (NetworkDiscovery.t * W) () := λ dw,
  match locked dw.1 with
  | (d, Err e) => ((d, dw.2), Err e)
  | (d, Ok events) => let '(w, r) := _emit_events generation events dw.2 in ((d, w), r)
  end.
End runtime_discovery.
