(* ===== verification/RuntimePairing.v ===== *)
(** * Inbound pairing and elevation ([pairing/target.py], [runtime/core.py])

    The handlers of the pairing listener: a request becomes a pending transaction when the
    application approves it, a control message completes or cancels one, and an elevation
    replaces the permissions of a grant.  The lock of [handle_pairing_request] is not waited
    for: [busy] says that another thread holds it.  A transaction draws its id, and a secret if
    none is proposed: [fresh_id] and [fresh_secret]. *)

From S2P Require Import Prelude PyFloat Identity ClusterModels Sharing PyJson StateCodec Wire Envelope Pairing Surfaces Connections RemoteModels Service TrustCodec Runtime Listener.
Import Runtime(_identity, _loaded, network, _pending_permissions, _service).
Abbreviation dict := (list (string * json)) (only parsing).

Definition refusal (outcome : string) : dict := [("approved", JBool false); ("outcome", JStr outcome)].

(** [frozenset(permission.value for permission in permissions)] *)
Definition permission_values (l : gset NodePermission) : gset string :=
  list_to_set (NodePermission.value <$> elements l).

Section handlers.
Context (b64decode : string → option string) (ed25519_verify : string → string → string → bool).
Context {Hc Hs Pr : Type}.
Notation R := (Runtime.t Hc Hs Pr).
Notation W := (World R).
Context (clock : nat → float) (write_fails : nat → option exn).
Notation now := (now clock).
Notation _save_persisted_state := (_save_persisted_state write_fails).

(** [runtime._pending_permissions[id] = permissions] and [.pop(id, None)] *)
Definition remember (id : string) (permissions : gset string) : M W () :=
  update (λ r, Runtime.set_pending r (<[id := permissions]> (_pending_permissions r))).
Definition forget (id : string) : M W () :=
  update (λ r, Runtime.set_pending r (delete id (_pending_permissions r))).

Definition abort_pairing (id : string) : M W () :=
  update (λ r, Runtime.set_pairing r (PairingManager.abort id (Runtime.pairing r))).

Definition pairing_response (pending : PendingPairing.t) : M W dict :=
  r ← runtime;
  permissions ← lift (of_option (_pending_permissions r !! PendingPairing.transaction_id pending) KeyError
                        (PendingPairing.transaction_id pending));
  let m := PendingPairing.material pending in
  mret [("approved", JBool true); ("transaction_id", JStr (PendingPairing.transaction_id pending));
        ("caller_node_id", JStr (value (PendingPairing.peer_id pending)));
        ("identity_fingerprint", opt_json JStr (Material.identity_fingerprint m));
        ("transport_fingerprint", opt_json JStr (Material.transport_fingerprint m));
        ("root_public_key", opt_json JStr (Material.root_public_key m));
        ("transport_generation", opt_json JInt (Material.transport_generation m));
        ("transport_proof", opt_json JStr (Material.transport_proof m));
        ("intent", JStr (PendingPairing.intent pending)); ("secret", JStr (PendingPairing.secret pending));
        ("permissions", JList (JStr <$> sorted str_leb (elements permissions)));
        ("expires_at", JFloat (PendingPairing.expires_at pending))].

(** ** [handle_pairing_request] *)

(** The material a request presents. *)
Definition presented (request : PairingRequest.t) : Material.t :=
  Material.mk (Some (PairingRequest.identity_fingerprint request))
    (Some (PairingRequest.transport_fingerprint request)) (PairingRequest.root_public_key request)
    (PairingRequest.transport_generation request) (PairingRequest.transport_proof request).

(** [on_pairing_request]: its verdict, an error counts as a refusal. *)
Context (on_pairing_request : option (PairingRequest.t → M W bool)).

Definition ask (request : PairingRequest.t) : M W bool :=
  match on_pairing_request with
  | None => mret false
  | Some callback => attempt (callback request) (λ _, mret false)
  end.

(** The transaction of an approved request is published and saved, or withdrawn. *)
Definition publish_transaction (request : PairingRequest.t) (fresh_id fresh_secret : string) : M W dict :=
  now1 ← now; now2 ← now; now3 ← now;
  outcome ← outcome (on_pairing (PairingManager.begin_ (PairingRequest.caller_node_id request)
              (Some (PairingRequest.proposed_secret request)) (presented request) "inbound"
              (PairingRequest.intent request) now1 now2 now3 fresh_id fresh_secret));
  match outcome with
  | Err e => if exn_isa e PairingBusy then mret (refusal "already_pending") else lift (Err e)
  | Ok pending =>
      let id := PendingPairing.transaction_id pending in
      remember id (permission_values (PairingRequest.permissions request));;
      persisted ← _save_persisted_state;
      if negb persisted
      then abort_pairing id;; forget id;; mret (refusal "persistence_failed")
      else pairing_response pending
  end.

Definition _handle_pairing_request_locked (request : PairingRequest.t) (fresh_id fresh_secret : string)
    : M W dict :=
  pairing ← _require_pairing;
  r ← runtime;
  local ← lift (of_option (_identity r) AttributeError "no identity");
  let caller := PairingRequest.caller_node_id request in
  if bool_decide (caller = local) then mret (refusal "denied")
  else
    let granted := PairingManager.get_grant pairing caller in
    if match granted with
       | Some grant => negb (grant_root_continuous b64decode ed25519_verify grant
                               (PairingRequest.root_public_key request)
                               (PairingRequest.transport_generation request)
                               (PairingRequest.transport_fingerprint request)
                               (PairingRequest.transport_proof request))
       | None => false
       end
    then mret (refusal "identity_conflict")
    else if bool_decide (is_Some granted) && negb (bool_decide (PairingRequest.intent request = "repair"))
    then mret (refusal "already_paired")
    else
      current ← now;
      match PairingManager.find_pending_for pairing caller (Some "inbound") current with
      | Some duplicate =>
          if bool_decide (PendingPairing.secret duplicate = PairingRequest.proposed_secret request)
          then pairing_response duplicate
          else mret (refusal "already_pending")
      | None =>
          approved ← ask request;
          if negb approved then mret (refusal "denied")
          else publish_transaction request fresh_id fresh_secret
      end.

Definition handle_pairing_request (busy : bool) (request : PairingRequest.t) (fresh_id fresh_secret : string)
    : M W dict :=
  if busy then mret (refusal "already_pending")
  else _handle_pairing_request_locked request fresh_id fresh_secret.

(** ** [_handle_pairing_control] *)

(** The message repeats the transaction exactly. *)
Definition bound (pending : PendingPairing.t) (request : PairingControlRequest.t) : bool :=
  bool_decide (PendingPairing.peer_id pending = PairingControlRequest.caller_node_id request)
  && bool_decide (Material.identity_fingerprint (PendingPairing.material pending)
                  = Some (PairingControlRequest.identity_fingerprint request))
  && bool_decide (Material.transport_fingerprint (PendingPairing.material pending)
                  = Some (PairingControlRequest.transport_fingerprint request))
  && bool_decide (PendingPairing.secret pending = PairingControlRequest.secret request)
  && feqb (PendingPairing.expires_at pending) (PairingControlRequest.expires_at request).

(** The approval is saved twice: with the grant, then without the transaction. *)
Definition confirm_pairing (id : string) (expected : gset string) : M W bool :=
  snap ← _require_pairing;
  approved ← outcome (approve_pairing clock write_fails id (Permission.texts expected));
  match approved with
  | Err e => if exn_isa e PersistenceError || exn_isa e ValueError then mret false else lift (Err e)
  | Ok _ =>
      abort_pairing id;;
      forget id;;
      persisted ← _save_persisted_state;
      if (persisted : bool) then mret true
      else restore snap;; remember id expected;; _save_persisted_state;; mret false
  end.

Definition _handle_pairing_control_locked (request : PairingControlRequest.t) : M W bool :=
  pairing ← _require_pairing;
  r ← runtime;
  let id := PairingControlRequest.transaction_id request in
  match od_get id (PairingManager.pending pairing), _pending_permissions r !! id with
  | Some pending, Some expected =>
      if negb (bool_decide (expected = permission_values (PairingControlRequest.permissions request)))
         || negb (bound pending request)
      then mret false
      else if bool_decide (PairingControlRequest.operation request = "pair_abort")
      then abort_pairing id;; forget id;; _save_persisted_state
      else if bool_decide (PairingControlRequest.operation request = "pair_confirm")
      then confirm_pairing id expected
      else mret false
  | _, _ => mret false
  end.

(** ** [_handle_elevation_request] *)

(** [on_elevation_request]; an error it raises is not caught. *)
Context (on_elevation_request : option (CapabilityElevationRequest.t → M W bool)).

Definition install_grant (peer_id : NodeId) (grant : PeerGrant.t) : M W () :=
  update (λ r, Runtime.set_pairing r (PairingManager.set_grants (Runtime.pairing r)
                 (<[peer_id := grant]> (PairingManager.grants (Runtime.pairing r))))).

(** The replacement keeps the secret and the two fingerprints only. *)
Definition elevated (grant : PeerGrant.t) (permissions : gset NodePermission) : PeerGrant.t :=
  PeerGrant.mk (PeerGrant.caller_id grant) (PeerGrant.secret grant) (Permission.texts (permission_values permissions))
    (Material.mk (Material.identity_fingerprint (PeerGrant.material grant))
       (Material.transport_fingerprint (PeerGrant.material grant)) None None None).

Definition _handle_elevation_request (request : CapabilityElevationRequest.t) : M W bool :=
  pairing ← _require_pairing;
  let caller := CapabilityElevationRequest.caller_node_id request in
  match on_elevation_request, PairingManager.get_grant pairing caller with
  | Some callback, Some grant =>
      same ← lift (compare_digest (PeerGrant.secret grant) (CapabilityElevationRequest.current_secret request));
      if negb same
         || negb (bool_decide (Material.identity_fingerprint (PeerGrant.material grant)
                               = Some (CapabilityElevationRequest.identity_fingerprint request)))
         || negb (bool_decide (Material.transport_fingerprint (PeerGrant.material grant)
                               = Some (CapabilityElevationRequest.transport_fingerprint request)))
      then mret false
      else
        approved ← callback request;
        if negb approved then mret false
        else
          install_grant caller (elevated grant (CapabilityElevationRequest.permissions request));;
          persisted ← _save_persisted_state;
          if negb persisted then install_grant caller grant;; mret false
          else r ← runtime;
               (if _service r
                then grants ← lift (_wire_grants r); on_service (RemoteService.update_grants grants)
                else mret ());;
               mret true
  | _, _ => mret false
  end.

(** ** The pairing listener of the runtime

    A transaction id and a secret are drawn by [token]; [busy] looks at the lock.  A request
    whose fingerprints are not text is not modelled any further: [unreadable] and
    [unreadable_elevation] stand for whatever becomes of it. *)

Context (token : M W string) (busy : M W bool).
Context (unreadable : dict → M W json) (unreadable_elevation : dict → M W bool).

Definition _handle_pairing_request (asked : Asked PairingRequest.t) : M W json :=
  match asked with
  | Typed request =>
      held ← busy; id ← token; secret ← token;
      answer ← handle_pairing_request held request id secret;
      mret (JObj answer)
  | Untyped raw => unreadable raw
  end.

Definition elevation_handler (asked : Asked CapabilityElevationRequest.t) : M W bool :=
  match asked with
  | Typed request => _handle_elevation_request request
  | Untyped raw => unreadable_elevation raw
  end.

Definition pairing_listener : RemoteSocketListener.t W :=
  pairing_server (Some _handle_pairing_request) (Some _handle_pairing_control_locked)
    (Some _handle_pairing_control_locked) (Some elevation_handler).
End handlers.
