(* ===== verification/RuntimeLifecycle.v ===== *)
(** * Starting and stopping a runtime ([runtime/core.py], [identity/profile_state.py])

    [ConnectRuntime.start], [shutdown] and [rotate_transport] as far as the profile lock, the
    listeners, the discovery and the reaper thread are concerned.  What these methods do to
    the rest of the runtime (loading, saving, revoking live grants) and what they ask of the
    libraries (sockets, threads, key material) are steps of an environment that may change
    anything of its own and may fail: the class [Steps] names them.  Every exception of the
    model is an [Exception]; an interrupt of the interpreter is not one. *)

From S2P Require Import Prelude.

Inductive RuntimeState := STOPPED | STARTING | STARTED | PERSISTENCE_FAILED | LISTENER_UNAVAILABLE.
#[export] Instance runtime_state_eq_dec : EqDecision RuntimeState.
Proof. solve_decision. Defined.

Module RuntimeStatus.
Record t := mk {
  state : RuntimeState;
  listener_started : bool;
  discovery_started : bool;
  discovery_disabled : bool;
  discovery_reason : option string;
  bound_host : option string;
  bound_port : option Z;
  pairing_bound_port : option Z;
  preferred_port_honored : option bool;
  tls_fingerprint : option string;
  reason : option string }.

(** [RuntimeStatus(state, reason=reason)] *)
Definition of_state (s : RuntimeState) (reason : option string) : t :=
  mk s false false false None None None None None None reason.
End RuntimeStatus.

(** A component that was made: which one it is, and the generation its callbacks carry. *)
Record component := Component { number : nat; callback_generation : Z }.
#[export] Instance component_eq_dec : EqDecision component.
Proof. solve_decision. Defined.

(** The fields of [ConnectRuntime] the lifecycle sets.  [_profile_lock] is the descriptor of the
    lock object, [_expiry] the reaper thread with its stop event. *)
Module ConnectRuntime.
Record t := mk {
  _status : RuntimeStatus.t;
  _generation : Z;
  _profile_lock : option nat;
  _server : option nat;
  _pairing_server : option nat;
  _discovery : option component;
  _expiry : option component;
  _service : bool;
  _connection_manager : bool;
  _network_pairing : bool }.

Definition __init__ : t :=
  mk (RuntimeStatus.of_state STOPPED None) 0 None None None None None false false false.

Implicit Types r : t.
Definition set_status r s : t := mk s (_generation r) (_profile_lock r) (_server r) (_pairing_server r) (_discovery r)
  (_expiry r) (_service r) (_connection_manager r) (_network_pairing r).
Definition next_generation r : t := mk (_status r) (_generation r + 1) (_profile_lock r) (_server r) (_pairing_server r)
  (_discovery r) (_expiry r) (_service r) (_connection_manager r) (_network_pairing r).
Definition set_lock r l : t := mk (_status r) (_generation r) l (_server r) (_pairing_server r) (_discovery r)
  (_expiry r) (_service r) (_connection_manager r) (_network_pairing r).
Definition set_manager r : t := mk (_status r) (_generation r) (_profile_lock r) (_server r) (_pairing_server r)
  (_discovery r) (_expiry r) (_service r) true (_network_pairing r).
Definition set_listeners r server pairing_server : t := mk (_status r) (_generation r) (_profile_lock r) (Some server)
  (Some pairing_server) (_discovery r) (_expiry r) true (_connection_manager r) true.
Definition set_discovery r d : t := mk (_status r) (_generation r) (_profile_lock r) (_server r) (_pairing_server r) d
  (_expiry r) (_service r) (_connection_manager r) (_network_pairing r).
Definition set_expiry r e : t := mk (_status r) (_generation r) (_profile_lock r) (_server r) (_pairing_server r)
  (_discovery r) e (_service r) (_connection_manager r) (_network_pairing r).
(** The components forgotten by [_shutdown_locked] and [_clear_components] *)
Definition forget r : t := mk (_status r) (_generation r) (_profile_lock r) None None None (_expiry r) false false false.
End ConnectRuntime.
Import ConnectRuntime(_status, _generation, _profile_lock, _server, _pairing_server, _discovery, _expiry, _service,
  _connection_manager, _network_pairing).

Definition started (r : ConnectRuntime.t) : bool := bool_decide (RuntimeStatus.state (_status r) = STARTED).

(** [try: m finally: f] *)
Definition finally {S A} (m : M S A) (f : M S ()) : M S A := r ← outcome m; f;; lift r.

(** ** The world *)

(** Who holds the lock file: a descriptor of this process, or another one. *)
Inductive holder := Ours (descriptor : nat) | Another.

Module World.
Record t {E : Type} := mk {
  self : ConnectRuntime.t;
  profile : option holder;
  (** the listeners, discoveries and threads that run *)
  running : gset nat;
  (** the numbers given out so far *)
  given : nat;
  env : E }.
Arguments t : clear implicits.
End World.
Import World(self, profile, running, given, env).

(** What the lifecycle asks of the rest. *)
Class Steps (E : Type) := {
  (** [mkdir] and [os.open] of the lock file; giving the lock back *)
  open_lock_file : M E ();
  unlock : M E ();
  load_identity : M E ();
  load_persisted_state : M E ();
  (** [_save_persisted_state()], [clear_grants()], [disconnect_all()] *)
  save_persisted_state : M E bool;
  clear_grants : M E ();
  disconnect_all : M E ();
  (** the stored transport generation, if there is one, and the checked material of a generation *)
  current_generation : M E (option Z);
  tls_material : option Z → M E string;
  make_service : M E ();
  (** binding and serving: the port, and whether it is the preferred one *)
  start_listener : M E (Z * option bool);
  stop_listener : M E ();
  make_advertisement : M E ();
  make_discovery : M E ();
  (** [discovery.start()] with [unavailable_reason] *)
  start_discovery : M E (bool * option string);
  start_thread : M E ();
  (** the first half of a rotation, and its undoing *)
  prepare_rotation : M E ();
  rollback_active : M E () }.

Section lifecycle.
Context {E : Type} `{Steps E}.
Notation W := (World.t E).

(** ** Steps *)

Definition in_env {A} (m : M E A) : M W A := λ w,
  let '(e, r) := m (env w) in (World.mk _ (self w) (profile w) (running w) (given w) e, r).
Definition runtime : M W ConnectRuntime.t := λ w, (w, Ok (self w)).
Definition update (f : ConnectRuntime.t → ConnectRuntime.t) : M W () := λ w,
  (World.mk _ (f (self w)) (profile w) (running w) (given w) (env w), Ok ()).
Definition fresh : M W nat := λ w, (World.mk _ (self w) (profile w) (running w) (S (given w)) (env w), Ok (given w)).
Definition runs (n : nat) : M W () := λ w,
  (World.mk _ (self w) (profile w) ({[n]} ∪ running w) (given w) (env w), Ok ()).
Definition halts (n : nat) : M W () := λ w,
  (World.mk _ (self w) (profile w) (running w ∖ {[n]}) (given w) (env w), Ok ()).

(** *** [ProfileLock] *)

(** A new lock object is acquired: the descriptor. *)
Definition flock (descriptor : nat) : M W nat := λ w,
  match profile w with
  | None => (World.mk _ (self w) (Some (Ours descriptor)) (running w) (given w) (env w), Ok descriptor)
  | Some _ => (w, raise ProfileInUseError "profile is already owned by another runtime")
  end.
Definition acquire : M W nat := in_env open_lock_file;; descriptor ← fresh; flock descriptor.

(** Closing the descriptor gives the lock back even if unlocking fails. *)
Definition release (descriptor : nat) : M W () := λ w,
  let freed := match profile w with
               | Some (Ours d) => if bool_decide (d = descriptor) then None else profile w
               | p => p
               end in
  in_env unlock (World.mk _ (self w) freed (running w) (given w) (env w)).

Definition _release_profile_lock : M W () :=
  r ← runtime;
  update (λ r, ConnectRuntime.set_lock r None);;
  match _profile_lock r with Some descriptor => release descriptor | None => mret () end.

(** *** Stopping *)

(** [stop()] of a listener or of the discovery: it no longer runs, whether or not closing fails. *)
Definition stop (n : nat) : M W () := halts n;; in_env stop_listener.
Definition _stop_component (component : option nat) : M W () :=
  match component with None => mret () | Some n => attempt (stop n) (λ _, mret ()) end.

(** The event is set and the thread joined, which a thread that never ran refuses. *)
Definition join (n : nat) : M W () := λ w,
  if bool_decide (n ∈ running w) then halts n w
  else (w, raise RuntimeError "cannot join thread before it is started").
Definition _stop_expiry_worker : M W () :=
  r ← runtime;
  update (λ r, ConnectRuntime.set_expiry r None);;
  match _expiry r with Some thread => join (number thread) | None => mret () end.

(** The references are dropped first, then each component is stopped. *)
Definition forget_and_stop : M W () :=
  r ← runtime;
  update ConnectRuntime.forget;;
  _stop_component (number <$> _discovery r);;
  _stop_component (_pairing_server r);;
  _stop_component (_server r).

Definition _clear_components : M W () :=
  _stop_expiry_worker;;
  in_env clear_grants;;
  r ← runtime;
  (if _connection_manager r then in_env disconnect_all else mret ());;
  forget_and_stop.

(** ** [start] *)

Context (discovery_enabled : bool) (bind_host : string).

Definition set_status (s : RuntimeStatus.t) : M W RuntimeStatus.t :=
  update (λ r, ConnectRuntime.set_status r s);; mret s.

Definition _start_expiry_worker (generation : Z) : M W () :=
  n ← fresh;
  update (λ r, ConnectRuntime.set_expiry r (Some (Component n generation)));;
  in_env start_thread;;
  runs n.

(** One listener is started: its port. *)
Definition start_server (n : nat) : M W (Z * option bool) := bound ← in_env start_listener; runs n;; mret bound.

(** Both listeners, or neither: [None] with the error of the system that prevented it. *)
Definition start_listeners (server pairing_server : nat) : M W ((Z * option bool) * Z + exn) :=
  started ← outcome (service_port ← start_server server; pairing ← start_server pairing_server;
                     mret (service_port, pairing.1));
  match started with
  | Ok ports => mret (inl ports)
  | Err error =>
      stopped ← outcome (stop pairing_server);
      stop server;;
      lift stopped;;
      _clear_components;;
      if exn_isa error OSError then mret (inr error) else lift (Err error)
  end.

Definition started_status (ports : (Z * option bool) * Z) (fingerprint : string)
    (discovery_started discovery_disabled : bool) (reason : option string) : M W RuntimeStatus.t :=
  set_status (RuntimeStatus.mk STARTED true discovery_started discovery_disabled reason (Some bind_host)
                (Some ports.1.1) (Some ports.2) ports.1.2 (Some fingerprint) None).

(** Discovery is optional: it may be off, fail to be made or fail to start. *)
Definition start_discovery_and_reaper (generation : Z) (ports : (Z * option bool) * Z) (fingerprint : string)
    : M W RuntimeStatus.t :=
  if negb discovery_enabled then started_status ports fingerprint false true None
  else
    made ← outcome (in_env make_discovery);
    match made with
    | Err error => started_status ports fingerprint false false (Some ("Discovery setup failed: " +:+ exn_msg error))
    | Ok _ =>
        n ← fresh;
        answer ← in_env start_discovery;
        let keep := update (λ r, ConnectRuntime.set_discovery r (Some (Component n generation))) in
        if answer.1 : bool
        then runs n;; keep;; _start_expiry_worker generation;; started_status ports fingerprint true false None
        else keep;; started_status ports fingerprint false false answer.2
    end.

(** [generation] is the lifecycle's; a stored transport generation takes its place. *)
Definition _start_components (generation : Z) : M W RuntimeStatus.t :=
  stored ← in_env current_generation;
  fingerprint ← in_env (tls_material stored);
  let generation := default generation stored in
  in_env make_service;;
  server ← fresh;
  pairing_server ← fresh;
  listening ← start_listeners server pairing_server;
  match listening with
  | inr error => set_status (RuntimeStatus.of_state LISTENER_UNAVAILABLE (Some (exn_msg error)))
  | inl ports =>
      update (λ r, ConnectRuntime.set_listeners r server pairing_server);;
      in_env make_advertisement;;
      start_discovery_and_reaper generation ports fingerprint
  end.

(** [except (KeyError, OSError, TypeError, ValueError, StateDataError)] *)
Definition persistence_error (e : exn) : bool :=
  existsb (exn_isa e) [KeyError; OSError; TypeError; ValueError; StateDataError].

Definition start_failed (error : exn) : M W RuntimeStatus.t :=
  if persistence_error error
  then s ← set_status (RuntimeStatus.of_state PERSISTENCE_FAILED (Some (exn_msg error)));
       _clear_components;;
       _release_profile_lock;;
       mret s
  else set_status (RuntimeStatus.of_state STOPPED None);;
       finally _clear_components _release_profile_lock;;
       lift (Err error).

Definition _start_locked : M W RuntimeStatus.t :=
  r ← runtime;
  if started r then mret (_status r)
  else
    update ConnectRuntime.next_generation;;
    r ← runtime;
    set_status (RuntimeStatus.of_state STARTING None);;
    attempt
      (descriptor ← acquire;
       update (λ r, ConnectRuntime.set_lock r (Some descriptor));;
       in_env load_identity;;
       in_env load_persisted_state;;
       update ConnectRuntime.set_manager;;
       _start_components (_generation r))
      start_failed.

(** ** [shutdown] and [rotate_transport] *)

Definition _shutdown_locked : M W () :=
  update ConnectRuntime.next_generation;;
  r ← runtime;
  (if _connection_manager r then in_env disconnect_all else mret ());;
  in_env save_persisted_state;;
  in_env clear_grants;;
  _stop_expiry_worker;;
  forget_and_stop;;
  set_status (RuntimeStatus.of_state STOPPED None);;
  mret ().

Definition shutdown : M W () := finally _shutdown_locked _release_profile_lock.

Definition rotate_transport : M W RuntimeStatus.t :=
  r ← runtime;
  throw_if (negb (started r)) RuntimeError "runtime must be started before transport rotation";;
  in_env prepare_rotation;;
  shutdown;;
  s ← _start_locked;
  if bool_decide (RuntimeStatus.state s = STARTED) then mret s
  else in_env rollback_active;;
       _start_locked;;
       throw TransportStateError "transport rotation could not restart listener".

(** ** What happens to a profile *)

(** A method is called, with whatever outcome, or another process takes or gives back the lock. *)
Inductive step : W → W → Prop :=
  | starts w w' r : _start_locked w = (w', r) → step w w'
  | shuts w w' r : shutdown w = (w', r) → step w w'
  | rotates w w' r : rotate_transport w = (w', r) → step w w'
  | another_takes w : profile w = None →
      step w (World.mk _ (self w) (Some Another) (running w) (given w) (env w))
  | another_leaves w : profile w = Some Another →
      step w (World.mk _ (self w) None (running w) (given w) (env w))
  | elsewhere w e : step w (World.mk _ (self w) (profile w) (running w) (given w) e).

(** Whether an event of the discovery is taken up ([_on_discovery]). *)
Definition heard (r : ConnectRuntime.t) (d : component) : bool :=
  bool_decide (callback_generation d = _generation r) && started r.
(** Whether the reaper goes on at a tick ([_expiry_loop]). *)
Definition goes_on (r : ConnectRuntime.t) (thread : component) : bool := heard r thread.
End lifecycle.
