(* ===== verification/RuntimeLifecycleSpec.v ===== *)
(** * Starting and stopping a runtime: nothing is left behind, and what a busy port does

    A small calculus of weakest preconditions runs the methods of the lifecycle symbolically;
    a step of the environment may end in any way. *)

From S2P Require Import Prelude RuntimeLifecycle.
Import ConnectRuntime(_status, _generation, _profile_lock, _server, _pairing_server, _discovery, _expiry, _service,
  _connection_manager, _network_pairing).
Import World(self, profile, running, given, env).

(** ** Weakest preconditions *)

Definition wp {S A} (m : M S A) (Q : result A → S → Prop) (s : S) : Prop := Q (m s).2 (m s).1.

Section wp.
Context {S : Type}.
Implicit Types s : S.

Lemma wp_run {A} (m : M S A) Q s s' r : wp m Q s → m s = (s', r) → Q r s'.
Proof. unfold wp. intros Hw E. by rewrite E in Hw. Qed.
Lemma wp_mono {A} (m : M S A) (Q Q' : result A → S → Prop) s : wp m Q s → (∀ r s', Q r s' → Q' r s') → wp m Q' s.
Proof. unfold wp. auto. Qed.
Lemma wp_bind {A B} (m : M S A) (f : A → M S B) Q s :
  wp m (λ r s', match r with Ok a => wp (f a) Q s' | Err e => Q (Err e) s' end) s → wp (m ≫= f) Q s.
Proof. unfold wp. rewrite M_bind_run. by destruct (m s) as [s' [a|e]]. Qed.
Lemma wp_ret {A} (a : A) (Q : result A → S → Prop) s : Q (Ok a) s → wp (mret a) Q s.
Proof. done. Qed.
Lemma wp_lift {A} (r : result A) (Q : result A → S → Prop) s : Q r s → wp (lift r) Q s.
Proof. done. Qed.
Lemma wp_attempt {A} (m : M S A) h Q s :
  wp m (λ r s', match r with Ok a => Q (Ok a) s' | Err e => wp (h e) Q s' end) s → wp (attempt m h) Q s.
Proof. unfold wp, attempt. cbn. by destruct (m s) as [s1 [a|e]]. Qed.
Lemma wp_outcome {A} (m : M S A) (Q : result (result A) → S → Prop) s :
  wp m (λ r s', Q (Ok r) s') s → wp (outcome m) Q s.
Proof. unfold wp, outcome. by destruct (m s) as [s' r]. Qed.
Lemma wp_finally {A} (m : M S A) f Q s :
  wp m (λ r s', wp f (λ u s'', match u with Ok _ => Q r s'' | Err e => Q (Err e) s'' end) s') s → wp (finally m f) Q s.
Proof.
  intros Hm. apply wp_bind, wp_outcome. eapply wp_mono; [exact Hm|]. intros r s' Hf. apply wp_bind.
  eapply wp_mono; [exact Hf|]. by intros [].
Qed.
End wp.

Section spec.
Context {E : Type} `{Steps E}.
Notation W := (World.t E).
Context (discovery_enabled : bool) (bind_host : string).
Implicit Types w : W.
Notation _start_locked := (_start_locked discovery_enabled bind_host).
Notation _start_components := (_start_components discovery_enabled bind_host).
Notation rotate_transport := (rotate_transport discovery_enabled bind_host).

(** ** The steps *)

(** The world with another environment, runtime, or set of things that run *)
Definition with_env w e : W := World.mk _ (self w) (profile w) (running w) (given w) e.
Definition with_self w r : W := World.mk _ r (profile w) (running w) (given w) (env w).
Definition with_running w x : W := World.mk _ (self w) (profile w) x (given w) (env w).
Definition given_one w : W := World.mk _ (self w) (profile w) (running w) (S (given w)) (env w).

Lemma wp_in_env {A} (m : M E A) (Q : result A → W → Prop) w : (∀ e r, Q r (with_env w e)) → wp (in_env m) Q w.
Proof. unfold wp, in_env. destruct (m (env w)) as [e r]. intros HQ. apply HQ. Qed.
Lemma wp_runtime (Q : result ConnectRuntime.t → W → Prop) w : Q (Ok (self w)) w → wp runtime Q w.
Proof. done. Qed.
Lemma wp_update f (Q : result () → W → Prop) w : Q (Ok ()) (with_self w (f (self w))) → wp (update f) Q w.
Proof. done. Qed.
Lemma wp_fresh (Q : result nat → W → Prop) w : Q (Ok (given w)) (given_one w) → wp fresh Q w.
Proof. done. Qed.
Lemma wp_runs n (Q : result () → W → Prop) w : Q (Ok ()) (with_running w ({[n]} ∪ running w)) → wp (runs n) Q w.
Proof. done. Qed.
Lemma wp_halts n (Q : result () → W → Prop) w : Q (Ok ()) (with_running w (running w ∖ {[n]})) → wp (halts n) Q w.
Proof. done. Qed.

(** ** What the lifecycle relies on

    Dropping providers and live grants does not fail, and threads can be started. *)
Class Calm : Prop := {
  calm_grants : ∀ e, is_ok (clear_grants e).2 = true;
  calm_disconnect : ∀ e, is_ok (disconnect_all e).2 = true;
  calm_thread : ∀ e, is_ok (start_thread e).2 = true }.

Lemma wp_quiet {A} (m : M E A) (Q : result A → W → Prop) w :
  (∀ e, is_ok (m e).2 = true) → (∀ e a, Q (Ok a) (with_env w e)) → wp (in_env m) Q w.
Proof.
  intros Hm HQ. unfold wp, in_env. specialize (Hm (env w)). destruct (m (env w)) as [e [a|x]]; [|done]. apply HQ.
Qed.
Lemma wp_answers {A} (m : M E A) a (Q : result A → W → Prop) w :
  (∀ e, (m e).2 = a) → (∀ e, Q a (with_env w e)) → wp (in_env m) Q w.
Proof.
  intros Hm HQ. unfold wp, in_env. specialize (Hm (env w)). destruct (m (env w)) as [e r]. cbn in Hm. subst r. apply HQ.
Qed.
Lemma wp_calm (m : M E ()) (Q : result () → W → Prop) w :
  (∀ e, is_ok (m e).2 = true) → (∀ e, Q (Ok ()) (with_env w e)) → wp (in_env m) Q w.
Proof. intros Hm HQ. apply wp_quiet; [done|]. intros e []. apply HQ. Qed.

Context {Hcalm : Calm}.

(** One step of the execution of a method. *)
Ltac wp_step :=
  cbv beta iota;
  match goal with
  | |- wp (_ ≫= _) _ _ => apply wp_bind
  | |- wp (mret _) _ _ => apply wp_ret
  | |- wp (lift _) _ _ => apply wp_lift
  | |- wp (attempt _ _) _ _ => apply wp_attempt
  | |- wp (outcome _) _ _ => apply wp_outcome
  | |- wp runtime _ _ => apply wp_runtime
  | |- wp (update _) _ _ => apply wp_update
  | |- wp fresh _ _ => apply wp_fresh
  | |- wp (runs _) _ _ => apply wp_runs
  | |- wp (halts _) _ _ => apply wp_halts
  | |- wp (in_env clear_grants) _ _ => apply wp_calm; [exact calm_grants|intros ?]
  | |- wp (in_env disconnect_all) _ _ => apply wp_calm; [exact calm_disconnect|intros ?]
  | |- wp (in_env start_thread) _ _ => apply wp_calm; [exact calm_thread|intros ?]
  | |- wp (in_env _) _ _ => let e := fresh "e" in let r := fresh "r" in apply wp_in_env; intros e r
  | |- wp (stop _) _ _ => unfold stop
  | |- wp (if ?b then _ else _) _ _ => destruct b eqn:?
  end; cbv beta iota.

(** ** What runs is referenced *)

Definition opt (n : option nat) : gset nat := match n with Some n => {[n]} | None => ∅ end.
Definition referenced (r : ConnectRuntime.t) : gset nat :=
  opt (_server r) ∪ opt (_pairing_server r) ∪ opt (number <$> _discovery r) ∪ opt (number <$> _expiry r).
(** What runs is referenced, and the reaper that is referenced runs. *)
Definition covered w : Prop :=
  running w ⊆ referenced (self w) ∧ ∀ x, _expiry (self w) = Some x → number x ∈ running w.
(** Nothing runs, and nothing that runs is referenced; nothing at all is. *)
Definition quiet w : Prop := running w = ∅ ∧ referenced (self w) = ∅ ∧ _expiry (self w) = None.
Definition idle w : Prop :=
  quiet w ∧ _service (self w) = false ∧ _connection_manager (self w) = false ∧ _network_pairing (self w) = false.
(** Neither the lock nor the status nor the generation changed. *)
Definition same_lock w w' : Prop :=
  profile w' = profile w ∧ _profile_lock (self w') = _profile_lock (self w) ∧
  _status (self w') = _status (self w) ∧ _generation (self w') = _generation (self w).

Lemma wp_stop_component n (Q : result () → W → Prop) w :
  (∀ e, Q (Ok ()) (with_env (with_running w (running w ∖ opt n)) e)) → wp (_stop_component n) Q w.
Proof.
  intros HQ. destruct n as [n|]; cbn [_stop_component opt] in *.
  - repeat wp_step. destruct r as [[]|x]; [apply HQ|wp_step; apply HQ].
  - wp_step. specialize (HQ (env w)). destruct w. unfold with_env, with_running in HQ. cbn in HQ.
    by rewrite difference_empty_L in HQ.
Qed.

Lemma wp_forget_and_stop (Q : result () → W → Prop) w : covered w → _expiry (self w) = None →
  (∀ w', idle w' → same_lock w w' → Q (Ok ()) w') → wp forget_and_stop Q w.
Proof.
  intros [Hr _] Hx HQ. unfold forget_and_stop. repeat wp_step. cbv beta iota.
  apply wp_stop_component. intros e1. wp_step. apply wp_stop_component. intros e2. cbv beta iota.
  apply wp_stop_component. intros e3. apply HQ; [|done]. unfold referenced in Hr. rewrite Hx in Hr.
  unfold idle, quiet, referenced. cbn. rewrite Hx. cbn. split_and!; [set_solver|set_solver|done..].
Qed.

Lemma wp_stop_expiry (Q : result () → W → Prop) w : covered w →
  (∀ w', covered w' → _expiry (self w') = None → same_lock w w' →
     _connection_manager (self w') = _connection_manager (self w) → Q (Ok ()) w') → wp _stop_expiry_worker Q w.
Proof.
  intros [Hr Hx] HQ. unfold _stop_expiry_worker. repeat wp_step. unfold referenced in Hr.
  destruct (_expiry (self w)) as [x|] eqn:E1.
  - unfold wp, join. rewrite bool_decide_true by (apply (Hx x eq_refl)). apply HQ; try done.
    split; [unfold referenced; cbn in *; set_solver|done].
  - wp_step. apply HQ; [|done..]. split; [unfold referenced; cbn in *; set_solver|done].
Qed.

Lemma wp_clear_components (Q : result () → W → Prop) w : covered w →
  (∀ w', idle w' → same_lock w w' → Q (Ok ()) w') → wp _clear_components Q w.
Proof.
  intros Hc HQ. unfold _clear_components. wp_step. apply wp_stop_expiry; [done|].
  intros w1 Hc1 Hx1 S1 _. repeat wp_step.
  all: apply wp_forget_and_stop; [done|done|]; intros w2 Hi S2; apply HQ; [done|].
  all: unfold same_lock in *; cbn in *; intuition congruence.
Qed.
Lemma quiet_covered w : quiet w → covered w.
Proof. intros (Hr & Hf & Hx). split; [rewrite Hr; set_solver|]. intros x. by rewrite Hx. Qed.

(** ** Starting *)

Lemma wp_start_listeners s p (Q : result ((Z * option bool) * Z + exn) → W → Prop) w : quiet w →
  (∀ ports e, Q (Ok (inl ports)) (with_env (with_running w ({[p]} ∪ ({[s]} ∪ running w))) e)) →
  (∀ error w', idle w' → same_lock w w' → Q (Ok (inr error)) w') →
  (∀ error w', covered w' → same_lock w w' → Q (Err error) w') →
  wp (start_listeners s p) Q w.
Proof.
  intros (Hr & Hf & Hx) Hok Hun Herr. unfold start_listeners, start_server.
  assert (∀ w1 (error : exn), running w1 ⊆ {[s]} → self w1 = self w → profile w1 = profile w →
    wp (stopped ← outcome (stop p); stop s;; lift stopped;; _clear_components;;
        if exn_isa error OSError then mret (inr error) else lift (Err error)) Q w1) as Hfail.
  { intros w1 error Hs1 Hself Hprof.
    assert (∀ e, quiet (with_env (with_running w1 (running w1 ∖ {[p]} ∖ {[s]})) e)) as Hq
      by (intros e; unfold quiet; cbn; rewrite Hself; split; [set_solver|done]).
    assert (∀ e x, same_lock w (with_env (with_running w1 x) e)) as Hlock
      by (intros e x; unfold same_lock; cbn; by rewrite Hself).
    repeat wp_step. destruct r0 as [[]|x]; [|by apply Herr; [apply quiet_covered, (Hq e0)|apply Hlock]].
    repeat wp_step. destruct r as [[]|x]; [|by apply Herr; [apply quiet_covered, (Hq e0)|apply Hlock]].
    wp_step. apply wp_clear_components; [apply quiet_covered, (Hq e0)|]. intros w' Hi S.
    assert (same_lock w w') as S' by (destruct (Hlock e0 (running w1 ∖ {[p]} ∖ {[s]})) as (?&?&?&?), S as (?&?&?&?);
      unfold same_lock; cbn in *; intuition congruence).
    wp_step; wp_step; [by apply Hun|]. apply Herr; [|done]. by apply quiet_covered, Hi. }
  repeat wp_step. destruct r as [port|x]; cbv beta iota.
  2: { apply Hfail; [cbn; set_solver|done..]. }
  repeat wp_step. destruct r as [port'|x]; cbv beta iota; [|apply Hfail; [cbn; set_solver|done..]].
  repeat wp_step. apply Hok.
Qed.
(** Both listeners run and are referenced, and the discovery with its reaper if it started. *)
Definition up w : Prop :=
  ∃ s p, _server (self w) = Some s ∧ _pairing_server (self w) = Some p ∧ s ≠ p ∧
    _service (self w) = true ∧ _connection_manager (self w) = true ∧ _network_pairing (self w) = true ∧
    if RuntimeStatus.discovery_started (_status (self w))
    then ∃ d x, _discovery (self w) = Some d ∧ _expiry (self w) = Some x ∧ running w = {[s; p; number d; number x]}
    else _expiry (self w) = None ∧ running w = {[s; p]}.

Lemma up_covered w : up w → covered w.
Proof.
  intros (s & p & Hs & Hp & _ & _ & _ & _ & Hd). unfold covered, referenced. rewrite Hs, Hp.
  destruct (RuntimeStatus.discovery_started _).
  - destruct Hd as (d & x & -> & -> & ->). split; [cbn; set_solver|]. intros y [= <-]. set_solver.
  - destruct Hd as [-> ->]. split; [cbn; set_solver|done].
Qed.

(** The lock and the generation did not change. *)
Definition same_place w w' : Prop :=
  profile w' = profile w ∧ _profile_lock (self w') = _profile_lock (self w) ∧ _generation (self w') = _generation (self w).
Lemma lock_place w w' : same_lock w w' → same_place w w'.
Proof. by intros (? & ? & _ & ?). Qed.
#[local] Instance same_place_trans : Transitive same_place.
Proof. unfold same_place. intros w1 w2 w3 (?&?&?) (?&?&?). split_and!; congruence. Qed.

(** What the end of a start has done. *)
Definition settled_start w (r : result RuntimeStatus.t) w' : Prop :=
  same_place w w' ∧
  match r with
  | Ok s => _status (self w') = s ∧
      (RuntimeStatus.state s = STARTED ∧ up w' ∨ RuntimeStatus.state s = LISTENER_UNAVAILABLE ∧ idle w')
  | Err _ => covered w'
  end.

Lemma wp_discovery generation ports fingerprint w s p : _server (self w) = Some s → _pairing_server (self w) = Some p →
  s ≠ p → _service (self w) = true → _connection_manager (self w) = true → _network_pairing (self w) = true →
  _discovery (self w) = None → _expiry (self w) = None → running w = {[s; p]} →
  wp (start_discovery_and_reaper discovery_enabled bind_host generation ports fingerprint) (settled_start w) w.
Proof.
  intros Hs Hp Hne Hsv Hcm Hnp Hd Hx Hr. unfold start_discovery_and_reaper, started_status, set_status, _start_expiry_worker.
  assert (∀ st w', _status (self w') = st → RuntimeStatus.state st = STARTED → RuntimeStatus.discovery_started st = false →
    _server (self w') = Some s → _pairing_server (self w') = Some p → _service (self w') = true →
    _connection_manager (self w') = true → _network_pairing (self w') = true → _expiry (self w') = None →
    running w' = {[s; p]} → same_place w w' → settled_start w (Ok st) w') as Hup.
  { intros st w' Hst ??????????. split; [done|]. split; [done|]. left. split; [done|]. exists s, p.
    rewrite Hst. split_and!; try done. by case_match. }
  wp_step; [repeat wp_step; by apply Hup|]. repeat wp_step. destruct r as [[]|x].
  2: { repeat wp_step. by apply Hup. }
  repeat wp_step. destruct r as [[yes reason]|x]; [|split; [done|]; split; [|by cbn; rewrite Hx]].
  2: { cbn. unfold referenced. rewrite Hs, Hp, Hd, Hx, Hr. cbn. set_solver. }
  cbn [fst snd]. destruct yes.
  - repeat wp_step. split; [done|]. split; [done|]. left. split; [done|]. exists s, p. cbn. split_and!; try done.
    eexists _, _. split; [done|]. split; [done|]. cbn. rewrite Hr. set_solver.
  - repeat wp_step. by apply Hup.
Qed.
Lemma settled_place w w1 r w' : same_place w w1 → settled_start w1 r w' → settled_start w r w'.
Proof. intros S [S' Hr]. split; [by etrans|done]. Qed.
Lemma settled_error w w' e : same_place w w' → covered w' → settled_start w (Err e) w'.
Proof. by split. Qed.

Lemma wp_start_components generation w : quiet w → _connection_manager (self w) = true →
  wp (_start_components generation) (settled_start w) w.
Proof.
  intros Hq Hcm. unfold RuntimeLifecycle._start_components, set_status. pose proof (quiet_covered w Hq) as Hc.
  repeat wp_step. destruct r as [stored|x]; [|by apply settled_error].
  repeat wp_step. destruct r as [fingerprint|x]; [|by apply settled_error].
  repeat wp_step. destruct r as [[]|x]; [|by apply settled_error].
  repeat wp_step. apply wp_start_listeners; [exact Hq|..].
  - intros ports e2. repeat wp_step. destruct Hq as (Hr & Hf & Hx). unfold referenced in Hf.
    assert (_discovery (self w) = None) as Hd by (destruct (_discovery (self w)); [cbn in Hf; set_solver|done]).
    destruct r as [[]|x].
    + match goal with |- wp _ _ ?v => apply (wp_mono _ (settled_start v)); [|intros r w'; by apply settled_place] end.
      eapply wp_discovery; [reflexivity|reflexivity|..]; [cbn; lia|done..|exact Hd|exact Hx|].
      cbn. rewrite Hr. set_solver.
    + apply settled_error; [done|]. split; [unfold referenced; cbn; rewrite Hr; set_solver|by cbn; rewrite Hx].
  - intros error w' Hi S. repeat wp_step. split; [by apply lock_place in S|]. split; [done|]. by right.
  - intros error w' Hc' S. by apply settled_error; [apply lock_place in S|].
Qed.

(** ** The profile lock *)

Definition holds_lock w : Prop := ∃ d, _profile_lock (self w) = Some d ∧ profile w = Some (Ours d).
Definition lock_free w : Prop := _profile_lock (self w) = None ∧ ∀ d, profile w ≠ Some (Ours d).

Lemma unlock_run d w : profile w = Some (Ours d) →
  release d w = in_env unlock (World.mk _ (self w) None (running w) (given w) (env w)).
Proof. intros Hp. unfold release. by rewrite Hp, bool_decide_true. Qed.

(** The lock is given back, whether or not unlocking fails. *)
Lemma wp_release (Q : result () → W → Prop) w : holds_lock w ∨ lock_free w →
  (∀ r w', lock_free w' → running w' = running w → self w' = ConnectRuntime.set_lock (self w) None →
     ((∀ e, is_ok (unlock e).2 = true) → r = Ok ()) → Q r w') →
  wp _release_profile_lock Q w.
Proof.
  intros Hl HQ. unfold _release_profile_lock. repeat wp_step. destruct Hl as [(d & Hd & Hp)|[Hd Hp]]; rewrite Hd.
  - unfold wp. rewrite unlock_run by done. unfold in_env. cbn [World.env with_self].
    destruct (unlock (env w)) as [e r] eqn:Hu. apply HQ; try done. intros Hok. specialize (Hok (env w)).
    rewrite Hu in Hok. by destruct r as [[]|].
  - wp_step. by apply HQ.
Qed.

(** ** The whole life *)

(** What each status stands for. *)
Definition tidy w : Prop :=
  match RuntimeStatus.state (_status (self w)) with
  | STARTED => up w ∧ holds_lock w
  | LISTENER_UNAVAILABLE => idle w ∧ holds_lock w
  | STOPPED | PERSISTENCE_FAILED => idle w ∧ lock_free w
  | STARTING => False
  end.

Lemma tidy_lock w : tidy w → holds_lock w ∨ lock_free w.
Proof. unfold tidy. case_match; naive_solver. Qed.
Lemma tidy_covered w : tidy w → covered w.
Proof.
  unfold tidy. case_match; intros ?; try done; [|apply up_covered|..]; [apply quiet_covered|..]; unfold idle in *; naive_solver (eauto using up_covered, quiet_covered).
Qed.
(** A method leaves the runtime tidy and returns its status. *)
Definition leaves_tidy (r : result RuntimeStatus.t) w : Prop := tidy w ∧ ∀ s, r = Ok s → _status (self w) = s.

Lemma locked_same w w' : profile w' = profile w → _profile_lock (self w') = _profile_lock (self w) →
  holds_lock w ∨ lock_free w → holds_lock w' ∨ lock_free w'.
Proof. intros Hp Hl. unfold holds_lock, lock_free. by rewrite Hp, Hl. Qed.

Lemma wp_start_failed e w : covered w → holds_lock w ∨ lock_free w →
  wp (start_failed e) (λ r w', leaves_tidy r w' ∧ started (self w') = false) w.
Proof.
  intros Hc Hl. unfold start_failed, set_status.
  assert (∀ (s : RuntimeStatus.t) w1 w2, _status (self w1) = s →
    RuntimeStatus.state s = STOPPED ∨ RuntimeStatus.state s = PERSISTENCE_FAILED → idle w1 → lock_free w2 →
    running w2 = running w1 → self w2 = ConnectRuntime.set_lock (self w1) None →
    tidy w2 ∧ _status (self w2) = s ∧ started (self w2) = false) as Hend.
  { intros s w1 w2 Hst Hs Hi Hf Hr Hself. unfold tidy, started. rewrite Hself. cbn. rewrite Hst.
    assert (idle w2) by (unfold idle, quiet, referenced in *; rewrite Hr, Hself; done). by destruct Hs as [-> | ->]. }
  wp_step.
  - repeat wp_step. apply wp_clear_components; [done|]. intros w1 Hi S.
    wp_step. apply wp_release; [eapply locked_same; [by apply S..|done]|]. intros r w2 Hf Hr Hself _.
    destruct S as (_ & _ & Hst & _). cbn in Hst.
    destruct (Hend _ w1 w2 Hst (or_intror eq_refl) Hi Hf Hr Hself) as (Ht & Hst2 & Hno).
    destruct r as [[]|x]; [|by repeat split]. wp_step. split; [|done]. split; [done|]. by intros s [= <-].
  - repeat wp_step. apply wp_finally. apply wp_clear_components; [done|]. intros w1 Hi S.
    apply wp_release; [eapply locked_same; [by apply S..|done]|]. intros r w2 Hf Hr Hself _.
    destruct S as (_ & _ & Hst & _). cbn in Hst.
    destruct (Hend _ w1 w2 Hst (or_introl eq_refl) Hi Hf Hr Hself) as (Ht & Hst2 & Hno).
    destruct r as [[]|x]; [|by repeat split]. wp_step. by repeat split.
Qed.
Lemma wp_failed_tidy e w : covered w → holds_lock w ∨ lock_free w → wp (start_failed e) leaves_tidy w.
Proof. intros Hc Hl. eapply wp_mono; [by apply wp_start_failed|]. by intros r w' [? _]. Qed.

Lemma settled_tidy w r w' : holds_lock w → settled_start w r w' → (∃ s, r = Ok s) → leaves_tidy r w'.
Proof.
  intros (d & Hd & Hp) [(Hp' & Hd' & _) Hs] [s ->]. destruct Hs as [Hst Hs].
  assert (holds_lock w') by (exists d; by rewrite Hp', Hd'). split; [|by intros ? [= <-]].
  unfold tidy. rewrite Hst. by destruct Hs as [[-> Hs]|[-> Hs]].
Qed.

(** A start that does something: it fails before the components, or starts them. *)
Lemma wp_start_with (Q : result RuntimeStatus.t → W → Prop) w : tidy w → started (self w) = false →
  (∀ e w1, covered w1 → holds_lock w1 ∨ lock_free w1 → wp (start_failed e) Q w1) →
  (∀ w1, quiet w1 → holds_lock w1 → _connection_manager (self w1) = true →
     _generation (self w1) = (_generation (self w) + 1)%Z →
     wp (_start_components (_generation (self w) + 1))
        (λ r w', match r with Ok s => Q (Ok s) w' | Err e => wp (start_failed e) Q w' end) w1) →
  wp _start_locked Q w.
Proof.
  intros Ht Hns Hfail Hgo. unfold RuntimeLifecycle._start_locked, acquire, set_status. repeat wp_step; [congruence|].
  assert (quiet w) as Hq.
  { unfold tidy in Ht. unfold started in Heqb. to_prop. case_match; try done; unfold idle in Ht; naive_solver. }
  pose proof (quiet_covered _ Hq) as Hc. pose proof (tidy_lock _ Ht) as Hl.
  destruct r as [[]|x]; [|by apply Hfail].
  repeat wp_step. unfold wp at 1, flock. cbn [profile with_env given_one with_self].
  destruct (profile w) as [h|] eqn:Hp; cbn [fst snd].
  { apply Hfail; [done|]. eapply locked_same; [done..|exact Hl]. }
  repeat wp_step. destruct r as [[]|x]; [|apply Hfail; [exact Hc|left; by eexists]].
  repeat wp_step. destruct r as [[]|x]; [|apply Hfail; [exact Hc|left; by eexists]].
  repeat wp_step. match goal with |- wp _ _ ?v => apply (Hgo v); [exact Hq|by eexists|done..] end.
Qed.

Lemma wp_start w : tidy w → wp _start_locked leaves_tidy w.
Proof.
  intros Ht. destruct (started (self w)) eqn:Hst.
  { unfold RuntimeLifecycle._start_locked. do 2 wp_step. rewrite Hst. wp_step. by split; [|by intros ? [= <-]]. }
  apply wp_start_with; [done|done|by intros; apply wp_failed_tidy|]. intros w1 Hq Hl Hm _.
  eapply wp_mono; [by apply wp_start_components|]. intros r w' Hs.
  destruct r as [s|x]; [by eapply settled_tidy; [|exact Hs|eexists]|].
  destruct Hs as [S Hc]. apply wp_failed_tidy; [done|]. left. unfold holds_lock. by destruct S as (-> & -> & _).
Qed.

(** ** Shutting down *)

(** A shutdown whose saving raises nothing ends with nothing running, the lock free and every
    reference dropped. *)
Definition saves_quietly : Prop := ∀ e : E, is_ok (save_persisted_state e).2 = true.

Lemma wp_shutdown w : saves_quietly → covered w → holds_lock w ∨ lock_free w →
  wp shutdown (λ _ w', idle w' ∧ lock_free w' ∧ _status (self w') = RuntimeStatus.of_state STOPPED None) w.
Proof.
  intros Hsave Hc Hl. unfold shutdown. apply wp_finally. unfold _shutdown_locked.
  assert (∀ w1, covered w1 → holds_lock w1 ∨ lock_free w1 →
    wp (in_env save_persisted_state;; in_env clear_grants;; _stop_expiry_worker;; forget_and_stop;;
        set_status (RuntimeStatus.of_state STOPPED None);; mret ())
       (λ r s', wp _release_profile_lock (λ u s'', match u with
          | Ok _ => idle s'' ∧ lock_free s'' ∧ _status (self s'') = RuntimeStatus.of_state STOPPED None
          | Err _ => idle s'' ∧ lock_free s'' ∧ _status (self s'') = RuntimeStatus.of_state STOPPED None end) s') w1) as Hrest.
  { intros w1 Hc1 Hl1. apply wp_bind, wp_quiet; [exact Hsave|]. intros e b. repeat wp_step.
    apply wp_stop_expiry; [exact Hc1|]. intros w2 Hc2 Hx2 S2 _. repeat wp_step.
    apply wp_forget_and_stop; [done|done|]. intros w3 Hi S3. unfold set_status. repeat wp_step.
    apply wp_release.
    - eapply locked_same; [..|exact Hl1]; destruct S2 as (?&?&_), S3 as (?&?&_); cbn in *; congruence.
    - intros r w4 Hf Hr Hself _.
      assert (idle w4) by (unfold idle, quiet, referenced in *; rewrite Hr, Hself; exact Hi).
      assert (_status (self w4) = RuntimeStatus.of_state STOPPED None) by by rewrite Hself. by destruct r. }
  do 7 wp_step; (eapply wp_mono; [by apply Hrest|]); intros r s' Hq; (eapply wp_mono; [exact Hq|]); by intros [].
Qed.

Lemma shut_tidy w : idle w → lock_free w → _status (self w) = RuntimeStatus.of_state STOPPED None → tidy w.
Proof. intros Hi Hl Hs. unfold tidy. by rewrite Hs. Qed.

Lemma wp_rotate w : saves_quietly → tidy w → wp rotate_transport (λ _ w', tidy w') w.
Proof.
  intros Hsave Ht. unfold RuntimeLifecycle.rotate_transport. repeat wp_step. unfold throw_if.
  destruct (negb (started (self w))); [done|]. unfold wp at 1. cbn [raise_if fst snd]. repeat wp_step.
  destruct r as [[]|x]; [|done]. repeat wp_step.
  eapply wp_mono; [apply wp_shutdown; [done|by apply tidy_covered|by apply tidy_lock]|].
  intros r w1 (Hi & Hf & Hs). pose proof (shut_tidy w1 Hi Hf Hs) as Ht1. destruct r as [[]|x]; [|done].
  wp_step. eapply wp_mono; [by apply wp_start|]. intros [s|x] w2 [Ht2 _]; [|done].
  wp_step; [done|]. repeat wp_step. destruct r as [[]|x]; [|done].
  wp_step. eapply wp_mono; [by apply wp_start|]. intros [s'|x] w3 [Ht3 _]; done.
Qed.
(** ** A busy port *)

(** A runtime is just made: nothing runs, and the profile is not this one's. *)
Definition born w : Prop :=
  self w = ConnectRuntime.__init__ ∧ running w = ∅ ∧ ∀ d, profile w ≠ Some (Ours d).

Lemma born_tidy w : born w → tidy w.
Proof.
  intros (Hs & Hr & Hp). unfold tidy, idle, quiet, referenced, lock_free. rewrite Hs. cbn.
  split; [|done]. split; [|done]. split; [done|]. split; [set_solver|done].
Qed.

Lemma start_step w : step discovery_enabled bind_host w (_start_locked w).1.
Proof. exact (starts _ _ w _ (_start_locked w).2 (surjective_pairing _)). Qed.

Lemma step_tidy w w' : saves_quietly → tidy w → step discovery_enabled bind_host w w' → tidy w'.
Proof.
  intros Hsave Ht Hs. destruct Hs as [w w' r Hr|w w' r Hr|w w' r Hr|w Hp|w Hp|w e].
  - exact (proj1 (wp_run _ _ _ _ _ (wp_start w Ht) Hr)).
  - destruct (wp_run _ _ _ _ _ (wp_shutdown w Hsave (tidy_covered _ Ht) (tidy_lock _ Ht)) Hr) as (Hi & Hf & Hs).
    by apply shut_tidy.
  - exact (wp_run _ _ _ _ _ (wp_rotate w Hsave Ht) Hr).
  - unfold tidy, up, idle, quiet, holds_lock, lock_free in *. cbn. case_match; naive_solver congruence.
  - unfold tidy, up, idle, quiet, holds_lock, lock_free in *. cbn. case_match; naive_solver congruence.
  - exact Ht.
Qed.

(** C4. A runtime leaves nothing behind, as long as threads start, the teardown of providers and
    grants raises nothing, and saving raises nothing (a save that fails and says so is allowed).
    However often it is started, stopped and rotated, whoever else wants the profile, and whatever
    else fails (the profile's lock, the key material, loading, the listeners and their ports, the
    discovery, an answer of any other call), its status tells what there is: started
    means that both listeners run, with the discovery and its reaper if they were reported, and
    nothing else, and that the profile is locked; stopped or failed means that nothing runs, no
    component is kept and the profile is free; after a listener could not be had nothing runs
    but the profile stays locked.  The conditions are needed: [interrupted_shutdown_strands] and
    [LifeSample.unstarted_reaper_strands_listeners] are what happens without them. *)
Theorem lifecycle_stays_tidy w w' : saves_quietly → born w →
  rtc (step discovery_enabled bind_host) w w' → tidy w'.
Proof.
  intros Hsave Hb Hs. apply born_tidy in Hb. induction Hs as [|w w1 w2 H1 _ IH]; [done|].
  apply IH. by eapply step_tidy.
Qed.

(** A start that fails gives the lock back. *)
Lemma wp_refused e w : covered w → holds_lock w →
  wp (start_failed e) (λ r w', started (self w') = false ∧ lock_free w' ∧
    (persistence_error e = true → (∀ e, is_ok (unlock e).2 = true) →
       r = Ok (RuntimeStatus.of_state PERSISTENCE_FAILED (Some (exn_msg e))))) w.
Proof.
  intros Hc Hl. unfold start_failed, set_status. wp_step.
  - repeat wp_step. apply wp_clear_components; [done|]. intros w1 Hi S. wp_step.
    apply wp_release; [left; unfold holds_lock in *; by destruct S as (-> & -> & _)|]. intros r w2 Hf _ Hself Hok.
    assert (started (self w2) = false) by (unfold started; rewrite Hself; destruct S as (_ & _ & E1 & _); cbn; by rewrite E1).
    destruct r as [[]|x]; [by wp_step|]. split; [done|]. split; [done|]. intros _ Hu. by apply Hok in Hu.
  - repeat wp_step. apply wp_finally. apply wp_clear_components; [done|]. intros w1 Hi S.
    apply wp_release; [left; unfold holds_lock in *; by destruct S as (-> & -> & _)|]. intros r w2 Hf _ Hself Hok.
    assert (started (self w2) = false) by (unfold started; rewrite Hself; destruct S as (_ & _ & E1 & _); cbn; by rewrite E1).
    destruct r as [[]|x]; [by wp_step|]. by split.
Qed.

(** A port that was busy spoils the next start: the runtime that reported its listener
    unavailable keeps the lock of the profile, so starting it again finds the profile taken, by
    this very runtime, whatever the port does meanwhile.  The failure releases the lock. *)
Theorem busy_port_spoils_the_next_start w w' r :
  (∀ e, is_ok (open_lock_file e).2 = true) → (∀ e, is_ok (unlock e).2 = true) →
  tidy w → RuntimeStatus.state (_status (self w)) = LISTENER_UNAVAILABLE → _start_locked w = (w', r) →
  (∃ d, profile w = Some (Ours d)) ∧ started (self w') = false ∧ lock_free w' ∧
  r = Ok (RuntimeStatus.of_state PERSISTENCE_FAILED (Some "profile is already owned by another runtime")).
Proof.
  intros Hopen Hunlock Ht Hst Hr. unfold tidy in Ht. rewrite Hst in Ht. destruct Ht as [Hi Hl].
  split; [destruct Hl as (d & _ & ?); by exists d|].
  pose proof (quiet_covered _ (proj1 Hi)) as Hc. destruct Hl as (d & Hd & Hp).
  refine (wp_run _ (λ r w', started (self w') = false ∧ lock_free w' ∧ r = Ok _) _ _ _ _ Hr). clear Hr.
  unfold RuntimeLifecycle._start_locked, acquire, set_status. do 4 wp_step; [unfold started in Heqb; to_prop; congruence|].
  do 10 wp_step. apply wp_quiet; [exact Hopen|]. intros e []. repeat wp_step.
  unfold wp at 1, flock. cbn [profile with_env given_one with_self]. rewrite Hp. cbn [fst snd].
  eapply wp_mono; [apply wp_refused; [done|by exists d]|]. intros r1 w1 (? & ? & Hok). split; [done|]. split; [done|]. by apply Hok.
Qed.
(** ** Callbacks of another generation *)

(** What a start reports of the discovery it started: its callbacks carry [g]. *)
Definition carries (g n : Z) (r : result RuntimeStatus.t) w : Prop :=
  _generation (self w) = n ∧
  ∀ s, r = Ok s → RuntimeStatus.discovery_started s = true → _status (self w) = s → started (self w) = true →
    ∃ d x, _discovery (self w) = Some d ∧ _expiry (self w) = Some x ∧ callback_generation d = g ∧ callback_generation x = g.

Lemma wp_discovery_carries generation ports fingerprint w :
  wp (start_discovery_and_reaper discovery_enabled bind_host generation ports fingerprint)
    (carries generation (_generation (self w))) w.
Proof.
  unfold start_discovery_and_reaper, started_status, set_status, _start_expiry_worker.
  repeat wp_step; [by split; [|intros ? [= <-]]|]. destruct r as [[]|x]; [|repeat wp_step; by split; [|intros ? [= <-]]].
  repeat wp_step. destruct r as [[yes reason]|x]; [|by split]. cbn [fst snd]. destruct yes.
  - repeat wp_step. split; [done|]. intros s _ _ _ _. by eexists _, _.
  - repeat wp_step. by split; [|intros ? [= <-]].
Qed.

Lemma wp_components_carry g generation w : (∀ e, (current_generation e).2 = Ok (Some g)) → quiet w →
  wp (_start_components generation) (carries g (_generation (self w))) w.
Proof.
  intros Hg Hq. unfold RuntimeLifecycle._start_components, set_status. apply wp_bind. eapply wp_answers; [exact Hg|]. intros e. cbn [default].
  repeat wp_step. destruct r as [fingerprint|x]; [|by split].
  repeat wp_step. destruct r as [[]|x]; [|by split].
  repeat wp_step. apply wp_start_listeners; [exact Hq|..].
  - intros ports e2. repeat wp_step. destruct r as [[]|x]; [|by split].
    match goal with |- wp _ _ ?v => exact (wp_discovery_carries g ports fingerprint v) end.
  - intros error w' _ S. repeat wp_step. split; [by apply S|]. by intros s [= <-].
  - intros error w' _ S. split; [by apply S|done].
Qed.

(** A runtime that was started before is deaf: with a stored transport generation the callbacks of
    the discovery and its reaper are given that number for the number of the start, so events are
    taken up, and the reaper runs on, exactly if the two happen to be equal.  They are at the
    first start of a profile never rotated, and differ after every restart of such a runtime. *)
Theorem restarted_runtime_is_deaf g w w' s :
  (∀ e, (current_generation e).2 = Ok (Some g)) → tidy w → started (self w) = false →
  _start_locked w = (w', Ok s) → RuntimeStatus.discovery_started s = true → started (self w') = true →
  ∃ d x, _discovery (self w') = Some d ∧ _expiry (self w') = Some x ∧
    heard (self w') d = bool_decide (g = _generation (self w) + 1)%Z ∧
    goes_on (self w') x = bool_decide (g = _generation (self w) + 1)%Z.
Proof.
  intros Hg Ht Hns Hr Hd Hst. pose proof (wp_run _ _ _ _ _ (wp_start w Ht) Hr) as [_ Hs]. specialize (Hs s eq_refl).
  assert (carries g (_generation (self w) + 1) (Ok s) w' ∨ started (self w') = false) as [[Hn Hc]|?]; [|..|congruence].
  2: { destruct (Hc s eq_refl Hd Hs Hst) as (d & x & ? & ? & Hgd & Hgx). exists d, x. unfold goes_on, heard.
       by rewrite Hst, Hn, Hgd, Hgx, !andb_true_r. }
  refine (wp_run _ (λ r w', carries g _ r w' ∨ started (self w') = false) _ _ _ _ Hr). clear Hr.
  apply wp_start_with; [done|done|..].
  - intros e w1 Hc Hl. eapply wp_mono; [by apply wp_start_failed|]. intros r w2 [_ ?]. by right.
  - intros w1 Hq Hl Hm Hn. pose proof (wp_components_carry g (_generation (self w) + 1) w1 Hg Hq) as Hcar. rewrite Hn in Hcar.
    assert (wp (_start_components (_generation (self w) + 1)) (settled_start w1) w1) as Hset.
    { apply wp_start_components; [done|]. done. }
    unfold wp in *. destruct (_start_components _ w1) as [w2 [st|e]]; cbn [fst snd] in *; [by left|].
    destruct Hset as [S Hc2]. eapply wp_mono; [apply wp_start_failed; [done|]|intros r w3 [_ ?]; by right].
    left. unfold holds_lock in *. by destruct S as (-> & -> & _).
Qed.
(** ** A shutdown that breaks off *)

(** When saving raises something that is not caught, the lock is given back, but the listeners
    keep running and the runtime still says it is started. *)
Lemma interrupted_shutdown_strands x w : (∀ e, (save_persisted_state e).2 = Err x) → (∀ e, is_ok (unlock e).2 = true) →
  up w → holds_lock w →
  wp shutdown (λ r w', r = Err x ∧ running w' = running w ∧ _status (self w') = _status (self w) ∧ lock_free w') w.
Proof.
  intros Hsave Hunlock Hup Hl. unfold shutdown. apply wp_finally. unfold _shutdown_locked.
  do 7 wp_step; apply wp_bind; (eapply wp_answers; [exact Hsave|]); intros e';
    (apply wp_release; [left; exact Hl|]); intros r w1 Hf Hr Hself Hok; rewrite (Hok Hunlock), Hr, Hself; done.
Qed.
End spec.

(** ** A concrete life *)

Module LifeSample.
(** The outcomes of the next attempts to have a listener; everything else goes well.  The profile
    has a stored transport generation, 1. *)
Definition script : Type := list bool.
Definition next_listener : M script (Z * option bool) := λ e,
  match e with
  | false :: e => (e, raise OSError "address already in use")
  | _ => (tail e, Ok (8443%Z, None))
  end.
(** [thread] is what comes of starting a thread. *)
Definition steps (thread : result ()) : Steps script :=
  {| open_lock_file := mret (); unlock := mret (); load_identity := mret (); load_persisted_state := mret ();
     save_persisted_state := mret true; clear_grants := mret (); disconnect_all := mret ();
     current_generation := mret (Some 1%Z); tls_material _ := mret "pin"; make_service := mret ();
     start_listener := next_listener; stop_listener := mret (); make_advertisement := mret (); make_discovery := mret ();
     start_discovery := mret (true, None); start_thread := lift thread; prepare_rotation := mret ();
     rollback_active := mret () |}.
#[global] Instance good_steps : Steps script := steps (Ok ()).
#[global] Instance good_calm : Calm (E := script).
Proof. by split. Defined.

Definition fresh_world (e : script) : World.t script := World.mk _ ConnectRuntime.__init__ None ∅ 0 e.
Lemma fresh_born e : born (fresh_world e).
Proof. by split_and!. Qed.

Definition start (w : World.t script) := _start_locked true "0.0.0.0" w.
(** The port is busy once. *)
Definition busy : World.t script := (start (fresh_world [false])).1.
Definition retried : World.t script := (start busy).1.
(** Started, stopped and started again. *)
Definition up_once : World.t script := (start (fresh_world [])).1.
Definition down : World.t script := (shutdown up_once).1.
Definition up_again : World.t script := (start down).1.

Definition state_of (w : World.t script) : RuntimeState := RuntimeStatus.state (_status (self w)).
Example states : (state_of busy, state_of retried, state_of (start retried).1, state_of up_once, state_of up_again)
  = (LISTENER_UNAVAILABLE, PERSISTENCE_FAILED, STARTED, STARTED, STARTED).
Proof. vm_compute. reflexivity. Qed.

(** A rotation whose port is busy for a moment leaves the runtime stopped: the old generation is
    not brought back although its port is free again. *)
Example failed_rotation_stays_down :
  let w := World.mk _ (self up_once) (profile up_once) (running up_once) (given up_once) [false] in
  state_of (rotate_transport true "0.0.0.0" w).1 = PERSISTENCE_FAILED.
Proof. vm_compute. reflexivity. Qed.

(** A reaper that cannot be started strands the listeners: joining a thread that never ran raises
    before they are stopped, and the profile is given back. *)
Example unstarted_reaper_strands_listeners :
  let w := (@_start_locked script (steps (raise RuntimeError "can't start new thread")) true "0.0.0.0" (fresh_world [])).1 in
  (state_of w, profile w, elements (running w)) = (STOPPED, None, [2; 3; 1]).
Proof. vm_compute. reflexivity. Qed.
End LifeSample.

Lemma lifecycle_stays_tidy_witness : tidy LifeSample.retried.
Proof.
  assert (rtc (step true "0.0.0.0") (LifeSample.fresh_world [false]) LifeSample.retried) as Hs.
  { apply (rtc_l _ _ LifeSample.busy); [exact (start_step true "0.0.0.0" (LifeSample.fresh_world [false]))|].
    apply rtc_once. exact (start_step true "0.0.0.0" LifeSample.busy). }
  exact (lifecycle_stays_tidy true "0.0.0.0" _ _ (λ _, eq_refl) (LifeSample.fresh_born [false]) Hs).
Defined.
