(* ===== verification/RoleDispatch.v ===== *)
(** * Cluster operations of the runtime ([remote/role_operations.py])

    [dispatch_role_request] applies an authenticated role request of a peer to the cluster and
    saves it; the local operations go through the [FailoverCoordinator], whose persistence is
    [_persist_failover_state].  Both change the one cluster of the runtime.  The parameters
    have the types [validate_operation_params] requires before the handler is called; a value
    of another type is a [TypeError] here. *)

From S2P Require Import Prelude PyFloat Identity ClusterModels Roles Failover Operations Sharing ConnectionState NodeRegistry PyJson Wire Pairing Surfaces RemoteModels Service Documents TrustCodec Candidates Connections Runtime.
Import Runtime(_identity, _loaded, _connection_manager, _cluster, _cluster_capability_grants, _cluster_store,
  _failover_coordinator, _service).
Abbreviation dict := (list (string * json)) (only parsing).

(** [request.params[key]] of a type. *)
Definition text_param (key : string) (params : dict) : result string :=
  match od_get key params with
  | Some (JStr s) => Ok s
  | Some _ => raise TypeError key
  | None => raise KeyError key
  end.
Definition int_param (key : string) (params : dict) : result Z :=
  match od_get key params with
  | Some (JInt z) => Ok z
  | Some _ => raise TypeError key
  | None => raise KeyError key
  end.
Definition texts_param (key : string) (params : dict) : result (list string) :=
  match od_get key params with
  | Some v => of_option (is_list v ≫= all_str) TypeError key
  | None => raise KeyError key
  end.
Definition float_param (key : string) (params : dict) : result float :=
  match od_get key params with
  | Some v => raise_if (negb (is_number v)) TypeError key;; to_float v
  | None => raise KeyError key
  end.
Definition node_param (key : string) (params : dict) : result NodeId :=
  s ← text_param key params; NodeId.__post_init__ s.

(** ** Parts of a cluster *)

Definition with_members (c : Cluster.t) (assignments : list RoleAssignment) : Cluster.t :=
  Cluster.mk (Cluster.local_id c) (Cluster.cluster_id c) (Cluster.epoch c) (by_id assignments)
    (Cluster._online c) (Cluster._invites c) (Cluster._join_admissions c) (Cluster._used_invites c)
    (Cluster.promotion_epochs c) (Cluster.capability_grants c).
Definition with_grants (c : Cluster.t) (grants : list CapabilityGrant.t) : Cluster.t :=
  Cluster.mk (Cluster.local_id c) (Cluster.cluster_id c) (Cluster.epoch c) (Cluster.assignments c)
    (Cluster._online c) (Cluster._invites c) (Cluster._join_admissions c) (Cluster._used_invites c)
    (Cluster.promotion_epochs c) grants.
Definition with_epoch (c : Cluster.t) (e : CoordinatorEpoch.t) : Cluster.t :=
  Cluster.mk (Cluster.local_id c) (Cluster.cluster_id c) e (Cluster.assignments c)
    (Cluster._online c) (Cluster._invites c) (Cluster._join_admissions c) (Cluster._used_invites c)
    (Cluster.promotion_epochs c) (Cluster.capability_grants c).
(** The five members [consume_invite] saves beforehand put back. *)
Definition restore_join (previous c : Cluster.t) : Cluster.t :=
  Cluster.mk (Cluster.local_id c) (Cluster.cluster_id c) (Cluster.epoch c) (Cluster.assignments previous)
    (Cluster._online previous) (Cluster._invites previous) (Cluster._join_admissions previous)
    (Cluster._used_invites previous) (Cluster.promotion_epochs c) (Cluster.capability_grants c).

Section operations.
Context (sha256_hex : string → string).
Context {Hc Hs Pr : Type}.
Notation R := (Runtime.t Hc Hs Pr).
Notation W := (World R).
Context (clock : nat → float) (write_fails : nat → option exn).
Notation now := (now clock).
Notation _save_persisted_state := (_save_persisted_state write_fails).

Definition put_cluster (c : Cluster.t) : M W () :=
  update (λ r, Runtime.set_cluster r c (_cluster_capability_grants r)).
(** The cluster, the runtime's grants and the cluster's own copy of them. *)
Definition put_state (c : Cluster.t) (grants : list CapabilityGrant.t) : M W () :=
  update (λ r, Runtime.set_cluster r c grants).

Definition _require_cluster : M W Cluster.t :=
  r ← runtime; lift (of_option (_cluster r) RuntimeError "cluster participation is disabled").

(** The service is given the cluster's authority. *)
Definition install_fence (c : Cluster.t) : M W () :=
  on_service (RemoteService.update_cluster_fence (Cluster.cluster_id c)
    (CoordinatorEpoch.epoch (Cluster.epoch c)) (CoordinatorEpoch.fencing_token (Cluster.epoch c))).

(** ** [dispatch_role_request] *)

Definition only_the_coordinator : string := "only the Coordinator may perform this operation".

(** The clock that [consume_invite] reads again for the role change is read beforehand. *)
Definition dispatch_consume_invite (params : dict) (caller : NodeId) (current : float) (c : Cluster.t)
    : M W dict :=
  token ← lift (text_param "token" params);
  read_again ← now;
  let '(c', invite) := Cluster.consume_invite sha256_hex token caller current read_again true c in
  put_cluster c';;
  invite ← lift invite;
  persisted ← _save_persisted_state;
  if negb persisted
  then put_cluster (restore_join c c');; throw RuntimeError "cluster invite was not durably persisted"
  else target ← lift (InviteRecord.target_id invite);
       mret [("target_node_id", JStr (value target)); ("expires_at", JFloat (InviteRecord.expires_at invite));
             ("cluster_id", JStr (Cluster.cluster_id c'));
             ("coordinator_id", JStr (value (Cluster.coordinator_id c')));
             ("epoch", JInt (CoordinatorEpoch.epoch (Cluster.epoch c')));
             ("fencing_token", JStr (CoordinatorEpoch.fencing_token (Cluster.epoch c')))].

Definition dispatch_renew_lease (params : dict) (caller : NodeId) (current : float) (c : Cluster.t)
    : M W dict :=
  throw_if (negb (bool_decide (caller = Cluster.coordinator_id c))) PermissionError only_the_coordinator;;
  token ← lift (text_param "fencing_token" params);
  renewed ← lift (renew_lease (Cluster.epoch c) caller token current HEARTBEAT_TIMEOUT_SECONDS);
  let c' := with_epoch c renewed in
  put_cluster c';;
  r ← runtime;
  persisted ← (if _cluster_store r then _save_persisted_state else mret true);
  if negb persisted
  then put_cluster c;; throw RuntimeError "coordinator lease was not durably persisted"
  else (if _service r then install_fence c' else mret ());;
       mret [("ok", JBool true); ("cluster_id", JStr (Cluster.cluster_id c'));
             ("epoch", JInt (CoordinatorEpoch.epoch (Cluster.epoch c')));
             ("coordinator_id", JStr (value (Cluster.coordinator_id c')))].

(** A topology computed from the cluster's is made the current one and saved, or undone. *)
Definition commit_topology (c : Cluster.t) (updated : RoleState.t) (failure : string) : M W () :=
  r ← runtime;
  let grants := RoleState.capability_grants updated in
  put_state (with_grants (with_members c (RoleState.assignments updated)) grants) grants;;
  persisted ← _save_persisted_state;
  if negb persisted
  then put_state c (_cluster_capability_grants r);; throw RuntimeError failure
  else mret ().

Definition dispatch_assign_role (params : dict) (caller : NodeId) (actor : RoleAssignment)
    (state : RoleState.t) (current : float) (c : Cluster.t) : M W dict :=
  target ← lift (node_param "target_node_id" params);
  roles ← lift (texts_param "roles" params);
  throw_if (negb (bool_decide (caller = Cluster.coordinator_id c)) || negb (Nat.eqb (length roles) 1))
    PermissionError only_the_coordinator;;
  name ← lift (of_option (head roles) IndexError "list index out of range");
  role ← lift (ClusterRole.of_value name);
  outcome ← lift (RoleState.assign state actor target {[role]} current);
  commit_topology c outcome.1 "cluster role was not durably persisted";;
  _hydrate_registry_membership;;
  _refresh_live_grants;;
  mret [("ok", JBool true); ("node_id", JStr (value target)); ("role", JStr name)].

(** The transition an operation names. *)
Definition transition (op : string) (state : RoleState.t) (actor : RoleAssignment) (target : NodeId)
    : result RoleState.t :=
  if bool_decide (op = "pause_worker") then RoleState.pause state actor target
  else if bool_decide (op = "resume_worker") then RoleState.resume state actor target
  else if bool_decide (op = "remove_job") then RoleState.remove_job state actor target
  else RoleState.revoke state actor target.

Definition revokes (op : string) : bool := bool_decide (op ∈ ["revoke_member"; "revoke_worker"]).

Definition dispatch_transition (op : string) (params : dict) (actor : RoleAssignment)
    (state : RoleState.t) (c : Cluster.t) : M W dict :=
  target ← lift (node_param "target_node_id" params);
  updated ← lift (transition op state actor target);
  commit_topology c updated "cluster role mutation was not durably persisted";;
  (if revokes op then _refresh_live_grants else mret ());;
  mret [("ok", JBool true); ("node_id", JStr (value target)); ("revoked", JBool (revokes op))].

Definition dispatch_remove_connection (params : dict) (caller : NodeId) (c : Cluster.t) : M W dict :=
  target ← lift (node_param "target_node_id" params);
  throw_if (negb (bool_decide (caller = Cluster.coordinator_id c)) && negb (bool_decide (caller = target)))
    PermissionError "only the Coordinator or target Worker may remove a connection";;
  r ← runtime;
  (if _connection_manager r then disconnect clock target "removed by cluster operation" else mret ());;
  mret [("ok", JBool true); ("node_id", JStr (value target)); ("connected", JBool false)].

Definition dispatch_capabilities (op : string) (params : dict) (caller : NodeId) (actor : RoleAssignment)
    (state : RoleState.t) (current : float) (c : Cluster.t) : M W dict :=
  throw_if (negb (bool_decide (caller = Cluster.coordinator_id c))) PermissionError only_the_coordinator;;
  subject ← lift (node_param "subject_node_id" params);
  target ← lift (node_param "target_node_id" params);
  r ← runtime;
  updated ← lift (if bool_decide (op = "revoke_capabilities")
                  then RoleState.revoke_capabilities state actor subject target
                  else names ← texts_param "permissions" params;
                       permissions ← mapM NodePermission.of_value names;
                       expires_at ← float_param "expires_at" params;
                       RoleState.grant_capabilities state actor subject target (list_to_set permissions)
                         current expires_at);
  let grants := RoleState.capability_grants updated in
  put_state (with_grants c grants) grants;;
  persisted ← _save_persisted_state;
  if negb persisted
  then put_state c (_cluster_capability_grants r);;
       throw RuntimeError "capability mutation was not durably persisted"
  else _refresh_live_grants;;
       mret [("ok", JBool true); ("subject_node_id", JStr (value subject));
             ("target_node_id", JStr (value target))].

(** The operations of a member. *)
Definition dispatch_member (op : string) (params : dict) (caller : NodeId) (actor : RoleAssignment)
    (state : RoleState.t) (current : float) (c : Cluster.t) : M W dict :=
  if bool_decide (op = "renew_coordinator_lease") then dispatch_renew_lease params caller current c
  else if bool_decide (op = "assign_role") then dispatch_assign_role params caller actor state current c
  else if bool_decide (op ∈ ["revoke_member"; "revoke_worker"; "pause_worker"; "resume_worker"; "remove_job"])
  then dispatch_transition op params actor state c
  else if bool_decide (op = "remove_connection") then dispatch_remove_connection params caller c
  else if bool_decide (op ∈ ["grant_capabilities"; "revoke_capabilities"; "sync_capability_grant"])
  then dispatch_capabilities op params caller actor state current c
  else if bool_decide (op ∈ ["worker_snapshot"; "standby_batch"])
  then mret [("ok", JBool false); ("supported", JBool false); ("reason", JStr "host_supplied")]
  else throw ValueError ("unsupported cluster operation: " +:+ op).

(** The caller is this node or a paired one. *)
Definition paired (r : R) (c : Cluster.t) (caller : NodeId) : bool :=
  negb (_loaded r) || bool_decide (caller = default (Cluster.local_id c) (_identity r))
  || PairingManager.can_join_cluster (Runtime.pairing r) caller.

Definition dispatch_role_request (request : RemoteRequest.t) : M W dict :=
  let op := RemoteRequest.op request in
  let params := RemoteRequest.params request in
  c ← _require_cluster;
  r ← runtime;
  caller ← lift (of_option (RemoteRequest.caller_node_id request) PermissionError
                   "cluster operation has no caller identity");
  throw_if (negb (paired r c caller)) PermissionError "cluster operation requires an authenticated Pair";;
  cluster_id ← lift (text_param "cluster_id" params);
  epoch ← lift (int_param "epoch" params);
  token ← lift (text_param "fencing_token" params);
  lift (Cluster.authorize c cluster_id epoch token);;
  current ← now;
  if bool_decide (op = "consume_invite") then dispatch_consume_invite params caller current c
  else actor ← lift (of_option (od_get caller (Cluster.assignments c)) PermissionError
                       "caller is not a cluster member");
       state ← lift (RoleState.__post_init__ (Cluster.assignments c).*2 (Some (Cluster.epoch c)) ∅
                       (_cluster_capability_grants r));
       dispatch_member op params caller actor state current c.

(** ** The local operations *)

(** The topology the failover coordinator publishes is made the cluster's own, saved, and
    given to the service and the registry.  It has an epoch: the coordinator starts from the
    cluster's, and no decision removes it. *)
Definition _persist_failover_state (state : RoleState.t) : M W () :=
  previous ← _require_cluster;
  r ← runtime;
  match RoleState.epoch state with
  | None => throw AttributeError "no epoch"
  | Some epoch =>
      let grants := RoleState.capability_grants state in
      let c := with_grants (with_members (with_epoch previous epoch) (RoleState.assignments state)) grants in
      let c := Cluster.mk (Cluster.local_id c) (Cluster.cluster_id c) (Cluster.epoch c) (Cluster.assignments c)
                 (Cluster._online c) (Cluster._invites c) (Cluster._join_admissions c)
                 (Cluster._used_invites c) (RoleState.promotion_epochs state) (Cluster.capability_grants c) in
      put_state c grants;;
      persisted ← _save_persisted_state;
      if negb persisted
      then put_state previous (_cluster_capability_grants r);;
           throw RuntimeError "failover state was not durably persisted"
      else (if _service r then install_fence c else mret ());;
           _hydrate_registry_membership;;
           _refresh_live_grants
  end.

(** A method of the failover coordinator: what it persists to is the world. *)
Definition on_failover {A} (m : M (FailoverCoordinator.t W) A) : M W A := λ w,
  match _failover_coordinator (outside w) with
  | None => (w, raise RuntimeError "cluster failover is unavailable")
  | Some state =>
      let '(f, r) := m (FailoverCoordinator.mk state w) in
      let w := FailoverCoordinator.durable f in
      (mkWorld (svc w) (ticks w) (Runtime.set_failover (outside w) (FailoverCoordinator.state f)), r)
  end.

Definition persist : option (W → RoleState.t → W * result ()) := Some (λ w state, _persist_failover_state state w).

Definition _require_failover : M W () :=
  r ← runtime;
  throw_if (match _failover_coordinator r with None => true | Some _ => false end) RuntimeError
    "cluster failover is unavailable".

(** [fresh] is the fencing token drawn for a promotion. *)
Definition promote_if_due (current : float) (fresh : string) : M W bool :=
  on_failover (FailoverCoordinator.promote_if_due persist current fresh).

Definition heartbeat (coordinator_id : NodeId) (fencing_token : string) (current : float) : M W bool :=
  on_failover (FailoverCoordinator.heartbeat persist coordinator_id fencing_token current).

Definition rejoin_as_worker (node_id : NodeId) (current_epoch : Z) : M W () :=
  on_failover (FailoverCoordinator.rejoin_as_worker persist node_id current_epoch).

Definition assign_role (target_node_id : NodeId) (role : ClusterRole) : M W RoleAssignment :=
  c ← _require_cluster;
  _require_failover;;
  actor ← lift (Cluster.local_assignment c);
  current ← now;
  change ← on_failover (FailoverCoordinator.assign_role persist actor target_node_id {[role]} current);
  mret (RoleChange.assignment change).

Definition revoke_member (target_node_id : NodeId) : M W () :=
  c ← _require_cluster;
  _require_failover;;
  actor ← lift (Cluster.local_assignment c);
  on_failover (FailoverCoordinator.revoke_member persist actor target_node_id).

(** [ttl_seconds] other than the default is refused; [token] is drawn. *)
Definition create_invite (target_node_id : NodeId) (ttl_seconds : float) (token : string) : M W InviteRecord.t :=
  c ← _require_cluster;
  throw_if (negb (feqb ttl_seconds DEFAULT_INVITE_TTL)) ValueError "custom invite TTL is not supported";;
  current ← now;
  let '(c', invite) := Cluster.create_invite sha256_hex target_node_id current token c in
  put_cluster c';;
  invite ← lift invite;
  persisted ← _save_persisted_state;
  if negb persisted
  then put_cluster (Cluster.set_invites c' (od_pop (InviteRecord.token invite) (Cluster._invites c')));;
       throw RuntimeError "cluster invite was not durably persisted"
  else mret invite.

(** ** [join_cluster] *)

(** The answer to a join is the invite's own terms for this node. *)
Definition join_response_ok (local : NodeId) (invite : InviteRecord.t) (d : dict) : result bool :=
  let text key (s : string) := match jget key d with JStr t => bool_decide (t = s) | _ => false end in
  if negb (bool_decide (list_to_set d.*1 =@{gset string}
             {["target_node_id"; "expires_at"; "cluster_id"; "coordinator_id"; "epoch"; "fencing_token"]}))
     || negb (text "target_node_id" (value local)) || negb (text "cluster_id" (InviteRecord.cluster_id invite))
     || negb (text "coordinator_id" (InviteRecord.coordinator_id invite))
  then Ok false
  else match jget "epoch" d, jget "fencing_token" d with
       | JInt e, JStr token =>
           if (e <? 0)%Z || negb (e =? InviteRecord.epoch invite)%Z || bool_decide (token = "")
              || negb (bool_decide (token = InviteRecord.fencing_token invite))
              || negb (is_number (jget "expires_at" d))
           then Ok false
           else expiry ← to_float (jget "expires_at" d);
                Ok (isfinite expiry && feqb expiry (InviteRecord.expires_at invite))
       | _, _ => Ok false
       end.

(** [peer_id] is the node of the provider; [consume] is its request to the Coordinator. *)
Definition join_cluster (peer_id : NodeId) (consume : InviteRecord.t → M W json) (invite : InviteRecord.t)
    : M W dict :=
  c ← _require_cluster;
  pairing ← _require_pairing;
  throw_if (negb (PairingManager.can_join_cluster pairing peer_id)) PermissionError
    "cluster Join requires an authenticated Pair";;
  r ← runtime;
  local ← lift (of_option (_identity r) RuntimeError "identity is unavailable");
  response ← consume invite;
  response ← lift (of_option (is_obj response) TypeError "cluster Join response is malformed");
  fine ← lift (join_response_ok local invite response);
  throw_if (negb fine) ValueError "cluster Join response is malformed";;
  outcome ← outcome (
    coordinator ← lift (NodeId.__post_init__ (InviteRecord.coordinator_id invite));
    epoch ← lift (CoordinatorEpoch.__post_init__ (InviteRecord.epoch invite) coordinator
                    (InviteRecord.fencing_token invite) (CoordinatorEpoch.issued_at (Cluster.epoch c))
                    (CoordinatorEpoch.lease_expires_at (Cluster.epoch c)));
    self ← lift (RoleAssignment.new {[WORKER]} local);
    put_cluster (Cluster.mk (Cluster.local_id c) (InviteRecord.cluster_id invite) epoch [(local, self)]
                   {[local := true]} (Cluster._invites c) (Cluster._join_admissions c)
                   (Cluster._used_invites c) ∅ []);;
    persisted ← _save_persisted_state;
    throw_if (negb persisted) RuntimeError "cluster join was not durably persisted");
  match outcome with
  | Err e => put_cluster c;; lift (Err e)
  | Ok _ => _hydrate_registry_membership;; mret response
  end.
End operations.

(** * The service of a runtime ([_start_components] of [runtime/core.py])

    What the runtime gives the [RemoteService] it builds: role requests are dispatched to its
    cluster, a self-revocation goes to its trust, and the surfaces are its own.  The rest of
    the host is the application's. *)

Import Runtime(_identity, _loaded, network, _connection_manager, _cluster, _cluster_capability_grants,
  _cluster_store, _failover_coordinator, _sharing, _surface_registry, _service).

Section host.
Context (sha256_hex : string → string).
Context {Hc Hs Pr D P : Type}.
Notation R := (Runtime.t Hc Hs Pr).
Notation W := (World R).
Context (clock : nat → float) (write_fails : nat → option exn).

Notation _save_persisted_state := (_save_persisted_state write_fails).

(** [app] is the provider and the capability handlers of the application; the runtime gives
    its service no process manager. *)
Definition runtime_host (r : R) (app : Host W R Hs D P) : Host W R Hs D P :=
  mkHost W R Hs D P
    (match _cluster r with
     | Some _ => Some (dispatch_role_request sha256_hex clock write_fails)
     | None => None
     end)
    (Some (_revoke_self clock write_fails)) (Some _refresh_live_grants)
    (capability_share app) (Some _surface_registry) (surface_run app) None
    (dashboard_snapshot app) (component_summary app) (process_candidates app) (storage_candidates app)
    (idempotency_store app) (await app).

(** The capabilities the service offers. *)
Definition service_capabilities (r : R) (configured : gset NodeCapability) : gset NodeCapability :=
  match _cluster r with Some _ => configured ∪ {[REMOTE_MANAGEMENT_CAP]} | None => configured end.

(** The authority the service starts with. *)
Definition initial_fence (r : R) : Fence.t :=
  match _cluster r with
  | Some c => Fence.mk (Some (Cluster.cluster_id c)) (Some (CoordinatorEpoch.epoch (Cluster.epoch c)))
                (Some (CoordinatorEpoch.fencing_token (Cluster.epoch c)))
  | None => Fence.mk None None None
  end.

(** [RemoteService(...)] of the runtime: the access list, the capability grants and the fence
    are those of the runtime; of [c] the identity and the configuration count.  [stored] is what
    its idempotency store loads. *)
Definition build_service (c : Settings.t) (r : R) (stored : option json)
    (idempotency_clock : nat → float) : result RemoteService.t :=
  grants ← _wire_grants r;
  RemoteService.__init__ sha256_hex
    (Settings.mk (Settings._node_id c) (Settings._display_name c) (Settings._hostname c)
       (Settings._platform c) ONLINE (service_capabilities r (Settings._capabilities c)) None
       (node_identity_fingerprint sha256_hex (value (Settings._node_id c)))
       (Settings._transport_fingerprint c) (Settings._root_public_key c) (Settings._transport_generation c)
       (Settings._transport_proof c) (Settings._secret c) (Settings._app_version c)
       DEFAULT_FRESHNESS_SECONDS ∅ false)
    None (Some grants) (_cluster_capability_grants r) (initial_fence r) (flit 300) 4096 stored
    idempotency_clock.
End host.
