(* ===== verification/RuntimeFacts.v ===== *)
(** * What the methods of a runtime leave alone

    The frames the theorems about the runtime compose: which of its methods keep the cluster,
    its grants and their saved copy. *)

From S2P Require Import Prelude PyFloat Identity ClusterModels Roles RolesFacts Failover Operations Sharing ConnectionState NodeRegistry PyJson Wire Caches Envelope Session StateCodec Pairing Surfaces RemoteModels Service Documents TrustCodec TrustCodecSpec Candidates Connections PairingFlow Runtime RuntimePairing RoleDispatch.
Import Runtime(_identity, _loaded, network, _connection_manager, _pending_permissions, _cluster,
  _cluster_capability_grants, _cluster_store, _failover_coordinator, _sharing, _surface_registry, _service,
  _persistence_ready, _generation, started, trust_file, cluster_file).
Abbreviation dict := (list (string * json)) (only parsing).

Section facts.
Context {Cap Srf Pr : Type}.
Notation R := (Runtime.t Cap Srf Pr).
Notation W := (World R).
Context (clock : nat → float) (write_fails : nat → option exn).
Notation save := (_save_persisted_state write_fails).
Implicit Types (w : W) (r : R) (c : Cluster.t).

(** ** What the parts of an operation leave alone *)

(** The cluster, the grants kept for it, and what is needed to reach them. *)
Record same_cluster w w' : Prop := {
  same_cluster_ : _cluster (outside w') = _cluster (outside w);
  same_grants : _cluster_capability_grants (outside w') = _cluster_capability_grants (outside w);
  same_store : _cluster_store (outside w') = _cluster_store (outside w);
  same_service : _service (outside w') = _service (outside w) }.

(** And the saved copy of the cluster. *)
Record undisturbed w w' : Prop := {
  undisturbed_cluster : same_cluster w w';
  undisturbed_file : cluster_file (outside w') = cluster_file (outside w) }.

#[global] Instance same_cluster_refl : Reflexive same_cluster.
Proof. by split. Qed.
#[global] Instance same_cluster_trans : Transitive same_cluster.
Proof. intros w1 w2 w3 [] []. split; congruence. Qed.
#[global] Instance undisturbed_refl : Reflexive undisturbed.
Proof. by split. Qed.
#[global] Instance undisturbed_trans : Transitive undisturbed.
Proof. intros w1 w2 w3 [] []. split; [by etrans|congruence]. Qed.

#[global] Instance runtime_undisturbed : Keeps undisturbed (runtime (Hc := Cap) (Hs := Srf) (Pr := Pr)).
Proof. by intros w. Qed.
#[global] Instance now_undisturbed : Keeps undisturbed (now clock (X := R)).
Proof. by intros w. Qed.
#[global] Instance service_undisturbed {A} (m : M RemoteService.t A) :
  Keeps undisturbed (on_service m : M W A).
Proof. intros w. unfold on_service. by destruct (m _). Qed.
#[global] Instance net_undisturbed {A} (m : M (Network.t Pr) A) : Keeps undisturbed (on_net m : M W A).
Proof. intros w. unfold on_net. by destruct (m _). Qed.
#[global] Instance registry_undisturbed {A} (m : M NodeRegistry.t A) :
  Keeps undisturbed (on_registry m : M W A).
Proof. apply _. Qed.

#[global] Instance refresh_undisturbed : Keeps undisturbed (_refresh_live_grants : M W ()).
Proof. unfold _refresh_live_grants. keeps. Qed.
#[global] Instance member_undisturbed c n a : Keeps undisturbed (hydrate_member c n a : M W ()).
Proof. unfold hydrate_member. keeps. Qed.
#[global] Instance members_undisturbed c l : Keeps undisturbed (hydrate_members c l : M W ()).
Proof. induction l as [|[n a] l IH]; simpl; keeps. Qed.
#[global] Instance hydrate_undisturbed : Keeps undisturbed (_hydrate_registry_membership : M W ()).
Proof. unfold _hydrate_registry_membership. keeps. Qed.
#[global] Instance fence_undisturbed c : Keeps undisturbed (install_fence c : M W ()).
Proof. apply _. Qed.
#[global] Instance disconnect_undisturbed p reason : Keeps undisturbed (disconnect clock p reason : M W ()).
Proof. unfold disconnect, Connections.disconnect, forget_provider, set_state. keeps. Qed.

#[global] Instance require_undisturbed : Keeps undisturbed (_require_cluster : M W Cluster.t).
Proof. unfold _require_cluster. keeps. Qed.
Lemma require_cluster_run w c w1 a : _cluster (outside w) = Some c →
  _require_cluster w = (w1, Ok a) → w1 = w ∧ a = c.
Proof.
  unfold _require_cluster. intros Hc Hr. rewrite M_bind_run in Hr. simpl in Hr. rewrite Hc in Hr.
  injection Hr as <- <-. done.
Qed.

(** ** A save changes the files only *)

#[global] Instance write_same f : (∀ r, _cluster (f r) = _cluster r) →
  (∀ r, _cluster_capability_grants (f r) = _cluster_capability_grants r) →
  (∀ r, _cluster_store (f r) = _cluster_store r) → (∀ r, _service (f r) = _service r) →
  Keeps same_cluster (write write_fails f : M W ()).
Proof. intros E1 E2 E3 E4 w. unfold write. destruct (write_fails _); simpl; by split; simpl. Qed.
#[global] Instance runtime_same : Keeps same_cluster (runtime (Hc := Cap) (Hs := Srf) (Pr := Pr)).
Proof. by intros w. Qed.
#[global] Instance saved_same (m : M W ()) : Keeps same_cluster m → Keeps same_cluster (saved m).
Proof. intros Hm. unfold saved. keeps. Qed.
#[global] Instance save_same : Keeps same_cluster (save : M W bool).
Proof.
  unfold _save_persisted_state, save_trust, save_cluster.
  repeat first [apply keeps_bind; [apply _..| |intros]|apply saved_same|apply write_same; done|apply _|case_match].
Qed.

(** The cluster and the runtime's grants are those of before. *)
Definition unchanged w w' : Prop :=
  _cluster (outside w') = _cluster (outside w) ∧
  _cluster_capability_grants (outside w') = _cluster_capability_grants (outside w).

Lemma undisturbed_unchanged w w' : undisturbed w w' → unchanged w w'.
Proof. intros [[] _]. by split. Qed.

Lemma saved_true (m : M W ()) w w' : saved m w = (w', Ok true) → m w = (w', Ok ()).
Proof.
  unfold saved, attempt. rewrite M_bind_run. destruct (m w) as [w1 [[]|e]]; simpl.
  - unfold mret, M_ret. naive_solver.
  - destruct (_ || _ || _); unfold mret, M_ret, lift; naive_solver.
Qed.

End facts.

(** * A concrete runtime

    The node [s] of the sample cluster, paired with the Coordinator [c]: the state, the
    service and the requests at which the theorems about the runtime are instantiated. *)

Notation SampleRuntime := (Runtime.t unit unit string).

Definition sample_cluster : Cluster.t :=
  Cluster.mk node_s "k" sample_epoch
    [(node_c, as_coordinator); (node_s, as_subcoordinator); (node_w, as_worker)] ∅ [] [] ∅ ∅ [sample_grant].

(** A credential of 64 hexadecimal digits. *)
Definition sample_secret : string := "00112233445566778899aabbccddeeff00112233445566778899aabbccddeeff".

Definition paired_coordinator : PairingManager.t :=
  PairingManager.set_grants (PairingManager.__init__ node_s (flit 300))
    {[node_c := PeerGrant.mk node_c sample_secret {[Permission.Text "remote_management"]} Material.none]}.

Definition sample_network : Network.t string :=
  Network.mk paired_coordinator (NodeRegistry.__init__ node_s true) [] (ConnectionManager.__init__ node_s).

Definition sample_runtime : SampleRuntime :=
  Runtime.mk _ _ _ (Some node_s) true sample_network true ∅ (Some sample_cluster) [sample_grant] true
    (Some sample_state) CapabilityShare.__init__ SurfaceRegistry.__init__ true true 1 true None None.

(** The service of that node, with the coordinator's grant in its access list. *)
Definition node_settings : Settings.t :=
  Settings.mk node_s "S" "host" None ONLINE {[READ_STATE_CAP; REMOTE_MANAGEMENT_CAP]}
    None "print" None None None None "secret" "1.0" (flit 60) ∅ false.
Definition node_service : RemoteService.t :=
  RemoteService.mk node_settings true
    {[node_c := Wire.PeerGrant.mk node_c sample_secret {[REMOTE_MANAGEMENT]} None]} [sample_grant] 7
    (ReplayCache.__init__ (flit 300) 8) (Fence.mk (Some "k") (Some 1%Z) (Some "token")) ∅
    (IdempotencyCache.mk (flit 300) 8 []) (LogicalSessionRegistry.mk (flit 600) 8 8 ∅ []).

Definition sample_world : World SampleRuntime := mkWorld node_service 0 sample_runtime.

(** An application that does nothing of its own. *)
Definition quiet_app : Host (World SampleRuntime) SampleRuntime unit string string :=
  mkHost _ _ _ _ _ None None None None None (λ _ _ _, mret JNull) None
    (mret (DashboardSnapshot.mk "label" "now" []))
    (λ _, throw RuntimeError "no components") (mret []) (mret []) None
    (λ _ w, (w, IdempotencyCache.mkEntry "" (flit 0) true None None true)).

Definition sample_clock (n : nat) : float := flit 110.
Definition no_failure (n : nat) : option exn := None.
(** The second write fails: the trust file is saved, the cluster's is not. *)
Definition disk_full (n : nat) : option exn := if Nat.eqb n 2 then Some (Exn OSError "disk full") else None.

(** The authority of the Coordinator, and a change of a member's role. *)
Definition authority : dict :=
  [("cluster_id", JStr "k"); ("epoch", JInt 1); ("fencing_token", JStr "token")].
Definition role_request (op : string) (params : dict) : RemoteRequest.t :=
  RemoteRequest.mk node_s (Some node_c) op (authority ++ params) "r1" "n1" (flit 100) (Some "s1") false None.
Definition revoke_request : RemoteRequest.t := role_request "revoke_worker" [("target_node_id", JStr "w")].

Definition sample_dispatch (fails : nat → option exn) (request : RemoteRequest.t) :=
  dispatch_role_request (λ s, s) sample_clock fails request sample_world.

(** * What the methods of a runtime leave of its trust

    Which steps keep the trust, the file it is saved in and the access list of the service;
    what a save that succeeds has written, and what a refresh tells the service. *)

Import Runtime(_identity, _loaded, network, _connection_manager, _pending_permissions, _cluster,
  _cluster_capability_grants, _cluster_store, _failover_coordinator, _sharing, _surface_registry, _service,
  _persistence_ready, _generation, started, trust_file, cluster_file).
Import PairingManager(grants, trusted, pending).

Section spec.
Context {Cap Srf Pr : Type}.
Notation R := (Runtime.t Cap Srf Pr).
Notation W := (World R).
Context (clock : nat → float) (write_fails : nat → option exn).
Implicit Types (w : W) (r : R).

Notation pairing w := (Runtime.pairing (outside w)).
Notation save := (_save_persisted_state write_fails).

(** ** What the methods leave alone *)

(** The trust, the permissions asked for, the shares and the service. *)
Record trust_kept w w' : Prop := {
  kept_pairing : pairing w' = pairing w;
  kept_asked : _pending_permissions (outside w') = _pending_permissions (outside w);
  kept_sharing : _sharing (outside w') = _sharing (outside w);
  kept_service : svc w' = svc w;
  kept_flag : _service (outside w') = _service (outside w);
  kept_loaded : _loaded (outside w') = _loaded (outside w) }.
#[global] Instance kept_refl : Reflexive trust_kept.
Proof. by split. Qed.
#[global] Instance kept_trans : Transitive trust_kept.
Proof. intros w1 w2 w3 [] []. split; congruence. Qed.

#[global] Instance runtime_trust : Keeps trust_kept (runtime (Hc := Cap) (Hs := Srf) (Pr := Pr)).
Proof. by intros w. Qed.
#[global] Instance now_trust : Keeps trust_kept (now clock (X := R)).
Proof. by intros w. Qed.
#[global] Instance write_trust f : (∀ r, Runtime.pairing (f r) = Runtime.pairing r) →
  (∀ r, _pending_permissions (f r) = _pending_permissions r) → (∀ r, _sharing (f r) = _sharing r) →
  (∀ r, _service (f r) = _service r) → (∀ r, _loaded (f r) = _loaded r) →
  Keeps trust_kept (write write_fails f : M W ()).
Proof. intros E1 E2 E3 E4 E5 w. unfold write. destruct (write_fails _); by split; simpl. Qed.
#[global] Instance saved_trust (m : M W ()) : Keeps trust_kept m → Keeps trust_kept (saved m).
Proof. intros Hm. unfold saved. apply keeps_attempt; [apply _..|]. intros e. case_match; apply _. Qed.
#[global] Instance save_keeps_trust : Keeps trust_kept (save : M W bool).
Proof.
  unfold _save_persisted_state, save_trust, save_cluster.
  repeat first [apply (keeps_bind trust_kept); [|intros]|apply saved_trust|by apply write_trust|apply _|case_match].
Qed.
Lemma on_net_trust {A} (m : M (Network.t Pr) A) : (∀ n, Network.pairing (m n).1 = Network.pairing n) →
  Keeps trust_kept (on_net m : M W A).
Proof.
  intros Hm w. unfold on_net. pose proof (Hm (net w)) as E. destruct (m (net w)) as [n res]. by split.
Qed.
Lemma on_registry_same {A} (m : M NodeRegistry.t A) (n : Network.t Pr) :
  Network.pairing (Network.on_registry m n).1 = Network.pairing n.
Proof. unfold Network.on_registry. by destruct (m _). Qed.
#[global] Instance on_registry_trust {A} (m : M NodeRegistry.t A) : Keeps trust_kept (on_registry m : M W A).
Proof. apply on_net_trust. intros n. apply on_registry_same. Qed.
#[global] Instance on_manager_trust (f : ConnectionManager.t Pr → ConnectionManager.t Pr) :
  Keeps trust_kept (on_net (Network.on_manager f) : M W ()).
Proof. by apply on_net_trust. Qed.
#[global] Instance set_state_trust p state : Keeps trust_kept (on_net (Network._set_state p state) : M W ()).
Proof.
  apply on_net_trust. intros n. unfold Network._set_state. case_match; [|done]. rewrite M_bind_run.
  pose proof (on_registry_same (NodeRegistry.set_connection p state) n) as E.
  destruct (Network.on_registry _ n) as [n' [r|e]]; exact E.
Qed.
#[global] Instance disconnect_trust p reason : Keeps trust_kept (disconnect clock p reason : M W ()).
Proof. unfold disconnect, Connections.disconnect, forget_provider, set_state. keeps. Qed.
#[global] Instance project_trust p : Keeps trust_kept (_project_registry_trust p : M W ()).
Proof. unfold _project_registry_trust. keeps. Qed.

(** A method that changes the trust, and nothing the trust is read with. *)
Lemma saved_trust_Ok w w' : save w = (w', Ok true) →
  trust_kept w w' ∧ ∃ d, migrate_state "trust" (trust_document (pairing w) (_pending_permissions (outside w))) = Ok d ∧
    trust_file (outside w') = Some d.
Proof.
  intros Hs. split; [by apply (keeps_run trust_kept _ _ _ _ Hs)|].
  unfold _save_persisted_state in Hs. apply M_bind_Ok in Hs as (? & r & [= <- <-] & Hs).
  destruct (_ || _); [by apply mret_run in Hs as [_ ?]|].
  apply M_bind_Ok in Hs as (w1 & b & Ht & Hs).
  assert (b = true → ∃ d, migrate_state "trust" (trust_document (pairing w) (_pending_permissions (outside w))) = Ok d ∧
    trust_file (outside w1) = Some d) as Hfile.
  { intros ->. apply saved_true in Ht. unfold save_trust in Ht.
    apply M_bind_Ok in Ht as (? & d & [-> Hd]%lift_Ok & Hw). exists d. split; [done|].
    unfold write in Hw. destruct (write_fails _); [done|]. by injection Hw as <-. }
  destruct (_cluster (outside w)) as [c|].
  - apply M_bind_Ok in Hs as (w2 & b2 & Hc & [-> Hb]%mret_run). apply andb_true_iff in Hb as [-> ->].
    destruct (Hfile eq_refl) as (d & Hd & Hf). exists d. split; [done|].
    apply saved_true in Hc. unfold save_cluster in Hc.
    apply M_bind_Ok in Hc as (? & j & [-> _]%lift_Ok & Hw). unfold write in Hw.
    destruct (write_fails _); [done|]. by injection Hw as <-.
  - apply mret_run in Hs as [-> ->]. auto.
Qed.

(** ** The live access list *)

Lemma wire_grants_None r wg k : _wire_grants r = Ok wg → _loaded r = true →
  wg !! k = None ↔ grants (Runtime.pairing r) !! k = None.
Proof.
  unfold _wire_grants. intros Hw Hl. rewrite Hl in Hw. cbn [negb] in Hw. apply bind_Ok in Hw as (l & Hm & [= <-]).
  assert (l.*1 = (map_to_list (grants (Runtime.pairing r))).*1) as Hk.
  { apply mapM_Ok_inv in Hm. induction Hm as [|[k1 g] [k2 x] ?? E _ IH]; [done|]. cbn [fmap list_fmap fst].
    rewrite IH. apply bind_Ok in E as (? & _ & [= <- _]). done. }
  rewrite <- not_elem_of_list_to_map, Hk, not_elem_of_list_to_map, list_to_map_to_list. done.
Qed.

(** A runtime's service knows the callers its trust knows. *)
Lemma refresh_lists w w' : _refresh_live_grants w = (w', Ok ()) → _service (outside w) = true →
  _loaded (outside w) = true →
  outside w' = outside w ∧ RemoteService._grant_mode (svc w') = true ∧
  ∀ k, RemoteService._grants (svc w') !! k = None ↔ grants (pairing w) !! k = None.
Proof.
  unfold _refresh_live_grants. intros Hr Hs Hl. rewrite M_bind_run in Hr. cbn [runtime] in Hr. rewrite Hs in Hr.
  cbn [negb] in Hr.
  apply M_bind_Ok in Hr as (? & wg & [-> Hg]%lift_Ok & Hr). apply M_bind_Ok in Hr as (w1 & [] & H1 & Hr).
  unfold on_service, RemoteService.update_grants in H1.
  destruct (RemoteService.validate_grants wg); [|done]. injection H1 as <-.
  unfold on_service, RemoteService.update_cluster_capability_grants in Hr. injection Hr as <-.
  split_and!; try done. intros k. by apply wire_grants_None.
Qed.

Lemma refresh_outside w w' res : _refresh_live_grants w = (w', res) → outside w' = outside w.
Proof.
  unfold _refresh_live_grants. intros Hr. rewrite M_bind_run in Hr. cbn [runtime] in Hr.
  destruct (negb _); [unfold mret, M_ret in Hr; by simplify_eq|]. rewrite M_bind_run in Hr.
  destruct (lift (_wire_grants _) w) as [w1 r1] eqn:E. assert (w1 = w) as -> by (unfold lift in E; by destruct (_wire_grants _); simplify_eq).
  destruct r1; [|by simplify_eq]. rewrite M_bind_run in Hr. unfold on_service, RemoteService.update_grants in Hr.
  destruct (RemoteService.validate_grants _); [|by simplify_eq]. by injection Hr as <- _.
Qed.
Lemma require_pairing_run w : _loaded (outside w) = true → _require_pairing w = (w, Ok (pairing w)).
Proof. intros Hl. unfold _require_pairing. rewrite M_bind_run. cbn [runtime]. by rewrite M_bind_run, Hl. Qed.

(** Restoring a snapshot of the manager of the same node. *)
Lemma restore_pairing (m : PairingManager.t) w w' res :
  PairingManager.local_id (pairing w) = PairingManager.local_id m →
  PairingManager._ttl (pairing w) = PairingManager._ttl m →
  restore m w = (w', res) → pairing w' = m ∧ svc w' = svc w.
Proof.
  unfold restore. cbn [update]. intros E1 E2 [= <- _]. split; [|done].
  destruct m. unfold Runtime.pairing, Runtime.set_pairing, PairingManager.restore_snapshot. simpl in *. by subst.
Qed.

(** Steps that keep the trust, its file and the access list of the service. *)
Record file_kept w w' : Prop := {
  file_trust : trust_kept w w';
  file_same : trust_file (outside w') = trust_file (outside w) }.
#[global] Instance file_refl : Reflexive file_kept.
Proof. by split. Qed.
#[global] Instance file_trans : Transitive file_kept.
Proof. intros w1 w2 w3 [] []. split; [by etrans|congruence]. Qed.
#[global] Instance runtime_file : Keeps file_kept (runtime (Hc := Cap) (Hs := Srf) (Pr := Pr)).
Proof. by intros w. Qed.
#[global] Instance now_file : Keeps file_kept (now clock (X := R)).
Proof. by intros w. Qed.
#[global] Instance on_net_file {A} (m : M (Network.t Pr) A) :
  Keeps trust_kept (on_net m : M W A) → Keeps file_kept (on_net m : M W A).
Proof. intros Hm w. split; [apply Hm|]. unfold on_net. by destruct (m (net w)). Qed.
#[global] Instance on_registry_file {A} (m : M NodeRegistry.t A) : Keeps file_kept (on_registry m : M W A).
Proof. apply on_net_file, on_registry_trust. Qed.
#[global] Instance disconnect_file p reason : Keeps file_kept (disconnect clock p reason : M W ()).
Proof. unfold disconnect, Connections.disconnect, forget_provider, set_state. keeps. Qed.
#[global] Instance candidates_file f :
  Keeps file_kept (update (λ r, Runtime.set_network r (Network.set_candidates (network r) (f r))) : M W ()).
Proof. by intros w. Qed.
End spec.
