(* ===== verification/RuntimeLoad.v ===== *)
(** * Loading a runtime from its files ([runtime/core.py], [cluster/persistence.py])

    [_load_persisted_state]: a runtime that has its identity makes its pairing manager, registry,
    cluster and connection manager and fills them from [trust.yaml] and [cluster.yaml].  What
    is loaded is loaded one record after the other, so a bad record leaves what came before
    it.  Opening the transport generations, which are another component's, may fail.
    [restart_restores]: what was saved is what a new process has. *)

From S2P Require Import Prelude PyFloat Identity ClusterModels Roles RolesFacts Operations OperationsSpec Sharing ConnectionState NodeRegistry PyJson StateCodec Wire Pairing Surfaces Candidates Connections Service Stores Documents TrustCodec TrustCodecSpec Runtime RuntimeFacts.
Import Runtime(_identity, _loaded, network, _connection_manager, _pending_permissions, _cluster, _cluster_capability_grants,
  _cluster_store, _failover_coordinator, _sharing, _surface_registry, _service, _persistence_ready,
  _generation, started, trust_file, cluster_file).
Abbreviation dict := (list (string * json)) (only parsing).

Section load.
Context {Hc Hs Pr : Type}.
Notation R := (Runtime.t Hc Hs Pr).
Notation W := (World R).
Context (clock : nat → float) (sha256_hex : string → string).
Context (float_repr : float → string) (container_repr : json → string).
(** [config.cluster_enabled], the constructor of the transport generations, and the values drawn
    for a new cluster. *)
Context (cluster_enabled : bool) (open_transport : result ()) (fresh_id fresh_token : string).

(** ** The fields it sets *)

Definition set_ready (b : bool) (r : R) : R :=
  Runtime.mk _ _ _ (_identity r) (_loaded r) (network r) (_connection_manager r) (_pending_permissions r) (_cluster r)
    (_cluster_capability_grants r) (_cluster_store r) (_failover_coordinator r) (_sharing r) (_surface_registry r)
    (_service r) b (_generation r) (started r) (trust_file r) (cluster_file r).

(** [_pairing] and [_registry] are made; the table of candidates stays. *)
Definition new_network (node : NodeId) (r : R) : R :=
  Runtime.mk _ _ _ (_identity r) true
    (Network.mk (PairingManager.__init__ node (flit 300)) (NodeRegistry.__init__ node cluster_enabled)
       (Network.candidates (network r)) (Network.manager (network r)))
    (_connection_manager r) (_pending_permissions r) (_cluster r) (_cluster_capability_grants r) (_cluster_store r)
    (_failover_coordinator r) (_sharing r) (_surface_registry r) (_service r) (_persistence_ready r) (_generation r)
    (started r) (trust_file r) (cluster_file r).

Definition has_store (r : R) : R :=
  Runtime.mk _ _ _ (_identity r) (_loaded r) (network r) (_connection_manager r) (_pending_permissions r) (_cluster r)
    (_cluster_capability_grants r) true (_failover_coordinator r) (_sharing r) (_surface_registry r)
    (_service r) (_persistence_ready r) (_generation r) (started r) (trust_file r) (cluster_file r).

Definition new_manager (node : NodeId) (r : R) : R :=
  Runtime.mk _ _ _ (_identity r) (_loaded r) (Network.set_manager (network r) (ConnectionManager.__init__ node)) true
    (_pending_permissions r) (_cluster r) (_cluster_capability_grants r) (_cluster_store r) (_failover_coordinator r)
    (_sharing r) (_surface_registry r) (_service r) (_persistence_ready r) (_generation r) (started r)
    (trust_file r) (cluster_file r).

(** ** The cluster *)

(** [ClusterStore.load] of the file's document. *)
Definition cluster_store_load (document : json) : result ClusterState.t :=
  reraise [KeyError; TypeError; ValueError; OverflowError] (from_dict sha256_hex document) ClusterDataError
    "persisted cluster state is invalid".

Definition load_cluster (node : NodeId) : M W () :=
  update has_store;;
  r ← runtime;
  match cluster_file r with
  | Some document =>
      persisted ← lift (cluster_store_load document);
      current ← now clock;
      c ← lift (Cluster.from_state node persisted current fresh_id fresh_token);
      update (λ r, Runtime.set_cluster r c (ClusterState.capability_grants persisted))
  | None =>
      current ← now clock;
      c ← lift (Cluster.__init__ node current fresh_id fresh_token);
      update (λ r, Runtime.set_cluster r c (_cluster_capability_grants r))
  end;;
  r ← runtime;
  match _cluster r with
  | Some c => state ← lift (Cluster._role_state c); update (λ r, Runtime.set_failover r state)
  | None => mret ()
  end.

(** ** Trust *)

(** [for raw in document.get(name, []): x = read(raw); put x] *)
Fixpoint load_each {A} (read : json → result A) (put : A → R → R) (l : list json) : M W () :=
  match l with
  | [] => mret ()
  | raw :: l => x ← lift (read raw); update (put x);; load_each read put l
  end.

Definition put_grant (g : PeerGrant.t) (r : R) : R :=
  let m := Runtime.pairing r in
  Runtime.set_pairing r (PairingManager.set_grants m (<[PeerGrant.caller_id g := g]> (PairingManager.grants m))).
Definition put_trusted (p : TrustedPeer.t) (r : R) : R :=
  let m := Runtime.pairing r in
  Runtime.set_pairing r (PairingManager.set_trusted m (<[TrustedPeer.peer_id p := p]> (PairingManager.trusted m))).
Definition put_pending (x : PendingPairing.t * gset string) (r : R) : R :=
  let m := Runtime.pairing r in
  let id := PendingPairing.transaction_id x.1 in
  Runtime.set_pending (Runtime.set_pairing r (PairingManager.set_pending m (od_set id x.1 (PairingManager.pending m))))
    (<[id := x.2]> (_pending_permissions r)).

(** The grants the wire would have are only computed. *)
Definition load_trust_file : M W () :=
  r ← runtime;
  match trust_file r with
  | None => mret ()
  | Some stored =>
      document ← lift (migrate_state "trust" stored);
      raw ← lift (items "grants" document);
      load_each (peer_grant_from_json float_repr container_repr) put_grant raw;;
      raw ← lift (items "trusted" document);
      load_each (trusted_peer_from_json float_repr container_repr) put_trusted raw;;
      raw ← lift (items "pending" document);
      load_each (pending_pairing_from_json float_repr container_repr) put_pending raw;;
      r ← runtime;
      _ ← lift (_wire_grants r);
      mret ()
  end.

(** ** All of it *)

Definition _load_persisted_state : M W () :=
  r ← runtime;
  node ← lift (of_option (_identity r) RuntimeError "identity must be loaded first");
  update (set_ready false);;
  update (new_network node);;
  (if cluster_enabled then load_cluster node else mret ());;
  load_trust_file;;
  _hydrate_registry_membership;;
  update (new_manager node);;
  lift open_transport;;
  update (set_ready true).
End load.

(** ** Hydration *)

Section hydration.
Context {Cap Srf Pr : Type}.
Notation R := (Runtime.t Cap Srf Pr).
Notation W := (World R).

Definition reg (w : W) : NodeRegistry.t := Network.registry (network (outside w)).

(** A registry that knows its own node and no revocation. *)
Definition calm (g : NodeRegistry.t) : Prop :=
  is_Some (NodeRegistry.record g (NodeRegistry.local_node_id g)) ∧
  ∀ n x, NodeRegistry.record g n = Some x → NodeRecord.trust x ≠ TrustState.REVOKED.

(** Nothing changed but the registry. *)
Definition registered (w w' : W) : Prop :=
  w' = mkWorld (svc w) (ticks w)
         (Runtime.set_network (outside w) (Network.set_registry (network (outside w)) (reg w'))).

Lemma registered_refl w : registered w w.
Proof. by destruct w as [s t [? ? [] ? ? ? ? ? ? ? ? ? ? ? ? ? ?]]. Qed.
Lemma registered_trans w1 w2 w3 : registered w1 w2 → registered w2 w3 → registered w1 w3.
Proof. unfold registered. intros E1 E2. rewrite E2. rewrite E1. done. Qed.

Lemma calm_set g n x : calm g → NodeRecord.trust x ≠ TrustState.REVOKED →
  calm (NodeRegistry.set_record n x g).1 ∧ (NodeRegistry.set_record n x g).2 = Ok x.
Proof.
  intros [Hl Hr] Hx. split; [|done]. split; simpl; unfold NodeRegistry.record; simpl.
  - rewrite od_get_set. case_decide; [by eexists|done].
  - intros m y. rewrite od_get_set. case_decide; [by intros [= <-]|apply Hr].
Qed.

Lemma on_registry_run {A} (m : M NodeRegistry.t A) (w : W) g r : m (reg w) = (g, r) →
  ∃ w', on_registry m w = (w', r) ∧ registered w w' ∧ reg w' = g.
Proof.
  intros E. unfold on_registry, on_net, Network.on_registry. simpl. unfold reg in E. rewrite E.
  eexists. by split_and!.
Qed.

(** The methods of the registry hydration uses return on a known node of a calm registry. *)
Lemma calm_observe g n : calm g → ∃ g' x, NodeRegistry.observe n ∅ g = (g', Ok x) ∧ calm g' ∧
  is_Some (NodeRegistry.record g' n).
Proof.
  intros Hg. unfold NodeRegistry.observe. case_decide as E.
  - destruct Hg as [[x Hx] Hr]. unfold NodeRegistry._require. rewrite E, Hx. exists g, x.
    split_and!; [done|by split|done].
  - set (y := NodeRecord.with_capabilities _ ∅).
    assert (Hy : NodeRecord.trust y ≠ TrustState.REVOKED).
    { unfold y. simpl. destruct (NodeRegistry.record g n) eqn:En; [by eapply Hg|done]. }
    destruct (calm_set g n y Hg Hy) as [H1 H2]. destruct (NodeRegistry.set_record n y g) as [g' r] eqn:Es.
    simpl in H2. subst r. exists g', y. split_and!; [done|done|].
    injection Es as <-. unfold NodeRegistry.record. simpl. rewrite od_get_set_eq. by eexists.
Qed.

Lemma calm_replace g n (x y : NodeRecord.t) : calm g → NodeRegistry.record g n = Some x →
  NodeRecord.trust y ≠ TrustState.REVOKED → ∃ g', NodeRegistry.set_record n y g = (g', Ok y) ∧ calm g' ∧
  is_Some (NodeRegistry.record g' n).
Proof.
  intros Hg Hx Hy. destruct (calm_set g n y Hg Hy) as [H1 _]. eexists. split_and!; [done|done|].
  unfold NodeRegistry.record. simpl. rewrite od_get_set_eq. by eexists.
Qed.

Lemma calm_promote g n : calm g → is_Some (NodeRegistry.record g n) →
  ∃ g' x, NodeRegistry.promote n ∅ g = (g', Ok x) ∧ calm g' ∧ is_Some (NodeRegistry.record g' n).
Proof.
  intros Hg [x Hx]. unfold NodeRegistry.promote. rewrite require_run, Hx.
  rewrite M_bind_run. unfold throw_if. rewrite bool_decide_eq_false_2 by (by eapply Hg).
  cbn [raise_if]. destruct (calm_replace g n x (NodeRecord.with_capabilities (NodeRecord.with_trust x TrustState.AUTHORIZED) ∅) Hg Hx)
    as (g' & E & H1 & H2); [done|]. eexists _, _. split; [exact E|by split].
Qed.

Lemma calm_membership g n role c : calm g → is_Some (NodeRegistry.record g n) →
  ∃ g' x, NodeRegistry.hydrate_membership n role c g = (g', Ok x) ∧ calm g'.
Proof.
  intros Hg [x Hx]. unfold NodeRegistry.hydrate_membership. rewrite require_run, Hx.
  rewrite membership_run, M_bind_run. unfold lift at 1.
  edestruct (calm_replace g n x) as (g' & E & H1 & _); [exact Hg|exact Hx| |eexists _, _; split; [exact E|done]].
  simpl. by eapply Hg.
Qed.

Lemma hydrate_member_Ok c n a (w : W) : calm (reg w) →
  ∃ w', hydrate_member c n a w = (w', Ok ()) ∧ registered w w' ∧ calm (reg w').
Proof.
  intros Hc. unfold hydrate_member. rewrite M_bind_run. unfold runtime at 1. rewrite M_bind_run.
  assert (H1 : ∃ w1, (match NodeRegistry.record (Network.registry (network (outside w))) n with
    | Some _ => mret () | None => on_registry (NodeRegistry.observe n ∅);; mret () end : M W ()) w = (w1, Ok ()) ∧
    registered w w1 ∧ calm (reg w1) ∧ is_Some (NodeRegistry.record (reg w1) n)).
  { destruct (NodeRegistry.record _ n) as [x|] eqn:Ex.
    - exists w. split_and!; [done|apply registered_refl|done|]. unfold reg. rewrite Ex. by eexists.
    - destruct (calm_observe (reg w) n Hc) as (g & x & E & Hg & Hs).
      destruct (on_registry_run _ _ _ _ E) as (w1 & Hrun & Hr & <-). exists w1. rewrite M_bind_run, Hrun. by split_and!. }
  destruct H1 as (w1 & -> & Hr1 & Hc1 & Hs1). rewrite M_bind_run.
  match goal with |- context [(if ?b then ?m else ?k) w1] => set (middle := if b then m else k) end.
  assert (H2 : ∃ w2, middle w1 = (w2, Ok ()) ∧ registered w1 w2 ∧ calm (reg w2) ∧ is_Some (NodeRegistry.record (reg w2) n)).
  { unfold middle. destruct (PairingManager.can_join_cluster _ n); [|exists w1; by split_and!; [|apply registered_refl| |]].
    rewrite M_bind_run. unfold runtime at 1. change (Network.registry (network (outside w1))) with (reg w1).
    destruct (NodeRegistry.record (reg w1) n) as [x|] eqn:Ex; [|exists w1; by split_and!; [|apply registered_refl| |]].
    destruct (bool_decide (NodeRecord.trust x = TrustState.AUTHORIZED));
      [exists w1; rewrite Ex; by split_and!; [|apply registered_refl| |]|].
    destruct (calm_promote (reg w1) n Hc1) as (g & y & E & Hg & Hs); [by rewrite Ex; eexists|].
    destruct (on_registry_run _ _ _ _ E) as (w2 & Hrun & Hr & <-). exists w2. rewrite M_bind_run, Hrun. by split_and!. }
  destruct H2 as (w2 & -> & Hr2 & Hc2 & Hs2).
  destruct (calm_membership (reg w2) n (registry_role a) (Cluster.coordinator_id c) Hc2 Hs2) as (g & y & E & Hg).
  destruct (on_registry_run _ _ _ _ E) as (w3 & Hrun & Hr3 & <-). exists w3. rewrite M_bind_run, Hrun.
  split_and!; [done| |done]. eapply registered_trans; [exact Hr1|]. by eapply registered_trans.
Qed.

Lemma hydrate_members_Ok c l (w : W) : calm (reg w) →
  ∃ w', hydrate_members c l w = (w', Ok ()) ∧ registered w w'.
Proof.
  revert w. induction l as [|[n a] l IH]; intros w Hc.
  - exists w. split; [done|apply registered_refl].
  - destruct (hydrate_member_Ok c n a w Hc) as (w1 & E & Hr1 & Hc1). destruct (IH w1 Hc1) as (w2 & E2 & Hr2).
    exists w2. simpl. rewrite M_bind_run, E. split; [done|by eapply registered_trans].
Qed.

Lemma hydrate_Ok (w : W) : calm (reg w) →
  ∃ w', _hydrate_registry_membership w = (w', Ok ()) ∧ registered w w'.
Proof.
  intros Hc. unfold _hydrate_registry_membership. rewrite M_bind_run. unfold runtime at 1.
  destruct (_cluster (outside w)) as [c|]; [|by exists w; split; [|apply registered_refl]].
  destruct (negb (_loaded (outside w))); [by exists w; split; [|apply registered_refl]|]. by apply hydrate_members_Ok.
Qed.
End hydration.

(** ** Trust *)

Section restart.
Context {Cap Srf Pr : Type}.
Notation R := (Runtime.t Cap Srf Pr).
Notation W := (World R).
Context (clock : nat → float) (write_fails : nat → option exn) (sha256_hex : string → string).
Context (float_repr : float → string) (container_repr : json → string).
Notation grant_from := (peer_grant_from_json float_repr container_repr).
Notation trusted_from := (trusted_peer_from_json float_repr container_repr).
Notation pending_from := (pending_pairing_from_json float_repr container_repr).

Lemma load_each_run {A} (read : json → result A) (put : A → R → R) l xs (w : W) :
  mapM read l = Ok xs →
  load_each read put l w = (mkWorld (svc w) (ticks w) (foldl (λ r x, put x r) (outside w) xs), Ok ()).
Proof.
  revert xs w. induction l as [|raw l IH]; intros xs w H; [injection H as <-; by destruct w|].
  simpl in H. apply bind_Ok in H as (x & Hx & H). apply bind_Ok in H as (ys & Hys & H). injection H as <-.
  simpl. rewrite Hx. rewrite M_bind_run. unfold lift at 1. rewrite M_bind_run. unfold update at 1.
  by rewrite (IH ys).
Qed.

Lemma put_grants xs (r : R) : foldl (λ r x, put_grant x r) r xs =
  Runtime.set_pairing r (PairingManager.set_grants (Runtime.pairing r)
    (foldl (λ g x, <[PeerGrant.caller_id x := x]> g) (PairingManager.grants (Runtime.pairing r)) xs)).
Proof.
  revert r. induction xs as [|x xs IH]; intros r; simpl; [|by rewrite IH].
  by destruct r as [? ? [[] ? ? ?] ? ? ? ? ? ? ? ? ? ? ? ? ? ?].
Qed.
Lemma put_trusteds xs (r : R) : foldl (λ r x, put_trusted x r) r xs =
  Runtime.set_pairing r (PairingManager.set_trusted (Runtime.pairing r)
    (foldl (λ g x, <[TrustedPeer.peer_id x := x]> g) (PairingManager.trusted (Runtime.pairing r)) xs)).
Proof.
  revert r. induction xs as [|x xs IH]; intros r; simpl; [|by rewrite IH].
  by destruct r as [? ? [[] ? ? ?] ? ? ? ? ? ? ? ? ? ? ? ? ? ?].
Qed.
Lemma put_pendings xs (r : R) : foldl (λ r x, put_pending x r) r xs =
  Runtime.set_pending (Runtime.set_pairing r (PairingManager.set_pending (Runtime.pairing r)
    (foldl (λ g x, od_set (PendingPairing.transaction_id x.1) x.1 g) (PairingManager.pending (Runtime.pairing r)) xs)))
    (foldl (λ g x, <[PendingPairing.transaction_id x.1 := x.2]> g) (_pending_permissions r) xs).
Proof.
  revert r. induction xs as [|x xs IH]; intros r; simpl; [|by rewrite IH].
  by destruct r as [? ? [[] ? ? ?] ? ? ? ? ? ? ? ? ? ? ? ? ? ?].
Qed.

(** What [load_trust] says of a manager is what is loaded record by record. *)
Lemma load_trust_file_run (w : W) stored d m p g : trust_file (outside w) = Some stored →
  migrate_state "trust" stored = Ok d → _pending_permissions (outside w) = ∅ →
  load_trust float_repr container_repr d (Runtime.pairing (outside w)) = Ok (m, p) →
  let r := Runtime.set_pending (Runtime.set_pairing (outside w) m) p in
  _wire_grants r = Ok g →
  load_trust_file float_repr container_repr w = (mkWorld (svc w) (ticks w) r, Ok ()).
Proof.
  intros Hfile Hmig Hempty Hload r Hwire. unfold load_trust_file. rewrite M_bind_run. unfold runtime at 1.
  rewrite Hfile, Hmig. rewrite M_bind_run. unfold lift at 1. unfold load_trust in Hload.
  apply bind_Ok in Hload as (raw1 & E1 & Hload). apply bind_Ok in Hload as (xs1 & R1 & Hload).
  apply bind_Ok in Hload as (raw2 & E2 & Hload). apply bind_Ok in Hload as (xs2 & R2 & Hload).
  apply bind_Ok in Hload as (raw3 & E3 & Hload). apply bind_Ok in Hload as (xs3 & R3 & Hload).
  injection Hload as <- <-.
  rewrite E1. rewrite M_bind_run. unfold lift at 1. rewrite M_bind_run, (load_each_run _ _ _ _ _ R1).
  rewrite E2. rewrite M_bind_run. unfold lift at 1. rewrite M_bind_run, (load_each_run _ _ _ _ _ R2).
  rewrite E3. rewrite M_bind_run. unfold lift at 1. rewrite M_bind_run, (load_each_run _ _ _ _ _ R3).
  cbn [outside svc ticks]. rewrite put_grants, put_trusteds, put_pendings.
  rewrite M_bind_run. unfold runtime at 1. cbn [outside].
  match goal with |- context [_wire_grants ?x] => assert (Er : x = r) end.
  { unfold r. clear - Hempty. destruct w as [s t [? ? [[] ? ? ?] ? ? ? ? ? ? ? ? ? ? ? ? ? ?]]. simpl in *.
    by rewrite Hempty. }
  rewrite Er, Hwire. done.
Qed.

(** ** The wire *)

Lemma known_of_value s : s ∈ NodePermission.value <$> NodePermission.all → ∃ p, NodePermission.of_value s = Ok p.
Proof. intros (p & -> & _)%list_elem_of_fmap. exists p. apply NodePermission.permission_of_value. Qed.

Lemma mapM_total {A B} (f : A → result B) l : (∀ x, x ∈ l → ∃ y, f x = Ok y) → ∃ k, mapM f l = Ok k.
Proof.
  induction l as [|x l IH]; intros H; [by exists []|]. destruct (H x) as [y Ey]; [set_solver|].
  destruct IH as [k Ek]; [set_solver|]. exists (y :: k). simpl. by rewrite Ey; simpl; rewrite Ek.
Qed.

Lemma wire_Ok (r : R) : (∀ k g, PairingManager.grants (Runtime.pairing r) !! k = Some g → known_permissions (PeerGrant.permissions g)) →
  ∃ g, _wire_grants r = Ok g.
Proof.
  intros Hk. unfold _wire_grants. destruct (negb (_loaded r)); [by eexists|].
  destruct (mapM_total (λ kg, g ← wire_grant kg.2; Ok (kg.1, g)) (map_to_list (PairingManager.grants (Runtime.pairing r))))
    as [l ->]; [|by eexists].
  intros [k g] Hin%elem_of_map_to_list. simpl. unfold wire_grant.
  destruct (mapM_total (λ p, NodePermission.of_value (Permission.value p)) (elements (PeerGrant.permissions g)))
    as [ps ->]; [|by eexists].
  intros p Hp%elem_of_elements. destruct (Hk k g Hin p Hp) as (s & -> & Hs). by apply known_of_value.
Qed.

(** ** The cluster *)

(** A cluster of a saved state, with the grants it was saved with. *)
Record resumed (c c' : Cluster.t) (grants : list CapabilityGrant.t) : Prop := {
  rs_local : Cluster.local_id c' = Cluster.local_id c;
  rs_cluster : Cluster.cluster_id c' = Cluster.cluster_id c;
  rs_epoch : Cluster.epoch c' = Cluster.epoch c;
  rs_members : Cluster.assignments c' = (λ kv, (kv.1, idle kv.2)) <$> Cluster.assignments c;
  rs_used : Cluster._used_invites c' = Cluster._used_invites c;
  rs_promotions : Cluster.promotion_epochs c' = Cluster.promotion_epochs c;
  rs_grants : Cluster.capability_grants c' = grants }.

Lemma keyed_bound (d : list (NodeId * RoleAssignment)) :
  (∀ n a, (n, a) ∈ d → RoleAssignment.node_id a = Some n) →
  List.filter is_bound d.*2 = d.*2 ∧
  omap (λ a, (λ n, (n, a)) <$> RoleAssignment.node_id a) (idle <$> d.*2) = (λ kv, (kv.1, idle kv.2)) <$> d.
Proof.
  induction d as [|[n a] d IH]; intros Hk; [done|]. destruct IH as [IH1 IH2]; [set_solver|].
  assert (Ha : RoleAssignment.node_id a = Some n) by (apply Hk; set_solver).
  simpl. unfold is_bound at 1. rewrite Ha. simpl. split; by f_equal.
Qed.

Lemma resume_Ok c grants now fresh_id fresh_token c0 : cluster_wf c →
  let s := ClusterState.mk (value (Cluster.local_id c)) (Cluster.cluster_id c) (Cluster.assignments c).*2
    (Some (Cluster.epoch c)) (Cluster._invites c).*2 (Cluster._join_admissions c).*2 (Cluster._used_invites c)
    (Cluster.promotion_epochs c) grants in
  shape (Cluster.assignments c).*2 (Cluster.promotion_epochs c) grants →
  is_Some (od_get (Cluster.local_id c) (Cluster.assignments c)) →
  Cluster.__init__ (Cluster.local_id c) now fresh_id fresh_token = Ok c0 →
  ∃ c', Cluster.from_state (Cluster.local_id c) (restored s) now fresh_id fresh_token = Ok c' ∧
    resumed c c' grants ∧ Cluster._role_state c' = Ok (topology c').
Proof.
  intros [Hkeyed Hwf _ _] s Hshape [a Ha] Hinit.
  destruct (keyed_bound _ Hkeyed) as [Hb Hm]. apply od_get_elem in Ha as Hin.
  assert (Hnd : NoDup (Cluster.assignments c).*1).
  { rewrite <- (keyed_ids _ Hkeyed). apply Hshape. }
  assert (Hby : by_id (idle <$> (Cluster.assignments c).*2) = (λ kv, (kv.1, idle kv.2)) <$> Cluster.assignments c).
  { unfold by_id. rewrite Hm. apply od_of_list_id. by rewrite <- list_fmap_compose. }
  unfold Cluster.from_state. simpl. rewrite Hb, bool_decide_eq_true_2 by done.
  rewrite (proj2 (existsb_exists _ _)).
  2: { exists (idle a). split; [|by apply bool_decide_eq_true_2; simpl; rewrite (Hkeyed _ _ Hin)].
       apply list_elem_of_In, list_elem_of_fmap. exists a. split; [done|].
       apply list_elem_of_fmap. by exists (Cluster.local_id c, a). }
  simpl. rewrite Hinit. simpl. eexists. split; [reflexivity|]. split; [by split|].
  unfold Cluster._role_state, topology. simpl. rewrite Hby. apply post_init_shape.
  rewrite <- list_fmap_compose. apply shape_idle in Hshape. rewrite Hb in Hshape.
  by rewrite <- list_fmap_compose in Hshape.
Qed.

(** ** Theorem *)

Lemma write_run (f : R → R) (w w' : W) : write write_fails f w = (w', Ok ()) → outside w' = f (outside w).
Proof. unfold write. destruct (write_fails (ticks w)); [done|]. by intros [= <-]. Qed.

(** What a save that reports success left in the files. *)
Lemma saved_files (w w' : W) c : _cluster (outside w) = Some c →
  _save_persisted_state write_fails w = (w', Ok true) →
  trust_file (outside w') = Some (trust_document (Runtime.pairing (outside w)) (_pending_permissions (outside w))) ∧
  ∃ doc, to_dict (cluster_state (outside w) c) = Ok doc ∧ cluster_file (outside w') = Some doc.
Proof.
  intros Hc H. unfold _save_persisted_state in H. rewrite M_bind_run in H. unfold runtime at 1 in H.
  destruct (negb _ || negb _); [done|]. rewrite M_bind_run in H.
  destruct (saved (save_trust _ _) w) as [w1 [b1|e]] eqn:E1; [|done].
  rewrite Hc, M_bind_run in H. destruct (saved (save_cluster _ _ c) w1) as [w2 [b2|e]] eqn:E2; [|done].
  unfold mret, M_ret in H. injection H as <- Hb. apply andb_true_iff in Hb as [-> ->].
  apply saved_true in E1, E2. unfold save_trust in E1. rewrite document_settled in E1.
  rewrite M_bind_run in E1. unfold lift at 1 in E1. apply write_run in E1.
  unfold save_cluster in E2. rewrite M_bind_run in E2. unfold lift at 1 in E2.
  destruct (to_dict _) as [doc|] eqn:Ed; [|done]. apply write_run in E2. rewrite E2, E1. simpl. eauto.
Qed.

Lemma load_cluster_run node fresh_id fresh_token c grants doc c0 (w : W) :
  cluster_wf c → Cluster.local_id c = node →
  let s := ClusterState.mk (value (Cluster.local_id c)) (Cluster.cluster_id c) (Cluster.assignments c).*2
    (Some (Cluster.epoch c)) (Cluster._invites c).*2 (Cluster._join_admissions c).*2 (Cluster._used_invites c)
    (Cluster.promotion_epochs c) grants in
  StateCodec.storable s → is_Some (od_get node (Cluster.assignments c)) → to_dict s = Ok doc →
  cluster_file (outside w) = Some doc → Cluster.__init__ node (clock (ticks w)) fresh_id fresh_token = Ok c0 →
  ∃ c', resumed c c' grants ∧ load_cluster clock sha256_hex fresh_id fresh_token node w =
    (mkWorld (svc w) (S (ticks w)) (Runtime.set_failover (Runtime.set_cluster (has_store (outside w)) c' grants) (topology c')),
     Ok ()).
Proof.
  intros Hwf <- s Hs Ha Hdoc Hfile Hinit.
  destruct (saved_cluster_reads_back sha256_hex s Hs) as (doc' & Hd & Hread).
  rewrite Hdoc in Hd. injection Hd as <-.
  destruct (resume_Ok c grants _ _ _ c0 Hwf (st_shape _ Hs) Ha Hinit) as (c' & Hfrom & Hres & Hrole).
  exists c'. split; [done|]. unfold load_cluster. rewrite M_bind_run. unfold update at 1.
  rewrite M_bind_run. unfold runtime at 1. rewrite M_bind_run. cbn [outside].
  change (cluster_file (has_store (outside w))) with (cluster_file (outside w)). rewrite Hfile.
  rewrite M_bind_run. unfold cluster_store_load. rewrite Hread. unfold lift at 1. cbn [reraise].
  rewrite M_bind_run. unfold now at 1. cbn [svc ticks outside]. rewrite M_bind_run. unfold lift at 1.
  unfold s. rewrite Hfrom. unfold update at 1. cbn [svc ticks outside]. rewrite M_bind_run. unfold runtime at 1. cbn [outside].
  change (_cluster (Runtime.set_cluster _ c' _)) with (Some c'). cbn iota.
  rewrite Hrole, M_bind_run. done.
Qed.

(** C19. A restart restores what was saved, if it can be stored at all.  Take a runtime whose cluster
    is well formed and lists the node itself, and whose trust and cluster have the forms their
    documents can carry: every permission is a text that names a known permission (profiles that
    [NetworkPairing] paired hold others, and do not load: [paired_profile_does_not_load]), every
    secret, generation, epoch and identifier is valid, and the lifetime of a pairing is the
    default one.  Once its state was saved, take any new process of the same node over the files
    it left.  Loading them succeeds, and the new runtime has the same grants, trusted peers and
    open transactions with the permissions each asked for, the same members, epoch, spent invites
    and promotions with the runtime's grants, and a failover coordinator that publishes exactly
    that topology; only marks of failed authentication and jobs in progress are gone.  Nothing is
    written. *)
Theorem restart_restores node fresh_id fresh_token c (w w' w0 : W) :
  let r := outside w in let r0 := outside w0 in
  _cluster r = Some c → cluster_wf c → Cluster.local_id c = node →
  is_Some (od_get node (Cluster.assignments c)) → StateCodec.storable (cluster_state r c) →
  storable_trust (Runtime.pairing r) (_pending_permissions r) →
  PairingManager.local_id (Runtime.pairing r) = node → PairingManager._ttl (Runtime.pairing r) = flit 300 →
  _save_persisted_state write_fails w = (w', Ok true) →
  _identity r0 = Some node → _pending_permissions r0 = ∅ →
  trust_file r0 = trust_file (outside w') → cluster_file r0 = cluster_file (outside w') →
  is_ok (Cluster.__init__ node (clock (ticks w0)) fresh_id fresh_token) = true →
  ∃ w1 c', _load_persisted_state clock sha256_hex float_repr container_repr true (Ok ()) fresh_id fresh_token w0 = (w1, Ok ()) ∧
    let r1 := outside w1 in
    Runtime.pairing r1 = PairingManager.set_broken (Runtime.pairing r) ∅ ∧
    (∀ k, k ∈ (PairingManager.pending (Runtime.pairing r)).*1 →
      _pending_permissions r1 !! k = Some (default ∅ (_pending_permissions r !! k))) ∧
    _cluster r1 = Some c' ∧ resumed c c' (_cluster_capability_grants r) ∧
    _cluster_capability_grants r1 = _cluster_capability_grants r ∧
    _failover_coordinator r1 = Some (topology c') ∧
    _persistence_ready r1 = true ∧ trust_file r1 = trust_file r0 ∧ cluster_file r1 = cluster_file r0.
Proof.
  intros r r0 Hc Hwf Hlocal Ha Hst Htrust Hown Httl Hsave Hid Hempty Htf Hcf Hinit.
  destruct (saved_files w w' c Hc Hsave) as (Hf1 & doc & Hdoc & Hf2). fold r in Hf1, Hdoc.
  destruct (saved_trust_reads_back float_repr container_repr _ _ Htrust) as (p' & Hload & Hp').
  rewrite document_settled in Hload. cbn [mbind result_bind] in Hload.
  destruct (Cluster.__init__ _ _ _ _) as [c0|] eqn:Ec0; [|done].
  unfold _load_persisted_state. rewrite M_bind_run. unfold runtime at 1. fold r0. rewrite Hid.
  rewrite M_bind_run. unfold lift at 1. cbn [of_option]. rewrite M_bind_run. unfold update at 1.
  rewrite M_bind_run. unfold update at 1. cbn [svc ticks outside]. fold r0.
  set (ra := new_network true node (set_ready false r0)). rewrite M_bind_run.
  destruct (load_cluster_run node fresh_id fresh_token c (_cluster_capability_grants r) doc c0
    (mkWorld (svc w0) (ticks w0) ra) Hwf Hlocal Hst Ha Hdoc) as (c' & Hres & Hrun); [by simpl; rewrite Hcf|done|].
  rewrite Hrun. cbn [svc ticks outside].
  set (rb := Runtime.set_failover _ _). rewrite M_bind_run.
  assert (Hblank : Runtime.pairing rb = blank (Runtime.pairing r)) by (unfold blank; by rewrite Hown, Httl).
  rewrite <- Hblank in Hload.
  set (rc := Runtime.set_pending (Runtime.set_pairing rb (PairingManager.set_broken (Runtime.pairing r) ∅)) p').
  destruct (wire_Ok rc) as [g Hwire].
  { intros k x Hx. apply (trust_grants _ _ Htrust) in Hx as [_ []]. done. }
  rewrite (load_trust_file_run (mkWorld (svc w0) (S (ticks w0)) rb) _ _ _ _ g ltac:(simpl; rewrite Htf; exact Hf1)
    (document_settled _ _) Hempty Hload Hwire).
  rewrite M_bind_run.
  destruct (hydrate_Ok (mkWorld (svc w0) (S (ticks w0)) rc)) as (w2 & Hhyd & Hreg).
  { split; simpl.
    - unfold NodeRegistry.record. simpl. rewrite decide_True by done. by eexists.
    - intros n x. unfold NodeRegistry.record. simpl. case_decide; [|done]. by intros [= <-]. }
  cbn [svc ticks outside]. fold rc. rewrite Hhyd. rewrite M_bind_run. unfold update at 1.
  rewrite M_bind_run. unfold lift at 1. unfold update at 1.
  eexists _, c'. split; [reflexivity|]. rewrite Hreg. simpl.
  split_and!; try done. intros k Hk. by rewrite Hp', decide_True.
Qed.
End restart.

(** ** At a concrete node *)

Lemma sample_cluster_sound : cluster_wf sample_cluster.
Proof.
  split; simpl.
  - intros n a [?|[?|?%list_elem_of_singleton]%elem_of_cons]%elem_of_cons; by simplify_eq.
  - exact sample_wf.
  - intros k i Hi. by apply not_elem_of_nil in Hi.
  - done.
Qed.

Lemma sample_state_storable : StateCodec.storable (cluster_state sample_runtime sample_cluster).
Proof.
  destruct sample_stored_storable as [Hs Ha He Hg _ _ _ _]. by split.
Qed.

Lemma sample_trust_storable : storable_trust paired_coordinator ∅.
Proof.
  split; cbn [paired_coordinator PairingManager.set_grants PairingManager.grants PairingManager.trusted PairingManager.pending
    PairingManager.__init__].
  - intros k g [<- <-]%lookup_singleton_Some. split; [done|]. split.
    + reflexivity.
    + vm_compute. reflexivity.
    + apply known_singleton. vm_compute. repeat constructor.
    + done.
  - intros k p Hk. by rewrite lookup_empty in Hk.
  - constructor.
  - intros k p Hk. by apply not_elem_of_nil in Hk.
Qed.

(** A new process: nothing but the identity and the files. *)
Definition new_process (r : SampleRuntime) : SampleRuntime :=
  Runtime.mk _ _ _ (Some node_s) false (Network.mk (PairingManager.__init__ node_s (flit 1)) (NodeRegistry.__init__ node_s false)
      [] (ConnectionManager.__init__ node_s)) false ∅ None [] false None CapabilityShare.__init__ SurfaceRegistry.__init__
    false false 0 false (trust_file r) (cluster_file r).

Lemma restart_restores_witness :
  ∃ w' w1, _save_persisted_state no_failure sample_world = (w', Ok true) ∧
    _load_persisted_state sample_clock sample_hash (λ _, "") (λ _, "") true (Ok ()) "new" "fence"
      (mkWorld node_service 0 (new_process (outside w'))) = (w1, Ok ()) ∧
    Runtime.pairing (outside w1) = paired_coordinator.
Proof.
  destruct (_save_persisted_state no_failure sample_world) as [w' r] eqn:E.
  assert (Er : r = Ok true) by (apply (f_equal snd) in E; vm_compute in E; symmetry; exact E).
  rewrite Er in E.
  destruct (restart_restores sample_clock no_failure sample_hash (λ _, "") (λ _, "") node_s "new" "fence" sample_cluster
    sample_world w' (mkWorld node_service 0 (new_process (outside w')))) as (w1 & c' & Hrun & Hp & _).
  - reflexivity.
  - exact sample_cluster_sound.
  - reflexivity.
  - eexists. reflexivity.
  - exact sample_state_storable.
  - exact sample_trust_storable.
  - reflexivity.
  - reflexivity.
  - exact E.
  - reflexivity.
  - reflexivity.
  - reflexivity.
  - reflexivity.
  - vm_compute. reflexivity.
  - exists w', w1. split; [by rewrite Er|]. split; [exact Hrun|exact Hp].
Defined.
