(* ===== verification/Diagnostics.v ===== *)
(** * Diagnostics ([runtime/diagnostics.py])

    The two documents an operator is shown of a running node: about one peer, and about the
    node.  Members of the document are JSON values; an enumeration member is its text, as the
    classes derive from [str].  The theorems: neither document depends on any secret the node
    holds, and what the first says of a peer agrees with what the peer may do. *)

From S2P Require Import Prelude Bytes Disk PyFloat Identity ClusterModels Sharing ConnectionState NodeRegistry PyJson Envelope Pairing Surfaces Documents Stores TransportGeneration Candidates Connections Service IdentityStore DeviceIdentity IdentitySpec Observability RuntimeLifecycle Runtime RuntimeFacts RolesFacts.
Import Runtime(_identity, network).
Abbreviation dict := (list (string * json)) (only parsing).

Definition relationship_value (s : RelationshipState) : string :=
  match s with
  | UNPAIRED => "unpaired" | OUTBOUND_TRUSTED => "outbound_trusted" | INBOUND_GRANTED => "inbound_granted"
  | BIDIRECTIONAL => "bidirectional" | PENDING_OUTBOUND => "pending_outbound"
  | PENDING_INBOUND => "pending_inbound" | REPAIR_REQUIRED => "repair_required"
  | IDENTITY_CONFLICT => "identity_conflict"
  end.
Definition connection_value (s : ConnectionStatus.t) : string :=
  match s with
  | ConnectionStatus.UNKNOWN => "unknown" | ConnectionStatus.CONNECTING => "connecting"
  | ConnectionStatus.ONLINE => "online" | ConnectionStatus.MIGRATING => "migrating"
  | ConnectionStatus.RESUMING => "resuming" | ConnectionStatus.OFFLINE => "offline"
  | ConnectionStatus.AUTHENTICATION_FAILED => "authentication_failed"
  | ConnectionStatus.IDENTITY_CHANGED => "identity_changed"
  end.
Definition state_value (s : RuntimeState) : string :=
  match s with
  | STOPPED => "stopped" | STARTING => "starting" | STARTED => "started"
  | PERSISTENCE_FAILED => "persistence_failed" | LISTENER_UNAVAILABLE => "listener_unavailable"
  end.

Section diagnostics.
Context `{crypto : Crypto} (ed25519_verify : string → string → string → bool).
Context {Hc Hs Pr : Type}.
Notation R := (Runtime.t Hc Hs Pr).

(** ** One peer *)

Definition _root_fingerprint (root_public_key : option string) : option string :=
  root ← truthy root_public_key;
  raw ← b64decode root;
  Some ("sha256:" +:+ sha256_hex raw).

Definition _candidate_root_matches (trusted : option TrustedPeer.t)
    (candidate : option DiscoveredNodeCandidate.t) : option bool :=
  trusted ← trusted;
  candidate ← candidate;
  stored ← truthy (Material.root_public_key (TrustedPeer.material trusted));
  shown ← truthy (DiscoveredNodeCandidate.root_public_key candidate);
  Some (bool_decide (stored = shown)).

Definition _transport_continuity (trusted : option TrustedPeer.t)
    (candidate : option DiscoveredNodeCandidate.t) : string :=
  match trusted, candidate with
  | None, _ => "no_stored_trust"
  | Some _, None => "no_candidate"
  | Some trusted, Some candidate =>
      if same_transport trusted candidate then "same_generation"
      else if transport_allowed b64decode ed25519_verify trusted candidate then "rotation_proven"
      else "unproven"
  end.

Definition _pending_count (pairing : PairingManager.t) (peer_id : NodeId) : Z :=
  Z.of_nat (length (List.filter (λ kv, bool_decide (PendingPairing.peer_id kv.2 = peer_id))
                      (PairingManager.pending pairing))).

(** [trusted.root_public_key or candidate.root_public_key], each if there is one *)
Definition known_root (trusted : option TrustedPeer.t) (candidate : option DiscoveredNodeCandidate.t) : option string :=
  match truthy (t ← trusted; Material.root_public_key (TrustedPeer.material t)) with
  | Some root => Some root
  | None => c ← candidate; DiscoveredNodeCandidate.root_public_key c
  end.

Definition identity_evidence (trusted : option TrustedPeer.t) (candidate : option DiscoveredNodeCandidate.t) : json :=
  match trusted, candidate with
  | None, None => JNull
  | _, _ =>
      JObj [("known_root_fingerprint", opt_json JStr (_root_fingerprint (known_root trusted candidate)));
            ("candidate_matches_stored_root", opt_json JBool (_candidate_root_matches trusted candidate));
            ("transport_generation", opt_json JInt
               match candidate with
               | Some c => DiscoveredNodeCandidate.transport_generation c
               | None => t ← trusted; Material.transport_generation (TrustedPeer.material t)
               end);
            ("transport_continuity", JStr (_transport_continuity trusted candidate))]
  end.

(** The pairing manager reads its clock twice: for the pending transaction and the relationship. *)
Definition build_peer_diagnostics (runtime : R) (peer_id : NodeId) (clock clock' : float) : result dict :=
  raise_if (negb (Runtime._loaded runtime)) RuntimeError "runtime has not started";;
  let pairing := Network.pairing (network runtime) in
  let trusted := PairingManager.get_trusted pairing peer_id in
  let grant := PairingManager.get_grant pairing peer_id in
  let pending := PairingManager.find_pending_for pairing peer_id None clock in
  let candidate := od_get (value peer_id) (Network.candidates (network runtime)) in
  let connected := Runtime._connection_manager runtime &&
    bool_decide (peer_id ∈ ConnectionManager.providers (Network.manager (network runtime))) in
  Ok [("node_id", opt_json (λ n, JStr (value n)) (_identity runtime));
      ("peer_id", JStr (value peer_id));
      ("relationship", JStr (relationship_value (PairingManager.relationship pairing peer_id clock')));
      ("outbound", JObj
         [("trusted", JBool (bool_decide (is_Some trusted)));
          ("auth_broken", JBool (PairingManager.is_auth_broken pairing peer_id));
          ("transport_generation",
           opt_json JInt (t ← trusted; Material.transport_generation (TrustedPeer.material t)))]);
      ("inbound", JObj [("granted", JBool (bool_decide (is_Some grant)))]);
      ("pending", JObj
         [("intent", opt_json (λ p, JStr (PendingPairing.intent p)) pending);
          ("direction", opt_json (λ p, JStr (PendingPairing.direction p)) pending);
          ("count", JInt (_pending_count pairing peer_id));
          ("expires_at", opt_json (λ p, JFloat (PendingPairing.expires_at p)) pending)]);
      ("identity", identity_evidence trusted candidate);
      ("connection", JObj [("connected", JBool connected)]);
      ("constants", JObj
         [("outbound_trust_calls", JStr "this node -> peer");
          ("inbound_grant_authorizes", JStr "peer -> this node")])].

(** ** The node *)

(** [asdict(runtime._status)] *)
Definition status_dict (s : RuntimeStatus.t) : json :=
  JObj [("state", JStr (state_value (RuntimeStatus.state s)));
        ("listener_started", JBool (RuntimeStatus.listener_started s));
        ("discovery_started", JBool (RuntimeStatus.discovery_started s));
        ("discovery_disabled", JBool (RuntimeStatus.discovery_disabled s));
        ("discovery_reason", opt_json JStr (RuntimeStatus.discovery_reason s));
        ("bound_host", opt_json JStr (RuntimeStatus.bound_host s));
        ("bound_port", opt_json JInt (RuntimeStatus.bound_port s));
        ("pairing_bound_port", opt_json JInt (RuntimeStatus.pairing_bound_port s));
        ("preferred_port_honored", opt_json JBool (RuntimeStatus.preferred_port_honored s));
        ("tls_fingerprint", opt_json JStr (RuntimeStatus.tls_fingerprint s));
        ("reason", opt_json JStr (RuntimeStatus.reason s))].

(** [asdict] of a snapshot *)
Definition metric_dict (m : MetricSnapshot.t) : json :=
  JObj [("target", JStr (MetricSnapshot.target m)); ("count", JInt (MetricSnapshot.count m));
        ("successes", JInt (MetricSnapshot.successes m)); ("failures", JInt (MetricSnapshot.failures m));
        ("cancellations", JInt (MetricSnapshot.cancellations m)); ("coalesced", JInt (MetricSnapshot.coalesced m));
        ("stale", JInt (MetricSnapshot.stale m)); ("rejected", JInt (MetricSnapshot.rejected m));
        ("events", JList ((λ kv, JList [JStr kv.1; JInt kv.2]) <$> MetricSnapshot.events m));
        ("in_flight", JInt (MetricSnapshot.in_flight m));
        ("peak_in_flight", JInt (MetricSnapshot.peak_in_flight m));
        ("samples", JList (JFloat <$> MetricSnapshot.samples m));
        ("distribution", JObj (MetricSnapshot.distribution m));
        ("last_error", opt_json JStr (MetricSnapshot.last_error m))].
Definition snapshot_dict (s : ObservabilitySnapshot.t) : json :=
  JObj [("session_started_at", JFloat (ObservabilitySnapshot.session_started_at s));
        ("captured_at", JFloat (ObservabilitySnapshot.captured_at s));
        ("duration_seconds", JFloat (ObservabilitySnapshot.duration_seconds s));
        ("metrics", JList (metric_dict <$> ObservabilitySnapshot.metrics s))].

Definition route_dict (c : DiscoveredNodeCandidate.t) : json :=
  JObj [("node_id", JStr (DiscoveredNodeCandidate.stable_id c));
        ("hostname", JStr (DiscoveredNodeCandidate.hostname c));
        ("addresses", JList (JStr <$> DiscoveredNodeCandidate.addresses c));
        ("port", opt_json JInt (DiscoveredNodeCandidate.port c));
        ("transport_fingerprint", opt_json JStr (DiscoveredNodeCandidate.transport_fingerprint c));
        ("last_seen", JFloat (DiscoveredNodeCandidate.last_seen c))].

Definition connection_dict (r : NodeRecord.t) : json :=
  let c := NodeRecord.connection r in
  JObj [("node_id", JStr (value (NodeRecord.node_id r)));
        ("state", JStr (connection_value (ConnectionState.status c)));
        ("reason", opt_json JStr (ConnectionState.reason c));
        ("changed_at", opt_json JFloat (ConnectionState.changed_at c))].

(** What the mixins of the runtime keep beside [Runtime.t]. *)
Record Seams := {
  status : RuntimeStatus.t;
  identity : option IdentityStore.NodeIdentity.t;
  device_identity : option DeviceIdentity.t;
  generations : option TransportGenerationManager.t;
  observer : Watcher.t }.

(** The snapshot reads the wall clock; the runtime's node id is that of its identity. *)
Definition build_diagnostics (runtime : R) (s : Seams) (wall_clock : float) : result dict :=
  snap ← Watcher.snapshot (observer s) wall_clock;
  identity ← match identity s with
    | None => Ok JNull
    | Some i =>
        public ← IdentityStore.NodeIdentity.root_public_key i;
        Ok (JObj [("node_id", JStr (value (IdentityStore.NodeIdentity.node_id i)));
                  ("root_fingerprint", JStr (node_identity_fingerprint sha256_hex public))])
    end;
  Ok [("status", status_dict (status s)); ("generation", JInt (Runtime._generation runtime)); ("identity", identity);
      ("device_identity", opt_json JObj (DeviceIdentity.device_identity_diagnostics <$> device_identity s));
      ("transport", JObj
         [("fingerprint", opt_json JStr (RuntimeStatus.tls_fingerprint (status s)));
          ("current_generation", opt_json JInt
             (g ← generations s; TransportGeneration.generation <$> TransportGenerationManager._current g));
          ("pending_generation", opt_json JInt
             (g ← generations s; TransportGeneration.generation <$> TransportGenerationManager._next g))]);
      ("routes", JList (route_dict <$> (Network.candidates (network runtime)).*2));
      ("connections", JList
         (if Runtime._loaded runtime
          then connection_dict <$> NodeRegistry.records (Network.registry (network runtime)) else []));
      ("sessions", JList
         (if Runtime._connection_manager runtime
          then (λ n, JStr (value n)) <$> ConnectionManager.providers (Network.manager (network runtime)) else []));
      ("observability", snapshot_dict snap)].

(** ** What the documents go by *)

Definition without_secret (t : TrustedPeer.t) : TrustedPeer.t :=
  TrustedPeer.mk (TrustedPeer.peer_id t) "" (TrustedPeer.permissions t) (TrustedPeer.material t).
Definition grant_without_secret (g : PeerGrant.t) : PeerGrant.t :=
  PeerGrant.mk (PeerGrant.caller_id g) "" (PeerGrant.permissions g) (PeerGrant.material g).
(** Who knows the id of a transaction can complete it. *)
Definition pending_without_secret (p : PendingPairing.t) : PendingPairing.t :=
  PendingPairing.mk "" (PendingPairing.peer_id p) "" (PendingPairing.expires_at p) (PendingPairing.material p)
    (PendingPairing.direction p) (PendingPairing.intent p).
Definition pairing_without_secrets (m : PairingManager.t) : PairingManager.t :=
  PairingManager.mk (PairingManager.local_id m) (PairingManager._ttl m)
    ((λ kv, ("", pending_without_secret kv.2)) <$> PairingManager.pending m)
    (without_secret <$> PairingManager.trusted m) (grant_without_secret <$> PairingManager.grants m)
    (PairingManager._auth_broken m).

(** Two runtimes that differ at most in secrets: those of peers, grants and transactions, and
    everything of the cluster, its invites, the shares and the files. *)
Record same_but_secrets (r r' : R) : Prop := {
  sb_identity : _identity r = _identity r';
  sb_loaded : Runtime._loaded r = Runtime._loaded r';
  sb_generation : Runtime._generation r = Runtime._generation r';
  sb_manager : Runtime._connection_manager r = Runtime._connection_manager r';
  sb_pairing : pairing_without_secrets (Network.pairing (network r)) =
               pairing_without_secrets (Network.pairing (network r'));
  sb_registry : Network.registry (network r) = Network.registry (network r');
  sb_candidates : Network.candidates (network r) = Network.candidates (network r');
  sb_providers : ConnectionManager.providers (Network.manager (network r)) =
                 ConnectionManager.providers (Network.manager (network r')) }.

(** Of the identities, their public views; of the transport, the generations. *)
Record same_seams (s s' : Seams) : Prop := {
  ss_status : status s = status s';
  ss_identity : (λ i, (IdentityStore.NodeIdentity.node_id i, IdentityStore.NodeIdentity.root_public_key i)) <$> identity s =
                (λ i, (IdentityStore.NodeIdentity.node_id i, IdentityStore.NodeIdentity.root_public_key i)) <$> identity s';
  ss_device : DeviceIdentity.public_view <$> device_identity s = DeviceIdentity.public_view <$> device_identity s';
  ss_current : (g ← generations s; TransportGeneration.generation <$> TransportGenerationManager._current g) =
               (g ← generations s'; TransportGeneration.generation <$> TransportGenerationManager._current g);
  ss_next : (g ← generations s; TransportGeneration.generation <$> TransportGenerationManager._next g) =
            (g ← generations s'; TransportGeneration.generation <$> TransportGenerationManager._next g);
  ss_observer : observer s = observer s' }.

Lemma pending_erased m peer now :
  pending_without_secret <$> PairingManager.find_pending_for m peer None now =
  PairingManager.find_pending_for (pairing_without_secrets m) peer None now.
Proof.
  unfold PairingManager.find_pending_for, PairingManager.find. simpl.
  induction (PairingManager.pending m) as [|[k p] l IH]; [done|]. simpl.
  destruct (bool_decide _ && _ && true); [done|apply IH].
Qed.

Lemma trusted_erased m peer :
  without_secret <$> PairingManager.get_trusted m peer =
  PairingManager.get_trusted (pairing_without_secrets m) peer.
Proof. unfold PairingManager.get_trusted. simpl. by rewrite lookup_fmap. Qed.

Lemma grant_erased m peer :
  bool_decide (is_Some (PairingManager.get_grant m peer)) =
  bool_decide (is_Some (PairingManager.get_grant (pairing_without_secrets m) peer)).
Proof.
  unfold PairingManager.get_grant. simpl. rewrite lookup_fmap. apply bool_decide_ext. by rewrite fmap_is_Some.
Qed.

Lemma count_erased m peer : _pending_count m peer = _pending_count (pairing_without_secrets m) peer.
Proof.
  unfold _pending_count. f_equal. simpl. induction (PairingManager.pending m) as [|[k p] l IH]; [done|]. simpl.
  case_bool_decide; simpl; by rewrite IH.
Qed.

Lemma relationship_erased m peer now :
  PairingManager.relationship m peer now = PairingManager.relationship (pairing_without_secrets m) peer now.
Proof.
  unfold PairingManager.relationship, PairingManager.has_outbound_trust, PairingManager.is_auth_broken.
  pose proof (grant_erased m peer) as Hg. unfold PairingManager.get_grant in Hg. rewrite <- Hg.
  rewrite <- pending_erased. simpl. rewrite lookup_fmap.
  assert (Ht : bool_decide (is_Some (without_secret <$> PairingManager.trusted m !! peer)) =
          bool_decide (is_Some (PairingManager.trusted m !! peer))) by (apply bool_decide_ext; by rewrite fmap_is_Some).
  rewrite Ht. repeat case_match; simplify_eq/=; congruence.
Qed.

Lemma evidence_erased trusted candidate :
  identity_evidence trusted candidate = identity_evidence (without_secret <$> trusted) candidate.
Proof. by destruct trusted, candidate. Qed.

Lemma peer_diagnostics_erased (r : R) peer clock clock' :
  build_peer_diagnostics r peer clock clock' =
  build_peer_diagnostics (Runtime.set_pairing r (pairing_without_secrets (Runtime.pairing r))) peer clock clock'.
Proof.
  unfold build_peer_diagnostics, Runtime.pairing. simpl.
  rewrite <- trusted_erased, <- pending_erased, <- relationship_erased, <- count_erased, <- evidence_erased, <- grant_erased.
  unfold PairingManager.is_auth_broken. simpl.
  destruct (PairingManager.get_trusted _ peer), (PairingManager.find_pending_for _ peer None clock); done.
Qed.

(** ** Theorems *)

(** C33. What an operator is shown holds no secret: two nodes that differ at most in the secrets of
    their peers, grants and pairing transactions, in the private parts of their identities, in
    their cluster, invites, shares and files have the same diagnostics, of every peer and of the
    node, errors included. *)
Theorem diagnostics_hide_secrets (r r' : R) (s s' : Seams) : same_but_secrets r r' → same_seams s s' →
  (∀ peer clock clock', build_peer_diagnostics r peer clock clock' = build_peer_diagnostics r' peer clock clock') ∧
  (∀ wall_clock, build_diagnostics r s wall_clock = build_diagnostics r' s' wall_clock).
Proof.
  intros [] []. split.
  - intros peer clock clock'. rewrite (peer_diagnostics_erased r), (peer_diagnostics_erased r').
    unfold build_peer_diagnostics, Runtime.pairing. cbn [network Network.pairing Runtime.set_pairing].
    simpl. rewrite sb_identity0, sb_loaded0, sb_manager0, sb_candidates0, sb_providers0, sb_pairing0. done.
  - intros wall. unfold build_diagnostics.
    rewrite ss_observer0, ss_status0, sb_loaded0, sb_generation0, sb_manager0, sb_registry0, sb_candidates0, sb_providers0.
    rewrite ss_current0, ss_next0.
    assert (Hdev : opt_json JObj (DeviceIdentity.device_identity_diagnostics <$> device_identity s) =
                   opt_json JObj (DeviceIdentity.device_identity_diagnostics <$> device_identity s')).
    { destruct (device_identity s) as [d|], (device_identity s') as [d'|]; simpl in ss_device0; try done.
      apply (inj Some) in ss_device0. simpl. unfold DeviceIdentity.device_identity_diagnostics. by rewrite ss_device0. }
    rewrite Hdev. destruct (identity s) as [i|], (identity s') as [i'|]; simplify_eq/=; [|done].
    match goal with E : IdentityStore.NodeIdentity.root_public_key _ = _ |- _ => rewrite E end.
    match goal with E : IdentityStore.NodeIdentity.node_id _ = _ |- _ => rewrite E end. done.
Qed.
End diagnostics.

(** ** At a concrete node *)

(** The sample node, with another secret in its grant. *)
Definition other_secret : SampleRuntime :=
  Runtime.set_pairing sample_runtime (PairingManager.set_grants paired_coordinator
    {[node_c := PeerGrant.mk node_c "other" {[Permission.Text "remote_management"]} Material.none]}).
Definition sample_seams : Seams :=
  Build_Seams (RuntimeStatus.of_state STARTED None) None None None (perform_all sample_calls sample_watcher).

Definition secret_of (r : SampleRuntime) : option string :=
  PeerGrant.secret <$> PairingManager.get_grant (Runtime.pairing r) node_c.

Lemma diagnostics_hide_secrets_witness :
  sample_runtime ≠ other_secret ∧
  build_peer_diagnostics (crypto := sample_crypto) (λ _ _ _, false) sample_runtime node_c (flit 5) (flit 5) =
  build_peer_diagnostics (crypto := sample_crypto) (λ _ _ _, false) other_secret node_c (flit 5) (flit 5).
Proof.
  split.
  - intros E. assert (H : secret_of sample_runtime = Some sample_secret) by (vm_compute; reflexivity).
    rewrite E in H. vm_compute in H. discriminate H.
  - destruct (diagnostics_hide_secrets (crypto := sample_crypto) (λ _ _ _, false) sample_runtime other_secret
      sample_seams sample_seams) as [H _]; [split; vm_compute; reflexivity|split; reflexivity|].
    exact (H node_c (flit 5) (flit 5)).
Defined.

(** What the operator is shown of a peer that may call this node. *)
Lemma diagnosed_peer :
  (λ d, (jget "relationship" d, jget "inbound" d)) <$>
    build_peer_diagnostics (crypto := sample_crypto) (λ _ _ _, false) sample_runtime node_c (flit 5) (flit 5) =
  Ok (JStr "inbound_granted", JObj [("granted", JBool true)]).
Proof. vm_compute. reflexivity. Qed.
