(* ===== verification/FailoverRuntimeSpec.v ===== *)
(** * Local failover and the cluster of the runtime

    A local operation goes through the failover coordinator, which decides on a topology of its
    own and persists it by making it the runtime's.  When its state changes, the cluster is that
    topology, saved; what peers changed over the network in between is not in it. *)

From S2P Require Import Prelude PyFloat Identity ClusterModels Roles RolesFacts Failover Operations Sharing ConnectionState NodeRegistry PyJson Wire Pairing Surfaces Candidates Connections Service Runtime RoleDispatch RuntimeFacts.
Import Runtime(_identity, _loaded, network, _cluster, _cluster_capability_grants, _cluster_store, _failover_coordinator, _service).
Import FailoverCoordinator(state, durable, _commit).

Section local.
Context {Cap Srf Pr : Type}.
Notation R := (Runtime.t Cap Srf Pr).
Notation W := (World R).
Context (clock : nat → float) (write_fails : nat → option exn).
Notation persist := (RoleDispatch.persist (Hc := Cap) (Hs := Srf) (Pr := Pr) write_fails).
Implicit Types (w : W) (s : RoleState.t).

(** The runtime's cluster and grants are the topology [s]. *)
Definition cluster_is s w : Prop := ∃ c, _cluster (outside w) = Some c ∧
  Cluster.assignments c = by_id (RoleState.assignments s) ∧ RoleState.epoch s = Some (Cluster.epoch c) ∧
  Cluster.promotion_epochs c = RoleState.promotion_epochs s ∧
  Cluster.capability_grants c = RoleState.capability_grants s ∧
  _cluster_capability_grants (outside w) = RoleState.capability_grants s.

Lemma cluster_is_same s w w' : same_cluster w w' → cluster_is s w → cluster_is s w'.
Proof. intros [E1 E2 _ _]. unfold cluster_is. by rewrite E1, E2. Qed.

Lemma persist_cluster s w w' : _persist_failover_state write_fails s w = (w', Ok ()) → cluster_is s w'.
Proof.
  unfold _persist_failover_state. intros Hr. apply M_bind_Ok in Hr as (w1 & previous & _ & Hr).
  apply M_bind_Ok in Hr as (w2 & r & _ & Hr). destruct (RoleState.epoch s) as [epoch|] eqn:Ee; [|done].
  rewrite M_bind_run in Hr. unfold put_state, update at 1 in Hr. cbv beta iota in Hr.
  set (w3 := mkWorld _ _ _) in Hr. assert (H3 : cluster_is s w3) by (by eexists).
  apply M_bind_Ok in Hr as (w4 & persisted & Hs & Hr). apply (keeps_run same_cluster) in Hs; [|apply _].
  apply (cluster_is_same _ _ _ Hs) in H3. destruct persisted; simpl in Hr.
  2:{ apply M_bind_Ok in Hr as (? & ? & _ & Hr). discriminate Hr. }
  eapply cluster_is_same; [|exact H3]. match type of Hr with ?m _ = _ => assert (Hk : Keeps undisturbed m) by keeps end.
  apply (keeps_run undisturbed) in Hr; [apply Hr|done].
Qed.

(** A method that leaves the coordinator alone, or does one commit and nothing after it. *)
Definition one_commit {A} (m : M (FailoverCoordinator.t W) A) : Prop := ∀ f,
  (m f).1 = f ∨ ∃ candidate, (m f).1 = (_commit persist candidate f).1.

Lemma commit_published candidate f : let f' := (_commit persist candidate f).1 in
  state f' = state f ∨ (state f' = candidate ∧ cluster_is candidate (durable f')).
Proof.
  unfold _commit, RoleDispatch.persist. destruct (_persist_failover_state write_fails candidate (durable f)) as [w [[]|e]] eqn:E;
    [right|by left]. split; [done|]. by eapply persist_cluster.
Qed.

Lemma commit_then {A} candidate (a : A) f : (((_commit persist candidate);; mret a) f).1 = (_commit persist candidate f).1.
Proof. rewrite M_bind_run. by destruct (_commit persist candidate f) as [? []]. Qed.

Lemma heartbeat_commits c token now : one_commit (FailoverCoordinator.heartbeat persist c token now).
Proof.
  intros f. unfold FailoverCoordinator.heartbeat, FailoverCoordinator.commit_or_false.
  repeat case_match; simpl; try (by left). right. eexists. apply commit_then.
Qed.
Lemma promote_commits now fresh : one_commit (FailoverCoordinator.promote_if_due persist now fresh).
Proof.
  intros f. unfold FailoverCoordinator.promote_if_due. repeat case_match; simpl; try (by left).
  right. eexists. apply commit_then.
Qed.
Lemma rejoin_commits n epoch : one_commit (FailoverCoordinator.rejoin_as_worker persist n epoch).
Proof.
  intros f. unfold FailoverCoordinator.rejoin_as_worker. case_match; simpl; [right; by eexists|by left].
Qed.
Lemma assign_commits actor target roles now : one_commit (FailoverCoordinator.assign_role persist actor target roles now).
Proof.
  intros f. unfold FailoverCoordinator.assign_role. case_match; simpl; [|by left]. case_match.
  right. eexists. apply commit_then.
Qed.
Lemma revoke_commits actor target : one_commit (FailoverCoordinator.revoke_member persist actor target).
Proof.
  intros f. unfold FailoverCoordinator.revoke_member. case_match; simpl; [right; by eexists|by left].
Qed.

(** ** The operations of the runtime *)

Inductive local_op :=
  | Heartbeat (coordinator_id : NodeId) (token : string) (now : float)
  | PromoteIfDue (now : float) (fresh : string)
  | Rejoin (node_id : NodeId) (current_epoch : Z)
  | AssignRole (target : NodeId) (role : ClusterRole)
  | RevokeMember (target : NodeId).

Definition local_run (o : local_op) w : W :=
  match o with
  | Heartbeat c token now => (heartbeat write_fails c token now w).1
  | PromoteIfDue now fresh => (promote_if_due write_fails now fresh w).1
  | Rejoin n epoch => (rejoin_as_worker write_fails n epoch w).1
  | AssignRole target role => (assign_role clock write_fails target role w).1
  | RevokeMember target => (revoke_member write_fails target w).1
  end.

(** The coordinator is as it was, or the cluster is its topology. *)
Definition published w w' : Prop := _failover_coordinator (outside w') = _failover_coordinator (outside w) ∨
  ∃ s, _failover_coordinator (outside w') = Some s ∧ cluster_is s w'.

Lemma on_failover_published {A} (m : M (FailoverCoordinator.t W) A) w : one_commit m → published w (on_failover m w).1.
Proof.
  intros Hm. unfold on_failover. destruct (_failover_coordinator (outside w)) as [s|] eqn:Es; [|left; by rewrite Es].
  pose proof (Hm (FailoverCoordinator.mk s w)) as H. destruct (m _) as [f r]. simpl in *.
  destruct H as [->|[candidate ->]]; [left; by rewrite Es|].
  destruct (commit_published candidate (FailoverCoordinator.mk s w)) as [E|[E Hc]]; simpl in *.
  - left. by rewrite E, Es.
  - right. exists candidate. by rewrite E.
Qed.

(** What comes before only reads. *)
Lemma published_after {A B} (m : M W A) (k : A → M W B) w :
  (∀ w' r, m w = (w', r) → outside w' = outside w) → (∀ a w', outside w' = outside w → published w' (k a w').1) →
  published w ((m ≫= k) w).1.
Proof.
  intros Hm Hk. rewrite M_bind_run. destruct (m w) as [w1 [a|e]] eqn:E; specialize (Hm _ _ eq_refl).
  - specialize (Hk a w1 Hm). unfold published in *. by rewrite Hm in Hk.
  - left. simpl. by rewrite Hm.
Qed.

Lemma published_ret {A B} (m : M W A) (b : A → B) w : published w (m w).1 → published w ((a ← m; mret (b a)) w).1.
Proof. rewrite M_bind_run. by destruct (m w) as [w1 [a|e]]. Qed.

Lemma reads_only w : (∀ w' r, (_require_cluster : M W Cluster.t) w = (w', r) → outside w' = outside w) ∧
  (∀ w' r, (_require_failover : M W ()) w = (w', r) → outside w' = outside w) ∧
  (∀ w' r, (Service.now clock : M W float) w = (w', r) → outside w' = outside w) ∧
  (∀ A (x : result A) w' r, (lift x : M W A) w = (w', r) → outside w' = outside w).
Proof.
  split; [|split; [|split]]; [| | |by intros A x w' r [= <- _]]; intros w' r.
  - unfold _require_cluster. rewrite M_bind_run. simpl. by intros [= <- _].
  - unfold _require_failover. rewrite M_bind_run. simpl. by intros [= <- _].
  - unfold Service.now. by intros [= <- _].
Qed.

(** A local operation acts on the coordinator's own topology: when it changes the state the
    coordinator publishes, the runtime's members, epoch, promotions and grants are those of
    that state, whatever they were before. *)
Theorem local_operations_impose_the_coordinator o w :
  _failover_coordinator (outside (local_run o w)) = _failover_coordinator (outside w) ∨
  ∃ s, _failover_coordinator (outside (local_run o w)) = Some s ∧ cluster_is s (local_run o w).
Proof.
  change (published w (local_run o w)). destruct o as [c token now|now fresh|n epoch|target role|target]; simpl.
  - apply on_failover_published, heartbeat_commits.
  - apply on_failover_published, promote_commits.
  - apply on_failover_published, rejoin_commits.
  - unfold assign_role. apply published_after; [apply reads_only|]. intros c w1 _. apply published_after; [apply reads_only|].
    intros _ w2 _. apply published_after; [intros; by eapply reads_only|]. intros actor w3 _.
    apply published_after; [apply reads_only|]. intros current w4 _. apply published_ret, on_failover_published, assign_commits.
  - unfold revoke_member. apply published_after; [apply reads_only|]. intros c w1 _. apply published_after; [apply reads_only|].
    intros _ w2 _. apply published_after; [intros; by eapply reads_only|]. intros actor w3 _.
    apply on_failover_published, revoke_commits.
Qed.
End local.

(** ** A member that was revoked over the network is back after the next heartbeat *)

Definition after_revocation : World SampleRuntime := (sample_dispatch no_failure revoke_request).1.
Definition after_heartbeat : World SampleRuntime :=
  local_run sample_clock no_failure (Heartbeat node_c "token" (flit 115)) after_revocation.
Definition member_w (w : World SampleRuntime) : option RoleAssignment.t :=
  _cluster (outside w) ≫= λ c, od_get node_w (Cluster.assignments c).

Example revoked_member_is_back :
  RoleAssignment.revoked <$> member_w after_revocation = Some true ∧
  RoleAssignment.revoked <$> member_w after_heartbeat = Some false.
Proof. by vm_compute. Qed.
