(* ===== verification/RuntimeDiscoverySpec.v ===== *)
(** * What the runtime hears agrees with the trust it has

    Whatever is announced on the network, the table of peers takes only candidates that were
    announced, are not this node, have routes that can be tried, and agree with the trust there
    is: a trusted peer keeps its transport, or shows a newer one that its root has signed. *)

From S2P Require Import Prelude PyFloat Identity PyJson Sharing Session Surfaces Service ClusterModels Roles Operations Failover ConnectionState NodeRegistry Pairing PairingSpec Candidates Connections Discovery DiscoverySpec Runtime RuntimeDiscovery RuntimeFacts.
Import Runtime(_identity, _loaded, network, _connection_manager, _generation, started).
Import Material(transport_fingerprint, root_public_key, transport_generation, transport_proof).

Section runtime_discovery.
Context {Cap Srf Pr : Type}.
Notation R := (Runtime.t Cap Srf Pr).
Notation W := (World R).
Implicit Types w : W.
Context (clock : nat → float).
Context (b64decode : string → option string) (ed25519_verify : string → string → string → bool).
Context (on_discovery : option (EventKind → M W ())).
Notation valid := (_trusted_candidate_is_valid b64decode ed25519_verify).
Notation hear := (_on_discovery clock b64decode ed25519_verify on_discovery).
Notation emit := (_emit_events clock b64decode ed25519_verify on_discovery).

Definition candidates w : list (string * DiscoveredNodeCandidate.t) := Network.candidates (network (outside w)).
Definition trust w : PairingManager.t := Runtime.pairing (outside w).

(** The trust, and whether the runtime is listening, are as they were. *)
Definition same_trust w w' : Prop :=
  trust w' = trust w ∧ _loaded (outside w') = _loaded (outside w) ∧
  _generation (outside w') = _generation (outside w) ∧ started (outside w') = started (outside w).
(** So is the table. *)
Definition untouched w w' : Prop := same_trust w w' ∧ candidates w' = candidates w.

#[local] Instance same_trust_refl : Reflexive same_trust.
Proof. by split. Qed.
#[local] Instance same_trust_trans : Transitive same_trust.
Proof. unfold same_trust. intros w1 w2 w3 (? & ? & ? & ?) (? & ? & ? & ?). by repeat split; etrans. Qed.
#[local] Instance untouched_refl : Reflexive untouched.
Proof. by split. Qed.
#[local] Instance untouched_trans : Transitive untouched.
Proof. intros w1 w2 w3 [] []. by split; etrans. Qed.

(** The application's callback leaves the trust and the table alone. *)
Context (callback_leaves : ∀ callback e, on_discovery = Some callback → Keeps untouched (callback e)).

#[local] Instance runtime_untouched : Keeps untouched (runtime (Hc := Cap) (Hs := Srf) (Pr := Pr)).
Proof. by intros w. Qed.
#[local] Instance now_untouched : Keeps untouched (Service.now clock : M W float).
Proof. by intros w. Qed.
#[local] Instance on_net_untouched {A} (m : M (Network.t Pr) A) :
  (∀ n, Network.pairing (m n).1 = Network.pairing n ∧ Network.candidates (m n).1 = Network.candidates n) →
  Keeps untouched (on_net (W := W) m).
Proof.
  intros H w. unfold on_net. destruct (H (net w)) as [H1 H2]. destruct (m (net w)) as [n r]. simpl in *.
  by repeat split.
Qed.
#[local] Instance manager_untouched f : Keeps untouched (on_net (W := W) (Network.on_manager (Pr := Pr) f)).
Proof. apply on_net_untouched. by intros n. Qed.
#[local] Instance registry_untouched {A} (m : M NodeRegistry.t A) : Keeps untouched (on_registry m : M W A).
Proof. apply on_net_untouched. intros n. unfold Network.on_registry. by destruct (m (Network.registry n)). Qed.
#[local] Instance tell_untouched e : Keeps untouched (tell on_discovery e).
Proof. unfold tell. destruct on_discovery as [callback|] eqn:E; [by apply callback_leaves|apply _]. Qed.
#[local] Instance set_state_untouched p state : Keeps untouched (on_net (W := W) (Network._set_state (Pr := Pr) p state)).
Proof.
  apply on_net_untouched. intros n. unfold Network._set_state. destruct (NodeRegistry.record _ _); [|done].
  rewrite M_bind_run. unfold Network.on_registry. by destruct (NodeRegistry.set_connection _ _ _) as [? []].
Qed.
#[local] Instance disconnect_untouched p reason : Keeps untouched (disconnect clock p reason : M W ()).
Proof. unfold disconnect, Connections.disconnect, forget_provider, set_state. keeps. Qed.

(** ** One event *)

(** The table after some events: what is new was told, and was found valid. *)
Record hears (events : list EventKind) w w' : Prop := {
  hears_trust : same_trust w w';
  hears_new : ∀ id c, od_get id (candidates w') = Some c → od_get id (candidates w) = Some c ∨
    EVENT_CANDIDATE c ∈ events ∧ DiscoveredNodeCandidate.stable_id c = id ∧ valid (outside w) c = true }.

Lemma hears_untouched events w w' : untouched w w' → hears events w w'.
Proof. intros [Ht Hc]. split; [done|]. intros id c. rewrite Hc. by left. Qed.

Lemma valid_same w w' c : same_trust w w' → valid (outside w') c = valid (outside w) c.
Proof. intros (Ht & Hl & _). unfold _trusted_candidate_is_valid. by rewrite Hl; fold (trust w') (trust w); rewrite Ht. Qed.

Lemma hears_trans l1 l2 w1 w2 w3 : hears l1 w1 w2 → hears l2 w2 w3 → hears (l1 ++ l2) w1 w3.
Proof.
  intros [T1 H1] [T2 H2]. split; [by etrans|]. intros id c Hc.
  destruct (H2 _ _ Hc) as [Ho|(Hin & Hid & Hv)]; [destruct (H1 _ _ Ho) as [?|(? & ? & ?)]; [by left|]|]; right.
  - split; [apply elem_of_app; by left|done].
  - rewrite (valid_same w1 w2) in Hv by done. split; [apply elem_of_app; by right|done].
Qed.

(** The step on the table, then methods that leave it alone. *)
Lemma on_candidates_run {A} f (k : M W A) w w' r `{!Keeps untouched k} :
  (on_candidates f;; k) w = (w', r) → same_trust w w' ∧ candidates w' = f (candidates w).
Proof.
  rewrite M_bind_run. unfold on_candidates, update. intros Hk. apply (keeps_run untouched) in Hk as [Ht Hc]; [|done].
  split; [|exact Hc]. by destruct Ht as (? & ? & ? & ?).
Qed.

Lemma on_candidates_bind {A} f (k : M W ()) (k' : M W A) w : ((on_candidates f;; k);; k') w = (on_candidates f;; (k;; k')) w.
Proof. by rewrite !M_bind_run. Qed.

#[local] Instance lose_rest_untouched node_id : Keeps untouched
  (r ← runtime (Hc := Cap) (Hs := Srf) (Pr := Pr);
   if negb (_loaded r) then mret ()
   else attempt (peer_id ← lift (NodeId.__post_init__ node_id);
                 r ← runtime;
                 if _connection_manager r then disconnect clock peer_id "peer disappeared" else mret ())
          (λ e, if exn_isa e ValueError then mret () else lift (Err e))).
Proof.
  keeps.
Qed.

(** What is listed is what was heard: no peer stays listed that was lost. *)
Definition listed w (m : gmap string DiscoveredNodeCandidate.t) : Prop :=
  ∀ id, is_Some (od_get id (candidates w)) → is_Some (m !! id).

Lemma hear_event generation e w w' r : hear generation e w = (w', r) → hears [e] w w' ∧
  (generation = _generation (outside w) → started (outside w) = true → ∀ m, listed w m → listed w' (heard m e)).
Proof.
  unfold _on_discovery. rewrite M_bind_run. unfold runtime at 1. cbv beta iota.
  destruct (negb (bool_decide (generation = _generation (outside w))) || negb (started (outside w))) eqn:Hoff.
  { intros [= <- <-]. split; [by apply hears_untouched|]. intros Hg Hs.
    by rewrite bool_decide_eq_true_2, Hs in Hoff. }
  clear Hoff.
  destruct e as [c|node_id].
  - destruct (valid (outside w) c) eqn:Hv; simpl.
    + intros Hr. apply on_candidates_run in Hr as [Ht Hc]; [|keeps]. split.
      * split; [done|]. intros id c'. rewrite Hc, od_get_set. case_decide as E; [|by left].
        intros [= <-]. right. split; [by apply list_elem_of_singleton|done].
      * intros _ _ m Hm id. rewrite Hc, od_get_set. simpl. case_decide as E; [subst; by rewrite lookup_insert_eq|].
        rewrite lookup_insert_ne by done. apply Hm.
    + intros [= <- <-]. split; [by apply hears_untouched|]. intros _ _ m Hm id Hid. simpl.
      destruct (decide (DiscoveredNodeCandidate.stable_id c = id)) as [->|]; [by rewrite lookup_insert_eq|].
      rewrite lookup_insert_ne by done. by apply Hm.
  - unfold lose. rewrite on_candidates_bind. intros Hr. apply on_candidates_run in Hr as [Ht Hc]; [|keeps]. split.
    + split; [done|]. intros id c'. rewrite Hc, od_get_pop. case_decide; [done|]. by left.
    + intros _ _ m Hm id. rewrite Hc, od_get_pop. simpl. case_decide; [by intros []|].
      rewrite lookup_delete_ne by done. apply Hm.
Qed.

Lemma hear_events generation events w w' r : emit generation events w = (w', r) → hears events w w' ∧
  (generation = _generation (outside w) → started (outside w) = true → ∀ m, listed w m → listed w' (foldl heard m events)).
Proof.
  revert w. induction events as [|e events IH]; intros w; cbn [_emit_events].
  { intros [= <- <-]. split; [by apply hears_untouched|done]. }
  rewrite M_bind_run. unfold attempt. destruct (hear generation e w) as [w1 res] eqn:He.
  apply hear_event in He as [H1 L1]. intros Hr. assert (Hr' : emit generation events w1 = (w', r)) by (by destruct res).
  apply IH in Hr' as [H2 L2]. split; [by apply (hears_trans [e] events _ w1)|]. intros Hg Hs m Hm. simpl.
  destruct (hears_trust _ _ _ H1) as (_ & _ & Eg & Es). apply L2; [by rewrite Eg|by rewrite Es|by apply L1].
Qed.

(** ** A history *)

(** A candidate that agrees with the trust in its peer: the identity is the pinned one, and the
    transport is the pinned one or a newer one that the pinned root signed. *)
Definition agrees (m : PairingManager.t) (c : DiscoveredNodeCandidate.t) : Prop :=
  ∃ p, NodeId.__post_init__ (DiscoveredNodeCandidate.stable_id c) = Ok p ∧
  ∀ owner pinned, known_peer m p = Some (owner, pinned) →
    (∀ fp, truthy (Material.identity_fingerprint pinned) = Some fp →
       DiscoveredNodeCandidate.identity_fingerprint c = Some fp) ∧
    (transport_fingerprint pinned ≠ None →
       DiscoveredNodeCandidate.transport_fingerprint c = transport_fingerprint pinned ∨
       rotated b64decode ed25519_verify owner pinned (DiscoveredNodeCandidate.transport_fingerprint c)
         (DiscoveredNodeCandidate.transport_generation c) (DiscoveredNodeCandidate.transport_proof c)).

Lemma valid_agrees (r : R) c : valid r c = true → agrees (Runtime.pairing r) c.
Proof.
  unfold _trusted_candidate_is_valid. destruct (_loaded r); [|done]. simpl.
  destruct (NodeId.__post_init__ (DiscoveredNodeCandidate.stable_id c)) as [p|] eqn:Hp; [|done]. intros H.
  exists p. split; [done|]. intros owner pinned Hk. rewrite Hk in H. apply andb_true_iff in H as [Hi Ht]. split.
  - intros fp Hfp. rewrite Hfp in Hi. by apply bool_decide_eq_true in Hi.
  - intros Hne. apply orb_true_iff in Ht as [Ht|Ha].
    + apply orb_true_iff in Ht as [Ht|Ht]; apply bool_decide_eq_true in Ht; [done|by left].
    + apply allowed_exact in Ha as [?|(_ & _ & ?)]; [by left|by right|done].
Qed.

Section history.
Context (ip_address : string → option IPAddress) (inet_ntop : bool → string → option string).
Context (utf8_decode : string → string).
Context (inet_ntop_text : ∀ v6 packed text, inet_ntop v6 packed = Some text → is_blank text = false).

Notation run := (DiscoverySpec.run ip_address inet_ntop utf8_decode).
Notation delivered generation := (deliver clock b64decode ed25519_verify on_discovery generation).

(** Each call of the component, and the delivery of what it tells. *)
Definition heard_history (generation : Z) (calls : list call) (dw : NetworkDiscovery.t * W) : NetworkDiscovery.t * W :=
  foldl (λ dw o, (delivered generation (run o) dw).1) dw calls.

(** The candidates of the table, and those of [w0] it may still hold. *)
Record follows (local : string) (w0 : W) (dw : NetworkDiscovery.t * W) : Prop := {
  follows_sound : sound dw.1 ∧ coherent ip_address dw.1 ∧ NetworkDiscovery._local_node_id dw.1 = local;
  follows_trust : same_trust w0 dw.2;
  follows_new : ∀ id c, od_get id (candidates dw.2) = Some c → od_get id (candidates w0) = Some c ∨
    announced local (EVENT_CANDIDATE c) ∧ DiscoveredNodeCandidate.stable_id c = id ∧ valid (outside w0) c = true }.

Lemma deliver_follows local w0 generation o d w : follows local w0 (d, w) →
  let dw := (delivered generation (run o) (d, w)).1 in
  follows local w0 dw ∧ (generation = _generation (outside w0) → started (outside w0) = true →
    listed w (view d) → listed dw.2 (view dw.1)).
Proof.
  intros [(Hs & Hc & Hl) Ht Hn]. simpl in *. unfold deliver. simpl.
  destruct (run_call ip_address inet_ntop utf8_decode inet_ntop_text o d Hs Hc) as (d' & r & -> & Hset).
  destruct r as [events|e]; simpl; [|by destruct Hset as [-> _]]. destruct Hset as [T _].
  destruct (emit generation events w) as [w' res] eqn:He. simpl. apply hear_events in He as [H L].
  destruct (tells_config _ _ _ _ T) as [El _]. split; [split; simpl|].
  - split; [apply T|]. split; [apply T|congruence].
  - etrans; [done|apply H].
  - intros id c Hget. destruct (hears_new _ _ _ H _ _ Hget) as [Ho|(Hin & Hid & Hv)]; [by apply Hn|].
    right. pose proof (tells_announced _ _ _ _ T) as Ha. rewrite Forall_forall in Ha. apply Ha in Hin.
    rewrite Hl in Hin. split; [done|]. split; [done|]. by rewrite (valid_same w0 w) in Hv.
  - destruct Ht as (_ & _ & Eg & Es). intros Hg Hst Hm. rewrite (tells_view _ _ _ _ T).
    apply L; [by rewrite Eg|by rewrite Es|done].
Qed.

(** C15. Discovery cannot put a peer in place of one that is trusted.  Whatever records arrive, add,
    change and withdraw what they like, and expire: the trust stays as it is, and a candidate
    the runtime has and did not have was announced under its own valid identity, is not this
    node, has routes that can be tried, and agrees with the trust there is in that peer.  And
    the runtime lists no peer that discovery does not list. *)
Theorem discovery_cannot_replace_trust generation local a service_type ttl calls w :
  let '(d, w') := heard_history generation calls (listening local a service_type ttl, w) in
  trust w' = trust w ∧
  (∀ id c, od_get id (candidates w') = Some c → od_get id (candidates w) = Some c ∨
     DiscoveredNodeCandidate.stable_id c = id ∧ id ≠ local ∧ routable c ∧ agrees (trust w) c) ∧
  (candidates w = [] → generation = _generation (outside w) → started (outside w) = true →
     ∀ id, is_Some (od_get id (candidates w')) → is_Some (od_get id (NetworkDiscovery._peers d))).
Proof.
  set (d0 := listening local a service_type ttl).
  assert (H0 : follows local w (d0, w)).
  { split; simpl; [|done|by left]. split; [|by split]. split; simpl; [set_solver|done|split; constructor]. }
  assert (H : let dw := heard_history generation calls (d0, w) in follows local w dw ∧
    (candidates w = [] → generation = _generation (outside w) → started (outside w) = true → listed dw.2 (view dw.1))).
  { induction calls as [|o calls IH] using rev_ind; simpl in *.
    - split; [done|]. intros Hc _ _ id. rewrite Hc. by intros [].
    - unfold heard_history in *. rewrite foldl_app. simpl. destruct IH as [IH IHm].
      destruct (foldl _ _ calls) as [d w1]. destruct (deliver_follows local w generation o d w1 IH) as [Hf Hm].
      split; [done|]. intros. apply Hm; auto. }
  destruct (heard_history generation calls (d0, w)) as [d w']. destruct H as [[_ Ht Hn] Hm]. simpl in *. split; [apply Ht|].
  split.
  - intros id c Hget. destruct (Hn _ _ Hget) as [?|((Hr & _ & _ & Hl) & Hid & Hv)]; [by left|right].
    split; [done|]. split; [congruence|]. split; [done|]. by apply valid_agrees.
  - intros Hc Hg Hst id Hid. specialize (Hm Hc Hg Hst id Hid). rewrite view_lookup in Hm. by apply fmap_is_Some in Hm.
Qed.
End history.
End runtime_discovery.

(** ** A concrete network: the runtime trusts [p] with the fingerprint ["f0"] *)

Definition trusting_world (fp : string) : World SampleRuntime :=
  mkWorld node_service 0 (Runtime.set_pairing sample_runtime
    (PairingManager.set_trusted paired_coordinator
       {[mkNodeId "p" := TrustedPeer.mk (mkNodeId "p") sample_secret {[Permission.Text "read_state"]}
           (Material.mk None (Some fp) None None None)]})).

Definition toy_history (fp : string) :=
  heard_history sample_clock (λ _, None) (λ _ _ _, true) None toy_ip toy_ntop toy_utf8 1 two_services
    (listening "n" sample_advertisement SERVICE_TYPE (flit 100), trusting_world fp).

Lemma discovery_cannot_replace_trust_witness :
  (candidates (toy_history "f0").2 = [] ∧ length (candidates (toy_history "f1").2) = 1) ∧
  trust (toy_history "f0").2 = trust (trusting_world "f0").
Proof.
  split; [by vm_compute|].
  assert (Ht : ∀ v6 packed text, toy_ntop v6 packed = Some text → is_blank text = false) by (by intros ? ? ? [= <-]).
  assert (Hcb : ∀ (callback : EventKind → M (World SampleRuntime) ()) e, None = Some callback →
    Keeps untouched (callback e)) by done.
  pose proof (discovery_cannot_replace_trust sample_clock (λ _, None) (λ _ _ _, true) None Hcb toy_ip toy_ntop toy_utf8 Ht
    1 "n" sample_advertisement SERVICE_TYPE (flit 100) two_services (trusting_world "f0")) as H.
  unfold toy_history. destruct (heard_history _ _ _ _ _ _ _ _ _ _) as [d w']. apply H.
Defined.
