(* ===== verification/RuntimeSpec.v ===== *)
(** * The runtime: changes are durable, and revoked peers stay out

    What an operation that returned has saved, what one that failed has changed, and what the
    service of the same runtime answers afterwards.  The writes may fail at any point and the
    clock may read anything. *)

From S2P Require Import Prelude PyFloat Identity ClusterModels Roles RolesFacts Failover Operations Sharing ConnectionState NodeRegistry PyJson StateCodec Wire Pairing Surfaces Candidates Connections Service Documents TrustCodec Runtime RoleDispatch RuntimeFacts.
Import Runtime(_identity, _loaded, network, _connection_manager, _pending_permissions, _cluster,
  _cluster_capability_grants, _cluster_store, _failover_coordinator, _sharing, _surface_registry, _service,
  _persistence_ready, _generation, started, trust_file, cluster_file).
Abbreviation dict := (list (string * json)) (only parsing).

Section spec.
Context (sha256_hex : string → string).
Context {Cap Srf Pr : Type}.
Notation R := (Runtime.t Cap Srf Pr).
Notation W := (World R).
Context (clock : nat → float) (write_fails : nat → option exn).
Implicit Types (w : W) (r : R) (c : Cluster.t).

Notation save := (_save_persisted_state write_fails).

(** ** Saving *)

(** The saved cluster is the current one. *)
Definition persisted w : Prop :=
  ∃ c d, _cluster (outside w) = Some c ∧ to_dict (cluster_state (outside w) c) = Ok d ∧
    cluster_file (outside w) = Some d.

Lemma persisted_undisturbed w w' : persisted w → undisturbed w w' → persisted w'.
Proof.
  intros (c & d & Hc' & Hd & Hf) [[E1 E2 _ _] E3]. exists c, d. rewrite E1, E3. split; [done|].
  split; [|done]. unfold cluster_state in *. by rewrite E2.
Qed.

(** A save that reports success has saved the cluster. *)
Lemma save_true w w' c : save w = (w', Ok true) → _cluster (outside w) = Some c → persisted w'.
Proof.
  intros Hs Hc'. pose proof (keeps_run same_cluster (save : M W bool) _ _ _ Hs) as [E1 E2 _ _].
  unfold _save_persisted_state in Hs. apply M_bind_Ok in Hs as (? & r & [= <- <-] & Hs).
  destruct (_ || _); [by apply mret_run in Hs as [_ ?]|].
  apply M_bind_Ok in Hs as (w1 & b & Ht & Hs). rewrite Hc' in Hs.
  apply M_bind_Ok in Hs as (w2 & b2 & Hsc & [-> Hb]%mret_run).
  apply andb_true_iff in Hb as [-> ->].
  apply saved_true in Hsc. unfold save_cluster in Hsc.
  apply M_bind_Ok in Hsc as (? & d & [-> Hd]%lift_Ok & Hw). unfold write in Hw.
  destruct (write_fails _); [done|]. injection Hw as <-. exists c, d. rewrite E1, Hc'.
  split; [done|]. split; [|done]. unfold cluster_state in *. by rewrite E2.
Qed.

(** The classes of errors a save turns into a verdict. *)
Definition handled (e : exn) : bool := exn_isa e OSError || exn_isa e TypeError || exn_isa e ValueError.

(** A save let an error of another class through. *)
Definition save_raised (e : exn) : Prop := handled e = false ∧ ∃ w1 w2, save w1 = (w2, Err e).

Lemma saved_raises (m : M W ()) w w' e : saved m w = (w', Err e) → handled e = false.
Proof.
  unfold saved, attempt. rewrite M_bind_run. destruct (m w) as [w1 [[]|e1]]; [done|].
  fold (handled e1). destruct (handled e1) eqn:Hh; unfold mret, M_ret, lift; naive_solver.
Qed.

Lemma save_raises w w' e : save w = (w', Err e) → save_raised e.
Proof.
  intros Hs. split; [|eauto]. unfold _save_persisted_state in Hs. rewrite M_bind_run in Hs. simpl in Hs.
  destruct (_ || _); [done|]. rewrite M_bind_run in Hs.
  destruct (saved _ w) as [w1 [b|e1]] eqn:H1; [|apply saved_raises in H1; congruence].
  destruct (_cluster _); [|done]. rewrite M_bind_run in Hs.
  destruct (saved _ w1) as [w2 [b2|e2]] eqn:H2; [done|apply saved_raises in H2; congruence].
Qed.

(** ** A change of the cluster is saved, undone, or left by an unhandled error *)

Definition settled_by {A} w w' (res : result A) : Prop :=
  unchanged w w' ∨ persisted w' ∨ ∃ e, res = Err e ∧ save_raised e.

(** A method settles the cluster [c]; with [b], an answer means that it is saved. *)
Definition settles (b : bool) c {A} (m : M W A) w : Prop :=
  _cluster (outside w) = Some c → ∀ w' res, m w = (w', res) →
  settled_by w w' res ∧ (b = true → is_ok res = true → persisted w').

Lemma settles_bind b c {A B} (g : M W A) (k : A → M W B) w : Keeps undisturbed g →
  (∀ w1 a, g w = (w1, Ok a) → settles b c (k a) w1) → settles b c (g ≫= k) w.
Proof.
  intros Hg Hk Hc w' res Hr. rewrite M_bind_run in Hr. destruct (g w) as [w1 [a|e]] eqn:Hw.
  - pose proof (keeps_run _ g _ _ _ Hw) as [[E1 E2 _ _] _].
    destruct (Hk w1 a eq_refl) with (w' := w') (res := res) as [Hs Hp]; [by rewrite E1|done|].
    split; [|done]. destruct Hs as [[F1 F2]|?]; [left; split; congruence|by right].
  - injection Hr as <- <-. split; [|done]. left. apply undisturbed_unchanged. by apply (keeps_run _ g _ _ _ Hw).
Qed.

Lemma settles_quiet c {A} (m : M W A) w : Keeps undisturbed m → settles false c m w.
Proof.
  intros Hm _ w' res Hr. split; [|done]. left. apply undisturbed_unchanged. by apply (keeps_run _ m _ _ _ Hr).
Qed.

Lemma settles_throw b c {A} cls msg w : settles b c (throw cls msg : M W A) w.
Proof. intros _ w' res [= <- <-]. split; [by left|done]. Qed.

Lemma settles_run {A B} b (m : M W A) w w' res (k : A → M W B) w2 res2 :
  m w = (w', res) → settled_by w w' res ∧ (is_ok res = true → persisted w') →
  (∀ a, Keeps undisturbed (k a)) →
  (m ≫= k) w = (w2, res2) → settled_by w w2 res2 ∧ (b = true → is_ok res2 = true → persisted w2).
Proof.
  intros Hm [Hset Hok] Hk Hr. rewrite M_bind_run, Hm in Hr. destruct res as [a|e].
  - specialize (Hok eq_refl). pose proof (keeps_run _ (k a) _ _ _ Hr) as Hu.
    split; [right; left|intros _ _]; by eapply persisted_undisturbed.
  - injection Hr as <- <-. split; [|done]. destruct Hset as [?|[?|(e' & [= <-] & ?)]].
    + by left.
    + by right; left.
    + right. right. by exists e.
Qed.

(** The shape all the operations share, after the new state was published: save, and undo. *)
Lemma save_settles {A} c' failure (undo : M W ()) (k : M W A) w0 w w' res :
  Keeps undisturbed k → _cluster (outside w) = Some c' →
  (∀ w1, same_cluster w w1 → ∃ w2, undo w1 = (w2, Ok ()) ∧ unchanged w0 w2) →
  (persisted ← save; if negb persisted then undo;; throw RuntimeError failure else k) w = (w', res) →
  settled_by w0 w' res ∧ (is_ok res = true → persisted w').
Proof.
  intros Hk Hc Hundo Hr. rewrite M_bind_run in Hr. destruct (save w) as [w1 [d|e]] eqn:Hs.
  2: { injection Hr as <- <-. split; [|done]. right. right. exists e. split; [done|]. by eapply save_raises. }
  pose proof (keeps_run same_cluster (save : M W bool) _ _ _ Hs) as Hsame. destruct d; simpl in Hr.
  - apply save_true with (c := c') in Hs; [|done].
    pose proof (keeps_run _ k _ _ _ Hr) as Hu. split; [right; left|intros _]; by eapply persisted_undisturbed.
  - destruct (Hundo w1 Hsame) as (w2 & Hw2 & Hun). rewrite M_bind_run, Hw2 in Hr. injection Hr as <- <-.
    split; [by left|done].
Qed.

Lemma publish_settles c c' grants old failure {A} (k : M W A) b w :
  Keeps undisturbed k → old = _cluster_capability_grants (outside w) →
  settles b c (put_state c' grants;;
               persisted ← save;
               if negb persisted then put_state c old;; throw RuntimeError failure else k) w.
Proof.
  intros Hk -> Hc w' res Hr. rewrite M_bind_run in Hr. unfold put_state at 1, update in Hr.
  apply save_settles with (w0 := w) (c' := c') in Hr as [? Hp]; [auto|done|done|].
  intros w1 _. eexists. split; [done|]. by split.
Qed.

Lemma commit_settles c updated failure {A} (k : M W A) b w : Keeps undisturbed k →
  settles b c (commit_topology write_fails c updated failure;; k) w.
Proof.
  intros Hk Hc w' res Hr. destruct (commit_topology write_fails c updated failure w) as [w1 res1] eqn:Ht.
  refine (settles_run b _ _ _ _ (λ _, k) _ _ Ht _ _ Hr). unfold commit_topology in Ht.
  rewrite M_bind_run in Ht. simpl in Ht.
  apply publish_settles with (c := c) (b := true) in Ht as [? Hp]; [auto|apply _|done|done].
Qed.

Ltac settle := repeat first
  [apply settles_throw
  |apply commit_settles; keeps
  |apply settles_bind; [apply _|intros ? ? ?]].

(** ** [dispatch_role_request] *)

Notation dispatch := (dispatch_role_request sha256_hex clock write_fails).

(** The operations that change what is saved. *)
Definition changing_ops : list string :=
  ["consume_invite"; "renew_coordinator_lease"; "assign_role"; "revoke_member"; "revoke_worker";
   "pause_worker"; "resume_worker"; "remove_job"; "grant_capabilities"; "revoke_capabilities";
   "sync_capability_grant"].

Lemma assign_settles b params caller actor state current c w :
  settles b c (dispatch_assign_role write_fails params caller actor state current c) w.
Proof. unfold dispatch_assign_role. settle. Qed.

Lemma transition_settles b op params actor state c w :
  settles b c (dispatch_transition write_fails op params actor state c) w.
Proof. unfold dispatch_transition. settle. Qed.

Lemma capabilities_settles b op params caller actor state current c w :
  settles b c (dispatch_capabilities write_fails op params caller actor state current c) w.
Proof.
  unfold dispatch_capabilities. do 3 (apply settles_bind; [apply _|intros ? ? ?]).
  apply settles_bind; [apply _|]. intros wr r Hr. injection Hr as <- <-.
  apply settles_bind; [apply _|]. intros wl updated [-> _]%lift_Ok.
  apply publish_settles; [keeps|done].
Qed.

(** The lease is saved when there is a store; a runtime with a cluster has one. *)
Lemma lease_settles b params caller current c w : _cluster_store (outside w) = true →
  settles b c (dispatch_renew_lease write_fails params caller current c) w.
Proof.
  intros Hstore. unfold dispatch_renew_lease.
  apply settles_bind; [apply _|]. intros w1 u [-> _]%throw_if_Ok.
  apply settles_bind; [apply _|]. intros w2 token [-> _]%lift_Ok.
  apply settles_bind; [apply _|]. intros w3 renewed [-> _]%lift_Ok.
  intros Hc w' res Hr. rewrite M_bind_run in Hr. unfold put_cluster at 1, update in Hr.
  rewrite M_bind_run in Hr. cbn [runtime] in Hr. cbv beta iota zeta in Hr. simpl in Hr. rewrite Hstore in Hr.
  apply save_settles with (w0 := w) (c' := with_epoch c renewed) in Hr as [? Hp]; [auto| |done|].
  - keeps.
  - intros wl [_ E _ _]. eexists. split; [done|]. by split.
Qed.

Lemma member_settles b op params caller actor state current c w :
  _cluster_store (outside w) = true → op ∈ changing_ops ∨ b = false →
  settles b c (dispatch_member clock write_fails op params caller actor state current c) w.
Proof.
  intros Hstore Hop. unfold dispatch_member.
  case_bool_decide; [by apply lease_settles|]. case_bool_decide; [apply assign_settles|].
  case_bool_decide; [apply transition_settles|].
  case_bool_decide.
  { destruct Hop as [Hop| ->]; [subst; unfold changing_ops in Hop; set_solver|].
    apply settles_quiet. unfold dispatch_remove_connection. keeps. }
  case_bool_decide; [apply capabilities_settles|].
  case_bool_decide; [|apply settles_throw].
  destruct Hop as [Hop| ->]; [unfold changing_ops in Hop; set_solver|]. apply settles_quiet. apply _.
Qed.

Lemma dispatch_settles b c request w : _cluster_store (outside w) = true →
  RemoteRequest.op request ≠ "consume_invite" →
  RemoteRequest.op request ∈ changing_ops ∨ b = false → _cluster (outside w) = Some c →
  settles b c (dispatch request) w.
Proof.
  intros Hstore Hop Hb Hcl. unfold dispatch_role_request.
  apply settles_bind; [apply _|]. intros w1 ? [-> ->]%(require_cluster_run _ _ _ _ Hcl).
  apply settles_bind; [apply _|]. intros w2 r [= <- <-].
  do 6 (apply settles_bind; [apply _|]; intros ? ? [-> _]%lift_Ok).
  apply settles_bind; [apply _|]. intros w3 current [= <- <-].
  rewrite bool_decide_eq_false_2 by done.
  do 2 (apply settles_bind; [apply _|]; intros ? ? [-> _]%lift_Ok).
  by apply member_settles.
Qed.

Lemma save_then_Ok {A} failure (undo : M W ()) (k : M W A) c w w' a :
  Keeps undisturbed k → _cluster (outside w) = Some c →
  (persisted ← save; if negb persisted then undo;; throw RuntimeError failure else k) w = (w', Ok a) →
  persisted w'.
Proof.
  intros Hk Hc Hr. apply M_bind_Ok in Hr as (w1 & d & Hs & Hr). destruct d; simpl in Hr; [|by repeat m_step].
  eapply persisted_undisturbed; [by eapply save_true|by apply (keeps_run _ k _ _ _ Hr)].
Qed.

Lemma consume_persists params caller current c w w' d :
  dispatch_consume_invite sha256_hex clock write_fails params caller current c w = (w', Ok d) → persisted w'.
Proof.
  unfold dispatch_consume_invite. intros Hr. apply M_bind_Ok in Hr as (w1 & token & _ & Hr).
  apply M_bind_Ok in Hr as (w2 & again & _ & Hr).
  destruct (Cluster.consume_invite _ _ _ _ _ _ _) as [c' invite].
  apply M_bind_Ok in Hr as (w3 & u & Hput & Hr). unfold put_cluster, update in Hput. injection Hput as <- _.
  apply M_bind_Ok in Hr as (w4 & i & [-> _]%lift_Ok & Hr).
  by eapply (save_then_Ok _ _ _ c') in Hr; [|keeps|].
Qed.

(** The five tables that the use of an invite changes are as before. *)
Definition join_undone w w' : Prop := ∃ c c', _cluster (outside w) = Some c ∧ _cluster (outside w') = Some c' ∧
  Cluster.assignments c' = Cluster.assignments c ∧ Cluster._online c' = Cluster._online c ∧
  Cluster._invites c' = Cluster._invites c ∧ Cluster._join_admissions c' = Cluster._join_admissions c ∧
  Cluster._used_invites c' = Cluster._used_invites c.

(** The cluster itself refused the invite, and is as it left it. *)
Definition join_refused w w' (e : exn) : Prop := ∃ c c' token caller t1 t2, _cluster (outside w) = Some c ∧
  Cluster.consume_invite sha256_hex token caller t1 t2 true c = (c', Err e) ∧ _cluster (outside w') = Some c'.

Lemma consume_settles params caller current c w w' e : _cluster (outside w) = Some c →
  dispatch_consume_invite sha256_hex clock write_fails params caller current c w = (w', Err e) →
  settled_by w w' (Err e : result dict) ∨ join_undone w w' ∨ join_refused w w' e.
Proof.
  intros Hc Hr. unfold dispatch_consume_invite in Hr. rewrite M_bind_run in Hr. unfold lift at 1 in Hr.
  destruct (text_param "token" params) as [token|e1]; [|injection Hr as <- <-; left; by left].
  rewrite M_bind_run in Hr. cbn [now] in Hr.
  set (w1 := mkWorld (svc w) (S (ticks w)) (outside w)) in Hr.
  destruct (Cluster.consume_invite _ _ _ _ _ _ _) as [c' invite] eqn:Hj.
  rewrite M_bind_run in Hr. unfold put_cluster at 1, update at 1 in Hr. rewrite M_bind_run in Hr. unfold lift at 1 in Hr.
  destruct invite as [invite|e1].
  2: { injection Hr as <- <-. right. right. by exists c, c', token, caller, current, (clock (ticks w)). }
  rewrite M_bind_run in Hr. match type of Hr with context [save ?x] => set (w2 := x) in Hr end.
  destruct (save w2) as [w3 [[]|e1]] eqn:Hs; cbn [negb] in Hr.
  - left. right. left. apply save_true with (c := c') in Hs; [|done].
    eapply persisted_undisturbed; [done|]. match type of Hr with ?k w3 = _ => apply (keeps_run undisturbed k _ _ _ Hr) end.
  - right. left. rewrite M_bind_run in Hr. unfold put_cluster, update in Hr. injection Hr as <- _.
    by exists c, (restore_join c c').
  - injection Hr as <- <-. left. right. right. exists e1. split; [done|]. by eapply save_raises.
Qed.

(** What a use of an invite that raises leaves. *)
Definition joins c (m : M W dict) w : Prop := _cluster (outside w) = Some c → ∀ w' e, m w = (w', Err e) →
  settled_by w w' (Err e : result dict) ∨ join_undone w w' ∨ join_refused w w' e.

Lemma joins_bind c {A} (g : M W A) (k : A → M W dict) w : Keeps undisturbed g →
  (∀ w1 a, g w = (w1, Ok a) → joins c (k a) w1) → joins c (g ≫= k) w.
Proof.
  intros Hg Hk Hc w' e Hr. rewrite M_bind_run in Hr. destruct (g w) as [w1 [a|e1]] eqn:Hw;
    pose proof (keeps_run _ g _ _ _ Hw) as [[E1 E2 _ _] _].
  2: { injection Hr as <- <-. by left; left. }
  destruct (Hk w1 a eq_refl) with (w' := w') (e := e) as [Hs|Hj]; [by rewrite E1|done| |].
  - left. destruct Hs as [[F1 F2]|?]; [left; split; congruence|by right].
  - right. unfold join_undone, join_refused in *. by rewrite <-E1.
Qed.

Lemma dispatch_joins c request w : RemoteRequest.op request = "consume_invite" →
  _cluster (outside w) = Some c → joins c (dispatch request) w.
Proof.
  intros Hop Hcl. unfold dispatch_role_request.
  apply joins_bind; [apply _|]. intros w1 ? [-> ->]%(require_cluster_run _ _ _ _ Hcl).
  apply joins_bind; [apply _|]. intros w2 r [= <- <-].
  do 6 (apply joins_bind; [apply _|]; intros ? ? [-> _]%lift_Ok).
  apply joins_bind; [apply _|]. intros w3 current [= <- <-].
  rewrite bool_decide_eq_true_2 by done. intros Hc w' e. by apply consume_settles.
Qed.

(** C17. Role operations are durable.  For every request but the use of an invite, also when it is
    refused and whichever write fails, the cluster and the grants are afterwards those of
    before, or they are the ones saved in the cluster's file, unless the save itself let an
    error through that it does not handle; an answered request that changes the cluster has
    saved it, the use of an invite included.  A use of an invite that raises leaves, besides
    these, the cluster as it refused the invite, or, when it was not saved, with the five
    tables it changes put back: not the grants, which the change may have pruned. *)
Theorem role_dispatch_is_durable request w w' res :
  dispatch request w = (w', res) → _cluster_store (outside w) = true →
  (RemoteRequest.op request ≠ "consume_invite" → settled_by w w' res) ∧
  (RemoteRequest.op request ∈ changing_ops → is_ok res = true → persisted w') ∧
  (RemoteRequest.op request = "consume_invite" → ∀ e, res = Err e →
     settled_by w w' res ∨ join_undone w w' ∨ join_refused w w' e).
Proof.
  intros Hr Hstore. destruct (_cluster (outside w)) as [c|] eqn:Hc.
  2: { unfold dispatch_role_request in Hr. rewrite M_bind_run in Hr. unfold _require_cluster in Hr at 1.
       rewrite M_bind_run in Hr. simpl in Hr. rewrite Hc in Hr. injection Hr as <- <-. split; [by intros _; left|].
       split; [done|]. intros _ e _. by left; left. }
  split; [|split].
  - intros Hop. by apply (dispatch_settles false c request w Hstore Hop (or_intror eq_refl) Hc Hc).
  - intros Hop Hok. destruct (decide (RemoteRequest.op request = "consume_invite")) as [Hci|Hne].
    2: { by eapply (dispatch_settles true c request w Hstore Hne (or_introl Hop) Hc Hc). }
    destruct res as [d|]; [|done]. unfold dispatch_role_request in Hr.
    apply M_bind_Ok in Hr as (? & ? & _ & Hr). apply M_bind_Ok in Hr as (? & ? & _ & Hr).
    do 6 apply M_bind_Ok in Hr as (? & ? & _ & Hr). apply M_bind_Ok in Hr as (? & ? & _ & Hr).
    rewrite bool_decide_eq_true_2 in Hr by done. by eapply consume_persists.
  - intros Hop e ->. by apply (dispatch_joins c request w Hop Hc Hc).
Qed.
End spec.

Lemma sample_revoke_run : dispatch_role_request (λ s, s) sample_clock no_failure revoke_request sample_world =
  ((sample_dispatch no_failure revoke_request).1, (sample_dispatch no_failure revoke_request).2).
Proof. apply surjective_pairing. Qed.

Lemma role_dispatch_is_durable_witness :
  is_ok (sample_dispatch no_failure revoke_request).2 = true ∧
  persisted (sample_dispatch no_failure revoke_request).1.
Proof.
  assert (Hok : is_ok (sample_dispatch no_failure revoke_request).2 = true) by (vm_compute; reflexivity).
  split; [exact Hok|].
  refine (proj1 (proj2 (role_dispatch_is_durable _ _ _ _ _ _ _ sample_revoke_run eq_refl)) _ Hok).
  apply (bool_decide_unpack _). vm_compute. exact I.
Defined.
