(* ===== verification/RevocationSpec.v ===== *)
(** * Revocation of a peer

    [revoke_peer] of the runtime, with writes that may fail at any point, and what the service
    of the same runtime does afterwards. *)

From S2P Require Import Prelude PyFloat Identity ClusterModels Roles RolesFacts Operations Sharing ConnectionState NodeRegistry PyJson StateCodec Wire Envelope Caches Session Pairing Documents Surfaces Candidates Connections PairingFlow RemoteModels Service TrustCodec TrustCodecSpec Runtime RoleDispatch RuntimeFacts RuntimePairing.
Import Runtime(_identity, _loaded, network, _connection_manager, _pending_permissions, _cluster,
  _cluster_capability_grants, _cluster_store, _failover_coordinator, _sharing, _surface_registry, _service,
  _persistence_ready, _generation, started, trust_file, cluster_file).
Import PairingManager(grants, trusted, pending).
Abbreviation dict := (list (string * json)) (only parsing).

Section spec.
Context {Cap Srf Pr : Type}.
Notation R := (Runtime.t Cap Srf Pr).
Notation W := (World R).
Context (clock : nat → float) (write_fails : nat → option exn).
Implicit Types (w : W) (r : R).

Notation pairing w := (Runtime.pairing (outside w)).
Notation save := (_save_persisted_state write_fails).

(** ** Revocation *)

Section service.
Context (hmac_sha256_hex : string → string → string) (float_repr : float → string).
Context (container_repr : json → string).
Context (parse_int : string → result Z) (parse_float : string → result float).
Context {D P : Type} (isoformat : D → string) (path_str : P → string).
Context (session_clock : nat → json) (draw : nat → nat → json) (host : Host W R Srf D P).
Notation handle := (handle hmac_sha256_hex float_repr container_repr parse_int parse_float isoformat path_str clock session_clock draw host).

(** A caller that is not in the access list of a service gets nothing from it. *)
Lemma unlisted_refused w env p g : RemoteService._grant_mode (svc w) = true →
  RemoteService._grants (svc w) !! p = None → _caller_from_json env = Some p →
  handle (Some env) g w = (w, raise RemoteAuthError "request caller identity is unknown").
Proof.
  intros Hm Hg Hc. unfold Service.handle, receive, select_grant. rewrite M_bind_run. cbn [of_option lift].
  rewrite !M_bind_run. cbn [this]. rewrite !M_bind_run. cbn [this]. rewrite Hm, Hc. cbn [negb of_option].
  rewrite M_bind_run. cbn [lift]. rewrite M_bind_run, Hg. done.
Qed.

(** The end of a revocation, after it is saved. *)
Definition disown p : M W () :=
  r ← runtime;
  match NodeRegistry.record (Network.registry (network r)) p with
  | None => mret ()
  | Some _ => on_registry (NodeRegistry.revoke p);; mret ()
  end;;
  update (λ r, Runtime.set_network r (Network.set_candidates (network r)
                 (od_pop (value p) (Network.candidates (network r)))));;
  if _connection_manager r then disconnect clock p "revoked" else mret ().
#[local] Instance disown_file p : Keeps file_kept (disown p).
Proof. unfold disown. keeps. Qed.
(** The trust of a runtime whose peer is revoked, before it is saved. *)
Definition revoking p w : W :=
  mkWorld (svc w) (ticks w)
    (let r := Runtime.set_pairing (outside w) (PairingManager.revoke p (pairing w)) in
     Runtime.set_shares r (CapabilityShare.revoke_peer p (_sharing r)).1
       (SurfaceRegistry.revoke_source (Node p) (_surface_registry r)).1).

Lemma revoke_peer_run p w : _loaded (outside w) = true →
  revoke_peer clock write_fails p true w =
  (persisted ← save;
   if negb persisted
   then restore (pairing w);; throw PersistenceError "peer revocation was not durably persisted"
   else disown p;; _refresh_live_grants) (revoking p w).
Proof.
  intros Hl. unfold revoke_peer. rewrite M_bind_run, require_pairing_run by done.
  rewrite M_bind_run. cbn [update]. rewrite M_bind_run. cbn [update].
  change (mkWorld _ _ _) with (revoking p w). rewrite !M_bind_run.
  destruct (save (revoking p w)) as [w1 [[]|e]]; try done. cbn [negb]. unfold disown.
  rewrite !M_bind_run. cbn [runtime]. destruct (NodeRegistry.record _ p).
  - rewrite !M_bind_run. by destruct (on_registry _ w1) as [w2 [?|?]].
  - done.
Qed.

Lemma revoking_forgets p w : forgotten p (pairing (revoking p w)).
Proof.
  split; cbn; [apply lookup_delete_eq..|]. intros k x [Hx _]%elem_of_lfilter. cbn in Hx. by to_prop.
Qed.
Lemma forgotten_kept p w w' : forgotten p (pairing w) → trust_kept w w' → forgotten p (pairing w').
Proof. intros Hf [-> _ _ _ _ _]. done. Qed.

Lemma revoke_keyed p m : keyed m → keyed (PairingManager.revoke p m).
Proof. intros [Hg Ht]. split; cbn; intros k x [_ Hx]%lookup_delete_Some; auto. Qed.

(** *** What else the runtime held of the peer *)

(** No share, surface, route or connection of the peer is left. *)
Record cut_off p w : Prop := {
  cut_allowed : CapabilityShare._allowed (_sharing (outside w)) !! p = None;
  cut_surfaces id access : SurfaceRegistry._peer_grants (_surface_registry (outside w)) !! (p, id, access) = None;
  cut_sources id access : SurfaceRegistry._cluster_grants (_surface_registry (outside w)) !! (Node p, id, access) = None;
  cut_candidate : od_get (value p) (Network.candidates (network (outside w))) = None;
  cut_registry rec : NodeRegistry.record (Network.registry (network (outside w))) p = Some rec →
    NodeRecord.trust rec = TrustState.REVOKED;
  cut_provider : _connection_manager (outside w) = true →
    od_get p (ConnectionManager._providers (Network.manager (network (outside w)))) = None;
  cut_connection rec : _connection_manager (outside w) = true →
    NodeRegistry.record (Network.registry (network (outside w))) p = Some rec →
    ConnectionState.status (NodeRecord.connection rec) = ConnectionStatus.OFFLINE }.

(** The shares and the surfaces of the peer are gone. *)
Record unshared p w : Prop := {
  unshared_allowed : CapabilityShare._allowed (_sharing (outside w)) !! p = None;
  unshared_surfaces id access : SurfaceRegistry._peer_grants (_surface_registry (outside w)) !! (p, id, access) = None;
  unshared_sources id access : SurfaceRegistry._cluster_grants (_surface_registry (outside w)) !! (Node p, id, access) = None }.

Lemma revoking_unshares p w : unshared p (revoking p w).
Proof.
  split; cbn.
  - unfold CapabilityShare.revoke_peer.
    destruct (CapabilityShare._allowed (_sharing (outside w)) !! p) eqn:E; [apply lookup_delete_eq|done].
  - intros id access. apply map_lookup_filter_None. right. by intros g _ H.
  - intros id access. apply map_lookup_filter_None. right. by intros g _ H.
Qed.

Definition shares_kept : relation W := λ w w',
  _sharing (outside w') = _sharing (outside w) ∧ _surface_registry (outside w') = _surface_registry (outside w).
#[local] Instance shares_refl : Reflexive shares_kept.
Proof. by split. Qed.
#[local] Instance shares_trans : Transitive shares_kept.
Proof. intros w1 w2 w3 [] []. split; congruence. Qed.
#[local] Instance runtime_shares : Keeps shares_kept (runtime (Hc := Cap) (Hs := Srf) (Pr := Pr)).
Proof. by intros w. Qed.
#[local] Instance write_trust_shares d : Keeps shares_kept (write write_fails (λ r, Runtime.set_files r d (cluster_file r)) : M W ()).
Proof. intros w. unfold write. by destruct (write_fails _). Qed.
#[local] Instance write_cluster_shares d : Keeps shares_kept (write write_fails (λ r, Runtime.set_files r (trust_file r) d) : M W ()).
Proof. intros w. unfold write. by destruct (write_fails _). Qed.
#[local] Instance save_shares : Keeps shares_kept (save : M W bool).
Proof. unfold _save_persisted_state, saved, save_trust, save_cluster. keeps. Qed.

Lemma unshared_kept p w w' : unshared p w → shares_kept w w' → unshared p w'.
Proof. intros [H1 H2 H3] [E1 E2]. by split; rewrite ?E1, ?E2. Qed.

(** The registry after the revocation of a peer it may know. *)
Definition registry_out p (g : NodeRegistry.t) : Prop :=
  ∀ rec, NodeRegistry.record g p = Some rec → NodeRecord.trust rec = TrustState.REVOKED.

Lemma revoke_out p g : registry_out p (NodeRegistry.revoke p g).1.
Proof.
  unfold NodeRegistry.revoke, NodeRegistry._require, registry_out. rewrite M_bind_run. intros rec.
  destruct (NodeRegistry.record g p) eqn:E; cbn; [|congruence].
  unfold NodeRegistry.record. cbn. rewrite od_get_set_eq. by intros [= <-].
Qed.

Lemma offline_out p state (n n' : Network.t Pr) u : registry_out p (Network.registry n) →
  Network._set_state p state n = (n', Ok u) →
  registry_out p (Network.registry n') ∧
  (∀ rec, NodeRegistry.record (Network.registry n') p = Some rec → NodeRecord.connection rec = state) ∧
  Network.candidates n' = Network.candidates n ∧ Network.manager n' = Network.manager n.
Proof.
  unfold Network._set_state, registry_out. intros Ho. destruct (NodeRegistry.record _ p) as [rec|] eqn:E.
  - rewrite M_bind_run. unfold Network.on_registry, NodeRegistry.set_connection, NodeRegistry._require.
    rewrite M_bind_run, E. cbn. intros [= <- _]. cbn. unfold NodeRegistry.record. cbn. rewrite od_get_set_eq.
    split_and!; try done; intros ? [= <-]; [|done]. by apply (Ho rec).
  - intros [= <- _]. rewrite E. done.
Qed.

Lemma disown_Ok p w w' u : disown p w = (w', Ok u) → unshared p w → cut_off p w'.
Proof.
  unfold disown. intros Hd Hu. rewrite M_bind_run in Hd. cbn [runtime] in Hd.
  apply M_bind_Ok in Hd as (w1 & [] & H1 & Hd).
  assert (registry_out p (Network.registry (network (outside w1))) ∧ unshared p w1 ∧
          _connection_manager (outside w1) = _connection_manager (outside w)) as (Ho & Hu1 & Hf).
  { destruct (NodeRegistry.record _ p) as [rec|] eqn:E.
    - apply M_bind_Ok in H1 as (w2 & a & H1 & [= <-]). unfold on_registry, on_net, Network.on_registry in H1.
      pose proof (revoke_out p (Network.registry (net w))) as Ho. destruct (NodeRegistry.revoke _ _) as [g' r'].
      injection H1 as <- _. split; [exact Ho|]. by destruct Hu as [U1 U2 U3].
    - injection H1 as <-. split; [|done]. intros ? ?. cbn in *. congruence. }
  rewrite M_bind_run in Hd. cbn [update] in Hd. destruct (_connection_manager (outside w)) eqn:Hc.
  - unfold disconnect, Connections.disconnect, forget_provider, set_state in Hd.
    apply M_bind_Ok in Hd as (w2 & [] & [= <-] & Hd). apply M_bind_Ok in Hd as (w3 & [] & [= <-] & Hd).
    apply M_bind_Ok in Hd as (w4 & t & [= <- _] & Hd). unfold on_net in Hd.
    match type of Hd with (let '(_, _) := ?m in _) = _ => destruct m as [n res] eqn:E end.
    injection Hd as <- ->. apply offline_out in E as (Ho' & Hs & Ec & Em); [|done]. destruct Hu1 as [U1 U2 U3].
    split; try done; cbn in *.
    + rewrite Ec. cbn. apply od_get_pop_eq.
    + rewrite Em. cbn. intros _. apply od_get_pop_eq.
    + intros rec _ Hr. by rewrite (Hs _ Hr).
  - injection Hd as <- _. destruct Hu1 as [U1 U2 U3].
    split; try done; cbn in *; try congruence. apply od_get_pop_eq.
Qed.

(** C11. A revocation is complete or it is not made: when [revoke_peer] returns, the runtime holds no
    grant, no trust and no open transaction of the peer, none of its capability and surface
    grants, no discovered candidate and no connection to it, and the registry shows it revoked;
    the saved file holds no trust of it either, whatever is loaded from it; and the running service refuses every envelope in the peer's
    name before it changes anything; when it raises, the trust is as it was or the peer is out
    of it. *)
Theorem revoked_peer_is_out p w w' res : _loaded (outside w) = true → keyed (pairing w) →
  revoke_peer clock write_fails p true w = (w', res) →
  match res with
  | Ok _ =>
      forgotten p (pairing w') ∧
      cut_off p w' ∧
      (∃ d, trust_file (outside w') = Some d ∧
         ∀ m asked, load_trust float_repr container_repr d (blank (pairing w')) = Ok (m, asked) → forgotten p m) ∧
      (_service (outside w) = true → ∀ env g, _caller_from_json env = Some p →
         handle (Some env) g w' = (w', raise RemoteAuthError "request caller identity is unknown"))
  | Err _ => pairing w' = pairing w ∨ forgotten p (pairing w')
  end.
Proof.
  intros Hl Hk Hr. rewrite revoke_peer_run in Hr by done. rewrite M_bind_run in Hr.
  destruct (save (revoking p w)) as [w1 [[]|e]] eqn:Hs; cbn [negb] in Hr.
  2: { rewrite M_bind_run in Hr. destruct (restore (pairing w) w1) as [w2 [[]|e]] eqn:H2; [|done].
    pose proof (kept_pairing _ _ (keeps_run trust_kept _ _ _ _ Hs)) as Hp.
    apply restore_pairing in H2 as [Hq _]; [|by rewrite Hp..]. injection Hr as <- <-. by left. }
  2: { injection Hr as <- <-. right. eapply forgotten_kept; [apply revoking_forgets|].
    by apply (keeps_run trust_kept _ _ _ _ Hs). }
  pose proof (keeps_run shares_kept _ _ _ _ Hs) as Hsh.
  apply saved_trust_Ok in Hs as (T1 & d & Hd & Hf). rewrite M_bind_run in Hr.
  pose proof (forgotten_kept _ _ _ (revoking_forgets p w) T1) as F1.
  destruct (disown p w1) as [w2 [[]|e]] eqn:H2; pose proof H2 as Hcut; apply (keeps_run file_kept) in H2 as [T2 E2]; [|apply _| |apply _].
  2: { injection Hr as <- <-. right. by eapply forgotten_kept. }
  pose proof (forgotten_kept _ _ _ F1 T2) as F2.
  assert (refresh_same : outside w' = outside w2) by (by eapply refresh_outside).
  destruct res as [[]|e]; [|right; by rewrite refresh_same].
  apply disown_Ok in Hcut as [C1 C2 C3 C4 C5 C6 C7]; [|by eapply unshared_kept; [apply revoking_unshares|]].
  rewrite refresh_same. split; [done|]. split; [by split; rewrite refresh_same|]. split.
  - exists (trust_document (pairing w2) (_pending_permissions (outside w2))). split.
    + rewrite E2, Hf, (kept_pairing _ _ T2), (kept_asked _ _ T2), (kept_pairing _ _ T1), (kept_asked _ _ T1).
      rewrite document_settled in Hd. congruence.
    + intros m asked. apply reload_forgets; [|done].
      rewrite (kept_pairing _ _ T2), (kept_pairing _ _ T1). by apply revoke_keyed.
  - intros Hsv env g Hc. apply refresh_lists in Hr as (_ & Hm & Hg).
    + apply unlisted_refused with p; [done| |done]. apply Hg, F2.
    + by rewrite (kept_flag _ _ T2), (kept_flag _ _ T1).
    + by rewrite (kept_loaded _ _ T2), (kept_loaded _ _ T1).
Qed.
End service.
End spec.

(** ** A concrete revocation *)

(** The node [s] revokes its Coordinator [c]. *)
Definition revoked_run : World SampleRuntime * result () := revoke_peer sample_clock no_failure node_c true sample_world.

Lemma revoked_ok : revoked_run.2 = Ok ().
Proof. vm_compute. reflexivity. Qed.

Lemma sample_keyed : keyed (Runtime.pairing (outside sample_world)).
Proof.
  split; intros k x Hx.
  - change (({[node_c := PeerGrant.mk node_c sample_secret {[Permission.Text "remote_management"]} Material.none]} :
               gmap NodeId PeerGrant.t) !! k = Some x) in Hx.
    by apply lookup_singleton_Some in Hx as [<- <-].
  - change ((∅ : gmap NodeId TrustedPeer.t) !! k = Some x) in Hx. by rewrite lookup_empty in Hx.
Qed.

Lemma revoked_peer_is_out_witness :
  is_Some (grants (Runtime.pairing (outside sample_world)) !! node_c) ∧
  forgotten node_c (Runtime.pairing (outside revoked_run.1)) ∧
  cut_off node_c revoked_run.1 ∧
  handle (λ _ _, "") (λ _, "") (λ _, "") (λ _, raise ValueError "no number") (λ _, raise ValueError "no number")
    id id sample_clock (λ _, JNull) (λ _ _, JNull) quiet_app (Some (JObj [("caller_node_id", JStr "c")])) None
    revoked_run.1 = (revoked_run.1, raise RemoteAuthError "request caller identity is unknown").
Proof.
  split; [exists (PeerGrant.mk node_c sample_secret {[Permission.Text "remote_management"]} Material.none); reflexivity|].
  destruct (revoked_peer_is_out sample_clock no_failure (λ _ _, "") (λ _, "") (λ _, "")
              (λ _, raise ValueError "no number") (λ _, raise ValueError "no number") id id (λ _, JNull)
              (λ _ _, JNull) quiet_app node_c sample_world revoked_run.1 (Ok ()) eq_refl sample_keyed)
    as (Hf & Hc & _ & Hh).
  - rewrite <- revoked_ok. apply surjective_pairing.
  - split; [exact Hf|]. split; [exact Hc|]. apply Hh; reflexivity.
Defined.
