(* ===== verification/InboundPairingSpec.v ===== *)
(** * Inbound pairing: what a peer can obtain, and how

    The handlers of the pairing listener, with an application that decides and writes that may
    fail at any point. *)

From S2P Require Import Prelude PyFloat Identity ClusterModels Roles RolesFacts Operations Sharing ConnectionState NodeRegistry PyJson StateCodec Wire Envelope Caches Session Pairing PairingSpec Documents Surfaces Candidates Connections PairingFlow RemoteModels Service TrustCodec TrustCodecSpec Runtime RoleDispatch RuntimeFacts RuntimePairing.
Import Runtime(_identity, _loaded, network, _connection_manager, _pending_permissions, _cluster,
  _cluster_capability_grants, _cluster_store, _failover_coordinator, _sharing, _surface_registry, _service,
  _persistence_ready, _generation, started, trust_file, cluster_file).
Import PairingManager(grants, trusted, pending).
Abbreviation dict := (list (string * json)) (only parsing).

Section spec.
Context (b64decode : string → option string) (ed25519_verify : string → string → string → bool).
Context {Cap Srf Pr : Type}.
Notation R := (Runtime.t Cap Srf Pr).
Notation W := (World R).
Context (clock : nat → float) (write_fails : nat → option exn).
Context (on_pairing_request : option (PairingRequest.t → M W bool)).
Implicit Types (w : W) (r : R).

Notation pairing w := (Runtime.pairing (outside w)).
Notation save := (_save_persisted_state write_fails).

#[local] Opaque _save_persisted_state.

(** ** Who stands in the trust *)

(** The grants, the trusted peers and the access list of the service. *)
Record standing w w' : Prop := {
  standing_grants : grants (pairing w') = grants (pairing w);
  standing_trusted : trusted (pairing w') = trusted (pairing w);
  standing_service : svc w' = svc w }.
#[local] Instance standing_refl : Reflexive standing.
Proof. by split. Qed.
#[local] Instance standing_trans : Transitive standing.
Proof. intros w1 w2 w3 [] []. split; congruence. Qed.
Lemma kept_standing w w' : trust_kept w w' → standing w w'.
Proof. intros []. split; congruence. Qed.
#[local] Instance trust_standing {A} (m : M W A) : Keeps trust_kept m → Keeps standing m.
Proof. intros Hm w. apply kept_standing, Hm. Qed.
#[local] Instance remember_standing id x : Keeps standing (remember id x : M W ()).
Proof. by intros w. Qed.
#[local] Instance forget_standing id : Keeps standing (forget id : M W ()).
Proof. by intros w. Qed.
#[local] Instance abort_standing id : Keeps standing (abort_pairing id : M W ()).
Proof. by intros w. Qed.
#[local] Instance begin_standing p s m d i t1 t2 t3 fid fs :
  Keeps standing (on_pairing (PairingManager.begin_ p s m d i t1 t2 t3 fid fs) : M W PendingPairing.t).
Proof.
  intros w. unfold on_pairing, PairingManager.begin_, PairingManager.start.
  repeat (case_match; simplify_eq/=); by split.
Qed.
#[local] Instance response_standing x : Keeps standing (pairing_response x : M W dict).
Proof. unfold pairing_response. keeps. Qed.
#[local] Instance require_standing : Keeps standing (_require_pairing : M W PairingManager.t).
Proof. unfold _require_pairing. keeps. Qed.

(** The application decides; it does not pair on its own. *)
Definition only_decides : Prop := ∀ f request, on_pairing_request = Some f → Keeps standing (f request).

#[local] Instance ask_standing request : only_decides → Keeps standing (ask on_pairing_request request).
Proof.
  unfold only_decides, ask. intros Hd. destruct on_pairing_request as [f|]; [|apply _].
  pose proof (Hd f request eq_refl). keeps.
Qed.
#[local] Instance publish_standing request fid fs :
  Keeps standing (publish_transaction clock write_fails request fid fs : M W dict).
Proof. unfold publish_transaction. keeps. Qed.

(** ** A request *)

(** The file holds the trust and the permissions asked for. *)
Definition trust_saved w : Prop :=
  trust_file (outside w) = Some (trust_document (pairing w) (_pending_permissions (outside w))).

Lemma save_saves w w' : save w = (w', Ok true) → trust_kept w w' ∧ trust_saved w'.
Proof.
  intros (T & d & Hd & Hf)%saved_trust_Ok. split; [done|]. unfold trust_saved.
  rewrite (kept_pairing _ _ T), (kept_asked _ _ T), Hf. rewrite document_settled in Hd. congruence.
Qed.

(** An open inbound transaction of the caller. *)
Definition opened w (caller : NodeId) : Prop :=
  ∃ k x, (k, x) ∈ pending (pairing w) ∧ PendingPairing.peer_id x = caller ∧ PendingPairing.direction x = "inbound".

Lemma start_opened p s m i t2 t3 fid fs m0 m1 x :
  PairingManager.start p s m "inbound" i t2 t3 fid fs m0 = (m1, Ok x) →
  (fid, x) ∈ pending m1 ∧ PendingPairing.peer_id x = p ∧ PendingPairing.direction x = "inbound".
Proof.
  unfold PairingManager.start. case_match; [done|].
  destruct (PendingPairing.__post_init__ _) as [y|] eqn:Hx; [|done]. intros [= <- <-].
  unfold PendingPairing.__post_init__ in Hx. repeat res_step. subst y.
  split; [|done]. cbn. by apply od_get_elem, od_get_set_eq.
Qed.
Lemma begin_opened p s m i t1 t2 t3 fid fs m0 m1 x :
  PairingManager.begin_ p s m "inbound" i t1 t2 t3 fid fs m0 = (m1, Ok x) →
  ∃ k, (k, x) ∈ pending m1 ∧ PendingPairing.peer_id x = p ∧ PendingPairing.direction x = "inbound".
Proof.
  unfold PairingManager.begin_. destruct (negb _); [done|]. destruct (negb _); [done|].
  destruct (s ≫= _) as [r|] eqn:Hr; [destruct (_ && _) eqn:Hb|].
  - intros [= <- <-]. to_prop. apply bind_Some in Hr as (sec & _ & Hr).
    unfold PairingManager.find_pending in Hr. apply find_Some in Hr as (k & Hk & Hc). to_prop. eauto.
  - intros ?%start_opened. eauto.
  - intros ?%start_opened. eauto.
Qed.

(** A request is approved for an open transaction of the caller, or because the application
    said so and the new transaction was saved. *)
Definition asked_for w request : Prop :=
  ∃ k x, (k, x) ∈ pending (pairing w) ∧ PendingPairing.peer_id x = PairingRequest.caller_node_id request ∧
    PendingPairing.direction x = "inbound" ∧ PendingPairing.secret x = PairingRequest.proposed_secret request.
Definition agreed w w' request : Prop :=
  (∃ f w1 w2, on_pairing_request = Some f ∧ trust_kept w w1 ∧ f request w1 = (w2, Ok true)) ∧ trust_saved w'.

Lemma publish_approved request fid fs w w' d :
  publish_transaction clock write_fails request fid fs w = (w', Ok d) → jget "approved" d = JBool true →
  trust_saved w' ∧ opened w' (PairingRequest.caller_node_id request).
Proof.
  unfold publish_transaction. intros Hp Ha.
  do 3 (apply M_bind_Ok in Hp as (? & ? & _ & Hp)). apply M_bind_Ok in Hp as (w1 & o & Ho & Hp).
  unfold outcome in Ho.
  destruct (on_pairing _ _) as [w2 res] eqn:Hb in Ho. injection Ho as -> <-.
  destruct res as [tx|e].
  2: { case_match; [apply mret_run in Hp as [-> <-]|]; done. }
  apply M_bind_Ok in Hp as (w3 & [] & H3 & Hp). apply M_bind_Ok in Hp as (w4 & b & Hs & Hp).
  destruct b; cbn [negb] in Hp.
  2: { repeat (apply M_bind_Ok in Hp as (? & ? & _ & Hp)). by apply mret_run in Hp as [-> <-]. }
  apply save_saves in Hs as [T Hs]. unfold pairing_response in Hp.
  apply M_bind_Ok in Hp as (? & r & [= <- <-] & Hp). apply M_bind_Ok in Hp as (? & l & [-> _]%lift_Ok & Hp).
  apply mret_run in Hp as [-> _]. split; [done|].
  unfold opened. rewrite (kept_pairing _ _ T). injection H3 as <-. cbn.
  unfold on_pairing in Hb. destruct (PairingManager.begin_ _ _ _ _ _ _ _ _ _ _ _) as [m r0] eqn:Hm.
  injection Hb as <- ->. apply begin_opened in Hm as (k & Hk & ? & ?). by exists k, tx.
Qed.

Notation handle_pairing_request := (handle_pairing_request b64decode ed25519_verify clock write_fails on_pairing_request).
Notation locked := (_handle_pairing_request_locked b64decode ed25519_verify clock write_fails on_pairing_request).

(** The caller has no grant yet, or repairs it under the same root. *)
Definition may_pair w request : Prop :=
  ∀ g, grants (pairing w) !! PairingRequest.caller_node_id request = Some g →
    PairingRequest.intent request = "repair" ∧
    grant_root_continuous b64decode ed25519_verify g (PairingRequest.root_public_key request)
      (PairingRequest.transport_generation request) (PairingRequest.transport_fingerprint request)
      (PairingRequest.transport_proof request) = true.

Lemma locked_standing request fid fs w w' res : only_decides → locked request fid fs w = (w', res) → standing w w'.
Proof.
  intros Hd Hr. refine (keeps_run standing _ _ _ _ Hr). unfold _handle_pairing_request_locked.
  pose proof (ask_standing request Hd). keeps.
Qed.

Lemma ask_Ok request w w' : ask on_pairing_request request w = (w', Ok true) →
  ∃ f, on_pairing_request = Some f ∧ f request w = (w', Ok true).
Proof.
  unfold ask. destruct on_pairing_request as [f|]; [|by intros [_ ?]%mret_run].
  unfold attempt. destruct (f request w) as [w1 [b|e]] eqn:E; intros Hr; [|by apply mret_run in Hr as [_ ?]].
  exists f. split; [done|]. congruence.
Qed.

Lemma locked_approved request fid fs w w' d : only_decides →
  locked request fid fs w = (w', Ok d) → jget "approved" d = JBool true →
  _identity (outside w) ≠ Some (PairingRequest.caller_node_id request) ∧ may_pair w request ∧
  opened w' (PairingRequest.caller_node_id request) ∧ (asked_for w request ∨ agreed w w' request).
Proof.
  intros Hd Hr Ha. unfold _handle_pairing_request_locked in Hr.
  apply M_bind_Ok in Hr as (w1 & m & H1 & Hr). unfold _require_pairing in H1.
  apply M_bind_Ok in H1 as (? & r & [= <- <-] & H1). apply M_bind_Ok in H1 as (? & [] & [-> Hl]%throw_if_Ok & H1).
  apply mret_run in H1 as [-> <-]. apply M_bind_Ok in Hr as (? & ? & [= <- <-] & Hr).
  apply M_bind_Ok in Hr as (? & local & [-> Hid%of_option_Ok]%lift_Ok & Hr).
  cbv zeta in Hr. case_bool_decide as Hlocal; [by apply mret_run in Hr as [_ <-]|].
  destruct (match PairingManager.get_grant _ _ with Some _ => _ | None => _ end) eqn:Hroot;
    [by apply mret_run in Hr as [_ <-]|].
  destruct (_ && _) eqn:Hagain; [by apply mret_run in Hr as [_ <-]|].
  assert (Hmay : may_pair w request).
  { intros g Hg. unfold PairingManager.get_grant in *. rewrite Hg in *. to_prop.
    apply andb_false_iff in Hagain as [Hb|Hb]; to_prop; [by destruct Hb|]. auto. }
  split; [congruence|]. split; [done|].
  apply M_bind_Ok in Hr as (w2 & t & [= <- <-] & Hr).
  destruct (PairingManager.find_pending_for _ _ _ _) as [x|] eqn:Hf.
  - unfold PairingManager.find_pending_for in Hf. apply find_Some in Hf as (k & Hk & Hc). to_prop.
    case_bool_decide; [|by apply mret_run in Hr as [_ <-]]. unfold pairing_response in Hr.
    apply M_bind_Ok in Hr as (? & ? & [= <- <-] & Hr). apply M_bind_Ok in Hr as (? & ? & [-> _]%lift_Ok & Hr).
    apply mret_run in Hr as [-> _]. split; [exists k, x|left; exists k, x]; by split_and!.
  - apply M_bind_Ok in Hr as (w3 & b & Hask & Hr). destruct b; cbn [negb] in Hr; [|by apply mret_run in Hr as [_ <-]].
    destruct (publish_approved _ _ _ _ _ _ Hr Ha) as [Hs Ho]. split; [done|]. right. split; [|done].
    apply ask_Ok in Hask as (f & Hf1 & Hask). eexists f, _, w3. split_and!; [done| |done]. by split.
Qed.

(** Who asks to pair gets nothing by asking: whatever the application answers and whichever
    writes fail, no request changes a grant, a trusted peer or the access list of the service.
    And an answer is [approved] only for another node, without a grant or repairing it under
    the same proven root, with an inbound transaction of the caller open: either it was open
    before, under the very secret of the request, or the application agreed and the transaction
    has been saved. *)
Theorem asking_obtains_nothing busy request fid fs w w' res : only_decides →
  handle_pairing_request busy request fid fs w = (w', res) →
  standing w w' ∧
  ∀ d, res = Ok d → jget "approved" d = JBool true →
    _identity (outside w) ≠ Some (PairingRequest.caller_node_id request) ∧ may_pair w request ∧
    opened w' (PairingRequest.caller_node_id request) ∧ (asked_for w request ∨ agreed w w' request).
Proof.
  intros Hd. unfold RuntimePairing.handle_pairing_request. destruct busy.
  - intros [= <- <-]. split; [done|]. by intros d [= <-].
  - intros Hr. split; [by eapply locked_standing|]. intros d ->. by apply (locked_approved _ fid fs).
Qed.

(** An approved answer names the caller and the secret of the request. *)
Definition repeats (d : dict) request : Prop :=
  jget "caller_node_id" d = JStr (value (PairingRequest.caller_node_id request)) ∧
  jget "secret" d = JStr (PairingRequest.proposed_secret request).

Lemma response_repeats x request w w' d : pairing_response x w = (w', Ok d) →
  PendingPairing.peer_id x = PairingRequest.caller_node_id request →
  PendingPairing.secret x = PairingRequest.proposed_secret request → repeats d request.
Proof.
  unfold pairing_response. intros Hr Hp Hs. apply M_bind_Ok in Hr as (? & ? & _ & Hr).
  apply M_bind_Ok in Hr as (? & ? & _ & Hr). apply mret_run in Hr as [_ <-]. unfold repeats. by rewrite <- Hp, <- Hs.
Qed.

Lemma begin_asked p s mat d i n1 n2 n3 fid fs m m' x : s ≠ "" →
  PairingManager.begin_ p (Some s) mat d i n1 n2 n3 fid fs m = (m', Ok x) →
  PendingPairing.peer_id x = p ∧ PendingPairing.secret x = s.
Proof.
  intros Hne. assert (Hs : PairingManager.start p (Some s) mat d i n2 n3 fid fs m = (m', Ok x) →
    PendingPairing.peer_id x = p ∧ PendingPairing.secret x = s).
  { unfold PairingManager.start. destruct (PairingManager.find_pending_for _ _ _ _); [done|].
    destruct (PendingPairing.__post_init__ _) as [y|] eqn:Hy; [|done]. intros [= <- <-].
    unfold PendingPairing.__post_init__ in Hy. repeat res_step. simplify_eq. cbn. split; [done|]. by destruct s. }
  unfold PairingManager.begin_. destruct (negb _); [done|]. destruct (negb _); [done|].
  destruct (_ ≫= _) as [r|] eqn:Hr; [|exact Hs]. destruct (_ && _); [|exact Hs]. intros [= <- <-].
  apply bind_Some in Hr as (? & [= <-] & Hr). apply find_Some in Hr as (k & Hk & Hc). by to_prop.
Qed.

Lemma publish_repeats request fid fs w w' d : PairingRequest.proposed_secret request ≠ "" →
  publish_transaction clock write_fails request fid fs w = (w', Ok d) → jget "approved" d = JBool true →
  repeats d request.
Proof.
  intros Hne Hp Ha. unfold publish_transaction in Hp. do 3 (apply M_bind_Ok in Hp as (? & ? & _ & Hp)).
  apply M_bind_Ok in Hp as (w1 & o & Ho%outcome_Ok & Hp). destruct o as [tx|e].
  2: { case_match; [apply mret_run in Hp as [_ <-]|]; done. }
  unfold on_pairing in Ho. destruct (PairingManager.begin_ _ _ _ _ _ _ _ _ _ _ _) as [m r] eqn:Hb in Ho.
  injection Ho as _ ->. apply begin_asked in Hb as [Hx Hs]; [|done].
  apply M_bind_Ok in Hp as (? & ? & _ & Hp). apply M_bind_Ok in Hp as (? & b & _ & Hp). destruct b; cbn [negb] in Hp.
  - by eapply response_repeats.
  - do 2 (apply M_bind_Ok in Hp as (? & ? & _ & Hp)). by apply mret_run in Hp as [_ <-].
Qed.

Lemma answer_repeats busy request fid fs w w' d : PairingRequest.proposed_secret request ≠ "" →
  handle_pairing_request busy request fid fs w = (w', Ok d) → jget "approved" d = JBool true →
  repeats d request.
Proof.
  intros Hne Hr Ha. unfold RuntimePairing.handle_pairing_request in Hr.
  destruct busy; [by apply mret_run in Hr as [_ <-]|]. unfold _handle_pairing_request_locked in Hr.
  apply M_bind_Ok in Hr as (? & ? & _ & Hr). apply M_bind_Ok in Hr as (? & ? & _ & Hr).
  apply M_bind_Ok in Hr as (? & ? & _ & Hr). cbv zeta in Hr.
  do 3 (case_match; [by apply mret_run in Hr as [_ <-]|]).
  apply M_bind_Ok in Hr as (? & now & _ & Hr).
  destruct (PairingManager.find_pending_for _ _ _ _) as [tx|] eqn:Hf.
  - unfold PairingManager.find_pending_for in Hf. apply find_Some in Hf as (k & Hk & Hc). to_prop.
    case_bool_decide; [|by apply mret_run in Hr as [_ <-]]. by eapply response_repeats.
  - apply M_bind_Ok in Hr as (? & b & _ & Hr). destruct b; cbn [negb] in Hr; [|by apply mret_run in Hr as [_ <-]].
    by eapply publish_repeats.
Qed.

(** ** A confirmation *)

Notation control := (_handle_pairing_control_locked clock write_fails).

(** The grant of an approved transaction. *)
Definition granted (x : PendingPairing.t) (expected : gset string) : PeerGrant.t :=
  PeerGrant.mk (PendingPairing.peer_id x) (PendingPairing.secret x) (Permission.texts expected) (PendingPairing.material x).

(** The message repeats every field of the transaction, its secret and its expiry included. *)
Record matches (x : PendingPairing.t) (request : PairingControlRequest.t) : Prop := {
  matches_peer : PendingPairing.peer_id x = PairingControlRequest.caller_node_id request;
  matches_secret : PendingPairing.secret x = PairingControlRequest.secret request;
  matches_identity : Material.identity_fingerprint (PendingPairing.material x)
    = Some (PairingControlRequest.identity_fingerprint request);
  matches_transport : Material.transport_fingerprint (PendingPairing.material x)
    = Some (PairingControlRequest.transport_fingerprint request);
  matches_expiry : feqb (PendingPairing.expires_at x) (PairingControlRequest.expires_at request) = true }.

Lemma bound_matches x request : bound x request = true → matches x request.
Proof. unfold bound. rewrite !andb_true_iff, !bool_decide_eq_true. by intros [[[[? ?] ?] ?] ?]. Qed.

(** The transaction a message completes: it was published with the permissions the message
    repeats, every field agrees, and its time is not over. *)
Record completes w (request : PairingControlRequest.t) (x : PendingPairing.t) (expected : gset string) : Prop := {
  completes_pending : od_get (PairingControlRequest.transaction_id request) (pending (pairing w)) = Some x;
  completes_asked : _pending_permissions (outside w) !! PairingControlRequest.transaction_id request = Some expected;
  completes_permissions : expected = permission_values (PairingControlRequest.permissions request);
  completes_matches : matches x request;
  completes_read_only : ∀ p, p ∈ expected → p ∈ NodePermission.value <$> elements READ_PERMISSIONS;
  completes_in_time : ∃ n, fleb (PendingPairing.expires_at x) (clock n) = false }.

(** The trust with one grant more. *)
Definition installs w w' (x : PendingPairing.t) (expected : gset string) : Prop :=
  grants (pairing w') = <[PendingPairing.peer_id x := granted x expected]> (grants (pairing w)) ∧
  trusted (pairing w') = trusted (pairing w).

Lemma approve_installs id expected t m m' g :
  PairingManager.approve id (Permission.texts expected) t m = (m', Ok g) →
  ∃ x, od_get id (pending m) = Some x ∧ fleb (PendingPairing.expires_at x) t = false ∧ g = granted x expected ∧
    m' = PairingManager.set_grants m (<[PendingPairing.peer_id x := g]> (grants m)).
Proof.
  unfold PairingManager.approve. destruct (PairingManager._active m id t) as [x|] eqn:Hx; [|done].
  apply active_Ok in Hx as [Hx Ht]. destruct (negb _); [done|]. intros [= <- <-]. by exists x.
Qed.

Lemma approve_Err id permissions t m m' e : PairingManager.approve id permissions t m = (m', Err e) → m' = m.
Proof. unfold PairingManager.approve. intros Ha. repeat case_match; by simplify_eq. Qed.

(** The registry and the service are told of a trust that stays. *)
Lemma told_pairing {A} p (a : A) w w' res :
  (_project_registry_trust p;; _refresh_live_grants;; mret a) w = (w', res) → pairing w' = pairing w.
Proof.
  rewrite M_bind_run. destruct (_project_registry_trust p w) as [w1 [[]|e]] eqn:H1;
    pose proof (kept_pairing _ _ (keeps_run trust_kept _ _ _ _ H1)) as E; [|by intros [= <- _]].
  rewrite M_bind_run. destruct (_refresh_live_grants w1) as [w2 [[]|e]] eqn:H2; apply refresh_outside in H2;
    intros Hr; [apply (f_equal fst) in Hr; cbn in Hr; subst w'|injection Hr as <- _]; by rewrite H2.
Qed.

(** An approval installs the grant of its transaction or changes nobody's standing. *)
Lemma approve_grants id expected w w' res : _loaded (outside w) = true →
  approve_pairing clock write_fails id (Permission.texts expected) w = (w', res) →
  (∃ x, od_get id (pending (pairing w)) = Some x ∧ (∃ n, fleb (PendingPairing.expires_at x) (clock n) = false) ∧
     (∀ p, p ∈ expected → p ∈ NodePermission.value <$> elements READ_PERMISSIONS) ∧
     installs w w' x expected ∧ pending (pairing w') = pending (pairing w)) ∨
  pairing w' = pairing w ∧ is_ok res = false.
Proof.
  intros Hl Ha. unfold approve_pairing in Ha. rewrite M_bind_run in Ha. unfold throw_if in Ha.
  destruct (negb (bool_decide _)) eqn:Hread; [right; by injection Ha as <- <-|]. cbn [raise_if] in Ha.
  rewrite M_bind_run, require_pairing_run in Ha by done. rewrite M_bind_run in Ha. cbn [now] in Ha.
  rewrite M_bind_run in Ha. unfold on_pairing in Ha. cbn [outside] in Ha.
  destruct (PairingManager.approve _ _ _ (pairing w)) as [m [g|e]] eqn:Hap.
  2: { injection Ha as <- <-. right. split; [|done]. by apply approve_Err in Hap as ->. }
  apply approve_installs in Hap as (x & Hx & Ht & -> & ->). to_prop. rewrite Permission.values_texts in Hread.
  rewrite M_bind_run in Ha. destruct (save _) as [w3 [b|e]] eqn:Hs in Ha;
    pose proof (kept_pairing _ _ (keeps_run trust_kept _ _ _ _ Hs)) as Hp.
  - destruct b; cbn [negb] in Ha.
    + left. exists x. apply told_pairing in Ha. split; [done|]. split; [by eexists|]. split; [done|].
      unfold installs. rewrite Ha, Hp. done.
    + right. rewrite M_bind_run in Ha. destruct (restore (pairing w) w3) as [w4 [[]|e]] eqn:H4; [|done].
      apply restore_pairing in H4 as [Hq _]; [|by rewrite Hp..]. by injection Ha as <- <-.
  - left. exists x. injection Ha as <- <-. split; [done|]. split; [by eexists|]. split; [done|].
    unfold installs. rewrite Hp. done.
Qed.

Lemma mret_inv {S A} (a : A) (s s' : S) res : (mret a : M S A) s = (s', res) → s' = s ∧ res = Ok a.
Proof. by intros [= <- <-]. Qed.

(** What a control message leaves of the standing of a peer. *)
Definition settled w w' request : Prop :=
  grants (pairing w') = grants (pairing w) ∧ trusted (pairing w') = trusted (pairing w) ∨
  PairingControlRequest.operation request = "pair_confirm" ∧
    ∃ x expected, completes w request x expected ∧ installs w w' x expected.

Lemma restore_tables m w w' res : restore m w = (w', res) →
  grants (pairing w') = grants m ∧ trusted (pairing w') = trusted m.
Proof. unfold restore. cbn [update]. by intros [= <- _]. Qed.

Lemma confirm_settles id expected w w' res : _loaded (outside w) = true →
  confirm_pairing clock write_fails id expected w = (w', res) →
  (grants (pairing w') = grants (pairing w) ∧ trusted (pairing w') = trusted (pairing w) ∧ res ≠ Ok true) ∨
  (∃ x, od_get id (pending (pairing w)) = Some x ∧ (∃ n, fleb (PendingPairing.expires_at x) (clock n) = false) ∧
     (∀ p, p ∈ expected → p ∈ NodePermission.value <$> elements READ_PERMISSIONS) ∧ installs w w' x expected ∧
     (res = Ok true → pending (pairing w') = od_pop id (pending (pairing w)) ∧ trust_saved w')).
Proof.
  intros Hl Hc. unfold confirm_pairing in Hc. rewrite M_bind_run, require_pairing_run in Hc by done.
  rewrite M_bind_run in Hc. unfold outcome in Hc.
  destruct (approve_pairing clock write_fails id (Permission.texts expected) w) as [w1 [g|e]] eqn:Ha;
    apply approve_grants in Ha as [(x & Hx & Ht & Hread & Hi & Hp)|[Hsame Hno]]; try done.
  - do 2 (rewrite M_bind_run in Hc; cbn [abort_pairing forget update] in Hc). rewrite M_bind_run in Hc.
    destruct (save _) as [w3 [b|e]] eqn:Hs in Hc;
      pose proof (kept_pairing _ _ (keeps_run trust_kept _ _ _ _ Hs)) as Hp3; [destruct b|].
    + right. exists x. apply save_saves in Hs as [_ Hs]. apply mret_inv in Hc as [-> ->].
      do 3 (split; [done|]). unfold installs in *. rewrite Hp3. cbn. rewrite Hp. done.
    + left. rewrite M_bind_run in Hc. destruct (restore _ w3) as [w4 [[]|]] eqn:H4; [|done].
      apply restore_tables in H4 as [<- <-]. rewrite M_bind_run in Hc. cbn [remember update] in Hc.
      rewrite M_bind_run in Hc. destruct (save _) as [w5 [b|e]] eqn:H5 in Hc;
        pose proof (kept_pairing _ _ (keeps_run trust_kept _ _ _ _ H5)) as E.
      * apply mret_inv in Hc as [-> ->]. by rewrite E.
      * injection Hc as <- <-. by rewrite E.
    + right. exists x. injection Hc as <- <-. do 3 (split; [done|]). unfold installs in *. rewrite Hp3. by cbn.
  - right. exists x. do 3 (split; [done|]). destruct (_ || _); [apply mret_inv in Hc as [-> ->]|injection Hc as <- <-]; done.
  - left. rewrite <- Hsame. destruct (_ || _); [apply mret_inv in Hc as [-> ->]|injection Hc as <- <-]; done.
Qed.

(** An acknowledged confirmation has installed the grant its transaction stands for. *)
Lemma acknowledged_installs request w w' : control request w = (w', Ok true) →
  PairingControlRequest.operation request = "pair_confirm" →
  ∃ x, od_get (PairingControlRequest.transaction_id request) (pending (pairing w)) = Some x ∧
    bound x request = true ∧ installs w w' x (permission_values (PairingControlRequest.permissions request)) ∧
    trust_saved w'.
Proof.
  intros Hc Hop. assert (_loaded (outside w) = true) as Hl.
  { pose proof Hc as Hr. unfold _handle_pairing_control_locked in Hr. apply M_bind_Ok in Hr as (? & ? & Hr & _).
    unfold _require_pairing in Hr. apply M_bind_Ok in Hr as (? & r & [= <- <-] & Hr).
    apply M_bind_Ok in Hr as (? & [] & [_ Hl]%throw_if_Ok & _). by apply negb_false_iff in Hl. }
  unfold _handle_pairing_control_locked in Hc. rewrite M_bind_run, require_pairing_run in Hc by done.
  rewrite M_bind_run in Hc. cbn [runtime] in Hc. cbv zeta in Hc.
  destruct (od_get _ (pending (pairing w))) as [x|] eqn:Hx; [|by apply mret_run in Hc as [_ ?]].
  destruct (_pending_permissions _ !! _) as [expected|]; [|by apply mret_run in Hc as [_ ?]].
  destruct (negb _ || negb _) eqn:Hb; [by apply mret_run in Hc as [_ ?]|].
  apply orb_false_iff in Hb as [He%negb_false_iff%bool_decide_eq_true Hb%negb_false_iff]. subst expected.
  rewrite Hop in Hc. rewrite bool_decide_eq_false_2, bool_decide_eq_true_2 in Hc by done.
  destruct (confirm_settles _ _ _ _ _ Hl Hc) as [(_ & _ & ?)|(y & Hy & _ & _ & Hi & Hok)]; [done|].
  assert (y = x) as -> by congruence. exists x. split; [done|]. split; [done|]. split; [done|]. by apply Hok.
Qed.

(** C10. A control message does what was agreed and nothing else.  Whichever writes fail, it changes
    the grants and the trusted peers only as the confirmation of an open, unexpired transaction
    whose every field it repeats (peer, secret, both fingerprints, expiry, permissions), and then by
    exactly the grant of that transaction, with the read-only permissions that were asked for.  And
    a message that is acknowledged, be it an abort, repeats its transaction, which is closed and
    the result saved. *)
Theorem confirmation_is_exact request w w' res : _loaded (outside w) = true →
  control request w = (w', res) →
  settled w w' request ∧
  (res = Ok true →
     pending (pairing w') = od_pop (PairingControlRequest.transaction_id request) (pending (pairing w)) ∧
     trust_saved w' ∧
     (∃ x, od_get (PairingControlRequest.transaction_id request) (pending (pairing w)) = Some x ∧ matches x request) ∧
     (PairingControlRequest.operation request = "pair_confirm" →
        ∃ x expected, completes w request x expected ∧ installs w w' x expected)).
Proof.
  intros Hl Hc. unfold _handle_pairing_control_locked in Hc. rewrite M_bind_run, require_pairing_run in Hc by done.
  rewrite M_bind_run in Hc. cbn [runtime] in Hc. cbv zeta in Hc.
  destruct (od_get _ (pending (pairing w))) as [x|] eqn:Hx.
  2: { apply mret_inv in Hc as [-> ->]. split; [by left|done]. }
  destruct (_pending_permissions _ !! _) as [expected|] eqn:Hex.
  2: { apply mret_inv in Hc as [-> ->]. split; [by left|done]. }
  destruct (negb _ || negb _) eqn:Hb; [apply mret_inv in Hc as [-> ->]; split; [by left|done]|]. to_prop.
  case_bool_decide as Hab.
  - rewrite M_bind_run in Hc. cbn [abort_pairing update] in Hc. rewrite M_bind_run in Hc. cbn [forget update] in Hc.
    pose proof (kept_pairing _ _ (keeps_run trust_kept _ _ _ _ Hc)) as E. split.
    + left. by rewrite E.
    + intros ->. apply save_saves in Hc as [_ Hs]. rewrite E. split; [done|]. split; [done|].
      split; [exists x; by split; [|apply bound_matches]|]. intros Hco. congruence.
  - case_bool_decide as Hop; [|apply mret_inv in Hc as [-> ->]; split; [by left|done]].
    destruct (confirm_settles _ _ _ _ _ Hl Hc) as [(?&?&?)|(y & Hy & Ht & Hread & Hi & Hok)]; [by split; [left|]|].
    assert (y = x) as -> by congruence.
    apply bound_matches in H0 as Hrep.
    assert (completes w request x expected) as Hcomp by done. split.
    + right. split; [done|]. by exists x, expected.
    + intros ->. destruct (Hok eq_refl) as [Hp Hs]. split; [done|]. split; [done|].
      split; [by exists x|]. intros _. by exists x, expected.
Qed.

(** ** A confirmation that is refused *)

Lemma approve_live id permissions w w' g : _loaded (outside w) = true → _service (outside w) = true →
  approve_pairing clock write_fails id permissions w = (w', Ok g) →
  RemoteService._grants (svc w') !! PeerGrant.caller_id g ≠ None.
Proof.
  intros Hl Hsv Ha. unfold approve_pairing in Ha. apply M_bind_Ok in Ha as (? & [] & [-> _]%throw_if_Ok & Ha).
  rewrite M_bind_run, require_pairing_run in Ha by done. apply M_bind_Ok in Ha as (w1 & t & [= <- <-] & Ha).
  apply M_bind_Ok in Ha as (w2 & g0 & Hg & Ha). unfold on_pairing in Hg. cbn [outside] in Hg.
  destruct (PairingManager.approve _ _ _ _) as [m res] eqn:Hap. injection Hg as <- ->.
  unfold PairingManager.approve in Hap. destruct (PairingManager._active _ _ _) as [x|]; [|done].
  destruct (negb _); [done|]. injection Hap as <- <-.
  apply M_bind_Ok in Ha as (w3 & b & Hs & Ha). apply (keeps_run trust_kept) in Hs; [|apply _].
  destruct b; cbn [negb] in Ha; [|by apply M_bind_Ok in Ha as (? & ? & _ & ?)].
  apply M_bind_Ok in Ha as (w4 & [] & H4 & Ha). apply (keeps_run trust_kept) in H4; [|apply _].
  apply M_bind_Ok in Ha as (w5 & [] & H5 & [-> <-]%mret_run).
  assert (trust_kept _ w4) as T by (etrans; [exact Hs|exact H4]).
  apply refresh_lists in H5 as (_ & _ & Hk); [|by rewrite (kept_flag _ _ T)|by rewrite (kept_loaded _ _ T)].
  rewrite Hk, (kept_pairing _ _ T). cbn. by rewrite lookup_insert_eq.
Qed.

(** A confirmation that is refused leaves the peer in: when the approval is saved but the closed
    transaction is not, the message is answered [False] and the trust is rolled back, but the
    service is not told, and its access list still holds the grant that was withdrawn. *)
Theorem refused_confirmation_stays_live id expected w w1 g w' :
  _loaded (outside w) = true → _service (outside w) = true →
  approve_pairing clock write_fails id (Permission.texts expected) w = (w1, Ok g) →
  confirm_pairing clock write_fails id expected w = (w', Ok false) →
  grants (pairing w') = grants (pairing w) ∧ RemoteService._grants (svc w') !! PeerGrant.caller_id g ≠ None.
Proof.
  intros Hl Hsv Ha Hc. pose proof (approve_live _ _ _ _ _ Hl Hsv Ha) as Hg.
  unfold confirm_pairing in Hc. rewrite M_bind_run, require_pairing_run in Hc by done.
  rewrite M_bind_run in Hc. unfold outcome in Hc. rewrite Ha in Hc.
  do 2 (rewrite M_bind_run in Hc; cbn [abort_pairing forget update] in Hc).
  apply M_bind_Ok in Hc as (w3 & b & Hs & Hc). apply (keeps_run trust_kept) in Hs; [|apply _].
  destruct b; [by apply mret_run in Hc as [_ ?]|].
  apply M_bind_Ok in Hc as (w4 & [] & H4 & Hc). assert (svc w4 = svc w3) as E4 by (by injection H4 as <-).
  apply restore_tables in H4 as [Eg _]. rewrite M_bind_run in Hc. cbn [remember update] in Hc.
  apply M_bind_Ok in Hc as (w5 & b & H5 & [-> _]%mret_run). apply (keeps_run trust_kept) in H5; [|apply _].
  rewrite (kept_pairing _ _ H5), (kept_service _ _ H5). cbn [svc]. rewrite E4, (kept_service _ _ Hs). by split.
Qed.

(** ** A peer without a root *)

(** A peer that paired over the network cannot repair: the request of the pairing flow presents
    no root, so its confirmed grant has none, and while that grant stands every later request
    of the peer, repairs included, is refused as an identity conflict. *)
Theorem network_pairing_cannot_be_repaired request w w' x :
  _loaded (outside w) = true → control request w = (w', Ok true) →
  PairingControlRequest.operation request = "pair_confirm" →
  od_get (PairingControlRequest.transaction_id request) (pending (pairing w)) = Some x →
  Material.root_public_key (PendingPairing.material x) = None →
  ∀ again fid fs w2 local, PairingRequest.caller_node_id again = PendingPairing.peer_id x →
    _loaded (outside w2) = true → _identity (outside w2) = Some local → local ≠ PendingPairing.peer_id x →
    grants (pairing w2) = grants (pairing w') →
    handle_pairing_request false again fid fs w2 = (w2, Ok (refusal "identity_conflict")).
Proof.
  intros Hl Hc Hop Hx Hroot again fid fs w2 local Hcaller Hl2 Hid Hne Hg.
  assert (∃ g, grants (pairing w') !! PendingPairing.peer_id x = Some g ∧
            Material.root_public_key (PeerGrant.material g) = None) as (g & Hgx & Hgr).
  { unfold _handle_pairing_control_locked in Hc. rewrite M_bind_run, require_pairing_run in Hc by done.
    rewrite M_bind_run in Hc. cbn [runtime] in Hc. cbv zeta in Hc. rewrite Hx in Hc.
    destruct (_pending_permissions _ !! _) as [expected|]; [|by apply mret_run in Hc as [_ ?]].
    destruct (negb _ || negb _); [by apply mret_run in Hc as [_ ?]|].
    rewrite Hop in Hc. rewrite bool_decide_eq_false_2, bool_decide_eq_true_2 in Hc by done.
    destruct (confirm_settles _ _ _ _ _ Hl Hc) as [(_ & _ & ?)|(y & Hy & _ & _ & [Hi _] & _)]; [done|].
    rewrite Hi. assert (y = x) as -> by congruence. rewrite lookup_insert_eq. by eexists. }
  unfold RuntimePairing.handle_pairing_request, _handle_pairing_request_locked.
  rewrite M_bind_run, require_pairing_run by done. rewrite M_bind_run. cbn [runtime].
  rewrite M_bind_run, Hid. cbn [of_option lift]. cbv zeta. rewrite Hcaller, bool_decide_eq_false_2 by congruence.
  unfold PairingManager.get_grant. rewrite Hg, Hgx. unfold grant_root_continuous. by rewrite Hgr.
Qed.
End spec.

(** ** A concrete pairing *)

(** [p] asks to pair, and the application agrees to everything. *)
Definition node_p : NodeId := mkNodeId "p".
Definition peer_secret : string := "ffeeddccbbaa99887766554433221100ffeeddccbbaa99887766554433221100".
Definition pair_please (intent : string) : PairingRequest.t :=
  PairingRequest.mk node_p "identity" "transport" peer_secret {[READ_STATE]} None None None intent.
Definition agree : option (PairingRequest.t → M (World SampleRuntime) bool) := Some (λ _, mret true).

Definition sample_pair (request : PairingRequest.t) (w : World SampleRuntime) :=
  handle_pairing_request (λ _, None) (λ _ _ _, false) sample_clock no_failure agree false request "t1" "x" w.
Definition asked_world : World SampleRuntime := (sample_pair (pair_please "pair") sample_world).1.

Lemma sample_pair_run request w :
  handle_pairing_request (λ _, None) (λ _ _ _, false) sample_clock no_failure agree false request "t1" "x" w
  = ((sample_pair request w).1, (sample_pair request w).2).
Proof. apply surjective_pairing. Qed.

Definition approved_answer (res : result dict) : bool :=
  match res with Ok d => match jget "approved" d with JBool b => b | _ => false end | Err _ => false end.

Lemma approved_answer_true res : approved_answer res = true → ∃ d, res = Ok d ∧ jget "approved" d = JBool true.
Proof.
  destruct res as [d|]; [|done]. simpl. destruct (jget "approved" d) eqn:E; try done. intros ->. by exists d.
Qed.

Lemma agree_decides : only_decides agree.
Proof. intros f request [= <-] w. by split. Qed.

Lemma asking_obtains_nothing_witness :
  approved_answer (sample_pair (pair_please "pair") sample_world).2 = true ∧
  grants (Runtime.pairing (outside asked_world)) = grants (Runtime.pairing sample_runtime) ∧
  trust_saved asked_world.
Proof.
  assert (Ha : approved_answer (sample_pair (pair_please "pair") sample_world).2 = true) by (vm_compute; reflexivity).
  destruct (asking_obtains_nothing (λ _, None) (λ _ _ _, false) sample_clock no_failure agree false
              (pair_please "pair") "t1" "x" sample_world asked_world _
              agree_decides
              (sample_pair_run _ _)) as [Hs Hok].
  split; [exact Ha|]. split; [exact (standing_grants _ _ Hs)|].
  apply approved_answer_true in Ha as (d & Hd & Hd'). destruct (Hok d Hd Hd') as (_ & _ & _ & [(k & x & Hk & _)|[_ Ht]]).
  - exfalso. vm_compute in Hk. inversion Hk.
  - exact Ht.
Defined.

(** [p] confirms. *)
Definition sample_control (fails : nat → option exn) (request : PairingControlRequest.t) (w : World SampleRuntime) :=
  _handle_pairing_control_locked sample_clock fails request w.
Definition please_confirm : PairingControlRequest.t :=
  PairingControlRequest.mk "pair_confirm" "t1" node_p "identity" "transport" peer_secret {[READ_STATE]} (fadd (flit 110) (flit 300)).
Definition confirmed_world : World SampleRuntime := (sample_control no_failure please_confirm asked_world).1.

Lemma sample_control_run fails request w :
  _handle_pairing_control_locked sample_clock fails request w
  = ((sample_control fails request w).1, (sample_control fails request w).2).
Proof. apply surjective_pairing. Qed.

Lemma confirmed : (sample_control no_failure please_confirm asked_world).2 = Ok true.
Proof. vm_compute. reflexivity. Qed.

Lemma asked_loaded : _loaded (outside asked_world) = true ∧ _service (outside asked_world) = true.
Proof. vm_compute. split; reflexivity. Qed.

Lemma confirmation_is_exact_witness :
  pending (Runtime.pairing (outside confirmed_world)) = [] ∧ trust_saved confirmed_world ∧
  ∃ x expected, completes sample_clock asked_world please_confirm x expected ∧ installs asked_world confirmed_world x expected.
Proof.
  destruct (confirmation_is_exact sample_clock no_failure please_confirm asked_world _ _ (proj1 asked_loaded)
              (sample_control_run _ _ _)) as [_ Hok].
  destruct (Hok confirmed) as (_ & Hs & _ & Hi). split; [vm_compute; reflexivity|]. split; [exact Hs|]. exact (Hi eq_refl).
Defined.

(** The transaction of [p]. *)
Definition asked_transaction : PendingPairing.t :=
  PendingPairing.mk "t1" node_p peer_secret (fadd (flit 110) (flit 300)) (presented (pair_please "pair")) "inbound" "pair".

Lemma network_pairing_cannot_be_repaired_witness :
  od_get "t1" (pending (Runtime.pairing (outside asked_world))) = Some asked_transaction ∧
  handle_pairing_request (λ _, None) (λ _ _ _, false) sample_clock no_failure agree false (pair_please "repair") "t2" "y"
    confirmed_world = (confirmed_world, Ok (refusal "identity_conflict")).
Proof.
  assert (Hx : od_get "t1" (pending (Runtime.pairing (outside asked_world))) = Some asked_transaction)
    by (vm_compute; reflexivity).
  split; [exact Hx|].
  refine (network_pairing_cannot_be_repaired (λ _, None) (λ _ _ _, false) sample_clock no_failure agree please_confirm
            asked_world confirmed_world asked_transaction (proj1 asked_loaded) _ eq_refl Hx eq_refl
            (pair_please "repair") "t2" "y" confirmed_world node_s eq_refl _ _ _ eq_refl).
  - unfold confirmed_world. rewrite <- confirmed. apply surjective_pairing.
  - vm_compute. reflexivity.
  - vm_compute. reflexivity.
  - intros E. discriminate E.
Defined.

(** The write that fails is the second one of the trust file. *)
Definition late_failure (n : nat) : option exn :=
  if Nat.eqb n (ticks asked_world + 3) then Some (Exn OSError "disk full") else None.
Definition late_approval :=
  approve_pairing sample_clock late_failure "t1" (Permission.texts {["read_state"]}) asked_world.
Definition late_confirmation := confirm_pairing sample_clock late_failure "t1" {["read_state"]} asked_world.

Lemma refused_confirmation_stays_live_witness :
  late_confirmation.2 = Ok false ∧
  grants (Runtime.pairing (outside late_confirmation.1)) !! node_p = None ∧
  RemoteService._grants (svc late_confirmation.1) !! node_p ≠ None.
Proof.
  assert (Hc : late_confirmation.2 = Ok false) by (vm_compute; reflexivity). split; [exact Hc|].
  assert (Ha : late_approval.2 = Ok (granted asked_transaction {["read_state"]})) by (vm_compute; reflexivity).
  destruct (refused_confirmation_stays_live sample_clock late_failure "t1" {["read_state"]} asked_world
              late_approval.1 (granted asked_transaction {["read_state"]}) late_confirmation.1
              (proj1 asked_loaded) (proj2 asked_loaded)) as [Hg Hl].
  - rewrite <- Ha. apply surjective_pairing.
  - rewrite <- Hc. apply surjective_pairing.
  - split; [|exact Hl]. rewrite Hg. vm_compute. reflexivity.
Defined.
