(* ===== verification/PairingAgreementSpec.v ===== *)
(** * Two parties: who pairs shares a secret with the target

    The flow of a caller ([pairing/network.py]) against the pairing listener of another
    runtime ([transport/server.py], [pairing/target.py], [runtime/core.py]).  Each message is
    answered by the listener; what else happens to the target between two messages, and whether
    a message arrives at all, is left open. *)

From S2P Require Import Prelude PyFloat Identity ClusterModels Roles RolesFacts Sharing ConnectionState NodeRegistry PyJson StateCodec Wire Pairing PairingSpec Candidates Connections PairingFlow PairingFlowSpec Listener ListenerSpec RemoteModels Service Runtime RuntimePairing RuntimeFacts InboundPairingSpec.
Abbreviation dict := (list (string * json)) (only parsing).
Import PairingManager(trusted, grants).

Section agreement.
Context (sha256_hex : string → string).
Context (b64decode : string → option string) (ed25519_verify : string → string → string → bool).
(** The caller *)
Context (_identity : NodeId) (identity_root : string) (sign_transport_proof : Z → string → result string).
Context (_transport_fingerprint : string) (_root_public_key : option string) (_transport_generation : Z)
  (_transport_proof : option string).
Context {W Pr T : Type} `{HasNetwork W Pr}.
Context (time : M W float) (fresh_secret : M W string) (fresh_id : M W string) (cancelled : M W bool).
Context (tls_transport : string → Z → string → M W T) (exchange : T → dict → M W json).
Context (_persist : M W bool).
Context (_on_route_attempt : option (string → EndpointCandidate.t → string → option string → M W ())).
(** The target *)
Context {Cap Srf Pr' : Type}.
Notation R := (Runtime.t Cap Srf Pr').
Context (clock : nat → float) (write_fails : nat → option exn).
Context (on_pairing_request : option (PairingRequest.t → M (World R) bool))
  (on_elevation_request : option (CapabilityElevationRequest.t → M (World R) bool)).
Context (token token_hex : M (World R) string) (busy : M (World R) bool).
Context (unreadable : dict → M (World R) json) (unreadable_elevation : dict → M (World R) bool).

Notation listener := (pairing_listener b64decode ed25519_verify clock write_fails on_pairing_request
  on_elevation_request token busy unreadable unreadable_elevation).
Notation establish := (_establish sha256_hex b64decode ed25519_verify _identity identity_root sign_transport_proof
  _transport_fingerprint _root_public_key _transport_generation _transport_proof time fresh_secret fresh_id
  cancelled tls_transport exchange _persist _on_route_attempt).
Notation pairing w := (Network.pairing (net w)).

(** The target is somewhere in the world; a message that is answered is answered by it. *)
Context (far : W → World R).
Context (Hserved : ∀ transport d w w' a, exchange transport d w = (w', Ok a) →
  ∃ u, Listener.respond (now clock) token_hex listener (JObj d) u = (far w', Ok a)).

Lemma target_answers secret requested intent transport response :
  answers exchange transport (pair_request _identity (own_fingerprint sha256_hex _identity) _transport_fingerprint secret
                      None None None requested intent) response →
  repeats response (PairingRequest.mk _identity (own_fingerprint sha256_hex _identity) _transport_fingerprint secret
                      requested None None None intent).
Proof.
  intros (v & v' & a & (u & Hr)%Hserved & Ha).
  eapply pair_request_approved in Hr as (Hpost & _ & outcome & Ho & Hout); [|done|done|done].
  destruct (request_kept _ _ Hpost) as [_ Hs]. cbn [_handle_pairing_request] in Ho.
  apply M_bind_Ok in Ho as (? & held & _ & Ho). apply M_bind_Ok in Ho as (? & id & _ & Ho).
  apply M_bind_Ok in Ho as (? & fs & _ & Ho). apply M_bind_Ok in Ho as (? & answer & Ho & [_ <-]%mret_run).
  rewrite (Hout _ eq_refl) in Ho. eapply answer_repeats; [|exact Ho|].
  - intros E. cbn in E. subst secret. by vm_compute in Hs.
  - by apply approved_Some in Ha as [_ ?].
Qed.

(** What the target installed for the caller. *)
Lemma target_installed (transaction : PairingTransaction.t T) w w' secret :
  PairingFlow.confirm_pairing exchange cancelled transaction w = (w', Ok true) →
  PairingTransaction.caller_node_id transaction = JStr (value _identity) →
  PairingTransaction.secret transaction = JStr secret →
  trust_saved (far w') ∧
  ∃ g, grants (Runtime.pairing (outside (far w'))) !! _identity = Some g ∧ PeerGrant.secret g = secret ∧
    PeerGrant.permissions g = Permission.texts (permission_values (PairingTransaction.permissions transaction)).
Proof.
  intros Hc Hid Hsec. unfold PairingFlow.confirm_pairing, pairing_control in Hc.
  apply M_bind_Ok in Hc as (? & [] & _ & Hc). apply M_bind_Ok in Hc as (w1 & stop & _ & Hc).
  destruct stop; [by apply mret_run in Hc as [_ ?]|]. apply M_bind_Ok in Hc as (w2 & a & (u & Hr)%Hserved & Hc).
  apply mret_run in Hc as [-> [d Ha]%bool_decide_eq_true].
  eapply confirmation_acknowledged in Hr as (u1 & r & Hh & Hop & Hcaller & Hs & Hperm); [|done|done|done].
  change (_handle_pairing_control_locked clock write_fails r u1 = (far w2, Ok true)) in Hh.
  apply acknowledged_installs in Hh as (tx & _ & Hb & [Hg _] & Hsaved); [|done]. split; [done|].
  unfold bound in Hb. to_prop. rewrite Hcaller in Hid. injection Hid as Hid. rewrite Hs in Hsec. injection Hsec as Hsec.
  assert (PendingPairing.peer_id tx = _identity) as Hpeer.
  { replace (PendingPairing.peer_id tx) with (PairingControlRequest.caller_node_id r) by done.
    destruct (PairingControlRequest.caller_node_id r), _identity. cbn in Hid. by subst. }
  rewrite Hg, Hpeer, lookup_insert_eq. eexists. split; [done|]. split; [cbn; congruence|]. cbn. by rewrite Hperm.
Qed.

(** What a transaction holds of the answer. *)
Lemma index_Ok key d v : index key d = Ok v → jget key d = v.
Proof. unfold index, jget. by destruct (od_get key d) as [x|]; [intros [= ->]|]. Qed.

Lemma transaction_read response accepted transport (transaction : PairingTransaction.t T) :
  transaction_of response accepted transport = Ok transaction →
  PairingTransaction.caller_node_id transaction = jget "caller_node_id" response ∧
  PairingTransaction.secret transaction = jget "secret" response ∧
  PairingTransaction.permissions transaction = accepted.
Proof.
  unfold transaction_of. intros Ht. apply bind_Ok in Ht as (id & _ & Ht).
  apply bind_Ok in Ht as (caller & Hc%index_Ok & Ht). apply bind_Ok in Ht as (identity & _ & Ht).
  apply bind_Ok in Ht as (fingerprint & _ & Ht). apply bind_Ok in Ht as (secret & Hs%index_Ok & Ht).
  apply bind_Ok in Ht as (expires & _ & Ht). injection Ht as <-. by split_and!.
Qed.

Lemma values_members (X : gset NodePermission) :
  Permission.values (Permission.members X) = permission_values X.
Proof.
  apply set_eq. intros s. unfold Permission.values, Permission.members, permission_values. rewrite elem_of_map.
  rewrite elem_of_list_to_set, list_elem_of_fmap. split.
  - intros (p & -> & (q & -> & Hq)%elem_of_map). exists q. split; [done|]. by apply elem_of_elements.
  - intros (q & -> & Hq%elem_of_elements). exists (Permission.Member q). split; [done|]. apply elem_of_map. eauto.
Qed.

Context {Htime : Keeps trust_same time} {Hsecret : Keeps trust_same fresh_secret}
  {Hid : Keeps trust_same fresh_id} {Hcancel : Keeps trust_same cancelled}
  {Htls : ∀ a q f, Keeps trust_same (tls_transport a q f)} {Hexchange : ∀ t d, Keeps trust_same (exchange t d)}
  {Hpersist : Keeps trust_same _persist}
  {Hreport : ∀ f a e r m, _on_route_attempt = Some f → Keeps trust_same (f a e r m)}.
Context (Hsaves : ∀ w, is_ok (_persist w).2 = true) (Hflag : ∀ w, is_ok (cancelled w).2 = true).

(** C3. Both sides agree. When an attempt to pair with or repair a peer succeeds, either the peer
    was trusted before and nothing changed, or the caller now trusts the peer with a secret and
    some permissions, and the target, wherever it has got to by then, holds a grant for the
    caller with the same secret and the same permissions, which it has saved.  This holds
    whichever messages are lost or tried again over other routes, and whatever else the target
    does between two messages. *)
Theorem paired_parties_agree peer permissions intent w w' t :
  indexed (pairing w) → establish peer permissions intent w = (w', Ok t) →
  (pairing w' = pairing w ∧ trusted (pairing w) !! peer = Some t) ∨
  (trusted (pairing w') = <[peer := t]> (trusted (pairing w)) ∧
   trust_saved (far w') ∧
   ∃ g, grants (Runtime.pairing (outside (far w'))) !! _identity = Some g ∧
     PeerGrant.secret g = TrustedPeer.secret t ∧
     Permission.values (PeerGrant.permissions g) = Permission.values (TrustedPeer.permissions t)).
Proof.
  intros Hi He.
  destruct (establish_Ok _ _ _ _ _ _ _ _ _ _ _ _ _ _ _ _ _ _ Hflag _ _ _ _ _ _ He)
    as (w1 & candidate & fp & now & _ & _ & [(E & _ & Ht)|([Ht _ _ _] & Hm & _)]); [by left|right].
  split; [done|]. destruct (Hm Hi) as (secret & requested & transport & response & Hans & Hagree).
  destruct (target_answers _ _ _ _ _ Hans) as [Hcaller Hs].
  destruct Hagree as (accepted & transaction & wc & _ & Htr & Hperm & Hsec & Hc).
  destruct (transaction_read _ _ _ _ Htr) as (Hcaller' & Hs' & Hp'). rewrite Hcaller in Hcaller'. rewrite Hs in Hs'.
  destruct (target_installed _ _ _ _ Hc Hcaller' Hs') as (Hsaved & g & Hg & Hgs & Hgp). split; [done|].
  exists g. split; [done|]. split; [by rewrite Hgs, Hsec|].
  by rewrite Hgp, Permission.values_texts, Hperm, values_members, Hp'.
Qed.
End agreement.

(** ** A concrete pairing *)

Module TwoParties.
(** The caller [p] with what it has discovered of [s], and the runtime of [s]. *)
Definition world : Type := (Network.t string * nat) * World SampleRuntime.
#[global] Instance world_network : HasNetwork world string.
Proof. by refine {| net := λ w, w.1.1; with_net n w := ((n, w.1.2), w.2) |}; [|intros [[] ?]|]. Defined.

Definition candidate : DiscoveredNodeCandidate.t :=
  DiscoveredNodeCandidate.mk (value node_s) "host" ["10.0.0.1"] (Some 8443%Z) "svc" "1" "1" None true true (flit 0)
    None (Some "pin") [PairSample.route] (Some "key") (Some 1%Z) (Some "proof") (Some 8444%Z).
Definition start : world :=
  ((Network.mk (PairingManager.__init__ node_p (flit 300)) (NodeRegistry.__init__ node_p false)
      [(value node_s, candidate)] (ConnectionManager.__init__ node_p), 0), sample_world).

Definition time : M world float := λ w, (((w.1.1, S w.1.2), w.2), Ok (flit (Z.of_nat w.1.2))).
#[global] Instance time_same : Keeps trust_same time.
Proof. by intros w. Qed.

Definition no_key : string → option string := λ _, None.
Definition unverified : string → string → string → bool := λ _ _ _, false.
Definition respond (d : list (string * json)) : M (World SampleRuntime) json :=
  Listener.respond (now sample_clock) (mret "generation")
    (pairing_listener no_key unverified sample_clock no_failure agree None (mret "t1") (mret false)
       (λ _, mret JNull) (λ _, mret false)) (JObj d).
(** A message reaches the listener of [s]. *)
Definition exchange (_ : string) (d : list (string * json)) : M world json := λ w,
  let '(u, r) := respond d w.2 in ((w.1, u), r).
#[global] Instance exchange_same transport d : Keeps trust_same (exchange transport d).
Proof. intros w. unfold exchange. by destruct (respond d w.2). Qed.
Lemma exchange_served transport d w w' a : exchange transport d w = (w', Ok a) → ∃ u, respond d u = (w'.2, Ok a).
Proof. unfold exchange. exists w.2. destruct (respond d w.2) as [u r]. by simplify_eq. Qed.

Definition pair (w : world) : world * result TrustedPeer.t :=
  _establish id no_key unverified node_p "root" (λ _ _, Ok "proof") "own-pin" (Some "root") 1 (Some "proof")
    time (mret peer_secret) (mret "t0") (mret false) (λ a _ _, mret a) exchange (mret true) None
    node_s {["read_state"]} "pair" w.
Definition mate : TrustedPeer.t :=
  TrustedPeer.mk node_s peer_secret {[Permission.Member READ_STATE]} (candidate_material candidate).
Lemma both_paired : pair start = ((pair start).1, Ok mate).
Proof. rewrite (surjective_pairing (pair start)) at 1. apply f_equal. vm_compute. reflexivity. Qed.
End TwoParties.

Lemma paired_parties_agree_witness :
  (TwoParties.pair TwoParties.start).2 = Ok TwoParties.mate ∧
  ∃ g, grants (Runtime.pairing (outside (TwoParties.pair TwoParties.start).1.2)) !! node_p = Some g ∧
    PeerGrant.secret g = peer_secret.
Proof.
  split; [by rewrite TwoParties.both_paired|].
  assert (indexed (Network.pairing (net TwoParties.start))) as Hi by (split; [constructor|by intros ? ? ?%not_elem_of_nil]).
  unshelve epose proof (paired_parties_agree _ _ _ _ _ _ _ _ _ _ _ _ _ _ _ _ _ _ _ _ _ _ _ _ _ _ _ snd
    TwoParties.exchange_served _ _ _ _ _ _ _ Hi TwoParties.both_paired) as Hp; [first [apply _|by intros]..|].
  destruct Hp as [[_ Hs]|(_ & _ & g & Hg & Hs & _)]; [discriminate Hs|]. exists g. split; [exact Hg|]. rewrite Hs. reflexivity.
Defined.
