(* ===== verification/RuntimeServiceSpec.v ===== *)
(** * A runtime and its service: who can change a cluster, and what is answered

    The service of [runtime_host] around the role dispatch, from the envelope to the cluster. *)

From S2P Require Import Prelude PyFloat Identity ClusterModels Roles RolesFacts RolesSpec Operations Sharing ConnectionState NodeRegistry PyJson StateCodec Wire WireOps Caches Envelope EnvelopeSpec Session Pairing Surfaces Candidates Connections RemoteModels Service ServiceFacts ServiceSpec TrustCodec Runtime RoleDispatch RuntimeFacts.
Import Runtime(_identity, _loaded, network, _connection_manager, _pending_permissions, _cluster,
  _cluster_capability_grants, _cluster_store, _failover_coordinator, _sharing, _surface_registry, _service,
  _persistence_ready, _generation, started, trust_file, cluster_file).
Abbreviation dict := (list (string * json)) (only parsing).

Section authority.
Context (sha256_hex : string → string).
Context {Cap Srf Pr : Type}.
Notation R := (Runtime.t Cap Srf Pr).
Notation W := (World R).
Context (clock : nat → float) (write_fails : nat → option exn).
Implicit Types (w : W) (r : R) (c : Cluster.t).

Notation dispatch := (dispatch_role_request sha256_hex clock write_fails).
Notation save := (_save_persisted_state write_fails).

(** ** The authority a change of the cluster takes *)

(** The topology a runtime's cluster stands for. *)
Definition topology r c : result RoleState.t :=
  RoleState.__post_init__ (Cluster.assignments c).*2 (Some (Cluster.epoch c)) ∅ (_cluster_capability_grants r).

(** The caller is a member in whose name the active Coordinator's authority is used. *)
Definition commands r c (caller : NodeId) : Prop :=
  ∃ actor state id, od_get caller (Cluster.assignments c) = Some actor ∧ topology r c = Ok state ∧
    RoleAssignment.node_id actor = Some id ∧ controls state id.

(** What the operation itself asks for. *)
Definition entitled r c (op : string) (caller : NodeId) : Prop :=
  if bool_decide (op = "consume_invite") then Cluster.is_active_coordinator c = true
  else if bool_decide (op = "renew_coordinator_lease") then caller = Cluster.coordinator_id c
  else commands r c caller.

(** The request names a paired caller and presents the authority of the cluster itself. *)
Record authority r c (request : RemoteRequest.t) (caller : NodeId) : Prop := {
  authority_caller : RemoteRequest.caller_node_id request = Some caller;
  authority_paired : paired r c caller = true;
  authority_cluster : text_param "cluster_id" (RemoteRequest.params request) = Ok (Cluster.cluster_id c);
  authority_epoch :
    int_param "epoch" (RemoteRequest.params request) = Ok (CoordinatorEpoch.epoch (Cluster.epoch c));
  authority_token : text_param "fencing_token" (RemoteRequest.params request) =
    Ok (CoordinatorEpoch.fencing_token (Cluster.epoch c));
  authority_op : entitled r c (RemoteRequest.op request) caller }.

(** [m] changes the cluster only if [P]. *)
Definition needs (P : Prop) {A} (m : M W A) w : Prop :=
  ∀ w' res, m w = (w', res) → ¬ unchanged w w' → P.

Lemma needs_bind P {A B} (g : M W A) (k : A → M W B) w : Keeps undisturbed g →
  (∀ w1 a, g w = (w1, Ok a) → needs P (k a) w1) → needs P (g ≫= k) w.
Proof.
  intros Hg Hk w' res Hr Hne. rewrite M_bind_run in Hr. destruct (g w) as [w1 [a|e]] eqn:Hw;
    pose proof (keeps_run _ g _ _ _ Hw) as Hu; apply undisturbed_unchanged in Hu as [E1 E2].
  - apply (Hk w1 a eq_refl _ _ Hr). intros [F1 F2]. apply Hne. split; congruence.
  - simplify_eq. destruct Hne. by split.
Qed.
Lemma needs_quiet P {A} (m : M W A) w : Keeps undisturbed m → needs P m w.
Proof. intros Hm w' res Hr []. apply undisturbed_unchanged. by apply (keeps_run _ m _ _ _ Hr). Qed.
Lemma needs_throw P {A} cls msg w : needs P (throw cls msg : M W A) w.
Proof. apply needs_quiet, _. Qed.
Lemma needs_lift P {A B} (x : result A) (k : A → M W B) w :
  (∀ a, x = Ok a → needs P (k a) w) → needs P (lift x ≫= k) w.
Proof. intros Hk. apply needs_bind; [apply _|]. intros ? a [-> Hx]%lift_Ok. by apply Hk. Qed.
Lemma needs_guard P {B} b cls msg (k : () → M W B) w :
  (b = false → needs P (k ()) w) → needs P (throw_if b cls msg ≫= k) w.
Proof. intros Hk. apply needs_bind; [apply _|]. intros ? [] [-> Hb]%throw_if_Ok. by apply Hk. Qed.
Lemma needs_holds (P : Prop) {A} (m : M W A) w : P → needs P m w.
Proof. by intros ???. Qed.

(** ** The operations *)

Lemma transition_control op s actor target s' : transition op s actor target = Ok s' →
  ∃ id, RoleState._control s actor = Ok id.
Proof.
  unfold transition, RoleState.pause, RoleState.resume, RoleState.remove_job, RoleState._job, RoleState.revoke.
  repeat case_bool_decide; intros Ht; apply bind_Ok in Ht as (id & Hc & _); eauto.
Qed.

Lemma capabilities_control op s actor subject target params current s' :
  (if bool_decide (op = "revoke_capabilities") then RoleState.revoke_capabilities s actor subject target
   else names ← texts_param "permissions" params;
        permissions ← mapM NodePermission.of_value names;
        expires_at ← float_param "expires_at" params;
        RoleState.grant_capabilities s actor subject target (list_to_set permissions) current expires_at) = Ok s' →
  ∃ id, RoleState._control s actor = Ok id.
Proof.
  case_bool_decide.
  - intros Ht. apply bind_Ok in Ht as (id & Hc & _). eauto.
  - intros (? & _ & Ht)%bind_Ok. apply bind_Ok in Ht as (? & _ & Ht). apply bind_Ok in Ht as (? & _ & Ht).
    apply bind_Ok in Ht as (id & Hc & _). eauto.
Qed.

Lemma member_needs r c request caller actor state current w :
  RemoteRequest.op request ≠ "consume_invite" →
  od_get caller (Cluster.assignments c) = Some actor → topology r c = Ok state →
  needs (entitled r c (RemoteRequest.op request) caller)
    (dispatch_member clock write_fails (RemoteRequest.op request) (RemoteRequest.params request) caller
       actor state current c) w.
Proof.
  intros Hop Hactor Hstate. unfold entitled. rewrite (bool_decide_eq_false_2 _ Hop).
  assert (∀ id, RoleState._control state actor = Ok id → commands r c caller) as Hcmd.
  { intros id [Hid Hctl]%control_Ok. by exists actor, state, id. }
  unfold dispatch_member. case_bool_decide.
  { apply needs_guard. intros Hc. apply needs_holds. by to_prop. }
  case_bool_decide.
  { unfold dispatch_assign_role. do 2 (apply needs_lift; intros ? _). apply needs_guard. intros _.
    do 2 (apply needs_lift; intros ? _). apply needs_lift. intros out Ha. apply needs_holds.
    apply bind_Ok in Ha as (id & Hid & _). eauto. }
  case_bool_decide.
  { unfold dispatch_transition. apply needs_lift; intros ? _. apply needs_lift. intros s' Ht.
    apply needs_holds. apply transition_control in Ht as [id Hid]. eauto. }
  case_bool_decide.
  { apply needs_quiet. unfold dispatch_remove_connection. keeps. }
  case_bool_decide; [|case_bool_decide; apply needs_quiet; apply _].
  unfold dispatch_capabilities. apply needs_guard. intros _. do 2 (apply needs_lift; intros ? _).
  apply needs_bind; [apply _|]. intros w1 r1 [= <- <-]. apply needs_lift. intros s' Ht.
  apply needs_holds. apply capabilities_control in Ht as [id Hid]. eauto.
Qed.

Lemma consume_needs params caller current c w : _cluster (outside w) = Some c →
  needs (Cluster.is_active_coordinator c = true)
    (dispatch_consume_invite sha256_hex clock write_fails params caller current c) w.
Proof.
  intros Hc. destruct (Cluster.is_active_coordinator c) eqn:Hactive; [by apply needs_holds|].
  unfold dispatch_consume_invite. apply needs_lift. intros token _.
  apply needs_bind; [apply _|]. intros w1 t [= <- <-].
  unfold Cluster.consume_invite. rewrite Hactive. cbn [negb]. intros w' res Hr []. rewrite M_bind_run in Hr.
  unfold put_cluster, update in Hr. cbn [lift] in Hr. simpl in Hr. injection Hr as <- <-. split; simpl; [|done].
  by rewrite Hc.
Qed.

Lemma cluster_authorize_Ok c cluster e token : Cluster.authorize c cluster e token = Ok () →
  cluster = Cluster.cluster_id c ∧ e = CoordinatorEpoch.epoch (Cluster.epoch c) ∧
  token = CoordinatorEpoch.fencing_token (Cluster.epoch c).
Proof.
  unfold Cluster.authorize. repeat case_bool_decide; try done. simpl. intros (same & Hs & Hb)%bind_Ok.
  apply raise_if_Ok in Hb. to_prop. split_and!; try done. by eapply compare_Ok.
Qed.

(** A dispatch that changes the cluster had the authority for it. *)
Lemma dispatch_needs request w c : _cluster (outside w) = Some c →
  needs (∃ caller, authority (outside w) c request caller) (dispatch request) w.
Proof.
  intros Hc. unfold dispatch_role_request.
  apply needs_bind; [apply _|]. intros w1 ? [-> ->]%(require_cluster_run _ _ _ _ Hc).
  apply needs_bind; [apply _|]. intros w2 r [= <- <-].
  apply needs_lift. intros caller Hcaller%of_option_Ok. apply needs_guard. intros Hpaired. to_prop.
  apply needs_lift. intros cluster Hcluster. apply needs_lift. intros e He. apply needs_lift. intros token Htoken.
  apply needs_lift. intros [] Hauth%cluster_authorize_Ok. destruct Hauth as (-> & -> & ->).
  apply needs_bind; [apply _|]. intros w3 current [= <- <-].
  assert (entitled (outside w) c (RemoteRequest.op request) caller →
          ∃ caller, authority (outside w) c request caller) as Hdone by (by exists caller).
  case_bool_decide as Hop.
  - intros w' res Hr Hne. apply Hdone. unfold entitled. rewrite bool_decide_eq_true_2 by done.
    eapply consume_needs; [|exact Hr|exact Hne]. done.
  - apply needs_lift. intros actor Hactor%of_option_Ok. apply needs_lift. intros state Hstate.
    intros w' res Hr Hne. apply Hdone. by eapply member_needs; [..|exact Hr|exact Hne].
Qed.

Lemma dispatch_no_cluster request w : _cluster (outside w) = None → unchanged w (dispatch request w).1.
Proof.
  intros Hc. unfold dispatch_role_request, _require_cluster. rewrite M_bind_run, M_bind_run. simpl. by rewrite Hc.
Qed.
End authority.

(** ** From the envelope to the cluster *)

#[global] Instance undisturbed_same {Cap Srf Pr A} (m : M (World (Runtime.t Cap Srf Pr)) A) :
  Keeps undisturbed m → Keeps same_cluster m.
Proof. intros Hm w. by destruct (Hm w). Qed.
#[global] Instance frame_same {Cap Srf Pr A} (m : M (World (Runtime.t Cap Srf Pr)) A) :
  Keeps (frameb false) m → Keeps same_cluster m.
Proof. intros Hm w. destruct (Hm w) as [E _ _ _ _ _ _ _]. split; by rewrite E. Qed.

Section service.
Context (sha256_hex : string → string).
Context (hmac_sha256_hex : string → string → string) (float_repr : float → string).
Context (container_repr : json → string).
Context (parse_int : string → result Z) (parse_float : string → result float).
Context {Cap Srf Pr D P : Type} (isoformat : D → string) (path_str : P → string).
Context (clock : nat → float) (session_clock : nat → json) (draw : nat → nat → json).
Context (write_fails : nat → option exn).
Notation R := (Runtime.t Cap Srf Pr).
Notation W := (World R).
Implicit Types (w : W) (r : R) (c : Cluster.t) (request : RemoteRequest.t).

(** What the application supplies leaves the cluster alone: its handlers and its store, and the
    other threads while a request id is awaited. *)
Record leaves_cluster (app : Host W R Srf D P) : Prop := {
  share_leaves share n capability j :
    capability_share app = Some share → Keeps same_cluster (share n capability j);
  surface_leaves h n j : Keeps same_cluster (surface_run app h n j);
  dashboard_leaves : Keeps same_cluster (dashboard_snapshot app);
  component_leaves j : Keeps same_cluster (component_summary app j);
  processes_leave : Keeps same_cluster (process_candidates app);
  storage_leaves : Keeps same_cluster (storage_candidates app);
  store_leaves store j : idempotency_store app = Some store → Keeps same_cluster (store j);
  await_leaves key w : same_cluster w (await app key w).1 }.

Context (r0 : R) (app : Host W R Srf D P) (Happ : leaves_cluster app).
#[local] Existing Instances surface_leaves dashboard_leaves component_leaves processes_leave storage_leaves.
Notation host := (runtime_host sha256_hex clock write_fails r0 app).
Notation dispatch := (dispatch_role_request sha256_hex clock write_fails).
Notation solve := (_solve float_repr parse_int parse_float isoformat path_str clock host).
Notation guarded := (Service.solve float_repr parse_int parse_float isoformat path_str clock session_clock draw host).
Notation perform := (perform float_repr container_repr parse_int parse_float isoformat path_str clock session_clock draw host).
Notation handle := (handle hmac_sha256_hex float_repr container_repr parse_int parse_float isoformat path_str clock session_clock draw host).
Notation admitted := (admitted hmac_sha256_hex float_repr container_repr clock).
Notation answer := (answer hmac_sha256_hex float_repr container_repr parse_int parse_float isoformat path_str clock session_clock draw host).

(** *** The runtime's own handlers *)

#[local] Instance update_same f : (∀ r : R, _cluster (f r) = _cluster r) →
  (∀ r : R, _cluster_capability_grants (f r) = _cluster_capability_grants r) →
  (∀ r : R, _cluster_store (f r) = _cluster_store r) → (∀ r : R, _service (f r) = _service r) →
  Keeps same_cluster (update f : M W ()).
Proof. intros E1 E2 E3 E4 w. by split; simpl. Qed.
#[local] Instance revoke_same p refresh : Keeps same_cluster (revoke_peer clock write_fails p refresh : M W ()).
Proof.
  unfold revoke_peer, _require_pairing, restore.
  repeat first [apply save_same|apply (keeps_bind same_cluster); [|intros]|apply update_same; done|apply _|case_match].
Qed.
#[local] Instance revoke_self_same p : Keeps same_cluster (_revoke_self clock write_fails p : M W dict).
Proof. unfold _revoke_self. apply keeps_bind; apply _. Qed.

(** *** The service's steps *)

Lemma await_same key w : same_cluster w (await host key w).1.
Proof. exact (await_leaves app Happ key w). Qed.
Lemma frame_same_cluster w w' : frameb false w w' → same_cluster w w'.
Proof. intros [E _ _ _ _ _ _ _]. split; by rewrite E. Qed.
Lemma store_same store j : idempotency_store host = Some store → Keeps same_cluster (store j).
Proof. exact (store_leaves app Happ store j). Qed.

#[local] Instance execute_same key fp (m : M W dict) :
  Keeps same_cluster m → Keeps same_cluster (execute_once clock host key fp m).
Proof.
  intros Hm w. destruct (execute_once clock host key fp m w) as [w' r] eqn:He. simpl.
  apply (execute_stages clock host same_cluster) in He;
    [|apply frame_same_cluster|apply store_same|apply await_same].
  destruct He as [?|(w1 & w2 & r2 & F & Hr & ? & _)]; [done|].
  etrans; [by apply frame_same_cluster|]. etrans; [|done]. by apply (keeps_run _ m _ _ _ Hr).
Qed.
#[local] Instance service_same {A} (m : M RemoteService.t A) : Keeps same_cluster (on_service m : M W A).
Proof. apply _. Qed.
#[local] Instance surface_same registry request cg t :
  Keeps same_cluster (dispatch_surface_request float_repr (surface_run host) registry request cg t).
Proof.
  unfold dispatch_surface_request, SurfaceRegistry.dispatch. keeps.
  exact (surface_leaves app Happ _ _ _).
Qed.

#[local] Instance capability_same caller params :
  Keeps same_cluster (solve_capability host caller params).
Proof.
  unfold solve_capability. apply (keeps_lift_bind same_cluster). intros share Hs%of_option_Ok.
  apply (keeps_lift_bind same_cluster). intros capability _. apply (keeps_lift_bind same_cluster). intros inner _.
  assert (Keeps same_cluster (share caller capability inner)) by (by apply (share_leaves app Happ)).
  apply keeps_bind; apply _.
Qed.
(** The runtime gives its service no process manager. *)
#[local] Instance process_same request :
  Keeps same_cluster (solve_process_action parse_int parse_float host request).
Proof.
  unfold solve_process_action. do 2 (apply (keeps_bind same_cluster); [apply _|intros ?]).
  by apply (keeps_lift_bind same_cluster).
Qed.
#[local] Instance share_check_same request : Keeps same_cluster (check_dashboard_share clock (X := R) request).
Proof. unfold check_dashboard_share. keeps. Qed.
#[local] Instance snapshot_same : Keeps same_cluster (_dashboard_snapshot host).
Proof. pose proof (dashboard_leaves app Happ). unfold _dashboard_snapshot. keeps. Qed.
#[local] Instance host_same request :
  Keeps same_cluster (solve_host parse_int parse_float isoformat path_str clock host request).
Proof.
  unfold solve_host. pose proof (component_leaves app Happ).
  pose proof (processes_leave app Happ). pose proof (storage_leaves app Happ).
  change (component_summary host) with (component_summary app).
  change (process_candidates host) with (process_candidates app).
  change (storage_candidates host) with (storage_candidates app).
  repeat first [apply process_same|apply (keeps_bind same_cluster); [apply _|intros ?]|apply _|case_match].
Qed.

Lemma solve_same request grant : RemoteRequest.op request ∉ ROLE_OPERATIONS →
  Keeps same_cluster (solve request grant).
Proof.
  intros Hop. unfold Service._solve. rewrite (bool_decide_eq_false_2 _ Hop).
  apply (keeps_bind same_cluster); [apply _|intros cg].
  apply (keeps_lift_bind same_cluster). intros _ _. case_bool_decide.
  { apply (keeps_bind same_cluster); [apply _|intros caller].
    apply (keeps_lift_bind same_cluster). intros h [= <-]. apply _. }
  case_bool_decide.
  { apply (keeps_bind same_cluster); [apply _|intros caller; apply _]. }
  case_bool_decide; [|apply _].
  do 3 (apply (keeps_bind same_cluster); [apply _|intros ?]). apply _.
Qed.
(** *** A change comes from the dispatch *)

Notation needed Q := (needs (Cap := Cap) (Srf := Srf) (Pr := Pr) Q).

Lemma frame_bind Q {A B} (g : M W A) (k : A → M W B) w : Keeps (frameb false) g →
  (∀ w1 a, outside w1 = outside w → needed Q (k a) w1) → needed Q (g ≫= k) w.
Proof.
  intros Hg Hk w' res Hr Hne. rewrite M_bind_run in Hr. destruct (g w) as [w1 [a|e]] eqn:Hw;
    pose proof (frame_outside _ _ (keeps_run _ g _ _ _ Hw)) as E.
  - apply (Hk w1 a E _ _ Hr). unfold unchanged in *. by rewrite E.
  - simplify_eq. destruct Hne. unfold unchanged. by rewrite E.
Qed.
Lemma needs_then Q {A B} (g : M W A) (k : A → M W B) w : needed Q g w →
  (∀ a, Keeps same_cluster (k a)) → needed Q (g ≫= k) w.
Proof.
  intros Hg Hk w' res Hr Hne. rewrite M_bind_run in Hr. destruct (g w) as [w1 [a|e]] eqn:Hw.
  - apply (Hg _ _ Hw). intros [E1 E2]. apply Hne. destruct (keeps_run _ (k a) _ _ _ Hr) as [F1 F2 _ _].
    split; congruence.
  - simplify_eq. by apply (Hg _ _ Hw).
Qed.
Lemma needs_same Q {A} (m : M W A) w : Keeps same_cluster m → needed Q m w.
Proof. intros Hm w' res Hr []. by destruct (keeps_run _ m _ _ _ Hr). Qed.

#[local] Instance publish_same request secret payload id g :
  Keeps same_cluster (publish hmac_sha256_hex float_repr clock host request secret payload id g).
Proof.
  unfold publish. apply (keeps_bind same_cluster); [cbn [trust_revoke_commit runtime_host]; case_bool_decide; apply _|].
  intros u. case_match; apply _.
Qed.

Section request.
Context (request : RemoteRequest.t) (x : R) (Q : Prop).
Context (HQ : ∀ w, outside w = x → RemoteRequest.op request ∈ ROLE_OPERATIONS → needed Q (dispatch request) w).

Lemma solve_needs grant w : outside w = x → needed Q (solve request grant) w.
Proof.
  intros Hx. destruct (decide (RemoteRequest.op request ∈ ROLE_OPERATIONS)) as [Hop|Hop].
  2: { by apply needs_same, solve_same. }
  unfold Service._solve. rewrite (bool_decide_eq_true_2 _ Hop).
  apply frame_bind; [apply _|]. intros w1 cg E1. apply frame_bind; [apply _|]. intros w2 u E2.
  apply needs_lift. intros h Hh%of_option_Ok. cbn [role_handler runtime_host] in Hh.
  destruct (_cluster r0); [|done]. injection Hh as <-.
  apply HQ; [congruence|done].
Qed.

Lemma guarded_needs grant version id g w : outside w = x →
  needed Q (guarded request grant version id g) w.
Proof.
  intros Hx. unfold Service.solve. apply frame_bind; [apply _|]. intros w1 u E1.
  apply needs_then; [apply solve_needs; congruence|intros]. do 2 (apply (keeps_bind same_cluster); [apply _|intros]).
  apply _.
Qed.

Lemma execute_needs key fp m w : (∀ w, outside w = x → needed Q m w) → outside w = x →
  needed Q (execute_once clock host key fp m) w.
Proof.
  intros Hm Hx w' res He Hne. apply (execute_stages clock host same_cluster) in He;
    [|apply frame_same_cluster|apply store_same|apply await_same].
  destruct He as [[]|(w1 & w2 & r2 & F & Hr & [E1 E2 _ _] & _)]; [by destruct Hne|].
  pose proof (frame_outside _ _ F) as E. apply (Hm w1 ltac:(congruence) _ _ Hr).
  intros [F1 F2]. apply Hne. unfold unchanged. rewrite E1, E2, F1, F2. by rewrite E.
Qed.

Lemma perform_needs grant version id g fp w : outside w = x →
  needed Q (perform request grant version id g fp) w.
Proof.
  intros Hx. unfold Service.perform. apply frame_bind; [apply _|]. intros w1 u E1.
  apply frame_bind; [apply _|]. intros w2 cg E2. apply needs_then.
  - case_bool_decide; [|apply execute_needs; [intros|congruence]]; apply guarded_needs; congruence.
  - intros payload. do 4 (apply (keeps_bind same_cluster); [apply _|intros]). apply _.
Qed.

Lemma answer_needs grant secret id g fp version w : outside w = x →
  needed Q (answer request grant secret id g fp version) w.
Proof.
  intros Hx w' res Ha Hne. unfold ServiceFacts.answer, try_else in Ha.
  destruct (perform request grant version id g fp w) as [w1 res1] eqn:Hp.
  apply (perform_needs _ _ _ _ _ _ Hx _ _ Hp). intros [E1 E2]. apply Hne.
  assert (same_cluster w1 w') as [F1 F2 _ _]; [|split; congruence].
  destruct res1 as [payload|e].
  - by apply (keeps_run same_cluster _ _ _ _ Ha).
  - destruct (error_code e).
    + apply frame_same_cluster. by apply (keeps_run (frameb false) _ _ _ _ Ha).
    + unfold throw in Ha. by simplify_eq.
Qed.
End request.

(** The authority of a request over the cluster it changes. *)
Definition authorized_change (x : R) (request : RemoteRequest.t) : Prop :=
  RemoteRequest.op request ∈ ROLE_OPERATIONS ∧
  ∃ c caller, _cluster x = Some c ∧ authority x c request caller.

Lemma dispatch_authorized request w : RemoteRequest.op request ∈ ROLE_OPERATIONS →
  needed (authorized_change (outside w) request) (dispatch request) w.
Proof.
  intros Hop w' res Hr Hne. split; [done|]. destruct (_cluster (outside w)) as [c|] eqn:Hc.
  - destruct (dispatch_needs _ _ _ _ _ _ Hc _ _ Hr Hne) as [caller Ha]. by exists c, caller.
  - destruct Hne. pose proof (dispatch_no_cluster sha256_hex clock write_fails request w Hc) as Hu.
    by rewrite Hr in Hu.
Qed.

(** A call that changes the outside, and what it was made with. *)
Lemma answer_may request grant secret id g fp version w w' res :
  answer request grant secret id g fp version w = (w', res) → outside w' ≠ outside w →
  may (RemoteService.settings (svc w)) grant (RemoteRequest.op request).
Proof.
  unfold ServiceFacts.answer, try_else. intros Ha Hne.
  destruct (perform request grant version id g fp w) as [w2 [payload|e]] eqn:Hp.
  - by apply perform_Ok in Hp as [? _].
  - eapply perform_outside; [done|]. destruct (error_code e) as [code|].
    + apply (keeps_run (frameb false)) in Ha as F; [|apply _]. by rewrite <- (frame_outside _ _ F).
    + unfold throw in Ha. by simplify_eq.
Qed.

(** C7. A peer changes a cluster only with authority over it: whatever the application's handlers
    do and whichever writes fail, when serving a request changes the cluster or its grants, the
    envelope was signed under the caller's own secret for this node, it asks for a role
    operation, its caller is paired, it carries the cluster's identity, epoch and fencing token,
    and, but for the use of an invite at the active Coordinator and the Coordinator's lease, it
    acts as the member that controls the topology. *)
Theorem cluster_changes_need_authority env g w w' res :
  handle env g w = (w', res) → ¬ unchanged w w' →
  ∃ d request grant, env = Some (JObj d) ∧ admitted w d request grant ∧
    authorized_change (outside w) request.
Proof.
  intros Hh Hne. apply handle_stages in Hh
    as [[F Hno]|(d & request & grant & secret & id & fp & w1 & -> & F & [[Hd Hr] _] & Ha)].
  { destruct Hne. unfold unchanged. by rewrite (frame_outside _ _ F). }
  pose proof (frame_outside _ _ F) as E.
  assert (Hne1 : ¬ unchanged w1 w') by (unfold unchanged in *; by rewrite E).
  exists d, request, grant. split; [done|]. split.
  - apply Hr. rewrite <- (frame_settings _ _ F). eapply answer_may; [done|]. intros Eo. destruct Hne1.
    unfold unchanged. by rewrite Eo.
  - eapply (answer_needs request (outside w)); [|done|exact Ha|done].
    intros w2 <- Hop. by apply dispatch_authorized.
Qed.
(** *** A change of the access lists, and the answer *)

(** The service is as it was, and still there. *)
Definition service_kept w w' : Prop := svc w' = svc w ∧ _service (outside w') = _service (outside w).
#[local] Instance service_kept_refl : Reflexive service_kept.
Proof. by split. Qed.
#[local] Instance service_kept_trans : Transitive service_kept.
Proof. intros w1 w2 w3 [] []. split; congruence. Qed.
#[local] Instance runtime_kept : Keeps service_kept (runtime (Hc := Cap) (Hs := Srf) (Pr := Pr)).
Proof. by intros w. Qed.
#[local] Instance update_kept f : (∀ r : R, _service (f r) = _service r) → Keeps service_kept (update f : M W ()).
Proof. intros E w. by split; simpl. Qed.
#[local] Instance write_kept f : (∀ r : R, _service (f r) = _service r) →
  Keeps service_kept (write write_fails f : M W ()).
Proof. intros E w. unfold write. destruct (write_fails _); by split; simpl. Qed.
#[local] Instance net_kept {A} (m : M (Network.t Pr) A) : Keeps service_kept (on_net m : M W A).
Proof. intros w. unfold on_net. by destruct (m _). Qed.
#[local] Instance registry_kept {A} (m : M NodeRegistry.t A) : Keeps service_kept (on_registry m : M W A).
Proof. apply _. Qed.
#[local] Instance saved_kept (m : M W ()) : Keeps service_kept m → Keeps service_kept (saved m).
Proof. intros Hm. unfold saved. apply keeps_attempt; [apply _..|]. intros e. case_match; apply _. Qed.
#[local] Instance save_kept : Keeps service_kept (_save_persisted_state write_fails : M W bool).
Proof.
  unfold _save_persisted_state, save_trust, save_cluster.
  repeat first [apply (keeps_bind service_kept); [|intros]|apply saved_kept|by apply write_kept|apply _|case_match].
Qed.
#[local] Instance commit_kept c updated failure : Keeps service_kept (commit_topology write_fails c updated failure : M W ()).
Proof.
  unfold commit_topology, put_state.
  repeat first [apply save_kept|apply (keeps_bind service_kept); [|intros]|by apply update_kept|apply _|case_match].
Qed.
#[local] Instance hydrate_member_kept c n a : Keeps service_kept (hydrate_member c n a : M W ()).
Proof. unfold hydrate_member. keeps. Qed.
#[local] Instance hydrate_members_kept c l : Keeps service_kept (hydrate_members c l : M W ()).
Proof. induction l as [|[n a] l IH]; simpl; keeps. Qed.
#[local] Instance hydrate_kept : Keeps service_kept (_hydrate_registry_membership : M W ()).
Proof. unfold _hydrate_registry_membership. keeps. Qed.

#[local] Instance now_kept : Keeps service_kept (now clock (X := R)).
Proof. by intros w. Qed.
#[local] Instance require_kept : Keeps service_kept (_require_cluster : M W Cluster.t).
Proof. unfold _require_cluster. keeps. Qed.

Lemma refresh_bumps w w' : _refresh_live_grants w = (w', Ok ()) → _service (outside w) = true →
  (RemoteService._grant_version (svc w) < RemoteService._grant_version (svc w'))%Z.
Proof.
  unfold _refresh_live_grants. intros Hr Hs. rewrite M_bind_run in Hr. simpl in Hr. rewrite Hs in Hr. simpl in Hr.
  apply M_bind_Ok in Hr as (? & grants & [-> Hg]%lift_Ok & Hr). apply M_bind_Ok in Hr as (w1 & [] & H1 & Hr).
  unfold on_service, RemoteService.update_grants in H1. destruct (RemoteService.validate_grants grants); [|done]. injection H1 as <-.
  unfold on_service, RemoteService.update_cluster_capability_grants in Hr. injection Hr as <-. simpl. lia.
Qed.

(** A method that succeeds only after a refresh. *)
Definition bumps {A} (m : M W A) : Prop := ∀ w w' a, m w = (w', Ok a) → _service (outside w) = true →
  (RemoteService._grant_version (svc w) < RemoteService._grant_version (svc w'))%Z.

Lemma bumps_after {A B} (g : M W A) (k : A → M W B) : Keeps service_kept g → (∀ a, bumps (k a)) → bumps (g ≫= k).
Proof.
  intros Hg Hk w w' b (w1 & a & H1 & H2)%M_bind_Ok Hs. destruct (keeps_run service_kept g _ _ _ H1) as [E1 E2].
  rewrite <- E1. eapply Hk; [done|congruence].
Qed.
Lemma bumps_refresh {A} (a : A) : bumps (_refresh_live_grants;; mret a).
Proof.
  intros w w' b Hr Hs. apply M_bind_Ok in Hr as (w1 & [] & H1 & [-> _]%mret_run). by apply refresh_bumps.
Qed.
Lemma bumps_throw {A} cls msg : bumps (throw cls msg : M W A).
Proof. done. Qed.

(** The operations that end with a refresh of the service's access lists. *)
Definition refreshing_ops : list string :=
  ["assign_role"; "revoke_member"; "revoke_worker"; "grant_capabilities"; "revoke_capabilities";
   "sync_capability_grant"].

Lemma assign_bumps params caller actor state current c :
  bumps (dispatch_assign_role write_fails params caller actor state current c : M W dict).
Proof. unfold dispatch_assign_role. do 8 (apply bumps_after; [apply _|intros ?]). apply bumps_refresh. Qed.

Lemma transition_bumps op params actor state c : revokes op = true →
  bumps (dispatch_transition write_fails op params actor state c : M W dict).
Proof.
  intros Hop. unfold dispatch_transition. rewrite Hop. do 3 (apply bumps_after; [apply _|intros ?]).
  apply bumps_refresh.
Qed.

Lemma capabilities_bumps op params caller actor state current c :
  bumps (dispatch_capabilities write_fails op params caller actor state current c : M W dict).
Proof.
  unfold dispatch_capabilities. do 5 (apply bumps_after; [apply _|intros ?]).
  apply bumps_after; [by apply update_kept|intros _]. apply bumps_after; [apply _|intros persisted].
  destruct persisted; [apply bumps_refresh|]. apply bumps_after; [by apply update_kept|]. intros _. apply bumps_throw.
Qed.

(** A closed decidable fact. *)
Ltac decided := apply (bool_decide_unpack _); vm_compute; exact I.

Lemma member_bumps op params caller actor state current c : op ∈ refreshing_ops →
  bumps (dispatch_member clock write_fails op params caller actor state current c : M W dict).
Proof.
  unfold refreshing_ops. intros Hop.
  repeat (apply elem_of_cons in Hop as [->|Hop];
    [unfold dispatch_member; repeat rewrite bool_decide_eq_false_2 by decided;
     rewrite bool_decide_eq_true_2 by decided;
     first [apply assign_bumps|by apply transition_bumps|apply capabilities_bumps]|]).
  by apply elem_of_nil in Hop.
Qed.

Lemma dispatch_bumps request : RemoteRequest.op request ∈ refreshing_ops → bumps (dispatch request).
Proof.
  intros Hop. unfold dispatch_role_request.
  rewrite bool_decide_eq_false_2.
  2: { intros E. rewrite E in Hop. revert Hop. decided. }
  do 11 (apply bumps_after; [apply _|intros ?]). by apply member_bumps.
Qed.

Lemma guarded_refused request grant version id g w w' d : RemoteRequest.op request ∈ refreshing_ops →
  RemoteRequest.op request ∈ ROLE_OPERATIONS → _cluster r0 ≠ None → _service (outside w) = true →
  guarded request grant version id g w ≠ (w', Ok d).
Proof.
  intros Hop Hrole Hr0 Hs Hr. unfold Service.solve in Hr.
  apply M_bind_Ok in Hr as (w1 & u & H1 & Hr). pose proof (keeps_run (frameb false) _ _ _ _ H1) as F1.
  apply assert_grant_Ok in H1. apply M_bind_Ok in Hr as (w2 & out & H2 & Hr).
  apply M_bind_Ok in Hr as (w3 & u3 & H3 & Hr). pose proof (keeps_run (frameb false) _ _ _ _ H3) as F3.
  apply M_bind_Ok in Hr as (w4 & u4 & H4 & _). apply assert_grant_Ok in H4.
  unfold Service._solve in H2. apply M_bind_Ok in H2 as (w5 & cg & H5 & H2).
  pose proof (keeps_run (frameb false) _ _ _ _ H5) as F5. apply M_bind_Ok in H2 as (? & ? & [-> _]%lift_Ok & H2).
  rewrite bool_decide_eq_true_2 in H2 by done. apply M_bind_Ok in H2 as (? & h & [-> Hh%of_option_Ok]%lift_Ok & H2).
  cbn [role_handler runtime_host] in Hh. destruct (_cluster r0); [|done]. injection Hh as <-.
  apply (dispatch_bumps request Hop) in H2.
  rewrite (frame_outside _ _ F5), (frame_outside _ _ F1) in H2. specialize (H2 Hs).
  pose proof (frame_version _ _ F1). pose proof (frame_version _ _ F3). pose proof (frame_version _ _ F5). lia.
Qed.
Lemma perform_refused request grant version id g fp w w' d : RemoteRequest.op request ∈ refreshing_ops →
  RemoteRequest.op request ∈ ROLE_OPERATIONS → _cluster r0 ≠ None → _service (outside w) = true →
  perform request grant version id g fp w = (w', Ok d) → same_cluster w w'.
Proof.
  intros Hop Hrole Hr0 Hs Hr. unfold Service.perform in Hr.
  apply M_bind_Ok in Hr as (w1 & u1 & H1 & Hr). pose proof (keeps_run (frameb false) _ _ _ _ H1) as F1.
  apply M_bind_Ok in Hr as (w2 & u2 & H2 & Hr). pose proof (keeps_run (frameb false) _ _ _ _ H2) as F2.
  apply M_bind_Ok in Hr as (w3 & payload & H3 & Hr).
  assert (F : frameb false w w2) by (by etrans).
  assert (Hs2 : _service (outside w2) = true) by (by rewrite (frame_outside _ _ F)).
  assert (same_cluster w3 w') as F3.
  { exact (keeps_run same_cluster _ _ _ _ Hr). }
  etrans; [by apply frame_same_cluster|]. etrans; [|done]. case_bool_decide as Hread.
  { by apply guarded_refused in H3. }
  apply (execute_stages clock host same_cluster) in H3;
    [|apply frame_same_cluster|apply store_same|apply await_same].
  destruct H3 as [?|(w4 & w5 & r2 & F4 & Hg & _ & Hok)]; [done|]. rewrite (Hok payload eq_refl) in Hg.
  exfalso. eapply guarded_refused; [..|exact Hg]; try done. by rewrite (frame_outside _ _ F4).
Qed.

(** A change of the topology is never acknowledged: an assignment, a revocation or a capability
    grant that a peer asks for refreshes the access lists of the service that is serving it, and
    the service then refuses to answer [ok], although the change is made and saved. *)
Theorem role_changes_are_never_acknowledged d op env g w w' res :
  handle env g w = (w', res) → env = Some (JObj d) → jget "op" d = JStr op → op ∈ refreshing_ops →
  _cluster r0 ≠ None → _service (outside w) = true → ¬ unchanged w w' → ¬ answered_ok res.
Proof.
  intros Hh -> Hop Href Hr0 Hs Hne Hok. apply handle_stages in Hh
    as [[F Hno]|(d' & request & grant & secret & id & fp & w1 & [= <-] & F & [[Hd _] _] & Ha)].
  { by destruct Hok as (resp & -> & _). }
  assert (RemoteRequest.op request = op) as Eop.
  { apply describes_op in Hd. unfold jget in Hop. rewrite Hd in Hop. by injection Hop. }
  pose proof (frame_outside _ _ F) as E. unfold ServiceFacts.answer, try_else in Ha.
  destruct (perform request grant _ id g fp w1) as [w2 [payload|e]] eqn:Hp.
  - apply perform_refused in Hp as [E1 E2 _ _]; [|by rewrite Eop| |done|by rewrite E].
    + assert (same_cluster w2 w') as [F1 F2 _ _] by (by apply (keeps_run same_cluster _ _ _ _ Ha)).
      apply Hne. unfold unchanged. rewrite F1, F2, E1, E2. by rewrite E.
    + rewrite Eop. revert Href. clear. unfold refreshing_ops. intros Hop.
      repeat (apply elem_of_cons in Hop as [->|Hop]; [decided|]). by apply elem_of_nil in Hop.
  - destruct (error_code e) as [code|]; [by eapply error_answer|].
    unfold throw in Ha. simplify_eq. by destruct Hok as (? & ? & _).
Qed.
End service.

(** ** A concrete run *)

Lemma quiet_app_leaves : leaves_cluster quiet_app.
Proof. split; try done; intros; apply _. Qed.

(** The Coordinator revokes the worker [w], over the wire. *)
Definition revoke_envelope : dict :=
  match sign_request sample_mac sample_text "s" "revoke_worker"
          (RuntimeFacts.authority ++ [("target_node_id", JStr "w")]) "r1" "n1" (flit 100) sample_secret (Some "c")
          None false None with
  | Ok env => env
  | Err _ => []
  end.

Definition served_revoke : World SampleRuntime * result dict :=
  handle sample_mac sample_text (λ _, "") (λ _, raise ValueError "no number")
    (λ _, raise ValueError "no number") id id sample_clock (λ _, JFloat (flit 5)) (λ _ _, JStr "s1")
    (runtime_host (λ s, s) sample_clock no_failure sample_runtime quiet_app)
    (Some (JObj revoke_envelope)) None sample_world.

Lemma revoke_run_eq :
  handle sample_mac sample_text (λ _, "") (λ _, raise ValueError "no number")
    (λ _, raise ValueError "no number") id id sample_clock (λ _, JFloat (flit 5)) (λ _ _, JStr "s1")
    (runtime_host (λ s, s) sample_clock no_failure sample_runtime quiet_app)
    (Some (JObj revoke_envelope)) None sample_world = (served_revoke.1, served_revoke.2).
Proof. apply surjective_pairing. Qed.

(** The members that are not revoked. *)
Definition active (r : SampleRuntime) : list NodeId :=
  match _cluster r with
  | Some c => fst <$> List.filter (λ m, negb (RoleAssignment.revoked m.2)) (Cluster.assignments c)
  | None => []
  end.

Lemma revoke_run_changes : ¬ unchanged sample_world served_revoke.1.
Proof.
  intros [E _]. assert (active (outside sample_world) = active (outside served_revoke.1)) as F.
  { unfold active. by rewrite E. }
  vm_compute in F. discriminate F.
Qed.

Lemma cluster_changes_need_authority_witness :
  active (outside served_revoke.1) = [node_c; node_s] ∧
  ∃ d request grant, Some (JObj revoke_envelope) = Some (JObj d) ∧
    admitted sample_mac sample_text (λ _, "") sample_clock sample_world d request grant ∧
    authorized_change sample_runtime request.
Proof.
  split; [vm_compute; reflexivity|].
  exact (cluster_changes_need_authority _ _ _ _ _ _ _ _ _ _ _ _ _ _ quiet_app_leaves _ _ _ _ _
           revoke_run_eq revoke_run_changes).
Defined.

Lemma role_changes_are_never_acknowledged_witness :
  active (outside served_revoke.1) = [node_c; node_s] ∧ ¬ answered_ok served_revoke.2.
Proof.
  split; [vm_compute; reflexivity|].
  refine (role_changes_are_never_acknowledged _ _ _ _ _ _ _ _ _ _ _ _ _ _ quiet_app_leaves
            revoke_envelope "revoke_worker" _ _ _ _ _ revoke_run_eq eq_refl _ _ _ eq_refl revoke_run_changes).
  - vm_compute. reflexivity.
  - apply (bool_decide_unpack _). vm_compute. exact I.
  - intros E. discriminate E.
Defined.
